(* ===== verification/_CoqProject ===== *)
-Q . S2P
Prelude.v
Types.v
Instances.v
Encoding.v
Trace.v
TraceSpec.v
Heuristic.v
HeuristicSpec.v
SimProfile.v
Prestate.v
Merkle.v
Scan.v
FrameTree.v
ScanSpec.v
Prune.v
EncodeTree.v
WalkSpec.v
WalkInv.v
TreeSpec.v
Typing.v
SplitTyping.v
Provenance.v
Estimator.v
EstimatorSpec.v
RateLimit.v
Effects.v
Analyze.v
AnalyzeSpec.v
Jobs.v
QueueSpec.v
WorkerSpec.v
TrackerSpec.v
Transport.v
RpcDb.v
RpcDbSpec.v
CallTrace.v
Extract.v
ExtractSpec.v
Executor.v
Estimates.v
Encode.v
EncodeSpec.v
LeanTrace.v
LeanSpec.v
Seeds.v
SeedsSpec.v
Wasm.v
WasmSpec.v
Resolver.v
ResolverSpec.v
Labeler.v
LabelerSpec.v
Anvil.v
AnvilSpec.v
Cli.v
CliSpec.v
Auth.v
AuthSpec.v
Refresher.v
RefresherSpec.v
Service.v
Web.v
WebSpec.v
Diagnose.v
DiagnoseSpec.v
Format.v
FormatSpec.v
Pages.v
Admin.v
AdminSpec.v
Database.v
DatabaseSpec.v
Queries.v
QueriesSpec.v
DbWorld.v
ServiceDb.v
Server.v
ServerSpec.v
ServerDb.v
System.v
