(* ===== verification/Prelude.v ===== *)
(** * A verification library for the gas analyzer

    The program simulates a transaction of a contract (the consumer), extracts the state updates the
    contract made (its program), encodes them for on-chain replay, splits nested calls into frames
    that commit to each other through a Merkle tree, prices the result, and runs the analysis over
    whole blocks as a service. This library models the Rust crates under [src/crates/] as executable
    definitions and proves what each part promises.

    ** How the parts interact

    A node gives a struct-log trace of a call, or a prestate diff and a call frame. [Trace] and
    [Prestate] turn either into a list of [StateUpdate]s ([Types]); [Encoding] makes the bytes that are
    signed. For nested settlement [Scan] decides which calls may become frames, [FrameTree] walks the
    trace with a stack of frames and [Prune] drops what does not pay; [EncodeTree] links the frames
    through [Merkle]. [Heuristic] and [SimProfile] price a program on paper, [Estimator] on an EVM.
    [Extract] chooses between the two extractions and remembers what an endpoint supports, [Executor]
    builds and caches the state of a block read through [RpcDb], [Estimates] runs [Estimator] on it, and
    [Encode] composes all of these into the two entry points a settlement service calls. [Analyze]
    composes [Trace] with [Estimates] into the report on a mined transaction; [Jobs] is the service
    around it: a queue, a loop that follows the chain head into the queue, and a loop that works it off
    through [RateLimit]. [LeanTrace] and [Wasm] are the browser's way into the same core. [Resolver]
    and [Labeler] name the contracts the service reports on, [Refresher] keeps their prices; [Auth] and [Web]
    are the dashboard's sessions, forms and queries, [Pages] and [Admin] its pages, [Diagnose] the button that
    asks a language model. [Database] is the store they all write to and [Queries] what the pages read from
    it; [Service] has the service's processes and [Server] the dashboard's answer to a request, and [System] puts
    them around one database. [Anvil] measures a program on a forked node, and [Cli] is the command line that
    runs [Anvil] or [Encode].

    ** Which file models what

    - [Prelude]: machine integers, [Res] (an outcome: a value, an error, a panic), [Eff] (a [Res] with
      the state of the world), ordered maps and sets, texts, tactics and hints. [Effects]: the logic of
      [Eff], a triple [ensures I m Q F] with its rules.
    - [Types], [Encoding]: [core/src/types.rs], [encoding.rs]. [Instances] has concrete functions
      that satisfy the laws assumed of the hashing and ABI libraries, for the examples.
    - [Trace] ([core/src/trace.rs]): one function per stretch of the loop body; [TraceState] holds the
      loop's mutable locals. [TraceSpec] has execution trees, the logs they leave, and the reference
      extraction on trees.
    - [Heuristic], [HeuristicSpec] ([core/src/heuristic.rs]); [SimProfile] ([core/src/sim_profile.rs]);
      [Prestate] ([core/src/prestate.rs]).
    - [Scan], [ScanSpec], [FrameTree], [Prune], [Merkle], [EncodeTree] ([core/src/nested.rs]). [WalkSpec]
      states the walk as a step relation on an abstract stack of programs and shows that the code refines it;
      [WalkInv] has the invariant by rule induction; [TreeSpec] is about state slices and the tree a split
      returns. [Typing] says what each opcode does, from its operands and memory, and that the updates of the
      single pass are that; [Provenance] that the operations of a split's frames are, each in the storage of
      its frame's contract. [Typing] and [SplitTyping] show that all their values have the widths of their
      Solidity types, which makes a leaf determine its frame.
    - [Estimator], [EstimatorSpec], and the replay in [Estimates] ([gas-estimator/src/lib.rs]).
    - [Transport], [RpcDb], [RpcDbSpec] ([evmsketch/src/simple_rpc_db.rs]); [CallTrace]
      ([rpc/src/lib.rs]); [Extract], [ExtractSpec], [Executor], [Estimates], [Encode],
      [EncodeSpec] ([evmsketch/src/lib.rs]).
    - [RateLimit] ([indexer-rpc/src/lib.rs]), [Analyze], [AnalyzeSpec] ([indexer-api/src/lib.rs]),
      [Jobs], [QueueSpec], [WorkerSpec], [TrackerSpec] ([indexer-service/src/queue.rs], [worker.rs],
      [head_tracker.rs]).
    - [LeanTrace], [LeanSpec] ([wasm/src/lean_trace.rs]); [Seeds], [SeedsSpec], [Wasm], [WasmSpec]
      ([wasm/src/lib.rs]): the state a browser replays on, and the entry points.
    - [Resolver], [ResolverSpec] ([indexer-resolver/src]); [Labeler], [LabelerSpec]
      ([indexer-service/src/labeler.rs], [fourbyte_resolver.rs]); [Refresher], [RefresherSpec]
      ([indexer-service/src/refresher.rs]).
    - [Anvil], [AnvilSpec] ([anvil/src/lib.rs]); [Cli], [CliSpec] ([cli/src/main.rs]).
    - [Auth], [AuthSpec] ([indexer-web/src/auth.rs] and the login of [handlers/public.rs]); [Web], [WebSpec]
      ([admin.rs], [labels.rs], [queries.rs], [handlers/public.rs]); [Diagnose], [DiagnoseSpec]
      ([diagnostics.rs], [llm.rs], [admin.rs]); [Format], [FormatSpec], [Pages] ([handlers/public.rs]);
      [Admin], [AdminSpec] ([admin.rs]).
    - [Database], [DatabaseSpec] ([indexer-store/src/lib.rs] and its migrations): tables, views and
      statements. [Queries], [QueriesSpec] ([indexer-web/src/queries.rs]) implement the query classes of
      [Pages], [Admin], [Diagnose] and [Web]. [DbWorld] is a world that has the tables beside the rest, with an
      instance of every class the service and the dashboard are written against, and follows a computation
      down to its statements; [ServiceDb] and [ServerDb] do so for each part.
    - [Service] ([indexer-service/src/main.rs], [config.rs] and the loops of the other files): arguments, the start
      of the three commands, and the rounds of a process. [Server], [ServerSpec] ([indexer-web/src/main.rs],
      [error.rs], the queries and forms of the handlers): arguments, router, what is read from a request, the
      dashboard's state, start and answers. [System]: the deployment, a run of requests, starts and rounds in
      any order.

    ** Conventions

    Names are the source's. Machine integers are [Z] with [wrap64], [sat_add] and the like where the
    code wraps or saturates; words and addresses are [Z]; byte strings are [list Z]; [BTreeMap] and
    [HashMap] are [gmap]. A panic ([expect], an index out of range) is the outcome [Panic], apart from
    errors, so that a theorem can say that it does not happen. A function of many mutable locals is a
    step on a record of them. Rust's [async] functions are [Eff] computations on a world [W]; the
    branches of a [try_join!] and the tasks of a buffered stream run one after the other, unless the
    order is the point ([RpcDbSpec] quantifies over the order a prefetch completes in).

    Code outside the repository is a parameter: classes hold its operations, and classes named [..Laws]
    (and [BlockState]) what the proofs assume of them. [Externals] and [DynAbi] are hexadecimal, hashing
    and the ABI; [Revm], [Replay], [Runtime], [EmptyRuntime] and [CacheDB] the EVM and its cache; [TraceNode],
    [StateNode], [EthCall], [SketchBuilder], [Sketch] and [Node] what a node answers; [Lru], [Clock], [Texts],
    [Serde], [Inputs], [Strings] and [Unicode] other libraries; [QueueServer] and [SortedSet] Redis; [Store],
    [Backend], [WebStore], [Settings], [Allowlist], [Sources], [Explorers] and [FourByte] databases, files and
    web services; [Crypto] and [Dates] more libraries. [AnvilFork], [AnvilServices], [Signatures] and
    [FrameSketch] are what a measurement and the command line need of a fork, a directory of signatures and a
    sketch; [AddressText] and [CliEnv] the texts and the environment; [PriceApi], [PriceStore] and [Decimals]
    the prices; [Connection], [Numeric] and [Aggregates] the connection to the database and its decimal
    arithmetic, which [ExactPrices] says keeps eight decimals; [Monitor], [HealthQueries], [AdminQueries],
    [Reports], [PageTexts] and [ListTexts] the dashboard's queries and texts; [LlmApi] and [Markdown] the language
    model and its markup; [UrlDecoding] a request's encoding; [Connections], [Clients] and [WebConnections] what a
    start connects to; [DashboardWorld] and [WorkerWorld] the rest of Redis, the clock and the deadline of an
    analysis. [Analyzer] is the
    interface of [Analyze] to the worker. Each theorem with such an assumption has a witness at a concrete
    instance.

    ** What the theorems show

    - Extraction: on the logs of any execution tree the single pass is the recursive extraction
      ([TraceSpec.compute_state_updates_tree]), never skips silently, and the counters of [Heuristic]
      are those of the tree; the net form of [Prestate] reaches the post-state in emission order and is
      chosen exactly when it can.
    - Nested settlement: the scan is the per-call verdict; the walk keeps a pre-order tree whose
      NESTED ops are its edges; slices are exact; a split tree encodes; every proof in it verifies.
    - Pricing: the gate bounds the estimate; a frame tree runs each piece once, in execution order.
    - Settlement entry points: extraction returns what its encoding stands for whatever an endpoint
      supports; the executor cache is sound; encoded bytes and trees agree with the chain's truth.
    - Service: the worker refines an abstract queue, loses no job and drains; the head tracker covers
      every block; retries terminate; a report says what the receipt and the estimate say.
    - Browser: dropping unread memory changes no extraction and no split; the storage and accounts an
      empty state is seeded with are those from before the transaction, for a tree as far as its frames'
      stores are the last ones ([SeedsSpec.frame_tree_seeds_sound] has the exact value of every slot); which
      estimate is reported.
    - Names: a curated mapping always wins and a failed refresh changes nothing; what a label attempt
      leaves behind.
    - Dashboard: a session token proves a recent login of a user still listed; a numbered parameter is bound
      to what its clause is about; the data floor survives a restart; slugs have one shape. Calls of the
      language model keep their distance however requests interleave; its markup reaches the page without
      raw HTML or foreign schemes; two health views agree; a printed sum is the nearest one.
    - Provenance: every update of an extracted program is what an opcode of the trace did, in a split in the
      storage of its frame's contract, and its values fit their Solidity types; the string a leaf hashes
      determines its frame and the signed program.
    - Anvil and the command line: a measurement restores the fork, a failed one does not; an owned list is
      never ignored; what is printed rests on what it says; the what-if accounts for every owned contract.
    - Database: whatever runs and whenever the connection fails, references stay whole and numbers fit their
      columns ([DatabaseSpec.store_integrity]), an analysis changes
      only to name its unknown project, and a person's mapping stays; what is stored is read back; relabelling
      and the producer's ranking are exact; the views add up to the analyses. A label attempt keeps all that.
    - Queries: totals count each analysis in their window once; no row of a ranking has the address of what is
      blacklisted.
    - Dashboard server: without a session nothing changes and only public pages are answered; a request that is
      not a form changes nothing, and a form only what it is for ([ServerDb.request_changes]); which queries are
      accepted.
    - Deployment: however requests and rounds interleave and fail, references stay whole, history is kept, a
      person's mapping changes only by a signed-in user's form for it ([System.deployment_keeps]), and each
      entry of the blacklist that changes is at the contract and function of a form for it, with the reason and
      in the name of the user who sent it ([System.blacklist_signed]).
    - Prices: a backfill stores exactly the missing days that have a sample.

    ** Fuel

    [FrameTree.close_frames] pops a frame a round, so the number of open frames is enough, and what is
    left then is proved shallow enough. [Estimator.run] and [Seeds.return_order] descend to children with
    larger indices, so one more than the number of frames is enough. [RateLimit.retry_loop] is bounded
    by its attempts. The service's loops are modelled by their rounds; a run is a list of rounds.

    ** Not modelled

    Spawning an Anvil process, and the colours and wording of what the command line prints, are left out. Of the
    database: the pool and the runner of migrations (the tables are those of the last one), a connection lost
    after the server committed, the order of tied rows, sums beyond a [bigint]; the lists of transactions are
    texts that a parameter runs. Of the deployment: when timers fire, the limiter's waits, the reading of
    arguments and of the environment, templates, compression and static files; rounds and requests run one at a
    time, and what [System] shows of them rests on what each single statement keeps. Logging, timings and metrics are left out
    everywhere. JSON, YAML, HTTP, decimals and address parsing are the libraries'. *)

From Stdlib Require Export ZArith Lia.
From Stdlib Require Import Strings.Ascii.
From stdpp Require Export sorting.
From stdpp Require Export base option strings gmap sets numbers.
From stdpp Require Export list list_relations.

#[global] Open Scope Z_scope.

(** ** Machine integers

    [u64] and [usize] (64-bit targets) are [Z] with the wrap-around written out; [U256], [B256] and
    [Address] are [Z] below [2^256] and [2^160]. *)

Definition u64_max : Z := 2 ^ 64 - 1.
Definition u256_max : Z := 2 ^ 256 - 1.

(** A value fits [u64]. *)
Definition is_u64 (z : Z) : Prop := 0 <= z <= u64_max.
Definition is_u256 (z : Z) : Prop := 0 <= z <= u256_max.

Definition wrap64 (z : Z) : Z := z mod 2 ^ 64.

(** Rust's [+], [*] on [u64] in a release build: modulo [2^64]. *)
Definition u64_add (a b : Z) : Z := wrap64 (a + b).
Definition u64_mul (a b : Z) : Z := wrap64 (a * b).
(** [saturating_sub], [saturating_add], [saturating_mul] on [u64]. *)
Definition sat_sub (a b : Z) : Z := Z.max 0 (a - b).
Definition sat_add (a b : Z) : Z := Z.min u64_max (a + b).
Definition sat_mul (a b : Z) : Z := Z.min u64_max (a * b).

(** The sum of an iterator of [u64]s. *)
Definition u64_sum (l : list Z) : Z := fold_left u64_add l 0.

(** [Address::from_word]: the low 20 bytes of a 32-byte word. *)
Definition address_from_word (w : Z) : Z := Z.land w (Z.ones 160).

(** Length of a vector as a [Z]. *)
Definition zlen {A} (l : list A) : Z := Z.of_nat (length l).

(** Big-endian bytes. *)
Fixpoint be_bytes (n : nat) (z : Z) : list Z :=
  match n with
  | O => []
  | S n => be_bytes n (z / 256) ++ [z mod 256]
  end.

Definition be_to_Z (bs : list Z) : Z := fold_left (λ acc b, acc * 256 + b) bs 0.

Definition is_byte (b : Z) : Prop := 0 <= b < 256.

#[export] Instance is_u64_dec z : Decision (is_u64 z).
Proof. unfold is_u64. apply _. Defined.
#[export] Instance is_u256_dec z : Decision (is_u256 z).
Proof. unfold is_u256. apply _. Defined.
#[export] Instance is_byte_dec z : Decision (is_byte z).
Proof. unfold is_byte. apply _. Defined.

(** ** Outcomes: [Result] values and panics *)

Inductive Res (E A : Type) : Type :=
  | Ok (a : A)
  | Err (e : E)
  | Panic (why : string).
Arguments Ok {E A} a.
Arguments Err {E A} e.
Arguments Panic {E A} why.

#[export] Instance res_ret (E : Type) : MRet (Res E) := λ A a, Ok a.
#[export] Instance res_bind (E : Type) : MBind (Res E) := λ A B f m,
  match m with
  | Ok a => f a
  | Err e => Err e
  | Panic w => Panic w
  end.

(** [ok_or], [expect] and [bail!]. *)
Definition ok_or {E A} (o : option A) (e : E) : Res E A :=
  match o with Some a => Ok a | None => Err e end.
Definition expect {E A} (o : option A) (w : string) : Res E A :=
  match o with Some a => Ok a | None => Panic w end.
Definition bail_if {E} (b : bool) (e : E) : Res E unit :=
  if b then Err e else Ok tt.

(** A [for] loop over a list whose body may fail. *)
Fixpoint foldM {E A B} (f : A → B → Res E A) (l : list B) (a : A) : Res E A :=
  match l with
  | [] => Ok a
  | x :: l => a' ← f a x; foldM f l a'
  end.

(** ** Effects: fallible operations on the state of the world

    [W] is everything outside the process: a node, a queue server, a database, the clock. An operation
    leaves a new world whether it succeeds or fails. *)

Definition Eff (E W A : Type) : Type := W → Res E A * W.

#[export] Instance eff_ret (E W : Type) : MRet (Eff E W) := λ A a w, (Ok a, w).
#[export] Instance eff_bind (E W : Type) : MBind (Eff E W) := λ A B f m w,
  match m w with
  | (Ok a, w) => f a w
  | (Err e, w) => (Err e, w)
  | (Panic p, w) => (Panic p, w)
  end.

Definition eff_res {E W A} (r : Res E A) : Eff E W A := λ w, (r, w).
(** [map_err]. *)
Definition map_err {E F A} (g : E → F) (r : Res E A) : Res F A :=
  match r with Ok a => Ok a | Err e => Err (g e) | Panic p => Panic p end.
Definition eff_map_err {E F W A} (g : E → F) (m : Eff E W A) : Eff F W A :=
  λ w, let '(r, w) := m w in (map_err g r, w).
(** [match m { Ok(a) => .., Err(e) => .. }]: an error is a value. *)
Definition eff_try {E F W A} (m : Eff E W A) : Eff F W (A + E) := λ w,
  match m w with
  | (Ok a, w) => (Ok (inl a), w)
  | (Err e, w) => (Ok (inr e), w)
  | (Panic p, w) => (Panic p, w)
  end.
(** An operation that cannot fail. *)
Definition eff_total {E W A} (m : W → A * W) : Eff E W A := λ w, let '(a, w) := m w in (Ok a, w).

(** An operation of a part of the world. *)
Definition zoom {E S W A} (part : S → W) (update : W → S → S) (m : Eff E W A) : Eff E S A := λ s,
  let '(r, w) := m (part s) in (r, update w s).

(** ** Ordered maps and sets

    [BTreeMap] and [BTreeSet] over 32-byte words or addresses: [gmap Z] and [gset Z], iterated in
    ascending key order (the byte order of big-endian words is their numeric order). *)

Definition key_le {V : Type} (p q : Z * V) : Prop := p.1 <= q.1.
#[export] Instance key_le_dec {V} (p q : Z * V) : Decision (key_le p q).
Proof. unfold key_le. apply _. Defined.

Definition map_items {V} (m : gmap Z V) : list (Z * V) :=
  merge_sort key_le (map_to_list m).
Definition set_items (s : gset Z) : list Z := merge_sort Z.le (elements s).

(** ** Automation *)

Create HintDb gas discriminated.
Create Rewrite HintDb gas_rw.

(** Unfold the saturating and wrapping operations, then [lia]. *)
Ltac u64_lia :=
  unfold is_u64, is_u256, sat_sub, sat_add, sat_mul, u64_max, u256_max in *; lia.

(** Decide a closed goal by evaluation. *)
Ltac by_compute := apply (bool_decide_unpack _); vm_compute; exact I.

(** Case analysis on the outcome of the calls a hypothesis binds. *)
Ltac inv_res :=
  repeat match goal with
  | H : Ok ?x = Ok ?y |- _ => assert (x = y) by congruence; clear H; subst
  | H : Ok _ = Err _ |- _ => discriminate H
  | H : Ok _ = Panic _ |- _ => discriminate H
  | H : Err _ = Ok _ |- _ => discriminate H
  | H : Panic _ = Ok _ |- _ => discriminate H
  | H : mbind _ ?m = Ok _ |- _ =>
      destruct m as [?| |] eqn:?; cbn in H; [|discriminate H|discriminate H]
  | H : res_bind _ _ _ _ ?m = Ok _ |- _ =>
      destruct m as [?| |] eqn:?; cbn in H; [|discriminate H|discriminate H]
  | H : mret _ = Ok _ |- _ => cbn in H
  | H : (_, _) = (_, _) |- _ => injection H as ? ?; subst
  end.

(** ** Lemmas on outcomes *)

Section res_lemmas.
Context {E A B : Type}.

Lemma bind_Ok_iff (m : Res E A) (f : A → Res E B) b :
  m ≫= f = Ok b ↔ ∃ a, m = Ok a ∧ f a = Ok b.
Proof.
  destruct m; cbn; (split; [intros ?; eauto; congruence|intros (?&?&?); congruence]).
Qed.

Lemma foldM_app (f : A → B → Res E A) l1 l2 a :
  foldM f (l1 ++ l2) a = (foldM f l1 a ≫= foldM f l2).
Proof.
  revert a; induction l1 as [|x l1 IH]; intros a; cbn; [done|].
  destruct (f a x); cbn; auto.
Qed.

Lemma res_bind_assoc {C} (m : Res E A) (f : A → Res E B) (g : B → Res E C) :
  (m ≫= f) ≫= g = m ≫= (λ x, f x ≫= g).
Proof. by destruct m. Qed.

(** An invariant of the loop body is one of the loop. *)
Lemma foldM_inv (P : A → Prop) (f : A → B → Res E A) l a a' :
  (∀ s x s', x ∈ l → P s → f s x = Ok s' → P s') →
  P a → foldM f l a = Ok a' → P a'.
Proof.
  revert a; induction l as [|x l IH]; cbn; intros a Hstep Ha Hf; inv_res; [done|].
  eapply IH; [|eapply Hstep; [|exact Ha|eassumption]|eassumption].
  - intros s y s' Hy. apply Hstep. by right.
  - by left.
Qed.

Lemma foldM_Ok (f : A → B → Res E A) (g : A → B → A) l a :
  (∀ s x, f s x = Ok (g s x)) → foldM f l a = Ok (fold_left g l a).
Proof.
  intros Hfg; revert a; induction l as [|x l IH]; intros a; cbn; [done|].
  rewrite Hfg; cbn; apply IH.
Qed.
End res_lemmas.

Lemma mapM_Ok_Forall2 {E A B} (f : A → Res E B) l k :
  mapM f l = Ok k → Forall2 (λ x y, f x = Ok y) l k.
Proof.
  revert k. induction l as [|x l IH]; intros k Hk; cbn in Hk.
  { injection Hk as <-. constructor. }
  destruct (f x) as [y| |] eqn:Hx; [|done..]. cbn in Hk.
  destruct (mapM f l) as [k'| |]; [|done..]. cbn in Hk. injection Hk as <-. constructor; auto.
Qed.

(** ** Lemmas on lengths and lists *)

(** A list sorted by an irreflexive relation has no duplicates. *)
Lemma sorted_NoDup {A} (R : A → A → Prop) (l : list A) :
  (∀ x, ¬ R x x) → StronglySorted R l → NoDup l.
Proof.
  intros HR. induction 1 as [|x l Hs IH Hall]; constructor; [|done]. intros Hx.
  rewrite Forall_forall in Hall. by apply (HR x), Hall.
Qed.

Lemma zlen_nonneg {A} (l : list A) : 0 <= zlen l.
Proof. unfold zlen; lia. Qed.
Lemma zlen_app {A} (l k : list A) : zlen (l ++ k) = zlen l + zlen k.
Proof. unfold zlen; rewrite length_app; lia. Qed.
Lemma zlen_cons {A} (x : A) l : zlen (x :: l) = 1 + zlen l.
Proof. unfold zlen; cbn; lia. Qed.
Lemma zlen_take {A} i (l : list A) : (i ≤ length l)%nat → zlen (take i l) = Z.of_nat i.
Proof. intros; unfold zlen; by rewrite length_take_le. Qed.
Lemma zlen_nil {A} : zlen (@nil A) = 0.
Proof. done. Qed.

#[export] Hint Rewrite @zlen_app @zlen_cons @zlen_nil : gas_rw.
#[export] Hint Resolve zlen_nonneg : gas.

(** ** Lemmas on machine integers *)

Lemma wrap64_id z : 0 <= z <= u64_max → wrap64 z = z.
Proof. intros; apply Z.mod_small; u64_lia. Qed.

Lemma wrap64_range z : is_u64 (wrap64 z).
Proof. unfold wrap64; pose proof (Z.mod_pos_bound z (2 ^ 64)); u64_lia. Qed.

Lemma u64_add_exact a b : 0 <= a → 0 <= b → a + b <= u64_max → u64_add a b = a + b.
Proof. intros; apply wrap64_id; lia. Qed.

Lemma fold_left_add_acc (l : list Z) a : fold_left Z.add l a = a + fold_left Z.add l 0.
Proof.
  revert a; induction l as [|x l IH]; intros a; cbn [fold_left]; [lia|].
  rewrite (IH (a + x)), (IH (0 + x)); lia.
Qed.

(** Summing in [u64] is summing modulo [2^64]. *)
Lemma fold_u64_add_wrap l a :
  fold_left u64_add l (wrap64 a) = wrap64 (fold_left Z.add l a).
Proof.
  revert a; induction l as [|x l IH]; intros a; cbn; [done|].
  rewrite <-IH. f_equal. unfold u64_add, wrap64.
  rewrite Zplus_mod_idemp_l. done.
Qed.

Lemma u64_sum_wrap l : u64_sum l = wrap64 (fold_left Z.add l 0).
Proof. unfold u64_sum. rewrite <-fold_u64_add_wrap. done. Qed.

Lemma u64_sum_range l : is_u64 (u64_sum l).
Proof. rewrite u64_sum_wrap. apply wrap64_range. Qed.

Lemma u64_sum_snoc l x : u64_sum (l ++ [x]) = u64_add (u64_sum l) x.
Proof. unfold u64_sum. by rewrite fold_left_app. Qed.

Lemma u64_add_0_r a : is_u64 a → u64_add a 0 = a.
Proof. intros Ha. unfold u64_add. rewrite Z.add_0_r. apply wrap64_id, Ha. Qed.

Lemma address_from_word_mod w : address_from_word w = w mod 2 ^ 160.
Proof. unfold address_from_word; rewrite Z.land_ones; lia. Qed.

(** ** Big-endian bytes *)

Lemma length_be_bytes n z : length (be_bytes n z) = n.
Proof. revert z; induction n; intros; cbn; rewrite ?length_app, ?IHn; cbn; lia. Qed.

Lemma be_bytes_range n z : Forall is_byte (be_bytes n z).
Proof.
  revert z; induction n as [|n IH]; intros z; cbn; [constructor|].
  apply Forall_app; split; [apply IH|]. repeat constructor; apply Z.mod_pos_bound; lia.
Qed.

Lemma be_to_Z_app bs cs :
  be_to_Z (bs ++ cs) = be_to_Z bs * 256 ^ zlen cs + be_to_Z cs.
Proof.
  unfold be_to_Z. rewrite fold_left_app.
  generalize (fold_left (λ acc b, acc * 256 + b) bs 0) as a.
  induction cs as [|c cs IH] using rev_ind; intros a; cbn.
  { unfold zlen; cbn; lia. }
  rewrite !fold_left_app; cbn [fold_left]. rewrite IH, zlen_app.
  change (zlen [c]) with 1.
  rewrite Z.pow_add_r by (pose proof (zlen_nonneg cs); lia). ring.
Qed.

Lemma be_to_Z_be_bytes n z : be_to_Z (be_bytes n z) = z mod 256 ^ Z.of_nat n.
Proof.
  revert z; induction n as [|n IH]; intros z; cbn [be_bytes].
  { rewrite Z.mod_1_r; done. }
  rewrite be_to_Z_app, IH. change (zlen [z mod 256]) with 1.
  change (be_to_Z [z mod 256]) with (z mod 256).
  rewrite Nat2Z.inj_succ, Z.pow_succ_r by lia.
  rewrite Z.rem_mul_r by lia. lia.
Qed.

Lemma be_to_Z_be_bytes_small n z :
  0 <= z < 256 ^ Z.of_nat n → be_to_Z (be_bytes n z) = z.
Proof. intros; rewrite be_to_Z_be_bytes; apply Z.mod_small; lia. Qed.

(** ** Ordered iteration *)

#[export] Instance key_le_total {V} : Total (@key_le V).
Proof. intros p q; unfold key_le; lia. Qed.
#[export] Instance key_le_trans {V} : Transitive (@key_le V).
Proof. intros p q r; unfold key_le; lia. Qed.

Lemma map_items_Permutation {V} (m : gmap Z V) : map_items m ≡ₚ map_to_list m.
Proof. apply merge_sort_Permutation. Qed.

Lemma elem_of_map_items {V} (m : gmap Z V) k v : (k, v) ∈ map_items m ↔ m !! k = Some v.
Proof. rewrite map_items_Permutation. apply elem_of_map_to_list. Qed.

Lemma NoDup_map_items_keys {V} (m : gmap Z V) : NoDup (map_items m).*1.
Proof. rewrite map_items_Permutation. apply NoDup_fst_map_to_list. Qed.

(** Keys come out in strictly ascending order. *)
Lemma map_items_sorted {V} (m : gmap Z V) : StronglySorted Z.lt (map_items m).*1.
Proof.
  pose proof (NoDup_map_items_keys m) as Hnd.
  assert (StronglySorted key_le (map_items m)) as Hs.
  { apply Sorted_StronglySorted; [apply _|]. apply Sorted_merge_sort, _. }
  induction Hs as [|[k v] l Hs IH Hall]; cbn in *; [constructor|].
  apply NoDup_cons in Hnd as [Hk Hnd]. constructor; [by apply IH|].
  rewrite Forall_fmap. apply Forall_forall. intros [k' v'] Hin; cbn.
  rewrite Forall_forall in Hall. specialize (Hall _ Hin). unfold key_le in Hall; cbn in Hall.
  assert (k ≠ k') by (intros ->; apply Hk, list_elem_of_fmap; exists (k', v'); auto). lia.
Qed.

Lemma map_items_empty {V} : map_items (∅ : gmap Z V) = [].
Proof. unfold map_items. rewrite map_to_list_empty. done. Qed.

Lemma list_to_map_map_items {V} (m : gmap Z V) : list_to_map (map_items m) = m.
Proof.
  rewrite <-(list_to_map_to_list m) at 2.
  apply list_to_map_proper; [apply NoDup_map_items_keys|apply map_items_Permutation].
Qed.

Lemma set_items_elem (s : gset Z) x : x ∈ set_items s ↔ x ∈ s.
Proof. unfold set_items. rewrite merge_sort_Permutation. apply elem_of_elements. Qed.

Lemma NoDup_set_items (s : gset Z) : NoDup (set_items s).
Proof. unfold set_items. rewrite merge_sort_Permutation. apply NoDup_elements. Qed.

Lemma set_items_sorted (s : gset Z) : StronglySorted Z.le (set_items s).
Proof.
  apply Sorted_StronglySorted; [intros ???; lia|].
  apply Sorted_merge_sort. intros x y; lia.
Qed.

(** ** Texts

    Lemmas on strings that several components share: appending, texts made of given characters, and
    prefixes. *)

(** Every character satisfies [P]. *)
Fixpoint every (P : ascii → bool) (s : string) : bool :=
  match s with EmptyString => true | String c s => P c && every P s end.
Definition lacks (c : ascii) : string → bool := every (λ a, negb (Ascii.eqb a c)).

Lemma append_cons c s t : String c s +:+ t = String c (s +:+ t).
Proof. reflexivity. Qed.

Lemma append_assoc s t u : (s +:+ t) +:+ u = s +:+ t +:+ u.
Proof. induction s as [|c s IH]; [done|]. rewrite !append_cons. by rewrite IH. Qed.

Lemma append_nil_r s : s +:+ "" = s.
Proof. induction s as [|c s IH]; [done|]. by rewrite append_cons, IH. Qed.

Lemma every_app P s t : every P (s +:+ t) = every P s && every P t.
Proof.
  induction s as [|c s IH]; [done|]. rewrite append_cons. cbn. by rewrite IH, andb_assoc.
Qed.

Lemma every_impl (P Q : ascii → bool) s : (∀ c, P c = true → Q c = true) → every P s = true → every Q s = true.
Proof.
  intros HPQ. induction s as [|c s IH]; cbn; [done|]. intros [Hc Hs]%andb_true_iff.
  by rewrite (HPQ c Hc), (IH Hs).
Qed.

(** ** Prefixes *)

Lemma prefix_append p s : String.prefix p (p +:+ s) = true.
Proof.
  induction p as [|c p IH]; [by destruct s|]. rewrite append_cons. cbn.
  destruct (ascii_dec c c); [exact IH|done].
Qed.

Lemma prefix_refl s : String.prefix s s = true.
Proof. rewrite <-(append_nil_r s) at 2. apply prefix_append. Qed.
