(* ===== verification/Types.v ===== *)
(** * Shared data types

    The state-update programs of [crates/core/src/types.rs], the geth trace types the extractors
    read, the error values they return, and the interface to the library code they call. *)

From S2P Require Import Prelude.

(** ** State updates (types.rs) *)

(** [enum StateUpdateType], in declaration order (the ABI value is the position). *)
Inductive StateUpdateType : Type :=
  | STORE | CALL | LOG0 | LOG1 | LOG2 | LOG3 | LOG4 | CREATE | CREATE2 | NESTED.

(** The Rust cast [as u8]. *)
Definition StateUpdateType_as_u8 (t : StateUpdateType) : Z :=
  match t with
  | STORE => 0 | CALL => 1 | LOG0 => 2 | LOG1 => 3 | LOG2 => 4
  | LOG3 => 5 | LOG4 => 6 | CREATE => 7 | CREATE2 => 8 | NESTED => 9
  end.

(** The structs of [interface IStateUpdateTypes]. Byte strings are lists of bytes; words and
    addresses are integers. *)
Record Store := mkStore { store_slot : Z; store_value : Z }.
Record Call := mkCall { call_target : Z; call_value : Z; call_args : list Z }.
Record Log0 := mkLog0 { log0_data : list Z }.
Record Log1 := mkLog1 { log1_data : list Z; log1_topic1 : Z }.
Record Log2 := mkLog2 { log2_data : list Z; log2_topic1 : Z; log2_topic2 : Z }.
Record Log3 := mkLog3 {
  log3_data : list Z; log3_topic1 : Z; log3_topic2 : Z; log3_topic3 : Z }.
Record Log4 := mkLog4 {
  log4_data : list Z; log4_topic1 : Z; log4_topic2 : Z; log4_topic3 : Z; log4_topic4 : Z }.
Record Create := mkCreate { create_value : Z; create_initcode : list Z }.
Record Create2 := mkCreate2 {
  create2_salt : Z; create2_value : Z; create2_initcode : list Z }.
Record Nested := mkNested { nested_target : Z; nested_value : Z; nested_childLeaf : Z }.

Inductive StateUpdate : Type :=
  | UStore (s : Store)
  | UCall (c : Call)
  | ULog0 (l : Log0)
  | ULog1 (l : Log1)
  | ULog2 (l : Log2)
  | ULog3 (l : Log3)
  | ULog4 (l : Log4)
  | UCreate (c : Create)
  | UCreate2 (c : Create2)
  | UNested (n : Nested).

(** The [matches!(u, StateUpdate::Nested(_))] test. *)
Definition is_nested (u : StateUpdate) : bool :=
  match u with UNested _ => true | _ => false end.

(** ** Geth traces ([alloy_rpc_types::trace::geth]) *)

(** The fields of a struct log the code reads. The stack is bottom first; [memory] holds the
    hexadecimal words of the snapshot. *)
Record StructLog := mkStructLog {
  sl_depth : Z;
  sl_op : string;
  sl_gas : Z;
  sl_gas_cost : Z;
  sl_stack : option (list Z);
  sl_memory : option (list string);
  sl_error : option string;
  sl_refund_counter : option Z
}.

Record DefaultFrame := mkDefaultFrame {
  df_failed : bool;
  df_gas : Z;
  df_return_value : list Z;
  df_struct_logs : list StructLog
}.

(** The opcode names the code compares [op] with; every other name is [OP_OTHER]. *)
Inductive Opc : Type :=
  | OP_SSTORE | OP_TSTORE | OP_SELFDESTRUCT
  | OP_CALL | OP_STATICCALL | OP_DELEGATECALL | OP_CALLCODE
  | OP_CREATE | OP_CREATE2
  | OP_LOG0 | OP_LOG1 | OP_LOG2 | OP_LOG3 | OP_LOG4
  | OP_OTHER.

Definition opc_names : list (string * Opc) := [
  ("SSTORE", OP_SSTORE); ("TSTORE", OP_TSTORE); ("SELFDESTRUCT", OP_SELFDESTRUCT);
  ("CALL", OP_CALL); ("STATICCALL", OP_STATICCALL); ("DELEGATECALL", OP_DELEGATECALL);
  ("CALLCODE", OP_CALLCODE); ("CREATE", OP_CREATE); ("CREATE2", OP_CREATE2);
  ("LOG0", OP_LOG0); ("LOG1", OP_LOG1); ("LOG2", OP_LOG2); ("LOG3", OP_LOG3);
  ("LOG4", OP_LOG4) ]%string.

Fixpoint assoc_name (l : list (string * Opc)) (s : string) : Opc :=
  match l with
  | [] => OP_OTHER
  | (n, o) :: l => if String.eqb s n then o else assoc_name l s
  end.

(** The [match] on the opcode's name. *)
Definition opc_of (s : string) : Opc := assoc_name opc_names s.
#[global] Arguments opc_of : simpl never.
Definition sl_opc (l : StructLog) : Opc := opc_of (sl_op l).

#[export] Instance Opc_eq_dec : EqDecision Opc.
Proof. solve_decision. Defined.
#[export] Instance StateUpdateType_eq_dec : EqDecision StateUpdateType.
Proof. solve_decision. Defined.
#[export] Instance StateUpdate_eq_dec : EqDecision StateUpdate.
Proof. intros x y. unfold Decision. repeat (decide equality). Defined.

(** ** Errors: the [anyhow] messages, as values *)

Inductive Error : Type :=
  | ENoMemory (op : string)                     (* "There is no memory for {op} in depth 1" *)
  | EDelegateCall (op : string)                 (* "Calling opcode {op}, this shouldn't ..." *)
  | EFailedCreate (depth : Z)                   (* failed_create *)
  | EZeroDepth (index : nat)                    (* "struct log at {i} has depth 0; ..." *)
  | EShortStack (index : nat)                   (* "SSTORE log at {i} has a short stack" *)
  | ENoFrameOpened (depth : Z)                  (* "a nested candidate at depth ... opened no frame" *)
  | EDepthJump (closing depth : Z)              (* "trace depth jumped from ..." *)
  | EResumeNoStack (depth : Z)                  (* "resume log at depth ... has no stack" *)
  | EResumeEmptyStack (depth : Z)               (* "resume log at depth ... has empty stack" *)
  | ENotLastOp                                  (* "reverted nested frame's op was not ..." *)
  | ENoStack (op : string)                      (* "{op} log has no stack" *)
  | ECallNoUpdate                               (* "CALL produced no update" *)
  | EUnclosedFrames (n : nat)                   (* "trace ended with {n} unclosed frame(s)" *)
  | ENeverReturned                              (* "a kept frame never returned" *)
  | ENoLeaf                                     (* "a tree needs at least one leaf" *)
  | ELeafOutside (index len : nat)              (* "leaf {index} is outside a tree of {len}" *)
  | ENoRootFrame                                (* "a frame tree needs a root frame" *)
  | EMoreNested (frame : nat)                   (* "frame {i} has more NESTED ops than children" *)
  | EMoreChildren (frame : nat)                 (* "frame {i} has more children than NESTED ops" *)
  | EChildOrder (frame child : nat)             (* "frame {i} names child {child} outside pre-order" *)
  | ENoTransitionIndex (frame : nat)            (* "frame {i} has no transition index" *)
  | ENoFrame (frame : nat)                      (* "frame {index} does not exist" *)
  | EEstimator (why : string).                  (* an error of the EVM run *)

Abbreviation Result A := (Res Error A).

(** ** Library code the program calls

    The hexadecimal decoder, the two hash functions and alloy's ABI encoder are not part of the
    repository; they are operations of a class, which every definition that reaches them takes. *)

(** The values the program hands to alloy's encoder. *)
Inductive AbiValue : Type :=
  | AUint (bits : Z) (v : Z)
  | AAddress (v : Z)
  | AFixedBytes (n : Z) (v : Z)
  | ABytes (bs : list Z)
  | AFixed32Array (ws : list Z)
  | ABytesArray (bss : list (list Z)).

(** The Solidity type of a value, and the values of that type. *)
Inductive AbiKind : Type :=
  | KUint (bits : Z) | KAddress | KFixedBytes (n : Z) | KBytes | KFixed32Array | KBytesArray.

Definition abi_kind (v : AbiValue) : AbiKind :=
  match v with
  | AUint b _ => KUint b
  | AAddress _ => KAddress
  | AFixedBytes n _ => KFixedBytes n
  | ABytes _ => KBytes
  | AFixed32Array _ => KFixed32Array
  | ABytesArray _ => KBytesArray
  end.

Definition abi_wf (v : AbiValue) : Prop :=
  match v with
  | AUint b v => 0 <= v < 2 ^ b
  | AAddress v => 0 <= v < 2 ^ 160
  | AFixedBytes n v => 0 <= v < 256 ^ n
  | ABytes bs => Forall is_byte bs
  | AFixed32Array ws => Forall is_u256 ws
  | ABytesArray bss => Forall (Forall is_byte) bss
  end.

Class Externals := {
  (** [hex::decode_to_slice] into a buffer of half the string's length. *)
  hex_decode : string → option (list Z);
  keccak256 : list Z → Z;
  sha256_digest : list Z → Z;
  (** [SolValue::abi_encode_sequence] / [abi_encode_params] of a tuple, and [abi_encode] of a
      dynamic struct. *)
  abi_encode_sequence : list AbiValue → list Z;
  abi_encode : list AbiValue → list Z
}.

(** What the code relies on: alloy's encodings of two tuples of the same Solidity types are equal
    only if the tuples are (they can be decoded). *)
Class AbiLaws `{Externals} : Prop := {
  abi_encode_sequence_inj vs ws :
    abi_kind <$> vs = abi_kind <$> ws → Forall abi_wf vs → Forall abi_wf ws →
    abi_encode_sequence vs = abi_encode_sequence ws → vs = ws;
  abi_encode_sequence_bytes vs : Forall abi_wf vs → Forall is_byte (abi_encode_sequence vs)
}.

(** The fields of an update's struct, in declaration order: what [sol!] derives for it. *)
Definition update_fields (u : StateUpdate) : list AbiValue :=
  match u with
  | UStore x => [AFixedBytes 32 (store_slot x); AFixedBytes 32 (store_value x)]
  | UCall x => [AAddress (call_target x); AUint 256 (call_value x); ABytes (call_args x)]
  | ULog0 x => [ABytes (log0_data x)]
  | ULog1 x => [ABytes (log1_data x); AFixedBytes 32 (log1_topic1 x)]
  | ULog2 x => [ABytes (log2_data x); AFixedBytes 32 (log2_topic1 x);
                AFixedBytes 32 (log2_topic2 x)]
  | ULog3 x => [ABytes (log3_data x); AFixedBytes 32 (log3_topic1 x);
                AFixedBytes 32 (log3_topic2 x); AFixedBytes 32 (log3_topic3 x)]
  | ULog4 x => [ABytes (log4_data x); AFixedBytes 32 (log4_topic1 x);
                AFixedBytes 32 (log4_topic2 x); AFixedBytes 32 (log4_topic3 x);
                AFixedBytes 32 (log4_topic4 x)]
  | UCreate x => [AUint 256 (create_value x); ABytes (create_initcode x)]
  | UCreate2 x => [AFixedBytes 32 (create2_salt x); AUint 256 (create2_value x);
                   ABytes (create2_initcode x)]
  | UNested x => [AAddress (nested_target x); AUint 256 (nested_value x);
                  AFixedBytes 32 (nested_childLeaf x)]
  end.

(** An update whose fields are in range. *)
Definition update_wf (u : StateUpdate) : Prop := Forall abi_wf (update_fields u).

#[export] Instance abi_wf_dec v : Decision (abi_wf v).
Proof. destruct v; cbn; apply _. Defined.
#[export] Instance update_wf_dec u : Decision (update_wf u).
Proof. unfold update_wf. apply _. Defined.
