(* ===== verification/Instances.v ===== *)
(** * A concrete instance of the library interface

    Functions that satisfy the laws of [Types.Externals], at which the theorems that assume those
    laws are instantiated: a hexadecimal decoder, and injective stand-ins for the hashes and the ABI
    encoder. They model no code of the repository. *)

From stdpp Require Import countable.
From S2P Require Import Prelude.
From S2P Require Import Types.

Definition hex_digit (c : Ascii.ascii) : option Z :=
  let n := Z.of_nat (Ascii.nat_of_ascii c) in
  if (48 <=? n) && (n <=? 57) then Some (n - 48)
  else if (97 <=? n) && (n <=? 102) then Some (n - 87)
  else if (65 <=? n) && (n <=? 70) then Some (n - 55)
  else None.

Fixpoint hex_bytes (s : string) : option (list Z) :=
  match s with
  | EmptyString => Some []
  | String a (String b s) =>
      h ← hex_digit a; l ← hex_digit b; bs ← hex_bytes s; Some (h * 16 + l :: bs)
  | String _ EmptyString => None
  end.

(** The bits of a positive number, as bytes. *)
Fixpoint pos_bits (p : positive) : list Z :=
  match p with
  | xH => []
  | xO p => 0 :: pos_bits p
  | xI p => 1 :: pos_bits p
  end.

Definition abi_payload (v : AbiValue) : list (list Z) :=
  match v with
  | AUint _ v | AAddress v | AFixedBytes _ v => [[v]]
  | ABytes bs => [bs]
  | AFixed32Array ws => [ws]
  | ABytesArray bss => bss
  end.

Definition abi_bits (vs : list AbiValue) : list Z := pos_bits (encode (abi_payload <$> vs)).

#[export] Instance sample_externals : Externals := {|
  hex_decode := hex_bytes;
  keccak256 bs := Z.pos (encode bs);
  sha256_digest bs := Z.pos (encode bs);
  abi_encode_sequence := abi_bits;
  abi_encode := abi_bits
|}.

Lemma pos_bits_inj p q : pos_bits p = pos_bits q → p = q.
Proof. revert q; induction p; intros [] [=]; f_equal; auto. Qed.

Lemma pos_bits_bytes p : Forall is_byte (pos_bits p).
Proof. induction p; cbn; constructor; unfold is_byte; lia || done. Qed.

Lemma abi_payload_inj v w : abi_kind v = abi_kind w → abi_payload v = abi_payload w → v = w.
Proof. destruct v, w; cbn; congruence. Qed.

#[export] Instance sample_laws : AbiLaws.
Proof.
  split.
  - intros vs ws Hk _ _ Heq. cbn in Heq. apply pos_bits_inj in Heq.
    apply (inj encode) in Heq. revert ws Hk Heq.
    induction vs as [|v vs IH]; intros [|w ws]; cbn; [done..|].
    intros [=] [=]. f_equal; [by apply abi_payload_inj|by apply IH].
  - intros vs _. apply pos_bits_bytes.
Qed.
