(* ===== verification/Encoding.v ===== *)
(** * Encoding of state-update programs

    [crates/core/src/encoding.rs]: the signature schemes with their gas floors, and the ABI encoding
    of a program as the tuple [(StateUpdateType[], bytes[])]. The theorems give the encoding's exact
    size, a strict ABI decoder that reads every encoded program back and nothing else as that program, and
    its injectivity. *)

From Stdlib Require Import SpecFloat.
From S2P Require Import Prelude.
From S2P Require Import Types.
From S2P Require Import Instances.

(** ** Signature schemes *)

Definition TURETZKY_UPPER_GAS_LIMIT_BLS : Z := 250000.
Definition TURETZKY_UPPER_GAS_LIMIT_SCHNORR : Z := 50000.

Inductive SignatureType : Type := Bls | Schnorr.

Definition ALL : list SignatureType := [Bls; Schnorr].

Definition turetzky_upper_gas_limit (s : SignatureType) : Z :=
  match s with
  | Bls => TURETZKY_UPPER_GAS_LIMIT_BLS
  | Schnorr => TURETZKY_UPPER_GAS_LIMIT_SCHNORR
  end.

Definition total_gas_estimate (s : SignatureType) (base_estimate : Z) : Z :=
  u64_add base_estimate (turetzky_upper_gas_limit s).

(** [u64 as f64], and the division and product of [f64]: IEEE 754 binary64, to nearest even. *)
Definition f64_of_u64 (z : Z) : spec_float := binary_normalize 53 1024 z 0 false.
Definition f64_div : spec_float → spec_float → spec_float := SFdiv 53 1024.
Definition f64_mul : spec_float → spec_float → spec_float := SFmul 53 1024.

Definition savings (s : SignatureType) (base_estimate gas_used : Z) : Z * Z * spec_float :=
  let total_estimate := total_gas_estimate s base_estimate in
  let gas_savings := sat_sub gas_used total_estimate in
  let percent_savings :=
    if 0 <? gas_used
    then f64_mul (f64_div (f64_of_u64 gas_savings) (f64_of_u64 gas_used)) (f64_of_u64 100)
    else f64_of_u64 0 in
  (total_estimate, gas_savings, percent_savings).

Definition label (s : SignatureType) : string :=
  match s with Bls => "BLS" | Schnorr => "Schnorr" end.

(** ** Programs as Solidity arguments *)

Definition update_type (u : StateUpdate) : StateUpdateType :=
  match u with
  | UStore _ => STORE
  | UCall _ => CALL
  | ULog0 _ => LOG0
  | ULog1 _ => LOG1
  | ULog2 _ => LOG2
  | ULog3 _ => LOG3
  | ULog4 _ => LOG4
  | UCreate _ => CREATE
  | UCreate2 _ => CREATE2
  | UNested _ => NESTED
  end.

Definition encode_state_updates_to_sol `{Externals} (state_updates : list StateUpdate)
  : list StateUpdateType * list (list Z) :=
  let state_update_types := update_type <$> state_updates in
  let datas := (λ u, abi_encode_sequence (update_fields u)) <$> state_updates in
  (state_update_types, datas).

(** [write_u256_word]: the 16 bytes of the value, right-aligned in a zeroed 32-byte word. *)
Definition u256_word (value : Z) : list Z := replicate 16 0 ++ be_bytes 16 value.
Definition write_u256_word (buf : list Z) (value : Z) : list Z := buf ++ u256_word value.

Definition div_ceil (a b : Z) : Z := (a + b - 1) / b.
Definition pad32_len (len : Z) : Z := div_ceil len 32 * 32.

Definition encode_bytes (value : list Z) : list Z :=
  let out := write_u256_word [] (zlen value) in
  let out := out ++ value in
  let padding := pad32_len (zlen value) - zlen value in
  if 0 <? padding then out ++ replicate (Z.to_nat padding) 0 else out.

(** The offset loop of [encode_bytes_array]: state is the buffer and the running offset. *)
Definition push_offset (st : list Z * Z) (enc : list Z) : list Z * Z :=
  let '(out, running_offset) := st in
  (write_u256_word out running_offset, running_offset + zlen enc).

Definition encode_bytes_array (values : list (list Z)) : list Z :=
  let n := zlen values in
  let encoded_elements := encode_bytes <$> values in
  let head_size := 32 * n in
  let out := write_u256_word [] n in
  let out := (fold_left push_offset encoded_elements (out, head_size)).1 in
  fold_left (λ out enc, out ++ enc) encoded_elements out.

Definition encode_state_updates_to_abi `{Externals} (state_updates : list StateUpdate) : list Z :=
  let '(state_update_types, datas) := encode_state_updates_to_sol state_updates in
  let types_payload := write_u256_word [] (zlen state_update_types) in
  let types_payload :=
    fold_left (λ buf t, write_u256_word buf (StateUpdateType_as_u8 t)) state_update_types
      types_payload in
  let datas_payload := encode_bytes_array datas in
  let offset_types := 64 in
  let offset_datas := offset_types + zlen types_payload in
  let encoded := write_u256_word [] offset_types in
  let encoded := write_u256_word encoded offset_datas in
  encoded ++ types_payload ++ datas_payload.

(** ** Reference decoder

    A strict decoder of [(uint8[], bytes[])]: the two arrays follow each other, every offset points to where
    its part begins, a type fits a [uint8], the data of an element is padded with zeros to a whole number of
    words, and nothing is left over. Offsets are relative to the start of the tuple, and those of the elements
    of [bytes[]] to the start of its elements. *)

Definition slice (bs : list Z) (offset length : Z) : list Z :=
  take (Z.to_nat length) (drop (Z.to_nat offset) bs).

(** How many bytes complete the last word of [n] bytes. *)
Definition to_word (n : Z) : Z := (- n) mod 32.

(** The first [n] bytes, and what follows. *)
Definition take_bytes (n : Z) (bs : list Z) : option (list Z * list Z) :=
  if n <=? zlen bs then Some (take (Z.to_nat n) bs, drop (Z.to_nat n) bs) else None.
Definition take_word (bs : list Z) : option (Z * list Z) :=
  '(word, bs) ← take_bytes 32 bs; Some (be_to_Z word, bs).
Fixpoint take_words (n : nat) (bs : list Z) : option (list Z * list Z) :=
  match n with
  | O => Some ([], bs)
  | S n => '(w, bs) ← take_word bs; '(ws, bs) ← take_words n bs; Some (w :: ws, bs)
  end.
Definition require (b : bool) : option unit := if b then Some tt else None.

Definition take_element (bs : list Z) : option (list Z * list Z) :=
  '(len, bs) ← take_word bs;
  '(value, bs) ← take_bytes len bs;
  '(padding, bs) ← take_bytes (to_word len) bs;
  _ ← require (forallb (Z.eqb 0) padding);
  Some (value, bs).

(** The elements at the given offsets, of which the first is at [position]. *)
Fixpoint take_elements (offsets : list Z) (position : Z) (bs : list Z) : option (list (list Z)) :=
  match offsets with
  | [] => _ ← require (zlen bs =? 0); Some []
  | offset :: offsets =>
      _ ← require (offset =? position);
      '(value, rest) ← take_element bs;
      values ← take_elements offsets (position + (zlen bs - zlen rest)) rest;
      Some (value :: values)
  end.

Definition abi_decode_program (bs : list Z) : option (list Z * list (list Z)) :=
  '(offset_types, bs) ← take_word bs;
  '(offset_datas, bs) ← take_word bs;
  '(n, bs) ← take_word bs;
  '(types, bs) ← take_words (Z.to_nat n) bs;
  '(m, bs) ← take_word bs;
  '(offsets, bs) ← take_words (Z.to_nat m) bs;
  _ ← require ((offset_types =? 64) && (offset_datas =? 64 + 32 + 32 * n));
  _ ← require (forallb (λ t, t <? 256) types);
  datas ← take_elements offsets (32 * m) bs;
  Some (types, datas).

(** ** The encoding in closed form *)

Definition words (ws : list Z) : list Z := concat (u256_word <$> ws).

Fixpoint offsets (r : Z) (encs : list (list Z)) : list Z :=
  match encs with
  | [] => []
  | e :: encs => r :: offsets (r + zlen e) encs
  end.

(** A value [write_u256_word] represents: [usize as u128]. *)
Definition is_u128 (z : Z) : Prop := 0 <= z < 2 ^ 128.

Lemma length_u256_word v : length (u256_word v) = 32%nat.
Proof. unfold u256_word. by rewrite length_app, length_replicate, length_be_bytes. Qed.

Lemma zlen_u256_word v : zlen (u256_word v) = 32.
Proof. unfold zlen; by rewrite length_u256_word. Qed.

Lemma zlen_words ws : zlen (words ws) = 32 * zlen ws.
Proof.
  unfold words. induction ws as [|w ws IH]; [done|].
  rewrite fmap_cons; cbn [concat]. rewrite zlen_app, zlen_u256_word, IH, zlen_cons. lia.
Qed.

Lemma be_to_Z_zeros n : be_to_Z (replicate n 0) = 0.
Proof.
  induction n as [|n IH]; [done|]. rewrite replicate_S_end, be_to_Z_app, IH. done.
Qed.

Lemma be_to_Z_u256_word v : is_u128 v → be_to_Z (u256_word v) = v.
Proof.
  intros Hv. unfold u256_word. rewrite be_to_Z_app, be_to_Z_zeros, be_to_Z_be_bytes_small; [lia|].
  unfold is_u128 in Hv. change (256 ^ Z.of_nat 16) with (2 ^ 128). lia.
Qed.

Lemma u256_word_bytes v : Forall is_byte (u256_word v).
Proof.
  apply Forall_app; split; [|apply be_bytes_range].
  apply Forall_replicate; unfold is_byte; lia.
Qed.

Lemma fold_write_words {A} (f : A → Z) (l : list A) buf :
  fold_left (λ buf t, write_u256_word buf (f t)) l buf = buf ++ words (f <$> l).
Proof.
  revert buf; induction l as [|x l IH]; intros buf; [by rewrite app_nil_r|].
  cbn [fold_left]. rewrite IH. unfold write_u256_word, words. by rewrite <-app_assoc.
Qed.

Lemma fold_push_offset encs out r :
  fold_left push_offset encs (out, r) =
  (out ++ words (offsets r encs), r + zlen (concat encs)).
Proof.
  revert out r; induction encs as [|e encs IH]; intros out r; cbn [fold_left push_offset].
  { cbn. rewrite app_nil_r. f_equal. unfold zlen; cbn; lia. }
  rewrite IH. unfold write_u256_word, words; cbn [offsets concat]. rewrite fmap_cons, <-app_assoc.
  f_equal. rewrite zlen_app; lia.
Qed.

Lemma fold_app_concat (encs : list (list Z)) out :
  fold_left (λ out enc, out ++ enc) encs out = out ++ concat encs.
Proof.
  revert out; induction encs as [|e encs IH]; intros out; cbn; [by rewrite app_nil_r|].
  by rewrite IH, <-app_assoc.
Qed.

Definition pad_bytes (v : list Z) : list Z :=
  replicate (Z.to_nat (pad32_len (zlen v) - zlen v)) 0.

Lemma pad32_len_bounds n : 0 <= n → n <= pad32_len n < n + 32 ∧ pad32_len n mod 32 = 0.
Proof.
  intros Hn. unfold pad32_len, div_ceil. split; [|by rewrite Z.mod_mul].
  pose proof (Z.div_mod (n + 32 - 1) 32 ltac:(lia)).
  pose proof (Z.mod_pos_bound (n + 32 - 1) 32 ltac:(lia)). lia.
Qed.

Lemma pad32_to_word n : 0 <= n → pad32_len n = n + to_word n.
Proof.
  intros Hn. pose proof (pad32_len_bounds n Hn) as [? Hm]. unfold to_word.
  pose proof (Z.div_mod (pad32_len n) 32 ltac:(lia)). symmetry.
  replace (- n mod 32) with (pad32_len n - n); [lia|].
  apply (Z.mod_unique _ _ (- (pad32_len n / 32))); lia.
Qed.

Lemma encode_bytes_eq v : encode_bytes v = u256_word (zlen v) ++ v ++ pad_bytes v.
Proof.
  unfold encode_bytes, write_u256_word, pad_bytes; cbn [app].
  pose proof (pad32_len_bounds (zlen v) (zlen_nonneg v)) as [? _].
  destruct (Z.ltb_spec 0 (pad32_len (zlen v) - zlen v)); [by rewrite app_assoc|].
  replace (Z.to_nat (pad32_len (zlen v) - zlen v)) with 0%nat by lia.
  by rewrite app_nil_r.
Qed.

Lemma zlen_encode_bytes v : zlen (encode_bytes v) = 32 + pad32_len (zlen v).
Proof.
  pose proof (pad32_len_bounds (zlen v) (zlen_nonneg v)) as [? _].
  rewrite encode_bytes_eq, !zlen_app, zlen_u256_word. unfold pad_bytes, zlen at 2.
  rewrite length_replicate. lia.
Qed.

Lemma encode_bytes_array_eq vs :
  encode_bytes_array vs =
  u256_word (zlen vs) ++ words (offsets (32 * zlen vs) (encode_bytes <$> vs)) ++
  concat (encode_bytes <$> vs).
Proof.
  unfold encode_bytes_array. rewrite fold_push_offset, fold_app_concat; cbn [fst].
  unfold write_u256_word. by rewrite <-app_assoc.
Qed.

Lemma zlen_fmap {A B} (f : A → B) l : zlen (f <$> l) = zlen l.
Proof. unfold zlen; by rewrite length_fmap. Qed.

Lemma zlen_offsets r encs : zlen (offsets r encs) = zlen encs.
Proof.
  revert r; induction encs as [|e encs IH]; intros r; cbn; [done|]. by rewrite !zlen_cons, IH.
Qed.

Section encoding.
Context `{Externals}.

Definition datas_of (us : list StateUpdate) : list (list Z) :=
  (λ u, abi_encode_sequence (update_fields u)) <$> us.

Definition types_of (us : list StateUpdate) : list Z :=
  (λ u, StateUpdateType_as_u8 (update_type u)) <$> us.

Lemma zlen_datas_of us : zlen (datas_of us) = zlen us.
Proof. apply zlen_fmap. Qed.

Lemma zlen_types_of us : zlen (types_of us) = zlen us.
Proof. apply zlen_fmap. Qed.

Lemma encode_eq us :
  encode_state_updates_to_abi us =
  u256_word 64 ++ u256_word (96 + 32 * zlen us) ++
  u256_word (zlen us) ++ words (types_of us) ++
  u256_word (zlen us) ++
  words (offsets (32 * zlen us) (encode_bytes <$> datas_of us)) ++
  concat (encode_bytes <$> datas_of us).
Proof.
  unfold encode_state_updates_to_abi, encode_state_updates_to_sol.
  fold (datas_of us).
  rewrite fold_write_words, encode_bytes_array_eq, zlen_datas_of.
  unfold write_u256_word; cbn [app].
  rewrite zlen_app, zlen_u256_word, zlen_words, !zlen_fmap, <-list_fmap_compose.
  rewrite <-!app_assoc.
  replace (64 + (32 + 32 * zlen us)) with (96 + 32 * zlen us) by lia. done.
Qed.

(** Size of the encoding of one update: its type, its offset, its length and its data in whole words. *)
Definition data_size (u : StateUpdate) : Z :=
  let n := zlen (abi_encode_sequence (update_fields u)) in 96 + (n + to_word n).

Definition encoded_size (us : list StateUpdate) : Z :=
  128 + fold_right (λ u n, data_size u + n) 0 us.

Lemma zlen_concat_encode us :
  64 * zlen us + zlen (concat (encode_bytes <$> datas_of us)) =
  fold_right (λ u n, data_size u + n) 0 us.
Proof.
  induction us as [|u us IH]; [done|].
  unfold datas_of in *. rewrite !fmap_cons; cbn [concat fold_right].
  rewrite zlen_app, zlen_cons, zlen_encode_bytes, <-IH. unfold data_size.
  rewrite pad32_to_word by apply zlen_nonneg. lia.
Qed.

Lemma zlen_encode us : zlen (encode_state_updates_to_abi us) = encoded_size us.
Proof.
  rewrite encode_eq, !zlen_app, !zlen_u256_word, !zlen_words.
  rewrite zlen_offsets, zlen_types_of, zlen_fmap, zlen_datas_of. unfold encoded_size. rewrite <-zlen_concat_encode. lia.
Qed.
End encoding.

(** ** Reading back *)

Lemma take_bytes_app v rest : take_bytes (zlen v) (v ++ rest) = Some (v, rest).
Proof.
  unfold take_bytes. rewrite zlen_app. pose proof (zlen_nonneg rest).
  rewrite (proj2 (Z.leb_le _ _)) by lia. unfold zlen. rewrite Nat2Z.id.
  by rewrite take_app_length, drop_app_length.
Qed.

Lemma take_word_app v rest : is_u128 v → take_word (u256_word v ++ rest) = Some (v, rest).
Proof.
  intros Hv. unfold take_word. pose proof (take_bytes_app (u256_word v) rest) as Ht.
  rewrite zlen_u256_word in Ht. rewrite Ht. cbn [mbind option_bind]. by rewrite be_to_Z_u256_word.
Qed.

Lemma take_words_app ws rest :
  Forall is_u128 ws → take_words (length ws) (words ws ++ rest) = Some (ws, rest).
Proof.
  induction 1 as [|w ws Hw Hws IH]; [done|]. unfold words in *. cbn [fmap list_fmap concat length take_words].
  rewrite <-app_assoc, take_word_app by done. cbn [mbind option_bind]. by rewrite IH.
Qed.

Lemma encode_bytes_padded v :
  encode_bytes v = u256_word (zlen v) ++ v ++ replicate (Z.to_nat (to_word (zlen v))) 0.
Proof.
  rewrite encode_bytes_eq. unfold pad_bytes. rewrite pad32_to_word by apply zlen_nonneg.
  do 4 f_equal. lia.
Qed.

Lemma to_word_range n : 0 <= to_word n < 32.
Proof. apply Z.mod_pos_bound. lia. Qed.

Lemma zlen_replicate {A} n (x : A) : 0 <= n → zlen (replicate (Z.to_nat n) x) = n.
Proof. intros Hn. unfold zlen. rewrite length_replicate. lia. Qed.

Lemma take_element_app v rest : is_u128 (zlen v) → take_element (encode_bytes v ++ rest) = Some (v, rest).
Proof.
  intros Hv. unfold take_element. rewrite encode_bytes_padded, <-!app_assoc, take_word_app by done.
  cbn [mbind option_bind]. rewrite take_bytes_app. cbn [mbind option_bind].
  pose proof (to_word_range (zlen v)). pose proof (take_bytes_app (replicate (Z.to_nat (to_word (zlen v))) 0) rest) as Ht.
  rewrite zlen_replicate in Ht by lia. rewrite Ht. cbn [mbind option_bind].
  replace (forallb _ _) with true; [done|]. symmetry. apply forallb_forall.
  intros x Hx%list_elem_of_In. by apply elem_of_replicate in Hx as [-> _].
Qed.

Lemma take_elements_app vs position :
  Forall (λ v, is_u128 (zlen v)) vs →
  take_elements (offsets position (encode_bytes <$> vs)) position (concat (encode_bytes <$> vs)) = Some vs.
Proof.
  intros Hvs. revert position. induction Hvs as [|v vs Hv Hvs IH]; intros position; [done|].
  cbn [fmap list_fmap offsets concat take_elements].
  rewrite Z.eqb_refl, take_element_app by done. cbn [mbind option_bind require].
  rewrite zlen_app. replace (_ + _ - _) with (zlen (encode_bytes v)) by lia. by rewrite IH.
Qed.

(** A list of bytes is determined by its length and the number it spells. *)
Lemma be_to_Z_snoc bs b : be_to_Z (bs ++ [b]) = be_to_Z bs * 256 + b.
Proof. unfold be_to_Z. by rewrite fold_left_app. Qed.
Lemma be_to_Z_inj bs cs :
  length bs = length cs → Forall is_byte bs → Forall is_byte cs → be_to_Z bs = be_to_Z cs → bs = cs.
Proof.
  revert cs. induction bs as [|b bs IH] using rev_ind; intros cs Hlen Hbs Hcs Heq.
  { by destruct cs. }
  destruct cs as [|c cs _] using rev_ind; [rewrite length_app in Hlen; cbn in Hlen; lia|].
  rewrite !length_app in Hlen. cbn in Hlen. rewrite !be_to_Z_snoc in Heq.
  apply Forall_app in Hbs as [Hbs Hb]. apply Forall_app in Hcs as [Hcs Hc].
  rewrite Forall_singleton in Hb, Hc. unfold is_byte in Hb, Hc. assert (b = c) as -> by lia.
  rewrite (IH cs); [done|lia|done..|lia].
Qed.

Lemma take_bytes_Some n bs v rest :
  0 <= n → take_bytes n bs = Some (v, rest) → bs = v ++ rest ∧ zlen v = n.
Proof.
  intros Hn. unfold take_bytes. destruct (Z.leb_spec n (zlen bs)); [|done]. intros [= <- <-].
  split; [by rewrite take_drop|]. unfold zlen in *. rewrite length_take. lia.
Qed.

Lemma take_word_Some bs v rest :
  Forall is_byte bs → is_u128 v → take_word bs = Some (v, rest) → bs = u256_word v ++ rest ∧ Forall is_byte rest.
Proof.
  intros Hbs Hv Hw. unfold take_word in Hw.
  destruct (take_bytes 32 bs) as [[w r]|] eqn:Ht; [|done]. cbn in Hw. injection Hw as Hw ->.
  apply take_bytes_Some in Ht as [-> Hlen]; [|lia]. apply Forall_app in Hbs as [Hb Hrest].
  split; [|done]. f_equal. apply be_to_Z_inj.
  - rewrite length_u256_word. unfold zlen in Hlen. lia.
  - done.
  - apply u256_word_bytes.
  - by rewrite be_to_Z_u256_word.
Qed.

Lemma take_words_Some n bs ws rest :
  Forall is_byte bs → Forall is_u128 ws → take_words n bs = Some (ws, rest) →
  bs = words ws ++ rest ∧ length ws = n ∧ Forall is_byte rest.
Proof.
  revert bs ws. induction n as [|n IH]; intros bs ws Hbs Hws Ht; cbn in Ht.
  { by injection Ht as <- <-. }
  destruct (take_word bs) as [[w r]|] eqn:Hw; [|done]. cbn in Ht.
  destruct (take_words n r) as [[ws' r']|] eqn:Hr; [|done]. cbn in Ht. injection Ht as <- <-.
  apply Forall_cons in Hws as [Hw1 Hws]. apply take_word_Some in Hw as [-> Hr1]; [|done..].
  apply IH in Hr as (-> & <- & Hr2); [|done..].
  split; [|done]. unfold words. rewrite fmap_cons. cbn [concat]. by rewrite <-app_assoc.
Qed.

Lemma be_to_Z_nonneg bs : Forall is_byte bs → 0 <= be_to_Z bs.
Proof.
  induction bs as [|b bs IH] using rev_ind; intros Hbs; [done|].
  apply Forall_app in Hbs as [Hbs Hb]. rewrite Forall_singleton in Hb. rewrite be_to_Z_snoc. unfold is_byte in Hb.
  specialize (IH Hbs). lia.
Qed.

(** What follows a word is a part of the list. *)
Lemma take_word_suffix bs v rest :
  Forall is_byte bs → take_word bs = Some (v, rest) → 0 <= v ∧ Forall is_byte rest.
Proof.
  unfold take_word. intros Hbs Hw. destruct (take_bytes 32 bs) as [[w r]|] eqn:Ht; [|done].
  cbn in Hw. injection Hw as <- <-. apply take_bytes_Some in Ht as [-> _]; [|lia].
  apply Forall_app in Hbs as [Hw Hr]. split; [by apply be_to_Z_nonneg|done].
Qed.
Lemma take_words_suffix n bs ws rest :
  Forall is_byte bs → take_words n bs = Some (ws, rest) → length ws = n ∧ Forall is_byte rest.
Proof.
  revert bs ws. induction n as [|n IH]; intros bs ws Hbs Ht; cbn in Ht; [by injection Ht as <- <-|].
  destruct (take_word bs) as [[w r]|] eqn:Hw; [|done]. cbn in Ht.
  destruct (take_words n r) as [[ws' r']|] eqn:Hr; [|done]. cbn in Ht. injection Ht as <- <-.
  apply take_word_suffix in Hw as [_ Hw]; [|done]. apply IH in Hr as [<- Hr]; done.
Qed.

Lemma require_Some b : require b = Some tt → b = true.
Proof. by destruct b. Qed.

Lemma zeros_replicate bs : forallb (Z.eqb 0) bs = true → bs = replicate (length bs) 0.
Proof.
  induction bs as [|b bs IH]; [done|]. cbn [forallb length replicate]. intros [<-%Z.eqb_eq Hbs]%andb_true_iff. by rewrite <-IH.
Qed.

Lemma take_element_Some bs v rest :
  Forall is_byte bs → is_u128 (zlen v) → take_element bs = Some (v, rest) →
  bs = encode_bytes v ++ rest ∧ Forall is_byte rest.
Proof.
  intros Hbs Hv Ht. unfold take_element in Ht.
  destruct (take_word bs) as [[len r]|] eqn:Hw; [|done]. cbn [mbind option_bind] in Ht.
  destruct (take_bytes len r) as [[v' r']|] eqn:Hr; [|done]. cbn [mbind option_bind] in Ht.
  destruct (take_bytes (to_word len) r') as [[padding r'']|] eqn:Hp; [|done]. cbn [mbind option_bind] in Ht.
  destruct (require _) as [[]|] eqn:Hz; [|done]. cbn [mbind option_bind] in Ht. injection Ht as -> ->.
  apply require_Some, zeros_replicate in Hz.
  pose proof (take_word_suffix _ _ _ Hbs Hw) as [Hlen _].
  apply take_bytes_Some in Hr as [-> <-]; [|done]. pose proof (to_word_range (zlen v)).
  apply take_bytes_Some in Hp as [-> Hpad]; [|lia].
  apply take_word_Some in Hw as [-> Hrest]; [|done..].
  rewrite !Forall_app in Hrest. split; [|tauto].
  assert (padding = replicate (Z.to_nat (to_word (zlen v))) 0) as ->.
  { rewrite <-Hpad. unfold zlen. by rewrite Nat2Z.id. }
  by rewrite encode_bytes_padded, <-!app_assoc.
Qed.

Lemma take_elements_Some offs position bs vs :
  Forall is_byte bs → Forall (λ v, is_u128 (zlen v)) vs → take_elements offs position bs = Some vs →
  offs = offsets position (encode_bytes <$> vs) ∧ bs = concat (encode_bytes <$> vs).
Proof.
  revert position bs vs. induction offs as [|o offs IH]; intros position bs vs Hbs Hvs Ht; cbn [take_elements] in Ht.
  { destruct (zlen bs =? 0) eqn:Hb; [|done]. injection Ht as <-. by destruct bs. }
  destruct (Z.eqb_spec o position) as [->|]; [|done]. cbn [mbind option_bind require] in Ht.
  destruct (take_element bs) as [[v rest]|] eqn:Hv; [|done]. cbn [mbind option_bind] in Ht.
  destruct (take_elements _ _ rest) as [vs'|] eqn:Hrest; [|done]. cbn [mbind option_bind] in Ht.
  injection Ht as <-. apply Forall_cons in Hvs as [Hlen Hvs].
  apply take_element_Some in Hv as [-> Hr]; [|done..].
  rewrite zlen_app in Hrest. replace (_ + _ - _) with (zlen (encode_bytes v)) in Hrest by lia.
  apply IH in Hrest as [-> ->]; done.
Qed.

Section roundtrip.
Context `{Externals}.

Lemma types_of_range us : Forall (λ t, 0 <= t < 256) (types_of us).
Proof.
  unfold types_of. apply Forall_fmap, Forall_forall. intros u _. cbn. destruct (update_type u); cbn; lia.
Qed.
Lemma types_of_u128 us : Forall is_u128 (types_of us).
Proof. eapply Forall_impl; [apply types_of_range|]. unfold is_u128. cbn. lia. Qed.

Lemma offsets_u128 r encs :
  0 <= r → r + zlen (concat encs) < 2 ^ 128 → Forall is_u128 (offsets r encs).
Proof.
  revert r; induction encs as [|e encs IH]; intros r Hr Hb; cbn; [constructor|].
  cbn in Hb. rewrite zlen_app in Hb.
  pose proof (zlen_nonneg e); pose proof (zlen_nonneg (concat encs)).
  constructor; [unfold is_u128; lia|]. apply IH; lia.
Qed.

Lemma elements_u128 vs : zlen (concat (encode_bytes <$> vs)) < 2 ^ 128 → Forall (λ v, is_u128 (zlen v)) vs.
Proof.
  induction vs as [|v vs IH]; intros Hsz; [constructor|]. cbn in Hsz. rewrite zlen_app in Hsz.
  pose proof (zlen_nonneg (concat (encode_bytes <$> vs))). pose proof (zlen_nonneg v).
  pose proof (zlen_nonneg (encode_bytes v)). constructor; [|apply IH; lia].
  rewrite zlen_encode_bytes in Hsz. pose proof (pad32_len_bounds (zlen v) (zlen_nonneg v)). unfold is_u128. lia.
Qed.

(** The numbers of an encoding that is not too long can be written. *)
Lemma encoded_numbers us :
  encoded_size us < 2 ^ 128 →
  is_u128 (96 + 32 * zlen us) ∧ is_u128 (zlen us) ∧
  Forall is_u128 (offsets (32 * zlen us) (encode_bytes <$> datas_of us)) ∧
  Forall (λ v, is_u128 (zlen v)) (datas_of us).
Proof.
  intros Hsz. pose proof (zlen_nonneg us). unfold encoded_size in Hsz. rewrite <-zlen_concat_encode in Hsz.
  pose proof (zlen_nonneg (concat (encode_bytes <$> datas_of us))).
  split_and!; [unfold is_u128; lia..|apply offsets_u128; lia|apply elements_u128; lia].
Qed.

Lemma zlen_offsets_of us r : length (offsets r (encode_bytes <$> datas_of us)) = Z.to_nat (zlen us).
Proof.
  pose proof (zlen_offsets r (encode_bytes <$> datas_of us)) as Hlen. rewrite zlen_fmap, zlen_datas_of in Hlen.
  unfold zlen in *. lia.
Qed.

Lemma decode_encode us :
  encoded_size us < 2 ^ 128 →
  abi_decode_program (encode_state_updates_to_abi us) = Some (types_of us, datas_of us).
Proof.
  intros (Hhead & Hn & Hoffs & Hlens)%encoded_numbers. unfold abi_decode_program. rewrite encode_eq.
  rewrite take_word_app by done. cbn [mbind option_bind].
  rewrite take_word_app by done. cbn [mbind option_bind].
  rewrite take_word_app by done. cbn [mbind option_bind].
  replace (Z.to_nat (zlen us)) with (length (types_of us)) at 1
    by (rewrite <-zlen_types_of; unfold zlen; lia).
  rewrite take_words_app by apply types_of_u128. cbn [mbind option_bind].
  rewrite take_word_app by done. cbn [mbind option_bind].
  rewrite <-(zlen_offsets_of us (32 * zlen us)), take_words_app by done. cbn [mbind option_bind].
  rewrite take_elements_app by done.
  replace (forallb _ (types_of us)) with true.
  - replace (96 + 32 * zlen us =? _) with true; [done|]. symmetry. apply Z.eqb_eq. lia.
  - symmetry. apply forallb_forall. intros t Ht%list_elem_of_In.
    pose proof (types_of_range us) as Hall. rewrite Forall_forall in Hall. apply Hall in Ht. lia.
Qed.

(** Nothing but its encoding is read as a program. *)
Lemma decode_unique us bs :
  encoded_size us < 2 ^ 128 → Forall is_byte bs →
  abi_decode_program bs = Some (types_of us, datas_of us) → bs = encode_state_updates_to_abi us.
Proof.
  intros (Hhead & Hn & Hoffs & Hlens)%encoded_numbers Hbs Hd. unfold abi_decode_program in Hd.
  repeat match type of Hd with mbind (M := option) _ ?m = Some _ =>
    let Hm := fresh "Hm" in destruct m as [?|] eqn:Hm; [|done]; cbn [mbind option_bind] in Hd;
    repeat match goal with x : _ * _ |- _ => destruct x; cbn [mbind option_bind] in Hd | x : unit |- _ => destruct x end
  end.
  injection Hd as -> ->. apply require_Some in Hm5. rewrite andb_true_iff, !Z.eqb_eq in Hm5. destruct Hm5 as [-> Hz0].
  pose proof (take_word_suffix _ _ _ Hbs Hm) as [_ Hl]. pose proof (take_word_suffix _ _ _ Hl Hm0) as [_ Hl0].
  pose proof (take_word_suffix _ _ _ Hl0 Hm1) as [Hz1 Hl1].
  pose proof (take_words_suffix _ _ _ _ Hl1 Hm2) as [Hn1 Hl3].
  pose proof (take_word_suffix _ _ _ Hl3 Hm3) as [Hz2 Hl4].
  pose proof (take_words_suffix _ _ _ _ Hl4 Hm4) as [Hn2 Hl6].
  pose proof (zlen_types_of us) as Hlen1. unfold zlen at 1 in Hlen1. assert (z1 = zlen us) as -> by lia.
  apply take_elements_Some in Hm7 as [-> ->]; [|done..].
  pose proof (zlen_offsets_of us (32 * z2)) as Hlen2. assert (z2 = zlen us) as -> by lia.
  apply take_words_Some in Hm4 as (-> & _); [|done..]. apply take_word_Some in Hm3 as [-> _]; [|done..].
  apply take_words_Some in Hm2 as (-> & _); [|done|apply types_of_u128].
  apply take_word_Some in Hm1 as [-> _]; [|done..].
  apply take_word_Some in Hm0 as [-> _]; [|done|by rewrite Hz0; replace (64 + 32 + 32 * zlen us) with (96 + 32 * zlen us) by lia].
  apply take_word_Some in Hm as [-> _]; [|done..]. rewrite encode_eq, Hz0. do 2 f_equal.
Qed.
End roundtrip.

(** ** Properties *)

Lemma StateUpdateType_as_u8_inj t t' :
  StateUpdateType_as_u8 t = StateUpdateType_as_u8 t' → t = t'.
Proof. destruct t, t'; cbn; congruence. Qed.

Lemma update_kinds u v :
  update_type u = update_type v → abi_kind <$> update_fields u = abi_kind <$> update_fields v.
Proof. destruct u, v; cbn; congruence. Qed.

Lemma update_fields_inj u v :
  update_type u = update_type v → update_fields u = update_fields v → u = v.
Proof. destruct u as [[]|[]|[]|[]|[]|[]|[]|[]|[]|[]], v as [[]|[]|[]|[]|[]|[]|[]|[]|[]|[]]; cbn; congruence. Qed.

(** One update is determined by its type and its encoded data. *)
Lemma update_data_inj `{AbiLaws} u v :
  update_wf u → update_wf v → update_type u = update_type v →
  abi_encode_sequence (update_fields u) = abi_encode_sequence (update_fields v) → u = v.
Proof.
  intros Hu Hv Ht Hd. apply update_fields_inj; [done|].
  apply abi_encode_sequence_inj; [by apply update_kinds|done..].
Qed.

(** C22: the encoding of a program is [abi.encode] of its types and data, canonical and nothing else: the
    strict decoder of [(uint8[], bytes[])] reads the type number and the encoded data of every update back, in
    program order; no other bytes are read so; and the encoding has the size of its words. *)
Theorem encode_state_updates_roundtrip `{Externals} us :
  encoded_size us < 2 ^ 128 →
  abi_decode_program (encode_state_updates_to_abi us) = Some (types_of us, datas_of us) ∧
  (∀ bs, Forall is_byte bs → abi_decode_program bs = Some (types_of us, datas_of us) →
    bs = encode_state_updates_to_abi us) ∧
  zlen (encode_state_updates_to_abi us) = encoded_size us.
Proof.
  intros Hsz. split; [by apply decode_encode|]. split; [|apply zlen_encode].
  intros bs Hbs. by apply decode_unique.
Qed.

Lemma encode_state_updates_roundtrip_witness :
  let us := [UStore (mkStore 1 2); ULog1 (mkLog1 [7; 0; 9] 5); UNested (mkNested 3 0 0)] in
  encoded_size us < 2 ^ 128 ∧
  abi_decode_program (encode_state_updates_to_abi us) = Some (types_of us, datas_of us) ∧
  (∀ bs, Forall is_byte bs → abi_decode_program bs = Some (types_of us, datas_of us) →
    bs = encode_state_updates_to_abi us) ∧
  zlen (encode_state_updates_to_abi us) = encoded_size us.
Proof. split; [vm_compute; done|]. apply encode_state_updates_roundtrip. vm_compute. done. Defined.

(** A decoder that is strict: data that is not padded, or followed by anything, is no program. *)
Example decoder_strict :
  let bs := encode_state_updates_to_abi [ULog0 (mkLog0 [7; 0; 9])] in
  abi_decode_program (bs ++ [0]) = None ∧ abi_decode_program (take (Nat.pred (length bs)) bs) = None ∧
  abi_decode_program (take (Nat.pred (length bs)) bs ++ [1]) = None.
Proof. vm_compute. split_and!; reflexivity. Qed.

(** two programs with the same encoding are the same program, update for update: what a frame's
    leaf hashes determines what is replayed. *)
Theorem encode_state_updates_injective `{AbiLaws} us vs :
  encoded_size us < 2 ^ 128 → encoded_size vs < 2 ^ 128 →
  Forall update_wf us → Forall update_wf vs →
  encode_state_updates_to_abi us = encode_state_updates_to_abi vs → us = vs.
Proof.
  intros Hsu Hsv Hwu Hwv Heq.
  pose proof (decode_encode us Hsu) as Hu. rewrite Heq, (decode_encode vs Hsv) in Hu.
  injection Hu as Ht Hd. clear -Ht Hd Hwu Hwv H0. revert vs Hwv Ht Hd.
  induction Hwu as [|u us Hu Hwu IH]; intros [|v vs] Hwv Ht Hd; [done..|].
  apply Forall_cons in Hwv as [Hv Hwv].
  injection Ht as Ht1 Ht2. injection Hd as Hd1 Hd2.
  f_equal; [|by apply IH]. apply update_data_inj; [done..| |done].
  by apply StateUpdateType_as_u8_inj.
Qed.

Lemma encode_state_updates_injective_witness :
  let us := [UStore (mkStore 1 2); UCall (mkCall 5 6 [1; 2])] in
  encode_state_updates_to_abi us = encode_state_updates_to_abi us ∧ us = us.
Proof.
  split; [done|].
  apply encode_state_updates_injective; [by_compute..|done].
Defined.
