(* ===== verification/Trace.v ===== *)
(** * Trace extraction

    [crates/core/src/trace.rs]: copying and parsing trace memory, decoding one struct log into a
    state update, and the single-pass extraction [compute_state_updates], as a step function on the
    walk's state. *)

From Stdlib Require Import Ascii.
From S2P Require Import Prelude.
From S2P Require Import Types.
From S2P Require Import Instances.

(** ** Memory *)

Definition usize_max : Z := u64_max.

Definition copy_memory (memory : list Z) (offset length : Z) : list Z :=
  let end_ := sat_add offset length in
  if end_ <=? zlen memory then
    take (Z.to_nat (end_ - offset)) (drop (Z.to_nat offset) memory)
  else
    let result := replicate (Z.to_nat length) 0 in
    if offset <? zlen memory then
      let copy_len := Z.min (zlen memory - offset) length in
      take (Z.to_nat copy_len) (drop (Z.to_nat offset) memory) ++ drop (Z.to_nat copy_len) result
    else result.

(** [s.strip_prefix("0x").unwrap_or(s)] *)
Definition strip_0x (s : string) : string :=
  match s with
  | String a (String b r) =>
      if (Ascii.eqb a "0"%char && Ascii.eqb b "x"%char)%bool then r else s
  | _ => s
  end.

Definition parse_trace_memory `{Externals} (memory : list string) : Result (list Z) :=
  foldM (λ result s,
    bs ← expect (hex_decode (strip_0x s)) "invalid hex";
    Ok (result ++ bs)) memory [].

(** ** One struct log *)

Definition reads_memory (op : string) : bool :=
  match opc_of op with
  | OP_CREATE | OP_CREATE2 | OP_CALL | OP_LOG0 | OP_LOG1 | OP_LOG2 | OP_LOG3 | OP_LOG4 => true
  | _ => false
  end.

(** [stack[i]]: panics out of bounds. *)
Definition stack_get (stack : list Z) (i : nat) : Result Z :=
  expect (stack !! i) "index out of bounds".

(** [w.try_into().expect(..)] from [U256] to [usize]. *)
Definition to_usize (w : Z) (why : string) : Result Z :=
  if w <=? usize_max then Ok w else Panic why.

(** The offset and length of a memory range, at positions [i] and [j] of the stack. *)
Definition memory_range (memory stack : list Z) (i j : nat) (why_offset why_length : string)
  : Result (list Z) :=
  o ← stack_get stack i; offset ← to_usize o why_offset;
  l ← stack_get stack j; length ← to_usize l why_length;
  Ok (copy_memory memory offset length).

Definition log_data (memory stack : list Z) : Result (list Z) :=
  memory_range memory stack 0 1 "invalid data offset" "invalid data length".

(** The [match] of [append_state_update_from_struct_log] on the opcode: the updates with the new
    one pushed, and the opcode when it is skipped. *)
Definition append_by_opcode (state_updates : list StateUpdate) (op : string)
  (stack memory : list Z) : Result (list StateUpdate * option string) :=
  let push u := Ok (state_updates ++ [u], None) in
  match opc_of op with
  | OP_SELFDESTRUCT | OP_TSTORE => Ok (state_updates, Some op)
  | OP_CREATE =>
      value ← stack_get stack 0;
      initcode ← memory_range memory stack 1 2 "invalid CREATE offset" "invalid CREATE length";
      push (UCreate (mkCreate value initcode))
  | OP_CREATE2 =>
      value ← stack_get stack 0;
      initcode ← memory_range memory stack 1 2 "invalid CREATE2 offset" "invalid CREATE2 length";
      salt ← stack_get stack 3;
      push (UCreate2 (mkCreate2 salt value initcode))
  | OP_DELEGATECALL | OP_CALLCODE => Err (EDelegateCall op)
  | OP_SSTORE =>
      slot ← stack_get stack 0;
      value ← stack_get stack 1;
      push (UStore (mkStore slot value))
  | OP_CALL =>
      args ← memory_range memory stack 3 4 "invalid args offset" "invalid args length";
      target ← stack_get stack 1;
      value ← stack_get stack 2;
      push (UCall (mkCall (address_from_word target) value args))
  | OP_LOG0 =>
      data ← log_data memory stack;
      push (ULog0 (mkLog0 data))
  | OP_LOG1 =>
      data ← log_data memory stack;
      topic1 ← stack_get stack 2;
      push (ULog1 (mkLog1 data topic1))
  | OP_LOG2 =>
      data ← log_data memory stack;
      topic1 ← stack_get stack 2;
      topic2 ← stack_get stack 3;
      push (ULog2 (mkLog2 data topic1 topic2))
  | OP_LOG3 =>
      data ← log_data memory stack;
      topic1 ← stack_get stack 2;
      topic2 ← stack_get stack 3;
      topic3 ← stack_get stack 4;
      push (ULog3 (mkLog3 data topic1 topic2 topic3))
  | OP_LOG4 =>
      data ← log_data memory stack;
      topic1 ← stack_get stack 2;
      topic2 ← stack_get stack 3;
      topic3 ← stack_get stack 4;
      topic4 ← stack_get stack 5;
      push (ULog4 (mkLog4 data topic1 topic2 topic3 topic4))
  | OP_STATICCALL | OP_OTHER => Ok (state_updates, None)
  end.

(** The opcodes whose log must carry memory at depth 1. *)
Definition needs_memory_at_root (op : string) : bool :=
  match opc_of op with
  | OP_CALL | OP_LOG0 | OP_LOG1 | OP_LOG2 | OP_LOG3 | OP_LOG4 => true
  | _ => false
  end.

Definition append_state_update_from_struct_log `{Externals}
  (state_updates : list StateUpdate) (struct_log : StructLog)
  : Result (list StateUpdate * option string) :=
  stack ← expect (sl_stack struct_log) "stack is empty";
  let stack := reverse stack in
  match sl_memory struct_log with
  | Some memory =>
      memory ← parse_trace_memory memory;
      append_by_opcode state_updates (sl_op struct_log) stack memory
  | None =>
      if needs_memory_at_root (sl_op struct_log) && (sl_depth struct_log =? 1)
      then Err (ENoMemory (sl_op struct_log))
      else Ok (state_updates, None)
  end.

(** ** The walk *)

Record TraceExtract := mkTraceExtract {
  te_state_updates : list StateUpdate;
  te_skipped_opcodes : gset string;
  te_call_gas_total : Z;
  te_callee_gas_total : Z;
  te_create_gas_total : Z;
  te_sstore_gas_total : Z;
  te_refund_counter : Z;
  te_reentered : bool
}.

Definition callee_gas (gas_used gas_cost : Z) (entry_gas : option Z) : Z :=
  match entry_gas with
  | None => 0
  | Some entry => sat_sub gas_used (sat_sub gas_cost entry)
  end.

Record CallGas := mkCallGas { cg_gas : Z; cg_gas_cost : Z; cg_entry_gas : option Z }.

(** The mutable locals of [compute_state_updates]. The top of [call_stack] is its head. *)
Record TraceState := mkTS {
  ts_updates : list StateUpdate;
  ts_target_depth : Z;
  ts_skipped : gset string;
  ts_call_stack : list (Z * nat);
  ts_call_type_at_depth : gmap Z string;
  ts_tracking : gmap nat CallGas;
  ts_awaiting : option (Z * nat);
  ts_pending : option (Z * Z);
  ts_call_gas : Z;
  ts_callee_gas : Z;
  ts_create_gas : Z;
  ts_sstore_gas : Z;
  ts_reentered : bool
}.

Definition initial_trace_state : TraceState :=
  mkTS [] 1 ∅ [] ∅ ∅ None None 0 0 0 0 false.

(** Lines 291-296: the step after an extracted [CALL] is its callee's first, if one deeper. *)
Definition take_awaiting_entry (s : TraceState) (l : StructLog) : TraceState :=
  let 'mkTS ups td sk cs ct tr aw pe cg ce cr ss re := s in
  let tr' :=
    match aw with
    | Some (call_depth, idx) =>
        if sl_depth l =? call_depth + 1 then
          alter (λ call, mkCallGas (cg_gas call) (cg_gas_cost call) (Some (sl_gas l))) idx tr
        else tr
    | None => tr
    end in
  mkTS ups td sk cs ct tr' None pe cg ce cr ss re.

(** Lines 298-310: execution resumed at the depth of an extracted create. *)
Definition close_pending_create (s : TraceState) (l : StructLog) : Result TraceState :=
  let 'mkTS ups td sk cs ct tr aw pe cg ce cr ss re := s in
  match pe with
  | Some (create_depth, gas_at_opcode) =>
      if sl_depth l <=? create_depth then
        let deployed :=
          if sl_depth l =? create_depth then sl_stack l ≫= last else None in
        match deployed with
        | Some address =>
            if address =? 0 then Err (EFailedCreate create_depth)
            else
              let cr' := u64_add cr (sat_sub gas_at_opcode (sl_gas l)) in
              Ok (mkTS ups td sk cs ct tr aw None cg ce cr' ss re)
        | None => Err (EFailedCreate create_depth)
        end
      else Ok s
  | None => Ok s
  end.

Definition is_call_family (op : string) : bool :=
  match opc_of op with
  | OP_CALL | OP_STATICCALL | OP_DELEGATECALL | OP_CALLCODE => true
  | _ => false
  end.

(** The second stack item from the top. *)
Definition second_from_top (stack : list Z) : option Z :=
  if (2 <=? length stack)%nat then stack !! (length stack - 2)%nat else None.

(** Lines 312-325: re-entry detection. *)
Definition detect_reentry (origin : option Z) (s : TraceState) (l : StructLog) : TraceState :=
  let 'mkTS ups td sk cs ct tr aw pe cg ce cr ss re := s in
  let hit :=
    negb re && (2 <=? sl_depth l) && is_call_family (sl_op l) &&
    match origin, sl_stack l with
    | Some origin, Some stack =>
        match second_from_top stack with
        | Some w => address_from_word w =? origin
        | None => false
        end
    | _, _ => false
    end in
  mkTS ups td sk cs ct tr aw pe cg ce cr ss (re || hit).

(** The [while let] of lines 330-342: pop and account for every [CALL] being left. *)
Fixpoint pop_calls (depth gas : Z) (cs : list (Z * nat)) (tr : gmap nat CallGas) (cg ce : Z)
  : list (Z * nat) * gmap nat CallGas * Z * Z :=
  match cs with
  | (d, idx) :: cs' =>
      if depth <=? d then
        match tr !! idx with
        | Some call =>
            let gas_used := sat_sub (cg_gas call) gas in
            pop_calls depth gas cs' (delete idx tr) (u64_add cg gas_used)
              (u64_add ce (callee_gas gas_used (cg_gas_cost call) (cg_entry_gas call)))
        | None => pop_calls depth gas cs' tr cg ce
        end
      else (cs, tr, cg, ce)
  | [] => (cs, tr, cg, ce)
  end.

(** Lines 327-345: stepping up. *)
Definition leave_frames (s : TraceState) (l : StructLog) : TraceState :=
  let 'mkTS ups td sk cs ct tr aw pe cg ce cr ss re := s in
  if sl_depth l <? td then
    let '(cs', tr', cg', ce') := pop_calls (sl_depth l) (sl_gas l) cs tr cg ce in
    mkTS ups (sl_depth l) sk cs' (delete td ct) tr' aw pe cg' ce' cr ss re
  else s.

Definition is_state_op (op : string) : bool :=
  match opc_of op with
  | OP_CALL | OP_SSTORE | OP_LOG0 | OP_LOG1 | OP_LOG2 | OP_LOG3 | OP_LOG4
  | OP_CREATE | OP_CREATE2 => true
  | _ => false
  end.

(** Lines 381-407: bookkeeping for the update an opcode just added. *)
Definition record_update (s : TraceState) (l : StructLog) : TraceState :=
  let 'mkTS ups td sk cs ct tr aw pe cg ce cr ss re := s in
  match opc_of (sl_op l) with
  | OP_SSTORE => mkTS ups td sk cs ct tr aw pe cg ce cr (u64_add ss (sl_gas_cost l)) re
  | OP_CREATE | OP_CREATE2 =>
      mkTS ups td sk cs ct tr aw (Some (sl_depth l, sl_gas l)) cg ce cr ss re
  | OP_CALL =>
      let call_index_1based := length ups in
      mkTS ups (sl_depth l + 1) sk ((sl_depth l, call_index_1based) :: cs) ct
        (<[call_index_1based := mkCallGas (sl_gas l) (sl_gas_cost l) None]> tr)
        (Some (sl_depth l, call_index_1based)) pe cg ce cr ss re
  | _ => s
  end.

(** Lines 347-409: the opcode at the target depth. *)
Definition extract_op `{Externals} (s : TraceState) (l : StructLog) : Result TraceState :=
  let 'mkTS ups td sk cs ct tr aw pe cg ce cr ss re := s in
  if negb (sl_depth l =? td) then Ok s
  else
    match opc_of (sl_op l) with
    | OP_DELEGATECALL | OP_CALLCODE =>
        Ok (mkTS ups (sl_depth l + 1) sk cs (<[sl_depth l + 1 := "DELEGATECALL"%string]> ct) tr
              aw pe cg ce cr ss re)
    | _ =>
        if is_state_op (sl_op l) then
          match cs with
          | _ :: _ => Ok s
          | [] =>
              '(ups', skipped) ← append_state_update_from_struct_log ups l;
              match skipped with
              | Some op => Ok (mkTS ups' td ({[op]} ∪ sk) cs ct tr aw pe cg ce cr ss re)
              | None =>
                  let s' := mkTS ups' td sk cs ct tr aw pe cg ce cr ss re in
                  if (length ups <? length ups')%nat then Ok (record_update s' l) else Ok s'
              end
          end
        else Ok s
    end.

(** The body of the [for] loop. *)
Definition trace_step `{Externals} (origin : option Z) (s : TraceState) (l : StructLog)
  : Result TraceState :=
  let s := take_awaiting_entry s l in
  s ← close_pending_create s l;
  let s := detect_reentry origin s l in
  let s := leave_frames s l in
  extract_op s l.

Definition trace_refund_counter (logs : list StructLog) : Z :=
  default 0 (last logs ≫= sl_refund_counter).

(** Lines 412-437: the checks after the loop. *)
Definition finish_trace (refund_counter : Z) (s : TraceState) : Result TraceExtract :=
  match ts_pending s with
  | Some (depth, _) => Err (EFailedCreate depth)
  | None =>
      if decide (ts_tracking s = ∅) then
        Ok (mkTraceExtract (ts_updates s) (ts_skipped s) (ts_call_gas s) (ts_callee_gas s)
              (ts_create_gas s) (ts_sstore_gas s) refund_counter (ts_reentered s))
      else Panic "Found remaining CALL(s) that didn't exit properly"
  end.

Definition compute_state_updates `{Externals} (trace : DefaultFrame) (origin : option Z)
  : Result TraceExtract :=
  let refund_counter := trace_refund_counter (df_struct_logs trace) in
  s ← foldM (trace_step origin) (df_struct_logs trace) initial_trace_state;
  finish_trace refund_counter s.

(** ** Call outcome *)

Record EvmFailure := mkEvmFailure { ef_reason : string }.

(** [format!("reverted or halted, returning {}", trace.return_value)]: [Bytes] prints as
    lowercase hexadecimal. *)
Definition hex_char (n : Z) : Ascii.ascii :=
  Ascii.ascii_of_nat (Z.to_nat (if n <? 10 then 48 + n else 87 + n)).

Fixpoint hex_string (bs : list Z) : string :=
  match bs with
  | [] => EmptyString
  | b :: bs => String (hex_char (b / 16)) (String (hex_char (b mod 16)) (hex_string bs))
  end.

Definition ensure_call_succeeded (trace : DefaultFrame) : Res EvmFailure unit :=
  if df_failed trace
  then Err (mkEvmFailure
    ("reverted or halted, returning 0x" +:+ hex_string (df_return_value trace)))
  else Ok tt.

(** ** Lemmas on decoding one log *)

Ltac case_opc op := destruct (opc_of op) eqn:?.

Section append_lemmas.
Context `{Externals}.

(** Decoding only pushes on the list it is given. *)
Lemma append_by_opcode_app ups op stack memory :
  append_by_opcode ups op stack memory =
  (p ← append_by_opcode [] op stack memory; Ok (ups ++ p.1, p.2)).
Proof.
  unfold append_by_opcode.
  case_opc op; cbn [mbind res_bind fst snd app]; rewrite ?app_nil_r; try done;
  repeat match goal with
  | |- mbind _ ?m = _ => destruct m; cbn [mbind res_bind fst snd app]; try done
  end.
Qed.

Lemma append_app ups l :
  append_state_update_from_struct_log ups l =
  (p ← append_state_update_from_struct_log [] l; Ok (ups ++ p.1, p.2)).
Proof.
  unfold append_state_update_from_struct_log.
  destruct (sl_stack l); cbn [expect mbind res_bind]; [|done].
  destruct (sl_memory l).
  - destruct (parse_trace_memory _); cbn [mbind res_bind]; [|done..]. apply append_by_opcode_app.
  - destruct (needs_memory_at_root _ && _); cbn; [done|]. by rewrite app_nil_r.
Qed.

(** The opcodes the walk extracts are never skipped, and add at most one update. *)
Lemma append_by_opcode_state op stack memory p :
  is_state_op op = true → append_by_opcode [] op stack memory = Ok p →
  ∃ u, p = ([u], None).
Proof.
  unfold append_by_opcode, is_state_op.
  case_opc op; intros Hop Hp; try discriminate Hop; inv_res; eauto.
Qed.

Lemma append_state_op l p :
  is_state_op (sl_op l) = true → append_state_update_from_struct_log [] l = Ok p →
  p = ([], None) ∨ ∃ u, p = ([u], None).
Proof.
  unfold append_state_update_from_struct_log. intros Hop Hp. inv_res.
  destruct (sl_memory l); inv_res.
  - right. by eapply append_by_opcode_state.
  - destruct (needs_memory_at_root _ && _); inv_res. by left.
Qed.
End append_lemmas.

(** ** Properties *)

Section trace_properties.
Context `{Externals}.

Lemma extract_op_skipped s l s' :
  ts_skipped s = ∅ → extract_op s l = Ok s' → ts_skipped s' = ∅.
Proof.
  destruct s as [ups td sk cs ct tr aw pe cg ce cr ss re]; cbn [ts_skipped]; intros ->.
  unfold extract_op. destruct (negb _); [by intros; inv_res|].
  destruct (is_state_op (sl_op l)) eqn:Hop; [|destruct (opc_of (sl_op l)); by intros; inv_res].
  assert (Hst : (match cs with
     | _ :: _ => Ok (mkTS ups td ∅ cs ct tr aw pe cg ce cr ss re)
     | [] =>
         '(ups', skipped) ← append_state_update_from_struct_log ups l;
         match skipped with
         | Some op => Ok (mkTS ups' td ({[op]} ∪ ∅) cs ct tr aw pe cg ce cr ss re)
         | None =>
             let s' := mkTS ups' td ∅ cs ct tr aw pe cg ce cr ss re in
             if (length ups <? length ups')%nat then Ok (record_update s' l) else Ok s'
         end
     end) = Ok s' → ts_skipped s' = ∅).
  { destruct cs as [|c cs]; [|by intros; inv_res]. rewrite append_app.
    destruct (append_state_update_from_struct_log [] l) as [p| |] eqn:Hp; [|done..].
    apply append_state_op in Hp as [->|[u ->]]; [| |done]; cbn [snd mbind res_bind];
      case_match; intros Hs; inv_res; try done; unfold record_update;
      by destruct (opc_of (sl_op l)). }
  destruct (opc_of (sl_op l)); try exact Hst; by intros; inv_res.
Qed.

Lemma trace_step_skipped origin s l s' :
  ts_skipped s = ∅ → trace_step origin s l = Ok s' → ts_skipped s' = ∅.
Proof.
  unfold trace_step. intros Hs Hstep.
  destruct (close_pending_create (take_awaiting_entry s l) l) as [t| |] eqn:Hclose; [|done..].
  eapply extract_op_skipped; [|exact Hstep].
  assert (ts_skipped t = ∅) as Ht.
  { clear Hstep. destruct s as [ups td sk cs ct tr aw pe cg ce cr ss re]; cbn in Hs; subst sk.
    cbn in Hclose. repeat case_match; inv_res; done. }
  destruct t; cbn in *. case_match; [|done]. by destruct (pop_calls _ _ _ _ _ _) as [[[??]?]?].
Qed.

(** [compute_state_updates] never reports a skipped opcode: [SELFDESTRUCT] and [TSTORE], the
    only opcodes the decoder skips, are not among those the walk hands to it. *)
Theorem compute_state_updates_skips_nothing trace origin e :
  compute_state_updates trace origin = Ok e → te_skipped_opcodes e = ∅.
Proof.
  unfold compute_state_updates. intros He.
  destruct (foldM _ _ _) as [t| |] eqn:Hfold; [|done..]. cbn in He.
  assert (ts_skipped t = ∅) as Ht.
  { refine (foldM_inv (λ s, ts_skipped s = ∅) _ _ initial_trace_state _ _ eq_refl Hfold).
    intros s l s' _. apply trace_step_skipped. }
  unfold finish_trace in He. repeat case_match; inv_res; done.
Qed.

(** [copy_memory] returns exactly [length] bytes, byte [i] being memory byte [offset + i], or
    zero past the end of memory (for any memory a [Vec] can hold). *)
Theorem copy_memory_spec memory offset length :
  zlen memory < u64_max → 0 <= offset → 0 <= length →
  zlen (copy_memory memory offset length) = length ∧
  ∀ i, (i < Z.to_nat length)%nat →
    copy_memory memory offset length !! i =
    Some (default 0 (memory !! (Z.to_nat offset + i)%nat)).
Proof.
  intros Hmem Ho Hl. unfold copy_memory, zlen in *.
  destruct (Z.leb_spec (sat_add offset length) (Z.of_nat (List.length memory))) as [Hfit|Hfit].
  - assert (sat_add offset length = offset + length) as Hs by (revert Hfit Hmem; u64_lia).
    rewrite Hs in *. replace (offset + length - offset) with length by lia. split.
    + rewrite length_take, length_drop. lia.
    + intros i Hi. rewrite lookup_take_lt, lookup_drop by lia.
      destruct (lookup_lt_is_Some_2 memory (Z.to_nat offset + i)) as [b ->]; [lia|done].
  - destruct (Z.ltb_spec offset (Z.of_nat (List.length memory))) as [Hin|Hin].
    + set (n := Z.min (Z.of_nat (List.length memory) - offset) length).
      assert (List.length (take (Z.to_nat n) (drop (Z.to_nat offset) memory)) = Z.to_nat n) as Hn
        by (rewrite length_take, length_drop; lia).
      split; [rewrite length_app, Hn, length_drop, length_replicate; lia|].
      intros i Hi. destruct (decide (i < Z.to_nat n)%nat) as [Hlt|Hge].
      * rewrite lookup_app_l, lookup_take_lt, lookup_drop by lia.
        destruct (lookup_lt_is_Some_2 memory (Z.to_nat offset + i)) as [b ->]; [lia|done].
      * rewrite lookup_app_r, Hn, lookup_drop, lookup_replicate_2 by lia.
        rewrite lookup_ge_None_2 by lia. done.
    + split; [rewrite length_replicate; lia|].
      intros i Hi. rewrite lookup_replicate_2, lookup_ge_None_2 by lia. done.
Qed.
End trace_properties.

Lemma copy_memory_spec_witness :
  zlen (copy_memory [1; 2; 3] 2 4) = 4 ∧
  ∀ i, (i < 4)%nat → copy_memory [1; 2; 3] 2 4 !! i = Some (default 0 ([1; 2; 3] !! (2 + i)%nat)).
Proof. apply (copy_memory_spec [1; 2; 3] 2 4); vm_compute; done. Defined.

(** One [SSTORE], then [SELFDESTRUCT]. *)
Definition skip_trace : DefaultFrame :=
  mkDefaultFrame false 0 [] [
    mkStructLog 1 "SSTORE" 100 5 (Some [7; 1]) (Some []) None None;
    mkStructLog 1 "SELFDESTRUCT" 90 5 (Some [7]) (Some []) None None].

Lemma compute_state_updates_skips_nothing_witness :
  ∃ e, compute_state_updates (H := sample_externals) skip_trace None = Ok e ∧
    te_state_updates e = [UStore (mkStore 1 7)] ∧ te_skipped_opcodes e = ∅.
Proof.
  eexists. split; [vm_compute; reflexivity|]. split; [reflexivity|].
  eapply (compute_state_updates_skips_nothing (H := sample_externals) skip_trace None).
  vm_compute. reflexivity.
Defined.
