(* ===== verification/TraceSpec.v ===== *)
(** * What the extraction means: execution trees

    A struct-log trace is the pre-order listing of a tree of call frames. This file defines that
    tree, states on it what [Trace.compute_state_updates] should extract (the operations of the root
    frame and of the frames it delegates to, with the gas of each), and proves that the single-pass
    walk over the listing computes exactly that, errors and panics included. *)

From S2P Require Import Prelude.
From S2P Require Import Types.
From S2P Require Import Instances.
From S2P Require Import Trace.

(** ** Execution trees *)

#[local] Set Warnings "-register-all".

(** One executed opcode and the frame it opened (empty when it opened none). *)
Inductive Exec : Type := Step (l : StructLog) (body : list Exec).

Fixpoint flatten (e : Exec) : list StructLog :=
  match e with Step l body => l :: concat (map flatten body) end.

Definition flatten_frame (f : list Exec) : list StructLog := concat (map flatten f).

(** Every log of the frame is at depth [d], those of the frames it opens one deeper. *)
Fixpoint exec_at (d : Z) (e : Exec) : Prop :=
  match e with
  | Step l body => sl_depth l = d ∧ fold_right (λ e P, exec_at (d + 1) e ∧ P) True body
  end.

Definition frame_at (d : Z) (f : list Exec) : Prop :=
  fold_right (λ e P, exec_at d e ∧ P) True f.

Definition exec_log (e : Exec) : StructLog := match e with Step l _ => l end.

(** The log that follows a step: the next one of its frame, or the one its frame returns to. *)
Definition first_log (f : list Exec) (next : option StructLog) : option StructLog :=
  match f with
  | e :: _ => Some (exec_log e)
  | [] => next
  end.

(** ** Reference extraction *)

(** The gas an extracted update accounts for. *)
Inductive Cost : Type :=
  | CLog
  | CStore (gas : Z)
  | CCall (used callee : Z)
  | CCreate (gas : Z).

Abbreviation Effects := (list (StateUpdate * Cost)).

(** The gas figures of a [CALL]: spent until execution resumed at [resume], and the part of it the
    callee's own frame spent. *)
Definition call_cost (l : StructLog) (body : list Exec) (resume : StructLog) : Cost :=
  let used := sat_sub (sl_gas l) (sl_gas resume) in
  CCall used (callee_gas used (sl_gas_cost l) (sl_gas <$> first_log body None)).

(** A create at depth [d] succeeded if execution resumed in its own frame with a nonzero address on
    top of the stack. *)
Definition create_cost (l resume : StructLog) : Result Cost :=
  let deployed := if sl_depth resume =? sl_depth l then sl_stack resume ≫= last else None in
  match deployed with
  | Some address =>
      if address =? 0 then Err (EFailedCreate (sl_depth l))
      else Ok (CCreate (sat_sub (sl_gas l) (sl_gas resume)))
  | None => Err (EFailedCreate (sl_depth l))
  end.

Section reference.
Context `{Externals}.

(** The update one opcode adds, if any. *)
Definition decode_update (l : StructLog) : Result (option StateUpdate) :=
  '(us, _) ← append_state_update_from_struct_log [] l; Ok (head us).

(** What an extracted update costs, given the frame it opened and the log execution resumed at. *)
Definition update_cost (l : StructLog) (body : list Exec) (resume : option StructLog)
  : Result Cost :=
  match opc_of (sl_op l) with
  | OP_SSTORE => Ok (CStore (sl_gas_cost l))
  | OP_CALL =>
      r ← expect resume "Found remaining CALL(s) that didn't exit properly";
      Ok (call_cost l body r)
  | OP_CREATE | OP_CREATE2 =>
      r ← ok_or resume (EFailedCreate (sl_depth l)); create_cost l r
  | _ => Ok CLog
  end.

(** The effects of a step of an emitting frame: those of the frame it delegates to, or its own
    update; frames opened by [CALL], [STATICCALL] and creates contribute nothing. *)
Fixpoint step_effects (e : Exec) (resume : option StructLog) : Result Effects :=
  match e with
  | Step l body =>
      match opc_of (sl_op l) with
      | OP_DELEGATECALL | OP_CALLCODE =>
          (fix frame (f : list Exec) : Result Effects :=
             match f with
             | [] => Ok []
             | e :: f =>
                 es ← step_effects e (first_log f resume); es' ← frame f; Ok (es ++ es')
             end) body
      | _ =>
          if is_state_op (sl_op l) then
            u ← decode_update l;
            match u with
            | None => Ok []
            | Some u => c ← update_cost l body resume; Ok [(u, c)]
            end
          else Ok []
      end
  end.

Fixpoint frame_effects (f : list Exec) (next : option StructLog) : Result Effects :=
  match f with
  | [] => Ok []
  | e :: f =>
      es ← step_effects e (first_log f next); es' ← frame_effects f next; Ok (es ++ es')
  end.

End reference.

Definition cost_call (c : Cost) : Z := match c with CCall used _ => used | _ => 0 end.
Definition cost_callee (c : Cost) : Z := match c with CCall _ callee => callee | _ => 0 end.
Definition cost_create (c : Cost) : Z := match c with CCreate g => g | _ => 0 end.
Definition cost_store (c : Cost) : Z := match c with CStore g => g | _ => 0 end.

(** A call back into the origin from below the root frame. *)
Definition reenters (origin : option Z) (l : StructLog) : bool :=
  (2 <=? sl_depth l) && is_call_family (sl_op l) &&
  match origin, sl_stack l with
  | Some origin, Some stack =>
      match second_from_top stack with
      | Some w => address_from_word w =? origin
      | None => false
      end
  | _, _ => false
  end.

Definition total (f : Cost → Z) (es : Effects) : Z := u64_sum (f <$> es.*2).

(** The extraction a trace of root frame [f] should give. *)
Definition reference_extract `{Externals} (origin : option Z) (f : list Exec)
  : Result TraceExtract :=
  es ← frame_effects f None;
  Ok (mkTraceExtract es.*1 ∅ (total cost_call es) (total cost_callee es)
        (total cost_create es) (total cost_store es)
        (trace_refund_counter (flatten_frame f))
        (existsb (reenters origin) (flatten_frame f))).

(** ** The walk in state-passing form

    Between two logs the walk may hold one update whose cost is not known yet. *)

Inductive Open : Type :=
  | ONone
  | OCall (d : Z) (u : StateUpdate) (gas gas_cost : Z) (entry : option Z)
  | OCreate (d : Z) (u : StateUpdate) (gas : Z).

Definition settle (o : Open) (l : StructLog) (es : Effects) : Result Effects :=
  match o with
  | ONone => Ok es
  | OCall d u gas gas_cost entry =>
      let used := sat_sub gas (sl_gas l) in
      Ok (es ++ [(u, CCall used (callee_gas used gas_cost entry))])
  | OCreate d u gas =>
      match (if sl_depth l =? d then sl_stack l ≫= last else None) with
      | Some address =>
          if address =? 0 then Err (EFailedCreate d)
          else Ok (es ++ [(u, CCreate (sat_sub gas (sl_gas l)))])
      | None => Err (EFailedCreate d)
      end
  end.

Definition settle_end (o : Open) (es : Effects) : Result Effects :=
  match o with
  | ONone => Ok es
  | OCall _ _ _ _ _ => Panic "Found remaining CALL(s) that didn't exit properly"
  | OCreate d _ _ => Err (EFailedCreate d)
  end.

Definition settle_next (o : Open) (next : option StructLog) (es : Effects) : Result Effects :=
  match next with Some l => settle o l es | None => settle_end o es end.

(** What a decoded update leaves: its effect, or an open item. *)
Definition open_update (l : StructLog) (body : list Exec) (u : StateUpdate) (es : Effects)
  : Effects * Open :=
  match opc_of (sl_op l) with
  | OP_SSTORE => (es ++ [(u, CStore (sl_gas_cost l))], ONone)
  | OP_CALL =>
      (es, OCall (sl_depth l) u (sl_gas l) (sl_gas_cost l) (sl_gas <$> first_log body None))
  | OP_CREATE | OP_CREATE2 => (es, OCreate (sl_depth l) u (sl_gas l))
  | _ => (es ++ [(u, CLog)], ONone)
  end.

Section open.
Context `{Externals}.

Fixpoint step_open (e : Exec) (es : Effects) : Result (Effects * Open) :=
  match e with
  | Step l body =>
      match opc_of (sl_op l) with
      | OP_DELEGATECALL | OP_CALLCODE =>
          foldM (λ p e, es ← settle p.2 (exec_log e) p.1; step_open e es) body (es, ONone)
      | _ =>
          if is_state_op (sl_op l) then
            u ← decode_update l;
            match u with
            | None => Ok (es, ONone)
            | Some u => Ok (open_update l body u es)
            end
          else Ok (es, ONone)
      end
  end.

Definition frame_open (f : list Exec) (p : Effects * Open) : Result (Effects * Open) :=
  foldM (λ p e, es ← settle p.2 (exec_log e) p.1; step_open e es) f p.
End open.

(** ** Induction on execution trees *)

Section exec_ind.
Variable P : Exec → Prop.
Hypothesis Hstep : ∀ l body, Forall P body → P (Step l body).

Fixpoint exec_ind' (e : Exec) : P e :=
  match e with
  | Step l body =>
      Hstep l body ((fix go (f : list Exec) : Forall P f :=
        match f with
        | [] => Forall_nil_2 P
        | e :: f => Forall_cons_2 P e f (exec_ind' e) (go f)
        end) body)
  end.
End exec_ind.

Section open_lemmas.
Context `{Externals}.

Lemma step_effects_delegate l body resume :
  opc_of (sl_op l) = OP_DELEGATECALL ∨ opc_of (sl_op l) = OP_CALLCODE →
  step_effects (Step l body) resume = frame_effects body resume.
Proof.
  intros Hop. cbn. assert (Hfix : ∀ f, (fix frame (f : list Exec) : Result Effects :=
    match f with
    | [] => Ok []
    | e :: f => es ← step_effects e (first_log f resume); es' ← frame f; Ok (es ++ es')
    end) f = frame_effects f resume).
  { induction f as [|e f IH]; cbn; [done|]. by rewrite IH. }
  destruct Hop as [->| ->]; apply Hfix.
Qed.

(** Settling an open update gives its cost. *)
Lemma settle_open_update l body u es next :
  (let p := open_update l body u es in settle_next p.2 next p.1) =
  (c ← update_cost l body next; Ok (es ++ [(u, c)])).
Proof.
  unfold open_update, update_cost, call_cost, create_cost.
  destruct (opc_of (sl_op l)); cbn; destruct next as [r|]; cbn; try done;
    destruct (if sl_depth r =? sl_depth l then _ else _) as [a|]; cbn; try done;
    by destruct (a =? 0).
Qed.

Lemma frame_open_effects f :
  Forall (λ e, ∀ es next,
    (p ← step_open e es; settle_next p.2 next p.1) =
    (es' ← step_effects e next; Ok (es ++ es'))) f →
  ∀ es o next,
    (p ← frame_open f (es, o); settle_next p.2 next p.1) =
    (es1 ← settle_next o (first_log f next) es; es2 ← frame_effects f next; Ok (es1 ++ es2)).
Proof.
  induction 1 as [|e f He Hf IH]; intros es o next.
  { cbn. destruct (settle_next o next es); cbn; by rewrite ?app_nil_r. }
  cbn -[step_open step_effects settle_next]. rewrite res_bind_assoc.
  change (settle_next o (Some (exec_log e)) es) with (settle o (exec_log e) es).
  destruct (settle o (exec_log e) es) as [es1| |]; cbn -[step_open step_effects settle_next];
    [|done|done].
  assert (Hg : ∀ m : Result (Effects * Open),
    (m ≫= λ p, frame_open f p ≫= λ p, settle_next p.2 next p.1) =
    ((m ≫= λ p, settle_next p.2 (first_log f next) p.1) ≫= λ es1,
     es2 ← frame_effects f next; Ok (es1 ++ es2))).
  { intros [[es2 o2]| |]; cbn -[settle_next]; [|done|done]. apply IH. }
  unfold frame_open at 1 in Hg. rewrite res_bind_assoc. rewrite Hg, He.
  destruct (step_effects e (first_log f next)); cbn; [|done|done].
  destruct (frame_effects f next); cbn; [|done|done]. by rewrite app_assoc.
Qed.

Lemma step_open_effects e : ∀ es next,
  (p ← step_open e es; settle_next p.2 next p.1) =
  (es' ← step_effects e next; Ok (es ++ es')).
Proof.
  induction e as [l body Hbody] using exec_ind'. intros es next.
  destruct (decide (opc_of (sl_op l) = OP_DELEGATECALL ∨ opc_of (sl_op l) = OP_CALLCODE))
    as [Hd|Hd].
  { rewrite step_effects_delegate by done.
    transitivity (p ← frame_open body (es, ONone); settle_next p.2 next p.1).
    { cbn. by destruct Hd as [->| ->]. }
    rewrite frame_open_effects by done.
    by destruct (first_log body next). }
  assert (settle_next ONone next es = Ok es) as Hnone by by destruct next.
  assert (Hrest : (p ← (if is_state_op (sl_op l) then
       u ← decode_update l;
       match u with None => Ok (es, ONone) | Some u => Ok (open_update l body u es) end
     else Ok (es, ONone)); settle_next p.2 next p.1) =
     (es' ← (if is_state_op (sl_op l) then
       u ← decode_update l;
       match u with None => Ok [] | Some u => c ← update_cost l body next; Ok [(u, c)] end
     else Ok []); Ok (es ++ es'))).
  { destruct (is_state_op (sl_op l)); [|cbn -[settle_next]; by rewrite Hnone, app_nil_r].
    destruct (decode_update l) as [[u|]| |]; cbn -[settle_next open_update update_cost];
      [|by rewrite Hnone, app_nil_r|done|done].
    pose proof (settle_open_update l body u es next) as Hu. cbn zeta in Hu. rewrite Hu.
    by destruct (update_cost l body next). }
  cbn -[open_update update_cost settle_next].
  destruct (opc_of (sl_op l)); try exact Hrest; exfalso; auto.
Qed.
End open_lemmas.

(** ** The walk's state at an open item *)

Definition open_updates (o : Open) : list StateUpdate :=
  match o with ONone => [] | OCall _ u _ _ _ | OCreate _ u _ => [u] end.
Definition open_stack (o : Open) (n : nat) : list (Z * nat) :=
  match o with OCall d _ _ _ _ => [(d, S n)] | _ => [] end.
Definition open_tracking (o : Open) (n : nat) : gmap nat CallGas :=
  match o with OCall _ _ g c e => {[ S n := mkCallGas g c e ]} | _ => ∅ end.
Definition open_pending (o : Open) : option (Z * Z) :=
  match o with OCreate d _ g => Some (d, g) | _ => None end.

Definition state_of (es : Effects) (o : Open) (td : Z) (re : bool) (ct : gmap Z string)
  (aw : option (Z * nat)) : TraceState :=
  mkTS (es.*1 ++ open_updates o) td ∅ (open_stack o (length es)) ct (open_tracking o (length es))
    aw (open_pending o) (total cost_call es) (total cost_callee es) (total cost_create es)
    (total cost_store es) re.

(** The callee of an open [CALL] is awaited until its first step is seen. *)
Definition awaiting_ok (o : Open) (n : nat) (aw : option (Z * nat)) : Prop :=
  match o with
  | OCall d _ _ _ None => aw = Some (d, S n)
  | OCall _ _ _ _ (Some _) => aw = None
  | _ => True
  end.

Definition target_ok (o : Open) (td : Z) : Prop :=
  match o with OCall d _ _ _ _ => d < td | OCreate d _ _ => td = d | ONone => True end.

(** The item was opened at depth [d] or deeper. *)
Definition open_ge (d : Z) (o : Open) : Prop :=
  match o with OCall d' _ _ _ _ | OCreate d' _ _ => d <= d' | ONone => True end.

Lemma total_snoc f es u c : total f (es ++ [(u, c)]) = u64_add (total f es) (f c).
Proof. unfold total. rewrite !fmap_app. apply u64_sum_snoc. Qed.

Lemma total_add_0 f es : u64_add (total f es) 0 = total f es.
Proof. apply u64_add_0_r, u64_sum_range. Qed.

Lemma state_of_snoc es u c td re ct aw :
  state_of (es ++ [(u, c)]) ONone td re ct aw =
  mkTS (es.*1 ++ [u]) td ∅ [] ct ∅ aw None
    (u64_add (total cost_call es) (cost_call c)) (u64_add (total cost_callee es) (cost_callee c))
    (u64_add (total cost_create es) (cost_create c)) (u64_add (total cost_store es) (cost_store c))
    re.
Proof. unfold state_of. by rewrite !total_snoc, fmap_app, app_nil_r. Qed.

Section walk.
Context `{Externals} (origin : option Z).

Lemma detect_reentry_eq ups td sk cs ct tr aw pe cg ce cr ss re l :
  detect_reentry origin (mkTS ups td sk cs ct tr aw pe cg ce cr ss re) l =
  mkTS ups td sk cs ct tr aw pe cg ce cr ss (re || reenters origin l).
Proof. cbn. f_equal. unfold reenters. by destruct re. Qed.

Lemma alter_empty_tracking f (i : nat) : alter f i (∅ : gmap nat CallGas) = ∅.
Proof. apply map_eq. intros j. rewrite lookup_alter, lookup_empty. by case_decide. Qed.

Lemma take_awaiting_empty ups td sk cs ct aw pe cg ce cr ss re l :
  take_awaiting_entry (mkTS ups td sk cs ct ∅ aw pe cg ce cr ss re) l =
  mkTS ups td sk cs ct ∅ None pe cg ce cr ss re.
Proof.
  cbn. f_equal. destruct aw as [[? ?]|]; [|done].
  case_match; [apply alter_empty_tracking|done].
Qed.

Lemma leave_frames_nil ups td sk ct tr aw pe cg ce cr ss re l :
  sl_depth l <= td →
  ∃ ct', leave_frames (mkTS ups td sk [] ct tr aw pe cg ce cr ss re) l =
    mkTS ups (sl_depth l) sk [] ct' tr aw pe cg ce cr ss re.
Proof.
  intros Hd. cbn. destruct (Z.ltb_spec (sl_depth l) td); eauto.
  exists ct. f_equal; lia.
Qed.

(** A log at or above the open item's depth settles it before its own opcode is looked at. *)
Lemma settle_walk es o td re ct aw l :
  sl_depth l <= td → open_ge (sl_depth l) o → target_ok o td → awaiting_ok o (length es) aw →
  ∃ ct', trace_step origin (state_of es o td re ct aw) l =
    (es' ← settle o l es;
     extract_op (state_of es' ONone (sl_depth l) (re || reenters origin l) ct' None) l).
Proof.
  intros Htd Hge Hok Haw. unfold trace_step. unfold state_of at 1.
  destruct o as [|d u g c e|d u g]; cbn in Hge, Hok, Haw.
  - cbn [open_updates open_stack open_tracking open_pending]. rewrite take_awaiting_empty.
    cbn [close_pending_create mbind res_bind settle]. rewrite detect_reentry_eq.
    edestruct leave_frames_nil as [ct' ->]; [exact Htd|]. by exists ct'.
  - cbn [take_awaiting_entry open_pending close_pending_create].
    assert (Htr : match aw with
      | Some (call_depth, idx) =>
          if sl_depth l =? call_depth + 1 then
            alter (λ call, mkCallGas (cg_gas call) (cg_gas_cost call) (Some (sl_gas l))) idx
              (open_tracking (OCall d u g c e) (length es))
          else open_tracking (OCall d u g c e) (length es)
      | None => open_tracking (OCall d u g c e) (length es)
      end = open_tracking (OCall d u g c e) (length es)).
    { destruct e as [e|]; subst aw; [done|]. rewrite (proj2 (Z.eqb_neq _ _)) by lia. done. }
    rewrite Htr. cbn [mbind res_bind open_updates settle]. rewrite detect_reentry_eq.
    cbn [open_stack open_tracking leave_frames]. rewrite (proj2 (Z.ltb_lt _ _)) by lia.
    cbn [pop_calls]. rewrite (proj2 (Z.leb_le _ _)) by lia.
    rewrite lookup_singleton_eq, delete_singleton_eq. eexists. cbn [cg_gas cg_gas_cost cg_entry_gas].
    cbn [mbind res_bind]. by rewrite state_of_snoc; cbn [cost_call cost_callee cost_create cost_store];
      rewrite !total_add_0.
  - cbn [open_updates open_stack open_tracking open_pending]. rewrite take_awaiting_empty.
    cbn [close_pending_create].
    rewrite (proj2 (Z.leb_le (sl_depth l) d)) by lia.
    unfold settle. destruct (if sl_depth l =? d then _ else _) as [a|]; [|by exists ct].
    destruct (a =? 0); [by exists ct|].
    cbn [mbind res_bind]. rewrite detect_reentry_eq.
    edestruct leave_frames_nil as [ct' ->]; [exact Htd|]. exists ct'.
    cbn [mbind res_bind]. by rewrite state_of_snoc; cbn [cost_call cost_callee cost_create cost_store];
      rewrite !total_add_0.
Qed.
End walk.

Section walk_ops.
Context `{Externals}.

Lemma extract_delegate es re ct l :
  opc_of (sl_op l) = OP_DELEGATECALL ∨ opc_of (sl_op l) = OP_CALLCODE →
  ∃ ct', extract_op (state_of es ONone (sl_depth l) re ct None) l =
    Ok (state_of es ONone (sl_depth l + 1) re ct' None).
Proof.
  intros Hop. unfold state_of. cbn -[opc_of]. rewrite Z.eqb_refl. cbn -[opc_of].
  destruct Hop as [->| ->]; by eexists.
Qed.

(** The target depth after an update: one deeper inside an open [CALL]. *)
Definition target_after (o : Open) (d : Z) : Z :=
  match o with OCall _ _ _ _ _ => d + 1 | _ => d end.

Definition awaiting_after (o : Open) (n : nat) : option (Z * nat) :=
  match o with OCall d _ _ _ _ => Some (d, S n) | _ => None end.

Lemma record_update_open es re ct l u :
  let p := open_update l [] u es in
  record_update (mkTS (es.*1 ++ [u]) (sl_depth l) ∅ [] ct ∅ None None
    (total cost_call es) (total cost_callee es) (total cost_create es) (total cost_store es) re) l =
  state_of p.1 p.2 (target_after p.2 (sl_depth l)) re ct (awaiting_after p.2 (length es)).
Proof.
  unfold open_update, record_update.
  assert (length (es.*1 ++ [u]) = S (length es)) as Hlen
    by (rewrite length_app, length_fmap; cbn; lia).
  destruct (opc_of (sl_op l)); cbn [fst snd target_after awaiting_after]; try
    (rewrite state_of_snoc; cbn [cost_call cost_callee cost_create cost_store];
     by rewrite !total_add_0).
  all: unfold state_of; cbn [length open_updates open_stack open_tracking open_pending].
  all: by rewrite ?Hlen.
Qed.

Lemma extract_state_op es re ct l :
  opc_of (sl_op l) ≠ OP_DELEGATECALL → opc_of (sl_op l) ≠ OP_CALLCODE →
  is_state_op (sl_op l) = true →
  extract_op (state_of es ONone (sl_depth l) re ct None) l =
  (u ← decode_update l;
   match u with
   | None => Ok (state_of es ONone (sl_depth l) re ct None)
   | Some u =>
       let p := open_update l [] u es in
       Ok (state_of p.1 p.2 (target_after p.2 (sl_depth l)) re ct
             (awaiting_after p.2 (length es)))
   end).
Proof.
  intros Hd Hc Hop. unfold extract_op, state_of at 1. rewrite Z.eqb_refl. cbn [negb].
  assert (∀ A (x y : A), match opc_of (sl_op l) with
    | OP_DELEGATECALL | OP_CALLCODE => x | _ => y end = y) as Hm
    by (intros; by destruct (opc_of (sl_op l))).
  rewrite Hm, Hop. cbn [open_stack].
  rewrite append_app. unfold decode_update.
  destruct (append_state_update_from_struct_log [] l) as [p| |] eqn:Hp; cbn [mbind res_bind];
    [|done|done].
  apply append_state_op in Hp as [->|[u ->]]; [| |done]; cbn [head fst snd open_updates].
  - unfold state_of; cbn [open_updates]. by rewrite !app_nil_r, Nat.ltb_irrefl.
  - rewrite !app_nil_r. rewrite (proj2 (Nat.ltb_lt _ _)) by (rewrite length_app; cbn; lia).
    cbn [mbind res_bind]. f_equal. apply record_update_open.
Qed.
End walk_ops.

Section deep.
Context `{Externals} (origin : option Z).

(** Logs deeper than the target depth leave no trace but re-entry. *)
Lemma deep_step es o td re ct aw l :
  match o with OCall _ _ _ _ _ => False | _ => True end → target_ok o td → td < sl_depth l →
  trace_step origin (state_of es o td re ct aw) l =
  Ok (state_of es o td (re || reenters origin l) ct None).
Proof.
  intros Ho Hok Hd. unfold trace_step. unfold state_of at 1.
  destruct o as [|d u g c e|d u g]; [|done|]; cbn in Hok;
    cbn [open_updates open_stack open_tracking open_pending]; rewrite take_awaiting_empty;
    cbn [close_pending_create]; rewrite ?(proj2 (Z.leb_gt (sl_depth l) d)) by lia;
    cbn [mbind res_bind]; rewrite detect_reentry_eq; cbn [leave_frames];
    rewrite (proj2 (Z.ltb_ge _ _)) by lia; unfold extract_op;
    rewrite (proj2 (Z.eqb_neq _ _)) by lia; done.
Qed.

Lemma deep_walk es o td logs : ∀ re ct aw,
  match o with OCall _ _ _ _ _ => False | _ => True end → target_ok o td →
  Forall (λ l, td < sl_depth l) logs →
  ∃ aw', foldM (trace_step origin) logs (state_of es o td re ct aw) =
    Ok (state_of es o td (re || existsb (reenters origin) logs) ct aw').
Proof.
  induction logs as [|l logs IH]; intros re ct aw Ho Hok Hd;
    cbn [foldM existsb].
  { exists aw. by rewrite orb_false_r. }
  apply Forall_cons in Hd as [Hl Hd]. rewrite deep_step by done. cbn [mbind res_bind].
  destruct (IH (re || reenters origin l) ct None Ho Hok Hd) as [aw' ->].
  exists aw'. by rewrite orb_assoc.
Qed.

(** Inside an extracted [CALL] nothing is extracted; its callee's first step is noted. *)
Lemma inside_step es d u g c e td re ct aw l :
  d < td → d < sl_depth l → awaiting_ok (OCall d u g c e) (length es) aw →
  (e = None → sl_depth l = d + 1) →
  ∃ td' ct', d < td' ∧
    trace_step origin (state_of es (OCall d u g c e) td re ct aw) l =
    Ok (state_of es (OCall d u g c (Some (default (sl_gas l) e))) td' (re || reenters origin l)
          ct' None).
Proof.
  intros Htd Hd Haw He. unfold trace_step. unfold state_of at 1.
  cbn [open_updates open_stack open_tracking open_pending take_awaiting_entry].
  replace (match aw with
    | Some (call_depth, idx) =>
        if sl_depth l =? call_depth + 1 then
          alter (λ call, mkCallGas (cg_gas call) (cg_gas_cost call) (Some (sl_gas l))) idx
            {[S (length es) := mkCallGas g c e]}
        else {[S (length es) := mkCallGas g c e]}
    | None => {[S (length es) := mkCallGas g c e]}
    end) with ({[S (length es) := mkCallGas g c (Some (default (sl_gas l) e))]} : gmap nat CallGas).
  2:{ destruct e as [e|]; cbn in Haw; subst aw; [done|].
      rewrite He, Z.eqb_refl by done. by rewrite alter_singleton_eq. }
  cbn [close_pending_create mbind res_bind]. rewrite detect_reentry_eq. cbn [leave_frames].
  assert (∀ td ct, extract_op (mkTS (es.*1 ++ [u]) td ∅ [(d, S (length es))] ct
      {[S (length es) := mkCallGas g c (Some (default (sl_gas l) e))]} None None
      (total cost_call es) (total cost_callee es) (total cost_create es) (total cost_store es)
      (re || reenters origin l)) l = Ok (state_of es (OCall d u g c (Some (default (sl_gas l) e)))
      (if sl_depth l =? td then match opc_of (sl_op l) with
        | OP_DELEGATECALL | OP_CALLCODE => sl_depth l + 1 | _ => td end else td)
      (re || reenters origin l)
      (if sl_depth l =? td then match opc_of (sl_op l) with
        | OP_DELEGATECALL | OP_CALLCODE => <[sl_depth l + 1 := "DELEGATECALL"%string]> ct
        | _ => ct end else ct) None)) as Hx.
  { intros td0 ct0. unfold extract_op. destruct (sl_depth l =? td0); cbn [negb]; [|done].
    destruct (opc_of (sl_op l)); try done; by destruct (is_state_op (sl_op l)). }
  destruct (Z.ltb_spec (sl_depth l) td).
  - cbn [pop_calls]. rewrite (proj2 (Z.leb_gt _ _)) by lia. rewrite Hx. do 2 eexists.
    split; [|reflexivity]. destruct (_ =? _), (opc_of (sl_op l)); lia.
  - rewrite Hx. do 2 eexists.
    split; [|reflexivity]. destruct (_ =? _), (opc_of (sl_op l)); lia.
Qed.

Lemma inside_walk es d u g c logs : ∀ e td re ct aw,
  d < td → Forall (λ l, d < sl_depth l) logs → awaiting_ok (OCall d u g c e) (length es) aw →
  (e = None → ∀ l, head logs = Some l → sl_depth l = d + 1) →
  ∃ td' ct' aw' e',
    e' = (match e with Some e => Some e | None => sl_gas <$> head logs end) ∧
    d < td' ∧ awaiting_ok (OCall d u g c e') (length es) aw' ∧
    foldM (trace_step origin) logs (state_of es (OCall d u g c e) td re ct aw) =
    Ok (state_of es (OCall d u g c e') td' (re || existsb (reenters origin) logs) ct' aw').
Proof.
  induction logs as [|l logs IH]; intros e td re ct aw Htd Hd Haw He;
    cbn [foldM existsb head].
  { exists td, ct, aw, e. rewrite orb_false_r. by destruct e. }
  apply Forall_cons in Hd as [Hl Hd].
  destruct (inside_step es d u g c e td re ct aw l Htd Hl Haw) as (td1 & ct1 & Htd1 & ->).
  { intros ->. by apply (He eq_refl). }
  cbn [mbind res_bind].
  destruct (IH (Some (default (sl_gas l) e)) td1 (re || reenters origin l) ct1 None Htd1 Hd)
    as (td2 & ct2 & aw2 & e2 & -> & Htd2 & Haw2 & ->); [done|done|].
  exists td2, ct2, aw2. eexists. split; [reflexivity|].
  rewrite orb_assoc. by destruct e.
Qed.
End deep.

(** ** Depths in a well-formed tree *)

Lemma frame_at_cons d e f : frame_at d (e :: f) ↔ exec_at d e ∧ frame_at d f.
Proof. done. Qed.

Lemma exec_at_step d l body : exec_at d (Step l body) ↔ sl_depth l = d ∧ frame_at (d + 1) body.
Proof. done. Qed.

Lemma flatten_step l body : flatten (Step l body) = l :: flatten_frame body.
Proof. done. Qed.

Lemma frame_depths_of d f :
  Forall (λ e, ∀ d, exec_at d e → Forall (λ l, d <= sl_depth l) (flatten e)) f →
  frame_at d f → Forall (λ l, d <= sl_depth l) (flatten_frame f).
Proof.
  induction 1 as [|e f He Hf IH]; intros Hat; [constructor|].
  apply frame_at_cons in Hat as [Hat1 Hat2].
  unfold flatten_frame; cbn. apply Forall_app; split; [by apply He|by apply IH].
Qed.

Lemma exec_depths e : ∀ d, exec_at d e → Forall (λ l, d <= sl_depth l) (flatten e).
Proof.
  induction e as [l body Hbody] using exec_ind'. intros d Hat.
  apply exec_at_step in Hat as [Hl Hat]. rewrite flatten_step. constructor; [lia|].
  eapply Forall_impl; [by apply (frame_depths_of (d + 1))|]. cbn; lia.
Qed.

Lemma frame_depths d f : frame_at d f → Forall (λ l, d <= sl_depth l) (flatten_frame f).
Proof. apply frame_depths_of, Forall_forall. intros e _. apply exec_depths. Qed.

Lemma body_deeper d body :
  frame_at (d + 1) body → Forall (λ l, d < sl_depth l) (flatten_frame body).
Proof. intros Hat. eapply Forall_impl; [by apply frame_depths|]. cbn; lia. Qed.

Lemma head_flatten_frame f : head (flatten_frame f) = first_log f None.
Proof. by destruct f as [|[l body] f]. Qed.

Lemma first_log_depth d f l : frame_at d f → first_log f None = Some l → sl_depth l = d.
Proof. destruct f as [|[l' body] f]; cbn; [done|]. intros [[? _] _]; congruence. Qed.

(** ** The walk computes the state-passing form *)

Definition walks (d : Z) (m : Result (Effects * Open)) (re : bool) (r : Result TraceState) : Prop :=
  match m with
  | Ok (es, o) => ∃ td ct aw,
      r = Ok (state_of es o td re ct aw) ∧ d <= td ∧ open_ge d o ∧ target_ok o td ∧
      awaiting_ok o (length es) aw
  | Err x => r = Err x
  | Panic w => r = Panic w
  end.

Lemma open_ge_mono d d' o : d <= d' → open_ge d' o → open_ge d o.
Proof. destruct o; cbn; lia. Qed.

Lemma walks_mono d d' m re r : d <= d' → walks d' m re r → walks d m re r.
Proof.
  intros Hd. destruct m as [[es o]| |]; cbn; [|done|done].
  intros (td & ct & aw & ? & ? & Ho & ? & ?). exists td, ct, aw.
  split_and!; [done|lia|by eapply open_ge_mono|done..].
Qed.

Section simulation.
Context `{Externals} (origin : option Z).

Definition walk_exec_ok (e : Exec) : Prop := ∀ d es o td re ct aw,
  exec_at d e → d <= td → open_ge d o → target_ok o td → awaiting_ok o (length es) aw →
  walks d (es' ← settle o (exec_log e) es; step_open e es')
    (re || existsb (reenters origin) (flatten e))
    (foldM (trace_step origin) (flatten e) (state_of es o td re ct aw)).

Lemma walk_frame_of f :
  Forall walk_exec_ok f → ∀ d es o td re ct aw,
  frame_at d f → d <= td → open_ge d o → target_ok o td → awaiting_ok o (length es) aw →
  walks d (frame_open f (es, o)) (re || existsb (reenters origin) (flatten_frame f))
    (foldM (trace_step origin) (flatten_frame f) (state_of es o td re ct aw)).
Proof.
  induction 1 as [|e f He Hf IH]; intros d es o td re ct aw Hat Htd Hge Hok Haw.
  { cbn. exists td, ct, aw. rewrite orb_false_r. done. }
  apply frame_at_cons in Hat as [Hat1 Hat2].
  specialize (He d es o td re ct aw Hat1 Htd Hge Hok Haw).
  change (flatten_frame (e :: f)) with (flatten e ++ flatten_frame f).
  rewrite foldM_app, existsb_app, orb_assoc.
  change (frame_open (e :: f) (es, o)) with
    ((es' ← settle o (exec_log e) es; step_open e es') ≫= λ p, frame_open f p).
  destruct (es' ← settle o (exec_log e) es; step_open e es') as [[es1 o1]| |];
    cbn [walks] in He; [|by rewrite He..].
  destruct He as (td1 & ct1 & aw1 & -> & Htd1 & Hge1 & Hok1 & Haw1).
  cbn [mbind res_bind]. by apply IH.
Qed.

Lemma extract_other es re ct l :
  opc_of (sl_op l) ≠ OP_DELEGATECALL → opc_of (sl_op l) ≠ OP_CALLCODE →
  is_state_op (sl_op l) = false →
  extract_op (state_of es ONone (sl_depth l) re ct None) l =
  Ok (state_of es ONone (sl_depth l) re ct None).
Proof.
  intros Hd Hc Hop. unfold extract_op, state_of at 1. rewrite Z.eqb_refl. cbn [negb].
  rewrite Hop. by destruct (opc_of (sl_op l)).
Qed.

(** Walking the frame an ordinary step opened, after the step itself. *)
Lemma walk_body es o d re ct aw body :
  match o with OCall _ _ _ _ _ => False | _ => True end → target_ok o d → open_ge d o →
  frame_at (d + 1) body →
  walks d (Ok (es, o)) (re || existsb (reenters origin) (flatten_frame body))
    (foldM (trace_step origin) (flatten_frame body) (state_of es o d re ct aw)).
Proof.
  intros Ho Hok Hge Hat.
  destruct (deep_walk origin es o d (flatten_frame body) re ct aw Ho Hok) as [aw' ->].
  { by apply body_deeper. }
  exists d, ct, aw'. split_and!; [done|lia|done|done|]. by destruct o.
Qed.

Lemma walk_update es re ct l body u :
  frame_at (sl_depth l + 1) body →
  let p := open_update l [] u es in
  walks (sl_depth l) (Ok (open_update l body u es))
    (re || existsb (reenters origin) (flatten_frame body))
    (foldM (trace_step origin) (flatten_frame body)
       (state_of p.1 p.2 (target_after p.2 (sl_depth l)) re ct (awaiting_after p.2 (length es)))).
Proof.
  intros Hat p. subst p. unfold open_update.
  destruct (opc_of (sl_op l)); cbn [fst snd target_after awaiting_after];
    try (apply walk_body; cbn; (done || lia)).
  cbn [first_log fmap option_fmap option_map].
  edestruct (inside_walk origin es (sl_depth l) u (sl_gas l) (sl_gas_cost l)
    (flatten_frame body) None) as (td' & ct' & aw' & e' & He' & Htd' & Haw' & ->);
    [| |reflexivity| |].
  - lia.
  - by apply body_deeper.
  - intros _ l' Hl'. rewrite head_flatten_frame in Hl'. by eapply first_log_depth.
  - rewrite head_flatten_frame in He'. subst e'.
    exists td', ct', aw'. split_and!; [done|lia|cbn; lia|done|done].
Qed.

Lemma walk_exec e : walk_exec_ok e.
Proof.
  induction e as [l body Hbody] using exec_ind'.
  intros d es o td re ct aw Hat Htd Hge Hok Haw.
  apply exec_at_step in Hat as [Hl Hat]. subst d.
  rewrite flatten_step. cbn [foldM existsb exec_log]. rewrite orb_assoc.
  destruct (settle_walk origin es o td re ct aw l Htd Hge Hok Haw) as [ct' ->].
  destruct (settle o l es) as [es'| |]; cbn [mbind res_bind]; [|done|done].
  set (re' := re || reenters origin l).
  destruct (decide (opc_of (sl_op l) = OP_DELEGATECALL ∨ opc_of (sl_op l) = OP_CALLCODE))
    as [Hd|Hd].
  { destruct (extract_delegate es' re' ct' l Hd) as [ct1 ->]. cbn [mbind res_bind].
    apply (walks_mono _ (sl_depth l + 1)); [lia|].
    replace (step_open (Step l body) es') with (frame_open body (es', ONone))
      by (cbn; by destruct Hd as [->| ->]).
    apply walk_frame_of; [done|done|lia|done..]. }
  assert (opc_of (sl_op l) ≠ OP_DELEGATECALL ∧ opc_of (sl_op l) ≠ OP_CALLCODE) as [Hd1 Hd2]
    by (split; intros ?; apply Hd; auto).
  replace (step_open (Step l body) es') with
    (if is_state_op (sl_op l) then u ← decode_update l;
       match u with None => Ok (es', ONone) | Some u => Ok (open_update l body u es') end
     else Ok (es', ONone)) by (cbn -[open_update]; by destruct (opc_of (sl_op l))).
  destruct (is_state_op (sl_op l)) eqn:Hop.
  - rewrite extract_state_op by done.
    destruct (decode_update l) as [[u|]| |]; cbn [mbind res_bind]; [| |done|done].
    + by apply walk_update.
    + by apply walk_body.
  - rewrite extract_other by done. cbn [mbind res_bind]. by apply walk_body.
Qed.

Lemma walk_frame f d es o td re ct aw :
  frame_at d f → d <= td → open_ge d o → target_ok o td → awaiting_ok o (length es) aw →
  walks d (frame_open f (es, o)) (re || existsb (reenters origin) (flatten_frame f))
    (foldM (trace_step origin) (flatten_frame f) (state_of es o td re ct aw)).
Proof. apply walk_frame_of, Forall_forall. intros e _. apply walk_exec. Qed.
End simulation.

(** ** Properties *)

Lemma frame_open_settle `{Externals} f :
  (p ← frame_open f ([], ONone); settle_end p.2 p.1) = frame_effects f None.
Proof.
  transitivity (p ← frame_open f ([], ONone); settle_next p.2 None p.1); [done|].
  rewrite frame_open_effects by (apply Forall_forall; intros; apply step_open_effects).
  destruct (first_log f None); cbn; by destruct (frame_effects f None).
Qed.

(** C1: on the listing of any execution tree, [compute_state_updates] extracts exactly what the
    reference semantics reads off the tree: the state operations of the root frame and of the frames
    it delegates to, in order, with the gas of every extracted call, create and store, and re-entry;
    an emitted create that failed is the same error, and a [CALL] that never resumed the same
    panic. *)
Theorem compute_state_updates_tree `{Externals} origin f failed gas ret :
  frame_at 1 f →
  compute_state_updates (mkDefaultFrame failed gas ret (flatten_frame f)) origin =
  reference_extract origin f.
Proof.
  intros Hat. unfold compute_state_updates, reference_extract; cbn [df_struct_logs].
  pose proof (walk_frame origin f 1 [] ONone 1 false ∅ None Hat) as Hwalk.
  specialize (Hwalk ltac:(lia) I I I).
  change (state_of [] ONone 1 false ∅ None) with initial_trace_state in Hwalk.
  rewrite <-frame_open_settle.
  destruct (frame_open f ([], ONone)) as [[es o]| |]; cbn [walks] in Hwalk.
  2-3: by rewrite Hwalk.
  destruct Hwalk as (td & ct & aw & -> & _). cbn [mbind res_bind fst snd].
  unfold finish_trace, state_of. destruct o; cbn [ts_pending ts_tracking open_pending
    open_tracking settle_end mbind res_bind open_updates]; [|by rewrite decide_False|done].
  rewrite decide_True by done. by rewrite app_nil_r.
Qed.

(** A trace with a store, a delegated log and a call, whose frames nest two deep. *)
Definition sample_log (d : Z) (op : string) (gas : Z) (stack : list Z) : StructLog :=
  mkStructLog d op gas 5 (Some stack) (Some ["00ff"%string]) None None.

Definition sample_tree : list Exec := [
  Step (sample_log 1 "SSTORE" 100 [7; 1]) [];
  Step (sample_log 1 "DELEGATECALL" 95 [0; 0; 0; 0; 9; 3])
    [Step (sample_log 2 "LOG0" 90 [1; 1]) []; Step (sample_log 2 "STOP" 85 []) []];
  Step (sample_log 1 "CALL" 80 [0; 0; 2; 0; 5; 77; 3])
    [Step (sample_log 2 "SSTORE" 50 [1; 2]) []; Step (sample_log 2 "STOP" 40 []) []];
  Step (sample_log 1 "STOP" 30 []) []].

Lemma compute_state_updates_tree_witness :
  frame_at 1 sample_tree ∧
  compute_state_updates (mkDefaultFrame false 0 [] (flatten_frame sample_tree)) (Some 77) =
  reference_extract (Some 77) sample_tree.
Proof. split; [cbn; tauto|]. apply compute_state_updates_tree. cbn. tauto. Defined.
