(* ===== verification/Heuristic.v ===== *)
(** * The heuristic estimator

    [crates/core/src/heuristic.rs]: gas of a state-update program and of a trace, priced from the
    trace's own measurements. [extract_operation_counts_from_trace] is a fold of one step over the
    logs; its meaning on execution trees is in [HeuristicSpec]. *)

From S2P Require Import Prelude.
From S2P Require Import Types.
From S2P Require Import Instances.
From S2P Require Import Encoding.
From S2P Require Import Trace.

(** ** Constants *)

Definition BASE_TX_COST : Z := 21000.
Definition MAX_REFUND_QUOTIENT : Z := 5.
Definition CALLDATA_ZERO_BYTE_COST : Z := 4.
Definition CALLDATA_NONZERO_BYTE_COST : Z := 16.
Definition LOG_BASE_COST : Z := 375.
Definition LOG_TOPIC_COST : Z := 375.
Definition LOG_DATA_COST_PER_BYTE : Z := 8.

(** [log_counts: [u64; 5]] as a list of five. *)
Record TraceOperations := mkTraceOperations {
  to_sstore_gas_total : Z;
  to_log_counts : list Z;
  to_external_call_gas : Z;
  to_refund_counter : Z
}.

(** ** Estimates *)

Definition calldata_byte_cost (b : Z) : Z :=
  if b =? 0 then CALLDATA_ZERO_BYTE_COST else CALLDATA_NONZERO_BYTE_COST.

Definition calldata_gas (data : list Z) : Z := u64_sum (calldata_byte_cost <$> data).

(** The subtraction cannot wrap: the subtrahend is at most a fifth of [gross]. *)
Definition apply_refund (gross refund_counter : Z) : Z :=
  gross - Z.min refund_counter (gross / MAX_REFUND_QUOTIENT).

Definition log_gas (topics : Z) (data : list Z) : Z :=
  u64_add (LOG_BASE_COST + LOG_TOPIC_COST * topics) (u64_mul (zlen data) LOG_DATA_COST_PER_BYTE).

(** The [match] of the loop of [estimate_gas_from_state_updates]. *)
Definition update_gas (update : StateUpdate) : Z :=
  match update with
  | UStore _ => 0
  | UCall _ => 0
  | UNested _ => 0
  | ULog0 log => log_gas 0 (log0_data log)
  | ULog1 log => log_gas 1 (log1_data log)
  | ULog2 log => log_gas 2 (log2_data log)
  | ULog3 log => log_gas 3 (log3_data log)
  | ULog4 log => log_gas 4 (log4_data log)
  | UCreate _ | UCreate2 _ => 0
  end.

Definition estimate_gas_from_state_updates `{Externals} (extract : TraceExtract) : Z :=
  let gas := BASE_TX_COST in
  let gas := u64_add gas (calldata_gas (encode_state_updates_to_abi (te_state_updates extract))) in
  let gas := u64_add gas (te_call_gas_total extract) in
  let gas := u64_add gas (te_create_gas_total extract) in
  let gas := u64_add gas (te_sstore_gas_total extract) in
  let gas := fold_left (λ gas update, u64_add gas (update_gas update))
    (te_state_updates extract) gas in
  apply_refund gas (te_refund_counter extract).

Definition log_count (ops : TraceOperations) (i : nat) : Z := default 0 (to_log_counts ops !! i).

Definition estimate_gas_from_operations (operations : TraceOperations) : Z :=
  let gas := BASE_TX_COST in
  let gas := u64_add gas (to_sstore_gas_total operations) in
  let gas := u64_add gas (u64_mul (log_count operations 0) LOG_BASE_COST) in
  let gas := u64_add gas (u64_mul (log_count operations 1) (LOG_BASE_COST + LOG_TOPIC_COST)) in
  let gas := u64_add gas (u64_mul (log_count operations 2) (LOG_BASE_COST + LOG_TOPIC_COST * 2)) in
  let gas := u64_add gas (u64_mul (log_count operations 3) (LOG_BASE_COST + LOG_TOPIC_COST * 3)) in
  let gas := u64_add gas (u64_mul (log_count operations 4) (LOG_BASE_COST + LOG_TOPIC_COST * 4)) in
  let gas := u64_add gas (to_external_call_gas operations) in
  apply_refund gas (to_refund_counter operations).

(** ** Counting operations in a trace *)

(** The call types the walk records. *)
Inductive CallType : Type := TCall | TDelegateCall.

#[export] Instance CallType_eq_dec : EqDecision CallType.
Proof. solve_decision. Defined.

(** The mutable locals. [call_type_at_depth] only ever holds the key 2. *)
Record CountState := mkCS {
  cs_operations : TraceOperations;
  cs_gas_after_call_opcode : option Z;
  cs_previous_depth : Z;
  cs_in_external_call : bool;
  cs_call_type_at_2 : option CallType;
  cs_current_call_type : option CallType
}.

Definition add_external (ops : TraceOperations) (g : Z) : TraceOperations :=
  mkTraceOperations (to_sstore_gas_total ops) (to_log_counts ops)
    (u64_add (to_external_call_gas ops) g) (to_refund_counter ops).

Definition add_sstore (ops : TraceOperations) (g : Z) : TraceOperations :=
  mkTraceOperations (u64_add (to_sstore_gas_total ops) g) (to_log_counts ops)
    (to_external_call_gas ops) (to_refund_counter ops).

Definition add_log (ops : TraceOperations) (i : nat) : TraceOperations :=
  mkTraceOperations (to_sstore_gas_total ops) (alter (λ n, u64_add n 1) i (to_log_counts ops))
    (to_external_call_gas ops) (to_refund_counter ops).

(** The gas of the external call being left, when the walk measures it. *)
Definition close_external (ops : TraceOperations) (gas_after : option Z) (ct : option CallType)
  (gas : Z) : TraceOperations :=
  match gas_after with
  | Some gas_after_opcode =>
      if decide (ct = Some TCall ∨ ct = Some TDelegateCall)
      then add_external ops (sat_sub gas_after_opcode gas)
      else ops
  | None => ops
  end.

(** Entering and leaving depth 2. *)
Definition track_depth (s : CountState) (l : StructLog) : CountState :=
  let 'mkCS ops ga pd inx ct cur := s in
  if (sl_depth l =? 1) && (pd =? 2) then
    if inx then mkCS (close_external ops ga ct (sl_gas l)) None pd false None None else s
  else if (sl_depth l =? 2) && (pd =? 1) then
    mkCS ops ga pd true (match cur with Some c => Some c | None => ct end) cur
  else s.

(** The call opcodes at depth 1, and the [CALL]s at depth 2 of a delegated frame. *)
Definition track_calls (s : CountState) (l : StructLog) : CountState :=
  let 'mkCS ops ga pd inx ct cur := s in
  match opc_of (sl_op l) with
  | OP_CALL =>
      if sl_depth l =? 1 then mkCS ops (Some (sl_gas l)) pd inx ct (Some TCall)
      else if (sl_depth l =? 2) && bool_decide (ct = Some TDelegateCall)
      then mkCS ops (Some (sl_gas l)) pd inx ct cur
      else s
  | OP_DELEGATECALL | OP_CALLCODE =>
      if sl_depth l =? 1 then mkCS ops ga pd inx ct (Some TDelegateCall) else s
  | _ => s
  end.

(** An operation whose gas is counted apart from the external calls'. *)
Definition count_op (ops : TraceOperations) (l : StructLog) : TraceOperations :=
  match opc_of (sl_op l) with
  | OP_SSTORE => add_sstore ops (sl_gas_cost l)
  | OP_LOG0 => add_log ops 0
  | OP_LOG1 => add_log ops 1
  | OP_LOG2 => add_log ops 2
  | OP_LOG3 => add_log ops 3
  | OP_LOG4 => add_log ops 4
  | _ => ops
  end.

Definition count_operations (s : CountState) (l : StructLog) : CountState :=
  let 'mkCS ops ga pd inx ct cur := s in
  let op_gas_counted_separately :=
    (sl_depth l =? 1) || ((sl_depth l =? 2) && bool_decide (ct = Some TDelegateCall)) in
  mkCS (if op_gas_counted_separately then count_op ops l else ops) ga (sl_depth l) inx ct cur.

(** The body of the [for] loop. *)
Definition count_step (s : CountState) (l : StructLog) : CountState :=
  count_operations (track_calls (track_depth s l) l) l.

Definition initial_count_state (refund_counter : Z) : CountState :=
  mkCS (mkTraceOperations 0 [0; 0; 0; 0; 0] 0 refund_counter) None 0 false None None.

(** Still inside an external call when the trace ends. *)
Definition finish_count (s : CountState) (logs : list StructLog) : TraceOperations :=
  let 'mkCS ops ga pd inx ct cur := s in
  match last logs with
  | Some last_log => if inx then close_external ops ga ct (sl_gas last_log) else ops
  | None => ops
  end.

Definition extract_operation_counts_from_trace (trace : DefaultFrame) : TraceOperations :=
  finish_count
    (fold_left count_step (df_struct_logs trace)
       (initial_count_state (trace_refund_counter (df_struct_logs trace))))
    (df_struct_logs trace).

(** ** Lemmas *)

Lemma apply_refund_bounds gross refund :
  0 <= gross → 0 <= refund →
  apply_refund gross refund = Z.max (gross - refund) (gross - gross / 5) ∧
  4 * gross <= 5 * apply_refund gross refund <= 5 * gross.
Proof.
  intros Hg Hr. unfold apply_refund, MAX_REFUND_QUOTIENT.
  pose proof (Z.div_mod gross 5 ltac:(lia)). pose proof (Z.mod_pos_bound gross 5 ltac:(lia)).
  lia.
Qed.

Lemma calldata_gas_bounds bs :
  16 * zlen bs <= u64_max → 4 * zlen bs <= calldata_gas bs <= 16 * zlen bs.
Proof.
  unfold calldata_gas. rewrite u64_sum_wrap.
  assert (Hb : 4 * zlen bs <= fold_left Z.add (calldata_byte_cost <$> bs) 0 <= 16 * zlen bs).
  { induction bs as [|b bs IH]; [done|]. rewrite fmap_cons; cbn [fold_left].
    rewrite fold_left_add_acc, zlen_cons.
    assert (calldata_byte_cost b = 4 ∨ calldata_byte_cost b = 16) as Hc
      by (unfold calldata_byte_cost; destruct (b =? 0); auto).
    destruct Hc as [-> | ->]; lia. }
  intros Hm. pose proof (zlen_nonneg bs). rewrite wrap64_id; lia.
Qed.

(** The exact, unbounded-integer gas of the logs of a program. *)
Definition exact_log_gas (update : StateUpdate) : Z :=
  match update with
  | ULog0 log => 375 + 8 * zlen (log0_data log)
  | ULog1 log => 750 + 8 * zlen (log1_data log)
  | ULog2 log => 1125 + 8 * zlen (log2_data log)
  | ULog3 log => 1500 + 8 * zlen (log3_data log)
  | ULog4 log => 1875 + 8 * zlen (log4_data log)
  | _ => 0
  end.

Definition exact_sum (l : list Z) : Z := fold_left Z.add l 0.

Definition exact_gross `{Externals} (e : TraceExtract) : Z :=
  21000 + exact_sum (calldata_byte_cost <$> encode_state_updates_to_abi (te_state_updates e)) +
  te_call_gas_total e + te_create_gas_total e + te_sstore_gas_total e +
  exact_sum (exact_log_gas <$> te_state_updates e).

Lemma update_gas_wrap u : update_gas u = wrap64 (exact_log_gas u).
Proof.
  assert (∀ t d, log_gas t d = wrap64 (375 + 375 * t + 8 * zlen d)) as Hl.
  { intros t d. unfold log_gas, u64_add, u64_mul, wrap64, LOG_BASE_COST, LOG_TOPIC_COST,
      LOG_DATA_COST_PER_BYTE. rewrite Zplus_mod_idemp_r. f_equal. lia. }
  destruct u; cbn [update_gas exact_log_gas]; rewrite ?Hl; try done; f_equal; lia.
Qed.

Lemma u64_add_wrap_l a b : u64_add (wrap64 a) b = wrap64 (a + b).
Proof. unfold u64_add, wrap64. by rewrite Zplus_mod_idemp_l. Qed.

Lemma u64_add_wrap_r a b : u64_add a (wrap64 b) = wrap64 (a + b).
Proof. unfold u64_add, wrap64. by rewrite Zplus_mod_idemp_r. Qed.

Lemma fold_update_gas us a :
  fold_left (λ gas u, u64_add gas (update_gas u)) us (wrap64 a) =
  wrap64 (a + exact_sum (exact_log_gas <$> us)).
Proof.
  revert a. induction us as [|u us IH]; intros a; cbn [fold_left].
  { unfold exact_sum; cbn. f_equal; lia. }
  rewrite u64_add_wrap_l, update_gas_wrap.
  replace (wrap64 (a + wrap64 (exact_log_gas u))) with (wrap64 (a + exact_log_gas u))
    by (unfold wrap64; by rewrite Zplus_mod_idemp_r).
  rewrite IH. unfold exact_sum. rewrite fmap_cons; cbn [fold_left].
  rewrite (fold_left_add_acc _ (0 + exact_log_gas u)). f_equal; lia.
Qed.

Lemma estimate_eq_refund `{Externals} e :
  0 <= exact_gross e <= u64_max →
  estimate_gas_from_state_updates e = apply_refund (exact_gross e) (te_refund_counter e).
Proof.
  intros Hg. unfold estimate_gas_from_state_updates, calldata_gas.
  rewrite u64_sum_wrap, u64_add_wrap_r, !u64_add_wrap_l, fold_update_gas.
  f_equal. apply wrap64_id. exact Hg.
Qed.

(** ** Properties *)

(** the estimate of an extraction whose gross gas fits 64 bits is the exact sum of its parts
    (transaction base, calldata of the encoded program, measured call, create and store gas, log
    schedule) less the refund, which never takes more than a fifth of it. *)
Theorem estimate_gas_from_state_updates_exact `{Externals} e :
  0 <= exact_gross e <= u64_max → 0 <= te_refund_counter e →
  estimate_gas_from_state_updates e =
    Z.max (exact_gross e - te_refund_counter e) (exact_gross e - exact_gross e / 5) ∧
  4 * exact_gross e <= 5 * estimate_gas_from_state_updates e <= 5 * exact_gross e.
Proof.
  intros Hg Hr. rewrite estimate_eq_refund by done. by apply apply_refund_bounds; [lia|].
Qed.

Definition sample_extract : TraceExtract :=
  mkTraceExtract [UStore (mkStore 1 2); ULog1 (mkLog1 [1; 2; 3] 9)] ∅ 700 0 0 22100 4800 false.

Lemma estimate_gas_from_state_updates_exact_witness :
  0 <= exact_gross sample_extract <= u64_max ∧
  4 * exact_gross sample_extract <= 5 * estimate_gas_from_state_updates sample_extract.
Proof.
  assert (Hb : 0 <= exact_gross sample_extract <= u64_max) by by_compute.
  split; [exact Hb|].
  apply (estimate_gas_from_state_updates_exact sample_extract); [exact Hb|vm_compute; done].
Defined.
