(* ===== verification/HeuristicSpec.v ===== *)
(** * What the heuristic counts: execution trees

    The operation counts of [Heuristic.extract_operation_counts_from_trace], read off the execution
    tree a trace lists, and the traces on which the walk departs from them. *)

From S2P Require Import Prelude.
From S2P Require Import Types.
From S2P Require Import Trace.
From S2P Require Import TraceSpec.
From S2P Require Import Heuristic.

(** ** Reference counts *)

(** Opcodes that open a frame of another account or of delegated code. *)
Definition call_type_of (l : StructLog) : option CallType :=
  match opc_of (sl_op l) with
  | OP_CALL => Some TCall
  | OP_DELEGATECALL | OP_CALLCODE => Some TDelegateCall
  | _ => None
  end.

(** The gas of the last [CALL] among the logs. *)
Definition last_call_gas (ls : list StructLog) (init : option Z) : option Z :=
  fold_left (λ ga l, match opc_of (sl_op l) with OP_CALL => Some (sl_gas l) | _ => ga end) ls init.

(** A root step, whose frame returns with [gas] left: its own operation, the operations of the frame
    it delegates to, and the gas of an external call: the call itself, or the last call a delegated
    frame makes. *)
Definition step_counts (ops : TraceOperations) (e : Exec) (gas : Z) : TraceOperations :=
  match e with
  | Step l body =>
      let ops := count_op ops l in
      match body, call_type_of l with
      | _ :: _, Some TCall => add_external ops (sat_sub (sl_gas l) gas)
      | _ :: _, Some TDelegateCall =>
          let ops := fold_left count_op (exec_log <$> body) ops in
          match last_call_gas (exec_log <$> body) None with
          | Some g => add_external ops (sat_sub g gas)
          | None => ops
          end
      | _, _ => ops
      end
  end.

Fixpoint frame_counts (ops : TraceOperations) (f : list Exec) (last_gas : Z) : TraceOperations :=
  match f with
  | [] => ops
  | e :: f =>
      frame_counts
        (step_counts ops e (match f with e' :: _ => sl_gas (exec_log e') | [] => last_gas end))
        f last_gas
  end.

Definition reference_counts (f : list Exec) : TraceOperations :=
  frame_counts
    (mkTraceOperations 0 [0; 0; 0; 0; 0] 0 (trace_refund_counter (flatten_frame f))) f
    (default 0 (sl_gas <$> last (flatten_frame f))).

Definition exec_body (e : Exec) : list Exec := match e with Step _ body => body end.

(** Execution resumes in a frame after every frame it opens. *)
Definition resumes (f : list Exec) : Prop :=
  match last f with Some e => exec_body e = [] | None => True end.

(** Every call of the root frame reaches code, and the frames it opens resume. *)
Definition calls_reach_code (f : list Exec) : Prop :=
  Forall (λ e, resumes (exec_body e) ∧
    (call_type_of (exec_log e) ≠ None → exec_body e ≠ [])) f.

(** ** The walk between two root steps *)

Definition closed_ops (s : CountState) (gas : Z) : TraceOperations :=
  if cs_in_external_call s
  then close_external (cs_operations s) (cs_gas_after_call_opcode s) (cs_call_type_at_2 s) gas
  else cs_operations s.

Definition between (s : CountState) : Prop :=
  if cs_in_external_call s then cs_previous_depth s = 2
  else cs_previous_depth s ≠ 2 ∧ cs_gas_after_call_opcode s = None ∧
    cs_call_type_at_2 s = None ∧ cs_current_call_type s = None.

(** Logs deeper than two only move the previous depth. *)
Lemma deep_count ls ops ga pd inx ct cur :
  Forall (λ l, 2 < sl_depth l) ls →
  fold_left count_step ls (mkCS ops ga pd inx ct cur) =
  mkCS ops ga (default pd (sl_depth <$> last ls)) inx ct cur.
Proof.
  revert pd. induction ls as [|l ls IH]; intros pd Hls; [done|].
  apply Forall_cons in Hls as [Hl Hls]. cbn [fold_left].
  assert (count_step (mkCS ops ga pd inx ct cur) l = mkCS ops ga (sl_depth l) inx ct cur) as ->.
  { unfold count_step, track_depth.
    rewrite !(proj2 (Z.eqb_neq _ _)) by lia. cbn [andb]. unfold track_calls.
    rewrite !(proj2 (Z.eqb_neq _ _)) by lia. cbn [andb].
    destruct (opc_of (sl_op l)); unfold count_operations;
      rewrite !(proj2 (Z.eqb_neq _ _)) by lia; done. }
  rewrite IH by done. f_equal. rewrite last_cons. by destruct (last ls).
Qed.

(** One log of the frame a root step opened. *)
Definition inner_gas (ct : option CallType) (ga : option Z) (l : StructLog) : option Z :=
  match opc_of (sl_op l) with
  | OP_CALL => if bool_decide (ct = Some TDelegateCall) then Some (sl_gas l) else ga
  | _ => ga
  end.

Lemma inner_step l ops ga pd ct cur :
  sl_depth l = 2 → pd ≠ 1 →
  count_step (mkCS ops ga pd true ct cur) l =
  mkCS (if bool_decide (ct = Some TDelegateCall) then count_op ops l else ops)
    (inner_gas ct ga l) 2 true ct cur.
Proof.
  intros Hl Hpd. unfold count_step, track_depth, track_calls, inner_gas. rewrite Hl. cbn.
  rewrite (proj2 (Z.eqb_neq pd 1)) by done.
  destruct (opc_of (sl_op l)), (bool_decide _) eqn:Hb; unfold count_operations; rewrite Hl; cbn;
    by rewrite ?Hb.
Qed.

Lemma flatten_frame_app f g : flatten_frame (f ++ g) = flatten_frame f ++ flatten_frame g.
Proof. unfold flatten_frame. by rewrite map_app, concat_app. Qed.

Lemma frame_at_app d f g : frame_at d (f ++ g) ↔ frame_at d f ∧ frame_at d g.
Proof.
  induction f as [|e f IH]; cbn [app]; [by split; [intros; split|intros [_ ?]]|].
  rewrite !frame_at_cons, IH. tauto.
Qed.

(** The last log of a frame that resumes after its sub-frames is its own. *)
Lemma resumes_last d f :
  frame_at d f → resumes f → f ≠ [] → sl_depth <$> last (flatten_frame f) = Some d.
Proof.
  intros Hat Hres Hne. destruct f as [|[l body] f _] using rev_ind; [done|].
  unfold resumes in Hres. rewrite last_snoc in Hres. cbn in Hres; subst body.
  apply frame_at_app in Hat as [_ [[Hl _] _]].
  rewrite flatten_frame_app. change (flatten_frame [Step l []]) with [l].
  rewrite last_snoc. cbn. by f_equal.
Qed.

Lemma last_flatten_cons l b body (x : Z) :
  default x (sl_depth <$> last (flatten_frame (Step l b :: body))) =
  default (default (sl_depth l) (sl_depth <$> last (flatten_frame b)))
    (sl_depth <$> last (flatten_frame body)).
Proof.
  change (flatten_frame (Step l b :: body)) with (l :: (flatten_frame b ++ flatten_frame body)).
  rewrite last_cons, last_app. destruct (last (flatten_frame body)); [done|].
  by destruct (last (flatten_frame b)).
Qed.

Lemma inner_walk body ops ga pd ct cur :
  frame_at 2 body → pd ≠ 1 →
  fold_left count_step (flatten_frame body) (mkCS ops ga pd true ct cur) =
  mkCS (if bool_decide (ct = Some TDelegateCall)
        then fold_left count_op (exec_log <$> body) ops else ops)
    (fold_left (inner_gas ct) (exec_log <$> body) ga)
    (default pd (sl_depth <$> last (flatten_frame body))) true ct cur.
Proof.
  revert ops ga pd. induction body as [|[l b] body IH]; intros ops ga pd Hat Hpd.
  { cbn. by destruct (bool_decide _). }
  rewrite last_flatten_cons.
  apply frame_at_cons in Hat as [[Hl Hb]%exec_at_step Hat].
  change (flatten_frame (Step l b :: body)) with ((l :: flatten_frame b) ++ flatten_frame body).
  rewrite fold_left_app; cbn [fold_left]. rewrite inner_step by done.
  rewrite deep_count by exact (body_deeper 2 _ Hb).
  rewrite IH; [|done|].
  - rewrite Hl, !fmap_cons. cbn [exec_log fold_left].
    by destruct (bool_decide (ct = Some TDelegateCall)).
  - destruct (last (flatten_frame b)) as [x|] eqn:Hx; cbn; [|done].
    apply (body_deeper 2) in Hb. rewrite Forall_forall in Hb.
    apply last_Some_elem_of, Hb in Hx. lia.
Qed.

(** A root log: close the call being left, then count it. *)
Lemma root_log l s :
  sl_depth l = 1 → between s →
  count_step s l =
  mkCS (count_op (closed_ops s (sl_gas l)) l)
    (match opc_of (sl_op l) with OP_CALL => Some (sl_gas l) | _ => None end) 1 false None
    (call_type_of l).
Proof.
  intros Hl. destruct s as [ops ga pd inx ct cur]. unfold between, closed_ops; cbn.
  unfold count_step, track_depth, track_calls, call_type_of. rewrite Hl. cbn.
  destruct inx.
  - intros ->. cbn. destruct (opc_of (sl_op l)); unfold count_operations; by rewrite Hl.
  - intros (Hpd & -> & -> & ->). rewrite (proj2 (Z.eqb_neq pd 2)) by done.
    destruct (opc_of (sl_op l)); unfold count_operations; by rewrite Hl.
Qed.

(** The first log of a frame the root opens. *)
Lemma enter_step l ops ga ct :
  sl_depth l = 2 →
  count_step (mkCS ops ga 1 false None ct) l = count_step (mkCS ops ga 2 true ct ct) l.
Proof.
  intros Hl. unfold count_step, track_depth. rewrite Hl. cbn.
  destruct ct as [[]|]; unfold track_calls; rewrite Hl; cbn;
    destruct (opc_of (sl_op l)); unfold count_operations; by rewrite Hl.
Qed.

Lemma fold_inner_gas ct ls ga :
  fold_left (inner_gas ct) ls ga =
  if bool_decide (ct = Some TDelegateCall) then last_call_gas ls ga else ga.
Proof.
  revert ga. unfold last_call_gas, inner_gas.
  induction ls as [|l ls IH]; intros ga; cbn [fold_left]; [by destruct (bool_decide _)|].
  rewrite IH. destruct (opc_of (sl_op l)); by destruct (bool_decide _).
Qed.

(** A root step and the frame it opens. *)
Lemma step_walk e s :
  exec_at 1 e → between s → resumes (exec_body e) →
  (call_type_of (exec_log e) ≠ None → exec_body e ≠ []) →
  let s' := fold_left count_step (flatten e) s in
  between s' ∧
  ∀ gas, closed_ops s' gas = step_counts (closed_ops s (sl_gas (exec_log e))) e gas.
Proof.
  destruct e as [l body]; cbn [exec_body exec_log]. intros [Hl Hat]%exec_at_step Hs Hres Hcode.
  rewrite flatten_step; cbn [fold_left]. rewrite root_log by done.
  destruct body as [|[l2 b2] body]; cbn zeta.
  { assert (call_type_of l = None) as Hct
      by (destruct (call_type_of l); [exfalso; by apply Hcode|done]).
    cbn. unfold between, closed_ops; cbn. rewrite Hct.
    unfold call_type_of in Hct. destruct (opc_of (sl_op l)); try discriminate Hct; done. }
  assert (Hl2 : sl_depth l2 = 2) by apply Hat.
  set (f := Step l2 b2 :: body) in *.
  assert (Henter : ∀ ops ga ct, fold_left count_step (flatten_frame f) (mkCS ops ga 1 false None ct)
    = fold_left count_step (flatten_frame f) (mkCS ops ga 2 true ct ct)).
  { intros ops ga ct. subst f. change (flatten_frame (Step l2 b2 :: body)) with
      (l2 :: (flatten_frame b2 ++ flatten_frame body)). cbn [fold_left]. by rewrite enter_step. }
  rewrite Henter, inner_walk by done.
  rewrite (resumes_last 2 f Hat Hres) by done. cbn [default].
  split; [done|]. intros gas. unfold closed_ops at 1, step_counts.
  cbn [cs_in_external_call cs_operations cs_gas_after_call_opcode cs_call_type_at_2].
  rewrite fold_inner_gas. unfold call_type_of.
  subst f; set (f := Step l2 b2 :: body).
  destruct (opc_of (sl_op l)); cbn -[last_call_gas f]; try done;
    unfold close_external; destruct (last_call_gas (exec_log <$> f) None); done.
Qed.

(** ** Properties *)

Lemma frame_walk f s :
  frame_at 1 f → calls_reach_code f → between s →
  let s' := fold_left count_step (flatten_frame f) s in
  between s' ∧
  ∀ gas, closed_ops s' gas =
    match f with
    | [] => closed_ops s gas
    | e :: _ => frame_counts (closed_ops s (sl_gas (exec_log e))) f gas
    end.
Proof.
  revert s. induction f as [|e f IH]; intros s Hat Hcode Hs; [done|].
  apply frame_at_cons in Hat as [He Hat]. apply Forall_cons in Hcode as [[Hr Hc] Hcode].
  destruct (step_walk e s He Hs Hr Hc) as [Hs1 Hops].
  change (flatten_frame (e :: f)) with (flatten e ++ flatten_frame f). cbn zeta.
  rewrite fold_left_app.
  destruct (IH _ Hat Hcode Hs1) as [Hs2 Hops2]. split; [done|].
  intros gas. rewrite Hops2. cbn [frame_counts]. destruct f as [|e' f]; by rewrite Hops.
Qed.

(** on the listing of a tree whose root frame only calls accounts with code, the heuristic
    counts exactly the operations of the root frame and of the frames it delegates to, and charges
    each root call its gas and each delegated frame the gas from its last call to its return. *)
Theorem extract_operation_counts_tree f failed gas ret :
  frame_at 1 f → calls_reach_code f →
  extract_operation_counts_from_trace (mkDefaultFrame failed gas ret (flatten_frame f)) =
  reference_counts f.
Proof.
  intros Hat Hcode. unfold extract_operation_counts_from_trace, reference_counts.
  cbn [df_struct_logs]. set (r := trace_refund_counter _).
  destruct (frame_walk f (initial_count_state r) Hat Hcode) as [_ Hops]; [done|].
  destruct f as [|e f]; [done|].
  set (g := default 0 (sl_gas <$> last (flatten_frame (e :: f)))).
  specialize (Hops g). change (closed_ops (initial_count_state r) (sl_gas (exec_log e))) with
    (mkTraceOperations 0 [0; 0; 0; 0; 0] 0 r) in Hops. rewrite <-Hops.
  unfold finish_count, closed_ops, g.
  destruct (last (flatten_frame (e :: f))) as [l|] eqn:Hlast.
  - by destruct (fold_left _ _ _) as [ops ga pd inx ct cur].
  - destruct e as [l body]. by apply last_None in Hlast.
Qed.

Definition counted_tree : list Exec := [
  Step (sample_log 1 "SSTORE" 100 [7; 1]) [];
  Step (sample_log 1 "DELEGATECALL" 95 [0; 0; 0; 0; 9; 3])
    [Step (sample_log 2 "LOG0" 90 [1; 1]) [];
     Step (sample_log 2 "CALL" 88 [0; 0; 2; 0; 5; 77; 3]) [Step (sample_log 3 "STOP" 80 []) []];
     Step (sample_log 2 "STOP" 78 []) []];
  Step (sample_log 1 "CALL" 70 [0; 0; 2; 0; 5; 77; 3])
    [Step (sample_log 2 "SSTORE" 50 [1; 2]) []; Step (sample_log 2 "STOP" 40 []) []];
  Step (sample_log 1 "STOP" 30 []) []].

Lemma extract_operation_counts_tree_witness :
  (frame_at 1 counted_tree ∧ calls_reach_code counted_tree) ∧
  extract_operation_counts_from_trace (mkDefaultFrame false 0 [] (flatten_frame counted_tree)) =
  mkTraceOperations 5 [1; 0; 0; 0; 0] 58 0.
Proof.
  assert (frame_at 1 counted_tree ∧ calls_reach_code counted_tree) as [H1 H2].
  { split; [cbn; tauto|]. repeat constructor; cbn; try done; intros; discriminate. }
  split; [done|]. rewrite (extract_operation_counts_tree counted_tree false 0 [] H1 H2).
  vm_compute. reflexivity.
Defined.

(** A call to an account without code leaves its gas behind: the next [STATICCALL] is then charged
    as an external call, from the earlier call's gas. *)
Definition stale_call_tree : list Exec := [
  Step (sample_log 1 "CALL" 100 [0; 0; 0; 0; 0; 77; 3]) [];
  Step (sample_log 1 "SSTORE" 60 [7; 1]) [];
  Step (sample_log 1 "STATICCALL" 50 [0; 0; 0; 0; 9; 3])
    [Step (sample_log 2 "STOP" 45 []) []];
  Step (sample_log 1 "STOP" 40 []) []].

Example stale_call_charged_to_staticcall :
  to_external_call_gas (extract_operation_counts_from_trace
    (mkDefaultFrame false 0 [] (flatten_frame stale_call_tree))) = 60 ∧
  to_external_call_gas (reference_counts stale_call_tree) = 0.
Proof. vm_compute. done. Qed.

(** Of two calls a delegated frame makes, only the last one's gas is charged. *)
Definition two_delegated_calls : list Exec := [
  Step (sample_log 1 "DELEGATECALL" 1000 [0; 0; 0; 0; 9; 3])
    [Step (sample_log 2 "CALL" 900 [0; 0; 0; 0; 0; 77; 3]) [Step (sample_log 3 "STOP" 800 []) []];
     Step (sample_log 2 "CALL" 300 [0; 0; 0; 0; 0; 77; 3]) [Step (sample_log 3 "STOP" 290 []) []];
     Step (sample_log 2 "STOP" 280 []) []];
  Step (sample_log 1 "STOP" 270 []) []].

Example delegated_calls_undercounted :
  to_external_call_gas (extract_operation_counts_from_trace
    (mkDefaultFrame false 0 [] (flatten_frame two_delegated_calls))) = 30.
Proof. vm_compute. done. Qed.
