(* ===== verification/SimProfile.v ===== *)
(** * Simulation profiles and the unbounded payload gate

    [crates/core/src/sim_profile.rs]: the environment overrides of each profile, the upper bound on
    the gas of applying a payload, and the gate that accepts or rejects a payload by it. *)

From S2P Require Import Prelude.
From S2P Require Import Types.
From S2P Require Import Instances.
From S2P Require Import Encoding.
From S2P Require Import Trace.
From S2P Require Import Heuristic.

(** ** Profiles and constants *)

Definition STATE_TRACKER_SLOT : Z :=
  0xdebfdfd5a50ad117c10898d68b5ccf0893c6b40d4f443f902e2e7646601bdeaf.

Definition UNBOUNDED_BLOCK_GAS_LIMIT : Z := Z.shiftl 1 40.
Definition UNBOUNDED_TX_GAS_LIMIT : Z := UNBOUNDED_BLOCK_GAS_LIMIT.
Definition UNBOUNDED_PAYLOAD_GAS_BUDGET : Z := Z.shiftl 1 24.

(** [enum SimProfile]; [Chain] is the default. *)
Inductive SimProfile : Type := Chain | Unbounded.

Definition tx_gas_limit_override (p : SimProfile) : option Z :=
  match p with Chain => None | Unbounded => Some UNBOUNDED_TX_GAS_LIMIT end.

Definition block_gas_limit_override (p : SimProfile) : option Z :=
  match p with Chain => None | Unbounded => Some UNBOUNDED_BLOCK_GAS_LIMIT end.

Definition payload_gas_budget (p : SimProfile) : option Z :=
  match p with Chain => None | Unbounded => Some UNBOUNDED_PAYLOAD_GAS_BUDGET end.

(** sp1-contract-call's [EnvOverrides]: block and transaction gas limits. *)
Record EnvOverrides := mkEnvOverrides {
  eo_block_gas_limit : option Z;
  eo_tx_gas_limit : option Z
}.

Definition EnvOverrides_from (profile : SimProfile) : EnvOverrides :=
  mkEnvOverrides (block_gas_limit_override profile) (tx_gas_limit_override profile).

Definition COLD_SLOAD : Z := 2100.
Definition SSTORE_SET : Z := 20000.
Definition UNBOUNDED_COLD_SSTORE_COST : Z := COLD_SLOAD + SSTORE_SET.
Definition LOG_BASE : Z := 375.
Definition LOG_TOPIC : Z := 375.
Definition LOG_BYTE : Z := 8.
Definition TX_BASE : Z := 21000.
Definition CALLDATA_ZERO_BYTE : Z := 4.
Definition CALLDATA_NONZERO_BYTE : Z := 16.
Definition CALLDATA_FLOOR_TOKEN : Z := 10.
Definition CALLDATA_FLOOR_NONZERO_TOKENS : Z := 4.
Definition UNBOUNDED_APPLY_BASE_GAS : Z := 2000.
Definition UNBOUNDED_APPLY_GAS_PER_PAYLOAD_BYTE : Z := 14.

(** ** Data *)

Record UnboundedCost := mkUnboundedCost {
  uc_stores : Z;
  uc_tracker_stores : Z;
  uc_calls : Z;
  uc_logs : Z;
  uc_creates : Z;
  uc_applied_gas_upper_bound : Z
}.

Inductive UnboundedCostViolation : Type :=
  | PayloadTooExpensive (estimated budget stores : Z)
  | CreateNotAllowed (index : nat).

(** ** The upper bound *)

Definition log_price (topics : Z) (data : list Z) : Z :=
  u64_add (LOG_BASE + LOG_TOPIC * topics) (u64_mul (zlen data) LOG_BYTE).

(** The [match] of the loop: what one update is charged. *)
Definition update_price (update : StateUpdate) : Z :=
  match update with
  | UStore _ => UNBOUNDED_COLD_SSTORE_COST
  | UCall _ | UNested _ => 0
  | ULog0 l => log_price 0 (log0_data l)
  | ULog1 l => log_price 1 (log1_data l)
  | ULog2 l => log_price 2 (log2_data l)
  | ULog3 l => log_price 3 (log3_data l)
  | ULog4 l => log_price 4 (log4_data l)
  | UCreate _ | UCreate2 _ => 0
  end.

Definition count_zero_bytes (payload : list Z) : Z :=
  zlen (List.filter (λ byte, byte =? 0) payload).

(** Execution, transport and dispatch of an encoded payload, or EIP-7623's floor. *)
Definition price_payload (gas : Z) (payload : list Z) : Z :=
  let gas := sat_add gas (sat_mul (zlen payload) UNBOUNDED_APPLY_GAS_PER_PAYLOAD_BYTE) in
  let zero_bytes := count_zero_bytes payload in
  let nonzero_bytes := zlen payload - zero_bytes in
  let transport :=
    sat_add (sat_mul zero_bytes CALLDATA_ZERO_BYTE) (sat_mul nonzero_bytes CALLDATA_NONZERO_BYTE) in
  let tokens := sat_add zero_bytes (sat_mul nonzero_bytes CALLDATA_FLOOR_NONZERO_TOKENS) in
  let floor := sat_add TX_BASE (sat_mul tokens CALLDATA_FLOOR_TOKEN) in
  Z.max (sat_add gas transport) floor.

Definition estimate_applied_payload_gas `{Externals} (updates : list StateUpdate)
  (external_call_gas signature_floor : Z) : Z :=
  let gas := sat_add (sat_add (sat_add TX_BASE signature_floor) external_call_gas)
    UNBOUNDED_APPLY_BASE_GAS in
  let gas := fold_left (λ gas update, sat_add gas (update_price update)) updates gas in
  price_payload gas (encode_state_updates_to_abi updates).

(** ** The gate *)

Definition count_update (creates_replayable : bool) (cost : UnboundedCost) (p : nat * StateUpdate)
  : Res UnboundedCostViolation UnboundedCost :=
  let 'mkUnboundedCost stores tracker calls logs creates bound := cost in
  let '(index, update) := p in
  match update with
  | UStore store =>
      if store_slot store =? STATE_TRACKER_SLOT
      then Ok (mkUnboundedCost stores (tracker + 1) calls logs creates bound)
      else Ok (mkUnboundedCost (stores + 1) tracker calls logs creates bound)
  | UCall _ | UNested _ => Ok (mkUnboundedCost stores tracker (calls + 1) logs creates bound)
  | ULog0 _ | ULog1 _ | ULog2 _ | ULog3 _ | ULog4 _ =>
      Ok (mkUnboundedCost stores tracker calls (logs + 1) creates bound)
  | UCreate _ | UCreate2 _ =>
      if creates_replayable
      then Ok (mkUnboundedCost stores tracker calls logs (creates + 1) bound)
      else Err (CreateNotAllowed index)
  end.

Definition enumerate {A} (l : list A) : list (nat * A) := zip (seq 0 (length l)) l.

Definition validate `{Externals} (updates : list StateUpdate) (replayed_gas : Z)
  (creates_replayable : bool) (signature_floor budget : Z)
  : Res UnboundedCostViolation UnboundedCost :=
  cost ← foldM (count_update creates_replayable) (enumerate updates)
    (mkUnboundedCost 0 0 0 0 0 0);
  let bound := estimate_applied_payload_gas updates replayed_gas signature_floor in
  if budget <? bound then Err (PayloadTooExpensive bound budget (uc_stores cost))
  else Ok (mkUnboundedCost (uc_stores cost) (uc_tracker_stores cost) (uc_calls cost)
             (uc_logs cost) (uc_creates cost) bound).

Definition validate_unbounded_cost `{Externals} (updates : list StateUpdate)
  (external_call_gas signature_floor budget : Z) : Res UnboundedCostViolation UnboundedCost :=
  validate updates external_call_gas false signature_floor budget.

Definition validate_unbounded_tree_cost `{Externals} (updates : list StateUpdate)
  (external_call_gas create_gas signature_floor budget : Z)
  : Res UnboundedCostViolation UnboundedCost :=
  validate updates (sat_add external_call_gas create_gas) true signature_floor budget.

(** ** Specification of the gate *)

Definition is_create (u : StateUpdate) : bool :=
  match u with UCreate _ | UCreate2 _ => true | _ => false end.
Definition is_call (u : StateUpdate) : bool :=
  match u with UCall _ | UNested _ => true | _ => false end.
Definition is_log (u : StateUpdate) : bool :=
  match u with ULog0 _ | ULog1 _ | ULog2 _ | ULog3 _ | ULog4 _ => true | _ => false end.
Definition is_tracker_store (u : StateUpdate) : bool :=
  match u with UStore s => store_slot s =? STATE_TRACKER_SLOT | _ => false end.
Definition is_plain_store (u : StateUpdate) : bool :=
  match u with UStore s => negb (store_slot s =? STATE_TRACKER_SLOT) | _ => false end.

Definition count_if (f : StateUpdate → bool) (us : list StateUpdate) : Z :=
  zlen (List.filter f us).

(** The cost a payload is summarised by. *)
Definition cost_of (us : list StateUpdate) (bound : Z) : UnboundedCost :=
  mkUnboundedCost (count_if is_plain_store us) (count_if is_tracker_store us)
    (count_if is_call us) (count_if is_log us) (count_if is_create us) bound.

(** The position of the first create, if any. *)
Fixpoint first_create (us : list StateUpdate) : option nat :=
  match us with
  | [] => None
  | u :: us => if is_create u then Some O else S <$> first_create us
  end.

(** ** Lemmas *)

Lemma count_if_cons f u us :
  count_if f (u :: us) = (if f u then 1 else 0) + count_if f us.
Proof. unfold count_if; cbn. destruct (f u); rewrite ?zlen_cons; lia. Qed.

Lemma cost_plus_assoc st tr ca lo cr b us :
  foldM (count_update true) (enumerate us) (mkUnboundedCost st tr ca lo cr b) =
  Ok (mkUnboundedCost (st + count_if is_plain_store us) (tr + count_if is_tracker_store us)
        (ca + count_if is_call us) (lo + count_if is_log us) (cr + count_if is_create us) b).
Proof.
  unfold enumerate. generalize 0%nat as i.
  revert st tr ca lo cr. induction us as [|u us IH]; intros st tr ca lo cr i.
  { cbn. unfold count_if; cbn. by rewrite !Z.add_0_r. }
  cbn [length seq zip foldM zip_with].
  destruct u; cbn [count_update]; try case_match; cbn [mbind res_bind]; rewrite IH;
    rewrite !count_if_cons; cbn [is_plain_store is_tracker_store is_call is_log is_create];
    rewrite ?H; cbn [negb]; do 2 f_equal; lia.
Qed.

Lemma count_no_creates us st tr ca lo cr b i :
  foldM (count_update false) (zip (seq i (length us)) us) (mkUnboundedCost st tr ca lo cr b) =
  match first_create us with
  | Some j => Err (CreateNotAllowed (i + j))
  | None => foldM (count_update true) (zip (seq i (length us)) us)
              (mkUnboundedCost st tr ca lo cr b)
  end.
Proof.
  revert st tr ca lo cr i. induction us as [|u us IH]; intros st tr ca lo cr i; [done|].
  cbn [length seq zip foldM zip_with first_create].
  destruct u; cbn [count_update is_create]; try (rewrite Nat.add_0_r; done);
    try destruct (store_slot s =? STATE_TRACKER_SLOT); cbn [mbind res_bind];
    rewrite IH; (destruct (first_create us); cbn; [by rewrite Nat.add_succ_r|done]).
Qed.

Lemma count_partition us :
  count_if is_plain_store us + count_if is_tracker_store us + count_if is_call us +
  count_if is_log us + count_if is_create us = zlen us.
Proof.
  induction us as [|u us IH]; [done|]. rewrite !count_if_cons, zlen_cons.
  destruct u; cbn; try destruct (_ =? _); cbn; lia.
Qed.

Lemma validate_true `{Externals} us g fl budget :
  validate us g true fl budget =
  let bound := estimate_applied_payload_gas us g fl in
  if budget <? bound then Err (PayloadTooExpensive bound budget (count_if is_plain_store us))
  else Ok (cost_of us bound).
Proof. unfold validate. rewrite cost_plus_assoc. cbn -[estimate_applied_payload_gas]. done. Qed.

Lemma validate_false `{Externals} us g fl budget :
  validate us g false fl budget =
  match first_create us with
  | Some i => Err (CreateNotAllowed i)
  | None => validate us g true fl budget
  end.
Proof.
  unfold validate at 1, enumerate. rewrite count_no_creates.
  destruct (first_create us); [done|]. unfold validate, enumerate. done.
Qed.

(** ** The bound in closed form *)

Lemma sat_add_min a b : 0 <= b → sat_add (Z.min u64_max a) b = Z.min u64_max (a + b).
Proof. u64_lia. Qed.

Lemma sat_add_min_r a b : 0 <= a → sat_add a (Z.min u64_max b) = Z.min u64_max (a + b).
Proof. u64_lia. Qed.

Lemma sat_add_min2 a b :
  0 <= a → 0 <= b → sat_add (Z.min u64_max a) (Z.min u64_max b) = Z.min u64_max (a + b).
Proof. u64_lia. Qed.

Lemma max_min a b : Z.max (Z.min u64_max a) (Z.min u64_max b) = Z.min u64_max (Z.max a b).
Proof. lia. Qed.

Lemma sat_mul_eq a b : sat_mul a b = Z.min u64_max (a * b).
Proof. done. Qed.

Lemma sat_mul_min a b : 0 <= a → 1 <= b → sat_mul (Z.min u64_max a) b = Z.min u64_max (a * b).
Proof.
  intros Ha Hb. unfold sat_mul.
  destruct (Z.le_gt_cases a u64_max); [by rewrite (Z.min_r u64_max a)|].
  rewrite (Z.min_l u64_max a) by lia. unfold u64_max in *. nia.
Qed.

(** A log whose price does not wrap: less than [2^60] bytes of data. *)
Definition log_data_of (u : StateUpdate) : list Z :=
  match u with
  | ULog0 l => log0_data l | ULog1 l => log1_data l | ULog2 l => log2_data l
  | ULog3 l => log3_data l | ULog4 l => log4_data l
  | _ => []
  end.
Definition small_logs (us : list StateUpdate) : Prop :=
  Forall (λ u, zlen (log_data_of u) < 2 ^ 60) us.

Definition exact_price (u : StateUpdate) : Z :=
  match u with UStore _ => 22100 | _ => exact_log_gas u end.

Lemma update_price_exact u : zlen (log_data_of u) < 2 ^ 60 → update_price u = exact_price u.
Proof.
  intros Hu. pose proof (zlen_nonneg (log_data_of u)) as Hn.
  assert (∀ t d, 0 <= t <= 4 → d = log_data_of u → log_price t d = 375 + 375 * t + 8 * zlen d).
  { intros t d Ht ->. unfold log_price, u64_add, u64_mul, LOG_BASE, LOG_TOPIC, LOG_BYTE.
    rewrite (wrap64_id (_ * 8)) by u64_lia. rewrite wrap64_id by u64_lia. lia. }
  destruct u; cbn [update_price exact_price exact_log_gas]; try done;
    (rewrite H; [lia|lia|done]).
Qed.

Lemma exact_price_nonneg u : 0 <= exact_price u.
Proof.
  assert (∀ l : list Z, 0 <= zlen l) by (intros; apply zlen_nonneg).
  destruct u; cbn; auto with lia.
  all: match goal with |- context [zlen ?d] => specialize (H d) end; lia.
Qed.

Lemma exact_sum_cons x l : exact_sum (x :: l) = x + exact_sum l.
Proof. unfold exact_sum; cbn [fold_left]. rewrite fold_left_add_acc. lia. Qed.

Lemma exact_sum_nonneg {A} (f : A → Z) l : (∀ x, 0 <= f x) → 0 <= exact_sum (f <$> l).
Proof.
  intros Hf. induction l as [|x l IH]; [done|]. rewrite fmap_cons, exact_sum_cons.
  specialize (Hf x). lia.
Qed.

Lemma fold_price us a :
  small_logs us →
  fold_left (λ gas u, sat_add gas (update_price u)) us (Z.min u64_max a) =
  Z.min u64_max (a + exact_sum (exact_price <$> us)).
Proof.
  intros Hs. revert a. induction Hs as [|u us Hu Hs IH]; intros a; cbn [fold_left].
  { unfold exact_sum; cbn. f_equal; lia. }
  rewrite update_price_exact, sat_add_min by (done || apply exact_price_nonneg).
  rewrite IH, fmap_cons, exact_sum_cons. f_equal; lia.
Qed.

Lemma calldata_split bs :
  exact_sum (calldata_byte_cost <$> bs) =
  4 * count_zero_bytes bs + 16 * (zlen bs - count_zero_bytes bs).
Proof.
  induction bs as [|b bs IH]; [done|]. rewrite fmap_cons, exact_sum_cons, IH, zlen_cons.
  unfold count_zero_bytes; cbn [List.filter]. unfold calldata_byte_cost.
  destruct (b =? 0); rewrite ?zlen_cons; unfold CALLDATA_ZERO_BYTE_COST,
    CALLDATA_NONZERO_BYTE_COST; lia.
Qed.

Lemma count_zero_bytes_bounds bs : 0 <= count_zero_bytes bs <= zlen bs.
Proof.
  unfold count_zero_bytes. induction bs as [|b bs IH]; [done|]. cbn [List.filter].
  destruct (b =? 0); rewrite ?zlen_cons; lia.
Qed.

(** What the bound is before saturation. *)
Definition exact_floor (payload : list Z) : Z :=
  21000 + 10 * (count_zero_bytes payload + 4 * (zlen payload - count_zero_bytes payload)).

Definition exact_bound `{Externals} (us : list StateUpdate) (external signature : Z) : Z :=
  let payload := encode_state_updates_to_abi us in
  Z.max (21000 + signature + external + 2000 + exact_sum (exact_price <$> us) +
         14 * zlen payload + exact_sum (calldata_byte_cost <$> payload))
        (exact_floor payload).

Lemma price_payload_exact a bs :
  0 <= a →
  price_payload (Z.min u64_max a) bs =
  Z.min u64_max
    (Z.max (a + 14 * zlen bs + exact_sum (calldata_byte_cost <$> bs)) (exact_floor bs)).
Proof.
  intros Ha. pose proof (count_zero_bytes_bounds bs) as Hz. rewrite calldata_split.
  unfold price_payload, exact_floor. cbv zeta.
  revert Hz. generalize (zlen bs) as n, (count_zero_bytes bs) as z. intros n z Hz.
  unfold UNBOUNDED_APPLY_GAS_PER_PAYLOAD_BYTE, CALLDATA_ZERO_BYTE,
    CALLDATA_NONZERO_BYTE, CALLDATA_FLOOR_NONZERO_TOKENS, CALLDATA_FLOOR_TOKEN, TX_BASE.
  rewrite !(sat_mul_eq n), !(sat_mul_eq z), !(sat_mul_eq (n - z)).
  rewrite !sat_add_min2 by lia. rewrite (sat_add_min_r z), sat_mul_min, sat_add_min_r by lia.
  rewrite max_min. f_equal. f_equal; lia.
Qed.

Lemma estimate_applied_exact `{Externals} us external signature :
  small_logs us → 0 <= external → 0 <= signature →
  estimate_applied_payload_gas us external signature =
  Z.min u64_max (exact_bound us external signature).
Proof.
  intros Hs He Hf. unfold estimate_applied_payload_gas.
  assert (sat_add (sat_add (sat_add TX_BASE signature) external) UNBOUNDED_APPLY_BASE_GAS =
    Z.min u64_max (21000 + signature + external + 2000)) as ->
    by (unfold TX_BASE, UNBOUNDED_APPLY_BASE_GAS; u64_lia).
  rewrite fold_price by done. rewrite price_payload_exact; [unfold exact_bound; cbv zeta; reflexivity|].
  pose proof (exact_sum_nonneg exact_price us exact_price_nonneg). lia.
Qed.

Lemma exact_price_count us :
  exact_sum (exact_price <$> us) =
  22100 * (count_if is_plain_store us + count_if is_tracker_store us) +
  exact_sum (exact_log_gas <$> us).
Proof.
  induction us as [|u us IH]; [done|].
  rewrite !fmap_cons, !exact_sum_cons, !count_if_cons, IH.
  destruct u; cbn [exact_price is_plain_store is_tracker_store exact_log_gas]; try lia.
  destruct (store_slot s =? STATE_TRACKER_SLOT); cbn [negb]; lia.
Qed.

Lemma exact_log_gas_nonneg u : 0 <= exact_log_gas u.
Proof. pose proof (exact_price_nonneg u). destruct u; cbn in *; lia. Qed.

(** Every update costs at least 96 bytes of payload. *)
Lemma encoded_size_lower `{Externals} us : 128 + 96 * zlen us <= encoded_size us.
Proof.
  unfold encoded_size. induction us as [|u us IH]; [done|]. cbn [fold_right].
  rewrite zlen_cons. unfold data_size at 1. cbv zeta.
  pose proof (to_word_range (zlen (abi_encode_sequence (update_fields u)))).
  pose proof (zlen_nonneg (abi_encode_sequence (update_fields u))). lia.
Qed.

(** ** Properties *)

(** the gate on a flat payload rejects it exactly when it has a create, naming the first one, or
    when its upper bound exceeds the budget; an accepted payload is summarised by the counts of its
    updates. *)
Theorem validate_unbounded_cost_spec `{Externals} us external signature budget :
  let bound := estimate_applied_payload_gas us external signature in
  validate_unbounded_cost us external signature budget =
  match first_create us with
  | Some i => Err (CreateNotAllowed i)
  | None =>
      if budget <? bound then Err (PayloadTooExpensive bound budget (count_if is_plain_store us))
      else Ok (cost_of us bound)
  end.
Proof. cbn zeta. unfold validate_unbounded_cost. by rewrite validate_false, validate_true. Qed.

(** the gate on the frames of a tree admits creates; a tree it accepts is within budget, and
    every update of it is counted in exactly one class. *)
Theorem validate_unbounded_tree_cost_ok `{Externals} us external create signature budget c :
  validate_unbounded_tree_cost us external create signature budget = Ok c →
  c = cost_of us (estimate_applied_payload_gas us (sat_add external create) signature) ∧
  uc_applied_gas_upper_bound c <= budget ∧
  uc_stores c + uc_tracker_stores c + uc_calls c + uc_logs c + uc_creates c = zlen us.
Proof.
  unfold validate_unbounded_tree_cost. rewrite validate_true. cbn zeta.
  destruct (Z.ltb_spec budget
    (estimate_applied_payload_gas us (sat_add external create) signature)); intros Hc; [done|].
  inv_res. split_and!; [done|done|]. apply count_partition.
Qed.

(** C24: the gate's bound dominates the reporting estimate of the same extraction, whatever the
    signature floor, as long as each store was charged at most a cold set. *)
Theorem applied_bound_dominates_heuristic `{Externals} e signature :
  let us := te_state_updates e in
  small_logs us → 0 <= signature → 0 <= te_call_gas_total e → 0 <= te_create_gas_total e →
  0 <= te_refund_counter e →
  te_sstore_gas_total e <= 22100 * (count_if is_plain_store us + count_if is_tracker_store us) →
  0 <= exact_gross e <= u64_max →
  estimate_gas_from_state_updates e <=
  estimate_applied_payload_gas us (te_call_gas_total e + te_create_gas_total e) signature.
Proof.
  intros us Hlogs Hsig Hcall Hcreate Hrefund Hstores Hgross.
  rewrite estimate_eq_refund by done. rewrite estimate_applied_exact by (done || lia).
  destruct (apply_refund_bounds (exact_gross e) (te_refund_counter e)) as [_ Hr]; [lia|done|].
  assert (exact_gross e <= exact_bound us (te_call_gas_total e + te_create_gas_total e) signature).
  { unfold exact_bound. cbv zeta. etransitivity; [|apply Z.le_max_l].
    rewrite exact_price_count. unfold exact_gross. fold us.
    pose proof (zlen_nonneg (encode_state_updates_to_abi us)). lia. }
  apply Z.min_glb; lia.
Qed.

Lemma applied_bound_dominates_heuristic_witness :
  small_logs (te_state_updates sample_extract) ∧
  estimate_gas_from_state_updates sample_extract <=
  estimate_applied_payload_gas (te_state_updates sample_extract) (700 + 0) 250000.
Proof.
  assert (Hs : small_logs (te_state_updates sample_extract)) by (repeat constructor).
  split; [exact Hs|].
  apply (applied_bound_dominates_heuristic sample_extract 250000); [exact Hs|..]; by_compute.
Defined.

Lemma validate_unbounded_tree_cost_ok_witness :
  ∃ c, validate_unbounded_tree_cost [UStore (mkStore 1 2); UCreate (mkCreate 0 [])] 700 32000
         50000 UNBOUNDED_PAYLOAD_GAS_BUDGET = Ok c ∧
    uc_stores c + uc_tracker_stores c + uc_calls c + uc_logs c + uc_creates c = 2.
Proof.
  eexists. split; [vm_compute; reflexivity|].
  eapply (validate_unbounded_tree_cost_ok [UStore (mkStore 1 2); UCreate (mkCreate 0 [])] 700 32000
         50000 UNBOUNDED_PAYLOAD_GAS_BUDGET).
  vm_compute. reflexivity.
Defined.

(** no payload the unbounded profile's budget accepts writes more than 703 slots. *)
Theorem unbounded_budget_store_limit `{Externals} us external signature c :
  small_logs us → 0 <= external → 0 <= signature →
  validate_unbounded_cost us external signature UNBOUNDED_PAYLOAD_GAS_BUDGET = Ok c →
  uc_stores c + uc_tracker_stores c <= 703.
Proof.
  intros Hlogs He Hsig. unfold validate_unbounded_cost. rewrite validate_false.
  destruct (first_create us); [done|]. rewrite validate_true. cbn zeta.
  rewrite estimate_applied_exact by done.
  change UNBOUNDED_PAYLOAD_GAS_BUDGET with 16777216.
  destruct (Z.ltb_spec 16777216 (Z.min u64_max (exact_bound us external signature)))
    as [|Hle]; intros Hc; [done|].
  inv_res. cbn [uc_stores uc_tracker_stores cost_of].
  assert (exact_bound us external signature <= 16777216) as Hb by (revert Hle; u64_lia).
  unfold exact_bound in Hb. cbv zeta in Hb.
  rewrite exact_price_count, calldata_split in Hb.
  pose proof (count_zero_bytes_bounds (encode_state_updates_to_abi us)) as Hz.
  pose proof (encoded_size_lower us) as Hlow. rewrite <-zlen_encode in Hlow.
  pose proof (exact_sum_nonneg exact_log_gas us exact_log_gas_nonneg) as Hl.
  pose proof (count_partition us) as Hp.
  assert (∀ f, 0 <= count_if f us) as Hn by (intros; apply zlen_nonneg).
  pose proof (Hn is_call). pose proof (Hn is_log). pose proof (Hn is_create). lia.
Qed.

Lemma unbounded_budget_store_limit_witness :
  ∃ c, validate_unbounded_cost [UStore (mkStore 1 2)] 700 250000 UNBOUNDED_PAYLOAD_GAS_BUDGET
    = Ok c ∧ uc_stores c + uc_tracker_stores c <= 703.
Proof.
  eexists. split; [vm_compute; reflexivity|].
  eapply (unbounded_budget_store_limit [UStore (mkStore 1 2)] 700 250000);
    [repeat constructor|lia|lia|vm_compute; reflexivity].
Defined.
