(* ===== verification/Prestate.v ===== *)
(** * The prestate net form

    [crates/core/src/prestate.rs]: deciding whether a call has a net form, and building it from the
    storage diff and the call tree. The theorems state what the verdict means, that applying the
    stores turns the pre-state into the post-state, and that the logs come out in emission order. *)

From S2P Require Import Prelude.
From S2P Require Import Types.

#[local] Set Warnings "-register-all".

(** ** Tracer outputs *)

Record CallLogFrame := mkCallLogFrame {
  lf_topics : option (list Z);
  lf_data : option (list Z);
  lf_position : option Z;
  lf_index : option Z
}.

Inductive CallFrame : Type := mkCallFrame {
  cf_typ : string;
  cf_to : option Z;
  cf_error : option string;
  cf_revert_reason : option string;
  cf_calls : list CallFrame;
  cf_logs : list CallLogFrame
}.

(** Storage of each account before and after, as [prestateTracer]'s diff mode gives it. *)
Record DiffMode := mkDiffMode {
  dm_pre : gmap Z (gmap Z Z);
  dm_post : gmap Z (gmap Z Z)
}.

(** The fallback messages, as values. *)
Inductive FallbackReason : Type :=
  | RRootTarget (to consumer : Z)
  | RReverted (err : string)
  | RAccountChanged (a : Z)
  | RRegularCall (to : option Z)
  | RCreateAt (typ : string)
  | RSelfdestruct
  | RUnhandled (typ : string).

Inductive PrestateEligibility : Type :=
  | Eligible
  | Fallback (reason : FallbackReason).

(** ** Eligibility *)

Definition frame_failure (frame : CallFrame) : option string :=
  match cf_error frame with Some e => Some e | None => cf_revert_reason frame end.

Definition storage_of (side : gmap Z (gmap Z Z)) (addr : Z) : gmap Z Z :=
  default ∅ (side !! addr).

Definition slot_value (m : gmap Z Z) (k : Z) : Z := default 0 (m !! k).

(** The union of the keys of the two maps, ascending. *)
Definition touched {V} (pre post : gmap Z V) : list Z :=
  set_items (dom pre ∪ dom post).

Definition account_storage_changed (diff : DiffMode) (addr : Z) : bool :=
  let pre := storage_of (dm_pre diff) addr in
  let post := storage_of (dm_post diff) addr in
  existsb (λ k, negb (slot_value pre k =? slot_value post k)) (touched pre post).

(** The [for] loop returns the first reason found. *)
Definition first_reason {A B} (f : A → option B) : list A → option B :=
  fix go (l : list A) : option B :=
    match l with
    | [] => None
    | x :: l => match f x with Some r => Some r | None => go l end
    end.

Fixpoint scan_target_depth (frame : CallFrame) : option FallbackReason :=
  first_reason (λ c,
    match opc_of (cf_typ c) with
    | OP_CALL => Some (RRegularCall (cf_to c))
    | OP_CREATE | OP_CREATE2 => Some (RCreateAt (cf_typ c))
    | OP_SELFDESTRUCT => Some RSelfdestruct
    | OP_DELEGATECALL | OP_CALLCODE => scan_target_depth c
    | OP_STATICCALL => None
    | _ => Some (RUnhandled (cf_typ c))
    end) (cf_calls frame).

Definition classify_prestate_eligibility (frame : CallFrame) (diff : DiffMode) (consumer : Z)
  : PrestateEligibility :=
  let continue :=
    match frame_failure frame with
    | Some err => Fallback (RReverted err)
    | None =>
        match first_reason (λ a,
          if negb (a =? consumer) && account_storage_changed diff a
          then Some (RAccountChanged a) else None) (touched (dm_pre diff) (dm_post diff)) with
        | Some reason => Fallback reason
        | None =>
            match scan_target_depth frame with
            | Some reason => Fallback reason
            | None => Eligible
            end
        end
    end in
  match cf_to frame with
  | Some to => if negb (to =? consumer) then Fallback (RRootTarget to consumer) else continue
  | None => continue
  end.

(** ** Building the program *)

(** [sort_by_key]: a stable sort, here by insertion. *)
Fixpoint insert_by {A} (le : A → A → bool) (x : A) (l : list A) : list A :=
  match l with
  | [] => [x]
  | y :: l' => if le x y then x :: l else y :: insert_by le x l'
  end.

Definition sort_by {A} (le : A → A → bool) (l : list A) : list A := foldr (insert_by le) [] l.

Definition position_of (l : CallLogFrame) : Z := default 0 (lf_position l).
Definition position_le (a b : CallLogFrame) : bool := position_of a <=? position_of b.

(** [Ord] on [Option<u64>]: [None] first. *)
Definition index_le (a b : CallLogFrame) : bool :=
  match lf_index a, lf_index b with
  | None, _ => true
  | Some _, None => false
  | Some i, Some j => i <=? j
  end.

(** The [while] loop that pushes the logs emitted before sub-call [call_idx]. *)
Fixpoint span_before (call_idx : Z) (logs : list CallLogFrame)
  : list CallLogFrame * list CallLogFrame :=
  match logs with
  | l :: logs' =>
      if position_of l <=? call_idx then
        let '(pushed, rest) := span_before call_idx logs' in (l :: pushed, rest)
      else ([], logs)
  | [] => ([], [])
  end.

Definition is_transparent (typ : string) : bool :=
  match opc_of typ with OP_DELEGATECALL | OP_CALLCODE => true | _ => false end.

Fixpoint collect_target_depth_logs (frame : CallFrame) (out : list CallLogFrame)
  : list CallLogFrame :=
  let logs := sort_by position_le (cf_logs frame) in
  (fix go (calls : list CallFrame) (call_idx : Z) (logs out : list CallLogFrame)
     : list CallLogFrame :=
     match calls with
     | [] => out ++ logs
     | c :: calls =>
         let '(pushed, rest) := span_before call_idx logs in
         let out := out ++ pushed in
         let out :=
           if is_transparent (cf_typ c) && bool_decide (frame_failure c = None)
           then collect_target_depth_logs c out else out in
         go calls (call_idx + 1) rest out
     end) (cf_calls frame) 0 logs out.

Definition ordered_target_depth_logs (frame : CallFrame) : list CallLogFrame :=
  let logs := collect_target_depth_logs frame [] in
  if (1 <? length logs)%nat && forallb (λ l, bool_decide (is_Some (lf_index l))) logs
  then sort_by index_le logs else logs.

Definition log_to_update (log : CallLogFrame) : StateUpdate :=
  let data := default [] (lf_data log) in
  match default [] (lf_topics log) with
  | [] => ULog0 (mkLog0 data)
  | [t1] => ULog1 (mkLog1 data t1)
  | [t1; t2] => ULog2 (mkLog2 data t1 t2)
  | [t1; t2; t3] => ULog3 (mkLog3 data t1 t2 t3)
  | t1 :: t2 :: t3 :: t4 :: _ => ULog4 (mkLog4 data t1 t2 t3 t4)
  end.

(** The slot loop of [build_state_updates_from_prestate]. *)
Definition net_stores (pre post : gmap Z Z) : list StateUpdate :=
  flat_map (λ slot,
    let old := slot_value pre slot in
    let new := slot_value post slot in
    if old =? new then [] else [UStore (mkStore slot new)]) (touched pre post).

Definition build_state_updates_from_prestate (consumer : Z) (diff : DiffMode) (frame : CallFrame)
  : list StateUpdate :=
  net_stores (storage_of (dm_pre diff) consumer) (storage_of (dm_post diff) consumer) ++
  (log_to_update <$> ordered_target_depth_logs frame).

(** ** Specification *)

(** The sub-calls at target depth: those of the root frame and of the frames it delegates to. *)
Inductive at_target_depth : CallFrame → CallFrame → Prop :=
  | atd_call frame c : c ∈ cf_calls frame → at_target_depth frame c
  | atd_delegate frame c d :
      c ∈ cf_calls frame → is_transparent (cf_typ c) = true → at_target_depth c d →
      at_target_depth frame d.

(** A sub-call whose only effects are those of target depth, or none. *)
Definition harmless (c : CallFrame) : Prop :=
  opc_of (cf_typ c) = OP_STATICCALL ∨ is_transparent (cf_typ c) = true.

(** An account's storage is the same before and after; absent slots are zero. *)
Definition storage_unchanged (diff : DiffMode) (a : Z) : Prop :=
  ∀ k, slot_value (storage_of (dm_pre diff) a) k = slot_value (storage_of (dm_post diff) a) k.

(** What applying the program's stores does to storage. *)
Definition apply_store (m : gmap Z Z) (u : StateUpdate) : gmap Z Z :=
  match u with UStore s => <[store_slot s := store_value s]> m | _ => m end.
Definition apply_stores (us : list StateUpdate) (m : gmap Z Z) : gmap Z Z :=
  fold_left apply_store us m.

Definition stored_slots (us : list StateUpdate) : list Z :=
  flat_map (λ u, match u with UStore s => [store_slot s] | _ => [] end) us.

(** The frame a tracer reports for what a frame did, in order: logs, and calls to other frames. *)
Inductive Event : Type :=
  | EvLog (l : CallLogFrame)
  | EvCall (typ : string) (to : option Z) (err rev : option string) (body : list Event).

(** The logs of a frame carry the number of sub-calls made before them. *)
Definition at_position (p : Z) (l : CallLogFrame) : CallLogFrame :=
  mkCallLogFrame (lf_topics l) (lf_data l) (Some p) (lf_index l).

Fixpoint event_logs (p : Z) (evs : list Event) : list CallLogFrame :=
  match evs with
  | [] => []
  | EvLog l :: evs => at_position p l :: event_logs p evs
  | EvCall _ _ _ _ _ :: evs => event_logs (p + 1) evs
  end.

Fixpoint event_calls (ev : Event) : list CallFrame :=
  match ev with
  | EvLog _ => []
  | EvCall typ to err rev body =>
      [mkCallFrame typ to err rev (flat_map event_calls body) (event_logs 0 body)]
  end.

Definition frame_of (typ : string) (to : option Z) (err rev : option string) (body : list Event)
  : CallFrame := mkCallFrame typ to err rev (flat_map event_calls body) (event_logs 0 body).

(** The logs of target depth in the order they were emitted, those of failed frames left out. *)
Fixpoint event_emission (p : Z) (ev : Event) : list CallLogFrame :=
  match ev with
  | EvLog l => [at_position p l]
  | EvCall typ _ err rev body =>
      if is_transparent typ && bool_decide (err = None ∧ rev = None) then
        (fix go (p : Z) (evs : list Event) : list CallLogFrame :=
           match evs with
           | [] => []
           | EvLog l :: evs => at_position p l :: go p evs
           | (EvCall _ _ _ _ _ as ev) :: evs => event_emission p ev ++ go (p + 1) evs
           end) 0 body
      else []
  end.

Fixpoint emission (p : Z) (evs : list Event) : list CallLogFrame :=
  match evs with
  | [] => []
  | EvLog l :: evs => at_position p l :: emission p evs
  | (EvCall _ _ _ _ _ as ev) :: evs => event_emission p ev ++ emission (p + 1) evs
  end.

(** The global indices, where every log has one, ascend with emission. *)
Definition indices_consistent (logs : list CallLogFrame) : Prop :=
  Forall (λ l, is_Some (lf_index l)) logs → Sorted (λ a b, index_le a b = true) logs.

(** ** Lemmas on the stores *)

Lemma touched_elem {V} (pre post : gmap Z V) k :
  k ∈ touched pre post ↔ is_Some (pre !! k) ∨ is_Some (post !! k).
Proof. unfold touched. rewrite set_items_elem, elem_of_union, !elem_of_dom. done. Qed.

Lemma touched_sorted {V} (pre post : gmap Z V) : StronglySorted Z.lt (touched pre post).
Proof.
  unfold touched. pose proof (NoDup_set_items (dom pre ∪ dom post)) as Hnd.
  pose proof (set_items_sorted (dom pre ∪ dom post)) as Hs.
  induction Hs as [|x l Hs IH Hall]; [constructor|].
  apply NoDup_cons in Hnd as [Hx Hnd]. constructor; [by apply IH|].
  apply Forall_forall. intros y Hy. rewrite Forall_forall in Hall.
  specialize (Hall _ Hy). assert (x ≠ y) by (by intros ->). lia.
Qed.

Lemma slot_differs_touched (pre post : gmap Z Z) k :
  slot_value pre k ≠ slot_value post k → k ∈ touched pre post.
Proof.
  rewrite touched_elem. unfold slot_value.
  destruct (pre !! k) eqn:?, (post !! k) eqn:?; cbn; eauto. done.
Qed.

Definition store_of (pre post : gmap Z Z) (slot : Z) : list StateUpdate :=
  if slot_value pre slot =? slot_value post slot then []
  else [UStore (mkStore slot (slot_value post slot))].

Lemma apply_net_stores pre post ks m k :
  slot_value (apply_stores (flat_map (store_of pre post) ks) m) k =
  if decide (k ∈ ks ∧ slot_value pre k ≠ slot_value post k)
  then slot_value post k else slot_value m k.
Proof.
  revert m. induction ks as [|x ks IH]; intros m; cbn [flat_map].
  { rewrite decide_False; [done|]. intros [[]%not_elem_of_nil _]. }
  unfold apply_stores. rewrite fold_left_app. fold (apply_stores (store_of pre post x) m).
  fold (apply_stores (flat_map (store_of pre post) ks) (apply_stores (store_of pre post x) m)).
  rewrite IH. unfold store_of.
  destruct (Z.eqb_spec (slot_value pre x) (slot_value post x)) as [Heq|Hne]; cbn.
  - apply decide_ext. rewrite elem_of_cons. split; [tauto|]. intros [[->|?] ?]; [done|tauto].
  - destruct (decide (k = x)) as [->|Hk].
    + rewrite (decide_True (P := x ∈ x :: ks ∧ _)) by (split; [left|]; done).
      assert (slot_value (<[x := slot_value post x]> m) x = slot_value post x) as ->
        by (unfold slot_value at 1; by rewrite lookup_insert_eq).
      by case_decide.
    + assert (slot_value (<[x := slot_value post x]> m) k = slot_value m k) as ->
        by (unfold slot_value; by rewrite lookup_insert_ne).
      apply decide_ext. rewrite elem_of_cons. tauto.
Qed.

Lemma stored_net_stores pre post ks :
  stored_slots (flat_map (store_of pre post) ks) =
  List.filter (λ k, negb (slot_value pre k =? slot_value post k)) ks.
Proof.
  induction ks as [|x ks IH]; [done|]. unfold stored_slots in *. cbn [flat_map List.filter].
  rewrite flat_map_app, IH. unfold store_of. by destruct (_ =? _).
Qed.

Lemma sorted_filter {A} (R : A → A → Prop) f l :
  StronglySorted R l → StronglySorted R (List.filter f l).
Proof.
  induction 1 as [|x l Hs IH Hall]; cbn; [constructor|].
  destruct (f x); [|done]. constructor; [done|].
  apply Forall_forall. intros y Hy. rewrite list_elem_of_In, filter_In, <-list_elem_of_In in Hy.
  rewrite Forall_forall in Hall. by apply Hall, Hy.
Qed.

(** ** Lemmas on eligibility *)

Lemma frame_failure_None frame :
  frame_failure frame = None ↔ cf_error frame = None ∧ cf_revert_reason frame = None.
Proof. unfold frame_failure. destruct (cf_error frame); split; try done; by intros []. Qed.

Lemma first_reason_None {A B} (f : A → option B) l :
  first_reason f l = None ↔ ∀ x, x ∈ l → f x = None.
Proof.
  induction l as [|x l IH]; cbn.
  { split; [intros _ x []%not_elem_of_nil|done]. }
  split.
  - destruct (f x) eqn:Hx; [done|]. rewrite IH. intros Hl y [->|Hy]%elem_of_cons; auto.
  - intros Hl. rewrite (Hl x) by by left. apply IH. intros y Hy. apply Hl. by right.
Qed.

Lemma account_storage_changed_false diff a :
  account_storage_changed diff a = false ↔ storage_unchanged diff a.
Proof.
  unfold account_storage_changed, storage_unchanged. cbv zeta.
  set (pre := storage_of (dm_pre diff) a). set (post := storage_of (dm_post diff) a). split.
  - intros Hex k. destruct (decide (slot_value pre k = slot_value post k)) as [|Hne]; [done|].
    exfalso. assert (existsb (λ k, negb (slot_value pre k =? slot_value post k))
      (touched pre post) = true) as Ht; [|congruence].
    apply existsb_exists. exists k. rewrite <-list_elem_of_In. split.
    + by apply slot_differs_touched.
    + by rewrite (proj2 (Z.eqb_neq _ _)).
  - intros Hun. apply not_true_is_false. intros Hex.
    apply existsb_exists in Hex as (k & _ & Hk). by rewrite Hun, Z.eqb_refl in Hk.
Qed.

Section frame_ind.
Variable P : CallFrame → Prop.
Hypothesis Hframe : ∀ typ to err rev calls logs,
  Forall P calls → P (mkCallFrame typ to err rev calls logs).

Fixpoint frame_ind' (f : CallFrame) : P f :=
  match f with
  | mkCallFrame typ to err rev calls logs =>
      Hframe typ to err rev calls logs
        ((fix go (l : list CallFrame) : Forall P l :=
            match l with
            | [] => Forall_nil_2 P
            | c :: l => Forall_cons_2 P c l (frame_ind' c) (go l)
            end) calls)
  end.
End frame_ind.

Lemma scan_target_depth_None frame :
  scan_target_depth frame = None ↔ ∀ c, at_target_depth frame c → harmless c.
Proof.
  induction frame as [typ to err rev calls logs IH] using frame_ind'.
  cbn [scan_target_depth cf_calls]. rewrite first_reason_None.
  rewrite Forall_forall in IH. split.
  - intros Hscan c Hc. unfold harmless, is_transparent.
    assert (∀ d, d ∈ calls → opc_of (cf_typ d) = OP_STATICCALL ∨
      is_transparent (cf_typ d) = true ∧ scan_target_depth d = None) as Hd.
    { intros d Hd. specialize (Hscan d Hd). unfold is_transparent.
      destruct (opc_of (cf_typ d)); try discriminate Hscan; auto. }
    inversion Hc as [? ? Hin|? e ? Hin Htr Hat]; subst; cbn [cf_calls] in Hin.
    + destruct (Hd c Hin) as [|[? _]]; auto.
    + destruct (Hd e Hin) as [Hs|[_ Hnone]].
      * unfold is_transparent in Htr. by rewrite Hs in Htr.
      * by apply (proj1 (IH e Hin) Hnone).
  - intros Hall c Hin.
    assert (harmless c) as Hc by (apply Hall; by constructor).
    unfold harmless, is_transparent in Hc.
    destruct (opc_of (cf_typ c)) eqn:Hop; try done; try (by destruct Hc).
    all: apply IH; [done|]; intros d Hd; apply Hall; eapply atd_delegate; [done| |done];
      unfold is_transparent; by rewrite Hop.
Qed.

Lemma verdict_eligible {A B C} (o1 : option A) (o2 : option B) (o3 : option C) f g h :
  match o1 with
  | Some x => Fallback (f x)
  | None =>
      match o2 with
      | Some y => Fallback (g y)
      | None => match o3 with Some z => Fallback (h z) | None => Eligible end
      end
  end = Eligible ↔ o1 = None ∧ o2 = None ∧ o3 = None.
Proof. destruct o1, o2, o3; split; try done; by intros (?&?&?). Qed.

(** ** Properties of the stores and of eligibility *)

(** C23: applying the stores of the net form to the consumer's pre-state gives its post-state, slot
    for slot, and there is one store per changed slot, in ascending slot order. *)
Theorem net_stores_reach_post pre post :
  let us := net_stores pre post in
  (∀ k, slot_value (apply_stores us pre) k = slot_value post k) ∧
  (∀ k, k ∈ stored_slots us ↔ slot_value pre k ≠ slot_value post k) ∧
  StronglySorted Z.lt (stored_slots us).
Proof.
  cbn zeta. change (net_stores pre post) with
    (flat_map (store_of pre post) (touched pre post)). split_and!.
  - intros k. rewrite apply_net_stores. case_decide as Hk; [done|].
    destruct (decide (slot_value pre k = slot_value post k)) as [|Hne]; [done|].
    exfalso. apply Hk. split; [by apply slot_differs_touched|done].
  - intros k. rewrite stored_net_stores, list_elem_of_In, filter_In, <-list_elem_of_In.
    rewrite negb_true_iff, Z.eqb_neq. split; [by intros [_ ?]|].
    intros Hne. split; [by apply slot_differs_touched|done].
  - rewrite stored_net_stores. apply sorted_filter, touched_sorted.
Qed.

(** a call is eligible for the net form exactly when its root frame is the consumer's (or has
    no target), it succeeded, no other account's storage changed, and every sub-call at target depth
    is a static call or delegated. *)
Theorem classify_prestate_eligibility_spec frame diff consumer :
  classify_prestate_eligibility frame diff consumer = Eligible ↔
  (∀ to, cf_to frame = Some to → to = consumer) ∧
  (cf_error frame = None ∧ cf_revert_reason frame = None) ∧
  (∀ a, a ≠ consumer → storage_unchanged diff a) ∧
  (∀ c, at_target_depth frame c → harmless c).
Proof.
  rewrite <-scan_target_depth_None. unfold classify_prestate_eligibility.
  set (accounts := first_reason _ _).
  assert (accounts = None ↔ ∀ a, a ≠ consumer → storage_unchanged diff a) as Hacc.
  { subst accounts. rewrite first_reason_None. split.
    - intros Hall a Ha. apply account_storage_changed_false.
      destruct (decide (a ∈ touched (dm_pre diff) (dm_post diff))) as [Hin|Hout].
      + specialize (Hall a Hin). rewrite (proj2 (Z.eqb_neq _ _)) in Hall by done. cbn in Hall.
        by destruct (account_storage_changed diff a).
      + apply account_storage_changed_false. rewrite touched_elem in Hout.
        unfold storage_unchanged, storage_of. intros k.
        destruct (dm_pre diff !! a), (dm_post diff !! a); cbn; eauto; exfalso; eauto.
    - intros Hall a _. destruct (Z.eqb_spec a consumer); cbn; [done|].
      by rewrite (proj2 (account_storage_changed_false diff a) (Hall a n)). }
  rewrite <-Hacc.
  rewrite <-frame_failure_None.
  destruct (cf_to frame) as [to|].
  - destruct (Z.eqb_spec to consumer) as [->|Hto]; cbn [negb].
    + rewrite verdict_eligible. split; [|tauto]. intros H. split; [by intros ? [=]|done].
    + split; [done|]. intros [Heq _]. exfalso. by apply Hto, Heq.
  - rewrite verdict_eligible. split; [|tauto]. intros H. split; [done|done].
Qed.

(** ** Lemmas on the order of logs *)

Lemma insert_by_le {A} (le : A → A → bool) x l :
  Forall (λ y, le x y = true) l → insert_by le x l = x :: l.
Proof. destruct 1 as [|y l Hy Hl]; cbn; [done|]. by rewrite Hy. Qed.

(** A stable sort leaves a sorted list as it is. *)
Lemma sort_by_sorted {A} (le : A → A → bool) l :
  StronglySorted (λ a b, le a b = true) l → sort_by le l = l.
Proof.
  induction 1 as [|x l Hs IH Hall]; cbn; [done|]. unfold sort_by in IH. rewrite IH.
  by apply insert_by_le.
Qed.

Lemma insert_by_Permutation {A} (le : A → A → bool) x l : insert_by le x l ≡ₚ x :: l.
Proof.
  induction l as [|y l IH]; cbn; [done|]. destruct (le x y); [done|]. rewrite IH. constructor.
Qed.

Lemma sort_by_Permutation {A} (le : A → A → bool) l : sort_by le l ≡ₚ l.
Proof.
  induction l as [|x l IH]; [done|]. cbn. rewrite insert_by_Permutation. by constructor.
Qed.

Lemma event_logs_ge evs : ∀ p, Forall (λ l, p <= position_of l) (event_logs p evs).
Proof.
  induction evs as [|[l|typ to err rev body] evs IH]; intros p; cbn; [constructor| |].
  - constructor; [cbn; lia|apply IH].
  - eapply Forall_impl; [apply IH|]. cbn; lia.
Qed.

Lemma event_logs_sorted evs : ∀ p,
  StronglySorted (λ a b, position_le a b = true) (event_logs p evs).
Proof.
  induction evs as [|[l|typ to err rev body] evs IH]; intros p; cbn; [constructor| |apply IH].
  constructor; [apply IH|]. eapply Forall_impl; [apply event_logs_ge|].
  intros x Hx. unfold position_le. cbn. by apply Z.leb_le.
Qed.

Lemma span_event_logs evs : ∀ p,
  span_before p (event_logs (p + 1) evs) = ([], event_logs (p + 1) evs).
Proof.
  intros p. pose proof (event_logs_ge evs (p + 1)) as Hge.
  destruct Hge as [|l ls Hl _]; cbn; [done|].
  by rewrite (proj2 (Z.leb_gt _ _)) by lia.
Qed.

(** The loop of [collect_target_depth_logs], over the sub-calls that are left. *)
Fixpoint collect_loop (calls : list CallFrame) (call_idx : Z) (logs out : list CallLogFrame)
  : list CallLogFrame :=
  match calls with
  | [] => out ++ logs
  | c :: calls =>
      let '(pushed, rest) := span_before call_idx logs in
      let out := out ++ pushed in
      let out :=
        if is_transparent (cf_typ c) && bool_decide (frame_failure c = None)
        then collect_target_depth_logs c out else out in
      collect_loop calls (call_idx + 1) rest out
  end.

Lemma collect_eq frame out :
  collect_target_depth_logs frame out =
  collect_loop (cf_calls frame) 0 (sort_by position_le (cf_logs frame)) out.
Proof.
  destruct frame as [typ to err rev calls logs]. cbn [collect_target_depth_logs cf_calls cf_logs].
  generalize 0 as i. generalize (sort_by position_le logs) as ls. revert out.
  induction calls as [|c calls IH]; intros out ls i; [done|]. cbn [collect_loop].
  destruct (span_before i ls). apply IH.
Qed.

(** Logs emitted before the next sub-call are pushed by the next iteration. *)
Lemma collect_loop_log l evs calls p out :
  collect_loop calls p (at_position p l :: event_logs p evs) out =
  collect_loop calls p (event_logs p evs) (out ++ [at_position p l]).
Proof.
  destruct calls as [|c calls]; cbn [collect_loop span_before].
  { by rewrite <-app_assoc. }
  cbn [position_of lf_position at_position default]. rewrite Z.leb_refl.
  destruct (span_before p (event_logs p evs)) as [pushed rest]. by rewrite <-app_assoc.
Qed.

Section event_ind.
Variable P : Event → Prop.
Hypothesis Hlog : ∀ l, P (EvLog l).
Hypothesis Hcall : ∀ typ to err rev body, Forall P body → P (EvCall typ to err rev body).

Fixpoint event_ind' (ev : Event) : P ev :=
  match ev with
  | EvLog l => Hlog l
  | EvCall typ to err rev body =>
      Hcall typ to err rev body
        ((fix go (l : list Event) : Forall P l :=
            match l with
            | [] => Forall_nil_2 P
            | e :: l => Forall_cons_2 P e l (event_ind' e) (go l)
            end) body)
  end.
End event_ind.

Lemma event_emission_call p typ to err rev body :
  event_emission p (EvCall typ to err rev body) =
  if is_transparent typ && bool_decide (err = None ∧ rev = None) then emission 0 body else [].
Proof.
  cbn [event_emission].
  assert (∀ q, (fix go (p : Z) (evs : list Event) : list CallLogFrame :=
     match evs with
     | [] => []
     | EvLog l :: evs => at_position p l :: go p evs
     | (EvCall _ _ _ _ _ as ev) :: evs => event_emission p ev ++ go (p + 1) evs
     end) q body = emission q body) as ->; [|done].
  induction body as [|[l|t o e r b] body IH]; intros q; cbn [emission]; [done|by rewrite IH|].
  by rewrite IH.
Qed.

Lemma collect_events_of evs :
  Forall (λ ev, match ev with
    | EvLog _ => True
    | EvCall typ to err rev body => ∀ out,
        collect_target_depth_logs (frame_of typ to err rev body) out = out ++ emission 0 body
    end) evs → ∀ p out,
  collect_loop (flat_map event_calls evs) p (event_logs p evs) out = out ++ emission p evs.
Proof.
  induction 1 as [|[l|typ to err rev body] evs Hev Hevs IH]; intros p out.
  - done.
  - cbn [flat_map event_calls app event_logs emission].
    rewrite collect_loop_log, IH. by rewrite <-app_assoc.
  - cbn [flat_map event_calls app event_logs emission].
    change (mkCallFrame typ to err rev (flat_map event_calls body) (event_logs 0 body)) with
      (frame_of typ to err rev body).
    cbn [collect_loop]. rewrite span_event_logs, app_nil_r, event_emission_call.
    assert (bool_decide (frame_failure (frame_of typ to err rev body) = None) =
      bool_decide (err = None ∧ rev = None)) as ->.
    { apply bool_decide_ext, frame_failure_None. }
    cbn [frame_of cf_typ].
    destruct (is_transparent typ && bool_decide (err = None ∧ rev = None)).
    + fold (frame_of typ to err rev body). rewrite Hev, IH. by rewrite <-app_assoc.
    + by rewrite IH.
Qed.

Lemma collect_event ev :
  match ev with
  | EvLog _ => True
  | EvCall typ to err rev body => ∀ out,
      collect_target_depth_logs (frame_of typ to err rev body) out = out ++ emission 0 body
  end.
Proof.
  induction ev as [l|typ to err rev body IH] using event_ind'; [done|]. intros out.
  rewrite collect_eq. cbn [frame_of cf_calls cf_logs].
  rewrite sort_by_sorted by apply event_logs_sorted. by apply collect_events_of.
Qed.

(** ** Properties of the logs *)

(** from the frame a tracer reports for a call that did [evs], the net form takes the logs of
    the frame and of the successful frames it delegates to, in the order they were emitted. *)
Theorem ordered_target_depth_logs_emission typ to err rev evs :
  indices_consistent (emission 0 evs) →
  ordered_target_depth_logs (frame_of typ to err rev evs) = emission 0 evs.
Proof.
  intros Hidx. unfold ordered_target_depth_logs.
  rewrite (collect_event (EvCall typ to err rev evs)). cbn [app].
  destruct (_ && _) eqn:Hall; [|done].
  apply andb_true_iff in Hall as [_ Hall].
  apply sort_by_sorted, Sorted_StronglySorted.
  - intros a b c. unfold index_le.
    destruct (lf_index a), (lf_index b), (lf_index c); try done.
    rewrite !Z.leb_le. lia.
  - apply Hidx. rewrite forallb_forall in Hall. apply Forall_forall. intros x Hx.
    apply (bool_decide_unpack _), Is_true_true, Hall. by apply list_elem_of_In.
Qed.

Definition sample_event_log (data index : Z) : Event :=
  EvLog (mkCallLogFrame (Some [9]) (Some [data]) None (Some index)).

Definition sample_events : list Event := [
  sample_event_log 1 0;
  EvCall "DELEGATECALL" None None None [sample_event_log 2 1; EvCall "STATICCALL" None None None []];
  EvCall "DELEGATECALL" None (Some "out of gas"%string) None [sample_event_log 7 2];
  sample_event_log 3 2 ].

Lemma ordered_target_depth_logs_emission_witness :
  indices_consistent (emission 0 sample_events) ∧
  log_to_update <$> ordered_target_depth_logs (frame_of "CALL" None None None sample_events) =
  [ULog1 (mkLog1 [1] 9); ULog1 (mkLog1 [2] 9); ULog1 (mkLog1 [3] 9)].
Proof.
  assert (indices_consistent (emission 0 sample_events)) as H.
  { intros _. repeat constructor. }
  split; [exact H|].
  rewrite (ordered_target_depth_logs_emission "CALL" None None None sample_events H). done.
Defined.
