(* ===== verification/Merkle.v ===== *)
(** * Leaves and the Merkle tree

    The first section of [crates/core/src/nested.rs]: the leaves the quorum signs, the commutative
    pair hash, the tree over the leaves in execution order and its proofs. The theorems show that
    every proof produced is accepted by OpenZeppelin's [MerkleProof] against the root, how long proofs
    are, and that the string a leaf is the hash of determines every field it is computed from. *)

From S2P Require Import Prelude.
From S2P Require Import Types.
From S2P Require Import Instances.

(** ** Leaves *)

Definition NESTED_LEAF_TAG : Z :=
  0x292ca629b989c44a85e556e7c24acc26f9ab093b2b23c689f951e91718228c18.
Definition EXPIRY_LEAF_TAG : Z :=
  0xc5763e3656f5ee85e7416218ca476fe6364ba9f67d13b29c7331d1d1131dd88a.
Definition FRAME_MODE : Z := 0.

Definition sha256 `{Externals} (data : list Z) : Z := sha256_digest data.

Definition root_leaf_fields (transition_index target selector : Z) (program : list Z) (value : Z)
  : list AbiValue :=
  if value =? 0 then
    [AUint 256 transition_index; AAddress target; AFixedBytes 4 selector; ABytes program]
  else
    [AUint 256 transition_index; AAddress target; AFixedBytes 4 selector; ABytes program;
     AUint 256 value].

Definition root_leaf `{Externals} (transition_index target selector : Z) (program : list Z)
  (value : Z) : Z :=
  sha256 (abi_encode_sequence (root_leaf_fields transition_index target selector program value)).

(** [struct NestedLeafPreimage]. *)
Definition nested_leaf_fields (chain_id target transition_index caller value calldata_hash : Z)
  (program : list Z) : list AbiValue :=
  [AFixedBytes 32 NESTED_LEAF_TAG; AUint 256 chain_id; AAddress target;
   AUint 256 transition_index; AAddress caller; AUint 256 value; AFixedBytes 32 calldata_hash;
   AUint 8 FRAME_MODE; ABytes program].

Definition nested_leaf `{Externals}
  (chain_id target transition_index caller value calldata_hash : Z) (program : list Z) : Z :=
  sha256 (abi_encode_sequence
    (nested_leaf_fields chain_id target transition_index caller value calldata_hash program)).

Definition expiry_leaf `{Externals} (chain_id root_contract expiry_block : Z) : Z :=
  sha256 (abi_encode_sequence
    [AFixedBytes 32 EXPIRY_LEAF_TAG; AUint 256 chain_id; AAddress root_contract;
     AUint 256 expiry_block]).

(** ** The tree *)

Definition hash_pair `{Externals} (a b : Z) : Z :=
  let '(lo, hi) := if a <? b then (a, b) else (b, a) in
  keccak256 (be_bytes 32 lo ++ be_bytes 32 hi).

Fixpoint up `{Externals} (level : list Z) : list Z :=
  match level with
  | a :: b :: rest => hash_pair a b :: up rest
  | [a] => [a]
  | [] => []
  end.

(** The [while level.len() > 1] loops; a level of [n] nodes is done in [n] rounds. *)
Fixpoint root_loop `{Externals} (fuel : nat) (level : list Z) : list Z :=
  match fuel with
  | O => level
  | S fuel => if (1 <? length level)%nat then root_loop fuel (up level) else level
  end.

Definition merkle_root `{Externals} (leaves : list Z) : Result Z :=
  match leaves with
  | [] => Err ENoLeaf
  | _ => expect (root_loop (length leaves) leaves !! 0%nat) "index out of bounds"
  end.

Fixpoint proof_loop `{Externals} (fuel : nat) (level : list Z) (index : nat) (proof : list Z)
  : list Z :=
  match fuel with
  | O => proof
  | S fuel =>
      if (1 <? length level)%nat then
        let proof :=
          match level !! Nat.lxor index 1 with
          | Some sibling => proof ++ [sibling]
          | None => proof
          end in
        proof_loop fuel (up level) (index / 2) proof
      else proof
  end.

Definition merkle_proof `{Externals} (leaves : list Z) (index : nat) : Result (list Z) :=
  if (length leaves <=? index)%nat then Err (ELeafOutside index (length leaves))
  else Ok (proof_loop (length leaves) leaves index []).

(** ** Specification *)

(** OpenZeppelin's [MerkleProof.processProof]: what the settlement contract computes. *)
Definition process_proof `{Externals} (proof : list Z) (leaf : Z) : Z :=
  fold_left hash_pair proof leaf.

(** The node above the one at [index]. *)
Definition parent_node `{Externals} (level : list Z) (index : nat) (x : Z) : Z :=
  match level !! Nat.lxor index 1 with Some s => hash_pair x s | None => x end.

(** ** Lemmas *)

Section merkle.
Context `{Externals}.

Lemma hash_pair_comm a b : hash_pair a b = hash_pair b a.
Proof.
  unfold hash_pair. destruct (Z.ltb_spec a b), (Z.ltb_spec b a); try done; try lia.
  by replace a with b by lia.
Qed.

Lemma list_ind2 (P : list Z → Prop) :
  P [] → (∀ a, P [a]) → (∀ a b l, P l → P (a :: b :: l)) → ∀ l, P l.
Proof.
  intros H0 H1 H2. fix IH 1. intros [|a [|b l]]; [exact H0|apply H1|]. apply H2, IH.
Qed.

Lemma length_up level : length (up level) = Nat.div2 (S (length level)).
Proof. induction level as [| |a b l IH] using list_ind2; cbn in *; congruence. Qed.

Lemma lxor_1 i : Nat.lxor i 1 = (2 * Nat.div2 i + Nat.b2n (negb (Nat.odd i)))%nat.
Proof.
  rewrite (Nat.div2_odd (Nat.lxor i 1)). f_equal.
  - rewrite !Nat.div2_spec, Nat.shiftr_lxor. change (Nat.shiftr 1 1) with 0%nat.
    by rewrite Nat.lxor_0_r.
  - rewrite <-!Nat.bit0_odd, Nat.lxor_spec. by destruct (Nat.testbit i 0).
Qed.

Lemma lxor_1_SS i : Nat.lxor (S (S i)) 1 = S (S (Nat.lxor i 1)).
Proof. rewrite !lxor_1. cbn [Nat.div2]. rewrite Nat.odd_succ_succ. lia. Qed.

Lemma up_lookup level i x :
  level !! i = Some x → up level !! (i / 2)%nat = Some (parent_node level i x).
Proof.
  revert i. induction level as [|a|a b l IH] using list_ind2; intros i Hi.
  - by rewrite lookup_nil in Hi.
  - destruct i as [|i]; [by injection Hi as ->|]. discriminate Hi.
  - destruct i as [|[|i]].
    + cbn in Hi. by injection Hi as ->.
    + cbn in Hi. injection Hi as ->. cbn. unfold parent_node; cbn. by rewrite hash_pair_comm.
    + cbn [lookup list_lookup] in Hi.
      replace (S (S i) / 2)%nat with (S (i / 2))
        by (replace (S (S i)) with (i + 1 * 2)%nat by lia; rewrite Nat.div_add by lia; lia).
      unfold parent_node. rewrite lxor_1_SS. cbn. by apply IH.
Qed.

Lemma length_up_lt level : (1 < length level)%nat → (length (up level) < length level)%nat.
Proof.
  intros Hl. rewrite length_up, Nat.div2_div. apply Nat.Div0.div_lt_upper_bound; lia.
Qed.

Lemma length_up_pos level : (0 < length level)%nat → (0 < length (up level))%nat.
Proof. rewrite length_up. destruct (length level) as [|[|n]]; cbn; lia. Qed.

(** Any fuel of at least the number of nodes reaches the root. *)
Lemma root_loop_one fuel level :
  (length level ≤ fuel)%nat → level ≠ [] → length (root_loop fuel level) = 1%nat.
Proof.
  revert level. induction fuel as [|fuel IH]; intros level Hf Hne; cbn [root_loop].
  { destruct level; [done|cbn in Hf; lia]. }
  destruct (Nat.ltb_spec 1 (length level)) as [Hl|Hl].
  - apply IH; [pose proof (length_up_lt level Hl); lia|].
    pose proof (length_up_pos level ltac:(lia)). by intros Hup; rewrite Hup in *; cbn in *; lia.
  - destruct level as [|? [|]]; cbn in *; [done|done|lia].
Qed.

Lemma proof_loop_acc fuel level i proof :
  proof_loop fuel level i proof = proof ++ proof_loop fuel level i [].
Proof.
  revert level i proof. induction fuel as [|fuel IH]; intros level i proof; cbn [proof_loop];
    [by rewrite app_nil_r|].
  destruct (1 <? length level)%nat; [|by rewrite app_nil_r].
  destruct (level !! Nat.lxor i 1) as [s|]; [|apply IH].
  rewrite IH, (IH _ _ [s]). cbn. by rewrite <-app_assoc.
Qed.

(** Following the proof from a node reaches the root of its level. *)
Lemma proof_loop_root fuel level i x :
  (length level ≤ fuel)%nat → level !! i = Some x →
  root_loop fuel level !! 0%nat = Some (process_proof (proof_loop fuel level i []) x).
Proof.
  revert level i x. induction fuel as [|fuel IH]; intros level i x Hf Hx; cbn [root_loop proof_loop].
  { destruct level; [by rewrite lookup_nil in Hx|cbn in Hf; lia]. }
  destruct (Nat.ltb_spec 1 (length level)) as [Hl|Hl].
  - pose proof (up_lookup level i x Hx) as Hup. unfold parent_node in Hup.
    rewrite (IH (up level) (i / 2)%nat _ ltac:(pose proof (length_up_lt level Hl); lia) Hup).
    destruct (level !! Nat.lxor i 1) as [s|]; [|done].
    by rewrite (proof_loop_acc _ _ _ [s]).
  - apply lookup_lt_Some in Hx as Hi. destruct level as [|a [|]]; cbn in *; [lia| |lia].
    destruct i; [|lia]. by injection Hx as ->.
Qed.

Lemma proof_loop_length fuel level i k :
  (length level ≤ 2 ^ k)%nat → (length (proof_loop fuel level i []) ≤ k)%nat.
Proof.
  revert level i k. induction fuel as [|fuel IH]; intros level i k Hk; cbn [proof_loop]; [cbn; lia|].
  destruct (Nat.ltb_spec 1 (length level)) as [Hl|Hl]; [|cbn; lia].
  destruct k as [|k]; [cbn in Hk; lia|].
  assert (length (proof_loop fuel (up level) (i / 2) []) ≤ k)%nat as Hrec.
  { apply IH. rewrite length_up, Nat.div2_div. rewrite Nat.pow_succ_r' in Hk.
    apply Nat.lt_succ_r, Nat.Div0.div_lt_upper_bound; lia. }
  destruct (level !! Nat.lxor i 1) as [s|]; [|lia].
  cbn [app]. rewrite (proof_loop_acc _ _ _ [s]), length_app. cbn [length]. lia.
Qed.

Lemma merkle_root_eq leaves r :
  root_loop (length leaves) leaves !! 0%nat = Some r → leaves ≠ [] → merkle_root leaves = Ok r.
Proof. intros Hr Hne. unfold merkle_root. destruct leaves; [done|]. by rewrite Hr. Qed.

(** The root, the proof and their agreement, for any leaf of the tree. *)
Lemma proof_reaches_root leaves i leaf :
  leaves !! i = Some leaf →
  ∃ proof, merkle_proof leaves i = Ok proof ∧ merkle_root leaves = Ok (process_proof proof leaf).
Proof.
  intros Hi. pose proof (lookup_lt_Some _ _ _ Hi) as Hlt.
  exists (proof_loop (length leaves) leaves i []). split.
  - unfold merkle_proof. by rewrite (proj2 (Nat.leb_gt _ _)) by lia.
  - apply merkle_root_eq; [by apply proof_loop_root|]. by intros ->.
Qed.

(** ** Properties *)

(** for every leaf of a tree the root exists, the proof of the leaf is produced, and
    OpenZeppelin's verification of that proof arrives at the root. *)
Theorem merkle_proof_verifies leaves i leaf :
  leaves !! i = Some leaf →
  ∃ root proof, merkle_root leaves = Ok root ∧ merkle_proof leaves i = Ok proof ∧
    process_proof proof leaf = root.
Proof.
  intros Hi. destruct (proof_reaches_root leaves i leaf Hi) as (proof & Hp & Hr).
  by exists (process_proof proof leaf), proof.
Qed.

(** a tree of at most [2 ^ k] leaves has proofs of at most [k] nodes, and asking for a leaf
    outside the tree, or the root of no leaves, is an error. *)
Theorem merkle_proof_length leaves i k :
  (length leaves ≤ 2 ^ k)%nat →
  match merkle_proof leaves i with
  | Ok proof => (i < length leaves)%nat ∧ (length proof ≤ k)%nat
  | Err e => e = ELeafOutside i (length leaves) ∧ (length leaves ≤ i)%nat
  | Panic _ => False
  end ∧ merkle_root [] = Err ENoLeaf.
Proof.
  intros Hk. split; [|done]. unfold merkle_proof.
  destruct (Nat.leb_spec (length leaves) i); [done|]. split; [done|].
  by apply proof_loop_length.
Qed.

(** What the leaf of a callee hashes. *)
Definition nested_preimage (chain target index caller value hash : Z) (program : list Z) : list Z :=
  abi_encode_sequence (nested_leaf_fields chain target index caller value hash program).

(** a callee's leaf binds the chain, the target, its transition index, the signed caller, the
    value, the calldata hash and the program: it hashes a string that determines them, so that equal
    leaves have equal fields unless these two strings, being different, have one hash. *)
Theorem nested_leaf_binds `{!AbiLaws} c1 t1 i1 r1 v1 h1 p1 c2 t2 i2 r2 v2 h2 p2 :
  Forall abi_wf (nested_leaf_fields c1 t1 i1 r1 v1 h1 p1) →
  Forall abi_wf (nested_leaf_fields c2 t2 i2 r2 v2 h2 p2) →
  nested_leaf c1 t1 i1 r1 v1 h1 p1 = sha256 (nested_preimage c1 t1 i1 r1 v1 h1 p1) ∧
  (nested_preimage c1 t1 i1 r1 v1 h1 p1 = nested_preimage c2 t2 i2 r2 v2 h2 p2 →
   c1 = c2 ∧ t1 = t2 ∧ i1 = i2 ∧ r1 = r2 ∧ v1 = v2 ∧ h1 = h2 ∧ p1 = p2).
Proof.
  intros Hw1 Hw2. split; [done|]. intros Heq.
  apply abi_encode_sequence_inj in Heq as Hf; [|done..].
  unfold nested_leaf_fields in Hf. injection Hf as -> -> -> -> -> -> ->. done.
Qed.
End merkle.

Lemma merkle_proof_verifies_witness :
  ∃ root proof, merkle_root [5; 3; 9] = Ok root ∧ merkle_proof [5; 3; 9] 1 = Ok proof ∧
    process_proof proof 3 = root.
Proof. apply (merkle_proof_verifies [5; 3; 9] 1 3). reflexivity. Defined.

Lemma merkle_proof_length_witness :
  (length [5; 3; 9] ≤ 2 ^ 2)%nat ∧ merkle_root [] = Err ENoLeaf.
Proof. split; [cbn; lia|]. apply (merkle_proof_length [5; 3; 9] 1 2). cbn. lia. Defined.

Lemma nested_leaf_binds_witness :
  nested_leaf 1 2 3 4 5 6 [7] = sha256 (nested_preimage 1 2 3 4 5 6 [7]) ∧
  (nested_preimage 1 2 3 4 5 6 [7] = nested_preimage 1 2 3 8 5 6 [7] → 4 = 8).
Proof.
  assert (Forall abi_wf (nested_leaf_fields 1 2 3 4 5 6 [7])) as Hw1 by by_compute.
  assert (Forall abi_wf (nested_leaf_fields 1 2 3 8 5 6 [7])) as Hw2 by by_compute.
  destruct (nested_leaf_binds 1 2 3 4 5 6 [7] 1 2 3 8 5 6 [7] Hw1 Hw2) as [Hl Hb].
  split; [exact Hl|]. intros Heq. apply (Hb Heq).
Defined.
