(* ===== verification/Scan.v ===== *)
(** * The candidate scan

    [scan_candidates] of [crates/core/src/nested.rs]: one pass over the struct logs that decides
    which [CALL]s could become nested frames and what transition index the root frame has. Its state
    is a stack of frames, each with the storage context it runs in and the scope its effects count
    towards. [ScanSpec] gives its meaning on execution trees. *)

From S2P Require Import Prelude.
From S2P Require Import Types.
From S2P Require Import SimProfile.

(** ** Data *)

(** [enum Bump]. *)
Inductive Bump : Type :=
  | BUndecided
  | BFirst (index : Z)
  | BDisqualified.

Record Candidate := mkCandidate {
  cand_bump : Bump;
  cand_unsupported_op : bool
}.

(** [enum Scope]: the root program, or the callee of the [CALL] at a log index. *)
Inductive Scope : Type :=
  | SRoot
  | SCall (call : nat).

Record ScanFrame := mkScanFrame {
  sf_depth : Z;
  sf_ctx : option Z;
  sf_scope : option Scope
}.

Record ScanPending := mkScanPending {
  sp_parent_depth : Z;
  sp_ctx : option Z;
  sp_scope : option Scope
}.

(** The mutable locals; the top of [frames] is its head. *)
Record ScanState := mkScanState {
  ss_candidates : gmap nat Candidate;
  ss_root_index : option Z;
  ss_frames : list ScanFrame;
  ss_pending : option ScanPending
}.

Definition initial_scan_state (root : Z) : ScanState :=
  mkScanState ∅ None [mkScanFrame 1 (Some root) (Some SRoot)] None.

(** ** The step *)

(** [stack.get(stack.len().wrapping_sub(1 + n))]: the [n]-th item from the top, if any. *)
Definition stack_top (stack : list Z) (n : nat) : option Z :=
  if (S n <=? length stack)%nat then stack !! (length stack - S n)%nat else None.

(** Lines 305-315: the pending frame opens if this log is one deeper; otherwise its [CALL] is no
    candidate. *)
Definition scan_take_pending (s : ScanState) (l : StructLog) : ScanState :=
  let 'mkScanState cands root_index frames pending := s in
  match pending with
  | Some p =>
      if sl_depth l =? sp_parent_depth p + 1 then
        mkScanState cands root_index (mkScanFrame (sl_depth l) (sp_ctx p) (sp_scope p) :: frames)
          None
      else
        match sp_scope p with
        | Some (SCall call) => mkScanState (delete call cands) root_index frames None
        | _ => mkScanState cands root_index frames None
        end
  | None => s
  end.

(** Lines 316-318. *)
Fixpoint scan_pop (depth : Z) (frames : list ScanFrame) : list ScanFrame :=
  match frames with
  | f :: frames' => if depth <? sf_depth f then scan_pop depth frames' else frames
  | [] => []
  end.

Definition set_bump (b : Bump) (c : Candidate) : Candidate :=
  match cand_bump c with
  | BUndecided => mkCandidate b (cand_unsupported_op c)
  | _ => c
  end.

(** Lines 327-360: what the opcode writes. *)
Definition scan_write (i : nat) (scope : option Scope) (stack : list Z) (l : StructLog)
  (cands : gmap nat Candidate) (root_index : option Z)
  : Result (gmap nat Candidate * option Z) :=
  match opc_of (sl_op l) with
  | OP_SSTORE =>
      match stack_top stack 0, stack_top stack 1 with
      | Some slot, Some value =>
          let tracker := slot =? STATE_TRACKER_SLOT in
          match scope with
          | Some SRoot =>
              if tracker && bool_decide (root_index = None)
              then Ok (cands, Some (sat_sub value 1)) else Ok (cands, root_index)
          | Some (SCall call) =>
              let b := if tracker then BFirst (sat_sub value 1) else BDisqualified in
              Ok (alter (set_bump b) call cands, root_index)
          | None => Ok (cands, root_index)
          end
      | _, _ => Err (EShortStack i)
      end
  | OP_TSTORE | OP_SELFDESTRUCT =>
      match scope with
      | Some (SCall call) =>
          Ok (alter (λ c, mkCandidate (cand_bump c) true) call cands, root_index)
      | _ => Ok (cands, root_index)
      end
  | _ => Ok (cands, root_index)
  end.

Definition observable (op : string) : bool :=
  match opc_of op with
  | OP_CALL | OP_STATICCALL | OP_CREATE | OP_CREATE2
  | OP_LOG0 | OP_LOG1 | OP_LOG2 | OP_LOG3 | OP_LOG4 => true
  | _ => false
  end.

(** Lines 362-380: an observable operation before the increment disqualifies the callee. *)
Definition scan_observe (scope : option Scope) (l : StructLog) (cands : gmap nat Candidate)
  : gmap nat Candidate :=
  match scope with
  | Some (SCall call) =>
      if observable (sl_op l) then alter (set_bump BDisqualified) call cands else cands
  | _ => cands
  end.

(** Lines 382-414: the frame the opcode may open. *)
Definition scan_open (i : nat) (ctx : option Z) (scope : option Scope) (stack : list Z)
  (l : StructLog) (cands : gmap nat Candidate) : gmap nat Candidate * option ScanPending :=
  let callee := address_from_word <$> stack_top stack 1 in
  match opc_of (sl_op l) with
  | OP_CALL =>
      (<[i := mkCandidate BUndecided false]> cands,
       Some (mkScanPending (sl_depth l) callee (Some (SCall i))))
  | OP_STATICCALL => (cands, Some (mkScanPending (sl_depth l) callee None))
  | OP_DELEGATECALL | OP_CALLCODE => (cands, Some (mkScanPending (sl_depth l) ctx scope))
  | OP_CREATE | OP_CREATE2 => (cands, Some (mkScanPending (sl_depth l) None None))
  | _ => (cands, None)
  end.

(** The body of the [for] loop. *)
Definition scan_step (s : ScanState) (p : nat * StructLog) : Result ScanState :=
  let '(i, l) := p in
  _ ← bail_if (sl_depth l =? 0) (EZeroDepth i);
  let 'mkScanState cands root_index frames pending := scan_take_pending s l in
  let frames := scan_pop (sl_depth l) frames in
  cur ← expect (head frames) "root frame must remain";
  match sl_error l with
  | Some _ => Ok (mkScanState cands root_index frames None)
  | None =>
      let stack := default [] (sl_stack l) in
      '(cands, root_index) ← scan_write i (sf_scope cur) stack l cands root_index;
      let cands := scan_observe (sf_scope cur) l cands in
      let '(cands, pending) := scan_open i (sf_ctx cur) (sf_scope cur) stack l cands in
      Ok (mkScanState cands root_index frames pending)
  end.

Definition scan_candidates (logs : list StructLog) (root : Z)
  : Result (gmap nat Candidate * option Z) :=
  s ← foldM scan_step (enumerate logs) (initial_scan_state root);
  Ok (ss_candidates s, ss_root_index s).
