(* ===== verification/FrameTree.v ===== *)
(** * The frame-tree walk

    [split_frame_tree] of [crates/core/src/nested.rs]: the walk over a struct-log trace that splits it
    into one program per nested frame with canonical state slices, as a step on an explicit state: the
    stack of open frames (its top is the head of the list), the programs opened so far, and the frame
    the last opcode may open. [WalkSpec], [WalkInv] and [TreeSpec] prove the invariants of the walk. *)

From S2P Require Import Prelude.
From S2P Require Import Types.
From S2P Require Import Trace.
From S2P Require Import SimProfile.
From S2P Require Import Scan.

(** ** Data *)

(** [BTreeMap<Address, BTreeMap<B256, B256>>]. *)
Abbreviation Journal := (gmap Z (gmap Z Z)).

Record ProgramState := mkProgramState {
  ps_target : Z;
  ps_caller : Z;
  ps_value : Z;
  ps_calldata_hash : Z;
  ps_transition_index : option Z;
  ps_parent : option nat;
  ps_updates : option (list StateUpdate);
  ps_children : list nat;
  ps_fallback : option Call;
  ps_dropped : bool;
  ps_native_gas : Z;
  ps_effect_gas : Z;
  ps_child_call_gas : Z;
  ps_direct_call_gas : Z;
  ps_native_callee_gas : Z;
  ps_direct_callee_gas : Z;
  ps_direct_create_gas : Z;
  ps_pruned : bool
}.

Record WalkFrame := mkWalkFrame {
  wf_depth : Z;
  wf_storage_ctx : option Z;
  wf_program : option nat;
  wf_journal : Journal;
  wf_out : list StateUpdate;
  wf_call_gas : Z;
  wf_callee_gas : Z;
  wf_create_gas : Z;
  wf_entry_gas : Z;
  wf_call_gas_cost : Z;
  wf_emitted_view : gmap Z Z;
  wf_emitted_call_gas : option Z;
  wf_emitted_create : bool;
  wf_nested_start_gas : option Z;
  wf_first_program : nat
}.

Record PendingFrame := mkPendingFrame {
  pf_parent_depth : Z;
  pf_storage_ctx : option Z;
  pf_program : option nat;
  pf_emitted_view : gmap Z Z;
  pf_emitted_call_gas : option Z;
  pf_emitted_create : bool;
  pf_nested_start_gas : option Z;
  pf_call_gas_cost : Z
}.

(** The mutable locals of the walk. *)
Record SplitState := mkSplitState {
  sp_programs : list ProgramState;
  sp_frames : list WalkFrame;
  sp_pending : option PendingFrame;
  sp_skipped_opcodes : gset string
}.

(** Field updates. *)
Definition set_wf_journal (v : Journal) (x : WalkFrame) : WalkFrame :=
  mkWalkFrame (wf_depth x) (wf_storage_ctx x) (wf_program x) v (wf_out x) (wf_call_gas x)
    (wf_callee_gas x) (wf_create_gas x) (wf_entry_gas x) (wf_call_gas_cost x) (wf_emitted_view
    x) (wf_emitted_call_gas x) (wf_emitted_create x) (wf_nested_start_gas x) (wf_first_program
    x).
Definition set_wf_out (v : list StateUpdate) (x : WalkFrame) : WalkFrame :=
  mkWalkFrame (wf_depth x) (wf_storage_ctx x) (wf_program x) (wf_journal x) v (wf_call_gas x)
    (wf_callee_gas x) (wf_create_gas x) (wf_entry_gas x) (wf_call_gas_cost x) (wf_emitted_view
    x) (wf_emitted_call_gas x) (wf_emitted_create x) (wf_nested_start_gas x) (wf_first_program
    x).
Definition set_wf_call_gas (v : Z) (x : WalkFrame) : WalkFrame :=
  mkWalkFrame (wf_depth x) (wf_storage_ctx x) (wf_program x) (wf_journal x) (wf_out x) v
    (wf_callee_gas x) (wf_create_gas x) (wf_entry_gas x) (wf_call_gas_cost x) (wf_emitted_view
    x) (wf_emitted_call_gas x) (wf_emitted_create x) (wf_nested_start_gas x) (wf_first_program
    x).
Definition set_wf_callee_gas (v : Z) (x : WalkFrame) : WalkFrame :=
  mkWalkFrame (wf_depth x) (wf_storage_ctx x) (wf_program x) (wf_journal x) (wf_out x)
    (wf_call_gas x) v (wf_create_gas x) (wf_entry_gas x) (wf_call_gas_cost x) (wf_emitted_view
    x) (wf_emitted_call_gas x) (wf_emitted_create x) (wf_nested_start_gas x) (wf_first_program
    x).
Definition set_wf_create_gas (v : Z) (x : WalkFrame) : WalkFrame :=
  mkWalkFrame (wf_depth x) (wf_storage_ctx x) (wf_program x) (wf_journal x) (wf_out x)
    (wf_call_gas x) (wf_callee_gas x) v (wf_entry_gas x) (wf_call_gas_cost x) (wf_emitted_view
    x) (wf_emitted_call_gas x) (wf_emitted_create x) (wf_nested_start_gas x) (wf_first_program
    x).
Definition set_wf_emitted_view (v : gmap Z Z) (x : WalkFrame) : WalkFrame :=
  mkWalkFrame (wf_depth x) (wf_storage_ctx x) (wf_program x) (wf_journal x) (wf_out x)
    (wf_call_gas x) (wf_callee_gas x) (wf_create_gas x) (wf_entry_gas x) (wf_call_gas_cost x)
    v (wf_emitted_call_gas x) (wf_emitted_create x) (wf_nested_start_gas x) (wf_first_program
    x).
Definition set_ps_updates (v : option (list StateUpdate)) (x : ProgramState) : ProgramState :=
  mkProgramState (ps_target x) (ps_caller x) (ps_value x) (ps_calldata_hash x)
    (ps_transition_index x) (ps_parent x) v (ps_children x) (ps_fallback x) (ps_dropped x)
    (ps_native_gas x) (ps_effect_gas x) (ps_child_call_gas x) (ps_direct_call_gas x)
    (ps_native_callee_gas x) (ps_direct_callee_gas x) (ps_direct_create_gas x) (ps_pruned x).
Definition set_ps_children (v : list nat) (x : ProgramState) : ProgramState :=
  mkProgramState (ps_target x) (ps_caller x) (ps_value x) (ps_calldata_hash x)
    (ps_transition_index x) (ps_parent x) (ps_updates x) v (ps_fallback x) (ps_dropped x)
    (ps_native_gas x) (ps_effect_gas x) (ps_child_call_gas x) (ps_direct_call_gas x)
    (ps_native_callee_gas x) (ps_direct_callee_gas x) (ps_direct_create_gas x) (ps_pruned x).
Definition set_ps_dropped (v : bool) (x : ProgramState) : ProgramState :=
  mkProgramState (ps_target x) (ps_caller x) (ps_value x) (ps_calldata_hash x)
    (ps_transition_index x) (ps_parent x) (ps_updates x) (ps_children x) (ps_fallback x) v
    (ps_native_gas x) (ps_effect_gas x) (ps_child_call_gas x) (ps_direct_call_gas x)
    (ps_native_callee_gas x) (ps_direct_callee_gas x) (ps_direct_create_gas x) (ps_pruned x).
Definition set_ps_native_gas (v : Z) (x : ProgramState) : ProgramState :=
  mkProgramState (ps_target x) (ps_caller x) (ps_value x) (ps_calldata_hash x)
    (ps_transition_index x) (ps_parent x) (ps_updates x) (ps_children x) (ps_fallback x)
    (ps_dropped x) v (ps_effect_gas x) (ps_child_call_gas x) (ps_direct_call_gas x)
    (ps_native_callee_gas x) (ps_direct_callee_gas x) (ps_direct_create_gas x) (ps_pruned x).
Definition set_ps_effect_gas (v : Z) (x : ProgramState) : ProgramState :=
  mkProgramState (ps_target x) (ps_caller x) (ps_value x) (ps_calldata_hash x)
    (ps_transition_index x) (ps_parent x) (ps_updates x) (ps_children x) (ps_fallback x)
    (ps_dropped x) (ps_native_gas x) v (ps_child_call_gas x) (ps_direct_call_gas x)
    (ps_native_callee_gas x) (ps_direct_callee_gas x) (ps_direct_create_gas x) (ps_pruned x).
Definition set_ps_child_call_gas (v : Z) (x : ProgramState) : ProgramState :=
  mkProgramState (ps_target x) (ps_caller x) (ps_value x) (ps_calldata_hash x)
    (ps_transition_index x) (ps_parent x) (ps_updates x) (ps_children x) (ps_fallback x)
    (ps_dropped x) (ps_native_gas x) (ps_effect_gas x) v (ps_direct_call_gas x)
    (ps_native_callee_gas x) (ps_direct_callee_gas x) (ps_direct_create_gas x) (ps_pruned x).
Definition set_ps_direct_call_gas (v : Z) (x : ProgramState) : ProgramState :=
  mkProgramState (ps_target x) (ps_caller x) (ps_value x) (ps_calldata_hash x)
    (ps_transition_index x) (ps_parent x) (ps_updates x) (ps_children x) (ps_fallback x)
    (ps_dropped x) (ps_native_gas x) (ps_effect_gas x) (ps_child_call_gas x) v
    (ps_native_callee_gas x) (ps_direct_callee_gas x) (ps_direct_create_gas x) (ps_pruned x).
Definition set_ps_native_callee_gas (v : Z) (x : ProgramState) : ProgramState :=
  mkProgramState (ps_target x) (ps_caller x) (ps_value x) (ps_calldata_hash x)
    (ps_transition_index x) (ps_parent x) (ps_updates x) (ps_children x) (ps_fallback x)
    (ps_dropped x) (ps_native_gas x) (ps_effect_gas x) (ps_child_call_gas x)
    (ps_direct_call_gas x) v (ps_direct_callee_gas x) (ps_direct_create_gas x) (ps_pruned x).
Definition set_ps_direct_callee_gas (v : Z) (x : ProgramState) : ProgramState :=
  mkProgramState (ps_target x) (ps_caller x) (ps_value x) (ps_calldata_hash x)
    (ps_transition_index x) (ps_parent x) (ps_updates x) (ps_children x) (ps_fallback x)
    (ps_dropped x) (ps_native_gas x) (ps_effect_gas x) (ps_child_call_gas x)
    (ps_direct_call_gas x) (ps_native_callee_gas x) v (ps_direct_create_gas x) (ps_pruned x).
Definition set_ps_direct_create_gas (v : Z) (x : ProgramState) : ProgramState :=
  mkProgramState (ps_target x) (ps_caller x) (ps_value x) (ps_calldata_hash x)
    (ps_transition_index x) (ps_parent x) (ps_updates x) (ps_children x) (ps_fallback x)
    (ps_dropped x) (ps_native_gas x) (ps_effect_gas x) (ps_child_call_gas x)
    (ps_direct_call_gas x) (ps_native_callee_gas x) (ps_direct_callee_gas x) v (ps_pruned x).
Definition set_ps_pruned (v : bool) (x : ProgramState) : ProgramState :=
  mkProgramState (ps_target x) (ps_caller x) (ps_value x) (ps_calldata_hash x)
    (ps_transition_index x) (ps_parent x) (ps_updates x) (ps_children x) (ps_fallback x)
    (ps_dropped x) (ps_native_gas x) (ps_effect_gas x) (ps_child_call_gas x)
    (ps_direct_call_gas x) (ps_native_callee_gas x) (ps_direct_callee_gas x)
    (ps_direct_create_gas x) v.

(** [programs[id]] and [frames.last()]: panics out of range. *)
Definition program_at (programs : list ProgramState) (id : nat) : Result ProgramState :=
  expect (programs !! id) "index out of bounds".

Definition update_program (programs : list ProgramState) (id : nat)
  (f : ProgramState → ProgramState) : Result (list ProgramState) :=
  p ← program_at programs id; Ok (<[id := f p]> programs).

Definition top_frame (frames : list WalkFrame) : Result (WalkFrame * list WalkFrame) :=
  match frames with
  | f :: rest => Ok (f, rest)
  | [] => Panic "root frame must remain"
  end.

Definition pop_frame (frames : list WalkFrame) : Result (WalkFrame * list WalkFrame) :=
  match frames with
  | f :: rest => Ok (f, rest)
  | [] => Panic "frame stack underflow"
  end.

(** ** Canonical slices *)

(** The journals of the open frames for [target], merged bottom-up. *)
Definition visible_image (frames : list WalkFrame) (target : Z) : gmap Z Z :=
  foldr (λ f image, default ∅ (wf_journal f !! target) ∪ image) ∅ frames.

(** The loop of [flush_slice] over the image: emit what the view does not hold. *)
Definition flush_slot (p : list StateUpdate * gmap Z Z) (kv : Z * Z)
  : list StateUpdate * gmap Z Z :=
  let '(out, view) := p in
  let '(slot, value) := kv in
  if bool_decide (view !! slot = Some value) then (out, view)
  else (out ++ [UStore (mkStore slot value)], <[slot := value]> view).

Definition flush_slice (frames : list WalkFrame) (programs : list ProgramState)
  : Result (list WalkFrame) :=
  '(cur, rest) ← top_frame frames;
  id ← expect (wf_program cur) "only emitting frames flush";
  p ← program_at programs id;
  let visible := visible_image frames (ps_target p) in
  let '(out, view) := fold_left flush_slot (map_items visible) (wf_out cur, wf_emitted_view cur) in
  Ok (set_wf_emitted_view view (set_wf_out out cur) :: rest).

Definition forget_slots (programs : list ProgramState) (journal : Journal) (f : WalkFrame)
  : Result WalkFrame :=
  match wf_program f with
  | Some id =>
      p ← program_at programs id;
      match journal !! ps_target p with
      | Some slots => Ok (set_wf_emitted_view (wf_emitted_view f ∖ slots) f)
      | None => Ok f
      end
  | None => Ok f
  end.

Definition forget_overwritten (frames : list WalkFrame) (programs : list ProgramState)
  (journal : Journal) : Result (list WalkFrame) :=
  mapM (forget_slots programs journal) frames.

(** [for (addr, slots) in journal { parent.entry(addr).or_default().extend(slots) }] *)
Definition merge_journal (parent child : Journal) : Journal :=
  union_with (λ p c, Some (c ∪ p)) parent child.

(** ** Eligibility *)

Inductive Eligibility : Type :=
  | Consumers (is_nestable : Z → bool)
  | Hypothetical (owned : gset Z).

Definition frame_index (e : Eligibility) (candidate : option Candidate) (callee : option Z)
  : option Z :=
  c ← candidate;
  if cand_unsupported_op c then None
  else
    a ← callee;
    match e, cand_bump c with
    | Consumers is_nestable, BFirst index => if is_nestable a then Some index else None
    | Hypothetical owned, bump =>
        if bool_decide (a ∈ owned) then
          Some (match bump with BFirst index => index | BUndecided | BDisqualified => 0 end)
        else None
    | _, _ => None
    end.

(** ** Opening the pending frame (lines 729-780) *)

Definition new_frame (p : PendingFrame) (depth entry_gas : Z) (first_program : nat) : WalkFrame :=
  mkWalkFrame depth (pf_storage_ctx p) (pf_program p) ∅ [] 0 0 0 entry_gas (pf_call_gas_cost p)
    (pf_emitted_view p) (pf_emitted_call_gas p) (pf_emitted_create p) (pf_nested_start_gas p)
    first_program.

Definition pending_first_program (p : PendingFrame) (n : nat) : nat :=
  match pf_nested_start_gas p, pf_program p with
  | Some _, Some id => id
  | _, _ => n
  end.

Definition add_child_call_gas (programs : list ProgramState) (parent : option nat) (gas : Z)
  : Result (list ProgramState) :=
  match parent with
  | Some id =>
      update_program programs id (λ p, set_ps_child_call_gas (u64_add (ps_child_call_gas p) gas) p)
  | None => Ok programs
  end.

(** The emitted opcode's word on the resume log is not a deployed address. *)
Definition create_failed (l : StructLog) : bool :=
  match sl_stack l ≫= last with
  | Some address => address =? 0
  | None => true
  end.

(** No frame was entered: the call completed inline, account its gas. *)
Definition close_inline (programs : list ProgramState) (frames : list WalkFrame) (p : PendingFrame)
  (l : StructLog) : Result (list ProgramState * list WalkFrame) :=
  _ ← bail_if (bool_decide (is_Some (pf_nested_start_gas p))) (ENoFrameOpened (pf_parent_depth p));
  _ ← bail_if (pf_emitted_create p && create_failed l) (EFailedCreate (pf_parent_depth p));
  match pf_emitted_call_gas p with
  | Some gas_after_opcode =>
      let gas := sat_sub gas_after_opcode (sl_gas l) in
      '(caller, rest) ← top_frame frames;
      let caller :=
        if pf_emitted_create p
        then set_wf_create_gas (u64_add (wf_create_gas caller) gas) caller
        else set_wf_call_gas (u64_add (wf_call_gas caller) gas) caller in
      programs ← add_child_call_gas programs (wf_program caller) gas;
      Ok (programs, caller :: rest)
  | None => Ok (programs, frames)
  end.

Definition open_pending (s : SplitState) (l : StructLog) : Result SplitState :=
  let 'mkSplitState programs frames pending skipped := s in
  match pending with
  | Some p =>
      if sl_depth l =? pf_parent_depth p + 1 then
        let f := new_frame p (sl_depth l) (sl_gas l) (pending_first_program p (length programs)) in
        Ok (mkSplitState programs (f :: frames) None skipped)
      else
        '(programs, frames) ← close_inline programs frames p l;
        Ok (mkSplitState programs frames None skipped)
  | None => Ok s
  end.

(** ** Closing frames (lines 782-886) *)

(** The success flag of the frame being left: the top of the stack of the resume log. *)
Definition resume_success (l : StructLog) : Result bool :=
  stack ← ok_or (sl_stack l) (EResumeNoStack (sl_depth l));
  top ← ok_or (last stack) (EResumeEmptyStack (sl_depth l));
  Ok (negb (top =? 0)).

(** [for program in &mut programs[first..] { program.dropped = true }] *)
Definition drop_from (programs : list ProgramState) (first : nat) : Result (list ProgramState) :=
  if (first <=? length programs)%nat then
    Ok (take first programs ++ (set_ps_dropped true <$> drop first programs))
  else Panic "range start index out of range".

(** Lines 815-828: the gas of an emitted call or create, charged to the frame it returns to. *)
Definition charge_caller (programs : list ProgramState) (frame : WalkFrame)
  (frames : list WalkFrame) (l : StructLog) : Result (list ProgramState * list WalkFrame) :=
  match wf_emitted_call_gas frame with
  | Some gas_after_opcode =>
      let gas := sat_sub gas_after_opcode (sl_gas l) in
      '(caller, rest) ← top_frame frames;
      let caller :=
        if wf_emitted_create frame
        then set_wf_create_gas (u64_add (wf_create_gas caller) gas) caller
        else
          set_wf_callee_gas
            (u64_add (wf_callee_gas caller)
               (callee_gas gas (wf_call_gas_cost frame) (Some (wf_entry_gas frame))))
            (set_wf_call_gas (u64_add (wf_call_gas caller) gas) caller) in
      programs ← add_child_call_gas programs (wf_program caller) gas;
      Ok (programs, caller :: rest)
  | None => Ok (programs, frames)
  end.

(** What a nested frame that returned leaves in its program. *)
Definition finish_program (frame : WalkFrame) (native callee : Z) (p : ProgramState)
  : ProgramState :=
  set_ps_direct_create_gas (wf_create_gas frame)
    (set_ps_direct_callee_gas (wf_callee_gas frame)
      (set_ps_direct_call_gas (wf_call_gas frame)
        (set_ps_updates (Some (wf_out frame))
          (set_ps_native_callee_gas callee (set_ps_native_gas native p))))).

Definition merge_into_parent (frames : list WalkFrame) (journal : Journal)
  : Result (list WalkFrame) :=
  '(parent, rest) ← top_frame frames;
  Ok (set_wf_journal (merge_journal (wf_journal parent) journal) parent :: rest).

(** Lines 830-861: the first frame of a nested program returns. *)
Definition close_nested (programs : list ProgramState) (frame : WalkFrame)
  (frames : list WalkFrame) (start_gas : Z) (success : bool) (l : StructLog)
  : Result (list ProgramState * list WalkFrame) :=
  id ← expect (wf_program frame) "a nested frame emits";
  if success then
    let native := sat_sub start_gas (sl_gas l) in
    let callee := callee_gas native (wf_call_gas_cost frame) (Some (wf_entry_gas frame)) in
    programs ← update_program programs id (finish_program frame native callee);
    programs ← add_child_call_gas programs (head frames ≫= wf_program) native;
    frames ← forget_overwritten frames programs (wf_journal frame);
    frames ← merge_into_parent frames (wf_journal frame);
    Ok (programs, frames)
  else
    '(parent, rest) ← top_frame frames;
    match last (wf_out parent) with
    | Some (UNested _) => Ok (programs, set_wf_out (removelast (wf_out parent)) parent :: rest)
    | _ => Err ENotLastOp
    end.

(** Lines 863-885: any other frame returns; a failed one leaves nothing. *)
Definition close_plain (programs : list ProgramState) (frame : WalkFrame)
  (frames : list WalkFrame) (success : bool) : Result (list ProgramState * list WalkFrame) :=
  if success then
    let child_emitting := bool_decide (is_Some (wf_program frame)) in
    frames ← (if child_emitting then Ok frames
              else forget_overwritten frames programs (wf_journal frame));
    '(parent, rest) ← top_frame frames;
    let parent := set_wf_journal (merge_journal (wf_journal parent) (wf_journal frame)) parent in
    let parent := set_wf_out (wf_out parent ++ wf_out frame) parent in
    let parent := set_wf_call_gas (u64_add (wf_call_gas parent) (wf_call_gas frame)) parent in
    let parent := set_wf_callee_gas (u64_add (wf_callee_gas parent) (wf_callee_gas frame)) parent in
    let parent := set_wf_create_gas (u64_add (wf_create_gas parent) (wf_create_gas frame)) parent in
    let parent :=
      if child_emitting then set_wf_emitted_view (wf_emitted_view frame) parent else parent in
    Ok (programs, parent :: rest)
  else Ok (programs, frames).

(** One round of the [while] loop: the top frame returns to the log's depth. *)
Definition close_frame (programs : list ProgramState) (frames : list WalkFrame) (l : StructLog)
  : Result (list ProgramState * list WalkFrame) :=
  '(top, _) ← pop_frame frames;
  _ ← bail_if (negb (wf_depth top =? sl_depth l + 1)) (EDepthJump (wf_depth top) (sl_depth l));
  success ← resume_success l;
  frames ← (if success && bool_decide (is_Some (wf_nested_start_gas top))
            then flush_slice frames programs else Ok frames);
  '(frame, frames) ← pop_frame frames;
  _ ← bail_if (wf_emitted_create frame && negb success) (EFailedCreate (sl_depth l));
  programs ← (if success then Ok programs else drop_from programs (wf_first_program frame));
  '(programs, frames) ← charge_caller programs frame frames l;
  match wf_nested_start_gas top with
  | Some start_gas => close_nested programs frame frames start_gas success l
  | None => close_plain programs frame frames success
  end.

(** The loop; it pops one frame a round, so as many rounds as there are frames are enough. *)
Fixpoint close_frames (fuel : nat) (programs : list ProgramState) (frames : list WalkFrame)
  (l : StructLog) : Result (list ProgramState * list WalkFrame) :=
  match fuel with
  | O => Ok (programs, frames)
  | S fuel =>
      let top_depth := default 1 (wf_depth <$> head frames) in
      if sl_depth l <? top_depth then
        '(programs, frames) ← close_frame programs frames l;
        close_frames fuel programs frames l
      else Ok (programs, frames)
  end.

(** ** The opcodes (lines 888-1074) *)

(** [SSTORE] (lines 895-917). *)
Definition walk_sstore (programs : list ProgramState) (cur : WalkFrame) (l : StructLog)
  : Result (list ProgramState * WalkFrame) :=
  match wf_storage_ctx cur, sl_error l with
  | Some ctx, None =>
      stack ← ok_or (sl_stack l) (ENoStack "SSTORE");
      let stack := reverse stack in
      slot ← stack_get stack 0;
      value ← stack_get stack 1;
      let slots := <[slot := value]> (default ∅ (wf_journal cur !! ctx)) in
      let cur := set_wf_journal (<[ctx := slots]> (wf_journal cur)) cur in
      match wf_program cur with
      | Some id =>
          p ← program_at programs id;
          if ps_target p =? ctx then
            Ok (<[id := set_ps_effect_gas (u64_add (ps_effect_gas p) (sl_gas_cost l)) p]> programs,
                cur)
          else Ok (programs, cur)
      | None => Ok (programs, cur)
      end
  | _, _ => Ok (programs, cur)
  end.

(** The frame a delegating opcode opens shares the program, the storage and the emitted view. *)
Definition delegate_pending (cur : WalkFrame) (l : StructLog) : PendingFrame :=
  mkPendingFrame (sl_depth l) (wf_storage_ctx cur) (wf_program cur)
    (if bool_decide (is_Some (wf_program cur)) then wf_emitted_view cur else ∅)
    None false None 0.

Definition callee_of (stack : list Z) : option Z := address_from_word <$> second_from_top stack.

Definition native_pending (l : StructLog) (callee : option Z) (call_gas_cost : Z) : PendingFrame :=
  mkPendingFrame (sl_depth l) callee None ∅ None false None call_gas_cost.

(** A fresh [ProgramState] for a nested frame. *)
Definition nested_program `{Externals} (parent : nat) (ctx : option Z) (index : Z) (call : Call)
  : ProgramState :=
  mkProgramState (call_target call) (default 0 ctx) (call_value call)
    (keccak256 (call_args call)) (Some index) (Some parent) None [] (Some call) false
    0 0 0 0 0 0 0 false.

(** Lines 982-1032: an emitting frame's [CALL] becomes a nested frame or a [CALL] op. *)
Definition emit_call `{Externals} (eligibility : Eligibility) (candidate : option Candidate)
  (programs : list ProgramState) (frames : list WalkFrame) (l : StructLog) (callee : option Z)
  : Result (list ProgramState * list WalkFrame * PendingFrame) :=
  frames ← flush_slice frames programs;
  '(cur, rest) ← top_frame frames;
  let nested_index := frame_index eligibility candidate callee in
  '(decoded, skipped) ← append_state_update_from_struct_log [] l;
  match skipped with
  | Some _ => Panic "CALL is never a skipped opcode"
  | None =>
      let next := native_pending l callee (sl_gas_cost l) in
      match nested_index, last decoded with
      | Some index, Some (UCall call) =>
          parent ← expect (wf_program cur) "emitting";
          let id := length programs in
          let programs := programs ++ [nested_program parent (wf_storage_ctx cur) index call] in
          programs ← update_program programs parent (λ p, set_ps_children (ps_children p ++ [id]) p);
          let op := UNested (mkNested (call_target call) (call_value call) 0) in
          let next := mkPendingFrame (sl_depth l) callee (Some id) ∅ None false (Some (sl_gas l))
            (sl_gas_cost l) in
          Ok (programs, set_wf_out (wf_out cur ++ [op]) cur :: rest, next)
      | _, Some update =>
          let next := mkPendingFrame (sl_depth l) callee None ∅ (Some (sl_gas l)) false None
            (sl_gas_cost l) in
          Ok (programs, set_wf_out (wf_out cur ++ [update]) cur :: rest, next)
      | _, None => Err ECallNoUpdate
      end
  end.

(** [CALL] (lines 963-1036). *)
Definition walk_call `{Externals} (eligibility : Eligibility) (candidate : option Candidate)
  (programs : list ProgramState) (frames : list WalkFrame) (l : StructLog)
  : Result (list ProgramState * list WalkFrame * option PendingFrame) :=
  '(cur, _) ← top_frame frames;
  stack ← ok_or (sl_stack l) (ENoStack "CALL");
  let callee := callee_of stack in
  match sl_error l with
  | Some _ => Ok (programs, frames, None)
  | None =>
      match wf_program cur with
      | Some _ =>
          '(programs, frames, next) ← emit_call eligibility candidate programs frames l callee;
          Ok (programs, frames, Some next)
      | None => Ok (programs, frames, Some (native_pending l callee (sl_gas_cost l)))
      end
  end.

(** [CREATE] and [CREATE2] (lines 1037-1065). *)
Definition walk_create `{Externals} (programs : list ProgramState) (frames : list WalkFrame)
  (l : StructLog) : Result (list WalkFrame * option PendingFrame) :=
  '(cur, _) ← top_frame frames;
  match sl_error l with
  | Some _ => Ok (frames, None)
  | None =>
      let pending gas emitted :=
        mkPendingFrame (sl_depth l) None None ∅ gas emitted None 0 in
      match wf_program cur with
      | Some _ =>
          frames ← flush_slice frames programs;
          '(cur, rest) ← top_frame frames;
          '(out, skipped) ← append_state_update_from_struct_log (wf_out cur) l;
          match skipped with
          | Some _ => Panic "CREATE/CREATE2 are never skipped opcodes"
          | None => Ok (set_wf_out out cur :: rest, Some (pending (Some (sl_gas l)) true))
          end
      | None => Ok (frames, Some (pending None false))
      end
  end.

(** [LOG0] to [LOG4] of an emitting frame (lines 1066-1072). *)
Definition walk_log `{Externals} (programs : list ProgramState) (cur : WalkFrame) (l : StructLog)
  : Result (list ProgramState * WalkFrame) :=
  match wf_program cur, sl_error l with
  | Some id, None =>
      '(out, _) ← append_state_update_from_struct_log (wf_out cur) l;
      programs ← update_program programs id
        (λ p, set_ps_effect_gas (u64_add (ps_effect_gas p) (sl_gas_cost l)) p);
      Ok (programs, set_wf_out out cur)
  | _, _ => Ok (programs, cur)
  end.

(** The [match] on the opcode; the pending frame is [None] on entry. *)
Definition walk_op `{Externals} (eligibility : Eligibility) (candidate : option Candidate)
  (s : SplitState) (l : StructLog) : Result SplitState :=
  let 'mkSplitState programs frames _ skipped := s in
  '(cur, rest) ← top_frame frames;
  match opc_of (sl_op l) with
  | OP_SSTORE =>
      '(programs, cur) ← walk_sstore programs cur l;
      Ok (mkSplitState programs (cur :: rest) None skipped)
  | OP_TSTORE | OP_SELFDESTRUCT =>
      let skipped :=
        if bool_decide (is_Some (wf_program cur)) then {[sl_op l]} ∪ skipped else skipped in
      Ok (mkSplitState programs frames None skipped)
  | OP_DELEGATECALL | OP_CALLCODE =>
      let pending :=
        match sl_error l with Some _ => None | None => Some (delegate_pending cur l) end in
      Ok (mkSplitState programs frames pending skipped)
  | OP_STATICCALL =>
      match sl_error l with
      | Some _ => Ok (mkSplitState programs frames None skipped)
      | None =>
          stack ← ok_or (sl_stack l) (ENoStack "STATICCALL");
          Ok (mkSplitState programs frames (Some (native_pending l (callee_of stack) 0)) skipped)
      end
  | OP_CALL =>
      '(programs, frames, pending) ← walk_call eligibility candidate programs frames l;
      Ok (mkSplitState programs frames pending skipped)
  | OP_CREATE | OP_CREATE2 =>
      '(frames, pending) ← walk_create programs frames l;
      Ok (mkSplitState programs frames pending skipped)
  | OP_LOG0 | OP_LOG1 | OP_LOG2 | OP_LOG3 | OP_LOG4 =>
      '(programs, cur) ← walk_log programs cur l;
      Ok (mkSplitState programs (cur :: rest) None skipped)
  | OP_OTHER => Ok (mkSplitState programs frames None skipped)
  end.

(** The body of the [for] loop. *)
Definition split_step `{Externals} (eligibility : Eligibility) (candidates : gmap nat Candidate)
  (s : SplitState) (p : nat * StructLog) : Result SplitState :=
  let '(log_index, l) := p in
  s ← open_pending s l;
  '(programs, frames) ← close_frames (length (sp_frames s)) (sp_programs s) (sp_frames s) l;
  walk_op eligibility (candidates !! log_index)
    (mkSplitState programs frames (sp_pending s) (sp_skipped_opcodes s)) l.

Definition root_program (root : Z) (root_index : option Z) : ProgramState :=
  mkProgramState root 0 0 0 root_index None None [] None false 0 0 0 0 0 0 0 false.

Definition root_frame (root : Z) : WalkFrame :=
  mkWalkFrame 1 (Some root) (Some 0%nat) ∅ [] 0 0 0 0 0 ∅ None false None 0.

Definition initial_split_state (root : Z) (root_index : option Z) : SplitState :=
  mkSplitState [root_program root root_index] [root_frame root] None ∅.

(** ** The end of the walk (lines 1077-1098) *)

(** The final slice, and the root frame's program. *)
Definition finish_root (s : SplitState) : Result (list ProgramState * WalkFrame) :=
  let 'mkSplitState programs frames _ _ := s in
  _ ← bail_if (negb (length frames =? 1)%nat) (EUnclosedFrames (length frames - 1));
  frames ← flush_slice frames programs;
  '(root_frame, _) ← top_frame frames;
  programs ← update_program programs 0 (λ p,
    set_ps_direct_create_gas (wf_create_gas root_frame)
      (set_ps_direct_callee_gas (wf_callee_gas root_frame)
        (set_ps_direct_call_gas (wf_call_gas root_frame)
          (set_ps_updates (Some (wf_out root_frame)) p))));
  Ok (programs, root_frame).

(** The contracts whose transition counter the trace moves, ascending. *)
Definition counter_moves (journal : Journal) : gset Z :=
  dom (filter (λ kv, is_Some (kv.2 !! STATE_TRACKER_SLOT)) journal).
