(* ===== verification/ScanSpec.v ===== *)
(** * What the candidate scan decides

    The meaning of [Scan.scan_candidates] on execution trees: a [CALL] is judged by the operations of
    its own scope alone, the callee's frame and the frames it delegates to, in order. *)

From S2P Require Import Prelude.
From S2P Require Import Types.
From S2P Require Import Instances.
From S2P Require Import Trace.
From S2P Require Import TraceSpec.
From S2P Require Import SimProfile.
From S2P Require Import Scan.
From S2P Require Import FrameTree.

#[export] Instance Scope_eq_dec : EqDecision Scope.
Proof. solve_decision. Defined.

(** ** Scopes *)

(** Opcodes that can open a frame, if they do not fail at the opcode itself. *)
Definition opener (l : StructLog) : bool :=
  match opc_of (sl_op l) with
  | OP_CALL | OP_STATICCALL | OP_DELEGATECALL | OP_CALLCODE | OP_CREATE | OP_CREATE2 =>
      bool_decide (sl_error l = None)
  | _ => false
  end.

(** Only openers have a body. *)
Fixpoint exec_opens (e : Exec) : Prop :=
  match e with
  | Step l body =>
      (body ≠ [] → opener l = true) ∧ fold_right (λ e P, exec_opens e ∧ P) True body
  end.
Definition frame_opens (f : list Exec) : Prop := fold_right (λ e P, exec_opens e ∧ P) True f.

(** The scope of the frame the opcode at index [i], in scope [sc], opens. *)
Definition child_scope (i : nat) (sc : option Scope) (l : StructLog) : option Scope :=
  match opc_of (sl_op l) with
  | OP_CALL => Some (SCall i)
  | OP_DELEGATECALL | OP_CALLCODE => sc
  | _ => None
  end.

(** A log with its index, its scope, and whether it opened a frame. *)
Record Scoped := mkScoped {
  sd_index : nat;
  sd_scope : option Scope;
  sd_log : StructLog;
  sd_opened : bool
}.

Definition nonempty {A} (l : list A) : bool := match l with [] => false | _ => true end.

Fixpoint scoped (i : nat) (sc : option Scope) (e : Exec) : list Scoped :=
  match e with
  | Step l body =>
      mkScoped i sc l (nonempty body) ::
      (fix frame (i : nat) (sc : option Scope) (f : list Exec) : list Scoped :=
         match f with
         | [] => []
         | e :: f => scoped i sc e ++ frame (i + length (flatten e))%nat sc f
         end) (S i) (child_scope i sc l) body
  end.

Fixpoint scoped_frame (i : nat) (sc : option Scope) (f : list Exec) : list Scoped :=
  match f with
  | [] => []
  | e :: f => scoped i sc e ++ scoped_frame (i + length (flatten e))%nat sc f
  end.

Lemma scoped_step i sc l body :
  scoped i sc (Step l body) =
  mkScoped i sc l (nonempty body) :: scoped_frame (S i) (child_scope i sc l) body.
Proof. reflexivity. Qed.

(** The successful logs of a scope. *)
Definition in_scope (sc : Scope) (a : Scoped) : bool :=
  bool_decide (sd_scope a = Some sc) && bool_decide (sl_error (sd_log a) = None).
Definition scope_logs (sc : Scope) (A : list Scoped) : list StructLog :=
  sd_log <$> List.filter (in_scope sc) A.

(** ** Judging a scope *)

Definition log_stack (l : StructLog) : list Z := default [] (sl_stack l).

(** The counter increment a log makes: the index it moves from. *)
Definition bump_of (l : StructLog) : option Z :=
  match opc_of (sl_op l), stack_top (log_stack l) 0, stack_top (log_stack l) 1 with
  | OP_SSTORE, Some slot, Some value =>
      if slot =? STATE_TRACKER_SLOT then Some (sat_sub value 1) else None
  | _, _, _ => None
  end.

Definition effectful (l : StructLog) : bool :=
  match opc_of (sl_op l) with OP_SSTORE => true | _ => observable (sl_op l) end.
Definition unsupported (l : StructLog) : bool :=
  match opc_of (sl_op l) with OP_TSTORE | OP_SELFDESTRUCT => true | _ => false end.

(** The first storage write, external call or log decides. *)
Fixpoint verdict (ls : list StructLog) : Bump :=
  match ls with
  | [] => BUndecided
  | l :: ls =>
      if effectful l then match bump_of l with Some i => BFirst i | None => BDisqualified end
      else verdict ls
  end.

Definition judge (ls : list StructLog) : Candidate := mkCandidate (verdict ls) (existsb unsupported ls).

Fixpoint first_bump (ls : list StructLog) : option Z :=
  match ls with
  | [] => None
  | l :: ls => match bump_of l with Some i => Some i | None => first_bump ls end
  end.

(** A successful [CALL] that opened a frame is a candidate, judged by its scope. *)
Definition opened_call (k : nat) (a : Scoped) : bool :=
  (sd_index a =? k)%nat && sd_opened a && bool_decide (sl_error (sd_log a) = None) &&
  bool_decide (opc_of (sl_op (sd_log a)) = OP_CALL).

(** A successful [DELEGATECALL] or [CALLCODE] of the scope that opened no frame: a target without
    code, or a precompile. The scan then forgets the candidate, as it does for a [CALL] that opened
    none. *)
Definition codeless_delegate (k : nat) (a : Scoped) : bool :=
  in_scope (SCall k) a && negb (sd_opened a) &&
  match opc_of (sl_op (sd_log a)) with OP_DELEGATECALL | OP_CALLCODE => true | _ => false end.

Definition reference_candidate (A : list Scoped) (k : nat) : option Candidate :=
  if existsb (opened_call k) A && negb (existsb (codeless_delegate k) A)
  then Some (judge (scope_logs (SCall k) A)) else None.

(** No successful [SSTORE] with fewer than two operands. *)
Definition operands_ok (l : StructLog) : Prop :=
  opc_of (sl_op l) = OP_SSTORE → sl_error l = None →
  is_Some (stack_top (log_stack l) 0) ∧ is_Some (stack_top (log_stack l) 1).

(** ** The scan as a fold over scoped logs *)

Definition scoped_open (a : Scoped) (cands : gmap nat Candidate) : gmap nat Candidate :=
  match opc_of (sl_op (sd_log a)) with
  | OP_CALL =>
      if sd_opened a then <[sd_index a := mkCandidate BUndecided false]> cands else cands
  | OP_DELEGATECALL | OP_CALLCODE =>
      match sd_opened a, sd_scope a with
      | false, Some (SCall k) => delete k cands
      | _, _ => cands
      end
  | _ => cands
  end.

Definition scoped_step_fold (st : gmap nat Candidate * option Z) (a : Scoped)
  : Result (gmap nat Candidate * option Z) :=
  let '(cands, root_index) := st in
  let l := sd_log a in
  match sl_error l with
  | Some _ => Ok (cands, root_index)
  | None =>
      '(cands, root_index) ←
        scan_write (sd_index a) (sd_scope a) (log_stack l) l cands root_index;
      let cands := scan_observe (sd_scope a) l cands in
      Ok (scoped_open a cands, root_index)
  end.

(** What a log at depth [d] finds: the stack, the candidates and the root's index. *)
Definition enter (s : ScanState) (d : Z) : list ScanFrame * gmap nat Candidate * option Z :=
  let s := match ss_pending s with
    | Some p =>
        if d =? sp_parent_depth p + 1 then
          mkScanState (ss_candidates s) (ss_root_index s)
            (mkScanFrame d (sp_ctx p) (sp_scope p) :: ss_frames s) None
        else
          match sp_scope p with
          | Some (SCall call) =>
              mkScanState (delete call (ss_candidates s)) (ss_root_index s) (ss_frames s) None
          | _ => mkScanState (ss_candidates s) (ss_root_index s) (ss_frames s) None
          end
    | None => s
    end in
  (scan_pop d (ss_frames s), ss_candidates s, ss_root_index s).

Lemma take_pending_enter s l :
  let s' := scan_take_pending s l in
  enter s (sl_depth l) = (scan_pop (sl_depth l) (ss_frames s'), ss_candidates s', ss_root_index s').
Proof.
  destruct s as [cands root_index frames [p|]]; [|done]. unfold enter. cbn.
  destruct (_ =? _); [done|]. by destruct (sp_scope p) as [[]|].
Qed.

(** The state a step leaves when it finds a frame of the log's own depth on top. *)
Lemma scan_step_enter s i l F rest c r :
  enter s (sl_depth l) = (F :: rest, c, r) → sl_depth l ≠ 0 →
  scan_step s (i, l) =
  match sl_error l with
  | Some _ => Ok (mkScanState c r (F :: rest) None)
  | None =>
      '(c, r) ← scan_write i (sf_scope F) (log_stack l) l c r;
      let c := scan_observe (sf_scope F) l c in
      let '(c, pending) := scan_open i (sf_ctx F) (sf_scope F) (log_stack l) l c in
      Ok (mkScanState c r (F :: rest) pending)
  end.
Proof.
  intros He Hd. pose proof (take_pending_enter s l) as Ht. cbv zeta in Ht. rewrite He in Ht.
  unfold scan_step. rewrite (proj2 (Z.eqb_neq _ _)) by done. cbn [bail_if mbind res_bind].
  destruct (scan_take_pending s l) as [c' r' frames pending]. cbn in Ht.
  injection Ht as Hf <- <-. rewrite <-Hf. done.
Qed.

Lemma scan_pop_pop d d' frames : d <= d' → scan_pop d (scan_pop d' frames) = scan_pop d frames.
Proof.
  intros Hd. induction frames as [|f frames IH]; [done|]. cbn [scan_pop].
  destruct (Z.ltb_spec d' (sf_depth f)) as [Hlt|Hge]; [|done].
  rewrite IH. by rewrite (proj2 (Z.ltb_lt d (sf_depth f))) by lia.
Qed.

(** Indexed logs. *)
Fixpoint indexed (i : nat) (logs : list StructLog) : list (nat * StructLog) :=
  match logs with [] => [] | l :: logs => (i, l) :: indexed (S i) logs end.

Lemma indexed_app i l1 l2 : indexed i (l1 ++ l2) = indexed i l1 ++ indexed (i + length l1) l2.
Proof.
  revert i. induction l1 as [|l l1 IH]; intros i; cbn; [by rewrite Nat.add_0_r|].
  rewrite IH. do 2 f_equal. f_equal. lia.
Qed.

Lemma enumerate_indexed logs : enumerate logs = indexed 0 logs.
Proof.
  unfold enumerate. generalize 0%nat. induction logs as [|l logs IH]; intros i; [done|].
  cbn. by rewrite IH.
Qed.

(** ** The scan of a frame is the fold over its scoped logs *)

(** Any log at depth [d'] up to [d] finds the frame [F] of depth [d] on the stack, and [c], [r]. *)
Definition leaves (s : ScanState) (d : Z) (frames : list ScanFrame) (c : gmap nat Candidate)
  (r : option Z) : Prop :=
  ∀ d', d' <= d → enter s d' = (scan_pop d' frames, c, r).

Definition fresh_from (n : nat) (c : gmap nat Candidate) : Prop := ∀ k, (n ≤ k)%nat → c !! k = None.

Definition scans (d : Z) (frames : list ScanFrame) (n : nat)
  (m : Result (gmap nat Candidate * option Z)) (t : Result ScanState) : Prop :=
  match m with
  | Ok (c, r) => ∃ s, t = Ok s ∧ leaves s d frames c r ∧ fresh_from n c
  | Err x => t = Err x
  | Panic w => t = Panic w
  end.

Lemma fresh_alter n f k c : fresh_from n c → fresh_from n (alter f k c).
Proof. intros Hc j Hj. rewrite lookup_alter_None. auto. Qed.

Lemma fresh_observe n sc l c : fresh_from n c → fresh_from n (scan_observe sc l c).
Proof.
  intros Hc. unfold scan_observe. destruct sc as [[|k]|]; [done| |done].
  destruct (observable _); [by apply fresh_alter|done].
Qed.

Lemma fresh_write n i sc st l c r c' r' :
  scan_write i sc st l c r = Ok (c', r') → fresh_from n c → fresh_from n c'.
Proof.
  intros Hw Hc. unfold scan_write in Hw.
  repeat case_match; inv_res; try done; try (injection Hw as <- <-); try done;
    by apply fresh_alter.
Qed.

Lemma fresh_le n m c : (n ≤ m)%nat → fresh_from n c → fresh_from m c.
Proof. intros Hle Hc k Hk. apply Hc. lia. Qed.

Lemma fresh_scoped_open n a c :
  (sd_index a < n)%nat → fresh_from n c → fresh_from n (scoped_open a c).
Proof.
  intros Hn Hc k Hk. unfold scoped_open.
  repeat case_match; try (by apply Hc);
    rewrite ?lookup_insert_ne, ?lookup_delete_None by lia; auto.
Qed.

Lemma scan_pop_top d F rest : sf_depth F <= d → scan_pop d (F :: rest) = F :: rest.
Proof. intros H. cbn. by rewrite (proj2 (Z.ltb_ge _ _)) by lia. Qed.

Lemma scan_pop_under d F rest : d < sf_depth F → scan_pop d (F :: rest) = scan_pop d rest.
Proof. intros H. cbn. by rewrite (proj2 (Z.ltb_lt _ _)). Qed.

(** An opcode that opened no frame. *)
Lemma leaves_bare i d sc l c r F rest :
  sf_depth F = d → sf_scope F = sc → sl_depth l = d → fresh_from i c →
  let '(c', p) := scan_open i (sf_ctx F) sc (log_stack l) l c in
  leaves (mkScanState c' r (F :: rest) p) d (F :: rest)
    (scoped_open (mkScoped i sc l false) c) r.
Proof.
  intros HF Hsc Hl Hc. unfold scan_open, scoped_open. cbn [sd_log sd_opened sd_scope sd_index].
  assert (Hd : ∀ d', d' <= d → (d' =? sl_depth l + 1) = false) by (intros; apply Z.eqb_neq; lia).
  destruct (opc_of (sl_op l)); intros d' Hd'; unfold enter;
    cbn [ss_pending sp_parent_depth sp_scope]; rewrite ?Hd by done;
    cbn [ss_frames ss_candidates ss_root_index]; try done;
    [|destruct sc as [[]|]; done..].
  by rewrite delete_insert_id by (apply Hc; lia).
Qed.

(** An opcode that opened one: its first log finds the new frame. *)
Lemma enter_opened i d sc l c r F rest :
  sf_depth F = d → sf_scope F = sc → sl_depth l = d → opener l = true →
  let '(c', p) := scan_open i (sf_ctx F) sc (log_stack l) l c in
  c' = scoped_open (mkScoped i sc l true) c ∧
  ∃ G, sf_depth G = d + 1 ∧ sf_scope G = child_scope i sc l ∧
    enter (mkScanState c' r (F :: rest) p) (d + 1) = (G :: F :: rest, c', r).
Proof.
  intros HF Hsc Hl Ho. unfold opener in Ho. unfold scan_open, scoped_open, child_scope.
  cbn [sd_log sd_opened sd_scope sd_index].
  destruct (opc_of (sl_op l)) eqn:E; try discriminate; (split; [done|]); eexists;
    (split; [|split; [|unfold enter; cbn [ss_pending sp_parent_depth];
      rewrite Hl, Z.eqb_refl; cbn [ss_frames ss_candidates ss_root_index];
      rewrite scan_pop_top; [reflexivity|cbn; lia]]]); done.
Qed.

Definition scans_exec (e : Exec) : Prop := ∀ i d sc F rest c r s,
  exec_at d e → exec_opens e → 0 < d → sf_depth F = d → sf_scope F = sc →
  enter s d = (F :: rest, c, r) → fresh_from i c →
  scans d (F :: rest) (i + length (flatten e)) (foldM scoped_step_fold (scoped i sc e) (c, r))
    (foldM scan_step (indexed i (flatten e)) s).

Lemma scans_bind d frames n m t d' frames' n' g h :
  scans d frames n m t →
  (∀ c r s, leaves s d frames c r → fresh_from n c → scans d' frames' n' (g (c, r)) (h s)) →
  scans d' frames' n' (m ≫= g) (t ≫= h).
Proof. destruct m as [[c r]| |]; cbn; [|by intros ->..].
  intros (s & -> & ? & ?) Hg. by apply Hg. Qed.

Lemma scans_frame f : Forall scans_exec f → ∀ i d sc F rest c r s,
  frame_at d f → frame_opens f → 0 < d → sf_depth F = d → sf_scope F = sc →
  leaves s d (F :: rest) c r → fresh_from i c →
  scans d (F :: rest) (i + length (flatten_frame f))
    (foldM scoped_step_fold (scoped_frame i sc f) (c, r))
    (foldM scan_step (indexed i (flatten_frame f)) s).
Proof.
  induction 1 as [|e f He Hf IH]; intros i d sc F rest c r s Hat Ho Hd HF Hsc Hs Hc.
  { cbn. exists s. rewrite Nat.add_0_r. done. }
  apply frame_at_cons in Hat as [Hat1 Hat2]. destruct Ho as [Ho1 Ho2].
  unfold flatten_frame in *. cbn [map concat scoped_frame].
  rewrite indexed_app, !foldM_app, length_app, Nat.add_assoc.
  eapply scans_bind; [eapply He; eauto|].
  - rewrite Hs, scan_pop_top by lia. done.
  - intros c' r' s' Hs' Hc'. eapply IH; eauto.
Qed.

Lemma scans_opened f : Forall scans_exec f → f ≠ [] → ∀ i d sc F rest c r s,
  frame_at d f → frame_opens f → 0 < d → sf_depth F = d → sf_scope F = sc →
  enter s d = (F :: rest, c, r) → fresh_from i c →
  scans d (F :: rest) (i + length (flatten_frame f))
    (foldM scoped_step_fold (scoped_frame i sc f) (c, r))
    (foldM scan_step (indexed i (flatten_frame f)) s).
Proof.
  intros Hf Hne i d sc F rest c r s Hat Ho Hd HF Hsc Hs Hc.
  destruct f as [|e f]; [done|]. apply Forall_cons in Hf as [He Hf].
  apply frame_at_cons in Hat as [Hat1 Hat2]. destruct Ho as [Ho1 Ho2].
  unfold flatten_frame in *. cbn [map concat scoped_frame].
  rewrite indexed_app, !foldM_app, length_app, Nat.add_assoc.
  eapply scans_bind; [eapply He; eauto|].
  intros c' r' s' Hs' Hc'. eapply scans_frame; eauto.
Qed.

Lemma exec_opens_step l body :
  exec_opens (Step l body) ↔ (body ≠ [] → opener l = true) ∧ frame_opens body.
Proof. done. Qed.

Lemma opener_no_error l : opener l = true → sl_error l = None.
Proof. unfold opener. intros H. repeat case_match; try discriminate; by apply bool_decide_eq_true in H. Qed.

Lemma scoped_step_fold_eq i sc l b c r :
  scoped_step_fold (c, r) (mkScoped i sc l b) =
  match sl_error l with
  | Some _ => Ok (c, r)
  | None =>
      '(c, r) ← scan_write i sc (log_stack l) l c r;
      Ok (scoped_open (mkScoped i sc l b) (scan_observe sc l c), r)
  end.
Proof. reflexivity. Qed.

Lemma scans_all e : scans_exec e.
Proof.
  induction e as [l body IH] using exec_ind'.
  intros i d sc F rest c r s Hat Ho Hd HF Hsc Hs Hc.
  apply exec_at_step in Hat as [Hl Hat]. apply exec_opens_step in Ho as [Hop Ho].
  rewrite scoped_step, flatten_step. cbn [indexed foldM length].
  rewrite <-Hl in Hs. erewrite scan_step_enter by (eauto; lia).
  rewrite scoped_step_fold_eq, Hsc.
  destruct (sl_error l) eqn:He.
  { destruct body as [|e body]; 
      [|by rewrite opener_no_error in He by (by apply Hop)].
    cbn. eexists. split; [done|]. split; [intros d' Hd'; done|].
    eapply fresh_le, Hc. lia. }
  destruct (scan_write i sc (log_stack l) l c r) as [[c1 r1]| |] eqn:Hw; [|done..].
  cbn [mbind res_bind]. apply fresh_write with (n := i) in Hw; [|done].
  apply (fresh_observe _ sc l) in Hw. revert Hw. generalize (scan_observe sc l c1). clear c1.
  intros c1 Hc1. destruct body as [|e body].
  - pose proof (leaves_bare i d sc l c1 r1 F rest HF Hsc Hl Hc1) as Hb.
    destruct (scan_open _ _ _ _ _ _) as [c2 p]. cbn.
    eexists. split; [done|]. split; [done|].
    apply fresh_scoped_open; [cbn; lia|]. eapply fresh_le, Hc1. lia.
  - pose proof (enter_opened i d sc l c1 r1 F rest HF Hsc Hl (Hop ltac:(done))) as Hb.
    cbn [nonempty]. destruct (scan_open _ _ _ _ _ _) as [c2 p].
    destruct Hb as (Hc2 & G & HG & Hsc' & Hent). rewrite <-Hc2.
    cbn [mbind res_bind]. replace (i + S _)%nat
      with (S i + length (flatten_frame (e :: body)))%nat by lia.
    assert (Hfr : fresh_from (S i) c2).
    { subst c2. apply fresh_scoped_open; [cbn; lia|]. eapply fresh_le, Hc1. lia. }
    pose proof (scans_opened (e :: body) IH ltac:(done) (S i) (d + 1) (child_scope i sc l) G
      (F :: rest) c2 r1 _ Hat Ho ltac:(lia) HG Hsc' Hent Hfr) as Hbody.
    destruct (foldM scoped_step_fold _ _) as [[c3 r3]| |]; cbn in Hbody |- *; [|done..].
    destruct Hbody as (s3 & -> & Hs3 & Hc3). exists s3. split; [done|]. split; [|done].
    intros d' Hd'. rewrite Hs3, scan_pop_under by lia. done.
Qed.

(** ** Indices and scopes of the listing *)

Definition scope_before (i : nat) (sc : option Scope) : Prop := ∀ j, sc = Some (SCall j) → (j < i)%nat.

(** The listing from index [i] on. *)
Definition listing (i : nat) (A : list Scoped) : Prop :=
  ∀ n a, A !! n = Some a → sd_index a = (i + n)%nat ∧ scope_before (i + n) (sd_scope a).

Lemma listing_nil i : listing i [].
Proof. intros n a. by rewrite lookup_nil. Qed.

Lemma listing_app i A B : listing i A → listing (i + length A) B → listing i (A ++ B).
Proof.
  intros HA HB n a. rewrite lookup_app_Some. intros [Hn|[Hle Hn]]; [by apply HA|].
  apply HB in Hn. by replace (i + length A + (n - length A))%nat with (i + n)%nat in Hn by lia.
Qed.

Lemma listing_cons i a A :
  sd_index a = i → scope_before i (sd_scope a) → listing (S i) A → listing i (a :: A).
Proof.
  intros Ha Hsc HA. apply (listing_app i [a] A); [|by rewrite Nat.add_1_r].
  intros [|n] b; cbn; [|done]. rewrite Nat.add_0_r. by intros [= <-].
Qed.

Lemma listing_app_inv i A B : listing i (A ++ B) → listing i A.
Proof. intros H n a Hn. apply H. by apply lookup_app_l_Some. Qed.

Lemma child_scope_before i sc l : scope_before i sc → scope_before (S i) (child_scope i sc l).
Proof.
  intros H j. unfold child_scope. destruct (opc_of _); try done; [intros [= <-]; lia|..];
    intros ->; specialize (H j eq_refl); lia.
Qed.

Definition lists (e : Exec) : Prop := ∀ i sc, scope_before i sc →
  length (scoped i sc e) = length (flatten e) ∧ listing i (scoped i sc e).

Lemma lists_frame f : Forall lists f → ∀ i sc, scope_before i sc →
  length (scoped_frame i sc f) = length (flatten_frame f) ∧ listing i (scoped_frame i sc f).
Proof.
  induction 1 as [|e f He Hf IH]; intros i sc Hsc; [split; [done|apply listing_nil]|].
  unfold flatten_frame in *. cbn [map concat scoped_frame].
  destruct (He i sc Hsc) as [Hlen He']. rewrite !length_app, Hlen.
  destruct (IH (i + length (flatten e))%nat sc) as [Hlen' Hf'].
  { intros j Hj. apply Hsc in Hj. lia. }
  rewrite Hlen'. split; [done|]. apply listing_app; [done|]. by rewrite Hlen.
Qed.

Lemma lists_all e : lists e.
Proof.
  induction e as [l body IH] using exec_ind'. intros i sc Hsc.
  rewrite scoped_step, flatten_step. cbn [length].
  destruct (lists_frame body IH (S i) (child_scope i sc l)) as [Hlen Hb];
    [by apply child_scope_before|].
  rewrite Hlen. split; [done|]. by apply listing_cons.
Qed.

Lemma frame_listing f :
  length (scoped_frame 0 (Some SRoot) f) = length (flatten_frame f) ∧
  listing 0 (scoped_frame 0 (Some SRoot) f).
Proof. apply lists_frame; [|done]. apply Forall_forall. intros e _. apply lists_all. Qed.

(** ** The fold computes the reference *)

Lemma scope_logs_snoc sc A a :
  scope_logs sc (A ++ [a]) = scope_logs sc A ++ (if in_scope sc a then [sd_log a] else []).
Proof.
  unfold scope_logs. rewrite List.filter_app, fmap_app. cbn. by destruct (in_scope sc a).
Qed.

Lemma verdict_snoc ls l :
  verdict (ls ++ [l]) = match verdict ls with BUndecided => verdict [l] | b => b end.
Proof.
  induction ls as [|x ls IH]; [done|]. cbn [verdict app].
  destruct (effectful x); [by destruct (bump_of x)|done].
Qed.

Lemma first_bump_snoc ls l :
  first_bump (ls ++ [l]) = match first_bump ls with None => bump_of l | b => b end.
Proof. induction ls as [|x ls IH]; [by cbn; destruct (bump_of l)|]. cbn. by destruct (bump_of x). Qed.

(** What a successful log of its scope does to a candidate. *)
Definition judge_log (l : StructLog) (c : Candidate) : Candidate :=
  mkCandidate (match cand_bump c with BUndecided => verdict [l] | b => b end)
    (cand_unsupported_op c || unsupported l).

Lemma judge_snoc ls l : judge (ls ++ [l]) = judge_log l (judge ls).
Proof.
  unfold judge, judge_log. cbn. rewrite verdict_snoc, existsb_app. cbn. by rewrite orb_false_r.
Qed.

Lemma judge_log_quiet l c : effectful l = false → unsupported l = false → judge_log l c = c.
Proof.
  intros He Hu. unfold judge_log. cbn [verdict]. rewrite He, Hu, orb_false_r.
  by destruct c as [[]].
Qed.

(** The writes and the observation of a successful log, on each candidate. *)
Definition write_scope (sc : option Scope) (l : StructLog) (c : gmap nat Candidate) :=
  match sc with Some (SCall k) => alter (judge_log l) k c | _ => c end.
Definition write_root (sc : option Scope) (l : StructLog) (r : option Z) : option Z :=
  match sc, r with Some SRoot, None => bump_of l | _, _ => r end.

Lemma scan_write_judges i sc l c r :
  sl_error l = None → operands_ok l →
  ∃ c', scan_write i sc (log_stack l) l c r = Ok (c', write_root sc l r) ∧
    scan_observe sc l c' = write_scope sc l c.
Proof.
  intros He Hok.
  destruct (decide (opc_of (sl_op l) = OP_SSTORE)) as [Hs|Hs].
  { destruct (Hok Hs He) as [[slot Hslot] [value Hvalue]].
    unfold scan_write, scan_observe, observable, write_scope, write_root, bump_of.
    rewrite Hs, Hslot, Hvalue. destruct sc as [[|k]|].
    - destruct r; cbn; rewrite ?andb_false_r, ?andb_true_r; repeat case_match; eauto.
    - eexists. split; [done|]. apply alter_ext. intros c0 _. unfold judge_log, set_bump. cbn.
      unfold effectful, unsupported, bump_of. rewrite Hs, Hslot, Hvalue, orb_false_r.
      by destruct c0 as [[] ?], (_ =? _).
    - eauto. }
  assert (Hb : bump_of l = None) by (unfold bump_of; by destruct (opc_of _)).
  exists (match sc with
    | Some (SCall k) =>
        if unsupported l then alter (λ c, mkCandidate (cand_bump c) true) k c else c
    | _ => c end).
  split.
  { unfold scan_write, write_root, unsupported. rewrite Hb.
    destruct (opc_of _); try done; destruct sc as [[]|]; try done; by destruct r. }
  unfold scan_observe, write_scope. destruct sc as [[|k]|]; [done| |done].
  assert (Hu : observable (sl_op l) = true → unsupported l = false)
    by (unfold observable, unsupported; by destruct (opc_of _)).
  assert (Heff : effectful l = observable (sl_op l))
    by (unfold effectful; by destruct (opc_of _)).
  destruct (observable (sl_op l)) eqn:Ho.
  - rewrite Hu by done. apply alter_ext. intros c0 _. unfold set_bump, judge_log. cbn.
    rewrite Heff, Hb, Hu, orb_false_r by done. by destruct c0 as [[]].
  - symmetry. destruct (unsupported l) eqn:E.
    + apply alter_ext. intros c0 _. unfold judge_log. cbn. rewrite Heff, E, orb_true_r.
      by destruct c0 as [[]].
    + apply alter_id. intros c0 _. by apply judge_log_quiet.
Qed.

Definition judged (A : list Scoped) (p : gmap nat Candidate * option Z) : Prop :=
  p.2 = first_bump (scope_logs SRoot A) ∧ ∀ k, p.1 !! k = reference_candidate A k.

Definition scoped_ok (a : Scoped) : Prop := operands_ok (sd_log a).

(** Before its own index, nothing is known of a call. *)
Lemma listing_unseen A k : listing 0 A → (length A ≤ k)%nat →
  existsb (opened_call k) A = false ∧ existsb (codeless_delegate k) A = false ∧
  scope_logs (SCall k) A = [].
Proof.
  intros HA Hk.
  assert (H : ∀ a, a ∈ A → sd_index a ≠ k ∧ sd_scope a ≠ Some (SCall k)).
  { intros a [n Hn]%list_elem_of_lookup. pose proof (lookup_lt_Some _ _ _ Hn).
    apply HA in Hn as [Hn Hsc]. split; [lia|]. intros E. apply Hsc in E. lia. }
  clear HA Hk. induction A as [|a A IH]; [done|].
  destruct (H a) as [Hi Hsc]; [by left|].
  destruct IH as (IH1 & IH2 & IH3); [intros; apply H; by right|].
  unfold scope_logs in *. cbn [existsb List.filter]. rewrite IH1, IH2.
  unfold opened_call, codeless_delegate, in_scope.
  rewrite (proj2 (Nat.eqb_neq _ _)) by done.
  by rewrite (bool_decide_eq_false_2 (sd_scope a = _)) by done.
Qed.

Lemma reference_failed A a k :
  sl_error (sd_log a) ≠ None → reference_candidate (A ++ [a]) k = reference_candidate A k.
Proof.
  intros He. unfold reference_candidate. rewrite !existsb_app, scope_logs_snoc. cbn.
  assert (Hsc : ∀ sc, in_scope sc a = false)
    by (intros sc; unfold in_scope; by rewrite (bool_decide_eq_false_2 (sl_error _ = None)),
          andb_false_r).
  unfold codeless_delegate, opened_call. rewrite Hsc, (bool_decide_eq_false_2 (sl_error _ = None)),
    andb_false_r by done. cbn. by rewrite !orb_false_r, app_nil_r.
Qed.

Lemma write_scope_lookup sc l c k :
  write_scope sc l c !! k = if bool_decide (sc = Some (SCall k)) then judge_log l <$> c !! k else c !! k.
Proof.
  unfold write_scope. destruct sc as [[|j]|]; [by rewrite bool_decide_eq_false_2..|
    |by rewrite bool_decide_eq_false_2].
  case_bool_decide as E; [injection E as ->; by rewrite lookup_alter_eq|].
  rewrite lookup_alter_ne; [done|congruence].
Qed.

Lemma scoped_open_lookup a c k :
  scoped_open a c !! k =
  if bool_decide (opc_of (sl_op (sd_log a)) = OP_CALL) && sd_opened a && (sd_index a =? k)%nat
  then Some (mkCandidate BUndecided false)
  else if bool_decide (sd_scope a = Some (SCall k)) && negb (sd_opened a) &&
    match opc_of (sl_op (sd_log a)) with OP_DELEGATECALL | OP_CALLCODE => true | _ => false end
  then None else c !! k.
Proof.
  unfold scoped_open. destruct (decide (opc_of (sl_op (sd_log a)) = OP_CALL)) as [->|Hc].
  { rewrite bool_decide_eq_true_2, andb_false_r by done. destruct (sd_opened a); [|done]. cbn.
    destruct (Nat.eqb_spec (sd_index a) k) as [->|]; [apply lookup_insert_eq|].
    by rewrite lookup_insert_ne. }
  rewrite (bool_decide_eq_false_2 (_ = OP_CALL)) by done. cbn [andb].
  assert (Hd : (match sd_opened a, sd_scope a with false, Some (SCall j) => delete j c | _, _ => c end)
    !! k = if bool_decide (sd_scope a = Some (SCall k)) && negb (sd_opened a) then None else c !! k).
  { destruct (sd_opened a); [by rewrite andb_false_r|]. rewrite andb_true_r.
    destruct (sd_scope a) as [[|j]|]; [by rewrite bool_decide_eq_false_2| |
      by rewrite bool_decide_eq_false_2].
    case_bool_decide as Ej; [injection Ej as ->; apply lookup_delete_eq|].
    rewrite lookup_delete_ne; congruence. }
  destruct (opc_of _); rewrite ?andb_false_r, ?andb_true_r; done.
Qed.

Lemma judged_step A a p :
  listing 0 (A ++ [a]) → scoped_ok a → judged A p →
  ∃ p', scoped_step_fold p a = Ok p' ∧ judged (A ++ [a]) p'.
Proof.
  intros HA Hok [Hr Hc]. destruct p as [c r], a as [i sc l b]. cbn in Hr, Hc, Hok.
  destruct (HA (length A) (mkScoped i sc l b)) as [Hi Hsc].
  { by rewrite lookup_app_r, Nat.sub_diag by lia. }
  cbn in Hi, Hsc. apply listing_app_inv in HA. rewrite scoped_step_fold_eq.
  destruct (sl_error l) eqn:He.
  { eexists. split; [done|]. split; cbn.
    - rewrite scope_logs_snoc, Hr. unfold in_scope. cbn. rewrite He.
      by rewrite andb_false_r, app_nil_r.
    - intros k. rewrite reference_failed; [done|]. cbn. by rewrite He. }
  destruct (scan_write_judges i sc l c r He Hok) as (c' & -> & Ho).
  eexists. split; [reflexivity|]. split; cbn [fst snd].
  - rewrite scope_logs_snoc. unfold in_scope, write_root. cbn. rewrite He.
    rewrite (bool_decide_eq_true_2 (None = None)), andb_true_r by done.
    destruct sc as [[|j]|]; rewrite ?app_nil_r; try done; [|by destruct r..].
    rewrite bool_decide_eq_true_2, first_bump_snoc, <-Hr by done. by destruct r.
  - intros k. rewrite Ho, scoped_open_lookup, write_scope_lookup, Hc. cbn.
    unfold reference_candidate. rewrite !existsb_app, scope_logs_snoc. cbn [existsb].
    rewrite !orb_false_r.
    assert (Hop : opened_call k (mkScoped i sc l b) =
      bool_decide (opc_of (sl_op l) = OP_CALL) && b && (i =? k)%nat).
    { unfold opened_call. cbn. rewrite He, (bool_decide_eq_true_2 (None = None)) by done.
      destruct (i =? k)%nat, b, (bool_decide _); done. }
    assert (Hcd : codeless_delegate k (mkScoped i sc l b) =
      bool_decide (sc = Some (SCall k)) && negb b &&
      match opc_of (sl_op l) with OP_DELEGATECALL | OP_CALLCODE => true | _ => false end).
    { unfold codeless_delegate, in_scope. cbn.
      by rewrite He, (bool_decide_eq_true_2 (None = None)), andb_true_r by done. }
    assert (Hin : in_scope (SCall k) (mkScoped i sc l b) = bool_decide (sc = Some (SCall k))).
    { unfold in_scope. cbn. by rewrite He, (bool_decide_eq_true_2 (None = None)), andb_true_r. }
    rewrite Hin. rewrite <-Hop, <-Hcd. clear Hin.
    destruct (decide (length A ≤ k)%nat) as [Hk|Hk].
    + destruct (listing_unseen A k HA Hk) as (-> & Hu & ->). rewrite Hu. cbn.
      assert (Hne : sc ≠ Some (SCall k)) by (intros E; apply Hsc in E; lia).
      rewrite Hcd, (bool_decide_eq_false_2 (sc = _)) by done. cbn.
      by destruct (opened_call k _).
    + assert (Ho' : opened_call k (mkScoped i sc l b) = false).
      { rewrite Hop, (proj2 (Nat.eqb_neq _ _)) by lia. apply andb_false_r. }
      rewrite Ho', orb_false_r. clear Hop Ho' Hcd.
      destruct (codeless_delegate k (mkScoped i sc l b)) eqn:Ecd.
      { by rewrite orb_true_r, andb_false_r. }
      rewrite orb_false_r. case_bool_decide as E; [|by rewrite app_nil_r].
      destruct (_ && _); [|done]. cbn. by rewrite judge_snoc.
Qed.

Lemma judged_fold A :
  listing 0 A → Forall scoped_ok A →
  ∃ p, foldM scoped_step_fold A (∅, None) = Ok p ∧ judged A p.
Proof.
  induction A as [|a A IH] using rev_ind; intros HA Hok.
  { exists (∅, None). done. }
  apply Forall_app in Hok as [HokA Hok]. apply Forall_inv in Hok.
  destruct IH as (p & Hp & Hj); [by eapply listing_app_inv|done|].
  destruct (judged_step A a p HA Hok Hj) as (p' & Hp' & Hj').
  exists p'. split; [|done]. rewrite foldM_app, Hp. cbn. by rewrite Hp'.
Qed.

(** ** The whole scan *)

Lemma scoped_logs_all e : ∀ i sc, sd_log <$> scoped i sc e = flatten e.
Proof.
  induction e as [l body IH] using exec_ind'. intros i sc. rewrite scoped_step, flatten_step.
  cbn [fmap list_fmap]. f_equal. generalize (S i) (child_scope i sc l).
  induction IH as [|e f He Hf IH]; intros j sc'; [done|].
  unfold flatten_frame in *. cbn [map concat scoped_frame]. by rewrite fmap_app, He, IH.
Qed.

Lemma scoped_frame_logs f i sc : sd_log <$> scoped_frame i sc f = flatten_frame f.
Proof.
  revert i. induction f as [|e f IH]; intros i; [done|].
  unfold flatten_frame in *. cbn [map concat scoped_frame].
  by rewrite fmap_app, scoped_logs_all, IH.
Qed.

(** A log that is no opener leaves nothing pending. *)
Lemma scan_step_settles s i l s' :
  scan_step s (i, l) = Ok s' → opener l = false → ss_pending s' = None.
Proof.
  unfold scan_step. intros H Ho. apply bind_Ok_iff in H as (_ & _ & H).
  destruct (scan_take_pending s l) as [c r frames p].
  apply bind_Ok_iff in H as (cur & _ & H).
  destruct (sl_error l) eqn:He; [by injection H as <-|].
  apply bind_Ok_iff in H as ([c1 r1] & _ & H).
  unfold opener in Ho. rewrite He in Ho. unfold scan_open in H.
  destruct (opc_of (sl_op l)); try discriminate; by injection H as <-.
Qed.

Lemma scan_settles logs i s s' :
  ss_pending s = None → (∀ l, last logs = Some l → opener l = false) →
  foldM scan_step (indexed i logs) s = Ok s' → ss_pending s' = None.
Proof.
  intros Hs Hl H. destruct logs as [|l logs _] using rev_ind; [by injection H as <-|].
  rewrite indexed_app, foldM_app in H. apply bind_Ok_iff in H as (s1 & _ & H).
  cbn [indexed foldM] in H. apply bind_Ok_iff in H as (s2 & H & Hs2). injection Hs2 as <-.
  eapply scan_step_settles; [exact H|]. apply Hl, last_snoc.
Qed.

(** A trace whose last log opens nothing, as one that ends in a halting opcode or an error. *)
Definition settled (f : list Exec) : Prop :=
  ∀ l, last (flatten_frame f) = Some l → opener l = false.

Lemma initial_leaves root : leaves (initial_scan_state root) 1 [mkScanFrame 1 (Some root) (Some SRoot)] ∅ None.
Proof. done. Qed.

(** C7: The scan of a tree's listing decides each [CALL] by the operations of its callee's own scope
    alone: it is a candidate exactly when it succeeded, opened a frame, and every delegated call of
    that scope opened one; its verdict is given by the scope's first storage write, external call or
    log; and the root's index is that of the first counter increment in the root's scope. *)
Theorem scan_candidates_tree f root :
  frame_at 1 f → frame_opens f → settled f → Forall operands_ok (flatten_frame f) →
  let A := scoped_frame 0 (Some SRoot) f in
  ∃ cands, scan_candidates (flatten_frame f) root = Ok (cands, first_bump (scope_logs SRoot A)) ∧
    ∀ k, cands !! k = reference_candidate A k.
Proof.
  intros Hat Ho Hs Hok A. destruct (frame_listing f) as [_ HA].
  destruct (judged_fold A HA) as ([c r] & Hfold & Hr & Hc).
  { unfold A. apply (Forall_fmap sd_log operands_ok). by rewrite scoped_frame_logs. }
  pose proof (scans_frame f) as Hscan. specialize (Hscan ltac:(apply Forall_forall; intros; apply scans_all)).
  specialize (Hscan 0%nat 1 (Some SRoot)
    (mkScanFrame 1 (Some root) (Some SRoot)) [] ∅ None _ Hat Ho eq_refl eq_refl eq_refl
    (initial_leaves root) ltac:(done)). fold A in Hscan. rewrite Hfold in Hscan.
  destruct Hscan as (s & Hrun & Hleaves & _).
  exists c. split; [|done]. unfold scan_candidates. rewrite enumerate_indexed, Hrun. cbn.
  pose proof (scan_settles _ _ (initial_scan_state root) s eq_refl Hs Hrun) as Hp.
  specialize (Hleaves 1 ltac:(lia)). unfold enter in Hleaves. rewrite Hp in Hleaves.
  cbn in Hr. rewrite <-Hr. injection Hleaves as _ -> ->. done.
Qed.

Definition scan_sample : list Exec := [
  Step (sample_log 1 "SSTORE" 100 [6; STATE_TRACKER_SLOT]) [];
  Step (sample_log 1 "CALL" 90 [0; 0; 0; 0; 0; 77; 3]) [
    Step (sample_log 2 "DELEGATECALL" 80 [0; 0; 0; 0; 78; 3]) [
      Step (sample_log 3 "SSTORE" 70 [4; STATE_TRACKER_SLOT]) [];
      Step (sample_log 3 "STOP" 65 []) []];
    Step (sample_log 2 "SSTORE" 60 [1; 2]) [];
    Step (sample_log 2 "STOP" 50 []) []];
  Step (sample_log 1 "CALL" 40 [0; 0; 0; 0; 0; 77; 3]) [
    Step (sample_log 2 "SSTORE" 36 [4; STATE_TRACKER_SLOT]) [];
    Step (sample_log 2 "DELEGATECALL" 35 [0; 0; 0; 0; 4; 3]) [];
    Step (sample_log 2 "STOP" 34 []) []];
  Step (sample_log 1 "STOP" 30 []) []].

#[export] Instance operands_ok_dec l : Decision (operands_ok l).
Proof. unfold operands_ok. apply _. Defined.

Lemma scan_candidates_tree_witness :
  frame_at 1 scan_sample ∧ settled scan_sample ∧
  ∃ cands, scan_candidates (flatten_frame scan_sample) 9 = Ok (cands, Some 5) ∧
    cands !! 1%nat = Some (mkCandidate (BFirst 3) false) ∧ cands !! 7%nat = None.
Proof.
  assert (Hat : frame_at 1 scan_sample) by (cbn; tauto).
  assert (Hs : settled scan_sample) by (intros l [= <-]; reflexivity).
  split; [exact Hat|]. split; [exact Hs|].
  destruct (scan_candidates_tree scan_sample 9 Hat) as (cands & Hrun & Hc);
    [cbn; tauto|exact Hs|by_compute|].
  exists cands. rewrite !Hc. split; [exact Hrun|]. split; vm_compute; reflexivity.
Defined.

(** A consumer's callee that increments its counter first, and then delegates to an account without
    code, is no candidate: the scan takes the delegated call that opened no frame for the call of
    the frame it runs in. *)
Example codeless_delegate_drops_candidate :
  let A := scoped_frame 0 (Some SRoot) scan_sample in
  verdict (scope_logs (SCall 7) A) = BFirst 3 ∧
  existsb unsupported (scope_logs (SCall 7) A) = false ∧
  match scan_candidates (flatten_frame scan_sample) 9 with
  | Ok (cands, _) => cands !! 7%nat = None
  | _ => False
  end.
Proof. vm_compute. done. Qed.
