(* ===== verification/Prune.v ===== *)
(** * Pruning and compacting the frame tree

    The end of [split_frame_tree] of [crates/core/src/nested.rs] and the functions around it: frames
    opened inside a reverted one are dropped, frames that do not pay for their nesting overhead turn
    back into [CALL]s, and the programs that are left are renumbered. *)

From S2P Require Import Prelude.
From S2P Require Import Types.
From S2P Require Import Encoding.
From S2P Require Import Trace.
From S2P Require Import Heuristic.
From S2P Require Import SimProfile.
From S2P Require Import Scan.
From S2P Require Import FrameTree.

(** ** Data *)

Record FrameProgram := mkFrameProgram {
  fp_target : Z;
  fp_caller : Z;
  fp_value : Z;
  fp_calldata_hash : Z;
  fp_transition_index : option Z;
  fp_updates : list StateUpdate;
  fp_children : list nat
}.

Record FrameTreeExtract := mkFrameTreeExtract {
  fte_frames : list FrameProgram;
  fte_skipped_opcodes : gset string;
  fte_call_gas_total : Z;
  fte_callee_gas_total : Z;
  fte_create_gas_total : Z;
  fte_counter_moves : gset Z
}.

Record NestingCostModel := mkNestingCostModel {
  frame_overhead_gas : Z;
  witness_byte_gas : Z;
  witness_byte_gas_per_level : Z
}.

Definition NESTING_COST_MODEL_V1 : NestingCostModel := mkNestingCostModel 20000 16 1.

Definition ESTIMATED_PROOF_WORDS : Z := 8.
Definition WITNESS_HEAD_BYTES : Z := 8 * 32.

(** ** Dropping what a reverted frame opened *)

Definition parent_dropped (programs : list ProgramState) (p : ProgramState) : Result bool :=
  match ps_parent p with
  | Some parent => q ← program_at programs parent; Ok (ps_dropped q)
  | None => Ok false
  end.

(** One round of the loop of [drop_descendants_of_dropped]. *)
Definition drop_if_orphan (programs : list ProgramState) (id : nat) : Result (list ProgramState) :=
  p ← program_at programs id;
  d ← parent_dropped programs p;
  Ok (if (d : bool) then <[id := set_ps_dropped true p]> programs else programs).

Definition drop_range (programs : list ProgramState) (first : nat) : Result (list ProgramState) :=
  foldM drop_if_orphan (seq first (length programs - first)) programs.

Definition drop_descendants_of_dropped (programs : list ProgramState)
  : Result (list ProgramState) := drop_range programs 1.

(** [program.children.retain(|c| !dropped[*c])] *)
Definition kept_children (programs : list ProgramState) (children : list nat)
  : Result (list nat) :=
  foldM (λ acc c, q ← program_at programs c; Ok (if ps_dropped q then acc else acc ++ [c]))
    children [].

Definition retain_children (programs : list ProgramState) : Result (list ProgramState) :=
  mapM (λ p, cs ← kept_children programs (ps_children p); Ok (set_ps_children cs p)) programs.

(** ** Pruning *)

Fixpoint depth_loop (fuel : nat) (programs : list ProgramState) (id : nat) (depth : Z) : Result Z :=
  match fuel with
  | O => Ok depth
  | S fuel =>
      p ← program_at programs id;
      match ps_parent p with
      | Some parent => depth_loop fuel programs parent (u64_add depth 1)
      | None => Ok depth
      end
  end.

(** Parents come before their children, so a chain visits no program twice. *)
Definition depth_of (programs : list ProgramState) (id : nat) : Result Z :=
  depth_loop (length programs) programs id 0.

(** [iter().position(|c| *c == id)] *)
Fixpoint position (id : nat) (children : list nat) : option nat :=
  match children with
  | [] => None
  | c :: children => if (c =? id)%nat then Some 0%nat else S <$> position id children
  end.

(** [iter_mut().filter(Nested).nth(position)], and the assignment through it. *)
Fixpoint replace_nested (position : nat) (u : StateUpdate) (updates : list StateUpdate)
  : option (list StateUpdate) :=
  match updates with
  | [] => None
  | x :: updates =>
      if is_nested x then
        match position with
        | O => Some (u :: updates)
        | S position => cons x <$> replace_nested position u updates
        end
      else cons x <$> replace_nested position u updates
  end.

(** [Vec::remove]. *)
Definition remove_at {A} (i : nat) (l : list A) : list A := take i l ++ drop (S i) l.

Definition sum_at (values : list Z) (children : list nat) : Result (list Z) :=
  mapM (λ c, expect (values !! c) "index out of bounds") children.

(** The size assumed for the witness of [id] (lines 1158-1166). *)
Definition witness_size `{Externals} (p : ProgramState) (witness_bytes : list Z) : Result Z :=
  let program_bytes := zlen (encode_state_updates_to_abi (default [] (ps_updates p))) in
  children_bytes ← sum_at witness_bytes (ps_children p);
  Ok (u64_add (WITNESS_HEAD_BYTES + program_bytes + ESTIMATED_PROOF_WORDS * 32)
        (u64_sum children_bytes)).

(** The gas nesting [id] adds (lines 1168-1172). *)
Definition nesting_overhead (cost : NestingCostModel) (depth witness_bytes : Z) : Z :=
  let per_byte := u64_add (witness_byte_gas cost)
    (u64_mul depth (witness_byte_gas_per_level cost)) in
  sat_add (frame_overhead_gas cost) (sat_mul witness_bytes per_byte).

(** What nesting [id] saves (lines 1173-1178). *)
Definition nesting_benefit (p : ProgramState) (children_savings : list Z) : Z :=
  let computation := sat_sub (sat_sub (ps_native_gas p) (ps_effect_gas p)) (ps_child_call_gas p) in
  sat_add computation (u64_sum children_savings).

(** Lines 1184-1213: the frame turns back into its [CALL], with its whole subtree. *)
Definition unnest (programs : list ProgramState) (id : nat) : Result (list ProgramState) :=
  p ← program_at programs id;
  parent ← expect (ps_parent p) "non-root frames have a parent";
  q ← program_at programs parent;
  pos ← expect (position id (ps_children q)) "a kept frame is among its parent's children";
  fallback ← expect (ps_fallback p) "nested frames keep their CALL";
  updates ← expect (ps_updates q) "a kept parent has a program";
  updates ← expect (replace_nested pos (UCall fallback) updates) "one NESTED op per child";
  programs ← update_program programs parent (λ q,
    set_ps_children (remove_at pos (ps_children q)) (set_ps_updates (Some updates) q));
  programs ← update_program programs id (λ p, set_ps_pruned true (set_ps_dropped true p));
  drop_range programs (S id).

(** One round of the loop of [prune_unprofitable]: the programs, the witness sizes and the net
    savings so far. *)
Definition prune_step `{Externals} (cost : NestingCostModel)
  (st : list ProgramState * list Z * list Z) (id : nat)
  : Result (list ProgramState * list Z * list Z) :=
  let '(programs, witness_bytes, net_savings) := st in
  p ← program_at programs id;
  if ps_dropped p then Ok st
  else
    size ← witness_size p witness_bytes;
    let witness_bytes := <[id := size]> witness_bytes in
    depth ← depth_of programs id;
    children_savings ← sum_at net_savings (ps_children p);
    let overhead := nesting_overhead cost depth size in
    let benefit := nesting_benefit p children_savings in
    if overhead <? benefit then
      Ok (programs, witness_bytes, <[id := benefit - overhead]> net_savings)
    else
      programs ← unnest programs id;
      Ok (programs, witness_bytes, net_savings).

Definition prune_unprofitable `{Externals} (programs : list ProgramState)
  (cost : NestingCostModel) : Result (list ProgramState) :=
  let n := length programs in
  '(programs, _, _) ← foldM (prune_step cost) (reverse (seq 1 (n - 1)))
    (programs, replicate n 0, replicate n 0);
  Ok programs.

(** ** Totals and compaction *)

Definition native_call_gas_of (programs : list ProgramState) (gas : ProgramState → Z * Z)
  (p : ProgramState) : Result Z :=
  if negb (ps_dropped p) then Ok (gas p).1
  else if ps_pruned p then
    match ps_parent p with
    | Some parent =>
        q ← program_at programs parent;
        Ok (if negb (ps_dropped q) then (gas p).2 else 0)
    | None => Ok 0
    end
  else Ok 0.

Definition native_call_gas (programs : list ProgramState) (gas : ProgramState → Z * Z)
  : Result Z :=
  gs ← mapM (native_call_gas_of programs gas) programs; Ok (u64_sum gs).

Definition is_kept (p : ProgramState) : bool := negb (ps_dropped p).

(** [remap[c]]: the number of kept programs before [c]. A dropped program's entry is [usize::MAX]. *)
Definition remap (programs : list ProgramState) (c : nat) : Result nat :=
  p ← program_at programs c;
  Ok (if is_kept p then length (List.filter is_kept (take c programs)) else Z.to_nat usize_max).

Definition compact_program (programs : list ProgramState) (p : ProgramState)
  : Result FrameProgram :=
  updates ← ok_or (ps_updates p) ENeverReturned;
  children ← mapM (remap programs) (ps_children p);
  Ok (mkFrameProgram (ps_target p) (ps_caller p) (ps_value p) (ps_calldata_hash p)
        (ps_transition_index p) updates children).

Definition compact (programs : list ProgramState) : Result (list FrameProgram) :=
  mapM (compact_program programs) (List.filter is_kept programs).

(** ** The split *)

(** Lines 1100-1121: from the programs of the walk to the extract. *)
Definition finish_split `{Externals} (cost : NestingCostModel) (skipped : gset string)
  (programs : list ProgramState) (root : WalkFrame) : Result FrameTreeExtract :=
  programs ← drop_descendants_of_dropped programs;
  programs ← retain_children programs;
  programs ← prune_unprofitable programs cost;
  call_gas_total ← native_call_gas programs (λ p, (ps_direct_call_gas p, ps_native_gas p));
  callee_gas_total ← native_call_gas programs
    (λ p, (ps_direct_callee_gas p, ps_native_callee_gas p));
  create_gas_total ← native_call_gas programs (λ p, (ps_direct_create_gas p, 0));
  frames ← compact programs;
  Ok (mkFrameTreeExtract frames skipped call_gas_total callee_gas_total create_gas_total
        (counter_moves (wf_journal root))).

Definition split_frame_tree `{Externals} (trace : DefaultFrame) (root : Z)
  (eligibility : Eligibility) (cost : NestingCostModel) : Result FrameTreeExtract :=
  '(candidates, root_index) ← scan_candidates (df_struct_logs trace) root;
  s ← foldM (split_step eligibility candidates) (enumerate (df_struct_logs trace))
    (initial_split_state root root_index);
  '(programs, root_frame) ← finish_root s;
  finish_split cost (sp_skipped_opcodes s) programs root_frame.

Definition compute_frame_tree_canonical `{Externals} (trace : DefaultFrame) (root : Z)
  (is_nestable : Z → bool) (cost : NestingCostModel) : Result FrameTreeExtract :=
  split_frame_tree trace root (Consumers is_nestable) cost.

Definition compute_frame_tree_hypothetical `{Externals} (trace : DefaultFrame) (root : Z)
  (owned : gset Z) (cost : NestingCostModel) : Result FrameTreeExtract :=
  split_frame_tree trace root (Hypothetical owned) cost.

(** trace.rs: the canonical extraction is the split with nothing nestable. *)
Definition compute_state_updates_canonical `{Externals} (trace : DefaultFrame) (target : Z)
  : Result (list StateUpdate * gset string * Z) :=
  tree ← compute_frame_tree_canonical trace target (λ _, false) NESTING_COST_MODEL_V1;
  root ← expect (head (fte_frames tree)) "a frame tree always has its root frame";
  Ok (fp_updates root, fte_skipped_opcodes tree, fte_call_gas_total tree).

(** ** Pricing helpers *)

Definition without_nested_ops (updates : list StateUpdate) : list StateUpdate :=
  List.filter (λ u, negb (is_nested u)) updates.

Definition frame_tree_total (frame_gas : list Z) (cost : NestingCostModel) : Z :=
  fold_left (λ total p,
    sat_add total
      (if (p.1 =? 0)%nat then p.2
       else sat_add (sat_sub p.2 BASE_TX_COST) (frame_overhead_gas cost)))
    (enumerate frame_gas) 0.

Inductive NotNestedReason : Type := KeptAsCall | NotReached.

Definition called_targets (updates : list StateUpdate) : list Z :=
  flat_map (λ u, match u with UCall call => [call_target call] | _ => [] end) updates.

Definition unnested_owned (owned : gset Z) (frames : list FrameProgram)
  : list (Z * NotNestedReason) :=
  let framed : gset Z := list_to_set (fp_target <$> frames) in
  let called : gset Z := list_to_set (called_targets (flat_map fp_updates frames)) in
  (λ a, (a, if bool_decide (a ∈ called) then KeptAsCall else NotReached)) <$>
    List.filter (λ a, negb (bool_decide (a ∈ framed))) (set_items owned).

(** ** Which owned contracts got no frame *)

Lemma unnested_owned_spec owned frames a :
  a ∈ (unnested_owned owned frames).*1 ↔ a ∈ owned ∧ a ∉ fp_target <$> frames.
Proof.
  unfold unnested_owned. rewrite <-list_fmap_compose. unfold compose. cbn [fst].
  rewrite list_fmap_id, list_elem_of_In, filter_In, <-list_elem_of_In, set_items_elem.
  by rewrite negb_true_iff, bool_decide_eq_false, elem_of_list_to_set.
Qed.

(** ... because a call to them stayed a call, or nothing called them. *)
Lemma unnested_owned_reason owned frames a reason :
  (a, reason) ∈ unnested_owned owned frames →
  reason = KeptAsCall ↔
    ∃ f call, f ∈ frames ∧ UCall call ∈ fp_updates f ∧ call_target call = a.
Proof.
  unfold unnested_owned. intros (b & [= -> ->] & _)%list_elem_of_fmap.
  transitivity (b ∈ called_targets (flat_map fp_updates frames)).
  { rewrite <-(elem_of_list_to_set (C := gset Z)). case_bool_decide; by split. }
  unfold called_targets. rewrite list_elem_of_In, in_flat_map. split.
  - intros (u & Hu & Hb). destruct u as [|call| | | | | | | |]; try by destruct Hb.
    destruct Hb as [<-|[]]. apply in_flat_map in Hu as (f & Hf & Hu).
    exists f, call. by rewrite !list_elem_of_In.
  - intros (f & call & Hf & Hu & <-). exists (UCall call). split; [|by left].
    apply in_flat_map. exists f. by rewrite <-!list_elem_of_In.
Qed.
