(* ===== verification/EncodeTree.v ===== *)
(** * Encoding a frame tree

    [encode_frame_tree] of [crates/core/src/nested.rs]: every frame hashed bottom-up into a leaf, the
    tree built over the leaves, and the witnesses bottom-up. The theorems characterise when it
    succeeds, that every [NESTED] op names the leaf of its own child, and that every proof it packages
    is accepted against the root it returns. *)

From S2P Require Import Prelude.
From S2P Require Import Types.
From S2P Require Import Instances.
From S2P Require Import Encoding.
From S2P Require Import Merkle.
From S2P Require Import Prune.

Record EncodedTree := mkEncodedTree {
  et_root : Z;
  et_leaves : list Z;
  et_frame_leaves : list Z;
  et_programs : list (list Z);
  et_witnesses : list (list Z);
  et_root_children : list (list Z);
  et_root_proof : list Z;
  et_expiry_proof : list Z
}.

(** The loop over a frame's updates (lines 1314-1324): the updates with their [childLeaf]s, and the
    children not consumed. *)
Fixpoint link_children (i n : nat) (frame_leaves : list Z) (updates : list StateUpdate)
  (children : list nat) : Result (list StateUpdate * list nat) :=
  match updates with
  | [] => Ok ([], children)
  | UNested nested :: updates =>
      match children with
      | [] => Err (EMoreNested i)
      | child :: children =>
          if ((child <=? i) || (n <=? child))%nat then Err (EChildOrder i child)
          else
            leaf ← expect (frame_leaves !! child) "index out of bounds";
            '(updates, children) ← link_children i n frame_leaves updates children;
            Ok (UNested (mkNested (nested_target nested) (nested_value nested) leaf) :: updates,
                children)
      end
  | u :: updates =>
      '(updates, children) ← link_children i n frame_leaves updates children;
      Ok (u :: updates, children)
  end.

Section encode.
Context `{Externals}.
Variables (root_selector root_value chain_id expiry_block : Z).

Definition frame_leaf (i : nat) (frame : FrameProgram) (index : Z) (program : list Z) : Z :=
  if (i =? 0)%nat then root_leaf index (fp_target frame) root_selector program root_value
  else nested_leaf chain_id (fp_target frame) index (fp_caller frame) (fp_value frame)
         (fp_calldata_hash frame) program.

(** One round of the first loop (lines 1310-1345). *)
Definition encode_frame (frames : list FrameProgram) (st : list Z * list (list Z)) (i : nat)
  : Result (list Z * list (list Z)) :=
  let '(frame_leaves, programs) := st in
  frame ← expect (frames !! i) "index out of bounds";
  '(updates, children) ←
    link_children i (length frames) frame_leaves (fp_updates frame) (fp_children frame);
  _ ← bail_if (negb (length children =? 0)%nat) (EMoreChildren i);
  let program := encode_state_updates_to_abi updates in
  index ← ok_or (fp_transition_index frame) (ENoTransitionIndex i);
  Ok (<[i := frame_leaf i frame index program]> frame_leaves, <[i := program]> programs).

Definition witness_at (witnesses : list (list Z)) (c : nat) : Result (list Z) :=
  expect (witnesses !! c) "index out of bounds".

(** [struct Witness], encoded. *)
Definition encode_witness (calldata_hash : Z) (program proof : list Z)
  (children : list (list Z)) : list Z :=
  abi_encode [AFixedBytes 32 calldata_hash; ABytes program; AFixed32Array proof;
              ABytesArray children].

(** One round of the second loop (lines 1353-1365). *)
Definition build_witness (frames : list FrameProgram) (programs : list (list Z)) (leaves : list Z)
  (witnesses : list (list Z)) (i : nat) : Result (list (list Z)) :=
  frame ← expect (frames !! i) "index out of bounds";
  program ← expect (programs !! i) "index out of bounds";
  proof ← merkle_proof leaves (i + 1);
  children ← mapM (witness_at witnesses) (fp_children frame);
  Ok (<[i := encode_witness (fp_calldata_hash frame) program proof children]> witnesses).

Definition encode_frame_tree (frames : list FrameProgram) : Result EncodedTree :=
  let n := length frames in
  match frames with
  | [] => Err ENoRootFrame
  | root_frame :: _ =>
      '(frame_leaves, programs) ←
        foldM (encode_frame frames) (reverse (seq 0 n)) (replicate n 0, replicate n []);
      let leaves := expiry_leaf chain_id (fp_target root_frame) expiry_block :: frame_leaves in
      root ← merkle_root leaves;
      witnesses ← foldM (build_witness frames programs leaves) (reverse (seq 1 (n - 1)))
        (replicate n []);
      root_children ← mapM (witness_at witnesses) (fp_children root_frame);
      root_proof ← merkle_proof leaves 1;
      expiry_proof ← merkle_proof leaves 0;
      Ok (mkEncodedTree root leaves frame_leaves programs witnesses root_children root_proof
            expiry_proof)
  end.

(** ** Specification *)

Definition nested_count (us : list StateUpdate) : nat := length (List.filter is_nested us).

(** A frame in its place: one child per [NESTED] op, each later in pre-order, and an index. *)
Definition frame_ok (n i : nat) (f : FrameProgram) : Prop :=
  nested_count (fp_updates f) = length (fp_children f) ∧
  Forall (λ c, (i < c < n)%nat) (fp_children f) ∧
  is_Some (fp_transition_index f).

Definition tree_ok (frames : list FrameProgram) : Prop :=
  frames ≠ [] ∧ ∀ i f, frames !! i = Some f → frame_ok (length frames) i f.

(** A frame's updates with each [NESTED] op naming its child's leaf. *)
Fixpoint linked (frame_leaves : list Z) (updates : list StateUpdate) (children : list nat)
  : list StateUpdate :=
  match updates, children with
  | UNested x :: updates, c :: children =>
      UNested (mkNested (nested_target x) (nested_value x) (default 0 (frame_leaves !! c))) ::
      linked frame_leaves updates children
  | u :: updates, children => u :: linked frame_leaves updates children
  | [], _ => []
  end.

(** ** Lemmas *)

Lemma nested_count_cons u us :
  nested_count (u :: us) = ((if is_nested u then 1 else 0) + nested_count us)%nat.
Proof. unfold nested_count; cbn. by destruct (is_nested u). Qed.

Lemma link_children_ok i n leaves us cs :
  (n ≤ length leaves)%nat →
  Forall (λ c, (i < c < n)%nat) cs → (nested_count us ≤ length cs)%nat →
  link_children i n leaves us cs = Ok (linked leaves us cs, drop (nested_count us) cs).
Proof.
  intros Hn. revert cs. induction us as [|u us IH]; intros cs Hcs Hlen; [done|].
  rewrite nested_count_cons in *.
  destruct (is_nested u) eqn:Hu.
  - destruct u as [| | | | | | | | |x]; try discriminate Hu. cbn [link_children linked].
    destruct cs as [|c cs]; [cbn in Hlen; lia|].
    apply Forall_cons in Hcs as [Hc Hcs].
    rewrite (proj2 (Nat.leb_gt c i)), (proj2 (Nat.leb_gt n c)) by lia. cbn [orb].
    destruct (lookup_lt_is_Some_2 leaves c) as [leaf Hleaf]; [lia|].
    rewrite Hleaf. cbn [expect mbind res_bind]. rewrite IH by (done || (cbn in Hlen; lia)).
    done.
  - cbn [Nat.add] in *.
    assert (link_children i n leaves (u :: us) cs =
      ('(updates, children) ← link_children i n leaves us cs; Ok (u :: updates, children))) as ->
      by (destruct u; done || discriminate Hu).
    rewrite IH by done. cbn [mbind res_bind]. by destruct u.
Qed.

(** A round that succeeds had a frame in its place. *)
Lemma link_children_inv i n leaves us cs us' cs' :
  link_children i n leaves us cs = Ok (us', cs') →
  (nested_count us ≤ length cs)%nat ∧ cs' = drop (nested_count us) cs ∧
  Forall (λ c, (i < c < n)%nat) (take (nested_count us) cs).
Proof.
  revert cs us' cs'. induction us as [|u us IH]; intros cs us' cs' Hl.
  { cbn in Hl. injection Hl as <- <-. cbn. split_and!; [lia|done|constructor]. }
  rewrite nested_count_cons. destruct (is_nested u) eqn:Hu.
  - destruct u as [| | | | | | | | |x]; try discriminate Hu. cbn [link_children] in Hl.
    destruct cs as [|c cs]; [done|].
    destruct (Nat.leb_spec c i); [done|]. destruct (Nat.leb_spec n c); [done|].
    cbn [orb] in Hl. destruct (leaves !! c); [|done]. cbn [expect mbind res_bind] in Hl.
    destruct (link_children i n leaves us cs) as [[us1 cs1]| |] eqn:Hrec; [|done..].
    cbn [mbind res_bind] in Hl. injection Hl as <- <-.
    destruct (IH _ _ _ Hrec) as (Hlen & -> & Hall). cbn [Nat.add length drop take].
    split_and!; [lia|done|]. constructor; [lia|done].
  - assert (link_children i n leaves (u :: us) cs =
      ('(updates, children) ← link_children i n leaves us cs; Ok (u :: updates, children))) as Hu'
      by (destruct u; done || discriminate Hu).
    rewrite Hu' in Hl.
    destruct (link_children i n leaves us cs) as [[us1 cs1]| |] eqn:Hrec; [|done..].
    cbn [mbind res_bind] in Hl. injection Hl as <- <-. by apply (IH _ _ _ Hrec).
Qed.

Lemma linked_agree fl fl' us cs :
  (∀ c, c ∈ cs → fl !! c = fl' !! c) → linked fl us cs = linked fl' us cs.
Proof.
  revert cs. induction us as [|u us IH]; intros cs Hcs; [done|].
  destruct cs as [|c cs].
  - cbn [linked]. destruct u; f_equal; by apply IH.
  - assert (linked fl us (c :: cs) = linked fl' us (c :: cs)) as Hsame by by apply IH.
    destruct u; cbn [linked]; rewrite ?Hsame; try done.
    rewrite (Hcs c) by by left. f_equal. apply IH. intros d Hd. apply Hcs. by right.
Qed.

(** The frames from [m] on are encoded in [st]. *)
Definition encoded_from (frames : list FrameProgram) (m : nat) (st : list Z * list (list Z))
  : Prop :=
  length st.1 = length frames ∧ length st.2 = length frames ∧
  ∀ i f, (m ≤ i)%nat → frames !! i = Some f →
    ∃ index, fp_transition_index f = Some index ∧
      let program := encode_state_updates_to_abi (linked st.1 (fp_updates f) (fp_children f)) in
      st.2 !! i = Some program ∧ st.1 !! i = Some (frame_leaf i f index program).

Lemma encode_frame_step frames m f fl ps :
  (∀ i f, frames !! i = Some f → frame_ok (length frames) i f) →
  frames !! m = Some f → encoded_from frames (S m) (fl, ps) →
  ∃ st', encode_frame frames (fl, ps) m = Ok st' ∧ encoded_from frames m st'.
Proof.
  intros Hok Hf (Hl1 & Hl2 & Hdone). cbn [fst snd] in *.
  pose proof (Hok m f Hf) as (Hcount & Hcs & [index Hindex]).
  pose proof (lookup_lt_Some _ _ _ Hf) as Hm.
  set (program := encode_state_updates_to_abi (linked fl (fp_updates f) (fp_children f))).
  exists (<[m := frame_leaf m f index program]> fl, <[m := program]> ps). split.
  - unfold encode_frame. rewrite Hf. cbn [expect mbind res_bind].
    rewrite link_children_ok by (done || lia). cbn [mbind res_bind].
    rewrite Hcount, drop_all. cbn [length Nat.eqb negb bail_if mbind res_bind].
    by rewrite Hindex.
  - split_and!; cbn [fst snd]; [by rewrite length_insert..|].
    intros i g Hi Hg.
    assert (linked (<[m := frame_leaf m f index program]> fl) (fp_updates g) (fp_children g) =
      linked fl (fp_updates g) (fp_children g)) as ->.
    { apply linked_agree. intros c Hc. destruct (Hok i g Hg) as (_ & Hcg & _).
      rewrite Forall_forall in Hcg. specialize (Hcg c Hc). apply list_lookup_insert_ne. lia. }
    destruct (decide (i = m)) as [->|Hne].
    + assert (g = f) as -> by congruence. exists index. split; [done|]. cbn zeta.
      rewrite !list_lookup_insert_eq by lia. done.
    + rewrite !list_lookup_insert_ne by done. apply Hdone; [lia|done].
Qed.

Lemma reverse_seq_S m : reverse (seq 0 (S m)) = m :: reverse (seq 0 m).
Proof. by rewrite seq_S, reverse_app. Qed.

Lemma encode_loop_ok frames m st :
  (∀ i f, frames !! i = Some f → frame_ok (length frames) i f) →
  (m ≤ length frames)%nat → encoded_from frames m st →
  ∃ st', foldM (encode_frame frames) (reverse (seq 0 m)) st = Ok st' ∧ encoded_from frames 0 st'.
Proof.
  intros Hok. revert st. induction m as [|m IH]; intros st Hm Hst; [by exists st|].
  rewrite reverse_seq_S. cbn [foldM].
  destruct (lookup_lt_is_Some_2 frames m) as [f Hf]; [lia|]. destruct st as [fl ps].
  destruct (encode_frame_step frames m f fl ps Hok Hf Hst) as (st1 & -> & Hst1).
  cbn [mbind res_bind]. apply IH; [lia|done].
Qed.

(** A frame the first loop accepts is in its place. *)
Lemma encode_frame_inv frames st i st' :
  encode_frame frames st i = Ok st' → ∃ f, frames !! i = Some f ∧ frame_ok (length frames) i f.
Proof.
  destruct st as [fl ps]. unfold encode_frame. intros He.
  destruct (frames !! i) as [f|]; [|done]. cbn [expect mbind res_bind] in He.
  destruct (link_children _ _ _ _ _) as [[us cs]| |] eqn:Hlink; [|done..].
  cbn [mbind res_bind] in He. apply link_children_inv in Hlink as (Hlen & -> & Hall).
  rewrite length_drop in He.
  destruct (Nat.eqb_spec (length (fp_children f) - nested_count (fp_updates f)) 0) as [Heq|];
    [|done]. cbn [negb bail_if mbind res_bind] in He.
  exists f. split; [done|]. split_and!.
  - lia.
  - rewrite take_ge in Hall by lia. done.
  - destruct (fp_transition_index f); [by eexists|done].
Qed.

Lemma encode_loop_inv frames m st st' :
  foldM (encode_frame frames) (reverse (seq 0 m)) st = Ok st' →
  ∀ i, (i < m)%nat → ∃ f, frames !! i = Some f ∧ frame_ok (length frames) i f.
Proof.
  revert st. induction m as [|m IH]; intros st Hf i Hi; [lia|].
  rewrite reverse_seq_S in Hf. cbn [foldM] in Hf.
  destruct (encode_frame frames st m) as [st1| |] eqn:Hm; [|done..].
  destruct (decide (i = m)) as [->|Hne]; [by eapply encode_frame_inv|].
  eapply IH; [exact Hf|lia].
Qed.

Lemma witnesses_at_ok witnesses cs :
  Forall (λ c, (c < length witnesses)%nat) cs →
  mapM (witness_at witnesses) cs = Ok ((λ c, default [] (witnesses !! c)) <$> cs).
Proof.
  induction 1 as [|c cs Hc Hcs IH]; [done|].
  destruct (lookup_lt_is_Some_2 witnesses c Hc) as [w Hw].
  assert (witness_at witnesses c = Ok w) as Hat by (unfold witness_at; by rewrite Hw).
  cbn [mapM]. rewrite Hat. cbn [mbind res_bind]. rewrite IH. cbn. by rewrite Hw.
Qed.

(** The witnesses from [m] on are built: each carries its program, a proof that leads from its leaf
    to the root, and its children's witnesses. *)
Definition witness_ok (frames : list FrameProgram) (programs : list (list Z)) (leaves : list Z)
  (root : Z) (ws : list (list Z)) (i : nat) (f : FrameProgram) : Prop :=
  ∃ program proof leaf,
    programs !! i = Some program ∧ leaves !! S i = Some leaf ∧ process_proof proof leaf = root ∧
    ws !! i = Some (encode_witness (fp_calldata_hash f) program proof
      ((λ c, default [] (ws !! c)) <$> fp_children f)).

Definition witnessed_from (frames : list FrameProgram) (programs : list (list Z))
  (leaves : list Z) (root : Z) (m : nat) (ws : list (list Z)) : Prop :=
  length ws = length frames ∧
  ∀ i f, (m ≤ i)%nat → frames !! i = Some f → witness_ok frames programs leaves root ws i f.

Lemma build_witness_step frames programs leaves root m ws f :
  (∀ i f, frames !! i = Some f → frame_ok (length frames) i f) →
  length programs = length frames → length leaves = S (length frames) →
  merkle_root leaves = Ok root →
  frames !! m = Some f → witnessed_from frames programs leaves root (S m) ws →
  ∃ ws', build_witness frames programs leaves ws m = Ok ws' ∧
    witnessed_from frames programs leaves root m ws'.
Proof.
  intros Hok Hp Hl Hroot Hf (Hlen & Hdone).
  pose proof (lookup_lt_Some _ _ _ Hf) as Hm.
  destruct (lookup_lt_is_Some_2 programs m) as [program Hprogram]; [lia|].
  destruct (lookup_lt_is_Some_2 leaves (S m)) as [leaf Hleaf]; [lia|].
  destruct (proof_reaches_root leaves (S m) leaf Hleaf) as (proof & Hproof & Hr).
  assert (process_proof proof leaf = root) as Hroot' by congruence.
  pose proof (Hok m f Hf) as (_ & Hcs & _).
  set (w := encode_witness (fp_calldata_hash f) program proof
    ((λ c, default [] (ws !! c)) <$> fp_children f)).
  exists (<[m := w]> ws). split.
  - unfold build_witness. rewrite Hf. cbn [expect mbind res_bind]. rewrite Hprogram.
    cbn [expect mbind res_bind]. rewrite Nat.add_1_r, Hproof. cbn [mbind res_bind].
    rewrite witnesses_at_ok; [done|]. eapply Forall_impl; [exact Hcs|]. cbn. lia.
  - split; [by rewrite length_insert|]. intros i g Hi Hg.
    pose proof (Hok i g Hg) as (_ & Hcg & _). rewrite Forall_forall in Hcg.
    assert (((λ c, default [] (<[m:=w]> ws !! c)) <$> fp_children g) =
      ((λ c, default [] (ws !! c)) <$> fp_children g)) as Hsame.
    { apply list_fmap_ext. intros k c Hc. apply list_elem_of_lookup_2, Hcg in Hc.
      by rewrite list_lookup_insert_ne by lia. }
    unfold witness_ok. rewrite Hsame. destruct (decide (i = m)) as [->|Hne].
    + assert (g = f) as -> by congruence. exists program, proof, leaf.
      rewrite list_lookup_insert_eq by lia. done.
    + rewrite list_lookup_insert_ne by done. apply Hdone; [lia|done].
Qed.

Lemma reverse_seq1_S m : reverse (seq 1 (S m)) = S m :: reverse (seq 1 m).
Proof. by rewrite seq_S, reverse_app. Qed.

Lemma build_witnesses_ok frames programs leaves root m ws :
  (∀ i f, frames !! i = Some f → frame_ok (length frames) i f) →
  length programs = length frames → length leaves = S (length frames) →
  merkle_root leaves = Ok root →
  (m < length frames)%nat → witnessed_from frames programs leaves root (S m) ws →
  ∃ ws', foldM (build_witness frames programs leaves) (reverse (seq 1 m)) ws = Ok ws' ∧
    witnessed_from frames programs leaves root 1 ws'.
Proof.
  intros Hok Hp Hl Hroot. revert ws. induction m as [|m IH]; intros ws Hm Hws; [by exists ws|].
  rewrite reverse_seq1_S. cbn [foldM].
  destruct (lookup_lt_is_Some_2 frames (S m)) as [f Hf]; [lia|].
  destruct (build_witness_step frames programs leaves root (S m) ws f Hok Hp Hl Hroot Hf Hws)
    as (ws1 & -> & Hws1).
  cbn [mbind res_bind]. apply IH; [lia|done].
Qed.

(** What an encoding promises about the tree it packages. *)
Definition encoding_ok (frames : list FrameProgram) (t : EncodedTree) : Prop :=
  (∃ root_frame, head frames = Some root_frame ∧
    et_leaves t = expiry_leaf chain_id (fp_target root_frame) expiry_block :: et_frame_leaves t ∧
    process_proof (et_expiry_proof t) (expiry_leaf chain_id (fp_target root_frame) expiry_block)
      = et_root t ∧
    et_root_children t = (λ c, default [] (et_witnesses t !! c)) <$> fp_children root_frame) ∧
  (∃ leaf, et_frame_leaves t !! 0%nat = Some leaf ∧
    process_proof (et_root_proof t) leaf = et_root t) ∧
  encoded_from frames 0 (et_frame_leaves t, et_programs t) ∧
  (∀ i f, (1 ≤ i)%nat → frames !! i = Some f →
    witness_ok frames (et_programs t) (et_leaves t) (et_root t) (et_witnesses t) i f).

Lemma encode_frame_tree_total frames :
  tree_ok frames → ∃ t, encode_frame_tree frames = Ok t ∧ encoding_ok frames t.
Proof.
  intros [Hne Hok]. destruct frames as [|f0 frames']; [done|].
  set (frames := f0 :: frames') in *. unfold encode_frame_tree. subst frames.
  cbv iota. set (frames := f0 :: frames') in *. cbv zeta.
  destruct (encode_loop_ok frames (length frames)
    (replicate (length frames) 0, replicate (length frames) []) Hok (le_n _))
    as ([fl ps] & -> & Henc).
  { split_and!; cbn [fst snd]; [by rewrite length_replicate..|].
    intros i f Hi Hf. apply lookup_lt_Some in Hf. lia. }
  cbn [mbind res_bind]. destruct Henc as (Hfl & Hps & Henc). cbn [fst snd] in *.
  set (leaves := expiry_leaf chain_id (fp_target f0) expiry_block :: fl).
  assert (length leaves = S (length frames)) as Hleaves by (by rewrite <-Hfl).
  destruct (lookup_lt_is_Some_2 leaves 1) as [leaf1 Hleaf1]; [rewrite Hleaves; unfold frames; cbn; lia|].
  destruct (proof_reaches_root leaves 0 _ eq_refl) as (proof0 & Hp0 & Hr0).
  destruct (proof_reaches_root leaves 1 leaf1 Hleaf1) as (proof1 & Hp1 & Hr1).
  rewrite Hr0. cbn [mbind res_bind]. set (root := process_proof proof0 _) in *.
  assert (Hlen : (length frames - 1 < length frames)%nat) by (unfold frames; cbn; lia).
  destruct (build_witnesses_ok frames ps leaves root (length frames - 1)
    (replicate (length frames) []) Hok Hps Hleaves Hr0 Hlen) as (ws & Hws & Hwlen & Hwit).
  { split; [by rewrite length_replicate|]. intros i f Hi Hf. apply lookup_lt_Some in Hf. lia. }
  rewrite Hws. cbn [mbind res_bind].
  pose proof (Hok 0%nat f0 eq_refl) as (_ & Hcs & _).
  rewrite witnesses_at_ok.
  2:{ eapply Forall_impl; [exact Hcs|]. cbn beta. lia. }
  cbn [mbind res_bind]. rewrite Hp1, Hp0. cbn [mbind res_bind].
  eexists. split; [reflexivity|]. unfold encoding_ok. cbn [et_root et_leaves et_frame_leaves
    et_programs et_witnesses et_root_children et_root_proof et_expiry_proof].
  split_and!; [by exists f0| |done..|done].
  exists leaf1. split; [done|]. congruence.
Qed.

Lemma encode_frame_tree_inv frames t : encode_frame_tree frames = Ok t → tree_ok frames.
Proof.
  intros Ht. destruct frames as [|f0 frames']; [done|].
  set (frames := f0 :: frames') in *. split; [done|].
  unfold encode_frame_tree in Ht. subst frames. cbv iota zeta in Ht.
  set (frames := f0 :: frames') in *.
  destruct (foldM _ _ _) as [st| |] eqn:Hfold; [|done..].
  intros i f Hf. apply lookup_lt_Some in Hf as Hi.
  destruct (encode_loop_inv _ _ _ _ Hfold i Hi) as (f' & Hf' & Hok). congruence.
Qed.

(** ** Properties *)

(** C15: [encode_frame_tree] succeeds exactly on the trees whose every frame has one child per
    [NESTED] op, each later in pre-order and inside the tree, and a transition index. *)
Theorem encode_frame_tree_ok_iff frames :
  (∃ t, encode_frame_tree frames = Ok t) ↔ tree_ok frames.
Proof.
  split; [intros [t Ht]; by eapply encode_frame_tree_inv|].
  intros Hok. destruct (encode_frame_tree_total frames Hok) as (t & Ht & _). by exists t.
Qed.

(** C14: in a tree that encodes, each program is its frame's updates with every [NESTED] op naming
    the leaf of its own child, each frame's leaf is computed from that program, and the root and
    expiry proofs and the proof in every witness are accepted against the root. *)
Theorem encode_frame_tree_sound frames t :
  encode_frame_tree frames = Ok t → encoding_ok frames t.
Proof.
  intros Ht.
  destruct (encode_frame_tree_total frames (encode_frame_tree_inv _ _ Ht)) as (t' & Ht' & Hsound).
  congruence.
Qed.
End encode.

Definition sample_frames : list FrameProgram := [
  mkFrameProgram 10 0 0 0 (Some 4) [UStore (mkStore 1 2); UNested (mkNested 20 0 0)] [1%nat];
  mkFrameProgram 20 10 0 77 (Some 6) [UStore (mkStore 3 4)] []].

Lemma sample_frames_ok : tree_ok sample_frames.
Proof.
  split; [done|]. intros [|[|i]] f Hf; [| |discriminate Hf]; injection Hf as <-;
    (split_and!; [reflexivity|repeat constructor|by eexists]).
Qed.

Lemma encode_frame_tree_sound_witness :
  ∃ t, encode_frame_tree 1 0 5 100 sample_frames = Ok t ∧ encoding_ok 1 0 5 100 sample_frames t.
Proof.
  destruct (encode_frame_tree_total 1 0 5 100 sample_frames sample_frames_ok) as (t & Ht & _).
  exists t. split; [exact Ht|]. exact (encode_frame_tree_sound 1 0 5 100 sample_frames t Ht).
Defined.
