(* ===== verification/WalkSpec.v ===== *)
(** * The frame-tree walk as a transition system

    An abstraction of the walk's state that forgets gas, storage and journals, a step relation on it,
    and the proof that every round of [FrameTree.split_step] is a sequence of its steps. The
    invariants of the walk ([WalkInv]) are proved on the relation, by induction on its rules. *)

From stdpp Require Import relations.
From S2P Require Import Prelude.
From S2P Require Import Types.
From S2P Require Import Trace.
From S2P Require Import SimProfile.
From S2P Require Import Scan.
From S2P Require Import FrameTree.

(** ** Abstract states *)

Record AFrame := mkAFrame {
  af_program : option nat;
  af_out : list StateUpdate;
  af_view : gmap Z Z;
  af_nested : bool;
  af_first : nat
}.

Record AProgram := mkAProgram {
  ap_target : Z;
  ap_caller : Z;
  ap_value : Z;
  ap_index : option Z;
  ap_parent : option nat;
  ap_updates : option (list StateUpdate);
  ap_children : list nat;
  ap_fallback : option Call;
  ap_dropped : bool
}.

(** The frame the last opcode may open: its program, whether that is a new one, and its view. *)
Record APending := mkAPending {
  an_program : option nat;
  an_nested : bool;
  an_view : gmap Z Z
}.

Record AState := mkAState {
  as_programs : list AProgram;
  as_frames : list AFrame;
  as_pending : option APending
}.

Definition abs_frame (f : WalkFrame) : AFrame :=
  mkAFrame (wf_program f) (wf_out f) (wf_emitted_view f)
    (bool_decide (is_Some (wf_nested_start_gas f))) (wf_first_program f).

Definition abs_program (p : ProgramState) : AProgram :=
  mkAProgram (ps_target p) (ps_caller p) (ps_value p) (ps_transition_index p) (ps_parent p)
    (ps_updates p) (ps_children p) (ps_fallback p) (ps_dropped p).

Definition abs_pending (p : PendingFrame) : APending :=
  mkAPending (pf_program p) (bool_decide (is_Some (pf_nested_start_gas p))) (pf_emitted_view p).

Definition abs_state (programs : list ProgramState) (frames : list WalkFrame)
  (pending : option PendingFrame) : AState :=
  mkAState (abs_program <$> programs) (abs_frame <$> frames) (abs_pending <$> pending).

(** ** Steps *)

Definition set_af_out (o : list StateUpdate) (f : AFrame) : AFrame :=
  mkAFrame (af_program f) o (af_view f) (af_nested f) (af_first f).
Definition set_af_view (v : gmap Z Z) (f : AFrame) : AFrame :=
  mkAFrame (af_program f) (af_out f) v (af_nested f) (af_first f).
Definition set_ap_children (cs : list nat) (p : AProgram) : AProgram :=
  mkAProgram (ap_target p) (ap_caller p) (ap_value p) (ap_index p) (ap_parent p) (ap_updates p) cs
    (ap_fallback p) (ap_dropped p).
Definition set_ap_updates (us : option (list StateUpdate)) (p : AProgram) : AProgram :=
  mkAProgram (ap_target p) (ap_caller p) (ap_value p) (ap_index p) (ap_parent p) us
    (ap_children p) (ap_fallback p) (ap_dropped p).
Definition drop_ap (p : AProgram) : AProgram :=
  mkAProgram (ap_target p) (ap_caller p) (ap_value p) (ap_index p) (ap_parent p) (ap_updates p)
    (ap_children p) (ap_fallback p) true.

Definition is_store (u : StateUpdate) : bool := match u with UStore _ => true | _ => false end.

(** Frames that differ only in having forgotten part of their views. *)
Definition forgets (f g : AFrame) : Prop :=
  g = set_af_view (af_view g) f ∧ af_view g ⊆ af_view f.

Definition drop_programs (first : nat) (P : list AProgram) : list AProgram :=
  take first P ++ (drop_ap <$> drop first P).

Definition new_program (parent : nat) (ctx : option Z) (index : Z) (hash_free : Call) : AProgram :=
  mkAProgram (call_target hash_free) (default 0 ctx) (call_value hash_free) (Some index)
    (Some parent) None [] (Some hash_free) false.

(** [owns]: the contracts a nested frame may be opened for. *)
Inductive astep (owns : Z → Prop) : AState → AState → Prop :=
  | AForget P F F' X :
      Forall2 forgets F F' → astep owns (mkAState P F X) (mkAState P F' X)
  | AEmit P f F u p :
      af_program f = Some p → is_store u = false → is_nested u = false →
      astep owns (mkAState P (f :: F) None) (mkAState P (set_af_out (af_out f ++ [u]) f :: F) None)
  | AStore P f F slot value p :
      af_program f = Some p →
      astep owns (mkAState P (f :: F) None)
        (mkAState P (set_af_view (<[slot := value]> (af_view f))
           (set_af_out (af_out f ++ [UStore (mkStore slot value)]) f) :: F) None)
  | ANest P f F q pq ctx index call :
      af_program f = Some q → P !! q = Some pq →
      owns (call_target call) →
      let id := length P in
      astep owns (mkAState P (f :: F) None)
        (mkAState (<[q := set_ap_children (ap_children pq ++ [id]) pq]>
                     (P ++ [new_program q ctx index call]))
           (set_af_out (af_out f ++ [UNested (mkNested (call_target call) (call_value call) 0)]) f
              :: F)
           (Some (mkAPending (Some id) true ∅)))
  | APendDelegate P f F :
      astep owns (mkAState P (f :: F) None)
        (mkAState P (f :: F) (Some (mkAPending (af_program f) false
           (if bool_decide (is_Some (af_program f)) then af_view f else ∅))))
  | APendNative P f F :
      astep owns (mkAState P (f :: F) None) (mkAState P (f :: F) (Some (mkAPending None false ∅)))
  | AOpen P F x :
      let first := if an_nested x then default (length P) (an_program x) else length P in
      astep owns (mkAState P F (Some x))
        (mkAState P (mkAFrame (an_program x) [] (an_view x) (an_nested x) first :: F) None)
  | ACancel P F x :
      an_nested x = false → astep owns (mkAState P F (Some x)) (mkAState P F None)
  | AReturn P f g F :
      af_nested f = false →
      astep owns (mkAState P (f :: g :: F) None)
        (mkAState P
          ((let g' := set_af_out (af_out g ++ af_out f) g in
            if bool_decide (is_Some (af_program f)) then set_af_view (af_view f) g' else g') :: F)
          None)
  | AReturnNested P f g F id p :
      af_nested f = true → af_program f = Some id → P !! id = Some p →
      astep owns (mkAState P (f :: g :: F) None)
        (mkAState (<[id := set_ap_updates (Some (af_out f)) p]> P) (g :: F) None)
  | ARevert P f F : (* emptying the stack ends the walk *)
      af_nested f = false → (af_first f ≤ length P)%nat →
      astep owns (mkAState P (f :: F) None) (mkAState (drop_programs (af_first f) P) F None)
  | ARevertNested P f g F id o n :
      af_nested f = true → af_program f = Some id → (af_first f ≤ length P)%nat →
      af_out g = o ++ [UNested n] →
      astep owns (mkAState P (f :: g :: F) None)
        (mkAState (drop_programs (af_first f) P) (set_af_out o g :: F) None).

Abbreviation asteps o := (rtc (astep o)).

(** The contracts an eligibility can nest. *)
Definition nests (e : Eligibility) (a : Z) : Prop :=
  match e with Consumers is_nestable => is_nestable a = true | Hypothetical owned => a ∈ owned end.

Lemma frame_index_nests e c a index : frame_index e c (Some a) = Some index → nests e a.
Proof.
  unfold frame_index. destruct c as [c|]; [|done]. cbn.
  destruct (cand_unsupported_op c); [done|]. destruct e as [f|owned]; cbn.
  - destruct (cand_bump c); try done. by destruct (f a).
  - by case_bool_decide.
Qed.

Section refinement.
Context (owns : Z → Prop).

(** ** Refinement: slices and forgetting *)

Lemma abs_insert (P : list ProgramState) id (p q : ProgramState) :
  P !! id = Some p → abs_program q = abs_program p → abs_program <$> <[id := q]> P = abs_program <$> P.
Proof.
  intros Hp Hq. rewrite list_fmap_insert, Hq. apply list_insert_id.
  by rewrite list_lookup_fmap, Hp.
Qed.

Lemma add_child_call_gas_abs P parent gas P' :
  add_child_call_gas P parent gas = Ok P' → abs_program <$> P' = abs_program <$> P.
Proof.
  unfold add_child_call_gas, update_program, program_at. destruct parent as [id|]; intros Hok.
  - destruct (P !! id) as [p|] eqn:Hp; [|done]. cbn in Hok. inv_res. by eapply abs_insert.
  - by inv_res.
Qed.

Lemma flush_fold_asteps P f F p items :
  af_program f = Some p → ∀ o v,
  let r := fold_left flush_slot items (o, v) in
  asteps owns (mkAState P (set_af_view v (set_af_out o f) :: F) None)
    (mkAState P (set_af_view r.2 (set_af_out r.1 f) :: F) None).
Proof.
  intros Hp. induction items as [|[slot value] items IH]; intros o v; [done|].
  cbn [fold_left flush_slot]. case_bool_decide as Hv; [apply IH|].
  eapply rtc_l; [|apply IH]. by apply (AStore owns P (set_af_view v (set_af_out o f)) F slot value p).
Qed.

Lemma flush_slice_asteps P F F' :
  flush_slice F P = Ok F' → asteps owns (abs_state P F None) (abs_state P F' None).
Proof.
  unfold flush_slice. destruct F as [|f F]; [done|]. cbn [top_frame mbind res_bind].
  destruct (wf_program f) as [id|] eqn:Hid; [|done]. cbn [expect mbind res_bind].
  unfold program_at. destruct (P !! id) as [p|]; [|done]. cbn [expect mbind res_bind].
  set (items := map_items _).
  pose proof (flush_fold_asteps (abs_program <$> P) (abs_frame f) (abs_frame <$> F)
    id items Hid (wf_out f) (wf_emitted_view f)) as Hsteps. cbv zeta in Hsteps.
  destruct (fold_left flush_slot items (wf_out f, wf_emitted_view f)) as [o v].
  intros Hok. inv_res. exact Hsteps.
Qed.

Lemma forget_overwritten_forgets F P J F' :
  forget_overwritten F P J = Ok F' → Forall2 forgets (abs_frame <$> F) (abs_frame <$> F').
Proof.
  intros HF. apply mapM_Ok_Forall2 in HF. apply Forall2_fmap_2.
  eapply Forall2_impl; [exact HF|]. intros f g Hg. cbn in Hg. unfold forget_slots in Hg.
  destruct (wf_program f) as [id|] eqn:Hid; [|inv_res; split; [done|reflexivity]].
  unfold program_at in Hg. destruct (P !! id) as [p|]; [|done]. cbn [expect mbind res_bind] in Hg.
  destruct (J !! ps_target p); inv_res; split; try done; try reflexivity.
  by apply map_subseteq_difference_l.
Qed.

Lemma forget_overwritten_asteps F P X J F' :
  forget_overwritten F P J = Ok F' → asteps owns (abs_state P F X) (abs_state P F' X).
Proof. intros HF. apply rtc_once, AForget. by eapply forget_overwritten_forgets. Qed.

Lemma flush_slice_shape F P F' :
  flush_slice F P = Ok F' →
  ∃ f rest o v id p, F = f :: rest ∧ F' = set_wf_emitted_view v (set_wf_out o f) :: rest ∧
    wf_program f = Some id ∧ P !! id = Some p.
Proof.
  unfold flush_slice. destruct F as [|f F]; [done|]. cbn [top_frame mbind res_bind].
  destruct (wf_program f) as [id|] eqn:Hid; [|done]. cbn [expect mbind res_bind].
  unfold program_at. destruct (P !! id) as [p|] eqn:Hp; [|done]. cbn [expect mbind res_bind].
  destruct (fold_left _ _ _) as [o v]. intros Hok. inv_res. by exists f, F, o, v, id, p.
Qed.

(** ** Refinement: opening the pending frame *)

Lemma new_frame_asteps P F x depth gas :
  asteps owns (abs_state P F (Some x))
    (abs_state P (new_frame x depth gas (pending_first_program x (length P)) :: F) None).
Proof.
  apply rtc_once.
  assert (abs_frame (new_frame x depth gas (pending_first_program x (length P))) =
    mkAFrame (an_program (abs_pending x)) [] (an_view (abs_pending x)) (an_nested (abs_pending x))
      (if an_nested (abs_pending x) then default (length (abs_program <$> P))
        (an_program (abs_pending x)) else length (abs_program <$> P))) as Hf.
  { rewrite length_fmap. unfold pending_first_program, abs_frame, abs_pending; cbn.
    by destruct (pf_nested_start_gas x), (pf_program x). }
  unfold abs_state. rewrite fmap_cons, Hf. apply AOpen.
Qed.

Lemma close_inline_asteps P F x l P' F' :
  close_inline P F x l = Ok (P', F') → asteps owns (abs_state P F (Some x)) (abs_state P' F' None).
Proof.
  unfold close_inline. intros Hok.
  destruct (pf_nested_start_gas x) eqn:Hn; [done|]. cbn in Hok.
  destruct (pf_emitted_create x && create_failed l); [done|]. cbn in Hok.
  assert (abs_program <$> P' = abs_program <$> P ∧ abs_frame <$> F' = abs_frame <$> F) as [HP HF].
  { destruct (pf_emitted_call_gas x); [|by inv_res].
    destruct F as [|f F]; [done|]. cbn [top_frame mbind res_bind] in Hok.
    destruct (add_child_call_gas _ _ _) as [P1| |] eqn:HP1; [|done..]. cbn in Hok. inv_res.
    apply add_child_call_gas_abs in HP1. split; [done|]. by destruct (pf_emitted_create x). }
  unfold abs_state. rewrite HP, HF. apply rtc_once, ACancel.
  unfold abs_pending; cbn. by rewrite Hn.
Qed.

Lemma open_pending_asteps P F X sk l s :
  open_pending (mkSplitState P F X sk) l = Ok s →
  asteps owns (abs_state P F X) (abs_state (sp_programs s) (sp_frames s) None) ∧ sp_pending s = None.
Proof.
  cbn [open_pending]. destruct X as [x|]; [|intros Hok; by inv_res].
  destruct (sl_depth l =? pf_parent_depth x + 1).
  - intros Hok. inv_res. split; [apply new_frame_asteps|done].
  - destruct (close_inline P F x l) as [[P1 F1]| |] eqn:Hc; [|done..]. cbn. intros Hok. inv_res.
    split; [by apply close_inline_asteps in Hc|done].
Qed.

(** ** Refinement: closing frames *)

Lemma drop_from_abs P first P' :
  drop_from P first = Ok P' →
  (first ≤ length P)%nat ∧ abs_program <$> P' = drop_programs first (abs_program <$> P).
Proof.
  unfold drop_from. destruct (Nat.leb_spec first (length P)); [|done]. intros Hok. inv_res.
  split; [done|]. unfold drop_programs.
  by rewrite fmap_app, <-fmap_take, <-fmap_drop, <-!list_fmap_compose.
Qed.

Lemma charge_caller_abs P f F l P' F' :
  charge_caller P f F l = Ok (P', F') →
  abs_program <$> P' = abs_program <$> P ∧ abs_frame <$> F' = abs_frame <$> F.
Proof.
  unfold charge_caller. destruct (wf_emitted_call_gas f); [|by intros Hok; inv_res].
  destruct F as [|g F]; [done|]. cbn [top_frame mbind res_bind]. intros Hok.
  destruct (add_child_call_gas _ _ _) as [P1| |] eqn:HP1; [|done..]. cbn in Hok. inv_res.
  apply add_child_call_gas_abs in HP1. split; [done|]. by destruct (wf_emitted_create f).
Qed.

Lemma merge_into_parent_abs F J F' :
  merge_into_parent F J = Ok F' → abs_frame <$> F' = abs_frame <$> F.
Proof. destruct F; [done|]. intros Hok. cbn in Hok. by inv_res. Qed.

Lemma close_nested_success P f F start l P' F' :
  close_nested P f F start true l = Ok (P', F') → wf_nested_start_gas f = Some start →
  asteps owns (abs_state P (f :: F) None) (abs_state P' F' None).
Proof.
  unfold close_nested. intros Hok Hn. destruct (wf_program f) as [id|] eqn:Hid; [|done].
  cbn [expect mbind res_bind] in Hok. unfold update_program, program_at in Hok.
  destruct (P !! id) as [p|] eqn:Hp; [|done]. cbn [expect mbind res_bind] in Hok.
  set (P1 := <[id := _]> P) in Hok.
  destruct (add_child_call_gas P1 _ _) as [P2| |] eqn:HP2; [|done..]. cbn [mbind res_bind] in Hok.
  destruct (forget_overwritten F P2 (wf_journal f)) as [F1| |] eqn:HF1; [|done..].
  cbn [mbind res_bind] in Hok.
  destruct (merge_into_parent F1 (wf_journal f)) as [F2| |] eqn:HF2; [|done..].
  cbn [mbind res_bind] in Hok. inv_res.
  destruct F as [|g F]; [cbn in HF1; injection HF1 as <-; discriminate HF2|].
  apply add_child_call_gas_abs in HP2. apply merge_into_parent_abs in HF2.
  unfold abs_state. rewrite !fmap_cons. eapply rtc_l.
  - apply (AReturnNested owns _ _ (abs_frame g) (abs_frame <$> F) id (abs_program p)).
    + cbn. by rewrite Hn.
    + done.
    + by rewrite list_lookup_fmap, Hp.
  - rewrite HP2, HF2. apply forget_overwritten_asteps with (X := None) in HF1. unfold abs_state in HF1.
    rewrite HP2 in HF1. subst P1. rewrite list_fmap_insert in HF1.
    rewrite list_fmap_insert. exact HF1.
Qed.

Lemma close_nested_failure P f g F start l P0 P1 P2 g1 F1 F2 :
  drop_from P (wf_first_program f) = Ok P0 → charge_caller P0 f (g :: F) l = Ok (P1, g1 :: F1) →
  close_nested P1 f (g1 :: F1) start false l = Ok (P2, F2) → wf_nested_start_gas f = Some start →
  asteps owns (abs_state P (f :: g :: F) None) (abs_state P2 F2 None).
Proof.
  intros Hdrop Hcharge Hok Hn. apply drop_from_abs in Hdrop as [Hle HP0].
  apply charge_caller_abs in Hcharge as [HP1 HF1].
  unfold close_nested in Hok. destruct (wf_program f) as [id|] eqn:Hid; [|done].
  cbn [expect mbind res_bind top_frame] in Hok.
  destruct (last (wf_out g1)) as [u|] eqn:Hlast; [|done].
  destruct u as [| | | | | | | | |n]; try done. inv_res.
  rewrite !fmap_cons in HF1. injection HF1 as Hprog Hout Hview Hnest Hfirst HF.
  apply last_Some in Hlast as [o Ho].
  unfold abs_state. rewrite HP1, HP0, !fmap_cons, HF.
  assert (abs_frame (set_wf_out (removelast (wf_out g1)) g1) = set_af_out o (abs_frame g)) as ->.
  { unfold abs_frame, set_af_out; cbn. rewrite Hprog, Hview, Hfirst, Ho, removelast_last.
    f_equal. done. }
  apply rtc_once. eapply ARevertNested.
  - cbn. by rewrite Hn.
  - exact Hid.
  - by rewrite length_fmap.
  - cbn. by rewrite <-Hout.
Qed.

Lemma close_plain_success P f F P' F' :
  close_plain P f F true = Ok (P', F') → wf_nested_start_gas f = None →
  asteps owns (abs_state P (f :: F) None) (abs_state P' F' None).
Proof.
  unfold close_plain. intros Hok Hn.
  destruct (if bool_decide (is_Some (wf_program f)) then _ else _) as [F1| |] eqn:HF1; [|done..].
  cbn [mbind res_bind] in Hok. destruct F1 as [|g F1]; [done|].
  cbn [top_frame mbind res_bind] in Hok. inv_res.
  assert (Hret : asteps owns (abs_state P' (f :: g :: F1) None)
    (abs_state P' ((let g' := set_wf_out (wf_out g ++ wf_out f) g in
       if bool_decide (is_Some (wf_program f)) then set_wf_emitted_view (wf_emitted_view f) g'
       else g') :: F1) None)).
  { apply rtc_once. pose proof (AReturn owns (abs_program <$> P') (abs_frame f) (abs_frame g)
      (abs_frame <$> F1)) as Hr. unfold abs_state. rewrite !fmap_cons.
    cbn in Hr |- *. rewrite Hn in Hr. specialize (Hr eq_refl).
    by destruct (wf_program f). }
  assert (Hforget : asteps owns (abs_state P' (f :: F) None) (abs_state P' (f :: g :: F1) None)).
  { destruct (bool_decide (is_Some (wf_program f))); [by inv_res|].
    apply forget_overwritten_forgets in HF1. apply rtc_once, AForget. constructor; [|done].
    split; done. }
  etransitivity; [exact Hforget|].
  etransitivity; [exact Hret|].
  unfold abs_state. rewrite !fmap_cons. by destruct (bool_decide (is_Some (wf_program f))).
Qed.

Lemma abs_state_eq P F P' F' X :
  abs_program <$> P' = abs_program <$> P → abs_frame <$> F' = abs_frame <$> F →
  abs_state P' F' X = abs_state P F X.
Proof. unfold abs_state. congruence. Qed.

(** The flush before a successful nested return leaves the frame's own fields alone. *)
Lemma close_flush P top F0 (b : bool) F1 :
  (if b then flush_slice (top :: F0) P else Ok (top :: F0)) = Ok F1 →
  ∃ f, F1 = f :: F0 ∧ wf_nested_start_gas f = wf_nested_start_gas top ∧
    asteps owns (abs_state P (top :: F0) None) (abs_state P (f :: F0) None).
Proof.
  destruct b; intros Hok.
  - pose proof (flush_slice_asteps P (top :: F0) F1 Hok) as Hs.
    apply flush_slice_shape in Hok as (f & rest & o & v & id & p & [= <- <-] & -> & _). by eexists.
  - inv_res. by exists top.
Qed.

Lemma close_frame_asteps P F l P' F' :
  close_frame P F l = Ok (P', F') → asteps owns (abs_state P F None) (abs_state P' F' None).
Proof.
  unfold close_frame. destruct F as [|top F0]; [done|]. cbn [pop_frame mbind res_bind].
  destruct (negb (wf_depth top =? sl_depth l + 1)); [done|]. cbn [bail_if mbind res_bind].
  destruct (resume_success l) as [success| |]; [|done..]. cbn [mbind res_bind].
  destruct (if success && _ then _ else _) as [F1| |] eqn:Hflush; [|done..].
  apply close_flush in Hflush as (f & -> & Hn & Hsteps). cbn [pop_frame mbind res_bind].
  destruct (wf_emitted_create f && negb success); [done|]. cbn [bail_if mbind res_bind].
  intros Hok. etransitivity; [exact Hsteps|]. clear Hsteps. rewrite <-Hn in Hok.
  destruct success.
  - cbn [mbind res_bind] in Hok.
    destruct (charge_caller P f F0 l) as [[P1 F1]| |] eqn:Hcharge; [|done..].
    cbn [mbind res_bind] in Hok. apply charge_caller_abs in Hcharge as [HP1 HF1].
    assert (abs_state P (f :: F0) None = abs_state P1 (f :: F1) None) as ->
      by (apply abs_state_eq; [done|by rewrite !fmap_cons, HF1]).
    destruct (wf_nested_start_gas f) as [start|] eqn:Hstart.
    + by eapply close_nested_success.
    + by eapply close_plain_success.
  - destruct (drop_from P (wf_first_program f)) as [P0| |] eqn:Hdrop; [|done..].
    cbn [mbind res_bind] in Hok.
    destruct (charge_caller P0 f F0 l) as [[P1 F1]| |] eqn:Hcharge; [|done..].
    cbn [mbind res_bind] in Hok. pose proof Hcharge as [HP1 HF1]%charge_caller_abs.
    destruct (wf_nested_start_gas f) as [start|] eqn:Hstart.
    + destruct F0 as [|g F0].
      { destruct F1; [|done]. unfold close_nested in Hok. by destruct (wf_program f). }
      destruct F1 as [|g1 F1]; [done|].
      assert (F1 = F0) as ->.
      { clear -Hcharge. unfold charge_caller in Hcharge.
        destruct (wf_emitted_call_gas f); [|by inv_res]. cbn [top_frame mbind res_bind] in Hcharge.
        destruct (add_child_call_gas _ _ _); [|done..]. cbn in Hcharge. by inv_res. }
      by eapply close_nested_failure.
    + unfold close_plain in Hok. inv_res. apply drop_from_abs in Hdrop as [Hle HP0].
      unfold abs_state. rewrite HP1, HF1, HP0, fmap_cons. apply rtc_once, ARevert.
      * cbn. by rewrite Hstart.
      * by rewrite length_fmap.
Qed.

Lemma close_frames_asteps fuel P F l P' F' :
  close_frames fuel P F l = Ok (P', F') → asteps owns (abs_state P F None) (abs_state P' F' None).
Proof.
  revert P F. induction fuel as [|fuel IH]; intros P F; cbn [close_frames].
  { intros Hok. by inv_res. }
  destruct (sl_depth l <? _); [|intros Hok; by inv_res].
  destruct (close_frame P F l) as [[P1 F1]| |] eqn:Hc; [|done..]. cbn [mbind res_bind].
  intros Hok. etransitivity; [by eapply close_frame_asteps|by apply IH].
Qed.

(** ** Refinement: the opcodes *)

Section ops.
Context `{Externals} (e : Eligibility).
Hypothesis Hnests : ∀ a, nests e a → owns a.

(** A decoded update is neither a store nor a nested op unless the opcode is [SSTORE]. *)
Lemma append_by_opcode_plain op stack memory p u :
  opc_of op ≠ OP_SSTORE → append_by_opcode [] op stack memory = Ok p → u ∈ p.1 →
  is_store u = false ∧ is_nested u = false.
Proof.
  unfold append_by_opcode. intros Hne Hp Hu.
  destruct (opc_of op); try done; inv_res; cbn in Hu;
    try (by apply not_elem_of_nil in Hu); by apply list_elem_of_singleton in Hu as ->.
Qed.

Lemma append_plain l p u :
  opc_of (sl_op l) ≠ OP_SSTORE → append_state_update_from_struct_log [] l = Ok p → u ∈ p.1 →
  is_store u = false ∧ is_nested u = false.
Proof.
  unfold append_state_update_from_struct_log. intros Hne Hp Hu. inv_res.
  destruct (sl_memory l); inv_res; [by eapply append_by_opcode_plain|].
  destruct (needs_memory_at_root _ && _); inv_res. by apply not_elem_of_nil in Hu.
Qed.

(** Pushing plain updates on the top frame's output. *)
Lemma emit_many P f F p us :
  af_program f = Some p → Forall (λ u, is_store u = false ∧ is_nested u = false) us →
  asteps owns (mkAState P (f :: F) None) (mkAState P (set_af_out (af_out f ++ us) f :: F) None).
Proof.
  intros Hp Hus. revert f Hp. induction Hus as [|u us [Hs Hn] Hus IH]; intros f Hp.
  - rewrite app_nil_r. by destruct f.
  - eapply rtc_l; [by eapply AEmit|].
    specialize (IH (set_af_out (af_out f ++ [u]) f) Hp). cbn in IH.
    by rewrite <-app_assoc in IH.
Qed.

Lemma append_asteps P f F l o sk p :
  opc_of (sl_op l) ≠ OP_SSTORE →
  append_state_update_from_struct_log (wf_out f) l = Ok (o, sk) → wf_program f = Some p →
  asteps owns (abs_state P (f :: F) None) (abs_state P (set_wf_out o f :: F) None).
Proof.
  intros Hne Happ Hp. rewrite append_app in Happ.
  destruct (append_state_update_from_struct_log [] l) as [q| |] eqn:Hq; [|done..].
  cbn [mbind res_bind] in Happ. inv_res.
  apply (emit_many _ (abs_frame f) _ p q.1); [done|].
  apply Forall_forall. intros u Hu. by eapply append_plain.
Qed.

Lemma walk_sstore_abs P f l P' f' :
  walk_sstore P f l = Ok (P', f') → abs_program <$> P' = abs_program <$> P ∧ abs_frame f' = abs_frame f.
Proof.
  unfold walk_sstore. destruct (wf_storage_ctx f) as [ctx|], (sl_error l);
    try (intros Hok; by inv_res).
  destruct (sl_stack l); [|done]. cbn [ok_or mbind res_bind].
  destruct (stack_get _ 0); [|done..]. cbn [mbind res_bind].
  destruct (stack_get _ 1); [|done..]. cbn [mbind res_bind set_wf_journal wf_program].
  destruct (wf_program f) as [id|]; [|intros Hok; by inv_res].
  unfold program_at. destruct (P !! id) as [p|] eqn:Hp; [|done]. cbn [expect mbind res_bind].
  destruct (ps_target p =? ctx); intros Hok; inv_res; split; try done.
  by eapply abs_insert.
Qed.

Lemma walk_log_asteps P f F l P' f' :
  opc_of (sl_op l) ≠ OP_SSTORE → walk_log P f l = Ok (P', f') →
  asteps owns (abs_state P (f :: F) None) (abs_state P' (f' :: F) None).
Proof.
  unfold walk_log. intros Hne.
  destruct (wf_program f) as [id|] eqn:Hid; [|intros Hok; by inv_res].
  destruct (sl_error l); [intros Hok; by inv_res|].
  destruct (append_state_update_from_struct_log _ l) as [[o sk]| |] eqn:Happ; [|done..].
  cbn [mbind res_bind]. unfold update_program, program_at.
  destruct (P !! id) as [p|] eqn:Hp; [|done]. cbn [expect mbind res_bind]. intros Hok. inv_res.
  assert (abs_state (<[id:=set_ps_effect_gas (u64_add (ps_effect_gas p) (sl_gas_cost l)) p]> P)
    (set_wf_out o f :: F) None = abs_state P (set_wf_out o f :: F) None) as ->
    by (apply abs_state_eq; [by eapply abs_insert|done]).
  by eapply append_asteps.
Qed.

(** The target of a decoded [CALL] is the callee the walk reads off the stack. *)
Lemma decoded_callee l stack us call :
  opc_of (sl_op l) = OP_CALL → sl_stack l = Some stack →
  append_state_update_from_struct_log [] l = Ok (us, None) → last us = Some (UCall call) →
  callee_of stack = Some (call_target call).
Proof.
  unfold append_state_update_from_struct_log, callee_of, second_from_top. intros Hop -> Happ Hu.
  cbn [expect mbind res_bind] in Happ. destruct (sl_memory l).
  - destruct (parse_trace_memory _) as [memory| |]; [|done..]. cbn [mbind res_bind] in Happ.
    unfold append_by_opcode in Happ. rewrite Hop in Happ.
    destruct (memory_range _ _ _ _ _ _) as [args| |]; [|done..]. cbn [mbind res_bind] in Happ.
    unfold stack_get in Happ. destruct (reverse stack !! 1%nat) as [target|] eqn:Ht; [|done].
    cbn [expect mbind res_bind] in Happ. destruct (reverse stack !! 2%nat); [|done].
    cbn in Happ. injection Happ as <-. injection Hu as <-. cbn [call_target].
    pose proof (lookup_lt_Some _ _ _ Ht) as Hlt. rewrite length_reverse in Hlt.
    rewrite reverse_lookup in Ht by done. rewrite (proj2 (Nat.leb_le _ _)) by lia.
    by rewrite Ht.
  - destruct (needs_memory_at_root _ && _); [done|]. injection Happ as <-. done.
Qed.

Lemma emit_call_asteps c P F l stack P' F' next :
  opc_of (sl_op l) = OP_CALL → sl_stack l = Some stack →
  emit_call e c P F l (callee_of stack) = Ok (P', F', next) →
  asteps owns (abs_state P F None) (abs_state P' F' (Some next)).
Proof.
  unfold emit_call. intros Hop Hstack Hok. set (callee := callee_of stack) in Hok.
  destruct (flush_slice F P) as [F1| |] eqn:Hflush; [|done..]. cbn [mbind res_bind] in Hok.
  etransitivity; [by eapply flush_slice_asteps|].
  apply flush_slice_shape in Hflush as (f0 & rest & o & v & q & pq & _ & -> & Hq & Hpq).
  set (f := set_wf_emitted_view v _) in *. cbn [top_frame mbind res_bind] in Hok.
  assert (wf_program f = Some q) as Hfq by done.
  destruct (append_state_update_from_struct_log [] l) as [[us sk]| |] eqn:Happ; [|done..].
  cbn [mbind res_bind] in Hok. destruct sk; [done|].
  destruct (last us) as [u|] eqn:Hu; [|by destruct (frame_index e c callee)].
  assert (is_store u = false ∧ is_nested u = false) as [Hs Hn].
  { eapply append_plain; [|exact Happ|by apply last_Some_elem_of]. by rewrite Hop. }
  assert (Hplain : Ok (P, set_wf_out (wf_out f ++ [u]) f :: rest,
      mkPendingFrame (sl_depth l) callee None ∅ (Some (sl_gas l)) false None (sl_gas_cost l))
      = (Ok (P', F', next) : Result _) →
    asteps owns (abs_state P (f :: rest) None) (abs_state P' F' (Some next))).
  { intros Heq. inv_res. etransitivity; [|apply rtc_once, APendNative].
    apply rtc_once. by apply (AEmit owns _ (abs_frame f) _ u q). }
  destruct (frame_index e c callee) as [index|] eqn:Hindex; [|by apply Hplain].
  destruct u; try by apply Hplain. clear Hplain. rewrite Hfq in Hok.
  cbn [expect mbind res_bind] in Hok. unfold update_program, program_at in Hok.
  rewrite lookup_app_l in Hok by by eapply lookup_lt_Some.
  rewrite Hpq in Hok. cbn [expect mbind res_bind] in Hok. inv_res.
  apply rtc_once.
  pose proof (ANest owns (abs_program <$> P) (abs_frame f) (abs_frame <$> rest) q (abs_program pq)
    (wf_storage_ctx f) index c0) as Hnest.
  cbv zeta in Hnest. rewrite list_lookup_fmap, Hpq, length_fmap in Hnest.
  subst callee. rewrite (decoded_callee l stack us c0) in Hindex by done.
  specialize (Hnest Hfq eq_refl (Hnests _ (frame_index_nests _ _ _ _ Hindex))). unfold abs_state. rewrite list_fmap_insert, fmap_app.
  exact Hnest.
Qed.

Lemma walk_call_asteps c P F l P' F' X :
  opc_of (sl_op l) = OP_CALL → walk_call e c P F l = Ok (P', F', X) →
  asteps owns (abs_state P F None) (abs_state P' F' X).
Proof.
  unfold walk_call. intros Hop Hok. destruct F as [|f F]; [done|].
  cbn [top_frame mbind res_bind] in Hok.
  destruct (sl_stack l) as [stack|] eqn:Hstack; [|done]. cbn [ok_or mbind res_bind] in Hok.
  destruct (sl_error l); [by inv_res|].
  destruct (wf_program f).
  - destruct (emit_call _ _ _ _ _ _) as [[[P1 F1] next]| |] eqn:Hemit; [|done..].
    cbn [mbind res_bind] in Hok. inv_res. by eapply emit_call_asteps.
  - inv_res. apply rtc_once, APendNative.
Qed.

Lemma walk_create_asteps P F l F' X :
  opc_of (sl_op l) ≠ OP_SSTORE → walk_create P F l = Ok (F', X) →
  asteps owns (abs_state P F None) (abs_state P F' X).
Proof.
  unfold walk_create. intros Hne Hok. destruct F as [|f F]; [done|].
  cbn [top_frame mbind res_bind] in Hok.
  destruct (sl_error l); [by inv_res|].
  destruct (wf_program f) as [id|] eqn:Hid.
  - destruct (flush_slice (f :: F) P) as [F1| |] eqn:Hflush; [|done..]. cbn [mbind res_bind] in Hok.
    etransitivity; [by eapply flush_slice_asteps|].
    apply flush_slice_shape in Hflush as (f0 & rest & o & v & q & pq & [= <- <-] & -> & Hq & Hpq).
    set (g := set_wf_emitted_view v _) in *. cbn [top_frame mbind res_bind] in Hok.
    destruct (append_state_update_from_struct_log (wf_out g) l) as [[us sk]| |] eqn:Happ; [|done..].
    cbn [mbind res_bind] in Hok. destruct sk; [done|]. inv_res.
    etransitivity; [by eapply append_asteps|]. apply rtc_once, APendNative.
  - inv_res. apply rtc_once, APendNative.
Qed.

Lemma walk_op_asteps c P F X0 sk l s :
  walk_op e c (mkSplitState P F X0 sk) l = Ok s →
  asteps owns (abs_state P F None) (abs_state (sp_programs s) (sp_frames s) (sp_pending s)).
Proof.
  cbn [walk_op]. intros Hok. destruct F as [|f F]; [done|]. cbn [top_frame mbind res_bind] in Hok.
  destruct (opc_of (sl_op l)) eqn:Hop.
  8-9: destruct (walk_create P (f :: F) l) as [[F1 X1]| |] eqn:Hc; [|done..]; cbn in Hok; inv_res;
    eapply walk_create_asteps; [|exact Hc]; by rewrite Hop.
  8-12: destruct (walk_log P f l) as [[P1 f1]| |] eqn:Hc; [|done..]; cbn in Hok; inv_res;
    eapply walk_log_asteps; [|exact Hc]; by rewrite Hop.
  - destruct (walk_sstore P f l) as [[P1 f1]| |] eqn:Hs; [|done..]. cbn in Hok. inv_res.
    apply walk_sstore_abs in Hs as [HP Hf]. cbn. unfold abs_state.
    by rewrite HP, !fmap_cons, Hf.
  - by inv_res.
  - by inv_res.
  - destruct (walk_call e c P (f :: F) l) as [[[P1 F1] X1]| |] eqn:Hc; [|done..].
    cbn in Hok. inv_res. by eapply walk_call_asteps.
  - destruct (sl_error l); [by inv_res|]. destruct (sl_stack l); [|done]. cbn in Hok. inv_res.
    apply rtc_once, APendNative.
  - inv_res. destruct (sl_error l); [done|]. apply rtc_once, APendDelegate.
  - inv_res. destruct (sl_error l); [done|]. apply rtc_once, APendDelegate.
  - by inv_res.
Qed.

Definition abs_split (s : SplitState) : AState :=
  abs_state (sp_programs s) (sp_frames s) (sp_pending s).

Lemma split_step_asteps cands s il s' :
  split_step e cands s il = Ok s' → asteps owns (abs_split s) (abs_split s').
Proof.
  destruct il as [i l]. cbn [split_step]. intros Hok.
  destruct s as [P F X sk]. destruct (open_pending _ l) as [s1| |] eqn:Hopen; [|done..].
  cbn [mbind res_bind] in Hok. apply open_pending_asteps in Hopen as [Hsteps _].
  destruct (close_frames _ _ _ l) as [[P2 F2]| |] eqn:Hclose; [|done..].
  cbn [mbind res_bind] in Hok.
  etransitivity; [exact Hsteps|]. etransitivity; [by eapply close_frames_asteps|].
  by eapply walk_op_asteps.
Qed.

Lemma split_walk_asteps cands logs root root_index s :
  foldM (split_step e cands) logs (initial_split_state root root_index) = Ok s →
  asteps owns (abs_split (initial_split_state root root_index)) (abs_split s).
Proof.
  intros Hfold.
  refine (foldM_inv (λ s, asteps owns (abs_split (initial_split_state root root_index)) (abs_split s))
    _ logs _ _ _ _ Hfold); [|done].
  intros s1 il s2 _ Hs1 Hstep. etransitivity; [exact Hs1|]. by eapply split_step_asteps.
Qed.
End ops.
End refinement.
