(* ===== verification/WalkInv.v ===== *)
(** * Invariants of the frame-tree walk

    Proved on the transition system of [WalkSpec] by induction on its rules: the stack of frames and
    the programs they emit into fit together, every program's [NESTED] ops are those of its live
    children in order, and what a frame believes it has emitted is what its program last stored. *)

From S2P Require Import Prelude.
From S2P Require Import Types.
From S2P Require Import FrameTree.
From S2P Require Import WalkSpec.

(** ** Reading programs and outputs *)

Definition live (P : list AProgram) (c : nat) : bool :=
  match P !! c with Some p => negb (ap_dropped p) | None => false end.

Definition children_of (P : list AProgram) (q : nat) : list nat :=
  match P !! q with Some p => ap_children p | None => [] end.

Definition parent_of (P : list AProgram) (c : nat) : option nat := P !! c ≫= ap_parent.

(** The target and value a [NESTED] op for program [c] carries. *)
Definition op_of (P : list AProgram) (c : nat) : Z * Z :=
  match P !! c with Some p => (ap_target p, ap_value p) | None => (0, 0) end.

Definition nested_ops (us : list StateUpdate) : list (Z * Z) :=
  flat_map (λ u, match u with UNested n => [(nested_target n, nested_value n)] | _ => [] end) us.

(** The live children of [q] opened before program [b]. *)
Definition kids (P : list AProgram) (q b : nat) : list nat :=
  List.filter (λ c, live P c && (c <? b)%nat) (children_of P q).

(** Everything the open frames have emitted for program [p], bottom frame first. *)
Fixpoint program_out (F : list AFrame) (p : nat) : list StateUpdate :=
  match F with
  | [] => []
  | f :: F => program_out F p ++ (if decide (af_program f = Some p) then af_out f else [])
  end.

(** Programs from here on were opened inside the frame. *)
Definition bound (f : AFrame) : nat := if af_nested f then S (af_first f) else af_first f.
Definition top_bound (F : list AFrame) : nat :=
  match F with f :: _ => bound f | [] => 0 end.

(** ** The invariant *)

(** The programs: the root is live; every other one was opened by an earlier one, and is in its
    children; children ascend. *)
Definition programs_ok (P : list AProgram) : Prop :=
  (∃ p, P !! 0%nat = Some p ∧ ap_parent p = None ∧ ap_dropped p = false) ∧
  (∀ c p, P !! c = Some p → (0 < c)%nat →
    is_Some (ap_fallback p) ∧ is_Some (ap_index p) ∧
    ∃ q, ap_parent p = Some q ∧ (q < c)%nat ∧ c ∈ children_of P q) ∧
  (∀ q, StronglySorted lt (children_of P q)) ∧
  (∀ q c, c ∈ children_of P q → (q < c < length P)%nat ∧ parent_of P c = Some q).

(** Nothing opened before the frame, other than its own program, has children opened inside it. *)
Definition closed_below (P : list AProgram) (f : AFrame) : Prop :=
  ∀ q c, (q < af_first f)%nat → af_program f ≠ Some q → c ∈ children_of P q → (c < bound f)%nat.

(** The program of the frame has [NESTED] ops for exactly its live children before [b]. *)
Definition ops_match (P : list AProgram) (F : list AFrame) (p b : nat) : Prop :=
  nested_ops (program_out F p) = op_of P <$> kids P p b.

(** Frame [f], on top of [g] in the stack [F], seen from programs before [b]. A frame that emits
    either starts a program of its own, opened by the frame below, or shares the program of the frame
    below; one that does not emit has no output, and no program was opened since. *)
Definition frame_fits (P : list AProgram) (f g : AFrame) (F : list AFrame) (b : nat) : Prop :=
  match af_program f with
  | Some p =>
      ops_match P F p b ∧ (p < b)%nat ∧ live P p = true ∧
      (if af_nested f then af_first f = p ∧ is_Some (af_program g) ∧ parent_of P p = af_program g
       else af_program g = Some p ∧ (p < af_first f)%nat)
  | None => af_nested f = false ∧ af_out f = [] ∧ af_first f = b
  end ∧
  (bound f ≤ b)%nat ∧ (bound g ≤ af_first f)%nat ∧ closed_below P f.

Fixpoint stack_ok (P : list AProgram) (F : list AFrame) (b : nat) : Prop :=
  match F with
  | [] => False
  | [f] => af_program f = Some 0%nat ∧ af_nested f = false ∧ af_first f = 0%nat ∧ (0 < b)%nat ∧
      ops_match P F 0 b
  | f :: (g :: _) as F' => frame_fits P f g F b ∧ stack_ok P F' (bound f)
  end.

Definition is_open (F : list AFrame) (q : nat) : Prop := ∃ f, f ∈ F ∧ af_program f = Some q.

(** A program that has returned holds its output. *)
Definition finished (P : list AProgram) (q : nat) : Prop :=
  ∃ p us, P !! q = Some p ∧ ap_updates p = Some us ∧
    nested_ops us = op_of P <$> kids P q (length P).

(** The frame the last opcode may open. *)
Definition pending_ok (P : list AProgram) (F : list AFrame) (X : option APending) : Prop :=
  match X with
  | None => True
  | Some x =>
      if an_nested x then
        ∃ id q, an_program x = Some id ∧ length P = S id ∧ (0 < id)%nat ∧ live P id = true ∧
          children_of P id = [] ∧ P !! id ≫= ap_updates = None ∧
        (head F ≫= af_program) = Some q ∧ parent_of P id = Some q ∧ (top_bound F ≤ id)%nat
      else an_program x = None ∨ an_program x = (head F ≫= af_program)
  end.

Definition awaited (X : option APending) (q : nat) : Prop :=
  ∃ x, X = Some x ∧ an_nested x = true ∧ an_program x = Some q.

Definition walk_ok (s : AState) : Prop :=
  let 'mkAState P F X := s in
  programs_ok P ∧ stack_ok P F (length P) ∧ pending_ok P F X ∧
  ∀ q, (q < length P)%nat → live P q = true → ¬ is_open F q → ¬ awaited X q → finished P q.

(** The walk's state, or the stack emptied below the root (which ends the walk). *)
Definition walk_inv (s : AState) : Prop :=
  walk_ok s ∨ (as_frames s = [] ∧ as_pending s = None).

(** ** Lemmas on programs *)

Lemma nested_ops_app us vs : nested_ops (us ++ vs) = nested_ops us ++ nested_ops vs.
Proof. apply flat_map_app. Qed.

Lemma nested_ops_plain u : is_nested u = false → nested_ops [u] = [].
Proof. by destruct u. Qed.

Lemma live_lt P c : live P c = true → (c < length P)%nat.
Proof. unfold live. destruct (P !! c) eqn:Hc; [|done]. intros _. by eapply lookup_lt_Some. Qed.

Lemma filter_ext_in {A} (f g : A → bool) l :
  (∀ x, x ∈ l → f x = g x) → List.filter f l = List.filter g l.
Proof.
  intros Hfg. apply List.filter_ext_in. intros x Hx. apply Hfg. by apply list_elem_of_In.
Qed.

Lemma elem_of_kids P q b c : c ∈ kids P q b ↔ c ∈ children_of P q ∧ live P c = true ∧ (c < b)%nat.
Proof.
  unfold kids. rewrite !list_elem_of_In, filter_In, andb_true_iff, Nat.ltb_lt. tauto.
Qed.

(** Two lists of programs that look the same before [b]. *)
Definition agree (P P' : list AProgram) (b : nat) : Prop :=
  (∀ c, (c < b)%nat → live P' c = live P c ∧ op_of P' c = op_of P c ∧
    parent_of P' c = parent_of P c) ∧
  (∀ q, List.filter (λ c, (c <? b)%nat) (children_of P' q) =
        List.filter (λ c, (c <? b)%nat) (children_of P q)).

Lemma agree_mono P P' b b' : (b' ≤ b)%nat → agree P P' b → agree P P' b'.
Proof.
  intros Hb [H1 H2]. split; [intros c Hc; apply H1; lia|]. intros q.
  assert (∀ l : list nat, List.filter (λ c, (c <? b')%nat) l =
    List.filter (λ c, (c <? b')%nat) (List.filter (λ c, (c <? b)%nat) l)) as Hff.
  { induction l as [|c l IH]; [done|]. cbn [List.filter].
    destruct (Nat.ltb_spec c b); cbn [List.filter].
    - by rewrite IH.
    - destruct (Nat.ltb_spec c b'); [lia|done]. }
  by rewrite Hff, H2, <-Hff.
Qed.

Lemma kids_two P q b :
  kids P q b = List.filter (live P) (List.filter (λ c, (c <? b)%nat) (children_of P q)).
Proof.
  unfold kids. induction (children_of P q) as [|c l IH]; [done|]. cbn [List.filter].
  destruct (c <? b)%nat; cbn [List.filter]; rewrite ?andb_true_r, ?andb_false_r; [|done].
  by rewrite IH.
Qed.

Lemma kids_agree P P' q b : agree P P' b → kids P' q b = kids P q b.
Proof.
  intros [H1 H2]. rewrite !kids_two, H2. apply filter_ext_in. intros c Hc.
  rewrite list_elem_of_In, filter_In in Hc. destruct Hc as [_ Hc%Nat.ltb_lt]. by apply H1.
Qed.

Lemma op_of_kids_agree P P' q b :
  agree P P' b → op_of P' <$> kids P' q b = op_of P <$> kids P q b.
Proof.
  intros Ha. rewrite (kids_agree P P') by done. apply list_fmap_ext.
  intros i c Hc. apply list_elem_of_lookup_2, elem_of_kids in Hc as (_ & _ & Hc). by apply Ha.
Qed.

(** No child in between: the bound may move. *)
Lemma kids_bound P q b b' :
  (b ≤ b')%nat → (∀ c, c ∈ children_of P q → live P c = true → (c < b')%nat → (c < b)%nat) →
  kids P q b' = kids P q b.
Proof.
  intros Hb Hc. unfold kids. apply filter_ext_in. intros c Hin.
  destruct (live P c) eqn:Hl; cbn [andb]; [|done]. symmetry.
  specialize (Hc c Hin Hl).
  destruct (Nat.ltb_spec c b'); [apply Nat.ltb_lt; by apply Hc|apply Nat.ltb_ge; lia].
Qed.

Lemma drop_programs_lookup first P c :
  drop_programs first P !! c = (if (c <? first)%nat then id else drop_ap) <$> P !! c.
Proof.
  unfold drop_programs. destruct (Nat.ltb_spec c first) as [Hlt|Hge].
  - destruct (decide (c < length P)%nat).
    + rewrite lookup_app_l by (rewrite length_take; lia). rewrite lookup_take_lt by done.
      by destruct (P !! c).
    + rewrite (proj2 (lookup_ge_None P c)) by lia. apply lookup_ge_None.
      rewrite length_app, length_take, length_fmap, length_drop. lia.
  - destruct (decide (first ≤ length P)%nat).
    + rewrite lookup_app_r by (rewrite length_take; lia).
      rewrite length_take, list_lookup_fmap, lookup_drop. f_equal. f_equal. lia.
    + rewrite (proj2 (lookup_ge_None P c)) by lia. apply lookup_ge_None.
      rewrite length_app, length_take, length_fmap, length_drop. lia.
Qed.

Lemma length_drop_programs first P : length (drop_programs first P) = length P.
Proof.
  unfold drop_programs. rewrite length_app, length_fmap, <-length_app. by rewrite take_drop.
Qed.

Lemma drop_programs_agree first P :
  agree P (drop_programs first P) first ∧
  (∀ q, children_of (drop_programs first P) q = children_of P q) ∧
  (∀ c, (first ≤ c)%nat → live (drop_programs first P) c = false).
Proof.
  assert (∀ q, children_of (drop_programs first P) q = children_of P q) as Hch.
  { intros q. unfold children_of. rewrite drop_programs_lookup.
    destruct (P !! q), (q <? first)%nat; done. }
  split_and!; [split|done|].
  - intros c Hc. unfold live, op_of, parent_of. rewrite drop_programs_lookup.
    rewrite (proj2 (Nat.ltb_lt c first)) by done. by destruct (P !! c).
  - intros q. by rewrite Hch.
  - intros c Hc. unfold live. rewrite drop_programs_lookup.
    rewrite (proj2 (Nat.ltb_ge c first)) by done. by destruct (P !! c).
Qed.

(** ** Lemmas on the stack *)

Lemma stack_cons P f g F b :
  stack_ok P (f :: g :: F) b ↔ frame_fits P f g (f :: g :: F) b ∧ stack_ok P (g :: F) (bound f).
Proof. done. Qed.

Lemma stack_root P f b :
  stack_ok P [f] b ↔ af_program f = Some 0%nat ∧ af_nested f = false ∧ af_first f = 0%nat ∧
    (0 < b)%nat ∧ ops_match P [f] 0 b.
Proof. done. Qed.

Lemma program_out_same F p f f' :
  af_program f' = af_program f → af_out f' = af_out f →
  program_out (f' :: F) p = program_out (f :: F) p.
Proof. intros Hp Ho. cbn. by rewrite Hp, Ho. Qed.

Lemma ops_match_agree P P' F p b : agree P P' b → ops_match P F p b → ops_match P' F p b.
Proof. unfold ops_match. intros Ha ->. symmetry. by apply op_of_kids_agree. Qed.

(** Changing programs the stack does not see. *)
Lemma stack_ok_agree P P' F b :
  agree P P' b → (∀ f, f ∈ F → closed_below P f → closed_below P' f) →
  stack_ok P F b → stack_ok P' F b.
Proof.
  revert b. induction F as [|f F IH]; intros b Ha Hc Hs; [done|].
  destruct F as [|g F].
  - apply stack_root in Hs as (? & ? & ? & ? & Hm). apply stack_root. split_and!; try done.
    by eapply ops_match_agree.
  - apply stack_cons in Hs as ((Hf & Hb & Hbg & Hcl) & Hs). apply stack_cons.
    split; [split_and!; [|done|done|apply Hc; [by left|done]]|].
    + destruct (af_program f) as [p|]; [|done].
      destruct Hf as (Hm & Hp & Hl & Hn). destruct (proj1 Ha p Hp) as (Hl' & _ & Hp').
      split_and!; [by eapply ops_match_agree|done|congruence|].
      destruct (af_nested f); [|done]. destruct Hn as (? & ? & ?). split_and!; [done..|congruence].
    + apply IH; [by eapply agree_mono|intros h Hh; apply Hc; by right|done].
Qed.

(** Changing the top frame's output, and the bound it is seen from. *)
Lemma stack_ok_top P f f' F b b' p :
  stack_ok P (f :: F) b → af_program f = Some p → af_program f' = Some p →
  af_nested f' = af_nested f → af_first f' = af_first f →
  ops_match P (f' :: F) p b' → (b ≤ b')%nat → stack_ok P (f' :: F) b'.
Proof.
  intros Hs Hp Hp' Hn Hfirst Hm Hb. destruct F as [|g F].
  - apply stack_root in Hs as (Hp0 & ? & ? & ? & _). apply stack_root.
    rewrite Hp in Hp0. injection Hp0 as ->. rewrite Hn, Hfirst. split_and!; try done. lia.
  - apply stack_cons in Hs as (Hs1 & Hs). apply stack_cons. unfold frame_fits in *.
    rewrite Hp in Hs1. rewrite Hp'. destruct Hs1 as ((_ & ? & ? & Hnest) & ? & ? & Hcl).
    assert (bound f' = bound f) as Hbf by (unfold bound; by rewrite Hn, Hfirst).
    rewrite Hbf, Hn, Hfirst. split_and!; try done; try lia.
    unfold closed_below in *. by rewrite Hp', Hbf, Hfirst, <-Hp.
Qed.

(** Every program on the stack is before the bound, and no later than the top's. *)
Lemma stack_program_lt P F b q : stack_ok P F b → is_open F q → (q < b)%nat.
Proof.
  revert b. induction F as [|f F IH]; intros b Hs (h & Hh & Hq); [by apply not_elem_of_nil in Hh|].
  destruct F as [|g F].
  - apply stack_root in Hs as (Hp & _ & _ & ? & _). apply list_elem_of_singleton in Hh as ->.
    rewrite Hp in Hq. by injection Hq as <-.
  - apply stack_cons in Hs as ((Hf & Hb & _ & _) & Hs).
    apply elem_of_cons in Hh as [->|Hh].
    + rewrite Hq in Hf. tauto.
    + enough (q < bound f)%nat by lia. apply IH; [done|]. by exists h.
Qed.

(** The parent of a nested program comes before it. *)
Lemma parent_lt P q q2 : programs_ok P → parent_of P q = Some q2 → (q2 < q)%nat ∧ q ∈ children_of P q2.
Proof.
  intros ((p0 & H0 & Hnone & _) & Hpar & _) Hq. unfold parent_of in Hq.
  destruct (P !! q) as [p|] eqn:Hp; [|done]. cbn in Hq.
  destruct (decide (q = 0%nat)) as [->|Hne]; [congruence|].
  destruct (Hpar q p Hp ltac:(lia)) as (_ & _ & q3 & Hq3 & Hlt & Hin).
  assert (q3 = q2) as -> by congruence. done.
Qed.

Lemma stack_top_largest P f F b q r :
  programs_ok P → stack_ok P (f :: F) b → af_program f = Some q → is_open (f :: F) r → (r ≤ q)%nat.
Proof.
  intros HP. revert f b q. induction F as [|g F IH]; intros f b q Hs Hq (h & Hh & Hr).
  - apply list_elem_of_singleton in Hh as ->. by rewrite Hq in Hr; injection Hr as ->.
  - apply elem_of_cons in Hh as [->|Hh]; [by rewrite Hq in Hr; injection Hr as ->|].
    apply stack_cons in Hs as (Hs1 & Hs). unfold frame_fits in Hs1. rewrite Hq in Hs1.
    destruct Hs1 as ((_ & _ & Hl & Hn) & _ & _ & _).
    assert (is_open (g :: F) r) as Hopen by by exists h.
    destruct (af_nested f).
    + destruct Hn as (_ & [q2 Hq2] & Hparent). rewrite Hq2 in Hparent.
      specialize (IH g _ q2 Hs Hq2 Hopen). apply parent_lt in Hparent; [lia|done].
    + destruct Hn as [Hg _]. by apply (IH g _ q Hs).
Qed.

Lemma first_le_bound f : (af_first f ≤ bound f)%nat.
Proof. unfold bound. destruct (af_nested f); lia. Qed.

(** Frames were opened in the order of the stack. *)
Lemma stack_bounds P g F b h : stack_ok P (g :: F) b → h ∈ g :: F → (bound h ≤ bound g)%nat.
Proof.
  revert g b. induction F as [|g2 F IH]; intros g b Hs Hh.
  - by apply list_elem_of_singleton in Hh as ->.
  - apply stack_cons in Hs as ((_ & _ & Hb & _) & Hs).
    apply elem_of_cons in Hh as [->|Hh]; [done|].
    specialize (IH g2 _ Hs Hh). pose proof (first_le_bound g). lia.
Qed.

(** The top's program is opened inside every frame that does not share it. *)
Lemma stack_top_inside P f F b q h :
  programs_ok P → stack_ok P (f :: F) b → af_program f = Some q → h ∈ f :: F →
  af_program h = Some q ∨ (af_first h ≤ q)%nat.
Proof.
  intros HP. revert f b q. induction F as [|g F IH]; intros f b q Hs Hq Hh.
  - apply list_elem_of_singleton in Hh as ->. by left.
  - apply elem_of_cons in Hh as [->|Hh]; [by left|].
    apply stack_cons in Hs as (Hs1 & Hs). unfold frame_fits in Hs1. rewrite Hq in Hs1.
    destruct Hs1 as ((_ & _ & Hl & Hn) & _ & Hbg & _).
    destruct (af_nested f).
    + destruct Hn as (Hfirst & _). pose proof (stack_bounds P g F _ h Hs Hh).
      pose proof (first_le_bound h). right. lia.
    + destruct Hn as [Hg _]. by apply (IH g _ q Hs).
Qed.

(** ** Opening a nested program *)

Section nest.
Context (P : list AProgram) (q : nat) (pq new : AProgram).
Hypothesis Hpq : P !! q = Some pq.
Hypothesis Hnew : ap_parent new = Some q ∧ ap_children new = [] ∧ ap_dropped new = false ∧
  is_Some (ap_fallback new) ∧ is_Some (ap_index new).
Let P' : list AProgram := <[q := set_ap_children (ap_children pq ++ [length P]) pq]> (P ++ [new]).

Lemma nest_lookup c :
  P' !! c = if decide (c = q) then Some (set_ap_children (ap_children pq ++ [length P]) pq)
            else if decide (c = length P) then Some new else P !! c.
Proof.
  pose proof (lookup_lt_Some _ _ _ Hpq) as Hlt. unfold P'. case_decide as Hq.
  - subst c. rewrite list_lookup_insert_eq; [done|]. rewrite length_app; lia.
  - rewrite list_lookup_insert_ne by done. case_decide as Hc.
    + subst c. rewrite lookup_app_r by lia. by rewrite Nat.sub_diag.
    + destruct (decide (c < length P)%nat); [by rewrite lookup_app_l|].
      rewrite (proj2 (lookup_ge_None P c)) by lia. apply lookup_ge_None. rewrite length_app; cbn. lia.
Qed.

Lemma nest_length : length P' = S (length P).
Proof. unfold P'. rewrite length_insert, length_app. cbn. lia. Qed.

Lemma nest_children r :
  children_of P' r = if decide (r = q) then children_of P q ++ [length P] else children_of P r.
Proof.
  unfold children_of. rewrite nest_lookup. case_decide as Hr; [by rewrite Hpq|].
  case_decide as Hc; [|done]. subst r. destruct Hnew as (_ & -> & _).
  by rewrite (proj2 (lookup_ge_None P (length P))) by lia.
Qed.

Lemma nest_agree : agree P P' (length P).
Proof.
  split.
  - intros c Hc. unfold live, op_of, parent_of. rewrite nest_lookup.
    case_decide as Hq; [subst c; by rewrite Hpq|]. by rewrite decide_False by lia.
  - intros r. rewrite nest_children. case_decide as Hr; [|done]. subst r.
    rewrite List.filter_app. cbn [List.filter]. rewrite Nat.ltb_irrefl. by rewrite app_nil_r.
Qed.

Lemma nest_live : live P' (length P) = true.
Proof.
  pose proof (lookup_lt_Some _ _ _ Hpq). unfold live. rewrite nest_lookup.
  rewrite decide_False, decide_True by lia. by destruct Hnew as (_ & _ & -> & _).
Qed.

Lemma nest_parent : parent_of P' (length P) = Some q.
Proof.
  pose proof (lookup_lt_Some _ _ _ Hpq). unfold parent_of. rewrite nest_lookup.
  rewrite decide_False, decide_True by lia. by destruct Hnew as (? & _).
Qed.

Lemma nest_programs_ok : programs_ok P → programs_ok P'.
Proof.
  pose proof (lookup_lt_Some _ _ _ Hpq) as Hlt. intros ((p0 & H0 & Hpar0 & Hd0) & Hpar & Hsort & Hch).
  assert (Hch' : ∀ r c, c ∈ children_of P r → c ∈ children_of P' r).
  { intros r c Hc. rewrite nest_children. case_decide; [subst; apply elem_of_app; by left|done]. }
  split_and!.
  - rewrite nest_lookup. case_decide as Hq.
    + subst q. eexists. split; [done|]. rewrite H0 in Hpq. injection Hpq as <-. done.
    + rewrite decide_False by lia. by exists p0.
  - intros c p Hc Hpos. rewrite nest_lookup in Hc. case_decide as Hq.
    + subst c. injection Hc as <-.
      destruct (Hpar q pq Hpq Hpos) as (Hfb & Hix & r & Hr & Hrq & Hin).
      split_and!; [done|done|]. exists r. split_and!; [done|done|by apply Hch'].
    + case_decide as Hcl.
      * injection Hc as <-. destruct Hnew as (Hp & _ & _ & Hfb & Hix). split_and!; [done|done|].
        exists q. split_and!; [done|lia|]. rewrite nest_children, decide_True by done.
        apply elem_of_app. right. subst c. by left.
      * destruct (Hpar c p Hc Hpos) as (Hfb & Hix & r & Hr & Hrc & Hin).
        split_and!; [done|done|]. exists r. split_and!; [done|done|by apply Hch'].
  - intros r. rewrite nest_children. case_decide; [|apply Hsort].
    assert (∀ l n, StronglySorted lt l → (∀ c, c ∈ l → (c < n)%nat) → StronglySorted lt (l ++ [n]))
      as Hsnoc.
    { clear. induction l as [|x l IH]; intros n Hs Hl; cbn; [repeat constructor|].
      apply StronglySorted_inv in Hs as [Hs Hx]. constructor.
      - apply IH; [done|]. intros c Hc. apply Hl. by right.
      - apply Forall_app. split; [done|]. constructor; [apply Hl; by left|done]. }
    apply Hsnoc; [apply Hsort|]. intros c Hc. apply Hch in Hc. lia.
  - intros r c Hc. rewrite nest_length. rewrite nest_children in Hc.
    destruct nest_agree as [Hag _]. case_decide as Hr.
    + subst r. apply elem_of_app in Hc as [Hc|Hc].
      * destruct (Hch q c Hc) as [? Hp]. split; [lia|]. by rewrite (proj2 (proj2 (Hag c ltac:(lia)))).
      * apply list_elem_of_singleton in Hc as ->. split; [lia|]. apply nest_parent.
    + destruct (Hch r c Hc) as [? Hp]. split; [lia|]. by rewrite (proj2 (proj2 (Hag c ltac:(lia)))).
Qed.
End nest.

(** ** The rules preserve the invariant *)

Definition all_finished (P : list AProgram) (F : list AFrame) (X : option APending) : Prop :=
  ∀ q, (q < length P)%nat → live P q = true → ¬ is_open F q → ¬ awaited X q → finished P q.

Lemma is_open_cons f F q : is_open (f :: F) q ↔ af_program f = Some q ∨ is_open F q.
Proof.
  split.
  - intros (h & [->|Hh]%elem_of_cons & Hq); [by left|right; by exists h].
  - intros [Hq|(h & Hh & Hq)]; [exists f; split; [by left|done]|exists h; split; [by right|done]].
Qed.

Lemma not_awaited_None q : ¬ awaited None q.
Proof. by intros (x & ? & _). Qed.

(** Views play no part. *)
Lemma forgets_same F F' :
  Forall2 forgets F F' → ∀ P b q,
  program_out F' q = program_out F q ∧ (is_open F' q ↔ is_open F q) ∧ (stack_ok P F b → stack_ok P F' b) ∧
  top_bound F' = top_bound F ∧ (head F' ≫= af_program) = (head F ≫= af_program).
Proof.
  induction 1 as [|f g F F' [Hg _] HF IH]; intros P b q; [done|].
  assert (af_program g = af_program f ∧ af_out g = af_out f ∧ af_nested g = af_nested f ∧
    af_first g = af_first f) as (Hp & Ho & Hn & Hf) by (rewrite Hg; done).
  assert (∀ q, program_out (g :: F') q = program_out (f :: F) q) as Hout.
  { intros r. cbn. rewrite Hp, Ho. by rewrite (proj1 (IH P b r)). }
  assert (bound g = bound f) as Hbound by (unfold bound; by rewrite Hn, Hf).
  split_and!.
  - apply Hout.
  - rewrite !is_open_cons, Hp. by rewrite (proj1 (proj2 (IH P b q))).
  - intros Hs. destruct F as [|f2 F].
    + apply Forall2_nil_inv_l in HF as ->. apply stack_root in Hs. apply stack_root.
      unfold ops_match in *. by rewrite Hp, Hn, Hf, Hout.
    + destruct F' as [|g2 F']; [by apply Forall2_length in HF|].
      destruct (IH P (bound f) q) as (_ & _ & Hstack & Htop & Hhead).
      cbn -[program_out stack_ok] in Htop, Hhead.
      apply stack_cons in Hs as (Hs1 & Hs). apply stack_cons.
      unfold frame_fits, ops_match, closed_below in *.
      rewrite Hp, Hbound, Hn, Hf, Htop, Hhead, Ho. split; [|by apply Hstack].
      destruct Hs1 as (Hs1 & ? & ? & ?). split_and!; [|done..].
      destruct (af_program f); [by rewrite Hout|done].
  - done.
  - done.
Qed.

Lemma program_out_push F f us p :
  af_program f = Some p →
  program_out (set_af_out (af_out f ++ us) f :: F) p = program_out (f :: F) p ++ us.
Proof.
  intros Hp. cbn [program_out]. change (af_program (set_af_out _ f)) with (af_program f).
  rewrite Hp, !decide_True by done. apply app_assoc.
Qed.

Lemma program_out_closed F p : ¬ is_open F p → program_out F p = [].
Proof.
  induction F as [|f F IH]; intros Hn; [done|]. cbn. rewrite is_open_cons in Hn.
  rewrite IH by tauto. rewrite decide_False by tauto. done.
Qed.

Lemma top_ops P f F b p :
  stack_ok P (f :: F) b → af_program f = Some p →
  ops_match P (f :: F) p b ∧ (p < b)%nat.
Proof.
  intros Hs Hp. destruct F as [|g F].
  - apply stack_root in Hs as (Hp0 & _ & _ & ? & ?). rewrite Hp in Hp0. by injection Hp0 as ->.
  - apply stack_cons in Hs as ((Hs & _) & _). rewrite Hp in Hs. tauto.
Qed.

Lemma top_bound_le P F b : stack_ok P F b → (top_bound F ≤ b)%nat.
Proof.
  destruct F as [|f [|g F]]; [done| |].
  - intros (_ & Hn & Hf & _)%stack_root. cbn. unfold bound. rewrite Hn, Hf. lia.
  - intros ((_ & Hb & _) & _)%stack_cons. done.
Qed.

(** Pushing updates that are not nested ops. *)
Lemma emit_ok P f f' F X us p :
  walk_ok (mkAState P (f :: F) X) → af_program f = Some p → nested_ops us = [] →
  af_program f' = Some p → af_nested f' = af_nested f → af_first f' = af_first f →
  af_out f' = af_out f ++ us → walk_ok (mkAState P (f' :: F) X).
Proof.
  intros (HP & HS & HX & HF) Hp Hus Hp' Hn Hfirst Ho. split_and!; [done| | |].
  - eapply (stack_ok_top P f); try done.
    assert (program_out (f' :: F) p = program_out (f :: F) p ++ us) as Hout
      by (cbn; rewrite Hp, Hp', !decide_True, Ho by done; by rewrite app_assoc).
    unfold ops_match. rewrite Hout, nested_ops_app, Hus, app_nil_r.
    by apply (top_ops P f F).
  - assert (bound f' = bound f) as Hb by (unfold bound; by rewrite Hn, Hfirst).
    unfold pending_ok in *. cbn [head mbind option_bind top_bound] in *. by rewrite Hp', Hb, <-Hp.
  - intros q Hq Hl Ho' Ha. apply HF; [done|done| |done].
    rewrite is_open_cons in *. by rewrite Hp, <-Hp'.
Qed.

Lemma finished_agree P P' q :
  P' !! q = P !! q → op_of P' <$> kids P' q (length P') = op_of P <$> kids P q (length P) →
  finished P q → finished P' q.
Proof. intros Hq Hk (p & us & Hp & Hus & Hops). exists p, us. by rewrite Hq, Hk. Qed.

Lemma nest_ok P f F q pq ctx index call :
  walk_ok (mkAState P (f :: F) None) → af_program f = Some q → P !! q = Some pq →
  walk_ok (mkAState
    (<[q := set_ap_children (ap_children pq ++ [length P]) pq]>
       (P ++ [new_program q ctx index call]))
    (set_af_out (af_out f ++ [UNested (mkNested (call_target call) (call_value call) 0)]) f :: F)
    (Some (mkAPending (Some (length P)) true ∅))).
Proof.
  intros (HP & HS & _ & HF) Hp Hpq.
  set (new := new_program q ctx index call).
  assert (Hnew : ap_parent new = Some q ∧ ap_children new = [] ∧ ap_dropped new = false ∧
    is_Some (ap_fallback new) ∧ is_Some (ap_index new)) by (split_and!; try done; by eexists).
  pose proof (nest_agree P q pq new Hpq Hnew) as Hag.
  pose proof (nest_children P q pq new Hpq Hnew) as Hch.
  pose proof (nest_length P q pq new) as Hlen.
  pose proof (nest_lookup P q pq new Hpq) as Hlook.
  pose proof (nest_live P q pq new Hpq Hnew) as Hlive.
  pose proof (nest_parent P q pq new Hpq Hnew) as Hparent.
  pose proof (nest_programs_ok P q pq new Hpq Hnew HP) as HP'.
  set (P' := <[q := _]> (P ++ [new])) in *.
  set (f' := set_af_out _ f).
  destruct (top_ops P f F _ q HS Hp) as [Hm Hq].
  assert (stack_ok P' (f :: F) (length P)) as HS'.
  { apply (stack_ok_agree P P'); [done| |done].
    intros h Hh Hcl r c Hr Hne Hc. rewrite Hch in Hc. case_decide as Hrq; [|by eapply Hcl].
    subst r. destruct (stack_top_inside P f F _ q h HP HS Hp Hh); [done|lia]. }
  assert (kids P' q (length P') = kids P q (length P) ++ [length P]) as Hkids.
  { unfold kids at 1. rewrite Hch, decide_True by done. rewrite List.filter_app, Hlen.
    cbn [List.filter]. rewrite Hlive, (proj2 (Nat.ltb_lt _ _)) by lia. cbn [andb]. f_equal.
    transitivity (kids P' q (length P)); [|by apply kids_agree].
    unfold kids. rewrite Hch, decide_True by done. rewrite List.filter_app. cbn [List.filter].
    rewrite Nat.ltb_irrefl, andb_false_r, app_nil_r.
    apply filter_ext_in. intros c Hc. apply HP in Hc as [Hc _].
    by rewrite !(proj2 (Nat.ltb_lt _ _)) by lia. }
  split_and!; [done| | |].
  - rewrite Hlen. eapply (stack_ok_top P' f); try done; [|lia].
    unfold ops_match in *. unfold f'. rewrite program_out_push by done.
    rewrite nested_ops_app, Hm, <-Hlen, Hkids, fmap_app.
    assert (op_of P <$> kids P q (length P) = op_of P' <$> kids P q (length P)) as ->.
    { rewrite <-(op_of_kids_agree P P' q (length P) Hag). by rewrite (kids_agree P P' q _ Hag). }
    f_equal. cbn. unfold op_of. rewrite Hlook. by rewrite decide_False, decide_True by lia.
  - cbn -[children_of P']. exists (length P), q. split_and!; try done; [lia| | |].
    + rewrite Hch, decide_False by lia. unfold children_of.
      by rewrite (proj2 (lookup_ge_None P (length P))) by lia.
    + rewrite Hlook. by rewrite decide_False, decide_True by lia.
    + by apply (top_bound_le P (f :: F)).
  - intros r Hr Hl Ho Ha. rewrite is_open_cons in Ho.
    assert (r ≠ q) as Hrq by (intros ->; apply Ho; by left).
    assert (r ≠ length P) as Hrl by (intros ->; apply Ha; eexists; done).
    eapply (finished_agree P).
    + rewrite Hlook. by rewrite !decide_False by done.
    + assert (kids P' r (length P') = kids P' r (length P)) as ->.
      { apply kids_bound; [lia|]. intros c Hc _ _. rewrite Hch, decide_False in Hc by done.
        apply HP in Hc. lia. }
      by apply op_of_kids_agree.
    + apply HF; [lia| | |apply not_awaited_None].
      * destruct Hag as [Hag _]. rewrite <-(proj1 (Hag r ltac:(lia))). done.
      * by rewrite is_open_cons.
Qed.

Lemma top_closed_below P f : programs_ok P → bound f = length P → closed_below P f.
Proof. intros HP Hb q c _ _ Hc. apply HP in Hc. lia. Qed.

Lemma program_out_open F f p :
  af_out f = [] → program_out (f :: F) p = program_out F p.
Proof. intros Ho. cbn [program_out]. rewrite Ho. case_decide; by rewrite app_nil_r. Qed.

Lemma root_live P : programs_ok P → live P 0 = true.
Proof. intros ((p0 & H0 & _ & Hd) & _). unfold live. by rewrite H0, Hd. Qed.

Lemma top_live P f F b p :
  programs_ok P → stack_ok P (f :: F) b → af_program f = Some p → live P p = true.
Proof.
  intros HP Hs Hp. destruct F as [|g F].
  - apply stack_root in Hs as (Hp0 & _). rewrite Hp in Hp0. injection Hp0 as ->.
    by apply root_live.
  - apply stack_cons in Hs as ((Hs & _) & _). rewrite Hp in Hs. tauto.
Qed.

Lemma open_ok P F x :
  walk_ok (mkAState P F (Some x)) →
  let first := if an_nested x then default (length P) (an_program x) else length P in
  walk_ok (mkAState P (mkAFrame (an_program x) [] (an_view x) (an_nested x) first :: F) None).
Proof.
  intros (HP & HS & HX & HF). cbv zeta. set (f := mkAFrame _ _ _ _ _).
  destruct F as [|g F]; [done|]. cbn in HX.
  assert (HF' : ∀ q, (q < length P)%nat → live P q = true → ¬ is_open (f :: g :: F) q →
    ¬ awaited None q → finished P q).
  { intros q Hq Hl Ho _. rewrite is_open_cons in Ho. apply HF; [done|done|tauto|].
    intros (y & [= <-] & _ & Hy). apply Ho. by left. }
  pose proof (top_bound_le P (g :: F) _ HS) as Hbg. cbn in Hbg.
  unfold f. destruct (an_nested x) eqn:Hn.
  - destruct HX as (id & q & Hid & Hlen & Hpos & Hl & Hch & _ & Hq & Hpar & Hb). fold f.
    assert (bound f = length P) as Hbf by (unfold bound, f; cbn; rewrite Hid, Hlen; done).
    split_and!; [done| |done|done]. apply stack_cons. split.
    + unfold frame_fits. unfold f at 1. cbn [af_program]. rewrite Hid. split_and!.
      * unfold ops_match. rewrite program_out_open by done.
        rewrite program_out_closed.
        -- unfold kids. by rewrite Hch.
        -- intros Ho. pose proof (stack_top_largest P g F _ q id HP HS Hq Ho).
           apply parent_lt in Hpar; [lia|done].
      * lia.
      * done.
      * unfold f; cbn. rewrite Hid. cbn. split_and!; [done|by rewrite Hq|congruence].
      * lia.
      * unfold f; cbn. rewrite Hid. done.
      * by apply top_closed_below.
    + by rewrite Hbf.
  - fold f. assert (bound f = length P) as Hbf by done.
    split_and!; [done| |done|done]. apply stack_cons. split; [|by rewrite Hbf].
    unfold frame_fits. unfold f at 1. cbn [af_program].
    destruct (an_program x) as [p|] eqn:Hx.
    + destruct HX as [|Hp]; [done|]. symmetry in Hp.
      destruct (top_ops P g F _ p HS Hp) as [Hm Hlt].
      split_and!; try done; try (rewrite Hbf; lia).
      * unfold ops_match. by rewrite program_out_open.
      * by eapply top_live.
      * by apply top_closed_below.
    + split_and!; try done; try (rewrite Hbf; lia). by apply top_closed_below.
Qed.

(** A frame that is not nested returns to the one below it. *)
Lemma return_ok P f g F :
  walk_ok (mkAState P (f :: g :: F) None) → af_nested f = false →
  walk_ok (mkAState P
    ((let g' := set_af_out (af_out g ++ af_out f) g in
      if bool_decide (is_Some (af_program f)) then set_af_view (af_view f) g' else g') :: F) None).
Proof.
  intros (HP & HS & _ & HF) Hn. cbv zeta. set (g' := if bool_decide _ then _ else _).
  assert (af_program g' = af_program g ∧ af_out g' = af_out g ++ af_out f ∧
    af_nested g' = af_nested g ∧ af_first g' = af_first g) as (Hp' & Ho' & Hn' & Hf')
    by (subst g'; by destruct (bool_decide _)).
  apply stack_cons in HS as ((Hfit & Hb & Hbg & Hcl) & HS).
  assert (bound f = af_first f) as Hbf by (unfold bound; by rewrite Hn).
  assert (HF' : all_finished P (g' :: F) None).
  { intros q Hq Hl Ho _. apply HF; [done|done| |apply not_awaited_None].
    rewrite !is_open_cons, Hp' in *. intros [Hfq|Hrest]; [|tauto].
    rewrite Hfq, Hn in Hfit. destruct Hfit as (_ & _ & _ & Hg & _). tauto. }
  destruct (af_program f) as [p|] eqn:Hp.
  - destruct Hfit as (Hm & Hlt & Hl & Hfit). rewrite Hn in Hfit. destruct Hfit as [Hg Hpf].
    split_and!; [done| |done|done].
    eapply (stack_ok_top P g); [exact HS|done|congruence|done|done| |lia].
    unfold ops_match in *. rewrite <-Hm. f_equal. cbn [program_out].
    rewrite Hp', Hp, Hg, !decide_True, Ho' by done. apply app_assoc.
  - destruct Hfit as (_ & Hout & Hfirst).
    assert (g' = g) as -> by (subst g'; cbn; rewrite Hout, app_nil_r; by destruct g).
    rewrite Hbf, Hfirst in HS. done.
Qed.

(** The first frame of a nested program returns: the program holds its output. *)
Lemma return_nested_ok P f g F id p :
  walk_ok (mkAState P (f :: g :: F) None) → af_nested f = true → af_program f = Some id →
  P !! id = Some p →
  walk_ok (mkAState (<[id := set_ap_updates (Some (af_out f)) p]> P) (g :: F) None).
Proof.
  intros (HP & HS & _ & HF) Hn Hid Hp. set (P' := <[id := _]> P).
  assert (Hlook : ∀ c, P' !! c = if decide (c = id) then Some (set_ap_updates (Some (af_out f)) p)
    else P !! c).
  { intros c. unfold P'. case_decide as Hc; [subst c|by rewrite list_lookup_insert_ne].
    rewrite list_lookup_insert_eq; [done|]. by eapply lookup_lt_Some. }
  assert (Hsame : ∀ c, live P' c = live P c ∧ op_of P' c = op_of P c ∧
    parent_of P' c = parent_of P c ∧ children_of P' c = children_of P c).
  { intros c. unfold live, op_of, parent_of, children_of. rewrite Hlook.
    case_decide as Hc; [subst c; by rewrite Hp|done]. }
  assert (Hlen : length P' = length P) by apply length_insert.
  assert (Hag : ∀ b, agree P P' b).
  { intros b. split; [intros c _; destruct (Hsame c) as (? & ? & ? & ?); done|].
    intros q. by rewrite (proj2 (proj2 (proj2 (Hsame q)))). }
  apply stack_cons in HS as Hcons. destruct Hcons as ((Hfit & Hb & Hbg & Hcl) & HS').
  rewrite Hid, Hn in Hfit. destruct Hfit as (Hm & Hlt & Hl & Hfirst & [q Hq] & Hpar).
  assert (bound f = S id) as Hbf by (unfold bound; by rewrite Hn, Hfirst).
  rewrite Hq in Hpar. apply parent_lt in Hpar as Hqid; [|done]. destruct Hqid as [Hqid Hin].
  assert (Hnotopen : ¬ is_open (g :: F) id).
  { intros Ho. pose proof (stack_top_largest P g F _ q id HP HS' Hq Ho). lia. }
  split_and!; [| |done|].
  - destruct HP as ((p0 & H0 & Hpar0 & Hd0) & Hpars & Hsort & Hch). split_and!.
    + rewrite Hlook, decide_False by lia. by exists p0.
    + intros c pc Hc Hpos. rewrite Hlook in Hc.
      assert (∃ pc', P !! c = Some pc' ∧ ap_fallback pc' = ap_fallback pc ∧
        ap_index pc' = ap_index pc ∧ ap_parent pc' = ap_parent pc) as (pc' & Hpc & <- & <- & <-).
      { case_decide; [|by exists pc]. subst c. injection Hc as <-. by exists p. }
      destruct (Hpars c pc' Hpc Hpos) as (? & ? & r & ? & ? & Hr). split_and!; [done|done|].
      exists r. by rewrite (proj2 (proj2 (proj2 (Hsame r)))).
    + intros r. by rewrite (proj2 (proj2 (proj2 (Hsame r)))).
    + intros r c Hc. rewrite (proj2 (proj2 (proj2 (Hsame r)))) in Hc. rewrite Hlen.
      rewrite (proj1 (proj2 (proj2 (Hsame c)))). by apply Hch.
  - rewrite Hlen. destruct (top_ops P g F _ q HS' Hq) as [Hm' _].
    assert (stack_ok P' (g :: F) (bound f)) as HS1.
    { apply (stack_ok_agree P); [done| |done]. intros h _ Hc r c Hr Hne Hcr.
      rewrite (proj2 (proj2 (proj2 (Hsame r)))) in Hcr. by eapply Hc. }
    eapply (stack_ok_top P' g); [exact HS1|exact Hq|exact Hq|done|done| |lia].
    apply (ops_match_agree P); [done|]. unfold ops_match in *. rewrite Hm'. f_equal. symmetry.
    apply kids_bound; [lia|]. intros c Hc _ _. apply (Hcl q c); [lia|rewrite Hid; intros [=]; lia|done].
  - intros r Hr Hlr Ho _. rewrite Hlen in Hr. rewrite (proj1 (Hsame r)) in Hlr.
    destruct (decide (r = id)) as [->|Hne].
    + exists (set_ap_updates (Some (af_out f)) p), (af_out f).
      rewrite Hlook, decide_True by done. split_and!; [done|done|].
      rewrite Hlen, (op_of_kids_agree P P') by done. unfold ops_match in Hm. rewrite <-Hm.
      f_equal. change (program_out (f :: g :: F) id) with
        (program_out (g :: F) id ++ (if decide (af_program f = Some id) then af_out f else [])).
      by rewrite (program_out_closed (g :: F)), decide_True.
    + eapply (finished_agree P).
      * by rewrite Hlook, decide_False.
      * rewrite Hlen. by apply op_of_kids_agree.
      * apply HF; [done|done| |apply not_awaited_None]. rewrite is_open_cons, Hid.
        intros [[= Heq]|Hrest]; [congruence|done].
Qed.

Lemma drop_programs_ok P first :
  programs_ok P → (0 < first)%nat → programs_ok (drop_programs first P).
Proof.
  intros ((p0 & H0 & Hpar0 & Hd0) & Hpars & Hsort & Hch) Hfirst.
  destruct (drop_programs_agree first P) as (_ & Hchildren & _). split_and!.
  - exists p0. by rewrite drop_programs_lookup, H0, (proj2 (Nat.ltb_lt 0 first)).
  - intros c p Hc Hpos. rewrite drop_programs_lookup in Hc.
    destruct (P !! c) as [pc|] eqn:Hpc; [|done].
    destruct (Hpars c pc Hpc Hpos) as (? & ? & q & ? & ? & ?).
    assert (ap_fallback p = ap_fallback pc ∧ ap_index p = ap_index pc ∧ ap_parent p = ap_parent pc)
      as (-> & -> & ->) by (destruct (c <? first)%nat; injection Hc as <-; done).
    split_and!; [done|done|]. exists q. by rewrite Hchildren.
  - intros q. by rewrite Hchildren.
  - intros q c Hc. rewrite Hchildren in Hc. rewrite length_drop_programs.
    destruct (Hch q c Hc) as [? Hp]. split; [done|]. unfold parent_of in *.
    rewrite drop_programs_lookup. by destruct (P !! c), (c <? first)%nat.
Qed.

(** After dropping from [first] on, the live children are those before it. *)
Lemma kids_drop P first q b :
  (first ≤ b)%nat → kids (drop_programs first P) q b = kids P q first.
Proof.
  intros Hb. destruct (drop_programs_agree first P) as (Hag & Hch & Hdead).
  rewrite <-(kids_agree P (drop_programs first P) q first) by done.
  apply kids_bound; [done|]. intros c _ Hl _.
  destruct (decide (c < first)%nat) as [|Hge]; [done|]. rewrite Hdead in Hl by lia. done.
Qed.

Lemma op_of_kids_drop P first q b :
  (first ≤ b)%nat →
  op_of (drop_programs first P) <$> kids (drop_programs first P) q b =
  op_of P <$> kids P q first.
Proof.
  intros Hb. destruct (drop_programs_agree first P) as (Hag & _).
  rewrite kids_drop by done. rewrite <-(op_of_kids_agree _ _ q _ Hag).
  by rewrite (kids_agree _ _ q _ Hag).
Qed.

(** Programs that had returned before the frame was opened are not affected by its revert. *)
Lemma finished_drop P first q :
  (first ≤ length P)%nat → (q < first)%nat → (∀ c, c ∈ children_of P q → (c < first)%nat) →
  finished P q → finished (drop_programs first P) q.
Proof.
  intros Hle Hq Hc. apply finished_agree.
  - rewrite drop_programs_lookup, (proj2 (Nat.ltb_lt _ _)) by done. by destruct (P !! q).
  - rewrite length_drop_programs, op_of_kids_drop by done. f_equal. symmetry.
    apply kids_bound; [done|]. intros c Hin _ _. by apply Hc.
Qed.

Lemma revert_ok P f g F :
  walk_ok (mkAState P (f :: g :: F) None) → af_nested f = false → (af_first f ≤ length P)%nat →
  walk_ok (mkAState (drop_programs (af_first f) P) (g :: F) None).
Proof.
  intros (HP & HS & _ & HF) Hn Hle.
  set (P' := drop_programs (af_first f) P).
  destruct (drop_programs_agree (af_first f) P) as (Hag & Hch & Hdead). fold P' in Hag, Hch, Hdead.
  apply stack_cons in HS as Hcons. destruct Hcons as ((Hfit & Hb & Hbg & Hcl) & HS').
  assert (bound f = af_first f) as Hbf by (unfold bound; by rewrite Hn). rewrite Hbf in HS'.
  assert (Hfirst : (0 < af_first f)%nat).
  { destruct (af_program f) as [p|] eqn:Hp; [rewrite Hn in Hfit; lia|].
    destruct Hfit as (_ & _ & ->). destruct HP as ((p0 & H0 & _) & _).
    apply lookup_lt_Some in H0. lia. }
  assert (stack_ok P' (g :: F) (af_first f)) as HS1.
  { apply (stack_ok_agree P); [done| |done]. intros h _ Hc q c Hq Hne Hin.
    rewrite Hch in Hin. by eapply Hc. }
  split_and!; [by apply drop_programs_ok| |done|].
  - unfold P' at 2. rewrite length_drop_programs. destruct (af_program f) as [p|] eqn:Hp.
    + rewrite Hn in Hfit. destruct Hfit as (_ & _ & _ & Hg & _).
      destruct (top_ops P g F _ p HS' Hg) as [Hm _].
      eapply (stack_ok_top P' g); [exact HS1|exact Hg|exact Hg|done|done| |done].
      unfold ops_match in *. rewrite Hm. symmetry. by apply op_of_kids_drop.
    + destruct Hfit as (_ & _ & Hf). by rewrite <-Hf.
  - intros q Hq Hl Ho _. unfold P' in Hq. rewrite length_drop_programs in Hq.
    assert (q < af_first f)%nat as Hqf.
    { destruct (decide (q < af_first f)%nat) as [|Hge]; [done|]. rewrite Hdead in Hl by lia. done. }
    assert (af_program f ≠ Some q) as Hne.
    { intros Hp. rewrite Hp, Hn in Hfit. destruct Hfit as (_ & _ & _ & Hg & _).
      apply Ho. exists g. split; [by left|done]. }
    apply finished_drop; [done|done| |].
    + intros c Hc. rewrite <-Hbf. by apply (Hcl q c).
    + apply HF; [done| | |apply not_awaited_None].
      * rewrite <-(proj1 (proj1 Hag q Hqf)). done.
      * rewrite is_open_cons. tauto.
Qed.

Lemma filter_lt_S (l : list nat) (h : nat → bool) id :
  StronglySorted lt l → id ∈ l → h id = true →
  List.filter (λ c, h c && (c <? S id)%nat) l = List.filter (λ c, h c && (c <? id)%nat) l ++ [id].
Proof.
  intros Hs Hin Hid. induction Hs as [|x l Hs IH Hall]; [by apply not_elem_of_nil in Hin|].
  rewrite Forall_forall in Hall. cbn [List.filter].
  destruct (decide (x = id)) as [->|Hne].
  - rewrite Hid, Nat.ltb_irrefl, (proj2 (Nat.ltb_lt id (S id))) by lia. cbn [andb].
    assert (∀ b, (b ≤ S id)%nat → List.filter (λ c, h c && (c <? b)%nat) l = []) as Hnil.
    { intros b Hb. clear -Hall Hb. induction l as [|y l IH]; [done|]. cbn [List.filter].
      assert (id < y)%nat by (apply Hall; by left).
      rewrite (proj2 (Nat.ltb_ge y b)), andb_false_r by lia. apply IH.
      intros z Hz. apply Hall. by right. }
    by rewrite !Hnil by lia.
  - apply elem_of_cons in Hin as [->|Hin]; [done|].
    specialize (Hall id Hin). rewrite (IH Hin).
    rewrite (proj2 (Nat.ltb_lt x id)), (proj2 (Nat.ltb_lt x (S id))) by lia.
    by destruct (h x).
Qed.

Lemma revert_nested_ok P f g F id o n :
  walk_ok (mkAState P (f :: g :: F) None) → af_nested f = true → af_program f = Some id →
  (af_first f ≤ length P)%nat → af_out g = o ++ [UNested n] →
  walk_ok (mkAState (drop_programs (af_first f) P) (set_af_out o g :: F) None).
Proof.
  intros (HP & HS & _ & HF) Hn Hid Hle Hout.
  set (P' := drop_programs (af_first f) P). set (g' := set_af_out o g).
  destruct (drop_programs_agree (af_first f) P) as (Hag & Hch & Hdead). fold P' in Hag, Hch, Hdead.
  apply stack_cons in HS as Hcons. destruct Hcons as ((Hfit & Hb & Hbg & Hcl) & HS').
  rewrite Hid, Hn in Hfit. destruct Hfit as (_ & Hlt & Hl & Hfirst & [q Hq] & Hpar).
  rewrite Hq in Hpar. apply parent_lt in Hpar as Hqid; [|done]. destruct Hqid as [Hqid Hin].
  assert (bound f = S id) as Hbf by (unfold bound; by rewrite Hn, Hfirst).
  assert (stack_ok P' (g' :: F) (length P)) as HS1.
  { assert (stack_ok P (g :: F) (bound f) → (bound g ≤ id)%nat → stack_ok P' (g' :: F) (length P))
      as Hgo; [|apply Hgo; [done|lia]].
    clear HS'. intros HS' Hbid. destruct (top_ops P g F _ q HS' Hq) as [Hm _].
    assert (ops_match P' (g' :: F) q (length P)) as Hm'.
    { unfold ops_match in *.
      assert (program_out (g :: F) q = program_out (g' :: F) q ++ [UNested n]) as Hsplit.
      { cbn [program_out]. change (af_program g') with (af_program g).
        rewrite Hq, !decide_True, Hout by done. by rewrite app_assoc. }
      rewrite Hsplit, nested_ops_app, Hbf in Hm.
      unfold P'. rewrite op_of_kids_drop, Hfirst by done.
      unfold kids in Hm. rewrite filter_lt_S in Hm; [|apply HP|done|done].
      rewrite fmap_app in Hm. cbn in Hm. by apply app_inj_2 in Hm as [Hm _]. }
    destruct F as [|h F].
    - apply stack_root in HS' as (Hp0 & Hn0 & Hf0 & _ & _). rewrite Hq in Hp0. injection Hp0 as ->.
      apply stack_root. split_and!; try done. lia.
    - apply stack_cons in HS' as ((Hfit & _ & Hbh & Hclg) & HS'). rewrite Hq in Hfit.
      destruct Hfit as (_ & _ & Hlq & Hfit).
      apply stack_cons. split.
      + unfold frame_fits. change (af_program g') with (af_program g). rewrite Hq.
        change (bound g') with (bound g). change (af_nested g') with (af_nested g).
        change (af_first g') with (af_first g).
        destruct (proj1 Hag q ltac:(lia)) as (Hlq' & _ & Hpq').
        split_and!; [done|lia|congruence| |lia|done|].
        * destruct (af_nested g); [|done]. by rewrite Hpq'.
        * intros r c Hr Hne Hc. rewrite Hch in Hc. by eapply Hclg.
      + change (bound g') with (bound g). apply (stack_ok_agree P); [| |done].
        * eapply agree_mono; [|exact Hag]. lia.
        * intros k _ Hc r c Hr Hne Hin'. rewrite Hch in Hin'. by eapply Hc. }
  split_and!; [apply drop_programs_ok; [done|lia]| |done|].
  - unfold P' at 2. by rewrite length_drop_programs.
  - intros r Hr Hlr Ho _. unfold P' in Hr. rewrite length_drop_programs in Hr.
    assert (r < af_first f)%nat as Hrf.
    { destruct (decide (r < af_first f)%nat) as [|Hge]; [done|]. rewrite Hdead in Hlr by lia. done. }
    rewrite is_open_cons in Ho. change (af_program g') with (af_program g) in Ho.
    apply finished_drop; [done|done| |].
    + intros c Hc. assert (c < bound f)%nat as Hcb.
      { apply (Hcl r c); [done| |done]. rewrite Hid. intros [=]. lia. }
      assert (c ≠ id); [|lia]. intros ->. apply HP in Hc as [_ Hc]. rewrite Hpar in Hc.
      injection Hc as ->. tauto.
    + apply HF; [done| | |apply not_awaited_None].
      * rewrite <-(proj1 (proj1 Hag r Hrf)). done.
      * rewrite !is_open_cons, Hid. intros [[= Heq]|Hrest]; [lia|tauto].
Qed.

Lemma astep_inv owns s s' : walk_inv s → astep owns s s' → walk_inv s'.
Proof.
  intros [Hs|[HF HX]] Hstep; [|].
  - destruct Hstep as [P F F' X HF|P f F u p Hp Hst Hn|P f F slot value p Hp
      |P f F q pq ctx index call Hq Hpq Hown|P f F|P f F|P F x|P F x Hn|P f g F Hn
      |P f g F id p Hn Hid Hp|P f F Hn Hle|P f g F id o n Hn Hid Hle Ho].
    + left. destruct Hs as (HP & HS & HX & HA).
      split_and!; [done|by apply (forgets_same F F' HF P (length P) 0)| |].
      * destruct (forgets_same F F' HF P (length P) 0) as (_ & _ & _ & Htop & Hhead).
        unfold pending_ok in *. by rewrite Htop, Hhead.
      * intros q Hq Hl Ho. apply HA; [done|done|].
        by rewrite <-(proj1 (proj2 (forgets_same F F' HF P (length P) q))).
    + left. by apply (emit_ok P f _ F None [u] p); [..|apply nested_ops_plain| | | |].
    + left. by apply (emit_ok P f _ F None [UStore (mkStore slot value)] p).
    + left. by apply nest_ok.
    + left. destruct Hs as (HP & HS & _ & HA). split_and!; [done|done|cbn; by right|].
      intros q Hq Hl Ho _. apply HA; [done..|apply not_awaited_None].
    + left. destruct Hs as (HP & HS & _ & HA). split_and!; [done|done|cbn; by left|].
      intros q Hq Hl Ho _. apply HA; [done..|apply not_awaited_None].
    + left. by apply open_ok.
    + left. destruct Hs as (HP & HS & _ & HA). split_and!; [done|done|done|].
      intros q Hq Hl Ho _. apply HA; [done..|]. intros (y & [= <-] & Hy & _). congruence.
    + left. by apply return_ok.
    + left. by eapply return_nested_ok.
    + destruct F as [|g F]; [by right|]. left. by apply revert_ok.
    + left. by eapply revert_nested_ok.
  - right. destruct Hstep; cbn in *; try done. subst. by apply Forall2_nil_inv_l in H as ->.
Qed.

(** ** What the frames believe they have emitted *)

(** The value a program last stores to a slot. *)
Definition last_store (us : list StateUpdate) (slot : Z) : option Z :=
  fold_left (λ acc u, match u with
    | UStore s => if store_slot s =? slot then Some (store_value s) else acc
    | _ => acc
    end) us None.

(** The emitted view holds only values the program last stored. *)
Definition view_ok (v : gmap Z Z) (us : list StateUpdate) : Prop :=
  ∀ slot value, v !! slot = Some value → last_store us slot = Some value.

Fixpoint views_ok (F : list AFrame) : Prop :=
  match F with
  | [] => True
  | f :: F' =>
      (∀ p, af_program f = Some p → view_ok (af_view f) (program_out F p)) ∧ views_ok F'
  end.

Definition pending_view_ok (F : list AFrame) (X : option APending) : Prop :=
  ∀ x p, X = Some x → an_program x = Some p → view_ok (an_view x) (program_out F p).

Definition walk_views (s : AState) : Prop :=
  views_ok (as_frames s) ∧ pending_view_ok (as_frames s) (as_pending s).

Lemma last_store_snoc us u slot :
  last_store (us ++ [u]) slot =
  match u with
  | UStore s => if store_slot s =? slot then Some (store_value s) else last_store us slot
  | _ => last_store us slot
  end.
Proof. unfold last_store. by rewrite fold_left_app. Qed.

Lemma last_store_plain us u slot :
  is_store u = false → last_store (us ++ [u]) slot = last_store us slot.
Proof. rewrite last_store_snoc. by destruct u. Qed.

Lemma program_out_cons f F p :
  af_program f = Some p → program_out (f :: F) p = program_out F p ++ af_out f.
Proof. intros Hp. cbn [program_out]. by rewrite Hp, decide_True. Qed.

Lemma views_ok_cons f F p :
  af_program f = Some p →
  views_ok (f :: F) ↔ view_ok (af_view f) (program_out F p ++ af_out f) ∧ views_ok F.
Proof.
  intros Hp. cbn [views_ok]. rewrite <-program_out_cons by done. split.
  - intros [Hv HF]. auto.
  - intros [Hv HF]. split; [|done]. intros q Hq. rewrite Hp in Hq. by injection Hq as <-.
Qed.

Lemma forgets_views F F' : Forall2 forgets F F' → views_ok F → views_ok F'.
Proof.
  induction 1 as [|f g F F' [Hg Hsub] HF IH]; [done|]. intros [Hv Hvs]. split; [|by apply IH].
  assert (Forall2 forgets (f :: F) (g :: F')) as Hfg by (constructor; [split|]; done).
  intros p Hp slot value Hs.
  rewrite (proj1 (forgets_same _ _ Hfg [] 0 p)).
  apply (Hv p); [by rewrite Hg in Hp|]. by apply (lookup_weaken (af_view g)).
Qed.

Lemma astep_views owns s s' :
  walk_inv s → walk_views s → astep owns s s' → walk_views s'.
Proof.
  intros Hinv [Hv Hx] Hstep.
  destruct Hstep as [P F F' X HF|P f F u p Hp Hst Hn|P f F slot value p Hp
    |P f F q pq ctx index call Hq Hpq|P f F|P f F|P F x|P F x Hn|P f g F Hn
    |P f g F id p Hn Hid Hp|P f F Hn Hle|P f g F id o n Hn Hid Hle Ho];
    split; cbn [as_frames as_pending] in *; try (by intros ? ? [=]).
  - by eapply forgets_views.
  - intros x p HX Hp. rewrite (proj1 (forgets_same F F' HF P 0 p)). by apply Hx.
  - rewrite views_ok_cons in Hv |- * by done. destruct Hv as [Hv Hvs]. split; [|done].
    intros slot value Hs. cbn. rewrite app_assoc, last_store_plain by done. by apply Hv.
  - rewrite views_ok_cons in Hv |- * by done. destruct Hv as [Hv Hvs]. split; [|done].
    intros sl v Hs. cbn in Hs |- *. rewrite app_assoc, last_store_snoc. cbn.
    destruct (Z.eqb_spec slot sl) as [->|Hne].
    + by rewrite lookup_insert_eq in Hs.
    + rewrite lookup_insert_ne in Hs by done. by apply Hv.
  - rewrite views_ok_cons in Hv |- * by done. destruct Hv as [Hv Hvs]. split; [|done].
    intros slot value Hs. cbn. rewrite app_assoc, last_store_plain by done. by apply Hv.
  - intros x r [= <-] _ sl v Hs. cbn in Hs. by rewrite lookup_empty in Hs.
  - done.
  - intros x p [= <-] Hp. cbn [an_program an_view] in *. rewrite bool_decide_true by by eexists.
    by apply Hv.
  - done.
  - by intros x p [= <-] [=].
  - cbn [views_ok]. split; [|done]. cbn [af_program af_view]. intros p Hp.
    rewrite program_out_open by done. by apply (Hx x).
  - done.
  - destruct Hinv as [(HP & HS & _)|[? _]]; [|done].
    apply stack_cons in HS as ((Hfit & _) & HS). cbv zeta. destruct Hv as (Hvf & Hvg & HvF).
    destruct (af_program f) as [p|] eqn:Hp; cbn [is_Some bool_decide].
    + rewrite Hn in Hfit. destruct Hfit as (_ & _ & _ & Hg & _).
      rewrite bool_decide_true by by eexists.
      rewrite views_ok_cons by done. split; [|done]. cbn [af_view af_out set_af_view set_af_out].
      specialize (Hvf p eq_refl). rewrite program_out_cons, program_out_cons in Hvf by done.
      by rewrite app_assoc.
    + destruct Hfit as (_ & Hout & _). rewrite bool_decide_false by by intros [].
      rewrite Hout, app_nil_r. split; [|done]. intros q Hq.
      rewrite (program_out_same F q g) by done. by apply Hvg.
  - by destruct Hv as [_ Hv].
  - by destruct Hv as [_ Hv].
  - destruct Hv as (_ & Hvg & HvF). split; [|done]. intros q Hq.
    change (af_program (set_af_out o g)) with (af_program g) in Hq.
    rewrite program_out_cons by done. specialize (Hvg q Hq).
    rewrite program_out_cons, Ho in Hvg by done. intros slot value Hs.
    specialize (Hvg slot value Hs). rewrite app_assoc, last_store_plain in Hvg by done. done.
Qed.

(** ** The invariants hold of every walk *)

Lemma initial_inv root root_index :
  walk_inv (abs_split (initial_split_state root root_index)) ∧
  walk_views (abs_split (initial_split_state root root_index)).
Proof.
  split; [left|split].
  - split_and!.
    + split_and!; [by eexists| | |].
      * intros [|c] p Hc Hpos; [lia|discriminate Hc].
      * intros [|q]; constructor.
      * intros [|q] c Hc; by apply not_elem_of_nil in Hc.
    + apply stack_root. split_and!; try done. cbn. lia.
    + done.
    + intros [|q] Hq Hl Ho _; [|cbn in Hq; lia]. exfalso. apply Ho. eexists. split; [by left|done].
  - apply views_ok_cons with (p := 0%nat); [done|]. split; [|done].
    intros slot v Hs. cbn in Hs. by rewrite lookup_empty in Hs.
  - by intros x p [=].
Qed.

Lemma asteps_inv owns s s' :
  walk_inv s → walk_views s → asteps owns s s' → walk_inv s' ∧ walk_views s'.
Proof.
  intros Hi Hv Hsteps. induction Hsteps as [s|s s1 s2 Hstep Hsteps IH]; [done|].
  apply IH; [by eapply astep_inv|by eapply astep_views].
Qed.

Lemma walk_reaches_inv `{Externals} e cands logs root root_index s :
  foldM (split_step e cands) logs (initial_split_state root root_index) = Ok s →
  walk_inv (abs_split s) ∧ walk_views (abs_split s).
Proof.
  intros Hfold. destruct (initial_inv root root_index) as [Hi Hv].
  eapply (asteps_inv (nests e)); [exact Hi|exact Hv|by eapply split_walk_asteps].
Qed.
