(* ===== verification/TreeSpec.v ===== *)
(** * The frame tree a split produces

    From the invariants of the walk ([WalkInv]) through dropping, pruning and compaction: the tree
    [split_frame_tree] returns always has the shape [encode_frame_tree] needs, and its root program
    ends by storing the whole canonical image of the root contract. First, what a state slice stores. *)

From S2P Require Import Prelude.
From S2P Require Import Types.
From S2P Require Import Instances.
From S2P Require Import Trace.
From S2P Require Import SimProfile.
From S2P Require Import Scan.
From S2P Require Import FrameTree.
From S2P Require Import Prune.
From S2P Require Import EncodeTree.
From S2P Require Import WalkSpec.
From S2P Require Import WalkInv.

(** ** What flushing a slice emits

    Exactly the slots of the visible image whose value the frame has not already emitted, in ascending order,
    once. *)

(** The item's value is not what the frame believes is stored. *)
Definition stale (view : gmap Z Z) (kv : Z * Z) : bool :=
  negb (bool_decide (view !! kv.1 = Some kv.2)).
Definition store_of (kv : Z * Z) : StateUpdate := UStore (mkStore kv.1 kv.2).

Definition slice (image view : gmap Z Z) : list StateUpdate :=
  store_of <$> List.filter (stale view) (map_items image).

Lemma stale_insert view k v items :
  k ∉ items.*1 → List.filter (stale (<[k := v]> view)) items = List.filter (stale view) items.
Proof.
  intros Hk. apply filter_ext_in. intros [k' v'] Hin. unfold stale. cbn.
  rewrite lookup_insert_ne; [done|]. intros <-. apply Hk, list_elem_of_fmap. by exists (k, v').
Qed.

Lemma flush_fold_spec items out view :
  NoDup items.*1 →
  fold_left flush_slot items (out, view) =
  (out ++ (store_of <$> List.filter (stale view) items), list_to_map items ∪ view).
Proof.
  revert out view. induction items as [|[k v] items IH]; intros out view Hnd.
  { cbn. by rewrite app_nil_r, (left_id_L ∅ (∪)). }
  cbn [fmap list_fmap fst] in Hnd. apply NoDup_cons in Hnd as [Hk Hnd].
  assert (Hnone : (list_to_map items : gmap Z Z) !! k = None) by by apply not_elem_of_list_to_map_1.
  cbn [fold_left flush_slot List.filter]. unfold stale at 1. cbn [fst snd].
  rewrite list_to_map_cons, <-insert_union_l. case_bool_decide as Hv; cbn [negb].
  - rewrite IH by done. f_equal. symmetry. apply insert_id.
    by rewrite lookup_union_r.
  - rewrite IH by done. rewrite stale_insert by done. cbn [fmap list_fmap].
    rewrite <-app_assoc. f_equal. by rewrite insert_union_r.
Qed.

Lemma flush_items_spec image out view :
  fold_left flush_slot (map_items image) (out, view) =
  (out ++ slice image view, image ∪ view).
Proof. rewrite flush_fold_spec by apply NoDup_map_items_keys. by rewrite list_to_map_map_items. Qed.

(** Nothing is stale in a view that has the image. *)
Lemma slice_flushed image view : slice image (image ∪ view) = [].
Proof.
  unfold slice. rewrite (filter_ext_in _ (λ _, false)).
  - by induction (map_items image).
  - intros [k v] Hin%elem_of_map_items. unfold stale. cbn.
    by rewrite bool_decide_true by by apply lookup_union_Some_l.
Qed.

Lemma visible_image_same cur rest target out view :
  visible_image (set_wf_emitted_view view (set_wf_out out cur) :: rest) target =
  visible_image (cur :: rest) target.
Proof. done. Qed.

Lemma flush_slice_eq cur rest programs id p :
  wf_program cur = Some id → programs !! id = Some p →
  let image := visible_image (cur :: rest) (ps_target p) in
  flush_slice (cur :: rest) programs =
  Ok (set_wf_emitted_view (image ∪ wf_emitted_view cur)
        (set_wf_out (wf_out cur ++ slice image (wf_emitted_view cur)) cur) :: rest).
Proof.
  intros Hid Hp. cbv zeta. unfold flush_slice, program_at. cbn [top_frame mbind res_bind].
  rewrite Hid. cbn [expect mbind res_bind]. rewrite Hp. cbn [expect mbind res_bind].
  by rewrite flush_items_spec.
Qed.

(** What is emitted brings the stores in line with the view. *)
Lemma slice_view_ok image view out :
  view_ok view out → view_ok (image ∪ view) (out ++ slice image view).
Proof.
  intros Hv. pose proof (flush_items_spec image out view) as Hspec.
  enough (view_ok (fold_left flush_slot (map_items image) (out, view)).2
    (fold_left flush_slot (map_items image) (out, view)).1) as Hall by by rewrite Hspec in Hall.
  clear Hspec. revert out view Hv.
  induction (map_items image) as [|[k v] items IH]; intros out view Hv; [done|].
  cbn [fold_left flush_slot]. case_bool_decide; [by apply IH|]. apply IH.
  intros slot value Hs. rewrite last_store_snoc. cbn. destruct (Z.eqb_spec k slot) as [->|Hne].
  - by rewrite lookup_insert_eq in Hs.
  - rewrite lookup_insert_ne in Hs by done. by apply Hv.
Qed.

Lemma nested_ops_slice image view : nested_ops (slice image view) = [].
Proof. unfold slice. by induction (List.filter _ _). Qed.

(** [flush_slice] emits, in ascending slot order, one [STORE] per slot of the image the open frames
    see for the program's target whose value the frame has not already emitted, remembers the whole
    image, changes no other frame, and flushing again emits nothing. *)
Theorem flush_slice_exact cur rest programs id p :
  wf_program cur = Some id → programs !! id = Some p →
  let image := visible_image (cur :: rest) (ps_target p) in
  let emitted := slice image (wf_emitted_view cur) in
  ∃ cur',
    flush_slice (cur :: rest) programs = Ok (cur' :: rest) ∧
    cur' = set_wf_emitted_view (image ∪ wf_emitted_view cur)
             (set_wf_out (wf_out cur ++ emitted) cur) ∧
    (∀ u, u ∈ emitted ↔ ∃ k v, u = UStore (mkStore k v) ∧ image !! k = Some v ∧
       wf_emitted_view cur !! k ≠ Some v) ∧
    StronglySorted Z.lt
      (omap (λ u, match u with UStore s => Some (store_slot s) | _ => None end) emitted) ∧
    flush_slice (cur' :: rest) programs = Ok (cur' :: rest).
Proof.
  intros Hid Hp. cbv zeta. set (image := visible_image _ _). eexists.
  split; [by apply (flush_slice_eq cur rest programs id p)|]. fold image.
  split; [done|]. split_and!.
  - intros u. unfold slice. rewrite list_elem_of_fmap. split.
    + intros ([k v] & -> & [Hin Hs]%list_elem_of_In%filter_In). exists k, v. split; [done|].
      apply list_elem_of_In, elem_of_map_items in Hin. split; [done|].
      unfold stale in Hs. cbn in Hs. by apply negb_true_iff, bool_decide_eq_false in Hs.
    + intros (k & v & -> & Hk & Hv). exists (k, v). split; [done|].
      apply list_elem_of_In, filter_In. split; [by apply list_elem_of_In, elem_of_map_items|].
      unfold stale. cbn. by rewrite bool_decide_false.
  - pose proof (map_items_sorted image) as Hs. unfold slice.
    induction (map_items image) as [|[k v] items IH]; cbn; [constructor|].
    cbn in Hs. apply StronglySorted_inv in Hs as [Hs Hall].
    destruct (stale (wf_emitted_view cur) (k, v)); [|by apply IH]. cbn.
    constructor; [by apply IH|]. apply Forall_forall. intros z Hz.
    apply list_elem_of_omap in Hz as (u & Hu & Hz).
    apply list_elem_of_fmap in Hu as ([k' v'] & -> & [Hin _]%list_elem_of_In%filter_In).
    cbn in Hz. injection Hz as <-. rewrite Forall_forall in Hall. apply Hall.
    apply list_elem_of_fmap. exists (k', v'). split; [done|]. by apply list_elem_of_In.
  - set (cur' := set_wf_emitted_view _ _).
    rewrite (flush_slice_eq cur' rest programs id p) by done.
    change (visible_image (cur' :: rest) (ps_target p)) with image.
    change (wf_emitted_view cur') with (image ∪ wf_emitted_view cur).
    rewrite slice_flushed, app_nil_r, (assoc_L (∪)), (idemp_L (∪)). done.
Qed.

Definition sample_frame : WalkFrame :=
  set_wf_journal {[10 := {[1 := 5; 2 := 6]}]} (set_wf_emitted_view {[1 := 5]} (root_frame 10)).

Lemma flush_slice_exact_witness :
  ∃ cur', flush_slice [sample_frame] [root_program 10 None] = Ok [cur'] ∧
    wf_out cur' = [UStore (mkStore 2 6)].
Proof.
  destruct (flush_slice_exact sample_frame [] [root_program 10 None] 0 (root_program 10 None)
    eq_refl eq_refl) as (cur' & Hok & Hcur & _).
  exists cur'. split; [exact Hok|]. rewrite Hcur. vm_compute. reflexivity.
Defined.

(** ** The programs after the walk *)

(** Parents and children fit together, and every returned live program's [NESTED] ops are those of
    its live children. *)
Definition tree_links (A : list AProgram) : Prop :=
  (∃ p, A !! 0%nat = Some p ∧ ap_parent p = None ∧ ap_dropped p = false) ∧
  (∀ c p, A !! c = Some p → (0 < c)%nat →
    is_Some (ap_fallback p) ∧ is_Some (ap_index p) ∧ ∃ q, ap_parent p = Some q ∧ (q < c)%nat) ∧
  (∀ q, StronglySorted lt (children_of A q)) ∧
  (∀ q c, c ∈ children_of A q → (q < c < length A)%nat ∧ parent_of A c = Some q).

Definition ops_of_live (A : list AProgram) : Prop :=
  ∀ q p us, A !! q = Some p → ap_dropped p = false → ap_updates p = Some us →
    nested_ops us = op_of A <$> List.filter (live A) (children_of A q).

(** Every program's parent lists it. *)
Definition listed (A : list AProgram) : Prop :=
  ∀ c q, parent_of A c = Some q → c ∈ children_of A q.

(** Live programs are listed by a live parent, and have live children only. *)
Definition live_closed (A : list AProgram) : Prop :=
  (∀ c q, live A c = true → parent_of A c = Some q → live A q = true ∧ c ∈ children_of A q) ∧
  (∀ q c, live A q = true → c ∈ children_of A q → live A c = true).

Lemma kids_all A q :
  tree_links A → kids A q (length A) = List.filter (live A) (children_of A q).
Proof.
  intros (_ & _ & _ & Hch). unfold kids. apply filter_ext_in. intros c Hc.
  destruct (Hch q c Hc) as [Hlt _]. rewrite (proj2 (Nat.ltb_lt c (length A))) by lia.
  by rewrite andb_true_r.
Qed.

Lemma programs_ok_links A : programs_ok A → tree_links A.
Proof.
  intros ((p0 & H0 & Hn & Hd) & Hpars & Hsort & Hch). split_and!; [by exists p0| |done|done].
  intros c p Hc Hpos. destruct (Hpars c p Hc Hpos) as (? & ? & q & ? & ? & _). eauto.
Qed.

Lemma programs_ok_listed A : programs_ok A → listed A.
Proof.
  intros ((p0 & H0 & Hn & _) & Hpars & _) c q Hq. unfold parent_of in Hq.
  destruct (A !! c) as [p|] eqn:Hp; [|done]. cbn in Hq.
  destruct (decide (c = 0%nat)) as [->|Hc]; [congruence|].
  destruct (Hpars c p Hp ltac:(lia)) as (_ & _ & r & Hr & _ & Hin). congruence.
Qed.

(** The walk's end: one frame left, and its output becomes the root's program. *)
Definition end_programs (A : list AProgram) (us : list StateUpdate) : list AProgram :=
  match A with p :: A => set_ap_updates (Some us) p :: A | [] => [] end.

Lemma end_programs_same A us c :
  live (end_programs A us) c = live A c ∧ op_of (end_programs A us) c = op_of A c ∧
  parent_of (end_programs A us) c = parent_of A c ∧
  children_of (end_programs A us) c = children_of A c.
Proof. destruct A, c; done. Qed.

Lemma end_programs_links A us : tree_links A → tree_links (end_programs A us).
Proof.
  intros ((p0 & H0 & Hn & Hd) & Hpars & Hsort & Hch). destruct A as [|p A]; [done|].
  injection H0 as ->. split_and!.
  - by eexists.
  - intros [|c] q Hc Hpos; [lia|]. by apply (Hpars (S c) q).
  - intros q. destruct (end_programs_same (p0 :: A) us q) as (_ & _ & _ & ->). apply Hsort.
  - intros q c. destruct (end_programs_same (p0 :: A) us q) as (_ & _ & _ & ->).
    destruct (end_programs_same (p0 :: A) us c) as (_ & _ & -> & _). apply Hch.
Qed.

Lemma end_programs_listed A us : listed A → listed (end_programs A us).
Proof.
  intros Hl c q. destruct (end_programs_same A us q) as (_ & _ & _ & ->).
  destruct (end_programs_same A us c) as (_ & _ & -> & _). apply Hl.
Qed.

(** What the stack's last frame and the invariant say when the walk ends. *)
Lemma walk_end A f X us :
  walk_ok (mkAState A [f] X) → nested_ops us = nested_ops (af_out f) →
  ops_of_live (end_programs A us).
Proof.
  intros (HP & HS & HX & HF) Hus q p vs Hq Hd Hvs.
  pose proof (programs_ok_links A HP) as Hlinks.
  apply stack_root in HS as (Hp0 & _ & _ & Hlen & Hm).
  assert (∀ q, op_of (end_programs A us) <$> List.filter (live (end_programs A us))
      (children_of (end_programs A us) q) = op_of A <$> kids A q (length A)) as Hsame.
  { intros r. rewrite kids_all by done.
    destruct (end_programs_same A us r) as (_ & _ & _ & ->).
    rewrite (filter_ext_in (live (end_programs A us)) (live A))
      by (intros c _; by destruct (end_programs_same A us c) as (-> & _)).
    apply list_fmap_ext. intros i c _. by destruct (end_programs_same A us c) as (_ & -> & _). }
  rewrite Hsame. destruct A as [|p0 A]; [done|]. destruct q as [|q].
  - cbn in Hq. injection Hq as <-. cbn in Hvs. injection Hvs as <-. rewrite Hus.
    unfold ops_match in Hm. rewrite <-Hm. cbn [program_out]. by rewrite decide_True.
  - cbn in Hq. assert ((p0 :: A) !! S q = Some p) as Hq' by done.
    destruct (HF (S q)) as (p' & us' & Hp' & Hus' & Hops).
    + by eapply lookup_lt_Some.
    + unfold live. by rewrite Hq', Hd.
    + intros (h & Hh & Hhq). apply list_elem_of_singleton in Hh as ->. congruence.
    + intros (x & -> & Hn & Hx). cbn in HX. rewrite Hn in HX.
      destruct HX as (id & r & Hid & _ & _ & _ & _ & Hnone & _).
      assert (id = S q) as -> by congruence. rewrite Hq' in Hnone. cbn in Hnone. congruence.
    + assert (p' = p) as -> by congruence. assert (us' = vs) as -> by congruence. done.
Qed.

(** ** Dropping *)

Definition parent_dead (P : list ProgramState) (p : ProgramState) : bool :=
  match ps_parent p with
  | Some q => match P !! q with Some r => ps_dropped r | None => false end
  | None => false
  end.

Definition parents_before (P : list ProgramState) : Prop :=
  ∀ c p q, P !! c = Some p → ps_parent p = Some q → (q < c)%nat.

Lemma drop_if_orphan_eq P id P' :
  drop_if_orphan P id = Ok P' →
  ∃ p, P !! id = Some p ∧ P' = if parent_dead P p then <[id := set_ps_dropped true p]> P else P.
Proof.
  unfold drop_if_orphan, program_at, parent_dropped, parent_dead.
  destruct (P !! id) as [p|] eqn:Hp; [|done]. cbn [expect mbind res_bind]. intros Hok.
  exists p. split; [done|]. destruct (ps_parent p) as [q|].
  - unfold program_at in Hok. destruct (P !! q); [|done]. cbn in Hok. by inv_res.
  - cbn in Hok. by inv_res.
Qed.

(** What one pass of [drop_range] from [first] leaves, up to the index [last]. *)
Definition dropped_upto (first last : nat) (P P' : list ProgramState) : Prop :=
  length P' = length P ∧
  ∀ c p, P !! c = Some p → ∃ p', P' !! c = Some p' ∧
    (p' = p ∨ p' = set_ps_dropped true p) ∧
    ((c < first ∨ last ≤ c)%nat → p' = p) ∧
    ((first ≤ c < last)%nat → ps_dropped p' = ps_dropped p || parent_dead P' p).

(** A program's parent is not touched by the later rounds. *)
Lemma parent_dead_insert P id r p :
  (∀ q, ps_parent p = Some q → q ≠ id) → parent_dead (<[id := r]> P) p = parent_dead P p.
Proof.
  intros Hne. unfold parent_dead. destruct (ps_parent p) as [q|]; [|done].
  rewrite list_lookup_insert_ne; [done|]. specialize (Hne q eq_refl). congruence.
Qed.

Lemma drop_range_loop P first n P' :
  parents_before P → foldM drop_if_orphan (seq first n) P = Ok P' →
  dropped_upto first (first + n) P P'.
Proof.
  intros Hpar. revert P'. induction n as [|n IH]; intros P' Hf.
  { cbn in Hf. inv_res. split; [done|]. intros c p Hc. exists p. split_and!; auto. lia. }
  rewrite seq_S, foldM_app in Hf.
  destruct (foldM drop_if_orphan (seq first n) P) as [P1| |] eqn:Hf1; [|done..].
  cbn [mbind res_bind foldM] in Hf.
  destruct (drop_if_orphan P1 (first + n)) as [P2| |] eqn:Hstep; [|done..].
  cbn [mbind res_bind] in Hf. inv_res.
  destruct (IH P1 eq_refl) as [Hlen Hall].
  apply drop_if_orphan_eq in Hstep as (p1 & Hp1 & HP').
  assert (Hl' : length P' = length P1) by (rewrite HP'; destruct (parent_dead P1 p1);
    [apply length_insert|done]).
  split; [lia|]. intros c p Hc.
  assert (Hdead : ∀ p', ps_parent p' = ps_parent p → (c ≤ first + n)%nat →
    parent_dead P' p' = parent_dead P1 p').
  { intros p' Hpp Hcle. rewrite HP'. destruct (parent_dead P1 p1); [|done].
    apply parent_dead_insert. intros q Hq. rewrite Hpp in Hq. pose proof (Hpar c p q Hc Hq). lia. }
  destruct (Hall c p Hc) as (p' & Hp' & Hcase & Hout & Hin).
  destruct (decide (c = (first + n)%nat)) as [->|Hne].
  - assert (p1 = p') as -> by congruence. rewrite (Hout ltac:(lia)) in *.
    exists (if parent_dead P1 p then set_ps_dropped true p else p). split_and!.
    + rewrite HP'. destruct (parent_dead P1 p); [|done].
      rewrite list_lookup_insert_eq; [done|]. by eapply lookup_lt_Some.
    + destruct (parent_dead P1 p); auto.
    + lia.
    + intros _. rewrite (Hdead p eq_refl (le_n _)). destruct (parent_dead P1 p); cbn.
      * by rewrite orb_true_r.
      * by rewrite orb_false_r.
  - exists p'. split_and!.
    + rewrite HP'. destruct (parent_dead P1 p1); [|done]. by rewrite list_lookup_insert_ne.
    + done.
    + intros Hc'. apply Hout. lia.
    + intros Hc'. rewrite (Hdead p eq_refl ltac:(lia)). apply Hin. lia.
Qed.

Lemma drop_range_spec P first P' :
  parents_before P → drop_range P first = Ok P' →
  length P' = length P ∧
  ∀ c p, P !! c = Some p → ∃ p', P' !! c = Some p' ∧ (p' = p ∨ p' = set_ps_dropped true p) ∧
    ((c < first)%nat → p' = p) ∧
    ((first ≤ c)%nat → ps_dropped p' = ps_dropped p || parent_dead P' p).
Proof.
  intros Hpar Hd. apply drop_range_loop in Hd as [Hlen Hall]; [|done]. split; [done|].
  intros c p Hc. destruct (Hall c p Hc) as (p' & ? & ? & Hout & Hin).
  pose proof (lookup_lt_Some _ _ _ Hc). exists p'. split_and!; [done|done| |].
  - intros Hlt. apply Hout. lia.
  - intros Hge. apply Hin. lia.
Qed.

(** The same in terms of the abstraction: fields but [dropped] unchanged; a program at or after
    [first] is live iff it was and its parent is. *)
Definition abs_programs (P : list ProgramState) : list AProgram := abs_program <$> P.

Definition drops (first : nat) (A A' : list AProgram) : Prop :=
  length A' = length A ∧
  (∀ c, op_of A' c = op_of A c ∧ parent_of A' c = parent_of A c ∧
    children_of A' c = children_of A c) ∧
  (∀ c p', A' !! c = Some p' → ∃ p, A !! c = Some p ∧ (p' = p ∨ p' = drop_ap p)) ∧
  (∀ c, (c < first)%nat → live A' c = live A c) ∧
  (∀ c, (first ≤ c < length A)%nat →
    live A' c = live A c && match parent_of A c with Some q => live A' q | None => true end).

Lemma abs_lookup P c : abs_programs P !! c = abs_program <$> P !! c.
Proof. apply list_lookup_fmap. Qed.

Lemma links_parents_before P : tree_links (abs_programs P) → parents_before P.
Proof.
  intros ((p0 & H0 & Hn & _) & Hpars & _) c p q Hc Hq.
  assert (abs_programs P !! c = Some (abs_program p)) as Ha by (by rewrite abs_lookup, Hc).
  destruct (decide (c = 0%nat)) as [->|Hne].
  - rewrite Ha in H0. injection H0 as <-. cbn in Hn. congruence.
  - destruct (Hpars c _ Ha ltac:(lia)) as (_ & _ & r & Hr & Hlt). cbn in Hr. congruence.
Qed.

Lemma drop_range_drops P first P' :
  tree_links (abs_programs P) → drop_range P first = Ok P' →
  drops first (abs_programs P) (abs_programs P').
Proof.
  intros Hlinks Hd. pose proof (links_parents_before P Hlinks) as Hpar.
  apply drop_range_spec in Hd as [Hlen Hall]; [|done].
  assert (Hnone : ∀ c, P !! c = None → P' !! c = None).
  { intros c Hc. apply lookup_ge_None in Hc. apply lookup_ge_None. lia. }
  split_and!.
  - unfold abs_programs. by rewrite !length_fmap.
  - intros c. unfold op_of, parent_of, children_of. rewrite !abs_lookup.
    destruct (P !! c) as [p|] eqn:Hc; [|by rewrite (Hnone c Hc)].
    destruct (Hall c p Hc) as (p' & -> & [->| ->] & _); done.
  - intros c p' Hc. rewrite abs_lookup in Hc. destruct (P' !! c) as [r|] eqn:Hr; [|done].
    injection Hc as <-. destruct (P !! c) as [p|] eqn:Hp; [|by rewrite (Hnone c Hp) in Hr].
    destruct (Hall c p Hp) as (p' & Hp' & Hcase & _). assert (p' = r) as -> by congruence.
    exists (abs_program p). rewrite abs_lookup, Hp. split; [done|].
    destruct Hcase as [->| ->]; [by left|by right].
  - intros c Hc. unfold live. rewrite !abs_lookup.
    destruct (P !! c) as [p|] eqn:Hp; [|by rewrite (Hnone c Hp)].
    destruct (Hall c p Hp) as (p' & -> & _ & Hout & _). by rewrite (Hout Hc).
  - intros c [Hge Hlt]. unfold abs_programs in Hlt. rewrite length_fmap in Hlt.
    destruct (lookup_lt_is_Some_2 P c Hlt) as [p Hp].
    destruct (Hall c p Hp) as (p' & Hp' & _ & _ & Hin). specialize (Hin Hge).
    unfold live at 1 2. unfold parent_of. rewrite !abs_lookup, Hp, Hp'. cbn. rewrite Hin.
    rewrite negb_orb. f_equal. unfold parent_dead.
    destruct (ps_parent p) as [q|] eqn:Hq; [|done]. unfold live. rewrite abs_lookup.
    pose proof (Hpar c p q Hp Hq). destruct (lookup_lt_is_Some_2 P' q) as [r Hr]; [lia|].
    by rewrite Hr.
Qed.

Lemma drops_links first A A' :
  drops first A A' → (0 < first)%nat → tree_links A → tree_links A'.
Proof.
  intros (Hlen & Hsame & Hfrom & Hlow & _) Hf ((p0 & H0 & Hn & Hd) & Hpars & Hsort & Hch).
  assert (Hpos : (0 < length A)%nat) by by eapply lookup_lt_Some.
  destruct (lookup_lt_is_Some_2 A' 0) as [r Hr]; [lia|].
  split_and!.
  - exists r. split; [done|]. destruct (Hfrom 0%nat r Hr) as (p & Hp & Hcase).
    assert (p = p0) as -> by congruence. split; [by destruct Hcase as [->| ->]|].
    pose proof (Hlow 0%nat Hf) as Hl. unfold live in Hl. rewrite Hr, H0, Hd in Hl.
    by destruct (ap_dropped r).
  - intros c p Hc Hc0. destruct (Hfrom c p Hc) as (p1 & Hp1 & Hcase).
    destruct (Hpars c p1 Hp1 Hc0) as (? & ? & ?). by destruct Hcase as [->| ->].
  - intros q. by rewrite (proj2 (proj2 (Hsame q))).
  - intros q c Hc. rewrite (proj2 (proj2 (Hsame q))) in Hc. rewrite Hlen.
    rewrite (proj1 (proj2 (Hsame c))). by apply Hch.
Qed.

(** Dropping everything inside dropped programs. *)
Lemma drop_all_closed A A' :
  drops 1 A A' → tree_links A → ops_of_live A → ops_of_live A' ∧
  (∀ c q, live A' c = true → parent_of A' c = Some q → live A' q = true) ∧
  (∀ q c, live A' q = true → c ∈ children_of A' q → live A' c = live A c).
Proof.
  intros (Hlen & Hsame & Hfrom & Hlow & Hhigh) Hlinks Hops.
  destruct Hlinks as ((p0 & H0 & Hn0 & Hd0) & Hpars & Hsort & Hch).
  assert (Hpar : ∀ c q, live A' c = true → parent_of A' c = Some q → live A' q = true).
  { intros c q Hc Hq. pose proof (live_lt _ _ Hc) as Hlt. rewrite Hlen in Hlt.
    rewrite (proj1 (proj2 (Hsame c))) in Hq. destruct (decide (c = 0%nat)) as [->|Hne].
    - unfold parent_of in Hq. rewrite H0 in Hq. cbn in Hq. congruence.
    - rewrite (Hhigh c ltac:(lia)), Hq in Hc. by apply andb_true_iff in Hc as [_ Hc]. }
  assert (Hkid : ∀ q c, live A' q = true → c ∈ children_of A' q → live A' c = live A c).
  { intros q c Hq Hc. rewrite (proj2 (proj2 (Hsame q))) in Hc. destruct (Hch q c Hc) as [Hlt Hp].
    rewrite (Hhigh c ltac:(lia)), Hp, Hq. by rewrite andb_true_r. }
  split_and!; [|done|done].
  intros q p' us Hp' Hd Hus. destruct (Hfrom q p' Hp') as (p & Hp & Hcase).
  assert (live A' q = true) as Hlq by (unfold live; by rewrite Hp', Hd).
  assert (p' = p) as -> by (destruct Hcase as [|Hdr]; [done|by rewrite Hdr in Hd]).
  rewrite (Hops q p us Hp Hd Hus).
  rewrite (filter_ext_in (live A') (live A)) by (intros c Hc; by eapply Hkid).
  rewrite (proj2 (proj2 (Hsame q))). apply list_fmap_ext. intros i c _.
  by rewrite (proj1 (Hsame c)).
Qed.

(** ** Retaining and pruning *)

(** The shape kept from [retain_children] to the end: dropped programs are nobody's live children,
    and the [NESTED] ops of a live program are those of its children, one for one. *)
Definition ops_of_children (A : list AProgram) : Prop :=
  ∀ q p us, A !! q = Some p → ap_dropped p = false → ap_updates p = Some us →
    nested_ops us = op_of A <$> children_of A q.

Definition tree_shape (A : list AProgram) : Prop :=
  tree_links A ∧ live_closed A ∧ ops_of_children A.

Lemma kept_children_eq P cs ks :
  kept_children P cs = Ok ks → ks = List.filter (live (abs_programs P)) cs.
Proof.
  unfold kept_children. enough (∀ acc, foldM (λ acc c, q ← program_at P c;
    Ok (if ps_dropped q then acc else acc ++ [c])) cs acc = Ok ks →
    ks = acc ++ List.filter (live (abs_programs P)) cs) as Hall by apply (Hall []).
  induction cs as [|c cs IH]; intros acc Hk; cbn in Hk; [inv_res; by rewrite app_nil_r|].
  unfold program_at in Hk. destruct (P !! c) as [p|] eqn:Hp; [|done].
  cbn [expect mbind res_bind] in Hk. rewrite (IH _ Hk). cbn [List.filter].
  unfold live at 2. rewrite abs_lookup, Hp. cbn. destruct (ps_dropped p); cbn; [done|].
  by rewrite <-app_assoc.
Qed.

Lemma retain_children_lookup P P' :
  retain_children P = Ok P' →
  length P' = length P ∧ ∀ c, P' !! c =
    (λ p, set_ps_children (List.filter (live (abs_programs P)) (ps_children p)) p) <$> P !! c.
Proof.
  intros Hr. apply mapM_Ok_Forall2 in Hr.
  assert (Forall2 (λ p p', p' =
    set_ps_children (List.filter (live (abs_programs P)) (ps_children p)) p) P P') as Hf.
  { eapply Forall2_impl; [exact Hr|]. intros p p' Hp. cbn in Hp.
    destruct (kept_children P (ps_children p)) as [ks| |] eqn:Hk; [|done..].
    cbn in Hp. inv_res. by rewrite (kept_children_eq _ _ _ Hk). }
  split; [by rewrite (Forall2_length _ _ _ Hf)|]. intros c.
  destruct (P !! c) as [p|] eqn:Hp.
  - destruct (Forall2_lookup_l _ _ _ _ _ Hf Hp) as (p' & -> & ->). done.
  - apply lookup_ge_None in Hp. apply lookup_ge_None. by rewrite <-(Forall2_length _ _ _ Hf).
Qed.

Lemma filter_incl_elem {A} (f : A → bool) l x : x ∈ List.filter f l → x ∈ l ∧ f x = true.
Proof. rewrite list_elem_of_In, filter_In, <-list_elem_of_In. done. Qed.

Lemma sorted_filter_lt (f : nat → bool) l : StronglySorted lt l → StronglySorted lt (List.filter f l).
Proof.
  induction 1 as [|x l Hs IH Hall]; cbn; [constructor|]. destruct (f x); [|done].
  constructor; [done|]. apply Forall_forall. intros y Hy. apply filter_incl_elem in Hy as [Hy _].
  rewrite Forall_forall in Hall. by apply Hall.
Qed.

(** From the walk's programs to the shape. *)
Lemma retain_shape A P P' :
  tree_links A → listed A → ops_of_live A → drops 1 A (abs_programs P) →
  retain_children P = Ok P' → tree_shape (abs_programs P').
Proof.
  intros Hlinks Hlisted Hops Hdrops Hr. pose proof (drops_links 1 _ _ Hdrops ltac:(lia) Hlinks) as Hl1.
  destruct (drop_all_closed _ _ Hdrops Hlinks Hops) as (Hops1 & Hpar1 & _).
  apply retain_children_lookup in Hr as [Hlen Hlook].
  assert (Hsame : ∀ c, live (abs_programs P') c = live (abs_programs P) c ∧
    op_of (abs_programs P') c = op_of (abs_programs P) c ∧
    parent_of (abs_programs P') c = parent_of (abs_programs P) c ∧
    children_of (abs_programs P') c =
      List.filter (live (abs_programs P)) (children_of (abs_programs P) c)).
  { intros c. unfold live at 1 2, op_of, parent_of, children_of. rewrite !abs_lookup, Hlook.
    by destruct (P !! c). }
  assert (Hback : ∀ c p', abs_programs P' !! c = Some p' → ∃ p, abs_programs P !! c = Some p ∧
    ap_fallback p' = ap_fallback p ∧ ap_index p' = ap_index p ∧ ap_parent p' = ap_parent p ∧
    ap_dropped p' = ap_dropped p ∧ ap_updates p' = ap_updates p).
  { intros c p' Hp'. rewrite abs_lookup, Hlook in Hp'. rewrite abs_lookup.
    destruct (P !! c) as [p|]; [|done]. injection Hp' as <-. by exists (abs_program p). }
  destruct Hl1 as ((p0 & H0 & Hn0 & Hd0) & Hpars & Hsort & Hch).
  split_and!; [split_and!|split|].
  - rewrite abs_lookup, Hlook. rewrite abs_lookup in H0.
    destruct (P !! 0%nat) as [r|]; [|done]. injection H0 as <-. by eexists.
  - intros c p' Hp' Hpos. destruct (Hback c p' Hp') as (p & Hp & -> & -> & -> & _).
    by apply (Hpars c p).
  - intros q. destruct (Hsame q) as (_ & _ & _ & ->). by apply sorted_filter_lt.
  - intros q c Hc. destruct (Hsame q) as (_ & _ & _ & Hq). rewrite Hq in Hc.
    apply filter_incl_elem in Hc as [Hc _]. destruct (Hsame c) as (_ & _ & -> & _).
    unfold abs_programs. rewrite length_fmap, Hlen.
    destruct (Hch q c Hc) as [Hlt Hp]. unfold abs_programs in Hlt. rewrite length_fmap in Hlt. done.
  - intros c q Hc Hq. destruct (Hsame c) as (Hlc & _ & Hpc & _).
    destruct (Hsame q) as (-> & _ & _ & ->).
    rewrite Hlc in Hc. rewrite Hpc in Hq. split; [by eapply Hpar1|].
    apply list_elem_of_In, filter_In. split; [|done]. apply list_elem_of_In.
    destruct Hdrops as (_ & Hsd & _). rewrite (proj2 (proj2 (Hsd q))). apply Hlisted.
    by rewrite <-(proj1 (proj2 (Hsd c))).
  - intros q c _ Hc. destruct (Hsame q) as (_ & _ & _ & Hq). rewrite Hq in Hc.
    apply filter_incl_elem in Hc as [_ Hc]. by destruct (Hsame c) as (-> & _).
  - intros q p' us Hp' Hd Hus. destruct (Hback q p' Hp') as (p & Hp & _ & _ & _ & Hdp & Hup).
    rewrite Hdp in Hd. rewrite Hup in Hus. rewrite (Hops1 q p us Hp Hd Hus).
    destruct (Hsame q) as (_ & _ & _ & ->). apply list_fmap_ext. intros i c _.
    by destruct (Hsame c) as (_ & -> & _).
Qed.

Lemma position_lookup id cs pos : position id cs = Some pos → cs !! pos = Some id.
Proof.
  revert pos. induction cs as [|c cs IH]; intros pos Hp; [done|]. cbn in Hp.
  destruct (Nat.eqb_spec c id) as [->|]; [by injection Hp as <-|].
  destruct (position id cs) as [k|]; [|done]. injection Hp as <-. by apply IH.
Qed.

Lemma remove_at_S {A} pos (x : A) l : remove_at (S pos) (x :: l) = x :: remove_at pos l.
Proof. done. Qed.

(** Turning the op at [position] into something else removes one from the list of ops. *)
Lemma replace_nested_ops pos u us us' :
  is_nested u = false → replace_nested pos u us = Some us' →
  nested_ops us' = remove_at pos (nested_ops us).
Proof.
  intros Hu. revert pos us'. induction us as [|x us IH]; intros pos us' Hr; [done|].
  cbn [replace_nested] in Hr. destruct (is_nested x) eqn:Hx.
  - destruct x as [| | | | | | | | |n]; try discriminate Hx. destruct pos as [|pos].
    + injection Hr as <-. cbn. unfold remove_at. cbn. rewrite drop_0.
      by destruct u.
    + destruct (replace_nested pos u us) as [vs|] eqn:Hrec; [|done]. injection Hr as <-.
      cbn [nested_ops flat_map app]. rewrite remove_at_S. f_equal. by apply IH.
  - destruct (replace_nested pos u us) as [vs|] eqn:Hrec; [|done]. injection Hr as <-.
    specialize (IH pos vs Hrec). destruct x; try discriminate Hx; exact IH.
Qed.

Lemma replace_nested_stores pos u us us' :
  is_store u = false → replace_nested pos u us = Some us' →
  List.filter is_store us' = List.filter is_store us.
Proof.
  intros Hu. revert pos us'. induction us as [|x us IH]; intros pos us' Hr; [done|].
  cbn [replace_nested] in Hr. destruct (is_nested x) eqn:Hx; [destruct pos as [|pos]|].
  - injection Hr as <-. cbn [List.filter]. rewrite Hu. by destruct x.
  - destruct (replace_nested pos u us) as [vs|] eqn:Hrec; [|done]. injection Hr as <-.
    cbn [List.filter]. by rewrite (IH pos vs Hrec).
  - destruct (replace_nested pos u us) as [vs|] eqn:Hrec; [|done]. injection Hr as <-.
    cbn [List.filter]. by rewrite (IH pos vs Hrec).
Qed.

Lemma remove_at_fmap {A B} (f : A → B) pos l : f <$> remove_at pos l = remove_at pos (f <$> l).
Proof. unfold remove_at. by rewrite fmap_app, fmap_take, fmap_drop. Qed.

Lemma remove_at_elem {A} pos (l : list A) x : x ∈ remove_at pos l → x ∈ l.
Proof.
  unfold remove_at. intros [Hx|Hx]%elem_of_app.
  - rewrite <-(take_drop pos l). apply elem_of_app. by left.
  - rewrite <-(take_drop (S pos) l). apply elem_of_app. by right.
Qed.

Lemma remove_at_other {A} pos (l : list A) x y :
  x ∈ l → l !! pos = Some y → x ≠ y → x ∈ remove_at pos l.
Proof.
  intros Hx Hy Hne. rewrite <-(take_drop_middle l pos y Hy) in Hx. unfold remove_at.
  apply elem_of_app in Hx as [Hx|[->|Hx]%elem_of_cons]; [|done|]; apply elem_of_app; auto.
Qed.

Lemma remove_at_sorted pos l : StronglySorted lt l → StronglySorted lt (remove_at pos l).
Proof.
  intros Hs. revert pos. induction Hs as [|x l Hs IH Hall]; intros pos.
  - destruct pos; constructor.
  - destruct pos as [|pos]; [done|]. rewrite remove_at_S. constructor; [apply IH|].
    apply Forall_forall. intros y Hy. apply remove_at_elem in Hy.
    rewrite Forall_forall in Hall. by apply Hall.
Qed.

Lemma remove_at_gone pos l (id : nat) :
  StronglySorted lt l → l !! pos = Some id → id ∉ remove_at pos l.
Proof.
  intros Hs. revert pos. induction Hs as [|x l Hs IH Hall]; intros pos Hp; [done|].
  rewrite Forall_forall in Hall. destruct pos as [|pos].
  - injection Hp as ->. unfold remove_at. cbn. rewrite drop_0. intros Hin.
    specialize (Hall id Hin). lia.
  - change (l !! pos = Some id) in Hp.
    rewrite remove_at_S. intros [->|Hin]%elem_of_cons; [|by eapply IH].
    apply list_elem_of_lookup_2, Hall in Hp. lia.
Qed.

(** What pruning never changes: the programs' places, headers and stores; nothing is revived. *)
Definition same_header (p p' : AProgram) : Prop :=
  ap_target p' = ap_target p ∧ ap_caller p' = ap_caller p ∧ ap_value p' = ap_value p ∧
  ap_index p' = ap_index p ∧ ap_parent p' = ap_parent p ∧
  List.filter is_store <$> ap_updates p' = List.filter is_store <$> ap_updates p ∧
  (ap_dropped p' = false → ap_dropped p = false).

Definition same_programs (A A' : list AProgram) : Prop := Forall2 same_header A A'.

#[export] Instance same_header_preorder : PreOrder same_header.
Proof.
  split; [by intros p|]. intros p q r (? & ? & ? & ? & ? & ? & ?) (? & ? & ? & ? & ? & ? & ?).
  split_and!; [congruence..|auto].
Qed.

#[export] Instance same_programs_preorder : PreOrder same_programs.
Proof. change (PreOrder (Forall2 same_header)). apply _. Qed.

Lemma same_programs_intro A A' :
  length A' = length A →
  (∀ c p', A' !! c = Some p' → ∃ p, A !! c = Some p ∧ same_header p p') → same_programs A A'.
Proof.
  intros Hlen Hall. apply Forall2_same_length_lookup. split; [done|].
  intros c p p' Hp Hp'. destruct (Hall c p' Hp') as (r & Hr & Hsame). congruence.
Qed.

Lemma drops_same first A A' : drops first A A' → same_programs A A'.
Proof.
  intros (Hlen & _ & Hfrom & _). apply same_programs_intro; [done|].
  intros c p' Hp'. destruct (Hfrom c p' Hp') as (p & Hp & [->| ->]); exists p; (split; [done|]);
    [done|by split_and!].
Qed.

Lemma retain_same P P' :
  retain_children P = Ok P' → same_programs (abs_programs P) (abs_programs P').
Proof.
  intros [Hlen Hlook]%retain_children_lookup. apply same_programs_intro.
  - unfold abs_programs. by rewrite !length_fmap.
  - intros c p' Hp'. rewrite abs_lookup, Hlook in Hp'. rewrite abs_lookup.
    destruct (P !! c) as [p|]; [|done]. injection Hp' as <-. exists (abs_program p).
    by split_and!.
Qed.

(** Taking a child out of its parent: the programs between the two, before its own descendants are
    dropped. *)
Section detach.
Context (A : list AProgram) (id q : nat) (p pq : AProgram) (pos : nat) (us us' : list StateUpdate).
Hypothesis Hshape : tree_shape A.
Hypothesis Hid : A !! id = Some p.
Hypothesis Hq : A !! q = Some pq.
Hypothesis Hpar : ap_parent p = Some q.
Hypothesis Hlt : (q < id)%nat.
Hypothesis Hchild : ap_children pq !! pos = Some id.
Hypothesis Hus : ap_updates pq = Some us.
Hypothesis Hops : nested_ops us' = remove_at pos (nested_ops us).
Hypothesis Hstores : List.filter is_store us' = List.filter is_store us.

Definition detached_parent : AProgram :=
  set_ap_children (remove_at pos (ap_children pq)) (set_ap_updates (Some us') pq).
Definition detach : list AProgram := <[id := drop_ap p]> (<[q := detached_parent]> A).

Lemma detach_lookup c :
  detach !! c = if decide (c = id) then Some (drop_ap p)
    else if decide (c = q) then Some detached_parent else A !! c.
Proof.
  unfold detach. case_decide; [subst c|rewrite list_lookup_insert_ne by done].
  - rewrite list_lookup_insert_eq; [done|]. rewrite length_insert. by eapply lookup_lt_Some.
  - case_decide; [subst c|by rewrite list_lookup_insert_ne].
    rewrite list_lookup_insert_eq; [done|]. by eapply lookup_lt_Some.
Qed.

Lemma detach_length : length detach = length A.
Proof. unfold detach. by rewrite !length_insert. Qed.

Lemma detach_fields c :
  op_of detach c = op_of A c ∧ parent_of detach c = parent_of A c ∧
  children_of detach c = (if decide (c = q) then remove_at pos (children_of A q) else children_of A c) ∧
  live detach c = live A c && bool_decide (c ≠ id).
Proof.
  assert (children_of A q = ap_children pq) as -> by (unfold children_of; by rewrite Hq).
  unfold op_of, parent_of, children_of, live. rewrite detach_lookup.
  destruct (decide (c = id)) as [->|Hci].
  - rewrite Hid, decide_False by lia. rewrite bool_decide_false, andb_false_r by tauto. done.
  - rewrite bool_decide_true, andb_true_r by done.
    destruct (decide (c = q)) as [->|]; [by rewrite Hq|done].
Qed.

Lemma detach_same : same_programs A detach.
Proof.
  apply same_programs_intro; [apply detach_length|]. intros c r Hr. rewrite detach_lookup in Hr.
  case_decide as Hc; [|case_decide as Hc'].
  - injection Hr as <-. subst c. exists p. split; [done|]. by split_and!.
  - injection Hr as <-. subst c. exists pq. split; [done|]. split_and!; try done.
    cbn. rewrite Hus. cbn. by rewrite Hstores.
  - by exists r.
Qed.

Lemma detach_links : tree_links detach.
Proof.
  destruct Hshape as (((p0 & H0 & Hn0 & Hd0) & Hpars & Hsort & Hch) & _ & _). split_and!.
  - rewrite detach_lookup, decide_False by lia. case_decide as H0q; [|by exists p0].
    eexists. split; [done|]. assert (p0 = pq) as -> by congruence. done.
  - intros c r Hr Hc. rewrite detach_lookup in Hr. case_decide as Hci.
    + injection Hr as <-. subst c. by apply (Hpars id p).
    + case_decide as Hcq; [|by apply (Hpars c r)].
      injection Hr as <-. subst c. by apply (Hpars q pq).
  - intros r. destruct (detach_fields r) as (_ & _ & -> & _). case_decide; [|done].
    by apply remove_at_sorted.
  - intros r c Hc. destruct (detach_fields r) as (_ & _ & Hr & _). rewrite Hr in Hc.
    rewrite detach_length. destruct (detach_fields c) as (_ & -> & _). apply Hch.
    case_decide; [|done]. subst r. by eapply remove_at_elem.
Qed.

Lemma detach_child r c : c ∈ children_of detach r → c ∈ children_of A r ∧ c ≠ id.
Proof.
  destruct Hshape as ((_ & _ & Hsort & Hch) & _ & _).
  destruct (detach_fields r) as (_ & _ & -> & _). case_decide as Hr; intros Hc.
  - subst r. split; [by eapply remove_at_elem|]. intros ->.
    eapply remove_at_gone; [apply (Hsort q)| |exact Hc]. unfold children_of. by rewrite Hq.
  - split; [done|]. intros ->. destruct (Hch r id Hc) as [_ Hpid].
    unfold parent_of in Hpid. rewrite Hid in Hpid. cbn in Hpid. congruence.
Qed.

Lemma detach_ops r pr vs :
  detach !! r = Some pr → ap_dropped pr = false → ap_updates pr = Some vs →
  nested_ops vs = op_of A <$> children_of detach r.
Proof.
  destruct Hshape as (_ & _ & HopsA). intros Hr Hd Hvs.
  destruct (detach_fields r) as (_ & _ & -> & _). rewrite detach_lookup in Hr.
  destruct (decide (r = id)) as [->|Hrid]; [by injection Hr as <-|].
  destruct (decide (r = q)) as [->|Hrq]; [|by apply (HopsA r pr)].
  injection Hr as <-. cbn in Hvs, Hd. injection Hvs as <-.
  rewrite Hops, remove_at_fmap. f_equal. by apply (HopsA q pq).
Qed.

Lemma detach_up A' c r :
  drops (S id) detach A' → live A' c = true → parent_of A' c = Some r →
  live A' r = true ∧ c ∈ children_of A' r.
Proof.
  intros (Hlen & Hsame & _ & Hlow & Hhigh) Hc Hr.
  destruct Hshape as (((p0 & H0 & Hn0 & _) & Hpars & _) & (Hup & _) & _).
  rewrite (proj1 (proj2 (Hsame c))) in Hr. destruct (detach_fields c) as (_ & Hpc & _ & Hlc).
  pose proof (live_lt _ _ Hc) as Hcl. rewrite Hlen in Hcl.
  assert (live A c = true ∧ c ≠ id) as [HcA Hne].
  { assert (live detach c = true) as Hc2.
    { destruct (decide (c < S id)%nat) as [Hcid|Hcid]; [by rewrite <-(Hlow c Hcid)|].
      rewrite (Hhigh c ltac:(lia)) in Hc. by apply andb_true_iff in Hc as [Hc _]. }
    rewrite Hlc in Hc2. by apply andb_true_iff in Hc2 as [? ?%bool_decide_eq_true]. }
  rewrite Hpc in Hr. destruct (Hup c r HcA Hr) as [Hlr Hin].
  split; [|rewrite (proj2 (proj2 (Hsame r))); destruct (detach_fields r) as (_ & _ & -> & _);
    destruct (decide (r = q)) as [->|]; [|done]; eapply remove_at_other; [done| |done];
    unfold children_of; by rewrite Hq].
  destruct (decide (c < S id)%nat) as [Hcid|Hcid].
  - assert (r < c)%nat as Hrc.
    { unfold parent_of in Hr. destruct (A !! c) as [pc|] eqn:Hpc'; [|done]. cbn in Hr.
      destruct (decide (c = 0%nat)) as [->|]; [congruence|].
      destruct (Hpars c pc Hpc' ltac:(lia)) as (_ & _ & r' & Hr' & ?). congruence || lia. }
    destruct (detach_fields r) as (_ & _ & _ & Hlr2). rewrite (Hlow r ltac:(lia)), Hlr2, Hlr.
    by rewrite bool_decide_true by lia.
  - rewrite (Hhigh c ltac:(lia)), Hpc, Hr in Hc. by apply andb_true_iff in Hc as [_ Hc].
Qed.

Lemma detach_down A' r c :
  drops (S id) detach A' → live A' r = true → c ∈ children_of A' r → live A' c = true.
Proof.
  intros (Hlen & Hsame & _ & Hlow & Hhigh) Hr Hc.
  destruct Hshape as ((_ & _ & _ & Hch) & (_ & Hdown) & _).
  rewrite (proj2 (proj2 (Hsame r))) in Hc. destruct (detach_child r c Hc) as [HcA Hcid].
  assert (live A r = true) as Hlr.
  { destruct (detach_fields r) as (_ & _ & _ & Hlr2).
    destruct (decide (r < S id)%nat) as [Hrid|Hrid].
    - rewrite (Hlow r Hrid), Hlr2 in Hr. by apply andb_true_iff in Hr as [Hr _].
    - pose proof (live_lt _ _ Hr). rewrite (Hhigh r ltac:(lia)), Hlr2 in Hr.
      apply andb_true_iff in Hr as [Hr _]. by apply andb_true_iff in Hr as [Hr _]. }
  destruct (detach_fields c) as (_ & Hpc2 & _ & Hlc2).
  rewrite (Hdown r c Hlr HcA), bool_decide_true in Hlc2 by done. cbn in Hlc2.
  destruct (decide (c < S id)%nat) as [Hcid'|Hcid']; [by rewrite (Hlow c Hcid')|].
  pose proof (live_lt _ _ Hlc2). destruct (Hch r c HcA) as [_ Hpc].
  rewrite (Hhigh c ltac:(lia)), Hlc2, Hpc2, Hpc, Hr. done.
Qed.

Lemma detach_shape A' : drops (S id) detach A' → tree_shape A'.
Proof.
  intros Hdrops. split_and!; [exact (drops_links (S id) _ _ Hdrops ltac:(lia) detach_links)|split|].
  - intros c r. by apply detach_up.
  - intros r c. by apply detach_down.
  - destruct Hdrops as (_ & Hsame & Hfrom & _). intros r pr vs Hpr Hd Hvs.
    destruct (Hfrom r pr Hpr) as (pr2 & Hpr2 & Hcase).
    assert (pr = pr2) as -> by (destruct Hcase as [|Hdr]; [done|by rewrite Hdr in Hd]).
    rewrite (proj2 (proj2 (Hsame r))), (detach_ops r pr2 vs Hpr2 Hd Hvs).
    apply list_fmap_ext. intros i c _.
    by rewrite (proj1 (Hsame c)), (proj1 (detach_fields c)).
Qed.
End detach.

(** Turning a live frame back into a [CALL] keeps the shape. *)
Lemma unnest_shape P P' id p :
  tree_shape (abs_programs P) → P !! id = Some p → (0 < id)%nat → unnest P id = Ok P' →
  tree_shape (abs_programs P') ∧ same_programs (abs_programs P) (abs_programs P').
Proof.
  intros Hshape Hp Hpos Hun. pose proof (links_parents_before P (proj1 Hshape)) as Hbefore.
  unfold unnest, program_at, update_program, program_at in Hun. rewrite Hp in Hun.
  cbn [expect mbind res_bind] in Hun.
  destruct (ps_parent p) as [q|] eqn:Hq; [|done]. cbn [expect mbind res_bind] in Hun.
  destruct (P !! q) as [pq|] eqn:Hpq; [|done]. cbn [expect mbind res_bind] in Hun.
  destruct (position id (ps_children pq)) as [pos|] eqn:Hposn; [|done].
  cbn [expect mbind res_bind] in Hun.
  destruct (ps_fallback p) as [call|]; [|done]. cbn [expect mbind res_bind] in Hun.
  destruct (ps_updates pq) as [us|] eqn:Hus; [|done]. cbn [expect mbind res_bind] in Hun.
  destruct (replace_nested pos (UCall call) us) as [us'|] eqn:Hrep; [|done].
  cbn [expect mbind res_bind] in Hun. pose proof (Hbefore id p q Hp Hq) as Hlt.
  rewrite list_lookup_insert_ne, Hp in Hun by lia. cbn [expect mbind res_bind] in Hun.
  set (P2 := <[id := _]> _) in Hun.
  assert (HidA : abs_programs P !! id = Some (abs_program p)) by (by rewrite abs_lookup, Hp).
  assert (HqA : abs_programs P !! q = Some (abs_program pq)) by (by rewrite abs_lookup, Hpq).
  assert (HP2 : abs_programs P2 = detach (abs_programs P) id q (abs_program p) (abs_program pq) pos us')
    by (unfold P2, detach, abs_programs; by rewrite !list_fmap_insert).
  pose proof (position_lookup _ _ _ Hposn) as Hchild.
  pose proof (replace_nested_ops pos (UCall call) us us' eq_refl Hrep) as Hops.
  pose proof (replace_nested_stores pos (UCall call) us us' eq_refl Hrep) as Hst.
  assert (Hl2 : tree_links (abs_programs P2)) by (rewrite HP2; by eapply detach_links).
  pose proof (drop_range_drops _ _ _ Hl2 Hun) as Hdrops. split.
  - rewrite HP2 in Hdrops. by apply (detach_shape _ id q _ _ pos us us' Hshape HidA HqA).
  - transitivity (abs_programs P2); [|by eapply drops_same].
    rewrite HP2. by apply detach_same with (us := us).
Qed.

(** ** Pruning *)

Lemma prune_step_shape `{Externals} cost st id st' :
  (0 < id)%nat → tree_shape (abs_programs st.1.1) → prune_step cost st id = Ok st' →
  tree_shape (abs_programs st'.1.1) ∧
  same_programs (abs_programs st.1.1) (abs_programs st'.1.1).
Proof.
  destruct st as [[P w] s]. cbn [fst]. intros Hid Hshape Hstep.
  unfold prune_step, program_at in Hstep. destruct (P !! id) as [p|] eqn:Hp; [|done].
  cbn [expect mbind res_bind] in Hstep. destruct (ps_dropped p); [by inv_res|].
  destruct (witness_size p w) as [size| |]; [|done..]. cbn [mbind res_bind] in Hstep.
  destruct (depth_of P id) as [depth| |]; [|done..]. cbn [mbind res_bind] in Hstep.
  destruct (sum_at s (ps_children p)) as [cs| |]; [|done..]. cbn [mbind res_bind] in Hstep.
  destruct (_ <? _); [by inv_res|].
  destruct (unnest P id) as [P1| |] eqn:Hun; [|done..]. cbn [mbind res_bind] in Hstep. inv_res.
  by eapply unnest_shape.
Qed.

Lemma prune_shape `{Externals} P cost P' :
  tree_shape (abs_programs P) → prune_unprofitable P cost = Ok P' →
  tree_shape (abs_programs P') ∧ same_programs (abs_programs P) (abs_programs P').
Proof.
  intros Hshape Hp. unfold prune_unprofitable in Hp.
  destruct (foldM _ _ _) as [[[P1 w] s]| |] eqn:Hf; [|done..]. cbn in Hp. inv_res.
  apply (foldM_inv (λ st, tree_shape (abs_programs st.1.1) ∧
    same_programs (abs_programs P) (abs_programs st.1.1))) in Hf; [done| |done].
  intros st id st' Hin [Hs Hsame] Hstep. rewrite elem_of_reverse, elem_of_seq in Hin.
  apply prune_step_shape in Hstep as [Hs' Hsame']; [|lia|done].
  split; [done|by etransitivity].
Qed.

(** ** Compaction *)

(** The place of program [c] among the kept ones. *)
Definition rank (P : list ProgramState) (c : nat) : nat := length (List.filter is_kept (take c P)).

Lemma rank_lt_kept P c d p :
  P !! c = Some p → is_kept p = true → (c < d)%nat → (rank P c < rank P d)%nat.
Proof.
  intros Hp Hk Hcd. unfold rank.
  assert (take d P = take c P ++ p :: take (d - S c) (drop (S c) P)) as ->.
  { rewrite <-(take_drop_middle P c p Hp) at 1. rewrite take_app.
    rewrite length_take_le by (apply lookup_lt_Some in Hp; lia).
    rewrite take_take, Nat.min_r by lia. f_equal.
    destruct (d - c)%nat as [|k] eqn:Hk'; [lia|]. cbn. repeat f_equal. lia. }
  rewrite List.filter_app, length_app. cbn [List.filter]. rewrite Hk. cbn. lia.
Qed.

Lemma kept_lookup P i p :
  List.filter is_kept P !! i = Some p ↔ ∃ c, P !! c = Some p ∧ is_kept p = true ∧ rank P c = i.
Proof.
  revert i. induction P as [|x P IH]; intros i.
  { split; [done|]. by intros (c & Hc & _). }
  cbn [List.filter]. destruct (is_kept x) eqn:Hx.
  - destruct i as [|i].
    + split.
      * intros [= <-]. by exists 0%nat.
      * intros ([|c] & Hc & Hk & Hr); [done|]. unfold rank in Hr. cbn in Hr. by rewrite Hx in Hr.
    + change ((x :: List.filter is_kept P) !! S i) with (List.filter is_kept P !! i). rewrite IH.
      split.
      * intros (c & Hc & Hk & Hr). exists (S c). split_and!; [done|done|].
        unfold rank in *. cbn. rewrite Hx. cbn. by rewrite Hr.
      * intros ([|c] & Hc & Hk & Hr); [done|]. exists c. split_and!; [done|done|].
        unfold rank in *. cbn in Hr. rewrite Hx in Hr. cbn in Hr. lia.
  - rewrite IH. split.
    + intros (c & Hc & Hk & Hr). exists (S c). split_and!; [done|done|].
      unfold rank in *. cbn. by rewrite Hx.
    + intros ([|c] & Hc & Hk & Hr); [injection Hc as ->; congruence|]. exists c.
      split_and!; [done|done|]. unfold rank in *. cbn in Hr. by rewrite Hx in Hr.
Qed.

Lemma remap_kept P cs ks :
  (∀ c, c ∈ cs → ∃ p, P !! c = Some p ∧ is_kept p = true) → mapM (remap P) cs = Ok ks →
  ks = rank P <$> cs.
Proof.
  intros Hall Hm. apply mapM_Ok_Forall2 in Hm.
  induction Hm as [|c k cs ks Hck Hm IH]; [done|]. cbn. f_equal.
  - destruct (Hall c) as (p & Hp & Hk); [by left|]. unfold remap, program_at in Hck.
    rewrite Hp in Hck. cbn in Hck. rewrite Hk in Hck. by inv_res.
  - apply IH. intros d Hd. apply Hall. by right.
Qed.

(** The frame of a program. *)
Definition frame_of (P : list ProgramState) (p : ProgramState) (f : FrameProgram) : Prop :=
  fp_target f = ps_target p ∧ fp_caller f = ps_caller p ∧ fp_value f = ps_value p ∧
  fp_transition_index f = ps_transition_index p ∧ ps_updates p = Some (fp_updates f) ∧
  fp_children f = rank P <$> ps_children p.

Lemma live_kept P c : live (abs_programs P) c = true ↔ ∃ p, P !! c = Some p ∧ is_kept p = true.
Proof.
  unfold live. rewrite abs_lookup. destruct (P !! c) as [p|]; cbn.
  - split; [intros Hl; by exists p|]. by intros (q & [= <-] & Hk).
  - split; [done|]. by intros (q & [=] & _).
Qed.

Lemma compact_frames P frames :
  tree_shape (abs_programs P) → compact P = Ok frames →
  (∀ i f, frames !! i = Some f →
    ∃ c p, P !! c = Some p ∧ is_kept p = true ∧ rank P c = i ∧ frame_of P p f) ∧
  (∀ c p, P !! c = Some p → is_kept p = true →
    ∃ f, frames !! rank P c = Some f ∧ frame_of P p f).
Proof.
  intros (_ & (_ & Hdown) & _) Hc. apply mapM_Ok_Forall2 in Hc.
  assert (Hframe : ∀ c p f, P !! c = Some p → is_kept p = true → compact_program P p = Ok f →
    frame_of P p f).
  { intros c p f Hp Hk Hf. unfold compact_program in Hf.
    destruct (ps_updates p) as [us|] eqn:Hus; [|done]. cbn [ok_or mbind res_bind] in Hf.
    destruct (mapM (remap P) (ps_children p)) as [cs| |] eqn:Hcs; [|done..]. cbn in Hf. inv_res.
    apply remap_kept in Hcs as ->; [by split_and!|]. intros d Hd. apply live_kept.
    apply (Hdown c); [by apply live_kept; exists p|]. unfold children_of. by rewrite abs_lookup, Hp. }
  split.
  - intros i f Hi. destruct (Forall2_lookup_r _ _ _ _ _ Hc Hi) as (p & Hp & Hf).
    apply kept_lookup in Hp as (c & Hp & Hk & Hr). exists c, p. split_and!; [done..|by eapply Hframe].
  - intros c p Hp Hk. assert (List.filter is_kept P !! rank P c = Some p) as Hp'
      by (apply kept_lookup; by exists c).
    destruct (Forall2_lookup_l _ _ _ _ _ Hc Hp') as (f & Hi & Hf). exists f.
    split; [done|by eapply Hframe].
Qed.

(** ** The root program *)

Definition root_header (A : list AProgram) (h : Z * Z * Z * option Z) : Prop :=
  ∃ p, A !! 0%nat = Some p ∧ h = (ap_target p, ap_caller p, ap_value p, ap_index p).

Lemma astep_root owns s s' h :
  astep owns s s' → root_header (as_programs s) h → root_header (as_programs s') h.
Proof.
  intros Hstep (p & Hp & ->). destruct Hstep; cbn in *; try (by exists p).
  - assert ((P ++ [new_program q ctx index call]) !! 0%nat = Some p) as Hp'
      by (rewrite lookup_app_l; [done|by eapply lookup_lt_Some]).
    destruct (decide (q = 0%nat)) as [->|].
    + eexists. rewrite list_lookup_insert_eq by by eapply lookup_lt_Some. split; [done|].
      rewrite Hp in *. by simplify_eq/=.
    + exists p. by rewrite list_lookup_insert_ne.
  - destruct (decide (id = 0%nat)) as [->|].
    + eexists. rewrite list_lookup_insert_eq by by eapply lookup_lt_Some. split; [done|].
      by simplify_eq/=.
    + exists p. by rewrite list_lookup_insert_ne.
  - eexists. rewrite drop_programs_lookup, Hp. split; [done|]. by case_match.
  - eexists. rewrite drop_programs_lookup, Hp. split; [done|]. by case_match.
Qed.

Lemma asteps_root owns s s' h :
  asteps owns s s' → root_header (as_programs s) h → root_header (as_programs s') h.
Proof. induction 1; [done|]. eauto using astep_root. Qed.

(** Every program but the root is of a contract that may be nested. *)
Definition owned_targets (owns : Z → Prop) (A : list AProgram) : Prop :=
  ∀ c p, A !! S c = Some p → owns (ap_target p).

Lemma astep_owned owns s s' :
  astep owns s s' → owned_targets owns (as_programs s) → owned_targets owns (as_programs s').
Proof.
  intros Hstep Howned. destruct Hstep; cbn in *; try done; intros k r Hr.
  - assert (∀ k r, (P ++ [new_program q ctx index call]) !! S k = Some r → owns (ap_target r)) as Happ.
    { intros k' r' [Hr'|[_ Hr']]%lookup_app_Some; [by eapply Howned|].
      by apply list_lookup_singleton_Some in Hr' as [_ <-]. }
    apply list_lookup_insert_Some in Hr as [(-> & <- & _)|[_ Hr]]; [|by eapply Happ].
    cbn. by eapply Howned.
  - apply list_lookup_insert_Some in Hr as [(-> & <- & _)|[_ Hr]]; [|by eapply Howned].
    cbn. by eapply Howned.
  - rewrite drop_programs_lookup in Hr. destruct (P !! S k) as [p|] eqn:Hp; [|done].
    apply Howned in Hp. cbn in Hr. injection Hr as <-. by case_match.
  - rewrite drop_programs_lookup in Hr. destruct (P !! S k) as [p'|] eqn:Hp; [|done].
    apply Howned in Hp. cbn in Hr. injection Hr as <-. by case_match.
Qed.

Lemma asteps_owned owns s s' :
  asteps owns s s' → owned_targets owns (as_programs s) → owned_targets owns (as_programs s').
Proof. induction 1; [done|]. eauto using astep_owned. Qed.

(** The end of a walk that returns: the invariants carry over to the programs handed to pruning, and
    the root program's stores end with the whole image of its target's journal. *)
Lemma finish_root_shape `{Externals} e cands logs root root_index s P f :
  foldM (split_step e cands) logs (initial_split_state root root_index) = Ok s →
  finish_root s = Ok (P, f) →
  tree_links (abs_programs P) ∧ listed (abs_programs P) ∧ ops_of_live (abs_programs P) ∧
  root_header (abs_programs P) (root, 0, 0, root_index) ∧ owned_targets (nests e) (abs_programs P) ∧
  (∃ p, P !! 0%nat = Some p ∧ ps_updates p = Some (wf_out f)) ∧
  ∀ slot v, default ∅ (wf_journal f !! root) !! slot = Some v → last_store (wf_out f) slot = Some v.
Proof.
  intros Hwalk Hfin. destruct (walk_reaches_inv _ _ _ _ _ _ Hwalk) as [Hinv Hviews].
  assert (root_header (as_programs (abs_split s)) (root, 0, 0, root_index)) as Hroot.
  { eapply (asteps_root (nests e)); [by eapply split_walk_asteps|]. by eexists. }
  assert (owned_targets (nests e) (as_programs (abs_split s))) as Howned.
  { eapply asteps_owned; [by eapply split_walk_asteps|]. by intros c p Hp. }
  destruct s as [P0 F X sk]. unfold finish_root in Hfin.
  destruct F as [|f0 [|g F]]; [done| |done]. cbn [length Nat.eqb negb bail_if mbind res_bind] in Hfin.
  destruct (wf_program f0) as [id|] eqn:Hid; [|unfold flush_slice in Hfin; cbn in Hfin; by rewrite Hid in Hfin].
  destruct Hinv as [Hok|[? _]]; [|done].
  assert (id = 0%nat) as ->.
  { destruct Hok as (_ & HS & _). apply stack_root in HS as (Hp0 & _). cbn in Hp0. congruence. }
  destruct Hroot as (ap0 & Hap0 & Hhead). cbn in Hap0. rewrite list_lookup_fmap in Hap0.
  destruct (P0 !! 0%nat) as [p0|] eqn:Hp0; [|done]. injection Hap0 as <-. cbn in Hhead.
  injection Hhead as -> Hcaller Hvalue ->.
  rewrite (flush_slice_eq f0 [] P0 0 p0 Hid Hp0) in Hfin. cbn [mbind res_bind top_frame] in Hfin.
  unfold update_program, program_at in Hfin. rewrite Hp0 in Hfin.
  cbn [expect mbind res_bind] in Hfin.
  set (f1 := set_wf_emitted_view _ _) in Hfin. injection Hfin as <- <-.
  match goal with |- context [<[0%nat := ?q]> P0] => set (P1 := <[0%nat := q]> P0) end.
  assert (HP1 : abs_programs P1 = end_programs (abs_programs P0) (wf_out f1)).
  { unfold P1, abs_programs. rewrite list_fmap_insert.
    destruct P0 as [|p P0]; [done|]. by injection Hp0 as ->. }
  assert (Hprog : programs_ok (abs_programs P0)) by apply Hok. rewrite HP1. split_and!.
  - by apply end_programs_links, programs_ok_links.
  - by apply end_programs_listed, programs_ok_listed.
  - eapply walk_end; [exact Hok|]. cbn. by rewrite nested_ops_app, nested_ops_slice, app_nil_r.
  - destruct P0 as [|p P0]; [done|]. injection Hp0 as ->. eexists. split; [done|].
    cbn. by rewrite <-Hcaller, <-Hvalue.
  - intros c p Hp. apply (Howned c). destruct P0; [done|exact Hp].
  - eexists. unfold P1. rewrite list_lookup_insert_eq by by eapply lookup_lt_Some. done.
  - intros slot v Hslot. destruct Hviews as [[Hv _] _]. specialize (Hv 0%nat Hid). cbn in Hv.
    rewrite decide_True in Hv by done.
    apply (slice_view_ok (visible_image [f0] (ps_target p0))) in Hv. apply Hv.
    apply lookup_union_Some_l. cbn. by rewrite (right_id_L ∅ (∪)).
Qed.

(** ** The extract *)

(** The target and value of frame [c]. *)
Definition frame_op (frames : list FrameProgram) (c : nat) : Z * Z :=
  match frames !! c with Some g => (fp_target g, fp_value g) | None => (0, 0) end.

(** A tree in pre-order: children ascend and come later, every frame but the first has a transition
    index and is the child of exactly one frame, and the [NESTED] ops of a frame are, in order, those
    of its children. *)
Definition frame_fine (frames : list FrameProgram) (i : nat) (f : FrameProgram) : Prop :=
  StronglySorted lt (fp_children f) ∧
  Forall (λ c, (i < c < length frames)%nat) (fp_children f) ∧
  nested_ops (fp_updates f) = frame_op frames <$> fp_children f ∧
  ((0 < i)%nat → is_Some (fp_transition_index f) ∧
    ∃ q g, frames !! q = Some g ∧ i ∈ fp_children g ∧
      ∀ q' g', frames !! q' = Some g' → i ∈ fp_children g' → q' = q).

Definition frames_fine (frames : list FrameProgram) : Prop :=
  ∀ i f, frames !! i = Some f → frame_fine frames i f.

Lemma rank_inj P c d p q :
  P !! c = Some p → is_kept p = true → P !! d = Some q → is_kept q = true →
  rank P c = rank P d → c = d.
Proof.
  intros Hp Hkp Hq Hkq Heq. destruct (Nat.lt_trichotomy c d) as [Hlt|[|Hlt]]; [|done|].
  - pose proof (rank_lt_kept P c d p Hp Hkp Hlt). lia.
  - pose proof (rank_lt_kept P d c q Hq Hkq Hlt). lia.
Qed.

Lemma rank_sorted P cs :
  (∀ c, c ∈ cs → live (abs_programs P) c = true) → StronglySorted lt cs →
  StronglySorted lt (rank P <$> cs).
Proof.
  intros Hl Hs. induction Hs as [|c cs Hs IH Hall]; cbn; constructor.
  - apply IH. intros d Hd. apply Hl. by right.
  - rewrite Forall_fmap. apply Forall_forall. intros d Hd. cbn.
    destruct (proj1 (live_kept P c)) as (p & Hp & Hk); [apply Hl; by left|].
    rewrite Forall_forall in Hall. apply (rank_lt_kept P c d p); [done|done|by apply Hall].
Qed.

Section compacted.
Context (P : list ProgramState) (frames : list FrameProgram).
Hypothesis Hshape : tree_shape (abs_programs P).
Hypothesis Hcompact : compact P = Ok frames.

Lemma compacted_child c p f :
  P !! c = Some p → is_kept p = true → frame_of P p f → ∀ d, d ∈ ps_children p →
  live (abs_programs P) d = true ∧ (c < d)%nat ∧ ∃ q, P !! d = Some q ∧ is_kept q = true.
Proof.
  intros Hp Hk Hf d Hd. destruct Hshape as ((_ & _ & _ & Hch) & (_ & Hdown) & _).
  assert (d ∈ children_of (abs_programs P) c) as Hdc
    by (unfold children_of; by rewrite abs_lookup, Hp).
  assert (live (abs_programs P) d = true) as Hl
    by (apply (Hdown c); [by apply live_kept; exists p|done]).
  split_and!; [done|by apply Hch in Hdc as [[? _] _]|by apply live_kept].
Qed.

Lemma compacted_op d : live (abs_programs P) d = true →
  frame_op frames (rank P d) = op_of (abs_programs P) d.
Proof.
  intros (q & Hq & Hk)%live_kept. destruct (compact_frames P frames Hshape Hcompact) as [_ Hto].
  destruct (Hto d q Hq Hk) as (g & Hg & (Ht & _ & Hv & _)).
  unfold frame_op, op_of. by rewrite Hg, abs_lookup, Hq, Ht, Hv.
Qed.

Lemma compacted_parent c p f :
  P !! c = Some p → is_kept p = true → (0 < c)%nat → frame_of P p f →
  is_Some (fp_transition_index f) ∧
  ∃ q g, frames !! q = Some g ∧ rank P c ∈ fp_children g ∧
    ∀ q' g', frames !! q' = Some g' → rank P c ∈ fp_children g' → q' = q.
Proof.
  intros Hp Hk Hc Hf. destruct (compact_frames P frames Hshape Hcompact) as [Hfrom Hto].
  pose proof Hshape as ((_ & Hpars & _ & Hch) & (Hup & _) & _).
  assert (HpA : abs_programs P !! c = Some (abs_program p)) by (by rewrite abs_lookup, Hp).
  destruct (Hpars c _ HpA Hc) as (_ & Hi & q & Hq & Hlt). cbn in Hi, Hq.
  destruct Hf as (_ & _ & _ & -> & _). split; [done|].
  destruct (Hup c q) as [Hlq Hin].
  { apply live_kept. by exists p. }
  { unfold parent_of. by rewrite HpA. }
  apply live_kept in Hlq as (pq & Hpq & Hkq). destruct (Hto q pq Hpq Hkq) as (g & Hg & Hgf).
  exists (rank P q), g. split_and!; [done| |].
  - destruct Hgf as (_ & _ & _ & _ & _ & ->). apply list_elem_of_fmap. exists c. split; [done|].
    unfold children_of in Hin. by rewrite abs_lookup, Hpq in Hin.
  - intros q' g' Hg' Hin'. destruct (Hfrom q' g' Hg') as (d & pd & Hpd & Hkd & <- & Hfd).
    pose proof (compacted_child d pd g' Hpd Hkd Hfd) as Hkids.
    destruct Hfd as (_ & _ & _ & _ & _ & Hcs). rewrite Hcs in Hin'.
    apply list_elem_of_fmap in Hin' as (c' & Hr & Hc').
    destruct (Hkids c' Hc') as (_ & _ & pc' & Hpc' & Hkc').
    assert (c' = c) as -> by (symmetry; by eapply (rank_inj P)).
    assert (c ∈ children_of (abs_programs P) d) as Hcd
      by (unfold children_of; by rewrite abs_lookup, Hpd).
    apply Hch in Hcd as [_ Hpar]. unfold parent_of in Hpar. rewrite HpA in Hpar. cbn in Hpar.
    congruence.
Qed.

Lemma compacted_fine : frames_fine frames.
Proof.
  destruct (compact_frames P frames Hshape Hcompact) as [Hfrom Hto].
  intros i f Hi. destruct (Hfrom i f Hi) as (c & p & Hp & Hk & <- & Hf).
  pose proof (compacted_child c p f Hp Hk Hf) as Hkids.
  pose proof Hshape as ((_ & _ & Hsort & _) & _ & Hops).
  assert (HpA : abs_programs P !! c = Some (abs_program p)) by (by rewrite abs_lookup, Hp).
  assert (Hcs : children_of (abs_programs P) c = ps_children p)
    by (unfold children_of; by rewrite HpA).
  assert (Hparent := λ Hc, compacted_parent c p f Hp Hk Hc Hf).
  destruct Hf as (_ & _ & _ & _ & Hus & Hfc). unfold frame_fine. rewrite Hfc. split_and!.
  - apply rank_sorted; [intros d Hd; by apply Hkids|]. rewrite <-Hcs. apply Hsort.
  - rewrite Forall_fmap. apply Forall_forall. intros d Hd. cbn.
    destruct (Hkids d Hd) as (_ & Hlt & q & Hq & Hkq). split; [by eapply rank_lt_kept|].
    destruct (Hto d q Hq Hkq) as (g & Hg & _). by eapply lookup_lt_Some.
  - rewrite (Hops c _ _ HpA); [|cbn; by apply negb_true_iff|exact Hus].
    rewrite Hcs, <-list_fmap_compose. apply list_fmap_ext. intros j d Hd. cbn.
    symmetry. apply compacted_op. by eapply Hkids, list_elem_of_lookup_2.
  - intros Hi0. apply Hparent. destruct (decide (c = 0%nat)) as [->|]; [by cbn in Hi0|lia].
Qed.
End compacted.

(** ** Properties *)

Lemma last_store_filter us slot : last_store (List.filter is_store us) slot = last_store us slot.
Proof.
  unfold last_store. generalize (@None Z) as acc. induction us as [|u us IH]; intros acc; [done|].
  cbn [List.filter fold_left]. destruct u; cbn; apply IH.
Qed.

(** The walk of [split_frame_tree], up to the programs handed to pruning. *)
Definition walk_trace `{Externals} (trace : DefaultFrame) (root : Z) (e : Eligibility)
  : Result (list ProgramState * WalkFrame * option Z) :=
  '(candidates, root_index) ← scan_candidates (df_struct_logs trace) root;
  s ← foldM (split_step e candidates) (enumerate (df_struct_logs trace))
    (initial_split_state root root_index);
  '(programs, frame) ← finish_root s;
  Ok (programs, frame, root_index).

Lemma split_result `{Externals} trace root e cost tree :
  split_frame_tree trace root e cost = Ok tree →
  ∃ P0 P f index, walk_trace trace root e = Ok (P0, f, index) ∧
    tree_shape (abs_programs P) ∧ compact P = Ok (fte_frames tree) ∧
    same_programs (abs_programs P0) (abs_programs P) ∧
    root_header (abs_programs P0) (root, 0, 0, index) ∧ owned_targets (nests e) (abs_programs P0) ∧
    (∃ p, P0 !! 0%nat = Some p ∧ ps_updates p = Some (wf_out f)) ∧
    ∀ slot v, default ∅ (wf_journal f !! root) !! slot = Some v →
      last_store (wf_out f) slot = Some v.
Proof.
  unfold split_frame_tree, walk_trace. intros Hs.
  destruct (scan_candidates _ root) as [[cands index]| |]; [|done..]. cbn [mbind res_bind] in *.
  destruct (foldM _ _ _) as [s| |] eqn:Hwalk; [|done..]. cbn [mbind res_bind] in *.
  destruct (finish_root s) as [[P0 f]| |] eqn:Hfin; [|done..]. cbn [mbind res_bind] in *.
  destruct (finish_root_shape _ _ _ _ _ _ _ _ Hwalk Hfin) as (Hl & Hli & Ho & Hh & Hown & Hu & Hv).
  unfold finish_split, drop_descendants_of_dropped in Hs.
  destruct (drop_range P0 1) as [P1| |] eqn:Hd; [|done..]. cbn [mbind res_bind] in Hs.
  destruct (retain_children P1) as [P2| |] eqn:Hr; [|done..]. cbn [mbind res_bind] in Hs.
  destruct (prune_unprofitable P2 cost) as [P3| |] eqn:Hp; [|done..]. cbn [mbind res_bind] in Hs.
  apply drop_range_drops in Hd; [|done].
  destruct (prune_shape P2 cost P3 (retain_shape _ _ _ Hl Hli Ho Hd Hr) Hp) as [Hshape Hsame].
  do 3 apply bind_Ok_iff in Hs as (? & _ & Hs).
  destruct (compact P3) as [frames| |] eqn:Hc; [|done..]. cbn in Hs. inv_res.
  exists P0, P3, f, index. split_and!; try done.
  etransitivity; [by eapply drops_same|]. etransitivity; [by eapply retain_same|done].
Qed.

(** Every other frame is of a contract the eligibility can nest. *)
Lemma split_frames_owned `{Externals} trace root e cost tree i f :
  split_frame_tree trace root e cost = Ok tree → fte_frames tree !! S i = Some f →
  nests e (fp_target f).
Proof.
  intros (P0 & P & _ & _ & _ & Hshape & Hc & Hsame & _ & Hown & _)%split_result Hf.
  destruct (compact_frames P _ Hshape Hc) as [Hfrom _].
  destruct (Hfrom (S i) f Hf) as (c & p & Hp & _ & Hr & (-> & _)).
  destruct c as [|c]; [done|].
  destruct (Forall2_lookup_r _ _ _ (S c) (abs_program p) Hsame) as (p0 & Hp0 & Heq & _);
    [by rewrite abs_lookup, Hp|]. cbn in Heq. rewrite Heq. by eapply Hown.
Qed.

(** The first frame is the root program's. *)
Lemma split_root_frame `{Externals} trace root e cost tree :
  split_frame_tree trace root e cost = Ok tree →
  ∃ P f index root_frame rest, walk_trace trace root e = Ok (P, f, index) ∧
    fte_frames tree = root_frame :: rest ∧
    fp_target root_frame = root ∧ fp_caller root_frame = 0 ∧ fp_value root_frame = 0 ∧
    fp_transition_index root_frame = index ∧ frames_fine (fte_frames tree) ∧
    ∀ slot v, default ∅ (wf_journal f !! root) !! slot = Some v →
      last_store (fp_updates root_frame) slot = Some v.
Proof.
  intros (P0 & P & f & index & Hwalk & Hshape & Hc & Hsame & (p0 & Hp0 & Hh) & _ & (r & Hr & Hu) & Hv)
    %split_result.
  destruct (compact_frames P _ Hshape Hc) as [_ Hto].
  pose proof (compacted_fine P _ Hshape Hc) as Hfine.
  destruct Hshape as (((q & Hq & _ & Hlive) & _) & _).
  rewrite abs_lookup in Hq. destruct (P !! 0%nat) as [p|] eqn:Hp; [|done]. injection Hq as <-.
  destruct (Hto 0%nat p Hp) as (root_frame & Hroot & Hf); [by apply negb_true_iff|].
  rewrite abs_lookup, Hr in Hp0. injection Hp0 as <-.
  destruct (Forall2_lookup_l _ _ _ 0%nat (abs_program r) Hsame) as (p' & Hp' & Hsp);
    [by rewrite abs_lookup, Hr|].
  rewrite abs_lookup, Hp in Hp'. injection Hp' as <-.
  destruct Hsp as (Ht & Hca & Hva & Hi & _ & Hst & _). cbn in Ht, Hca, Hva, Hi, Hst, Hh.
  injection Hh as Eroot Ecaller Evalue Eindex.
  destruct Hf as (Hft & Hfc & Hfv & Hfi & Hfu & _).
  destruct (fte_frames tree) as [|g rest]; [done|]. change (rank P 0) with 0%nat in Hroot.
  injection Hroot as ->. exists P0, f, index, root_frame, rest. split_and!; try done; [congruence..|].
  intros slot v Hslot. rewrite <-last_store_filter.
  rewrite Hu, Hfu in Hst. cbn in Hst. injection Hst as ->. rewrite last_store_filter. by apply Hv.
Qed.

Lemma nested_count_ops us : nested_count us = length (nested_ops us).
Proof.
  unfold nested_count, nested_ops. induction us as [|u us IH]; [done|].
  cbn [List.filter flat_map]. rewrite length_app. destruct u; cbn; lia.
Qed.

Lemma frames_fine_ok frames f rest :
  frames = f :: rest → frames_fine frames →
  (tree_ok frames ↔ is_Some (fp_transition_index f)).
Proof.
  intros -> Hfine. split.
  - intros [_ Hok]. by apply (Hok 0%nat f).
  - intros Hroot. split; [done|]. intros i g Hg. destruct (Hfine i g Hg) as (_ & Hc & Hops & Hi).
    split_and!; [|done|].
    + rewrite nested_count_ops, Hops. by rewrite length_fmap.
    + destruct (decide (i = 0%nat)) as [->|]; [by injection Hg as <-|]. apply Hi. lia.
Qed.

(** C2: Whatever trace, eligibility and cost model, the frames [split_frame_tree] returns are a tree in
    pre-order rooted at the given contract: children ascend and come after their parent, every other
    frame is of a contract the eligibility can nest, has a transition index and exactly one parent, and
    the [NESTED] ops of a frame name its children's targets and values in order. *)
Theorem split_frame_tree_shape `{Externals} trace root e cost tree :
  split_frame_tree trace root e cost = Ok tree →
  frames_fine (fte_frames tree) ∧
  (∀ i g, fte_frames tree !! S i = Some g → nests e (fp_target g)) ∧
  ∃ f rest, fte_frames tree = f :: rest ∧ fp_target f = root ∧ fp_caller f = 0 ∧ fp_value f = 0.
Proof.
  intros Hs. pose proof Hs as (P & f & index & g & rest & _ & Hg & Ht & Hc & Hv & _ & Hfine & _)
    %split_root_frame.
  split; [done|]. split; [|by exists g, rest]. intros i h. by apply (split_frames_owned trace root e cost).
Qed.

(** A tree that was split encodes if and only if the scan found the increment of the root's own
    transition counter. *)
Theorem split_frame_tree_encodes `{Externals} trace root e cost tree selector value chain expiry :
  split_frame_tree trace root e cost = Ok tree →
  (∃ t, encode_frame_tree selector value chain expiry (fte_frames tree) = Ok t) ↔
  ∃ cands index, scan_candidates (df_struct_logs trace) root = Ok (cands, Some index).
Proof.
  intros (P & f & index & g & rest & Hwalk & Hg & _ & _ & _ & Hi & Hfine & _)%split_root_frame.
  assert ((∃ t, encode_frame_tree selector value chain expiry (fte_frames tree) = Ok t) ↔
    tree_ok (fte_frames tree)) as ->.
  { split; [intros [t Ht]; by eapply encode_frame_tree_inv|].
    intros Hok. destruct (encode_frame_tree_total selector value chain expiry _ Hok) as (t & Ht & _).
    by exists t. }
  rewrite (frames_fine_ok _ g rest Hg Hfine), Hi. unfold walk_trace in Hwalk.
  destruct (scan_candidates _ root) as [[cands i]| |]; [|done..]. cbn [mbind res_bind] in Hwalk.
  destruct (foldM _ _ _); [|done..]. cbn [mbind res_bind] in Hwalk.
  destruct (finish_root _) as [[P' f']| |]; [|done..]. cbn in Hwalk. inv_res. split.
  - intros [j ->]. by exists cands, j.
  - intros (cands' & j & [= _ ->]). by exists j.
Qed.

(** C3: Replaying the root program leaves every slot of the root contract's journal at its final value:
    for each slot in the journal the walk ends with, the last [STORE] of the root program to that slot
    is the journal's value. *)
Theorem split_root_stores_final `{Externals} trace root e cost tree P frame index f rest :
  split_frame_tree trace root e cost = Ok tree → walk_trace trace root e = Ok (P, frame, index) →
  fte_frames tree = f :: rest →
  ∀ slot v, default ∅ (wf_journal frame !! root) !! slot = Some v →
    last_store (fp_updates f) slot = Some v.
Proof.
  intros (P' & f' & index' & g & rest' & Hwalk & Hg & _ & _ & _ & _ & _ & Hv)%split_root_frame Hw Hf.
  rewrite Hw in Hwalk. rewrite Hf in Hg. injection Hwalk as <- <- <-. by injection Hg as <- <-.
Qed.

(** The canonical extraction never hits its [expect]: a tree always has its root frame. *)
Lemma canonical_root_frame `{Externals} trace root e cost tree :
  split_frame_tree trace root e cost = Ok tree → is_Some (head (fte_frames tree)).
Proof.
  intros (P & f & index & g & rest & _ & -> & _)%split_root_frame. by exists g.
Qed.

(** [compute_state_updates_canonical] is the root program of the tree with nothing nestable: it
    returns exactly when the split does, and never reaches its panic. *)
Theorem compute_state_updates_canonical_eq `{Externals} trace target :
  compute_state_updates_canonical trace target =
  (tree ← split_frame_tree trace target (Consumers (λ _, false)) NESTING_COST_MODEL_V1;
   match fte_frames tree with
   | f :: _ => Ok (fp_updates f, fte_skipped_opcodes tree, fte_call_gas_total tree)
   | [] => Ok ([], ∅, 0)
   end).
Proof.
  unfold compute_state_updates_canonical, compute_frame_tree_canonical.
  destruct (split_frame_tree _ _ _ _) as [tree| |] eqn:Hs; [|done..]. cbn [mbind res_bind].
  apply canonical_root_frame in Hs as [f Hf]. by destruct (fte_frames tree).
Qed.

(** A store, a nested call that stores, and a store after it. *)
Definition split_log (d : Z) (op : string) (gas : Z) (stack : list Z) : StructLog :=
  mkStructLog d op gas 3 (Some stack) (Some []) None None.

Definition split_sample : DefaultFrame := mkDefaultFrame false 0 [] [
  split_log 1 "SSTORE" 100000 [6; STATE_TRACKER_SLOT];
  split_log 1 "SSTORE" 90000 [7; 1];
  split_log 1 "CALL" 80000 [0; 0; 0; 0; 0; 77; 79000];
  split_log 2 "SSTORE" 70000 [4; STATE_TRACKER_SLOT];
  split_log 2 "SSTORE" 60000 [9; 2];
  split_log 2 "STOP" 1000 [];
  split_log 1 "SSTORE" 900 [1; 8; 3];
  split_log 1 "STOP" 800 [1]].

Definition sample_eligibility : Eligibility := Consumers (λ a, a =? 77).

Abbreviation sample_split :=
  (split_frame_tree split_sample 10 sample_eligibility NESTING_COST_MODEL_V1).

Lemma split_frame_tree_shape_witness :
  ∃ tree, sample_split = Ok tree ∧ length (fte_frames tree) = 2%nat ∧ frames_fine (fte_frames tree).
Proof.
  destruct sample_split as [tree| |] eqn:Hs; [|vm_compute in Hs; discriminate Hs..].
  exists tree. split; [reflexivity|]. split.
  - vm_compute in Hs. injection Hs as <-. reflexivity.
  - exact (proj1 (split_frame_tree_shape split_sample 10 sample_eligibility NESTING_COST_MODEL_V1
      tree Hs)).
Defined.

Lemma split_frame_tree_encodes_witness :
  ∃ tree t, sample_split = Ok tree ∧ encode_frame_tree 1 0 5 100 (fte_frames tree) = Ok t.
Proof.
  destruct sample_split as [tree| |] eqn:Hs; [|vm_compute in Hs; discriminate Hs..].
  destruct (proj2 (split_frame_tree_encodes split_sample 10 sample_eligibility
    NESTING_COST_MODEL_V1 tree 1 0 5 100 Hs)) as [t Ht].
  - eexists _, 5. vm_compute. reflexivity.
  - exists tree, t. split; [reflexivity|exact Ht].
Defined.

Lemma split_root_stores_final_witness :
  ∃ tree P frame index f rest,
    sample_split = Ok tree ∧ walk_trace split_sample 10 sample_eligibility = Ok (P, frame, index) ∧
    fte_frames tree = f :: rest ∧ last_store (fp_updates f) 3 = Some 8.
Proof.
  destruct sample_split as [tree| |] eqn:Hs; [|vm_compute in Hs; discriminate Hs..].
  destruct (walk_trace split_sample 10 sample_eligibility) as [[[P frame] index]| |] eqn:Hw;
    [|vm_compute in Hw; discriminate Hw..].
  destruct (fte_frames tree) as [|f rest] eqn:Hf;
    [vm_compute in Hs; injection Hs as <-; discriminate Hf|].
  exists tree, P, frame, index, f, rest. split; [reflexivity|]. split; [reflexivity|].
  split; [exact Hf|].
  apply (split_root_stores_final split_sample 10 sample_eligibility NESTING_COST_MODEL_V1 tree P
    frame index f rest Hs Hw Hf 3 8).
  vm_compute in Hw. injection Hw as _ <- _. vm_compute. reflexivity.
Defined.
