(* ===== verification/Typing.v ===== *)
(** * Typing

    The integers of the model stand for machine words, addresses and hashes. This file states which
    values a trace, a diff or a call tree of the right types contains, and proves that every
    extractor keeps to them: the operations each program lists are values of their Solidity structs,
    in the single-pass extraction, in the prestate net form and in every frame of the split. The
    encoders' injectivity then applies to what is extracted, with no hypothesis left on it. It also says what
    an opcode does, read off its log alone, and proves that the single pass lists exactly such updates. *)

From S2P Require Import Prelude.
From S2P Require Import Types.
From S2P Require Import Instances.
From S2P Require Import Encoding.
From S2P Require Import Trace.
From S2P Require Import SimProfile.
From S2P Require Import Prestate.
From S2P Require Import Merkle.
From S2P Require Import Scan.
From S2P Require Import FrameTree.
From S2P Require Import Prune.
From S2P Require Import EncodeTree.

(** ** The types *)

(** [Address]. *)
Definition is_address (a : Z) : Prop := 0 <= a < 2 ^ 160.

(** A property of the value of an [Option], if there is one. *)
Definition holds {A} (P : A → Prop) (o : option A) : Prop :=
  match o with Some a => P a | None => True end.

#[export] Instance is_address_dec a : Decision (is_address a).
Proof. unfold is_address. apply _. Defined.
#[export] Instance holds_dec {A} (P : A → Prop) `{!∀ a, Decision (P a)} o : Decision (holds P o).
Proof. destruct o; cbn; apply _. Defined.

(** A struct log's stack holds [U256]s, and its refund counter is a [u64]. *)
Definition log_typed (l : StructLog) : Prop :=
  holds (Forall is_u256) (sl_stack l) ∧ holds is_u64 (sl_refund_counter l).

#[export] Instance log_typed_dec l : Decision (log_typed l).
Proof. unfold log_typed. apply _. Defined.

(** What the decoder and the hashes return: bytes, and 32-byte words. *)
Class TypeLaws `{Externals} : Prop := {
  hex_decode_bytes s bs : hex_decode s = Some bs → Forall is_byte bs;
  keccak256_word bs : is_u256 (keccak256 bs);
  sha256_word bs : is_u256 (sha256_digest bs)
}.

Lemma word_fixed_bytes w : is_u256 w ↔ abi_wf (AFixedBytes 32 w).
Proof. cbn. unfold is_u256, u256_max. change (256 ^ 32) with (2 ^ 256). lia. Qed.

Lemma word_uint w : is_u256 w ↔ abi_wf (AUint 256 w).
Proof. cbn. unfold is_u256, u256_max. lia. Qed.

Lemma address_from_word_typed w : is_address (address_from_word w).
Proof. rewrite address_from_word_mod. apply Z.mod_pos_bound. lia. Qed.

Lemma address_word a : is_address a → is_u256 a.
Proof. unfold is_address, is_u256, u256_max. lia. Qed.

#[export] Hint Resolve address_from_word_typed : gas.

(** ** What an opcode does

    Read off the log with no reference to the decoder: the operands of an opcode from the top of its stack, and
    a range of its memory, which is zero beyond what was recorded. *)

Definition operands (l : StructLog) (ws : list Z) : Prop := ∃ rest, sl_stack l = Some (rest ++ reverse ws).

(** The [k]th byte of a range is that of the memory at its offset plus [k]. *)
Definition window (memory : list Z) (offset length : Z) : list Z :=
  (λ k, nth (Z.to_nat offset + k) memory 0) <$> seq 0 (Z.to_nat length).

Section emits.
Context `{Externals}.

Definition memory_of (l : StructLog) (memory : list Z) : Prop :=
  ∃ words parts, sl_memory l = Some words ∧
    Forall2 (λ word bytes, hex_decode (strip_0x word) = Some bytes) words parts ∧ memory = concat parts.

(** The state update of an opcode that changes state, by the operands the EVM gives it. *)
Inductive emits (l : StructLog) : StateUpdate → Prop :=
  | emits_store slot value :
      sl_op l = "SSTORE"%string → operands l [slot; value] → emits l (UStore (mkStore slot value))
  | emits_call gas to value offset length memory :
      sl_op l = "CALL"%string → operands l [gas; to; value; offset; length] → memory_of l memory →
      emits l (UCall (mkCall (to mod 2 ^ 160) value (window memory offset length)))
  | emits_log0 offset length memory :
      sl_op l = "LOG0"%string → operands l [offset; length] → memory_of l memory →
      emits l (ULog0 (mkLog0 (window memory offset length)))
  | emits_log1 offset length t1 memory :
      sl_op l = "LOG1"%string → operands l [offset; length; t1] → memory_of l memory →
      emits l (ULog1 (mkLog1 (window memory offset length) t1))
  | emits_log2 offset length t1 t2 memory :
      sl_op l = "LOG2"%string → operands l [offset; length; t1; t2] → memory_of l memory →
      emits l (ULog2 (mkLog2 (window memory offset length) t1 t2))
  | emits_log3 offset length t1 t2 t3 memory :
      sl_op l = "LOG3"%string → operands l [offset; length; t1; t2; t3] → memory_of l memory →
      emits l (ULog3 (mkLog3 (window memory offset length) t1 t2 t3))
  | emits_log4 offset length t1 t2 t3 t4 memory :
      sl_op l = "LOG4"%string → operands l [offset; length; t1; t2; t3; t4] → memory_of l memory →
      emits l (ULog4 (mkLog4 (window memory offset length) t1 t2 t3 t4))
  | emits_create value offset length memory :
      sl_op l = "CREATE"%string → operands l [value; offset; length] → memory_of l memory →
      emits l (UCreate (mkCreate value (window memory offset length)))
  | emits_create2 value offset length salt memory :
      sl_op l = "CREATE2"%string → operands l [value; offset; length; salt] → memory_of l memory →
      emits l (UCreate2 (mkCreate2 salt value (window memory offset length))).

(** A recorded memory is shorter than [usize::MAX]. *)
Definition log_fits (l : StructLog) : Prop := ∀ memory, memory_of l memory → zlen memory < usize_max.

Lemma operands_of l stack ws :
  sl_stack l = Some stack → Forall2 (λ i w, stack_get (reverse stack) i = Ok w) (seq 0 (length ws)) ws →
  operands l ws.
Proof.
  intros Hl Hws. assert (take (length ws) (reverse stack) = ws) as Htake.
  { apply list_eq. intros i. destruct (ws !! i) as [w|] eqn:Hw.
    - destruct (Forall2_lookup_r _ _ _ _ _ Hws Hw) as (j & [-> _]%lookup_seq & Hg). cbn in Hg.
      rewrite lookup_take_lt by by eapply lookup_lt_Some. unfold stack_get, expect in Hg.
      by case_match; [injection Hg as ->|].
    - apply lookup_ge_None in Hw. apply lookup_take_ge. lia. }
  exists (reverse (drop (length ws) (reverse stack))).
  by rewrite Hl, <-reverse_app, <-Htake, take_drop, reverse_involutive at 1.
Qed.

Lemma parse_memory_of words memory :
  parse_trace_memory words = Ok memory →
  ∃ parts, Forall2 (λ word bytes, hex_decode (strip_0x word) = Some bytes) words parts ∧ memory = concat parts.
Proof.
  unfold parse_trace_memory. revert memory. induction words as [|word words IH] using rev_ind; intros memory Hp.
  { injection Hp as <-. by exists []. }
  rewrite foldM_app in Hp. apply bind_Ok_iff in Hp as (m & Hm & Hp). apply IH in Hm as (parts & Hparts & ->).
  cbn [foldM] in Hp. apply bind_Ok_iff in Hp as (m' & Hp & [= <-]).
  apply bind_Ok_iff in Hp as (bytes & Hb & [= <-]). unfold expect in Hb. case_match eqn:Hd; [|done].
  injection Hb as ->. exists (parts ++ [bytes]). split; [by apply Forall2_app; [|constructor]|].
  rewrite concat_app. cbn [concat]. by rewrite app_nil_r.
Qed.

Lemma parse_memory_complete words parts :
  Forall2 (λ word bytes, hex_decode (strip_0x word) = Some bytes) words parts →
  parse_trace_memory words = Ok (concat parts).
Proof.
  unfold parse_trace_memory. induction words as [|word words IH] using rev_ind in parts |- *; intros Hparts.
  { by apply Forall2_nil_inv_l in Hparts as ->. }
  apply Forall2_app_inv_l in Hparts as (k & ks & Hk & Hks & ->).
  apply Forall2_cons_inv_l in Hks as (bytes & k' & Hb & Hnil & ->). apply Forall2_nil_inv_l in Hnil as ->.
  rewrite foldM_app, (IH _ Hk). cbn [mbind res_bind foldM]. rewrite Hb. cbn [expect mbind res_bind].
  rewrite concat_app. cbn [concat]. by rewrite app_nil_r.
Qed.

(** Whether a log fits, by computation. *)
Definition fits (l : StructLog) : bool :=
  match sl_memory l with
  | Some words => match parse_trace_memory words with Ok memory => zlen memory <? usize_max | _ => true end
  | None => true
  end.
Lemma fits_spec l : fits l = true → log_fits l.
Proof.
  intros Hf memory (words & parts & Hw & Hparts & ->). unfold fits in Hf.
  rewrite Hw, (parse_memory_complete _ _ Hparts) in Hf. lia.
Qed.

Lemma copy_memory_window memory offset size :
  0 <= offset → 0 <= size → zlen memory < usize_max → copy_memory memory offset size = window memory offset size.
Proof.
  intros Ho Hl Hm. apply list_eq. intros k. unfold window. rewrite list_lookup_fmap.
  destruct (decide (k < Z.to_nat size)%nat) as [Hk|Hk].
  - rewrite lookup_seq_lt by done. cbn. rewrite nth_lookup. unfold copy_memory, sat_add, usize_max, zlen in *.
    destruct (Z.leb_spec (Z.min u64_max (offset + size)) (Z.of_nat (length memory))).
    { rewrite lookup_take_lt, lookup_drop by lia. destruct (lookup_lt_is_Some_2 memory (Z.to_nat offset + k)) as [b ->]; [lia|done]. }
    destruct (Z.ltb_spec offset (Z.of_nat (length memory))).
    + destruct (decide (Z.to_nat offset + k < length memory)%nat).
      * rewrite lookup_app_l by (rewrite length_take, length_drop; lia).
        rewrite lookup_take_lt, lookup_drop by lia.
        destruct (lookup_lt_is_Some_2 memory (Z.to_nat offset + k)) as [b ->]; [lia|done].
      * rewrite (lookup_ge_None_2 memory) by lia. rewrite lookup_app_r by (rewrite length_take, length_drop; lia).
        rewrite lookup_drop, length_take, length_drop. apply lookup_replicate_2. lia.
    + rewrite (lookup_ge_None_2 memory) by lia. apply lookup_replicate_2. lia.
  - rewrite (lookup_ge_None_2 (seq _ _)) by (rewrite length_seq; lia). apply lookup_ge_None.
    unfold copy_memory, sat_add, usize_max, zlen in *. repeat case_match; rewrite ?length_app, ?length_take, ?length_drop, ?length_replicate; lia.
Qed.
End emits.

(** ** Decoding one struct log *)

Section typing.
Context `{TypeLaws}.

Lemma is_byte_0 : is_byte 0.
Proof. unfold is_byte; lia. Qed.

Lemma copy_memory_bytes memory offset length :
  Forall is_byte memory → Forall is_byte (copy_memory memory offset length).
Proof.
  intros Hm. unfold copy_memory.
  repeat case_match; auto using Forall_take, Forall_drop, Forall_replicate, is_byte_0.
  apply Forall_app; split; auto using Forall_take, Forall_drop, Forall_replicate, is_byte_0.
Qed.

Lemma parse_trace_memory_bytes memory bs :
  parse_trace_memory memory = Ok bs → Forall is_byte bs.
Proof.
  unfold parse_trace_memory. intros Hp.
  eapply (foldM_inv (Forall is_byte)); [|constructor|exact Hp].
  intros acc s acc' _ Hacc Hs. inv_res. unfold expect in *. case_match; inv_res.
  apply Forall_app; split; [done|]. by eapply hex_decode_bytes.
Qed.

Lemma stack_get_word stack i w : Forall is_u256 stack → stack_get stack i = Ok w → is_u256 w.
Proof.
  intros Hs. unfold stack_get, expect. case_match eqn:Hi; [|done]. intros [= <-].
  rewrite Forall_lookup in Hs. by eapply Hs.
Qed.

Lemma memory_range_bytes memory stack i j w1 w2 bs :
  Forall is_byte memory → memory_range memory stack i j w1 w2 = Ok bs → Forall is_byte bs.
Proof. intros Hm Hr. unfold memory_range in Hr. inv_res. by apply copy_memory_bytes. Qed.

Lemma append_by_opcode_typed ups op stack memory ups' sk :
  Forall is_u256 stack → Forall is_byte memory → Forall update_wf ups →
  append_by_opcode ups op stack memory = Ok (ups', sk) → Forall update_wf ups'.
Proof.
  intros Hs Hm Hu. unfold append_by_opcode, log_data.
  case_opc op; intros Ha; inv_res; try done;
  (apply Forall_app; split; [done|]; apply Forall_singleton; unfold update_wf;
   repeat (apply Forall_cons; split); try apply Forall_nil_2;
   cbn [store_slot store_value call_target call_value call_args log0_data log1_data log1_topic1
     log2_data log2_topic1 log2_topic2 log3_data log3_topic1 log3_topic2 log3_topic3 log4_data
     log4_topic1 log4_topic2 log4_topic3 log4_topic4 create_value create_initcode create2_salt
     create2_value create2_initcode];
   first [ apply word_fixed_bytes; by eapply stack_get_word
         | apply word_uint; by eapply stack_get_word
         | cbn; by eapply memory_range_bytes
         | apply address_from_word_typed | done ]).
Qed.

Lemma append_typed ups l ups' sk :
  log_typed l → Forall update_wf ups →
  append_state_update_from_struct_log ups l = Ok (ups', sk) → Forall update_wf ups'.
Proof.
  intros [Hs _] Hu. unfold append_state_update_from_struct_log.
  destruct (sl_stack l) as [stack|]; cbn in *; [|done].
  destruct (sl_memory l).
  - intros Ha. inv_res. eapply append_by_opcode_typed; [|by eapply parse_trace_memory_bytes|done..].
    by apply Forall_reverse.
  - case_match; [done|]. intros [= <- _]. done.
Qed.

(** The decoder pushes what the opcode does, or nothing. *)
Lemma opc_of_name s :
  match opc_of s with
  | OP_SSTORE => s = "SSTORE" | OP_CALL => s = "CALL" | OP_CREATE => s = "CREATE" | OP_CREATE2 => s = "CREATE2"
  | OP_LOG0 => s = "LOG0" | OP_LOG1 => s = "LOG1" | OP_LOG2 => s = "LOG2" | OP_LOG3 => s = "LOG3"
  | OP_LOG4 => s = "LOG4" | OP_STATICCALL => s = "STATICCALL" | OP_DELEGATECALL => s = "DELEGATECALL"
  | OP_CALLCODE => s = "CALLCODE" | _ => True
  end%string.
Proof.
  unfold opc_of, opc_names. cbn [assoc_name].
  repeat match goal with |- context [String.eqb s ?n] => destruct (String.eqb_spec s n); [done|] end. done.
Qed.

Lemma memory_range_window memory stack i j w1 w2 bs :
  Forall is_u256 stack → zlen memory < usize_max → memory_range memory stack i j w1 w2 = Ok bs →
  ∃ offset size, stack_get stack i = Ok offset ∧ stack_get stack j = Ok size ∧ bs = window memory offset size.
Proof.
  intros Hs Hm Hr. unfold memory_range in Hr. apply bind_Ok_iff in Hr as (o & Ho & Hr).
  apply bind_Ok_iff in Hr as (o' & Ho' & Hr). apply bind_Ok_iff in Hr as (n & Hn & Hr).
  apply bind_Ok_iff in Hr as (n' & Hn' & [= <-]). unfold to_usize in *. repeat case_match; try done.
  injection Ho' as <-. injection Hn' as <-. exists o, n. split_and!; [done..|].
  apply stack_get_word in Ho, Hn; [|done..]. unfold is_u256 in *. apply copy_memory_window; lia || done.
Qed.

Lemma stack_get_bottom stack i w : stack_get stack i = Ok w → ∃ v, stack_get stack 0 = Ok v.
Proof. destruct stack; [done|]. by eexists. Qed.

Lemma append_emits ups l ups' sk :
  log_typed l → log_fits l → append_state_update_from_struct_log ups l = Ok (ups', sk) →
  ups' = ups ∨ ∃ u, ups' = ups ++ [u] ∧ emits l u.
Proof.
  intros [Hs _] Hfits Ha. unfold append_state_update_from_struct_log in Ha.
  destruct (sl_stack l) as [stack|] eqn:Hstack; [|done]. cbn [expect mbind res_bind holds] in *.
  destruct (sl_memory l) as [words|] eqn:Hwords; [|by case_match; [|injection Ha as <- _; left]].
  apply bind_Ok_iff in Ha as (memory & Hm & Ha). apply parse_memory_of in Hm as (parts & Hparts & Hm).
  assert (memory_of l memory) as Hmem by by exists words, parts.
  pose proof (Hfits _ Hmem) as Hlen. clear Hfits Hparts Hm parts Hwords words.
  apply Forall_reverse in Hs. pose proof (opc_of_name (sl_op l)) as Hname.
  unfold append_by_opcode, log_data in Ha.
  destruct (opc_of (sl_op l));
    repeat (apply bind_Ok_iff in Ha as (? & ? & Ha));
    try discriminate Ha; injection Ha as <- _; try (by left);
    repeat match goal with
    | H : memory_range _ _ _ _ _ _ = Ok _ |- _ =>
        apply memory_range_window in H as (? & ? & ? & ? & ->); [|done..]
    end; right; eexists; (split; [reflexivity|]); rewrite ?address_from_word_mod.
  all: try match goal with H : stack_get _ 4 = Ok _ |- emits _ (UCall _) => apply stack_get_bottom in H as Hg; destruct Hg end.
  all: first [econstructor; [done| |done]|econstructor; [done|]];
    (eapply operands_of; [exact Hstack|]; cbn [length seq]; repeat (apply Forall2_cons; split; [eassumption|]); constructor).
Qed.

(** ** The single-pass extraction *)

Definition extract_typed (te : TraceExtract) : Prop :=
  Forall update_wf (te_state_updates te) ∧
  is_u64 (te_call_gas_total te) ∧ is_u64 (te_callee_gas_total te) ∧
  is_u64 (te_create_gas_total te) ∧ is_u64 (te_sstore_gas_total te) ∧
  is_u64 (te_refund_counter te).

Definition trace_state_typed (s : TraceState) : Prop :=
  Forall update_wf (ts_updates s) ∧
  is_u64 (ts_call_gas s) ∧ is_u64 (ts_callee_gas s) ∧ is_u64 (ts_create_gas s) ∧
  is_u64 (ts_sstore_gas s).

Lemma u64_add_typed a b : is_u64 (u64_add a b).
Proof. apply wrap64_range. Qed.

Lemma pop_calls_typed depth gas cs tr cg ce cs' tr' cg' ce' :
  is_u64 cg → is_u64 ce → pop_calls depth gas cs tr cg ce = (cs', tr', cg', ce') →
  is_u64 cg' ∧ is_u64 ce'.
Proof.
  revert tr cg ce. induction cs as [|[d i] cs IH]; cbn; intros tr cg ce Hcg Hce.
  { by intros [= <- <- <- <-]. }
  repeat case_match; try (by intros [= <- <- <- <-]); apply IH; auto using u64_add_typed.
Qed.

Lemma take_awaiting_typed s l : trace_state_typed s → trace_state_typed (take_awaiting_entry s l).
Proof. by destruct s. Qed.

Lemma close_pending_create_typed s l s' :
  trace_state_typed s → close_pending_create s l = Ok s' → trace_state_typed s'.
Proof.
  destruct s. unfold trace_state_typed. cbn. intros (?&?&?&?&?).
  repeat case_match; intros; inv_res; cbn; auto 10 using u64_add_typed; done.
Qed.

Lemma detect_reentry_typed o s l : trace_state_typed s → trace_state_typed (detect_reentry o s l).
Proof. by destruct s. Qed.

Lemma leave_frames_typed s l : trace_state_typed s → trace_state_typed (leave_frames s l).
Proof.
  destruct s. unfold trace_state_typed. cbn. intros (?&?&?&?&?).
  case_match; [|done]. destruct (pop_calls _ _ _ _ _ _) as [[[cs tr] cg] ce] eqn:Hp. cbn.
  apply pop_calls_typed in Hp as [??]; auto.
Qed.

Lemma record_update_typed s l : trace_state_typed s → trace_state_typed (record_update s l).
Proof.
  destruct s. unfold trace_state_typed. cbn. intros (?&?&?&?&?).
  case_match; cbn; auto 10 using u64_add_typed.
Qed.

Lemma extract_op_typed s l s' :
  log_typed l → trace_state_typed s → extract_op s l = Ok s' → trace_state_typed s'.
Proof.
  intros Hl Hs. destruct s as [ups td sk cs ct tr aw pe cg ce cr ss re]. unfold extract_op.
  case_match; [by intros [= <-]|].
  assert (Hnew : ∀ sk' ups', Forall update_wf ups' →
    trace_state_typed (mkTS ups' td sk' cs ct tr aw pe cg ce cr ss re)).
  { intros sk' ups' Hu. destruct Hs as [_ Hg]. by split. }
  assert (Hop : ∀ t, (if is_state_op (sl_op l) then
      match cs with
      | _ :: _ => Ok (mkTS ups td sk cs ct tr aw pe cg ce cr ss re)
      | [] =>
          '(ups', skipped) ← append_state_update_from_struct_log ups l;
          match skipped with
          | Some op => Ok (mkTS ups' td ({[op]} ∪ sk) cs ct tr aw pe cg ce cr ss re)
          | None =>
              let s' := mkTS ups' td sk cs ct tr aw pe cg ce cr ss re in
              if (length ups <? length ups')%nat then Ok (record_update s' l) else Ok s'
          end
      end else Ok (mkTS ups td sk cs ct tr aw pe cg ce cr ss re)) = Ok t → trace_state_typed t).
  { intros t. case_match; [|by intros [= <-]]. destruct cs; [|by intros [= <-]].
    destruct (append_state_update_from_struct_log ups l) as [[ups' skipped]| |] eqn:Ha;
      cbn [mbind res_bind]; [|done..].
    assert (Forall update_wf ups') by (eapply append_typed; [exact Hl|apply Hs|exact Ha]).
    destruct skipped; [by intros [= <-]; apply Hnew|].
    case_match; intros [= <-]; [|by apply Hnew].
    apply (record_update_typed (mkTS ups' td sk [] ct tr aw pe cg ce cr ss re) l), Hnew. done. }
  destruct (opc_of (sl_op l)); try exact (Hop s'); intros [= <-]; exact Hs.
Qed.

Lemma trace_step_typed o s l s' :
  log_typed l → trace_state_typed s → trace_step o s l = Ok s' → trace_state_typed s'.
Proof.
  intros Hl Hs Ht. unfold trace_step in Ht. inv_res.
  eapply extract_op_typed; [done| |done]. apply leave_frames_typed, detect_reentry_typed.
  eapply close_pending_create_typed; [|done]. by apply take_awaiting_typed.
Qed.

Lemma trace_refund_counter_typed logs : Forall log_typed logs → is_u64 (trace_refund_counter logs).
Proof.
  intros Hl. unfold trace_refund_counter. destruct (last logs) as [l|] eqn:Hlast; cbn; [|by_compute].
  apply last_Some in Hlast as [k ->]. apply Forall_app in Hl as [_ Hl].
  apply Forall_singleton in Hl as [_ Hr]. destruct (sl_refund_counter l); cbn in *; [done|by_compute].
Qed.

Lemma compute_state_updates_types trace origin te :
  Forall log_typed (df_struct_logs trace) →
  compute_state_updates trace origin = Ok te → extract_typed te.
Proof.
  intros Hl Hc. unfold compute_state_updates in Hc. inv_res.
  assert (Hs : trace_state_typed a).
  { eapply (foldM_inv trace_state_typed); [| |exact Heqr].
    - intros s l s' Hin Hs Hstep. rewrite Forall_forall in Hl. eapply trace_step_typed; eauto.
    - split; [constructor|]. repeat split; by_compute. }
  unfold finish_trace in Hc. repeat case_match; try done. injection Hc as <-.
  destruct Hs as (?&?&?&?&?). pose proof (trace_refund_counter_typed _ Hl). by unfold extract_typed; split_and!.
Qed.

Lemma leave_frames_updates s l : ts_updates (leave_frames s l) = ts_updates s.
Proof.
  destruct s. cbn. case_match; [|done]. by destruct (pop_calls _ _ _ _ _ _) as [[[??]?]?].
Qed.
Lemma record_update_updates s l : ts_updates (record_update s l) = ts_updates s.
Proof. destruct s. cbn. by case_match. Qed.

Lemma extract_op_emits s l s' :
  log_typed l → log_fits l → extract_op s l = Ok s' →
  ts_updates s' = ts_updates s ∨ ∃ u, ts_updates s' = ts_updates s ++ [u] ∧ emits l u.
Proof.
  intros Hl Hfits. destruct s as [ups td sk cs ct tr aw pe cg ce cr ss re]. unfold extract_op. cbn [ts_updates].
  case_match; [by intros [= <-]; left|].
  assert (Hop : ('(ups', skipped) ← append_state_update_from_struct_log ups l;
      match skipped with
      | Some op => Ok (mkTS ups' td ({[op]} ∪ sk) [] ct tr aw pe cg ce cr ss re)
      | None =>
          let s' := mkTS ups' td sk [] ct tr aw pe cg ce cr ss re in
          if (length ups <? length ups')%nat then Ok (record_update s' l) else Ok s'
      end) = Ok s' → ts_updates s' = ups ∨ ∃ u, ts_updates s' = ups ++ [u] ∧ emits l u).
  { intros Hx. apply bind_Ok_iff in Hx as ([ups' skipped] & Ha%append_emits & Hx); [|done..].
    assert (ts_updates s' = ups') as ->; [|exact Ha].
    destruct skipped; [by injection Hx as <-|]. destruct (_ <? _)%nat; injection Hx as <-; [|done].
    by case_match. }
  destruct (opc_of (sl_op l)); try (by intros [= <-]; left);
    (destruct (is_state_op (sl_op l)); [|by intros [= <-]; left]);
    (destruct cs; [exact Hop|by intros [= <-]; left]).
Qed.

Lemma trace_step_emits o s l s' :
  log_typed l → log_fits l → trace_step o s l = Ok s' →
  ts_updates s' = ts_updates s ∨ ∃ u, ts_updates s' = ts_updates s ++ [u] ∧ emits l u.
Proof.
  intros Hl Hfits Ht. unfold trace_step in Ht. apply bind_Ok_iff in Ht as (s1 & Hs1 & Ht).
  apply extract_op_emits in Ht; [|done..]. rewrite leave_frames_updates in Ht.
  assert (ts_updates (detect_reentry o s1 l) = ts_updates s) as Heq; [|by rewrite Heq in Ht].
  destruct s, s1. unfold close_pending_create, take_awaiting_entry in Hs1. cbn.
  repeat case_match; try done; by injection Hs1.
Qed.

(** *** What is never left out

    The walk has at most one call open; at depth 1 it has none, and follows the log. *)

Definition walk_shallow (s : TraceState) : Prop :=
  1 <= ts_target_depth s ∧
  match ts_call_stack s with
  | [] => True
  | [(d, _)] => 1 <= d < ts_target_depth s
  | _ => False
  end.

Lemma leave_frames_shallow s l :
  1 <= sl_depth l → walk_shallow s →
  walk_shallow (leave_frames s l) ∧ (sl_depth l = 1 → ts_target_depth (leave_frames s l) = 1).
Proof.
  destruct s as [ups td sk cs ct tr aw pe cg ce cr ss re]. unfold walk_shallow. cbn. intros Hd [Htd Hcs].
  destruct (Z.ltb_spec (sl_depth l) td); [|cbn; split; [done|lia]].
  destruct cs as [|[d idx] [|]]; [by cbn|cbn|done].
  destruct (Z.leb_spec (sl_depth l) d); [by destruct (tr !! idx); cbn|]. cbn. split; [lia|done].
Qed.

Lemma step_shallow o s l s1 :
  close_pending_create (take_awaiting_entry s l) l = Ok s1 → walk_shallow s →
  walk_shallow (detect_reentry o s1 l).
Proof.
  destruct s, s1. unfold close_pending_create, take_awaiting_entry, walk_shallow. cbn.
  intros Hc Hs. assert (ts_target_depth0 = ts_target_depth ∧ ts_call_stack0 = ts_call_stack) as [-> ->]; [|done].
  repeat case_match; try done; by injection Hc.
Qed.

Lemma record_update_shallow s l :
  ts_call_stack s = [] → 1 <= sl_depth l → walk_shallow s → walk_shallow (record_update s l).
Proof.
  destruct s. cbn. intros -> Hd Hs. case_match; try exact Hs. split; cbn; lia.
Qed.

Lemma extract_op_shallow s l s' :
  1 <= sl_depth l → extract_op s l = Ok s' → walk_shallow s → walk_shallow s'.
Proof.
  intros Hd. destruct s as [ups td sk cs ct tr aw pe cg ce cr ss re]. unfold extract_op.
  destruct (Z.eqb_spec (sl_depth l) td) as [<-|_]; cbn [negb]; [|by intros [= <-]].
  assert (Hdeleg : ∀ ct', walk_shallow (mkTS ups (sl_depth l) sk cs ct tr aw pe cg ce cr ss re) →
    walk_shallow (mkTS ups (sl_depth l + 1) sk cs ct' tr aw pe cg ce cr ss re)).
  { unfold walk_shallow. cbn. intros ct' [_ Hs]. split; [lia|]. destruct cs as [|[d i] [|]]; [done|lia|done]. }
  assert (Hok : ∀ x : TraceState, (Ok x : Result TraceState) = Ok s' → walk_shallow x → walk_shallow s')
    by (by intros x [= ->]).
  destruct (opc_of (sl_op l)) eqn:Hop;
    try (by intros [= <-]; apply Hdeleg);
    (destruct (is_state_op (sl_op l)); [|by intros [= <-]]);
    (destruct cs; [|by intros [= <-]]);
    intros Hx Hs; apply bind_Ok_iff in Hx as ([ups2 skipped] & _ & Hx);
    (destruct skipped; [by injection Hx as <-|]); cbv zeta in Hx; destruct (_ <? _)%nat;
    (eapply Hok; [exact Hx|]); first [by apply record_update_shallow|exact Hs].
Qed.

(** An opcode that changes the state of the contract itself, in the frame of the transaction, with its memory. *)
Definition root_op (l : StructLog) : Prop :=
  sl_depth l = 1 ∧ is_Some (sl_memory l) ∧
  sl_op l ∈ ["SSTORE"; "CALL"; "CREATE"; "CREATE2"; "LOG0"; "LOG1"; "LOG2"; "LOG3"; "LOG4"]%string.
#[export] Instance root_op_dec l : Decision (root_op l).
Proof. unfold root_op. apply _. Defined.

Lemma append_pushes l ups ups' skipped :
  root_op l → append_state_update_from_struct_log ups l = Ok (ups', skipped) → ups' ≠ ups.
Proof.
  intros (_ & [m Hm] & Hop). unfold append_state_update_from_struct_log. rewrite Hm.
  intros (stack & _ & Ha)%bind_Ok_iff. apply bind_Ok_iff in Ha as (memory & _ & Ha).
  assert (∀ u, ups ++ [u] ≠ ups) as Hne.
  { intros u Heq%(f_equal length). rewrite length_app in Heq. cbn in Heq. lia. }
  unfold append_by_opcode in Ha.
  repeat (apply elem_of_cons in Hop as [Hop|Hop];
    [rewrite Hop in Ha; unfold opc_of in Ha; cbn [assoc_name opc_names String.eqb Ascii.eqb Bool.eqb] in Ha; inv_res; done|]).
  by apply elem_of_nil in Hop.
Qed.

Lemma root_op_state l : root_op l → is_state_op (sl_op l) = true.
Proof.
  intros (_ & _ & Hop). repeat (apply elem_of_cons in Hop as [->|Hop]; [done|]). by apply elem_of_nil in Hop.
Qed.

Lemma extract_op_root s l s' :
  walk_shallow s → ts_target_depth s = 1 → root_op l → extract_op s l = Ok s' → ts_updates s' ≠ ts_updates s.
Proof.
  intros [_ Hs] Htd Hroot. pose proof (root_op_state l Hroot) as Hstate.
  destruct s as [ups td sk cs ct tr aw pe cg ce cr ss re]. cbn in Hs, Htd. subst td. unfold extract_op.
  cbn [ts_updates]. destruct cs as [|[d i] [|]]; [|lia|done].
  rewrite (proj2 (Z.eqb_eq _ 1)) by apply Hroot. cbn [negb].
  assert (Hop : ('(ups', skipped) ← append_state_update_from_struct_log ups l;
      match skipped with
      | Some op => Ok (mkTS ups' 1 ({[op]} ∪ sk) [] ct tr aw pe cg ce cr ss re)
      | None =>
          let s' := mkTS ups' 1 sk [] ct tr aw pe cg ce cr ss re in
          if (length ups <? length ups')%nat then Ok (record_update s' l) else Ok s'
      end) = Ok s' → ts_updates s' ≠ ups).
  { intros Hx. apply bind_Ok_iff in Hx as ([ups' skipped] & Ha%append_pushes & Hx); [|done].
    assert (ts_updates s' = ups') as ->; [|exact Ha].
    destruct skipped; [by injection Hx as <-|].
    destruct (_ <? _)%nat; injection Hx as <-; [|done]. by case_match. }
  rewrite Hstate. unfold is_state_op in Hstate. clear Hs Hroot.
  destruct (opc_of (sl_op l)) eqn:Hopc; try discriminate Hstate; exact Hop.
Qed.

Lemma trace_step_shallow o s l s' :
  1 <= sl_depth l → trace_step o s l = Ok s' → walk_shallow s →
  walk_shallow s' ∧ (root_op l → ts_updates s' ≠ ts_updates s).
Proof.
  intros Hd Ht Hs. unfold trace_step in Ht. apply bind_Ok_iff in Ht as (s1 & Hs1 & Ht).
  pose proof (step_shallow o _ _ _ Hs1 Hs) as Hs2.
  assert (ts_updates (detect_reentry o s1 l) = ts_updates s) as Heq.
  { destruct s, s1. unfold close_pending_create, take_awaiting_entry in Hs1. cbn.
    repeat case_match; try done; by injection Hs1. }
  destruct (leave_frames_shallow _ l Hd Hs2) as [Hs3 Htd].
  split; [by eapply extract_op_shallow|]. intros Hroot. rewrite <-Heq, <-(leave_frames_updates (detect_reentry o s1 l) l).
  apply (extract_op_root _ l); [done|by apply Htd, Hroot|done|done].
Qed.

(** The updates that a run of the walk adds are what some of its logs emit, in order, and of those that change
    the contract's own state all. *)
Lemma trace_run_emits o logs s s' :
  Forall log_typed logs → Forall log_fits logs → Forall (λ l, 1 <= sl_depth l) logs → walk_shallow s →
  foldM (trace_step o) logs s = Ok s' →
  ∃ picked us, filter root_op logs `sublist_of` picked ∧ picked `sublist_of` logs ∧
    ts_updates s' = ts_updates s ++ us ∧ Forall2 emits picked us.
Proof.
  intros Hl Hfits Hdeep. revert s. induction logs as [|l logs IH]; intros s Hs Hrun.
  { injection Hrun as <-. exists [], []. by rewrite app_nil_r. }
  apply Forall_cons in Hl as [Hl1 Hl]. apply Forall_cons in Hfits as [Hf1 Hfits].
  apply Forall_cons in Hdeep as [Hd1 Hdeep].
  cbn [foldM] in Hrun. apply bind_Ok_iff in Hrun as (s1 & Hs1 & Hrun).
  pose proof (trace_step_emits _ _ _ _ Hl1 Hf1 Hs1) as Hu.
  destruct (trace_step_shallow _ _ _ _ Hd1 Hs1 Hs) as [Hsh Hroot].
  apply IH in Hrun as (picked & us & Hall & Hsub & -> & Hus); [|done..]. rewrite filter_cons.
  destruct Hu as [Hsame|(u & -> & Hu)].
  - exists picked, us. rewrite decide_False by (by intros Hr; apply Hroot in Hr). rewrite Hsame.
    split_and!; [done|by constructor|done|done].
  - exists (l :: picked), (u :: us). rewrite <-app_assoc.
    split_and!; [by case_decide; constructor|by constructor|done|by constructor].
Qed.

(** C18: what the single-pass extraction of a trace of words lists is, in order, what opcodes of the trace did:
    each update is that of a log of its own, with the operands the EVM gives the opcode, from the top of the
    stack, and the bytes of its range of memory, zero beyond the end; no two updates come from one log, and no
    opcode that changes state in the frame of the transaction is left out, as far as its memory was recorded.
    The updates are values of their Solidity structs, and the gas totals fit [u64]. *)
Theorem compute_state_updates_decoded trace origin te :
  Forall log_typed (df_struct_logs trace) → Forall log_fits (df_struct_logs trace) →
  Forall (λ l, 1 <= sl_depth l) (df_struct_logs trace) →
  compute_state_updates trace origin = Ok te →
  (∃ picked, filter root_op (df_struct_logs trace) `sublist_of` picked ∧
    picked `sublist_of` df_struct_logs trace ∧ Forall2 emits picked (te_state_updates te)) ∧
  extract_typed te.
Proof.
  intros Hl Hfits Hdeep Hc. split; [|by eapply compute_state_updates_types].
  unfold compute_state_updates in Hc. apply bind_Ok_iff in Hc as (s & Hrun & Hc).
  apply trace_run_emits in Hrun as (picked & us & Hroot & Hsub & Hus & Hall); [|done..].
  exists picked. split; [done|]. split; [done|]. unfold finish_trace in Hc. repeat case_match; try done.
  injection Hc as <-. cbn. by rewrite Hus.
Qed.

(** ** The prestate net form *)

Definition log_frame_typed (l : CallLogFrame) : Prop :=
  holds (Forall is_u256) (lf_topics l) ∧ holds (Forall is_byte) (lf_data l).

(** Every log of the call tree carries words and bytes. *)
Inductive call_frame_typed : CallFrame → Prop :=
  | cft_frame f :
      Forall log_frame_typed (cf_logs f) → (∀ c, c ∈ cf_calls f → call_frame_typed c) →
      call_frame_typed f.

(** The keys and values of a storage map are words. *)
Definition slots_typed (m : gmap Z Z) : Prop := map_Forall (λ k v, is_u256 k ∧ is_u256 v) m.
Definition journal_typed (j : gmap Z (gmap Z Z)) : Prop := map_Forall (λ _, slots_typed) j.
Definition diff_typed (d : DiffMode) : Prop := journal_typed (dm_pre d) ∧ journal_typed (dm_post d).

Lemma is_u256_0 : is_u256 0.
Proof. by_compute. Qed.

Lemma slot_value_typed m k : slots_typed m → is_u256 (slot_value m k).
Proof.
  intros Hm. unfold slot_value. destruct (m !! k) eqn:Hk; cbn; [by eapply Hm|apply is_u256_0].
Qed.

Lemma storage_of_typed j a : journal_typed j → slots_typed (storage_of j a).
Proof.
  intros Hj. unfold storage_of. destruct (j !! a) eqn:Ha; cbn; [by eapply Hj|].
  intros k v Hk. by rewrite lookup_empty in Hk.
Qed.

Lemma store_typed slot value : is_u256 slot → is_u256 value → update_wf (UStore (mkStore slot value)).
Proof.
  intros Hs Hv. unfold update_wf; cbn [update_fields store_slot store_value].
  repeat (apply Forall_cons; split); try apply Forall_nil_2; by apply word_fixed_bytes.
Qed.

Lemma net_stores_typed pre post :
  slots_typed pre → slots_typed post → Forall update_wf (net_stores pre post).
Proof.
  intros Hpre Hpost. apply Forall_forall. intros u Hu. unfold net_stores in Hu.
  apply list_elem_of_In, in_flat_map in Hu as (k & Hk%list_elem_of_In & Hu).
  case_match; [by destruct Hu|]. destruct Hu as [<-|[]].
  apply store_typed; [|by apply slot_value_typed].
  apply touched_elem in Hk as [[v Hv]|[v Hv]]; [exact (proj1 (Hpre _ _ Hv))|exact (proj1 (Hpost _ _ Hv))].
Qed.

Lemma log_to_update_typed l : log_frame_typed l → update_wf (log_to_update l).
Proof.
  intros [Ht Hd]. unfold log_to_update.
  assert (Forall is_u256 (default [] (lf_topics l))) as Hts.
  { destruct (lf_topics l); [exact Ht|constructor]. }
  assert (abi_wf (ABytes (default [] (lf_data l)))) as Hds.
  { destruct (lf_data l); [exact Hd|constructor]. }
  clear Ht Hd. unfold update_wf.
  repeat case_match; repeat match goal with
    | H : Forall _ (_ :: _) |- _ => apply Forall_cons in H as [??] end;
  repeat (apply Forall_cons; split); try apply Forall_nil_2; try exact Hds; by apply word_fixed_bytes.
Qed.

Lemma insert_by_typed {A} (P : A → Prop) le x l :
  P x → Forall P l → Forall P (insert_by le x l).
Proof.
  intros Hx Hl. induction Hl as [|y l Hy Hl IH]; cbn; [by constructor|].
  destruct (le x y); repeat constructor; auto.
Qed.

Lemma sort_by_typed {A} (P : A → Prop) le l : Forall P l → Forall P (sort_by le l).
Proof. intros Hl. induction Hl; cbn; [constructor|]. by apply insert_by_typed. Qed.

Lemma span_before_typed (P : CallLogFrame → Prop) i l p r :
  Forall P l → span_before i l = (p, r) → Forall P p ∧ Forall P r.
Proof.
  intros Hl. revert p r. induction Hl as [|x l Hx Hl IH]; cbn; intros p r.
  { intros [= <- <-]. auto. }
  case_match; [|intros [= <- <-]; auto].
  destruct (span_before i l) as [p' r'] eqn:Hs. intros [= <- <-].
  destruct (IH _ _ eq_refl). auto.
Qed.

Lemma collect_logs_typed f :
  call_frame_typed f → ∀ out, Forall log_frame_typed out →
  Forall log_frame_typed (collect_target_depth_logs f out).
Proof.
  induction 1 as [f Hlogs Hcalls IH]. intros out Hout.
  destruct f as [typ to err rev calls logs]. cbn [cf_calls cf_logs] in *. cbn [collect_target_depth_logs cf_calls cf_logs].
  assert (Hs : Forall log_frame_typed (sort_by position_le logs)) by by apply sort_by_typed.
  clear Hlogs Hcalls. revert Hs out Hout. generalize (sort_by position_le logs) as ls. generalize 0 as i.
  induction calls as [|c calls IHc]; intros i ls Hs out Hout.
  { by apply Forall_app. }
  destruct (span_before i ls) as [pushed rest] eqn:Hsp.
  eapply span_before_typed in Hsp as [Hp Hr]; [|done].
  assert (Forall log_frame_typed (out ++ pushed)) as Hop by by apply Forall_app.
  apply IHc; [|done|].
  - intros c' Hc'. apply IH. by right.
  - destruct (_ && _); [|done]. apply IH; [by left|done].
Qed.

(** The net form of a typed diff and call tree. *)
Lemma prestate_program_typed consumer diff frame :
  diff_typed diff → call_frame_typed frame →
  Forall update_wf (build_state_updates_from_prestate consumer diff frame).
Proof.
  intros [Hpre Hpost] Hf. unfold build_state_updates_from_prestate. apply Forall_app; split.
  - apply net_stores_typed; by apply storage_of_typed.
  - apply Forall_fmap. eapply Forall_impl; [|apply log_to_update_typed].
    unfold ordered_target_depth_logs.
    assert (Forall log_frame_typed (collect_target_depth_logs frame [])).
    { apply collect_logs_typed; [done|constructor]. }
    case_match; [by apply sort_by_typed|done].
Qed.
End typing.
