(* ===== verification/SplitTyping.v ===== *)
(** * Typing of the frame-tree split

    The walk of [split_frame_tree] keeps every program, every open frame and every journal well-typed,
    and so do the passes after it; the frames of an extracted tree can then be hashed with no
    hypothesis on their fields, and the string a leaf hashes determines its frame. *)

From S2P Require Import Prelude.
From S2P Require Import Types.
From S2P Require Import Instances.
From S2P Require Import Encoding.
From S2P Require Import Trace.
From S2P Require Import SimProfile.
From S2P Require Import Merkle.
From S2P Require Import Scan.
From S2P Require Import FrameTree.
From S2P Require Import Prune.
From S2P Require Import EncodeTree.
From S2P Require Import Typing.

(** ** The types of the walk's state *)

Definition bump_typed (b : Bump) : Prop :=
  match b with BFirst index => is_u256 index | BUndecided | BDisqualified => True end.

Definition candidates_typed (cands : gmap nat Candidate) : Prop :=
  map_Forall (λ _ c, bump_typed (cand_bump c)) cands.

Definition program_typed (p : ProgramState) : Prop :=
  is_address (ps_target p) ∧ is_address (ps_caller p) ∧ is_u256 (ps_value p) ∧
  is_u256 (ps_calldata_hash p) ∧ holds is_u256 (ps_transition_index p) ∧
  holds (Forall update_wf) (ps_updates p) ∧ holds (λ c, update_wf (UCall c)) (ps_fallback p).

Definition walk_frame_typed (f : WalkFrame) : Prop :=
  holds is_address (wf_storage_ctx f) ∧ journal_typed (wf_journal f) ∧
  Forall update_wf (wf_out f).

Definition pending_typed (p : PendingFrame) : Prop := holds is_address (pf_storage_ctx p).

Definition split_typed (s : SplitState) : Prop :=
  Forall program_typed (sp_programs s) ∧ Forall walk_frame_typed (sp_frames s) ∧
  holds pending_typed (sp_pending s).

(** A frame of the tree: values of the fields of its leaf's preimage, and a program of values. *)
Definition frame_program_typed (f : FrameProgram) : Prop :=
  is_address (fp_target f) ∧ is_address (fp_caller f) ∧ is_u256 (fp_value f) ∧
  is_u256 (fp_calldata_hash f) ∧ holds is_u256 (fp_transition_index f) ∧
  Forall update_wf (fp_updates f).

Definition tree_typed (t : FrameTreeExtract) : Prop :=
  Forall frame_program_typed (fte_frames t) ∧
  is_u64 (fte_call_gas_total t) ∧ is_u64 (fte_callee_gas_total t) ∧
  is_u64 (fte_create_gas_total t).

(** Open a typed value's fields. *)
Ltac typed_fields :=
  repeat match goal with
  | H : program_typed _ |- _ => destruct H as (?&?&?&?&?&?&?)
  | H : walk_frame_typed _ |- _ => destruct H as (?&?&?)
  | H : Forall _ (_ :: _) |- _ => apply Forall_cons in H as [??]
  end.

(** A field update that leaves the other fields of a typed value alone. *)
Ltac keep_typed :=
  typed_fields; unfold program_typed, walk_frame_typed, pending_typed; cbn; split_and!;
  solve [done | auto].

(** ** The scan *)

Section scan_typing.

Definition scan_typed (s : ScanState) : Prop :=
  candidates_typed (ss_candidates s) ∧ holds is_u256 (ss_root_index s).

Lemma stack_top_word stack n w : Forall is_u256 stack → stack_top stack n = Some w → is_u256 w.
Proof.
  intros Hs. unfold stack_top. case_match; [|done]. intros Hl.
  rewrite Forall_lookup in Hs. by eapply Hs.
Qed.

Lemma sat_sub_1_word w : is_u256 w → is_u256 (sat_sub w 1).
Proof. u64_lia. Qed.

Lemma alter_candidates_typed f i cands :
  (∀ c, bump_typed (cand_bump c) → bump_typed (cand_bump (f c))) →
  candidates_typed cands → candidates_typed (alter f i cands).
Proof.
  intros Hf Hc j c Hj. destruct (decide (i = j)) as [<-|Hne].
  - rewrite lookup_alter_eq in Hj. destruct (cands !! i) eqn:Hi; [|done]. injection Hj as <-.
    apply Hf. by eapply Hc.
  - rewrite lookup_alter_ne in Hj by done. by eapply Hc.
Qed.

Lemma set_bump_typed b c : bump_typed b → bump_typed (cand_bump c) → bump_typed (cand_bump (set_bump b c)).
Proof. intros Hb Hc. unfold set_bump. case_match eqn:He; cbn; by rewrite ?He. Qed.

Lemma scan_write_typed i scope stack l cands ri cands' ri' :
  Forall is_u256 stack → candidates_typed cands → holds is_u256 ri →
  scan_write i scope stack l cands ri = Ok (cands', ri') →
  candidates_typed cands' ∧ holds is_u256 ri'.
Proof.
  intros Hs Hc Hr. unfold scan_write.
  destruct (opc_of (sl_op l)); try (by intros [= <- <-]).
  - destruct (stack_top stack 0) eqn:H0; [|done]. destruct (stack_top stack 1) as [v|] eqn:H1; [|done].
    assert (is_u256 (sat_sub v 1)) by (apply sat_sub_1_word; by eapply stack_top_word).
    destruct scope as [[|call]|]; [case_match| |]; intros [= <- <-]; split; try done.
    apply alter_candidates_typed; [|done]. intros c. apply set_bump_typed. by case_match.
  - destruct scope as [[|call]|]; intros [= <- <-]; split; try done.
    by apply alter_candidates_typed.
  - destruct scope as [[|call]|]; intros [= <- <-]; split; try done.
    by apply alter_candidates_typed.
Qed.

Lemma scan_observe_typed scope l cands :
  candidates_typed cands → candidates_typed (scan_observe scope l cands).
Proof.
  intros Hc. unfold scan_observe. repeat case_match; try done.
  apply alter_candidates_typed; [|done]. intros c. by apply set_bump_typed.
Qed.

Lemma scan_open_typed i ctx scope stack l cands cands' pending :
  candidates_typed cands → scan_open i ctx scope stack l cands = (cands', pending) →
  candidates_typed cands'.
Proof.
  intros Hc. unfold scan_open. case_match; intros [= <- <-]; try done.
  by apply map_Forall_insert_2.
Qed.

Lemma scan_step_typed s i l s' :
  log_typed l → scan_typed s → scan_step s (i, l) = Ok s' → scan_typed s'.
Proof.
  intros [Hl _] Hs. unfold scan_step. intros Ht. inv_res.
  assert (Htp : scan_typed (scan_take_pending s l)).
  { destruct s as [cands ri frames pending], Hs as [Hc Hr]. unfold scan_take_pending.
    repeat case_match; split; cbn in *; try done; by apply map_Forall_delete. }
  destruct (scan_take_pending s l) as [cands ri frames pending], Htp as [Hc Hr]. cbn in *.
  inv_res. case_match; [by injection Ht as <-|]. inv_res.
  assert (Forall is_u256 (default [] (sl_stack l))).
  { destruct (sl_stack l); [exact Hl|constructor]. }
  case_match.
  match goal with H : scan_write _ _ _ _ _ _ = Ok _ |- _ =>
    apply scan_write_typed in H as [Hc' Hr']; [|done..] end.
  destruct (scan_open _ _ _ _ _ _) as [cands' pending'] eqn:Ho. inv_res. split; [|done].
  eapply scan_open_typed; [|exact Ho]. by apply scan_observe_typed.
Qed.

Lemma elem_of_enumerate {A} (l : list A) i x : (i, x) ∈ enumerate l → x ∈ l.
Proof.
  unfold enumerate. intros Hin. apply list_elem_of_In, in_combine_r in Hin. by apply list_elem_of_In.
Qed.

Lemma scan_candidates_typed logs root cands ri :
  Forall log_typed logs → scan_candidates logs root = Ok (cands, ri) →
  candidates_typed cands ∧ holds is_u256 ri.
Proof.
  intros Hl Hs. unfold scan_candidates in Hs. inv_res.
  assert (scan_typed a) as [??]; [|done].
  eapply (foldM_inv scan_typed); [| |exact Heqr].
  - intros s [i l] s' Hin Hs Hstep. eapply scan_step_typed; [|done..].
    rewrite Forall_forall in Hl. eapply Hl, elem_of_enumerate. exact Hin.
  - split; [apply map_Forall_empty|done].
Qed.
End scan_typing.

(** ** The walk *)

Section split_typing.
Context `{TypeLaws}.

Lemma program_at_typed P id p :
  Forall program_typed P → program_at P id = Ok p → program_typed p.
Proof.
  intros HP. unfold program_at, expect. case_match eqn:Hid; [|done]. intros [= <-].
  rewrite Forall_lookup in HP. by eapply HP.
Qed.

Lemma insert_typed P id p : Forall program_typed P → program_typed p → Forall program_typed (<[id := p]> P).
Proof. intros. by apply Forall_insert. Qed.

Lemma update_program_typed P id f P' :
  (∀ p, program_typed p → program_typed (f p)) →
  Forall program_typed P → update_program P id f = Ok P' → Forall program_typed P'.
Proof.
  intros Hf HP Hu. unfold update_program in Hu. inv_res.
  apply insert_typed; [done|]. apply Hf. by eapply program_at_typed.
Qed.

Lemma add_child_call_gas_typed P parent gas P' :
  Forall program_typed P → add_child_call_gas P parent gas = Ok P' → Forall program_typed P'.
Proof.
  intros HP. unfold add_child_call_gas. case_match; [|by intros [= <-]].
  apply update_program_typed; [|done]. intros p Hp. keep_typed.
Qed.

Lemma slots_union_typed m n : slots_typed m → slots_typed n → slots_typed (m ∪ n).
Proof.
  intros Hm Hn k v Hk. apply lookup_union_Some_raw in Hk as [Hk|[_ Hk]]; [by eapply Hm|by eapply Hn].
Qed.

Lemma journal_slots_typed j a : journal_typed j → slots_typed (default ∅ (j !! a)).
Proof. apply storage_of_typed. Qed.

Lemma merge_journal_typed j k : journal_typed j → journal_typed k → journal_typed (merge_journal j k).
Proof.
  intros Hj Hk a m Ha. unfold merge_journal in Ha. rewrite lookup_union_with in Ha.
  destruct (j !! a) as [m1|] eqn:H1, (k !! a) as [m2|] eqn:H2; cbn in Ha; simplify_eq.
  - apply slots_union_typed; [by eapply Hk|by eapply Hj].
  - by eapply Hj.
  - by eapply Hk.
Qed.

Lemma visible_image_typed F target :
  Forall walk_frame_typed F → slots_typed (visible_image F target).
Proof.
  intros HF. unfold visible_image. induction HF as [|f F Hf HF IH]; cbn; [apply map_Forall_empty|].
  apply slots_union_typed; [|exact IH]. apply journal_slots_typed, Hf.
Qed.

Lemma flush_slots_typed items out view :
  Forall (λ kv, is_u256 kv.1 ∧ is_u256 kv.2) items → Forall update_wf out →
  Forall update_wf (fold_left flush_slot items (out, view)).1.
Proof.
  intros Hi. revert out view. induction Hi as [|[k v] items [Hk Hv] Hi IH]; intros out view Hout; [done|].
  cbn. case_match; apply IH; [done|]. apply Forall_app; split; [done|].
  apply Forall_singleton. by apply store_typed.
Qed.

Lemma flush_slice_typed F P F' :
  Forall walk_frame_typed F → flush_slice F P = Ok F' → Forall walk_frame_typed F'.
Proof.
  intros HF. unfold flush_slice. destruct F as [|cur rest]; [done|]. cbn [top_frame mbind res_bind].
  destruct (wf_program cur) as [id|]; [|done]. cbn [expect mbind res_bind].
  destruct (program_at P id) as [p| |]; [|done..]. cbn [mbind res_bind].
  assert (Hs : slots_typed (visible_image (cur :: rest) (ps_target p))) by by apply visible_image_typed.
  pose proof (flush_slots_typed (map_items (visible_image (cur :: rest) (ps_target p)))
    (wf_out cur) (wf_emitted_view cur)) as Hout.
  destruct (fold_left _ _ _) as [out view]. intros [= <-]. typed_fields.
  constructor; [|done]. split; [done|]. split; [done|].
  apply Hout; [|done]. apply Forall_forall. intros [k v] Hkv. apply elem_of_map_items in Hkv.
  by apply (Hs k v).
Qed.

Lemma forget_slots_typed P J f f' :
  walk_frame_typed f → forget_slots P J f = Ok f' → walk_frame_typed f'.
Proof.
  intros Hf. unfold forget_slots. case_match; [|by intros [= <-]]. intros Hs. inv_res.
  case_match; inv_res; [|done]. keep_typed.
Qed.

Lemma mapM_Forall {A B} (P : A → Prop) (Q : B → Prop) (f : A → Result B) l k :
  (∀ a b, P a → f a = Ok b → Q b) → Forall P l → mapM f l = Ok k → Forall Q k.
Proof.
  intros Hf Hl Hk. apply mapM_Ok_Forall2 in Hk. apply Forall_forall. intros b Hb.
  apply list_elem_of_lookup in Hb as [i Hi]. destruct (Forall2_lookup_r _ _ _ i b Hk Hi) as (a & Ha & Hf').
  eapply Hf; [|exact Hf']. rewrite Forall_lookup in Hl. by eapply Hl.
Qed.

Lemma forget_overwritten_typed F P J F' :
  Forall walk_frame_typed F → forget_overwritten F P J = Ok F' → Forall walk_frame_typed F'.
Proof. apply mapM_Forall. intros f f'. apply forget_slots_typed. Qed.

Lemma new_frame_typed p depth gas first :
  pending_typed p → walk_frame_typed (new_frame p depth gas first).
Proof. intros Hp. split; [exact Hp|]. split; [apply map_Forall_empty|constructor]. Qed.

Lemma charge_typed P F gas (upd : WalkFrame → WalkFrame) P' F' :
  (∀ f, walk_frame_typed f → walk_frame_typed (upd f)) →
  Forall program_typed P → Forall walk_frame_typed F →
  ('(caller, rest) ← top_frame F;
   programs ← add_child_call_gas P (wf_program (upd caller)) gas;
   Ok (programs, upd caller :: rest)) = Ok (P', F') →
  Forall program_typed P' ∧ Forall walk_frame_typed F'.
Proof.
  intros Hupd HP HF. destruct F as [|f rest]; [done|]. cbn [top_frame mbind res_bind]. intros Hc.
  inv_res. apply Forall_cons in HF as [Hf Hrest]. split.
  - by eapply add_child_call_gas_typed.
  - constructor; auto.
Qed.

Lemma close_inline_typed P F p l P' F' :
  Forall program_typed P → Forall walk_frame_typed F → close_inline P F p l = Ok (P', F') →
  Forall program_typed P' ∧ Forall walk_frame_typed F'.
Proof.
  intros HP HF. unfold close_inline. intros Hc. apply bind_Ok_iff in Hc as (_ & _ & Hc). apply bind_Ok_iff in Hc as (_ & _ & Hc).
  case_match; [|by injection Hc as <- <-].
  eapply (charge_typed P F _ (λ caller, if pf_emitted_create p
    then set_wf_create_gas (u64_add (wf_create_gas caller) _) caller
    else set_wf_call_gas (u64_add (wf_call_gas caller) _) caller)); [|done..|exact Hc].
  intros f Hf. case_match; keep_typed.
Qed.

Lemma open_pending_typed s l s' :
  split_typed s → open_pending s l = Ok s' → split_typed s'.
Proof.
  destruct s as [P F X sk]. intros (HP & HF & HX). unfold open_pending. cbn in *.
  destruct X as [p|]; [|by intros [= <-]]. case_match.
  - intros [= <-]. split; [done|]. split; [|done]. constructor; [|done]. by apply new_frame_typed.
  - destruct (close_inline P F p l) as [[P' F']| |] eqn:Hc; [|done..]. cbn. intros [= <-].
    apply close_inline_typed in Hc as [??]; [|done..]. unfold split_typed; cbn; by split_and!.
Qed.

Lemma drop_from_typed P first P' :
  Forall program_typed P → drop_from P first = Ok P' → Forall program_typed P'.
Proof.
  intros HP. unfold drop_from. case_match; [|done]. intros [= <-].
  apply Forall_app; split; [by apply Forall_take|]. apply Forall_fmap.
  eapply Forall_impl; [by apply Forall_drop|]. intros p Hp. cbn. keep_typed.
Qed.

Lemma charge_caller_typed P f F l P' F' :
  Forall program_typed P → Forall walk_frame_typed F → charge_caller P f F l = Ok (P', F') →
  Forall program_typed P' ∧ Forall walk_frame_typed F'.
Proof.
  intros HP HF. unfold charge_caller. case_match; [|by intros [= <- <-]].
  eapply (charge_typed P F _ (λ caller, if wf_emitted_create f then _ else _)); [|done..].
  intros g Hg. cbn. case_match; keep_typed.
Qed.

Lemma merge_into_parent_typed F J F' :
  Forall walk_frame_typed F → journal_typed J → merge_into_parent F J = Ok F' →
  Forall walk_frame_typed F'.
Proof.
  intros HF HJ. unfold merge_into_parent. destruct F as [|f rest]; [done|]. cbn. intros [= <-].
  typed_fields. constructor; [|done]. split; [done|]. split; [by apply merge_journal_typed|done].
Qed.

Lemma finish_program_typed f native callee p :
  walk_frame_typed f → program_typed p → program_typed (finish_program f native callee p).
Proof. intros Hf Hp. keep_typed. Qed.

Lemma removelast_typed us : Forall update_wf us → Forall update_wf (removelast us).
Proof.
  induction us as [|u us _] using rev_ind; [done|]. rewrite removelast_last.
  by intros [? _]%Forall_app.
Qed.

Lemma close_nested_typed P f F start success l P' F' :
  walk_frame_typed f → Forall program_typed P → Forall walk_frame_typed F →
  close_nested P f F start success l = Ok (P', F') →
  Forall program_typed P' ∧ Forall walk_frame_typed F'.
Proof.
  intros Hf HP HF Hc. unfold close_nested in Hc. apply bind_Ok_iff in Hc as (id & _ & Hc).
  destruct success.
  - inv_res. split.
    + eapply add_child_call_gas_typed; [|done]. eapply update_program_typed; [|done..].
      intros p. by apply finish_program_typed.
    + eapply merge_into_parent_typed; [|apply Hf|done]. by eapply forget_overwritten_typed.
  - destruct F as [|g rest]; [done|]. cbn in Hc. repeat case_match; try done. injection Hc as <- <-.
    typed_fields. split; [done|]. constructor; [|done]. split; [done|]. split; [done|]. cbn.
    by apply removelast_typed.
Qed.

Lemma close_plain_typed P f F success P' F' :
  walk_frame_typed f → Forall program_typed P → Forall walk_frame_typed F →
  close_plain P f F success = Ok (P', F') →
  Forall program_typed P' ∧ Forall walk_frame_typed F'.
Proof.
  intros Hf HP HF Hc. unfold close_plain in Hc. destruct success; [|by injection Hc as <- <-].
  apply bind_Ok_iff in Hc as (F1 & HF1 & Hc).
  assert (Forall walk_frame_typed F1) as H1.
  { case_match; [by injection HF1 as <-|by eapply forget_overwritten_typed]. }
  destruct F1 as [|g rest]; [done|]. cbn [top_frame mbind res_bind] in Hc. injection Hc as <- <-.
  split; [done|]. typed_fields. constructor; [|done].
  assert (walk_frame_typed (set_wf_out (wf_out g ++ wf_out f)
    (set_wf_journal (merge_journal (wf_journal g) (wf_journal f)) g))) as Hm.
  { split; [done|]. split; [by apply merge_journal_typed|by apply Forall_app]. }
  clear -Hm. case_match; exact Hm.
Qed.

Lemma close_frame_typed P F l P' F' :
  Forall program_typed P → Forall walk_frame_typed F → close_frame P F l = Ok (P', F') →
  Forall program_typed P' ∧ Forall walk_frame_typed F'.
Proof.
  intros HP HF Hc. unfold close_frame in Hc.
  apply bind_Ok_iff in Hc as ([top tail] & _ & Hc). apply bind_Ok_iff in Hc as (_ & _ & Hc).
  apply bind_Ok_iff in Hc as (success & _ & Hc). apply bind_Ok_iff in Hc as (F1 & HF1 & Hc).
  assert (Forall walk_frame_typed F1) as H1.
  { destruct (success && _); [by eapply flush_slice_typed|by injection HF1 as <-]. }
  destruct F1 as [|f rest]; [done|]. cbn [pop_frame mbind res_bind] in Hc.
  apply Forall_cons in H1 as [Hf Hrest].
  apply bind_Ok_iff in Hc as (_ & _ & Hc). apply bind_Ok_iff in Hc as (P1 & HP1 & Hc).
  assert (Forall program_typed P1) as H1.
  { destruct success; [by injection HP1 as <-|by eapply drop_from_typed]. }
  apply bind_Ok_iff in Hc as ([P2 F2] & HP2 & Hc).
  apply charge_caller_typed in HP2 as [HP2 HF2]; [|done..].
  destruct (wf_nested_start_gas top); [eapply close_nested_typed|eapply close_plain_typed];
    try exact Hc; done.
Qed.

Lemma close_frames_typed fuel P F l P' F' :
  Forall program_typed P → Forall walk_frame_typed F → close_frames fuel P F l = Ok (P', F') →
  Forall program_typed P' ∧ Forall walk_frame_typed F'.
Proof.
  revert P F. induction fuel as [|fuel IH]; cbn; intros P F HP HF; [by intros [= <- <-]|].
  case_match; [|by intros [= <- <-]]. intros Hc. apply bind_Ok_iff in Hc as ([P1 F1] & Hc & Hrec).
  apply close_frame_typed in Hc as [??]; [|done..]. by apply (IH P1 F1).
Qed.

(** The opcodes. *)
Lemma journal_insert_typed j ctx slot value :
  journal_typed j → is_u256 slot → is_u256 value →
  journal_typed (<[ctx := <[slot := value]> (default ∅ (j !! ctx))]> j).
Proof.
  intros Hj Hs Hv. apply map_Forall_insert_2; [|done].
  apply map_Forall_insert_2; [done|by apply journal_slots_typed].
Qed.

Lemma walk_sstore_typed P f l P' f' :
  log_typed l → Forall program_typed P → walk_frame_typed f → walk_sstore P f l = Ok (P', f') →
  Forall program_typed P' ∧ walk_frame_typed f'.
Proof.
  intros [Hl _] HP Hf. unfold walk_sstore. destruct (wf_storage_ctx f) as [ctx|] eqn:Hctx;
    [|by intros [= <- <-]]. destruct (sl_error l); [by intros [= <- <-]|].
  destruct (sl_stack l) as [stack|]; [|done]. cbn [ok_or mbind res_bind holds] in *. intros Hw.
  apply bind_Ok_iff in Hw as (slot & Hslot & Hw). apply bind_Ok_iff in Hw as (value & Hvalue & Hw).
  apply Forall_reverse in Hl.
  apply stack_get_word in Hslot; [|done]. apply stack_get_word in Hvalue; [|done].
  set (f1 := set_wf_journal _ f) in *.
  assert (walk_frame_typed f1) as Hf1.
  { typed_fields. split; [done|]. split; [by apply journal_insert_typed|done]. }
  case_match; [|by injection Hw as <- <-]. apply bind_Ok_iff in Hw as (p & Hp & Hw).
  case_match; injection Hw as <- <-; [|done]. split; [|done]. apply insert_typed; [done|].
  apply program_at_typed in Hp; [|done]. keep_typed.
Qed.

Lemma walk_log_typed P f l P' f' :
  log_typed l → Forall program_typed P → walk_frame_typed f → walk_log P f l = Ok (P', f') →
  Forall program_typed P' ∧ walk_frame_typed f'.
Proof.
  intros Hl HP Hf. unfold walk_log. case_match; [|by intros [= <- <-]].
  case_match; [by intros [= <- <-]|]. intros Hw. apply bind_Ok_iff in Hw as ([out sk] & Hout & Hw).
  apply bind_Ok_iff in Hw as (P1 & HP1 & Hw). injection Hw as <- <-. typed_fields. split.
  - eapply update_program_typed; [|done..]. intros p Hp. keep_typed.
  - split; [done|]. split; [done|]. by eapply append_typed.
Qed.

Lemma callee_of_typed stack : holds is_address (callee_of stack).
Proof. unfold callee_of. destruct (second_from_top stack); cbn; auto with gas. Qed.

Lemma call_fields_typed call :
  update_wf (UCall call) → is_address (call_target call) ∧ is_u256 (call_value call).
Proof.
  intros Hc. unfold update_wf in Hc; cbn [update_fields] in Hc.
  apply Forall_cons in Hc as [Ht Hc]. apply Forall_cons in Hc as [Hv _].
  split; [exact Ht|by apply word_uint].
Qed.

Lemma nested_op_typed target value leaf :
  is_address target → is_u256 value → is_u256 leaf → update_wf (UNested (mkNested target value leaf)).
Proof.
  intros Ht Hv Hl. unfold update_wf. cbn [update_fields nested_target nested_value nested_childLeaf].
  apply Forall_cons; split; [exact Ht|]. apply Forall_cons; split; [by apply word_uint|].
  apply Forall_singleton. by apply word_fixed_bytes.
Qed.

Lemma nested_program_typed parent ctx index call :
  holds is_address ctx → is_u256 index → update_wf (UCall call) →
  program_typed (nested_program parent ctx index call).
Proof.
  intros Hctx Hi Hc. pose proof (call_fields_typed _ Hc) as [??].
  unfold program_typed; cbn. split_and!; try done; [|apply keccak256_word].
  destruct ctx; [done|by_compute].
Qed.

Lemma frame_index_typed e c callee index :
  holds (λ c, bump_typed (cand_bump c)) c → frame_index e c callee = Some index → is_u256 index.
Proof.
  unfold frame_index. destruct c as [c|]; [|done]. cbn. destruct (cand_unsupported_op c); [done|].
  destruct callee; [|done]. cbn. intros Hb. destruct e.
  - destruct (cand_bump c); [done| |done]. case_match; [|done]. by intros [= <-].
  - case_match; [|done]. destruct (cand_bump c); intros [= <-]; first [done|by_compute].
Qed.

Lemma push_typed f us :
  walk_frame_typed f → Forall update_wf us → walk_frame_typed (set_wf_out (wf_out f ++ us) f).
Proof. intros Hf Hu. typed_fields. split; [done|]. split; [done|by apply Forall_app]. Qed.

Lemma emit_call_typed e c P F l callee P' F' next :
  log_typed l → holds (λ c, bump_typed (cand_bump c)) c → holds is_address callee →
  Forall program_typed P → Forall walk_frame_typed F →
  emit_call e c P F l callee = Ok (P', F', next) →
  Forall program_typed P' ∧ Forall walk_frame_typed F' ∧ pending_typed next.
Proof.
  intros Hl Hc Hcallee HP HF He. unfold emit_call in He.
  apply bind_Ok_iff in He as (F1 & HF1 & He). apply flush_slice_typed in HF1; [|done].
  destruct F1 as [|cur rest]; [done|]. cbn [top_frame mbind res_bind] in He.
  apply bind_Ok_iff in He as ([decoded sk] & Hd & He). destruct sk; [done|].
  apply append_typed in Hd; [|done|constructor]. apply Forall_cons in HF1 as [Hcur Hrest].
  assert (Hlast : holds update_wf (last decoded)).
  { destruct (last decoded) as [u|] eqn:Hu; [|done]. apply last_Some in Hu as [k ->].
    apply Forall_app in Hd as [_ Hd]. exact (Forall_inv Hd). }
  assert (Hplain : ∀ u t, last decoded = Some u →
    @Ok Error _ (P, set_wf_out (wf_out cur ++ [u]) cur :: rest, mkPendingFrame (sl_depth l) callee None ∅
      (Some (sl_gas l)) false None (sl_gas_cost l)) = Ok t →
    Forall program_typed t.1.1 ∧ Forall walk_frame_typed t.1.2 ∧ pending_typed t.2).
  { intros u t Hu [= <-]. cbn. split; [done|]. split; [|done]. constructor; [|done].
    apply push_typed; [done|]. apply Forall_singleton. by rewrite Hu in Hlast. }
  destruct (frame_index e c callee) as [index|] eqn:Hi.
  2: { destruct (last decoded) as [u|] eqn:Hu; [|done]. exact (Hplain u (P', F', next) eq_refl He). }
  destruct (last decoded) as [u|] eqn:Hu; [|done].
  destruct u as [|call| | | | | | | |]; try exact (Hplain _ (P', F', next) eq_refl He).
  apply bind_Ok_iff in He as (parent & _ & He). apply bind_Ok_iff in He as (P1 & HP1 & He).
  injection He as <- <- <-. pose proof (call_fields_typed _ Hlast) as [Ht Hv]. split; [|split; [|done]].
  - eapply update_program_typed; [|  |done]; [intros p Hp; keep_typed|].
    apply Forall_app; split; [done|]. apply Forall_singleton.
    apply nested_program_typed; [apply Hcur|by eapply frame_index_typed|done].
  - constructor; [|done]. apply push_typed; [done|]. apply Forall_singleton.
    apply nested_op_typed; [done..|by_compute].
Qed.

Lemma walk_call_typed e c P F l P' F' X :
  log_typed l → holds (λ c, bump_typed (cand_bump c)) c →
  Forall program_typed P → Forall walk_frame_typed F → walk_call e c P F l = Ok (P', F', X) →
  Forall program_typed P' ∧ Forall walk_frame_typed F' ∧ holds pending_typed X.
Proof.
  intros Hl Hc HP HF Hw. unfold walk_call in Hw.
  apply bind_Ok_iff in Hw as ([cur rest] & _ & Hw). apply bind_Ok_iff in Hw as (stack & _ & Hw).
  destruct (sl_error l); [by injection Hw as <- <- <-|].
  destruct (wf_program cur).
  - apply bind_Ok_iff in Hw as ([[P1 F1] next] & He & Hw). injection Hw as <- <- <-.
    eapply emit_call_typed; [..|exact He]; try done. apply callee_of_typed.
  - injection Hw as <- <- <-. split; [done|]. split; [done|]. apply callee_of_typed.
Qed.

Lemma walk_create_typed P F l F' X :
  log_typed l → Forall walk_frame_typed F → walk_create P F l = Ok (F', X) →
  Forall walk_frame_typed F' ∧ holds pending_typed X.
Proof.
  intros Hl HF Hw. unfold walk_create in Hw. apply bind_Ok_iff in Hw as ([cur rest] & _ & Hw).
  destruct (sl_error l); [by injection Hw as <- <-|].
  destruct (wf_program cur); [|by injection Hw as <- <-].
  apply bind_Ok_iff in Hw as (F1 & HF1 & Hw). apply flush_slice_typed in HF1; [|done].
  destruct F1 as [|f tail]; [done|]. cbn [top_frame mbind res_bind] in Hw.
  apply bind_Ok_iff in Hw as ([out sk] & Ha & Hw). destruct sk; [done|].
  injection Hw as <- <-. typed_fields. split; [|done]. constructor; [|done].
  split; [done|]. split; [done|]. by eapply append_typed.
Qed.

Lemma walk_op_typed e c s l s' :
  log_typed l → holds (λ c, bump_typed (cand_bump c)) c → split_typed s →
  walk_op e c s l = Ok s' → split_typed s'.
Proof.
  intros Hl Hc Hs Hw. destruct s as [P F X sk]. destruct Hs as (HP & HF & _). cbn in HP, HF.
  unfold walk_op in Hw. destruct F as [|cur rest]; [done|]. cbn [top_frame mbind res_bind] in Hw.
  pose proof (Forall_inv HF) as Hcur. pose proof (Forall_inv_tail HF) as Hrest.
  assert (Hsame : ∀ X' sk', holds pending_typed X' →
    split_typed (mkSplitState P (cur :: rest) X' sk')) by (intros; by split).
  assert (Htop : ∀ P1 f1, Forall program_typed P1 → walk_frame_typed f1 →
    split_typed (mkSplitState P1 (f1 :: rest) None sk)).
  { intros P1 f1 HP1 Hf1. split; [done|]. split; [by constructor|done]. }
  assert (Hlog : ('(programs, cur) ← walk_log P cur l;
    Ok (mkSplitState programs (cur :: rest) None sk)) = Ok s' → split_typed s').
  { intros Hk. apply bind_Ok_iff in Hk as ([P1 f1] & Hk & [= <-]).
    apply walk_log_typed in Hk as [??]; [|done..]. by apply Htop. }
  assert (Hcreate : ('(frames, pending) ← walk_create P (cur :: rest) l;
    Ok (mkSplitState P frames pending sk)) = Ok s' → split_typed s').
  { intros Hk. apply bind_Ok_iff in Hk as ([F1 X1] & Hk & [= <-]).
    apply walk_create_typed in Hk as [??]; [|done..]. by split. }
  assert (Hdelegate : @Ok Error _ (mkSplitState P (cur :: rest)
      match sl_error l with Some _ => None | None => Some (delegate_pending cur l) end sk) = Ok s' →
    split_typed s').
  { intros [= <-]. apply Hsame. destruct (sl_error l); [done|]. apply Hcur. }
  destruct (opc_of (sl_op l)); try exact (Hlog Hw); try exact (Hcreate Hw); try exact (Hdelegate Hw);
    try (injection Hw as <-; by apply Hsame).
  - apply bind_Ok_iff in Hw as ([P1 f1] & Hk & [= <-]).
    apply walk_sstore_typed in Hk as [??]; [|done..]. by apply Htop.
  - apply bind_Ok_iff in Hw as ([[P1 F1] X1] & Hk & [= <-]).
    apply walk_call_typed in Hk as (?&?&?); [|done..]. by split.
  - destruct (sl_error l); [injection Hw as <-; by apply Hsame|].
    apply bind_Ok_iff in Hw as (stack & _ & [= <-]). apply Hsame, callee_of_typed.
Qed.

Lemma split_step_typed e cands s i l s' :
  log_typed l → candidates_typed cands → split_typed s →
  split_step e cands s (i, l) = Ok s' → split_typed s'.
Proof.
  intros Hl Hc Hs Hw. unfold split_step in Hw. apply bind_Ok_iff in Hw as (s1 & H1 & Hw).
  apply open_pending_typed in H1 as (HP & HF & HX); [|done].
  apply bind_Ok_iff in Hw as ([P F] & Hcl & Hw). apply close_frames_typed in Hcl as [??]; [|done..].
  eapply walk_op_typed; [done| | |exact Hw].
  - destruct (cands !! i) eqn:Hi; [by eapply Hc|done].
  - by split.
Qed.

(** ** The passes after the walk *)

Lemma drop_if_orphan_typed P id P' :
  Forall program_typed P → drop_if_orphan P id = Ok P' → Forall program_typed P'.
Proof.
  intros HP Hd. unfold drop_if_orphan in Hd. apply bind_Ok_iff in Hd as (p & Hp & Hd).
  apply bind_Ok_iff in Hd as (d & _ & [= <-]). destruct d; [|done].
  apply program_at_typed in Hp; [|done]. apply insert_typed; [done|]. keep_typed.
Qed.

Lemma drop_range_typed P first P' :
  Forall program_typed P → drop_range P first = Ok P' → Forall program_typed P'.
Proof.
  intros HP Hd. eapply (foldM_inv (Forall program_typed)); [|exact HP|exact Hd].
  intros Q id Q' _. apply drop_if_orphan_typed.
Qed.

Lemma retain_children_typed P P' :
  Forall program_typed P → retain_children P = Ok P' → Forall program_typed P'.
Proof.
  intros HP. unfold retain_children. apply (mapM_Forall program_typed); [|done]. intros p q Hp Hq.
  apply bind_Ok_iff in Hq as (cs & _ & [= <-]). keep_typed.
Qed.

Lemma replace_nested_typed pos u us us' :
  update_wf u → Forall update_wf us → replace_nested pos u us = Some us' → Forall update_wf us'.
Proof.
  intros Hu Hus. revert pos us'. induction Hus as [|x us Hx Hus IH]; cbn; intros pos us'; [done|].
  destruct (is_nested x); [destruct pos as [|pos]|].
  - intros [= <-]. by constructor.
  - intros (vs & Hvs & ->)%fmap_Some. constructor; eauto.
  - intros (vs & Hvs & ->)%fmap_Some. constructor; eauto.
Qed.

Lemma expect_Some {A} (o : option A) w (a : A) : (expect o w : Result A) = Ok a → o = Some a.
Proof. destruct o; [by intros [= ->]|done]. Qed.

Lemma unnest_typed P id P' : Forall program_typed P → unnest P id = Ok P' → Forall program_typed P'.
Proof.
  intros HP Hu. unfold unnest in Hu.
  apply bind_Ok_iff in Hu as (p & Hp & Hu). apply bind_Ok_iff in Hu as (parent & _ & Hu).
  apply bind_Ok_iff in Hu as (q & Hq & Hu). apply bind_Ok_iff in Hu as (pos & _ & Hu).
  apply bind_Ok_iff in Hu as (fallback & Hfb%expect_Some & Hu).
  apply bind_Ok_iff in Hu as (us & Hus%expect_Some & Hu).
  apply bind_Ok_iff in Hu as (vs & Hvs%expect_Some & Hu).
  apply bind_Ok_iff in Hu as (P1 & HP1 & Hu). apply bind_Ok_iff in Hu as (P2 & HP2 & Hu).
  apply program_at_typed in Hp; [|done]. apply program_at_typed in Hq; [|done].
  assert (Forall update_wf vs) as Hvs'.
  { destruct Hp as (_&_&_&_&_&_&Hfb'), Hq as (_&_&_&_&_&Hus'&_).
    rewrite Hfb in Hfb'. rewrite Hus in Hus'. by eapply replace_nested_typed. }
  eapply drop_range_typed; [|exact Hu]. eapply update_program_typed; [| |exact HP2].
  { intros r Hr. keep_typed. }
  eapply update_program_typed; [|exact HP|exact HP1]. intros r Hr. keep_typed.
Qed.

Lemma prune_step_typed cost st id st' :
  Forall program_typed st.1.1 → prune_step cost st id = Ok st' → Forall program_typed st'.1.1.
Proof.
  destruct st as [[P wb] ns]. cbn. intros HP Hs. unfold prune_step in Hs.
  apply bind_Ok_iff in Hs as (p & _ & Hs). case_match; [by injection Hs as <-|].
  apply bind_Ok_iff in Hs as (size & _ & Hs). apply bind_Ok_iff in Hs as (depth & _ & Hs).
  apply bind_Ok_iff in Hs as (savings & _ & Hs). case_match; [by injection Hs as <-|].
  apply bind_Ok_iff in Hs as (P1 & HP1 & [= <-]). by eapply unnest_typed.
Qed.

Lemma prune_typed P cost P' :
  Forall program_typed P → prune_unprofitable P cost = Ok P' → Forall program_typed P'.
Proof.
  intros HP Hp. unfold prune_unprofitable in Hp.
  apply bind_Ok_iff in Hp as ([[Q wb] ns] & Hf & [= <-]).
  apply (foldM_inv (λ st : list ProgramState * list Z * list Z, Forall program_typed st.1.1))
    in Hf; [exact Hf| |exact HP].
  intros st id st' _. apply prune_step_typed.
Qed.

Lemma native_call_gas_typed P gas g : native_call_gas P gas = Ok g → is_u64 g.
Proof.
  unfold native_call_gas. intros Hg. apply bind_Ok_iff in Hg as (gs & _ & [= <-]).
  apply u64_sum_range.
Qed.

Lemma compact_typed P frames :
  Forall program_typed P → compact P = Ok frames → Forall frame_program_typed frames.
Proof.
  intros HP. unfold compact. apply (mapM_Forall program_typed).
  - intros p f Hp Hf. unfold compact_program in Hf. apply bind_Ok_iff in Hf as (us & Hus & Hf).
    apply bind_Ok_iff in Hf as (cs & _ & [= <-]). destruct Hp as (?&?&?&?&?&Hu&_).
    destruct (ps_updates p); [|done]. injection Hus as ->.
    unfold frame_program_typed; cbn. by split_and!.
  - apply Forall_forall. intros p Hp. rewrite Forall_forall in HP. apply HP.
    apply list_elem_of_In, filter_In in Hp as [Hp _]. by apply list_elem_of_In.
Qed.

(** The split of a typed trace. *)
Lemma split_frame_tree_frames trace root e cost tree :
  is_address root → Forall log_typed (df_struct_logs trace) →
  split_frame_tree trace root e cost = Ok tree → tree_typed tree.
Proof.
  intros Hroot Hl Hs. unfold split_frame_tree in Hs.
  apply bind_Ok_iff in Hs as ([cands ri] & Hscan & Hs).
  apply scan_candidates_typed in Hscan as [Hc Hri]; [|done].
  apply bind_Ok_iff in Hs as (s & Hwalk & Hs).
  assert (split_typed s) as (HP & HF & _).
  { eapply (foldM_inv split_typed); [| |exact Hwalk].
    - intros s1 [i l] s2 Hin Hs1 Hstep. eapply split_step_typed; [|done..|exact Hstep].
      rewrite Forall_forall in Hl. eapply Hl, elem_of_enumerate. exact Hin.
    - assert (program_typed (root_program root ri)).
      { unfold program_typed; cbn; split_and!; try done; by_compute. }
      split; [by constructor|]. split; [|done]. constructor; [|constructor].
      split; [done|]. split; [apply map_Forall_empty|constructor]. }
  apply bind_Ok_iff in Hs as ([P root_frame] & Hf & Hs).
  assert (Forall program_typed P) as HP'.
  { destruct s as [P0 F0 X0 sk0]. unfold finish_root in Hf. apply bind_Ok_iff in Hf as (_ & _ & Hf).
    apply bind_Ok_iff in Hf as (F1 & HF1 & Hf). apply flush_slice_typed in HF1; [|done].
    destruct F1 as [|f1 rest]; [done|]. cbn [top_frame mbind res_bind] in Hf.
    apply bind_Ok_iff in Hf as (P1 & HP1 & [= <- <-]).
    eapply update_program_typed; [|exact HP|exact HP1]. intros p Hp. keep_typed. }
  unfold finish_split in Hs.
  apply bind_Ok_iff in Hs as (P1 & HP1 & Hs). apply drop_range_typed in HP1; [|done].
  apply bind_Ok_iff in Hs as (P2 & HP2 & Hs). apply retain_children_typed in HP2; [|done].
  apply bind_Ok_iff in Hs as (P3 & HP3 & Hs). apply prune_typed in HP3; [|done].
  apply bind_Ok_iff in Hs as (g1 & H1%native_call_gas_typed & Hs).
  apply bind_Ok_iff in Hs as (g2 & H2%native_call_gas_typed & Hs).
  apply bind_Ok_iff in Hs as (g3 & H3%native_call_gas_typed & Hs).
  apply bind_Ok_iff in Hs as (frames & Hfr & [= <-]).
  split; [exact (compact_typed _ _ HP3 Hfr)|]. by split_and!.
Qed.

(** ** The leaves of an extracted tree *)

Lemma linked_typed leaves us cs :
  Forall is_u256 leaves → Forall update_wf us → Forall update_wf (linked leaves us cs).
Proof.
  intros Hl Hu. revert cs. induction Hu as [|u us Hu Hus IH]; intros cs; [by destruct cs|].
  destruct u; cbn [linked]; try (constructor; [done|by apply IH]).
  destruct cs as [|c cs]; constructor; try done; try apply IH.
  unfold update_wf in Hu; cbn [update_fields] in Hu.
  apply Forall_cons in Hu as [Ht Hu]. apply Forall_cons in Hu as [Hv _].
  apply nested_op_typed; [exact Ht|by apply word_uint|].
  destruct (leaves !! c) eqn:Hc; [|apply is_u256_0]. rewrite Forall_lookup in Hl. by eapply Hl.
Qed.

(** An update as the walk pushed it, before its leaf is known. *)
Definition unlinked (u : StateUpdate) : StateUpdate :=
  match u with UNested x => UNested (mkNested (nested_target x) (nested_value x) 0) | u => u end.

Lemma unlinked_linked leaves us cs : unlinked <$> linked leaves us cs = unlinked <$> us.
Proof.
  revert cs. induction us as [|u us IH]; intros cs; [by destruct cs|].
  destruct u; cbn [linked]; try (destruct cs); cbn; f_equal; apply IH.
Qed.

(** A tree split out of a typed trace and encoded for the quorum of a chain. *)
Definition encodes_split (trace : DefaultFrame) (root : Z) (e : Eligibility) (cost : NestingCostModel)
  (selector value chain expiry : Z) (tree : FrameTreeExtract) (t : EncodedTree) : Prop :=
  is_address root ∧ is_u256 chain ∧ Forall log_typed (df_struct_logs trace) ∧
  split_frame_tree trace root e cost = Ok tree ∧
  encode_frame_tree selector value chain expiry (fte_frames tree) = Ok t.

(** The program a frame's leaf hashes. *)
Definition signed_program (t : EncodedTree) (f : FrameProgram) : list StateUpdate :=
  linked (et_frame_leaves t) (fp_updates f) (fp_children f).

Lemma nested_fields_typed chain target index caller value hash program :
  is_u256 chain → is_address target → is_u256 index → is_address caller → is_u256 value →
  is_u256 hash → Forall is_byte program →
  Forall abi_wf (nested_leaf_fields chain target index caller value hash program).
Proof.
  intros Hch Ht Hi Hc Hv Hh Hp. unfold nested_leaf_fields.
  apply Forall_cons; split; [by_compute|].
  apply Forall_cons; split; [by apply word_uint|].
  apply Forall_cons; split; [exact Ht|].
  apply Forall_cons; split; [by apply word_uint|].
  apply Forall_cons; split; [exact Hc|].
  apply Forall_cons; split; [by apply word_uint|].
  apply Forall_cons; split; [by apply word_fixed_bytes|].
  apply Forall_cons; split; [by_compute|].
  apply Forall_singleton. exact Hp.
Qed.

(** What the leaf of a callee frame of an encoded tree hashes. *)
Definition leaf_preimage (chain : Z) (t : EncodedTree) (f : FrameProgram) (index : Z) : list Z :=
  nested_preimage chain (fp_target f) index (fp_caller f) (fp_value f) (fp_calldata_hash f)
    (encode_state_updates_to_abi (signed_program t f)).

Lemma encode_leaves_length selector value chain expiry frames t :
  encode_frame_tree selector value chain expiry frames = Ok t →
  length (et_frame_leaves t) = length frames.
Proof.
  intros He. destruct (encode_frame_tree_total selector value chain expiry _
    (encode_frame_tree_inv _ _ _ _ _ _ He)) as (t' & He' & _ & _ & (Hlen & _) & _).
  assert (t' = t) as -> by congruence. exact Hlen.
Qed.

(** What a callee's leaf is computed from, in a tree split out of a typed trace. *)
Lemma callee_leaf_fields trace root e cost selector value chain expiry tree t i f leaf :
  encodes_split trace root e cost selector value chain expiry tree t →
  (1 ≤ i)%nat → fte_frames tree !! i = Some f → et_frame_leaves t !! i = Some leaf →
  ∃ index, fp_transition_index f = Some index ∧
    let program := encode_state_updates_to_abi (signed_program t f) in
    leaf = nested_leaf chain (fp_target f) index (fp_caller f) (fp_value f) (fp_calldata_hash f)
      program ∧
    Forall update_wf (signed_program t f) ∧
    (Forall is_byte program → Forall abi_wf (nested_leaf_fields chain (fp_target f) index
      (fp_caller f) (fp_value f) (fp_calldata_hash f) program)).
Proof.
  intros (Hroot & Hchain & Hl & Hs & He) Hi Hf Hleaf.
  apply split_frame_tree_frames in Hs as [Hframes _]; [|done..].
  destruct (encode_frame_tree_total selector value chain expiry _
    (encode_frame_tree_inv _ _ _ _ _ _ He)) as (t' & He' & _ & _ & (Hlen & _ & Henc) & _).
  assert (t' = t) as -> by congruence. cbn [fst snd] in *.
  destruct (Henc i f (Nat.le_0_l i) Hf) as (index & Hindex & _ & Hl'). cbn zeta in Hl'.
  rewrite Hleaf in Hl'. injection Hl' as Hl'.
  assert (Hleaves : Forall is_u256 (et_frame_leaves t)).
  { apply Forall_lookup. intros k x Hx.
    destruct (lookup_lt_is_Some_2 (fte_frames tree) k) as [g Hg].
    { rewrite <-Hlen. by eapply lookup_lt_Some. }
    destruct (Henc k g (Nat.le_0_l k) Hg) as (index' & _ & _ & Hx'). cbn zeta in Hx'.
    rewrite Hx in Hx'. injection Hx' as ->. unfold frame_leaf. case_match; apply sha256_word. }
  rewrite Forall_lookup in Hframes. destruct (Hframes i f Hf) as (Ht & Hc & Hv & Hh & Hix & Hu).
  rewrite Hindex in Hix. cbn in Hix.
  exists index. split; [done|]. cbn zeta. split; [|split].
  - rewrite Hl'. unfold frame_leaf. by rewrite (proj2 (Nat.eqb_neq i 0)) by lia.
  - by apply linked_typed.
  - intros Hp. by apply nested_fields_typed.
Qed.

(** Encoded programs are bytes. *)
Lemma words_bytes ws : Forall is_byte (words ws).
Proof.
  unfold words. induction ws as [|w ws IH]; [constructor|]. rewrite fmap_cons. cbn [concat].
  apply Forall_app; split; [apply u256_word_bytes|exact IH].
Qed.

Lemma encode_bytes_bytes bs : Forall is_byte bs → Forall is_byte (encode_bytes bs).
Proof.
  intros Hb. unfold encode_bytes, write_u256_word. cbn [app].
  assert (Forall is_byte (u256_word (zlen bs) ++ bs)) as Hw.
  { apply Forall_app; split; [apply u256_word_bytes|done]. }
  case_match; [|done]. apply Forall_app; split; [done|]. apply Forall_replicate, is_byte_0.
Qed.

Lemma encoded_program_bytes `{!AbiLaws} us :
  Forall update_wf us → Forall is_byte (encode_state_updates_to_abi us).
Proof.
  intros Hu. rewrite encode_eq.
  rewrite !Forall_app. split_and!; try apply u256_word_bytes; try apply words_bytes.
  unfold datas_of. induction Hu as [|u us Hu Hus IH]; [constructor|]. rewrite !fmap_cons. cbn [concat].
  apply Forall_app; split; [|exact IH]. by apply encode_bytes_bytes, abi_encode_sequence_bytes.
Qed.

(** ** Properties *)

(** C17: a signed leaf determines its frame: the leaf of a callee frame, of a tree split out of a typed trace
    and encoded for a chain, hashes a string; and when the strings of two such frames, of any two traces and
    chains, are the same, so are the chains, targets, transition indices, callers, values, calldata hashes
    and signed programs, and the programs the walk emitted. Two frames that differ have the same leaf only if
    these two strings are a collision of the hash. *)
Theorem extracted_leaf_binds `{!AbiLaws} trace1 root1 e1 cost1 sel1 val1 chain1 expiry1 tree1 t1
  trace2 root2 e2 cost2 sel2 val2 chain2 expiry2 tree2 t2 i j f1 f2 leaf1 leaf2 :
  encodes_split trace1 root1 e1 cost1 sel1 val1 chain1 expiry1 tree1 t1 →
  encodes_split trace2 root2 e2 cost2 sel2 val2 chain2 expiry2 tree2 t2 →
  (1 ≤ i)%nat → (1 ≤ j)%nat → fte_frames tree1 !! i = Some f1 → fte_frames tree2 !! j = Some f2 →
  encoded_size (signed_program t1 f1) < 2 ^ 128 → encoded_size (signed_program t2 f2) < 2 ^ 128 →
  et_frame_leaves t1 !! i = Some leaf1 → et_frame_leaves t2 !! j = Some leaf2 →
  ∃ index1 index2,
    fp_transition_index f1 = Some index1 ∧ fp_transition_index f2 = Some index2 ∧
    leaf1 = sha256 (leaf_preimage chain1 t1 f1 index1) ∧ leaf2 = sha256 (leaf_preimage chain2 t2 f2 index2) ∧
    (leaf_preimage chain1 t1 f1 index1 = leaf_preimage chain2 t2 f2 index2 →
     chain1 = chain2 ∧ fp_target f1 = fp_target f2 ∧ index1 = index2 ∧ fp_caller f1 = fp_caller f2 ∧
     fp_value f1 = fp_value f2 ∧ fp_calldata_hash f1 = fp_calldata_hash f2 ∧
     signed_program t1 f1 = signed_program t2 f2 ∧
     unlinked <$> fp_updates f1 = unlinked <$> fp_updates f2).
Proof.
  intros He1 He2 Hi Hj Hf1 Hf2 Hs1 Hs2 Hl1 Hl2.
  destruct (callee_leaf_fields _ _ _ _ _ _ _ _ _ _ _ _ _ He1 Hi Hf1 Hl1) as (x1 & Hx1 & Hh1 & Hp1 & Hw1).
  destruct (callee_leaf_fields _ _ _ _ _ _ _ _ _ _ _ _ _ He2 Hj Hf2 Hl2) as (x2 & Hx2 & Hh2 & Hp2 & Hw2).
  specialize (Hw1 (encoded_program_bytes _ Hp1)). specialize (Hw2 (encoded_program_bytes _ Hp2)).
  exists x1, x2. split_and!; [done..|]. intros Heq.
  apply (nested_leaf_binds _ _ _ _ _ _ _ _ _ _ _ _ _ _ Hw1 Hw2) in Heq as (Hch & Ht & Hx & Hc & Hv & Hh & Hp).
  apply encode_state_updates_injective in Hp; [|done..].
  split_and!; try done.
  rewrite <-(unlinked_linked (et_frame_leaves t1) (fp_updates f1) (fp_children f1)).
  rewrite <-(unlinked_linked (et_frame_leaves t2) (fp_updates f2) (fp_children f2)).
  unfold signed_program in Hp. by rewrite Hp.
Qed.

End split_typing.

(** ** Witnesses *)

(** The sample library functions with their hashes cut to 32 bytes. *)
#[local] Instance word_externals : Externals := {|
  hex_decode := @hex_decode sample_externals;
  keccak256 bs := @keccak256 sample_externals bs mod 2 ^ 256;
  sha256_digest bs := @sha256_digest sample_externals bs mod 2 ^ 256;
  abi_encode_sequence := @abi_encode_sequence sample_externals;
  abi_encode := @abi_encode sample_externals
|}.

Lemma hex_digit_range c d : hex_digit c = Some d → 0 <= d < 16.
Proof.
  unfold hex_digit. repeat case_match; try done; intros [= <-];
    repeat match goal with H : (_ && _) = true |- _ => apply andb_true_iff in H as [?%Z.leb_le ?%Z.leb_le] end;
    lia.
Qed.

Lemma hex_bytes_range n s bs : (String.length s <= n)%nat → hex_bytes s = Some bs → Forall is_byte bs.
Proof.
  revert s bs. induction n as [|n IH]; intros [|a [|b s]] bs Hn; cbn in *; try done; try lia;
    try (by intros [= <-]).
  destruct (hex_digit a) as [h|] eqn:Ha; [|done]. destruct (hex_digit b) as [l|] eqn:Hb; [|done].
  cbn. destruct (hex_bytes s) as [cs|] eqn:Hs; [|done]. intros [= <-].
  apply hex_digit_range in Ha, Hb. constructor; [unfold is_byte; lia|].
  eapply IH; [|exact Hs]. lia.
Qed.

Lemma word_mod z : is_u256 (z mod 2 ^ 256).
Proof. unfold is_u256, u256_max. pose proof (Z.mod_pos_bound z (2 ^ 256)). lia. Qed.

#[local] Instance word_type_laws : TypeLaws.
Proof.
  split; [|intros; apply word_mod..]. intros s bs. exact (hex_bytes_range _ s bs (le_n _)).
Qed.

#[local] Instance word_abi_laws : AbiLaws.
Proof.
  split; [exact (@abi_encode_sequence_inj sample_externals sample_laws)
         |exact (@abi_encode_sequence_bytes sample_externals sample_laws)].
Qed.

Definition typed_sample : DefaultFrame := mkDefaultFrame false 0 [] [
  mkStructLog 1 "SSTORE" 100 3 (Some [6; STATE_TRACKER_SLOT]) (Some []) None None;
  mkStructLog 1 "LOG1" 90 3 (Some [9; 2; 1]) (Some ["0a0b0c"%string]) None (Some 5)].

Lemma compute_state_updates_decoded_witness :
  ∃ te, compute_state_updates typed_sample None = Ok te ∧
    te_state_updates te = [UStore (mkStore STATE_TRACKER_SLOT 6); ULog1 (mkLog1 [11; 12] 9)] ∧
    (∃ picked, filter root_op (df_struct_logs typed_sample) `sublist_of` picked ∧
      picked `sublist_of` df_struct_logs typed_sample ∧ Forall2 emits picked (te_state_updates te)) ∧
    extract_typed te.
Proof.
  destruct (compute_state_updates typed_sample None) as [te| |] eqn:Hc; [|vm_compute in Hc; discriminate Hc..].
  exists te. split; [reflexivity|]. split.
  - vm_compute in Hc. injection Hc as <-. reflexivity.
  - apply (compute_state_updates_decoded typed_sample None te); [by_compute| |by_compute|exact Hc].
    repeat (apply Forall_cons; split; [apply fits_spec; vm_compute; reflexivity|]). constructor.
Defined.

Definition typed_nested_log (d : Z) (op : string) (gas : Z) (stack : list Z) : StructLog :=
  mkStructLog d op gas 3 (Some stack) (Some []) None None.

Definition typed_nested : DefaultFrame := mkDefaultFrame false 0 [] [
  typed_nested_log 1 "SSTORE" 100000 [6; STATE_TRACKER_SLOT];
  typed_nested_log 1 "CALL" 80000 [0; 0; 0; 0; 0; 77; 79000];
  typed_nested_log 2 "SSTORE" 70000 [4; STATE_TRACKER_SLOT];
  typed_nested_log 2 "STOP" 1000 [];
  typed_nested_log 1 "STOP" 800 [1]].

Abbreviation typed_split :=
  (split_frame_tree typed_nested 10 (Consumers (λ a, a =? 77)) NESTING_COST_MODEL_V1).

(** The frame of the sample in the trees of two chains: its leaves hash two strings. *)
Lemma extracted_leaf_binds_witness :
  ∃ tree t t' f leaf index, typed_split = Ok tree ∧ encode_frame_tree 1 0 5 100 (fte_frames tree) = Ok t ∧
    encode_frame_tree 1 0 6 100 (fte_frames tree) = Ok t' ∧
    fte_frames tree !! 1%nat = Some f ∧ et_frame_leaves t !! 1%nat = Some leaf ∧
    leaf = sha256 (leaf_preimage 5 t f index) ∧ leaf_preimage 5 t f index ≠ leaf_preimage 6 t' f index.
Proof.
  destruct typed_split as [tree| |] eqn:Hs; [|vm_compute in Hs; discriminate Hs..].
  assert (tree_ok (fte_frames tree)) as Hok.
  { vm_compute in Hs. injection Hs as <-. split; [done|].
    intros [|[|i]] g Hg; [| |discriminate Hg]; injection Hg as <-;
      (split_and!; [reflexivity|repeat constructor|by eexists]). }
  destruct (encode_frame_tree_total 1 0 5 100 _ Hok) as (t & He & _).
  destruct (encode_frame_tree_total 1 0 6 100 _ Hok) as (t' & He' & _).
  destruct (fte_frames tree !! 1%nat) as [f|] eqn:Hf;
    [|vm_compute in Hs; injection Hs as <-; discriminate Hf].
  assert (∀ chain u, encode_frame_tree 1 0 chain 100 (fte_frames tree) = Ok u →
    is_Some (et_frame_leaves u !! 1%nat)) as Hleaf.
  { intros chain u Hu. apply lookup_lt_is_Some. rewrite (encode_leaves_length _ _ _ _ _ _ Hu).
    by eapply lookup_lt_Some. }
  destruct (Hleaf 5 t He) as [leaf Hl], (Hleaf 6 t' He') as [leaf' Hl'].
  assert (∀ u, encoded_size (signed_program u f) < 2 ^ 128) as Hsz.
  { intros u. clear He He' Hl Hl'. vm_compute in Hs. injection Hs as <-. injection Hf as <-.
    unfold signed_program. cbn [linked fp_updates fp_children]. by_compute. }
  assert (∀ chain u, is_u256 chain → encode_frame_tree 1 0 chain 100 (fte_frames tree) = Ok u →
    encodes_split typed_nested 10 (Consumers (λ a, a =? 77)) NESTING_COST_MODEL_V1 1 0 chain 100 tree u) as Henc
    by (intros chain u Hchain Hu; split_and!; [by_compute|exact Hchain|by_compute|exact Hs|exact Hu]).
  destruct (extracted_leaf_binds _ _ _ _ _ _ _ _ _ _ _ _ _ _ _ _ _ _ _ _ 1 1 f f leaf leaf'
    (Henc 5 t ltac:(by_compute) He) (Henc 6 t' ltac:(by_compute) He')
    (le_n 1) (le_n 1) Hf Hf (Hsz t) (Hsz t') Hl Hl') as (x & x' & Hx & Hx' & Hh & _ & Hb).
  exists tree, t, t', f, leaf, x. do 5 (split; [first [reflexivity|assumption]|]). split; [exact Hh|].
  intros Heq. assert (x' = x) as Hxx by congruence. rewrite Hxx in Hb. destruct (Hb Heq) as [Hc _]. discriminate Hc.
Defined.
