(* ===== verification/Provenance.v ===== *)
(** * What the frames of a split did

    Every operation of a frame tree was performed by an opcode of the trace, running in the storage of the
    frame's contract; and every callee frame was called by its caller, with its value and its calldata. *)

From S2P Require Import Prelude.
From S2P Require Import Types.
From S2P Require Import Instances.
From S2P Require Import Trace.
From S2P Require Import SimProfile.
From S2P Require Import Scan.
From S2P Require Import FrameTree.
From S2P Require Import Prune.
From S2P Require Import WalkSpec.
From S2P Require Import Typing.
From S2P Require Import SplitTyping.

(** ** Storage contexts

    Read off the depths and opcodes of a trace, without the walk. *)

Section contexts.
Context `{Externals}.
Variables (root : Z) (logs : list StructLog).

(** The log before [n] that opened the frame of depth [d] which is open there. *)
Definition opens_frame (j n : nat) (d : Z) (l : StructLog) : Prop :=
  logs !! j = Some l ∧ (j < n)%nat ∧ sl_depth l + 1 = d ∧
  ∀ k m, (j < k < n)%nat → logs !! k = Some m → d <= sl_depth m.

(** The contract whose storage a log of depth [d] at position [n] would have: the callee's, or that of the
    frame that delegated to it. *)
Inductive scope : nat → Z → Z → Prop :=
  | scope_root n : scope n 1 root
  | scope_call n j d l gas to :
      opens_frame j n d l → sl_op l ∈ ["CALL"; "STATICCALL"]%string → operands l [gas; to] →
      scope n d (to mod 2 ^ 160)
  | scope_delegate n j d l ctx :
      opens_frame j n d l → sl_op l ∈ ["DELEGATECALL"; "CALLCODE"]%string → scope j (sl_depth l) ctx →
      scope n d ctx.

(** A log of the trace that ran in the storage of a contract and made an update. *)
Definition did (ctx : Z) (u : StateUpdate) : Prop :=
  ∃ i l, logs !! i = Some l ∧ scope i (sl_depth l) ctx ∧ emits l u.

(** An operation of a program: the update, or for a [NESTED] op the call it stands for. *)
Definition performed (ctx : Z) (u : StateUpdate) : Prop :=
  match u with
  | UNested x => ∃ args, did ctx (UCall (mkCall (nested_target x) (nested_value x) args))
  | u => did ctx u
  end.

Lemma scope_S n d ctx m : scope n d ctx → logs !! n = Some m → d <= sl_depth m → scope (S n) d ctx.
Proof.
  assert (∀ j l, opens_frame j n d l → logs !! n = Some m → d <= sl_depth m → opens_frame j (S n) d l) as Hopen.
  { intros j l (Hj & Hlt & Hd & Hk) Hm Hle. split_and!; [done|lia|done|]. intros k m' Hkn Hm'.
    destruct (decide (k = n)) as [->|]; [by simplify_eq|]. apply (Hk k m'); [lia|done]. }
  intros Hs Hm Hd. destruct Hs as [n|n j d l gas to Ho Hop Hst|n j d l ctx Ho Hop Hst].
  - constructor.
  - eapply scope_call; eauto.
  - eapply scope_delegate; eauto.
Qed.

(** The frame that the log at [n] opens. *)
Lemma opens_next n l : logs !! n = Some l → opens_frame n (S n) (sl_depth l + 1) l.
Proof. intros Hl. split_and!; [done|lia|done|]. intros k m Hk. lia. Qed.

Lemma emits_performed ctx u l : did ctx u → emits l u → performed ctx u.
Proof. intros Hd He. by destruct He. Qed.
End contexts.

(** Whether a log opens a frame. *)
Definition may_open (l : StructLog) : bool :=
  match opc_of (sl_op l), sl_error l with
  | (OP_CALL | OP_STATICCALL | OP_DELEGATECALL | OP_CALLCODE | OP_CREATE | OP_CREATE2), None => true
  | _, _ => false
  end.

(** Depths that grow by one, after a log that opens a frame, from a depth and whether the log before opens one. *)
Fixpoint well_nested (depth : Z) (open : bool) (logs : list StructLog) : bool :=
  match logs with
  | [] => true
  | l :: logs =>
      ((sl_depth l <=? depth) || (open && (sl_depth l =? depth + 1))) && well_nested (sl_depth l) (may_open l) logs
  end.

(** ** What the walk never changes *)

Record FrameId := mkFrameId { fi_depth : Z; fi_ctx : option Z; fi_program : option nat; fi_nested : bool }.
Definition frame_id (f : WalkFrame) : FrameId :=
  mkFrameId (wf_depth f) (wf_storage_ctx f) (wf_program f) (bool_decide (is_Some (wf_nested_start_gas f))).

Record ProgramId := mkProgramId {
  pi_target : Z; pi_caller : Z; pi_value : Z; pi_hash : Z; pi_parent : option nat; pi_fallback : option Call
}.
Definition program_id (p : ProgramState) : ProgramId :=
  mkProgramId (ps_target p) (ps_caller p) (ps_value p) (ps_calldata_hash p) (ps_parent p) (ps_fallback p).

Lemma update_program_ids P id f P' :
  (∀ p, program_id (f p) = program_id p) → update_program P id f = Ok P' → program_id <$> P' = program_id <$> P.
Proof.
  intros Hf Hu. unfold update_program, program_at, expect in Hu. destruct (P !! id) as [p|] eqn:Hp; [|done].
  injection Hu as <-. rewrite list_fmap_insert, Hf. apply list_insert_id. by rewrite list_lookup_fmap, Hp.
Qed.
Lemma insert_ids (P : list ProgramState) id p q : P !! id = Some p → program_id q = program_id p → program_id <$> (<[id := q]> P) = program_id <$> P.
Proof. intros Hp Hq. rewrite list_fmap_insert, Hq. apply list_insert_id. by rewrite list_lookup_fmap, Hp. Qed.

Lemma add_child_call_gas_ids P parent gas P' :
  add_child_call_gas P parent gas = Ok P' → program_id <$> P' = program_id <$> P.
Proof. unfold add_child_call_gas. destruct parent; [by apply update_program_ids|by intros [= <-]]. Qed.
Lemma drop_from_ids P first P' : drop_from P first = Ok P' → program_id <$> P' = program_id <$> P.
Proof.
  unfold drop_from. case_match; [|done]. intros [= <-].
  rewrite fmap_app, <-list_fmap_compose. rewrite <-(take_drop first P) at 3. by rewrite fmap_app.
Qed.
Lemma flush_slice_ids F P F' : flush_slice F P = Ok F' → frame_id <$> F' = frame_id <$> F.
Proof.
  unfold flush_slice. destruct F as [|cur rest]; [done|]. cbn [top_frame mbind res_bind].
  destruct (wf_program cur); [|done]. cbn [expect mbind res_bind]. destruct (program_at P _); [|done..].
  cbn [mbind res_bind]. destruct (fold_left _ _ _). by intros [= <-].
Qed.
Lemma forget_slots_id P J f f' : forget_slots P J f = Ok f' → frame_id f' = frame_id f.
Proof.
  unfold forget_slots. case_match; [|by intros [= <-]]. intros Hs. apply bind_Ok_iff in Hs as (p & _ & Hs).
  case_match; by injection Hs as <-.
Qed.
Lemma mapM_fmap_Ok {A B} (f : A → Result A) (g : A → B) l k :
  (∀ a b, f a = Ok b → g b = g a) → mapM f l = Ok k → g <$> k = g <$> l.
Proof.
  intros Hf Hk. apply mapM_Ok_Forall2 in Hk. induction Hk as [|a b l k Hab Hk IH]; [done|].
  rewrite !fmap_cons, IH. f_equal. by apply Hf.
Qed.
Lemma forget_overwritten_ids F P J F' : forget_overwritten F P J = Ok F' → frame_id <$> F' = frame_id <$> F.
Proof. apply mapM_fmap_Ok. intros f f'. apply forget_slots_id. Qed.
Lemma merge_into_parent_ids F J F' : merge_into_parent F J = Ok F' → frame_id <$> F' = frame_id <$> F.
Proof. unfold merge_into_parent. destruct F; [done|]. by intros [= <-]. Qed.
Lemma charge_ids P F gas (upd : WalkFrame → WalkFrame) P' F' :
  (∀ f, frame_id (upd f) = frame_id f) →
  ('(caller, rest) ← top_frame F;
   programs ← add_child_call_gas P (wf_program (upd caller)) gas;
   Ok (programs, upd caller :: rest)) = Ok (P', F') →
  program_id <$> P' = program_id <$> P ∧ frame_id <$> F' = frame_id <$> F.
Proof.
  intros Hupd Hc. destruct F as [|f rest]; [done|]. cbn [top_frame mbind res_bind] in Hc.
  apply bind_Ok_iff in Hc as (P1 & HP1 & [= <- <-]). apply add_child_call_gas_ids in HP1.
  split; [done|]. by rewrite !fmap_cons, Hupd.
Qed.
Lemma close_inline_ids P F p l P' F' :
  close_inline P F p l = Ok (P', F') → program_id <$> P' = program_id <$> P ∧ frame_id <$> F' = frame_id <$> F.
Proof.
  unfold close_inline. intros Hc. apply bind_Ok_iff in Hc as (_ & _ & Hc). apply bind_Ok_iff in Hc as (_ & _ & Hc).
  case_match; [|by injection Hc as <- <-].
  eapply (charge_ids P F _ (λ caller, if pf_emitted_create p
    then set_wf_create_gas (u64_add (wf_create_gas caller) _) caller
    else set_wf_call_gas (u64_add (wf_call_gas caller) _) caller)); [|exact Hc].
  intros f. by case_match.
Qed.
Lemma charge_caller_ids P f F l P' F' :
  charge_caller P f F l = Ok (P', F') → program_id <$> P' = program_id <$> P ∧ frame_id <$> F' = frame_id <$> F.
Proof.
  unfold charge_caller. case_match; [|by intros [= <- <-]].
  eapply (charge_ids P F _ (λ caller, if wf_emitted_create f then _ else _)).
  intros g. cbn. by case_match.
Qed.
Lemma close_nested_ids P f F start success l P' F' :
  close_nested P f F start success l = Ok (P', F') →
  program_id <$> P' = program_id <$> P ∧ frame_id <$> F' = frame_id <$> F.
Proof.
  intros Hc. unfold close_nested in Hc. apply bind_Ok_iff in Hc as (id & _ & Hc). destruct success.
  - apply bind_Ok_iff in Hc as (P1 & HP1 & Hc). apply bind_Ok_iff in Hc as (P2 & HP2 & Hc).
    apply bind_Ok_iff in Hc as (F1 & HF1 & Hc). apply bind_Ok_iff in Hc as (F2 & HF2 & [= <- <-]).
    apply update_program_ids in HP1; [|done]. apply add_child_call_gas_ids in HP2.
    apply forget_overwritten_ids in HF1. apply merge_into_parent_ids in HF2. split; congruence.
  - destruct F as [|g rest]; [done|]. cbn [top_frame mbind res_bind] in Hc. repeat case_match; try done.
    by injection Hc as <- <-.
Qed.
Lemma close_plain_ids P f F success P' F' :
  close_plain P f F success = Ok (P', F') →
  program_id <$> P' = program_id <$> P ∧ frame_id <$> F' = frame_id <$> F.
Proof.
  intros Hc. unfold close_plain in Hc. destruct success; [|by injection Hc as <- <-].
  apply bind_Ok_iff in Hc as (F1 & HF1 & Hc).
  assert (frame_id <$> F1 = frame_id <$> F) as H1.
  { case_match; [by injection HF1 as <-|by eapply forget_overwritten_ids]. }
  destruct F1 as [|g rest]; [done|]. cbn [top_frame mbind res_bind] in Hc. injection Hc as <- <-.
  split; [done|]. rewrite <-H1, !fmap_cons. f_equal. by case_match.
Qed.
Lemma close_frame_ids P F l P' F' :
  close_frame P F l = Ok (P', F') →
  program_id <$> P' = program_id <$> P ∧ frame_id <$> F' = tail (frame_id <$> F) ∧
  ∃ f, head F = Some f ∧ wf_depth f = sl_depth l + 1.
Proof.
  intros Hc. unfold close_frame in Hc.
  apply bind_Ok_iff in Hc as ([top tail] & Htop & Hc). apply bind_Ok_iff in Hc as ([] & Hdepth & Hc).
  apply bind_Ok_iff in Hc as (success & _ & Hc). apply bind_Ok_iff in Hc as (F1 & HF1 & Hc).
  assert (frame_id <$> F1 = frame_id <$> F) as H1.
  { destruct (success && _); [by eapply flush_slice_ids|by injection HF1 as <-]. }
  destruct F1 as [|f rest]; [done|]. cbn [pop_frame mbind res_bind] in Hc.
  apply bind_Ok_iff in Hc as (_ & _ & Hc). apply bind_Ok_iff in Hc as (P1 & HP1 & Hc).
  assert (program_id <$> P1 = program_id <$> P) as H2.
  { destruct success; [by injection HP1 as <-|by eapply drop_from_ids]. }
  apply bind_Ok_iff in Hc as ([P2 F2] & HP2 & Hc). apply charge_caller_ids in HP2 as [HP2 HF2].
  assert (program_id <$> P' = program_id <$> P2 ∧ frame_id <$> F' = frame_id <$> F2) as [HP3 HF3].
  { destruct (wf_nested_start_gas top); [by eapply close_nested_ids|by eapply close_plain_ids]. }
  split; [congruence|]. destruct F as [|g F0]; [done|]. injection Htop as -> ->.
  split; [rewrite HF3, HF2; by injection H1|]. exists top. split; [done|].
  unfold bail_if in Hdepth. destruct (Z.eqb_spec (wf_depth top) (sl_depth l + 1)); done.
Qed.

(** ** The invariant of the walk *)

Section walk.
Context `{TypeLaws}.
Variables (root : Z) (logs : list StructLog).
Abbreviation did := (did root logs).
Abbreviation performed := (performed root logs).
Abbreviation scope := (scope root logs).

Definition root_id : FrameId := mkFrameId 1 (Some root) (Some 0%nat) false.

(** A frame that emits does so into a program of the contract whose storage it has. *)
Definition linked (I : list ProgramId) (g : FrameId) : Prop :=
  ∀ id, fi_program g = Some id → ∃ y, I !! id = Some y ∧ fi_ctx g = Some (pi_target y).

(** The frames are one below the other, down to the root; one that is not nested emits into the program of
    the frame below, if it emits. *)
Fixpoint stack_fits (I : list ProgramId) (G : list FrameId) : Prop :=
  match G with
  | [] => True
  | g :: G' =>
      fi_depth g = Z.of_nat (length G) ∧ linked I g ∧
      match G' with
      | [] => g = root_id
      | h :: _ => fi_nested g = false → is_Some (fi_program g) → fi_program g = fi_program h
      end ∧ stack_fits I G'
  end.

(** Each frame has the storage that the trace says. *)
Definition scoped (n : nat) (G : list FrameId) : Prop :=
  Forall (λ g, ∀ ctx, fi_ctx g = Some ctx → scope n (fi_depth g) ctx) G.

(** Every program but the root's was opened by a call of its parent. *)
Definition called (I : list ProgramId) (x : ProgramId) : Prop :=
  ∃ call q y, pi_fallback x = Some call ∧ pi_parent x = Some q ∧ I !! q = Some y ∧ pi_caller x = pi_target y ∧
    pi_target x = call_target call ∧ pi_value x = call_value call ∧ pi_hash x = keccak256 (call_args call) ∧
    did (pi_caller x) (UCall call).
Definition opened (I : list ProgramId) : Prop :=
  (∃ x, I !! 0%nat = Some x ∧ pi_target x = root ∧ pi_parent x = None) ∧ ∀ i x, I !! S i = Some x → called I x.

Definition op_did (ctx : option Z) (u : StateUpdate) : Prop :=
  match ctx with Some ctx => performed ctx u | None => False end.
Definition journal_did (j : Journal) : Prop :=
  ∀ ctx m k v, j !! ctx = Some m → m !! k = Some v → did ctx (UStore (mkStore k v)).
Definition content (f : WalkFrame) : Prop :=
  journal_did (wf_journal f) ∧ Forall (op_did (wf_storage_ctx f)) (wf_out f) ∧
  (wf_program f = None → wf_out f = []).
Definition program_did (p : ProgramState) : Prop :=
  ∀ us, ps_updates p = Some us → Forall (performed (ps_target p)) us.

Definition pending_fits (I : list ProgramId) (G : list FrameId) (n : nat) (D : Z) (x : PendingFrame) : Prop :=
  pf_parent_depth x = D ∧ (∀ ctx, pf_storage_ctx x = Some ctx → scope n (D + 1) ctx) ∧
  (∀ id, pf_program x = Some id → ∃ y, I !! id = Some y ∧ pf_storage_ctx x = Some (pi_target y)) ∧
  (pf_nested_start_gas x = None → is_Some (pf_program x) → pf_program x = head G ≫= fi_program).

(** After [n] logs, of which the last has depth [D]. *)
Definition walked (n : nat) (D : Z) (P : list ProgramState) (F : list WalkFrame) : Prop :=
  opened (program_id <$> P) ∧ stack_fits (program_id <$> P) (frame_id <$> F) ∧ scoped n (frame_id <$> F) ∧
  Z.of_nat (length F) = D ∧ Forall content F ∧ Forall program_did P.
Definition walk_state (n : nat) (D : Z) (open : bool) (s : SplitState) : Prop :=
  walked n D (sp_programs s) (sp_frames s) ∧
  holds (pending_fits (program_id <$> sp_programs s) (frame_id <$> sp_frames s) n D) (sp_pending s) ∧
  (open = true → is_Some (sp_pending s)).

(** *** Contents *)

Lemma linked_ctx P f id p :
  linked (program_id <$> P) (frame_id f) → wf_program f = Some id → P !! id = Some p →
  wf_storage_ctx f = Some (ps_target p).
Proof.
  intros Hl Hid Hp. destruct (Hl id Hid) as (y & Hy & Hctx). rewrite list_lookup_fmap, Hp in Hy.
  by injection Hy as <-.
Qed.

Lemma visible_did F target k v :
  Forall content F → visible_image F target !! k = Some v → did target (UStore (mkStore k v)).
Proof.
  intros HF. unfold visible_image. induction HF as [|f F [Hj _] HF IH]; [done|]. cbn.
  intros [Hk|[_ Hk]]%lookup_union_Some_raw; [|by apply IH].
  destruct (wf_journal f !! target) as [m|] eqn:Hm; [by eapply Hj|done].
Qed.

Lemma flush_slots_did ctx items out view :
  Forall (λ kv, performed ctx (UStore (mkStore kv.1 kv.2))) items → Forall (performed ctx) out →
  Forall (performed ctx) (fold_left flush_slot items (out, view)).1.
Proof.
  intros Hi. revert out view. induction Hi as [|[k v] items Hkv Hi IH]; intros out view Hout; [done|].
  cbn. case_match; apply IH; [done|]. apply Forall_app; split; [done|]. by apply Forall_singleton.
Qed.

Lemma flush_slice_content F P F' :
  (∀ f, head F = Some f → linked (program_id <$> P) (frame_id f)) →
  Forall content F → flush_slice F P = Ok F' → Forall content F'.
Proof.
  intros Hl HF. unfold flush_slice. destruct F as [|cur rest]; [done|]. cbn [top_frame mbind res_bind].
  destruct (wf_program cur) as [id|] eqn:Hid; [|done]. cbn [expect mbind res_bind].
  unfold program_at, expect. destruct (P !! id) as [p|] eqn:Hp; [|done]. cbn [mbind res_bind].
  pose proof (linked_ctx _ _ _ _ (Hl cur eq_refl) Hid Hp) as Hctx.
  pose proof (Forall_inv HF) as (Hj & Hout & _). rewrite Hctx in Hout.
  pose proof (flush_slots_did (ps_target p) (map_items (visible_image (cur :: rest) (ps_target p)))
    (wf_out cur) (wf_emitted_view cur)) as Hfl.
  destruct (fold_left _ _ _) as [out view]. intros [= <-]. constructor; [|by apply Forall_inv_tail in HF].
  split; [done|]. split; [|cbn; congruence]. cbn. rewrite Hctx. apply Hfl; [|done].
  apply Forall_forall. intros [k v] Hkv%elem_of_map_items. by eapply visible_did in Hkv.
Qed.

Lemma forget_slots_content P J f f' : content f → forget_slots P J f = Ok f' → content f'.
Proof.
  unfold forget_slots. case_match; [|by intros ? [= <-]]. intros Hf Hs.
  apply bind_Ok_iff in Hs as (p & _ & Hs). case_match; by injection Hs as <-.
Qed.
Lemma forget_overwritten_content F P J F' :
  Forall content F → forget_overwritten F P J = Ok F' → Forall content F'.
Proof. apply mapM_Forall. intros f f'. apply forget_slots_content. Qed.

Lemma merge_journal_did j k : journal_did j → journal_did k → journal_did (merge_journal j k).
Proof.
  intros Hj Hk ctx m slot v Hm Hv. unfold merge_journal in Hm. rewrite lookup_union_with in Hm.
  destruct (j !! ctx) as [m1|] eqn:H1, (k !! ctx) as [m2|] eqn:H2; cbn in Hm; simplify_eq.
  - apply lookup_union_Some_raw in Hv as [Hv|[_ Hv]]; [by eapply Hk|by eapply Hj].
  - by eapply Hj.
  - by eapply Hk.
Qed.
Lemma merge_into_parent_content F J F' :
  Forall content F → journal_did J → merge_into_parent F J = Ok F' → Forall content F'.
Proof.
  intros HF HJ. unfold merge_into_parent. destruct F as [|f rest]; [done|]. cbn. intros [= <-].
  apply Forall_cons in HF as [(Hj & Ho & Hn) Hrest]. constructor; [|done].
  split; [by apply merge_journal_did|done].
Qed.

Lemma update_program_did P id f P' :
  (∀ p, P !! id = Some p → program_did p → program_did (f p)) →
  Forall program_did P → update_program P id f = Ok P' → Forall program_did P'.
Proof.
  intros Hf HP Hu. unfold update_program, program_at, expect in Hu. destruct (P !! id) as [p|] eqn:Hp; [|done].
  injection Hu as <-. apply Forall_insert; [done|]. apply Hf; [done|]. rewrite Forall_lookup in HP. by eapply HP.
Qed.
Lemma add_child_call_gas_did P parent gas P' :
  Forall program_did P → add_child_call_gas P parent gas = Ok P' → Forall program_did P'.
Proof. intros HP. unfold add_child_call_gas. case_match; [|by intros [= <-]]. by apply update_program_did. Qed.
Lemma drop_from_did P first P' : Forall program_did P → drop_from P first = Ok P' → Forall program_did P'.
Proof.
  intros HP. unfold drop_from. case_match; [|done]. intros [= <-].
  apply Forall_app; split; [by apply Forall_take|]. apply Forall_fmap. by apply Forall_drop.
Qed.
Lemma charge_did P F gas (upd : WalkFrame → WalkFrame) P' F' :
  (∀ f, content f → content (upd f)) → Forall program_did P → Forall content F →
  ('(caller, rest) ← top_frame F;
   programs ← add_child_call_gas P (wf_program (upd caller)) gas;
   Ok (programs, upd caller :: rest)) = Ok (P', F') →
  Forall program_did P' ∧ Forall content F'.
Proof.
  intros Hupd HP HF Hc. destruct F as [|f rest]; [done|]. cbn [top_frame mbind res_bind] in Hc.
  apply bind_Ok_iff in Hc as (P1 & HP1 & [= <- <-]). apply Forall_cons in HF as [Hf Hrest].
  split; [by eapply add_child_call_gas_did|]. constructor; auto.
Qed.
Lemma close_inline_did P F p l P' F' :
  Forall program_did P → Forall content F → close_inline P F p l = Ok (P', F') →
  Forall program_did P' ∧ Forall content F'.
Proof.
  intros HP HF. unfold close_inline. intros Hc. apply bind_Ok_iff in Hc as (_ & _ & Hc).
  apply bind_Ok_iff in Hc as (_ & _ & Hc). case_match; [|by injection Hc as <- <-].
  eapply (charge_did P F _ (λ caller, if pf_emitted_create p
    then set_wf_create_gas (u64_add (wf_create_gas caller) _) caller
    else set_wf_call_gas (u64_add (wf_call_gas caller) _) caller)); [|done..|exact Hc].
  intros f Hf. by case_match.
Qed.
Lemma charge_caller_did P f F l P' F' :
  Forall program_did P → Forall content F → charge_caller P f F l = Ok (P', F') →
  Forall program_did P' ∧ Forall content F'.
Proof.
  intros HP HF. unfold charge_caller. case_match; [|by intros [= <- <-]].
  eapply (charge_did P F _ (λ caller, if wf_emitted_create f then _ else _)); [|done..].
  intros g Hg. cbn. by case_match.
Qed.

Lemma removelast_Forall {A} (Q : A → Prop) us : Forall Q us → Forall Q (removelast us).
Proof.
  induction us as [|u us _] using rev_ind; [done|]. rewrite removelast_last. by intros [? _]%Forall_app.
Qed.

Lemma close_nested_did P f F start success l P' F' :
  linked (program_id <$> P) (frame_id f) → content f → Forall program_did P → Forall content F →
  close_nested P f F start success l = Ok (P', F') →
  Forall program_did P' ∧ Forall content F'.
Proof.
  intros Hl Hf HP HF Hc. unfold close_nested in Hc. apply bind_Ok_iff in Hc as (id & Hid%expect_Some & Hc).
  destruct success.
  - apply bind_Ok_iff in Hc as (P1 & HP1 & Hc). apply bind_Ok_iff in Hc as (P2 & HP2 & Hc).
    apply bind_Ok_iff in Hc as (F1 & HF1 & Hc). apply bind_Ok_iff in Hc as (F2 & HF2 & [= <- <-]). split.
    + eapply add_child_call_gas_did; [|exact HP2]. eapply update_program_did; [|exact HP|exact HP1].
      intros p Hp _ us [= <-]. cbn. pose proof (linked_ctx _ _ _ _ Hl Hid Hp) as Hctx.
      destruct Hf as (_ & Ho & _). by rewrite Hctx in Ho.
    + eapply merge_into_parent_content; [|apply Hf|exact HF2]. by eapply forget_overwritten_content.
  - destruct F as [|g rest]; [done|]. cbn [top_frame mbind res_bind] in Hc. repeat case_match; try done.
    injection Hc as <- <-. apply Forall_cons in HF as [(Hj & Ho & Hn) Hrest]. split; [done|].
    constructor; [|done]. split; [done|]. split; [by apply removelast_Forall|]. cbn. intros Hg. by rewrite (Hn Hg).
Qed.

Lemma close_plain_did P f F success P' F' :
  (∀ g, head F = Some g → is_Some (wf_program f) →
     wf_storage_ctx g = wf_storage_ctx f ∧ wf_program g = wf_program f) →
  content f → Forall program_did P → Forall content F →
  close_plain P f F success = Ok (P', F') → Forall program_did P' ∧ Forall content F'.
Proof.
  intros Hsame Hf HP HF Hc. unfold close_plain in Hc. destruct success; [|by injection Hc as <- <-].
  apply bind_Ok_iff in Hc as (F1 & HF1 & Hc).
  assert (Forall content F1 ∧ frame_id <$> F1 = frame_id <$> F) as [H1 Hids].
  { case_match; [by injection HF1 as <-|]. split; [by eapply forget_overwritten_content|by eapply forget_overwritten_ids]. }
  destruct F1 as [|g rest]; [done|]. cbn [top_frame mbind res_bind] in Hc. injection Hc as <- <-.
  split; [done|]. apply Forall_cons in H1 as [(Hj & Ho & Hn) Hrest]. constructor; [|done].
  destruct F as [|g0 F]; [done|]. specialize (Hsame g0 eq_refl). injection Hids as _ Hctx Hprog _ _.
  assert (content (set_wf_out (wf_out g ++ wf_out f) (set_wf_journal (merge_journal (wf_journal g) (wf_journal f)) g)))
    as Hm.
  { destruct Hf as (Hjf & Hof & Hnf). split; [by apply merge_journal_did|]. cbn.
    destruct (wf_program f) as [id|] eqn:Hid.
    - destruct Hsame as [Hc0 Hp0]; [by eexists|]. split; [|cbn; congruence].
      apply Forall_app; split; [done|]. by rewrite Hctx, Hc0.
    - rewrite Hnf, app_nil_r by done. done. }
  clear -Hm. case_match; exact Hm.
Qed.

(** *** Steps *)

Lemma stack_fits_tail I G : stack_fits I G → stack_fits I (tail G).
Proof. destruct G; [done|]. cbn. tauto. Qed.
Lemma stack_fits_linked I G g : stack_fits I G → g ∈ G → linked I g.
Proof.
  induction G as [|h G IH]; [by intros _ ?%not_elem_of_nil|]. intros (_ & Hl & _ & HG) [->|Hg]%elem_of_cons; auto.
Qed.
Lemma stack_fits_depth I G g : stack_fits I G → g ∈ G → fi_depth g <= Z.of_nat (length G).
Proof.
  induction G as [|h G IH]; [by intros _ ?%not_elem_of_nil|]. intros (Hd & _ & _ & HG) [->|Hg]%elem_of_cons.
  - lia.
  - specialize (IH HG Hg). cbn. lia.
Qed.
Lemma head_linked P F f :
  stack_fits (program_id <$> P) (frame_id <$> F) → head F = Some f → linked (program_id <$> P) (frame_id f).
Proof. destruct F; [done|]. intros (_ & Hl & _) [= <-]. done. Qed.

(** Two frames, of which the upper is not nested and emits. *)
Lemma below_same P f g F :
  stack_fits (program_id <$> P) (frame_id <$> f :: g :: F) → wf_nested_start_gas f = None → is_Some (wf_program f) →
  wf_storage_ctx g = wf_storage_ctx f ∧ wf_program g = wf_program f.
Proof.
  intros (_ & Hf & Hsame & _ & Hg & _) Hn [id Hid]. cbn in Hsame. rewrite Hn in Hsame.
  specialize (Hsame eq_refl (mk_is_Some _ _ Hid)). split; [|done].
  destruct (Hf id Hid) as (y & Hy & Hctx). destruct (Hg id) as (y' & Hy' & Hctx'); [cbn; congruence|].
  cbn in *. congruence.
Qed.

Lemma close_frame_did P F l P' F' :
  stack_fits (program_id <$> P) (frame_id <$> F) → Forall content F → Forall program_did P →
  close_frame P F l = Ok (P', F') → Forall program_did P' ∧ Forall content F'.
Proof.
  intros Hfits HF HP Hc. unfold close_frame in Hc.
  apply bind_Ok_iff in Hc as ([top tail] & Htop & Hc). apply bind_Ok_iff in Hc as (_ & _ & Hc).
  apply bind_Ok_iff in Hc as (success & _ & Hc). apply bind_Ok_iff in Hc as (F1 & HF1 & Hc).
  assert (frame_id <$> F1 = frame_id <$> F ∧ Forall content F1) as [Hids H1].
  { destruct (success && _); [|by injection HF1 as <-]. split; [by eapply flush_slice_ids|].
    eapply flush_slice_content; [|exact HF|exact HF1]. intros f. by apply head_linked. }
  destruct F1 as [|f rest]; [done|]. cbn [pop_frame mbind res_bind] in Hc.
  apply bind_Ok_iff in Hc as (_ & _ & Hc). apply bind_Ok_iff in Hc as (P1 & HP1 & Hc).
  assert (program_id <$> P1 = program_id <$> P ∧ Forall program_did P1) as [Hids1 HP1'].
  { destruct success; [by injection HP1 as <-|]. split; [by eapply drop_from_ids|by eapply drop_from_did]. }
  apply bind_Ok_iff in Hc as ([P2 F2] & HP2 & Hc). apply Forall_cons in H1 as [Hf Hrest].
  pose proof (charge_caller_ids _ _ _ _ _ _ HP2) as [Hids2 HidsF].
  apply charge_caller_did in HP2 as [HP2 HF2]; [|done..].
  rewrite <-Hids, <-Hids1, <-Hids2 in Hfits.
  assert (wf_nested_start_gas top = None → wf_nested_start_gas f = None) as Htopf.
  { destruct F as [|g F0]; [done|]. injection Htop as -> ->. intros Hn.
    assert (fi_nested (frame_id f) = false) as Hfn.
    { rewrite fmap_cons in Hids. injection Hids as _ _ _ Hb _. cbn. rewrite Hb. by rewrite Hn. }
    cbn in Hfn. apply bool_decide_eq_false in Hfn. by apply eq_None_not_Some. }
  destruct (wf_nested_start_gas top).
  - eapply close_nested_did; [..|exact Hc]; try done. by apply (head_linked P2 (f :: rest)).
  - eapply close_plain_did; [..|exact Hc]; try done. intros g Hg Hsome.
    destruct F2 as [|g' F2]; [done|]. injection Hg as ->.
    assert (stack_fits (program_id <$> P2) (frame_id <$> f :: g :: F2)) as Hf2.
    { rewrite fmap_cons, HidsF. exact Hfits. }
    apply (below_same _ _ _ _ Hf2); [by apply Htopf|done].
Qed.

Lemma close_frame_walked n D P F l P' F' :
  walked n D P F → close_frame P F l = Ok (P', F') → walked n (D - 1) P' F' ∧ D = sl_depth l + 1.
Proof.
  intros (Ho & Hfits & Hs & Hlen & HF & HP) Hc.
  pose proof (close_frame_did _ _ _ _ _ Hfits HF HP Hc) as [HP' HF'].
  apply close_frame_ids in Hc as (HidP & HidF & f & Hf & Hd). destruct F as [|f' F]; [done|]. injection Hf as ->.
  split; [|destruct Hfits as [Hdf _]; cbn in Hdf; rewrite length_fmap in Hdf; cbn in Hlen; lia].
  unfold walked. rewrite HidP, HidF. split; [done|]. split; [by apply stack_fits_tail|]. split; [by apply Forall_inv_tail in Hs|].
  split; [|done]. rewrite fmap_cons in HidF. cbn [tail] in HidF. apply (f_equal length) in HidF.
  rewrite !length_fmap in HidF. cbn [length] in Hlen. lia.
Qed.

(** Closing down to the depth of a log that is not deeper. *)
Lemma close_frames_stop n fuel P F l P' F' :
  walked n (sl_depth l) P F → close_frames fuel P F l = Ok (P', F') → walked n (sl_depth l) P' F'.
Proof.
  intros Hw Hc. destruct fuel as [|fuel]; [by injection Hc as <- <-|]. cbn in Hc.
  destruct (_ <? _); [|by injection Hc as <- <-]. apply bind_Ok_iff in Hc as ([P1 F1] & Hc & _). exfalso.
  apply (close_frame_walked _ _ _ _ _ _ _ Hw) in Hc as [_ Hd]. lia.
Qed.
Lemma close_frames_walked n fuel D P F l P' F' :
  walked n D P F → 1 <= D → sl_depth l <= D → (0 < fuel)%nat → close_frames fuel P F l = Ok (P', F') →
  walked n (sl_depth l) P' F'.
Proof.
  intros Hw HD Hle Hfuel Hc. destruct fuel as [|fuel]; [lia|]. cbn in Hc.
  assert (default 1 (wf_depth <$> head F) = D) as Htop.
  { destruct Hw as (_ & Hfits & _ & Hlen & _). destruct F as [|f F]; [cbn in Hlen; lia|].
    destruct Hfits as [Hd _]. cbn in Hd, Hlen |- *. rewrite length_fmap in Hd. lia. }
  rewrite Htop in Hc. destruct (Z.ltb_spec (sl_depth l) D).
  - apply bind_Ok_iff in Hc as ([P1 F1] & Hc1 & Hc).
    apply (close_frame_walked _ _ _ _ _ _ _ Hw) in Hc1 as [Hw1 ->].
    rewrite Z.add_simpl_r in Hw1. by eapply close_frames_stop.
  - injection Hc as <- <-. by replace (sl_depth l) with D by lia.
Qed.

Lemma walked_update n D P F P' F' :
  walked n D P F → program_id <$> P' = program_id <$> P → frame_id <$> F' = frame_id <$> F →
  Forall content F' → Forall program_did P' → walked n D P' F'.
Proof.
  intros (Ho & Hfits & Hs & Hlen & _) HP HF Hc Hd. unfold walked. rewrite HP, HF.
  split_and!; try done. apply (f_equal length) in HF. rewrite !length_fmap in HF. lia.
Qed.

Lemma open_pending_walked n D open s l s1 :
  walk_state n D open s → 1 <= D → sl_depth l <= D ∨ open = true ∧ sl_depth l = D + 1 →
  open_pending s l = Ok s1 →
  ∃ D1, walked n D1 (sp_programs s1) (sp_frames s1) ∧ sl_depth l <= D1 ∧ 1 <= D1.
Proof.
  destruct s as [P F X sk]. intros (Hw & HX & Hopen) HD Hl. cbn in Hw, HX, Hopen. unfold open_pending.
  destruct X as [p|].
  - destruct HX as (Hdepth & Hscope & Hprog & Hsame). destruct (Z.eqb_spec (sl_depth l) (pf_parent_depth p + 1)) as [Heq|Hne].
    + intros [= <-]. cbn. destruct Hw as (Ho & Hfits & Hs & Hlen & HF & HP). exists (D + 1).
      split; [|lia]. split; [done|]. split; [|split; [|split; [cbn; lia|split; [|done]]]].
      * split; [cbn; rewrite length_fmap; lia|]. split; [exact Hprog|]. split; [|done].
        destruct F as [|f F]; [cbn in Hlen; lia|]. cbn. intros Hn Hsome. apply bool_decide_eq_false in Hn.
        apply Hsame; [by apply eq_None_not_Some|done].
      * constructor; [|done]. cbn. intros ctx Hctx. replace (sl_depth l) with (D + 1) by lia. by apply Hscope.
      * constructor; [|done]. split; [|done]. intros ctx m k v Hm. cbn in Hm. by rewrite lookup_empty in Hm.
    + destruct (close_inline P F p l) as [[P' F']| |] eqn:Hc; [|done..]. cbn [mbind res_bind]. intros [= <-]. cbn.
      exists D. split; [|lia]. pose proof (close_inline_ids _ _ _ _ _ _ Hc) as [??].
      pose proof Hw as (_ & _ & _ & _ & HF & HP). apply close_inline_did in Hc as [??]; [|done..].
      by eapply walked_update.
  - intros [= <-]. exists D. split; [done|]. destruct Hl as [?|[Ho _]]; [lia|]. by destruct (Hopen Ho).
Qed.

Section op.
Variables (n : nat) (l : StructLog).
Hypotheses (Hl : logs !! n = Some l) (Htyped : log_typed l) (Hfits : log_fits l).

Lemma walked_S P F : walked n (sl_depth l) P F → walked (S n) (sl_depth l) P F.
Proof.
  intros (Ho & Hf & Hs & Hlen & HF & HP). split_and!; try done. apply Forall_forall. intros g Hg ctx Hctx.
  unfold scoped in Hs. rewrite Forall_forall in Hs. specialize (Hs g Hg ctx Hctx). eapply scope_S; [exact Hs|exact Hl|].
  pose proof (stack_fits_depth _ _ _ Hf Hg) as Hd. rewrite length_fmap in Hd. lia.
Qed.

(** The log runs in the storage of the top frame. *)
Lemma top_scope P F f ctx :
  walked n (sl_depth l) P F → head F = Some f → wf_storage_ctx f = Some ctx → scope n (sl_depth l) ctx.
Proof.
  intros (_ & Hf & Hs & Hlen & _) Hhead Hctx. destruct F as [|f' F]; [done|]. injection Hhead as ->.
  destruct Hf as [Hd _]. apply Forall_inv in Hs. specialize (Hs ctx Hctx). cbn in Hd, Hs.
  rewrite length_fmap in Hd. cbn in Hlen. by replace (sl_depth l) with (wf_depth f) by lia.
Qed.
Lemma top_did P F f ctx u :
  walked n (sl_depth l) P F → head F = Some f → wf_storage_ctx f = Some ctx → emits l u → did ctx u.
Proof. intros Hw Hf Hctx Hu. exists n, l. split; [done|]. split; [by eapply top_scope|done]. Qed.

Lemma callee_scope stack a :
  opc_of (sl_op l) = OP_CALL ∨ opc_of (sl_op l) = OP_STATICCALL → sl_stack l = Some stack →
  callee_of stack = Some a → scope (S n) (sl_depth l + 1) a.
Proof.
  intros Hop Hstack Ha. unfold callee_of, second_from_top in Ha. destruct (Nat.leb_spec 2 (length stack)); [|done].
  destruct stack as [|gas stack _] using rev_ind; [cbn in *; lia|].
  destruct stack as [|to stack _] using rev_ind; [cbn in *; lia|].
  rewrite !length_app in Ha. cbn [length] in Ha. rewrite <-app_assoc, lookup_app_r in Ha by lia.
  replace (length stack + 1 + 1 - 2 - length stack)%nat with 0%nat in Ha by lia. cbn in Ha. injection Ha as <-.
  rewrite address_from_word_mod. eapply (scope_call _ _ _ n _ l gas); [by apply opens_next| |].
  - pose proof (opc_of_name (sl_op l)) as Hname. destruct Hop as [Hop|Hop]; rewrite Hop in Hname; rewrite Hname; set_solver.
  - exists stack. rewrite Hstack. by rewrite <-app_assoc.
Qed.

(** What an opcode adds to the top frame's output. *)
Lemma append_content P f F us us' sk :
  walked n (sl_depth l) P (f :: F) → is_Some (wf_program f) →
  append_state_update_from_struct_log us l = Ok (us', sk) → Forall (op_did (wf_storage_ctx f)) us →
  Forall (op_did (wf_storage_ctx f)) us'.
Proof.
  intros Hw [id Hid] Ha Hus. destruct (append_emits _ _ _ _ Htyped Hfits Ha) as [->|(u & -> & Hu)]; [done|].
  apply Forall_app; split; [done|]. apply Forall_singleton.
  pose proof Hw as (_ & (_ & Hlink & _) & _). destruct (Hlink id Hid) as (y & _ & Hctx). cbn in Hctx. rewrite Hctx.
  eapply emits_performed; [|exact Hu]. by eapply (top_did P (f :: F)).
Qed.

Lemma walk_sstore_walked P f F P' f' :
  walked n (sl_depth l) P (f :: F) → opc_of (sl_op l) = OP_SSTORE → walk_sstore P f l = Ok (P', f') →
  walked (S n) (sl_depth l) P' (f' :: F).
Proof.
  intros Hw Hop Hs. apply walked_S in Hw as Hw'. unfold walk_sstore in Hs.
  destruct (wf_storage_ctx f) as [ctx|] eqn:Hctx; [|by injection Hs as <- <-].
  destruct (sl_error l); [by injection Hs as <- <-|].
  destruct (sl_stack l) as [stack|] eqn:Hstack; [|done]. cbn [ok_or mbind res_bind] in Hs.
  apply bind_Ok_iff in Hs as (slot & Hslot & Hs). apply bind_Ok_iff in Hs as (value & Hvalue & Hs).
  assert (did ctx (UStore (mkStore slot value))) as Hdid.
  { eapply (top_did P (f :: F)); [done..|]. pose proof (opc_of_name (sl_op l)) as Hname. rewrite Hop in Hname.
    apply emits_store; [done|]. eapply operands_of; [exact Hstack|]. cbn [length seq].
    repeat (apply Forall2_cons; split; [eassumption|]). constructor. }
  set (f1 := set_wf_journal _ f) in *.
  pose proof Hw as (_ & _ & _ & _ & HF & HP). apply Forall_cons in HF as [Hf HF].
  assert (content f1) as Hf1.
  { destruct Hf as (Hj & Hout). split; [|done]. intros c m k v Hm Hk. cbn in Hm.
    apply lookup_insert_Some in Hm as [[<- <-]|[_ Hm]]; [|by eapply Hj].
    apply lookup_insert_Some in Hk as [[<- <-]|[_ Hk]]; [done|].
    destruct (wf_journal f !! ctx) eqn:Hjc; [by eapply Hj|]. cbn in Hk. by rewrite lookup_empty in Hk. }
  assert (∀ Q, program_id <$> Q = program_id <$> P → Forall program_did Q → walked (S n) (sl_depth l) Q (f1 :: F)) as Hdone.
  { intros Q HQ HQd. eapply walked_update; [exact Hw'|exact HQ|by rewrite !fmap_cons|by constructor|done]. }
  destruct (wf_program f1); [|injection Hs as <- <-; by apply Hdone].
  unfold program_at, expect in Hs. destruct (P !! n0) as [p|] eqn:Hp; [|done]. cbn [mbind res_bind] in Hs.
  case_match; injection Hs as <- <-; [|by apply Hdone]. apply Hdone; [by eapply insert_ids|].
  apply Forall_insert; [done|]. rewrite Forall_lookup in HP. exact (HP _ _ Hp).
Qed.

Lemma walk_log_walked P f F P' f' :
  walked n (sl_depth l) P (f :: F) → walk_log P f l = Ok (P', f') → walked (S n) (sl_depth l) P' (f' :: F).
Proof.
  intros Hw Hs. apply walked_S in Hw as Hw'. unfold walk_log in Hs.
  destruct (wf_program f) as [id|] eqn:Hid; [|by injection Hs as <- <-].
  destruct (sl_error l); [by injection Hs as <- <-|].
  apply bind_Ok_iff in Hs as ([out sk] & Hout & Hs). apply bind_Ok_iff in Hs as (P1 & HP1 & [= <- <-]).
  pose proof Hw as (_ & _ & _ & _ & HF & HP). apply Forall_cons in HF as [(Hj & Ho & Hn) HF].
  eapply walked_update; [exact Hw'|eapply update_program_ids; [|exact HP1]; done|by rewrite !fmap_cons| |].
  - constructor; [|done]. split; [done|]. split; [|cbn; congruence].
    exact (append_content P f F _ _ _ Hw (mk_is_Some _ _ Hid) Hout Ho).
  - eapply update_program_did; [|exact HP|exact HP1]. done.
Qed.

Lemma flush_slice_walked m D P F F' : walked m D P F → flush_slice F P = Ok F' → walked m D P F'.
Proof.
  intros Hw HF'. pose proof Hw as (_ & Hf & _ & _ & HF & HP). eapply walked_update; [exact Hw|done| | |done].
  - by eapply flush_slice_ids.
  - eapply flush_slice_content; [|exact HF|exact HF']. intros f. by apply head_linked.
Qed.

(** Pushing on the top frame's output. *)
Lemma push_walked m D P f F us :
  walked m D P (f :: F) → is_Some (wf_program f) → Forall (op_did (wf_storage_ctx f)) us →
  walked m D P (set_wf_out us f :: F).
Proof.
  intros Hw [id Hid] Hus. pose proof Hw as (_ & _ & _ & _ & HF & HP). apply Forall_cons in HF as [(Hj & _ & _) HF].
  eapply walked_update; [exact Hw|done|by rewrite !fmap_cons| |done]. constructor; [|done].
  split; [done|]. split; [done|]. cbn. congruence.
Qed.

(** A program opened by a call of the top frame. *)
Lemma linked_app I J g : linked I g → linked (I ++ J) g.
Proof. intros Hlink id Hid. destruct (Hlink id Hid) as (y & Hy & Hc). exists y. split; [by apply lookup_app_l_Some|done]. Qed.
Lemma stack_fits_app I J G : stack_fits I G → stack_fits (I ++ J) G.
Proof. induction G as [|g G IH]; [done|]. intros (Hd & Hlink & Hc & HG). split_and!; auto using linked_app. Qed.
Lemma called_app I J x : called I x → called (I ++ J) x.
Proof.
  intros (call & q & y & ? & ? & Hy & ?). exists call, q, y. split_and!; try tauto. by apply lookup_app_l_Some.
Qed.

Lemma nest_walked m D P f F parent index call :
  walked m D P (f :: F) → wf_program f = Some parent →
  (∀ ctx, wf_storage_ctx f = Some ctx → did ctx (UCall call)) →
  walked m D (P ++ [nested_program parent (wf_storage_ctx f) index call]) (f :: F).
Proof.
  intros (Ho & Hfit & Hs & Hlen & HF & HP) Hid Hcall. unfold walked. rewrite fmap_app.
  pose proof Hfit as (_ & Hlink & _). destruct (Hlink parent Hid) as (y & Hy & Hctx). cbn in Hctx.
  split_and!; try done.
  - destruct Ho as [(x & Hx & ?) Hc]. split; [exists x; split; [by apply lookup_app_l_Some|done]|].
    intros i z Hz. apply lookup_app_Some in Hz as [Hz|[_ Hz]]; [by apply called_app, (Hc i)|].
    apply list_lookup_singleton_Some in Hz as [_ <-]. exists call, parent, y. cbn. rewrite Hctx. cbn.
    split_and!; try done; [by apply lookup_app_l_Some|]. by apply Hcall.
  - by apply stack_fits_app.
  - apply Forall_app; split; [done|]. by apply Forall_singleton.
Qed.

Lemma emit_call_walked e c P F stack P' F' next :
  walked n (sl_depth l) P F → opc_of (sl_op l) = OP_CALL → sl_stack l = Some stack →
  emit_call e c P F l (callee_of stack) = Ok (P', F', next) →
  walked (S n) (sl_depth l) P' F' ∧
  pending_fits (program_id <$> P') (frame_id <$> F') (S n) (sl_depth l) next.
Proof.
  intros Hw Hop Hstack He. unfold emit_call in He.
  apply bind_Ok_iff in He as (F1 & HF1 & He). apply flush_slice_walked with (1 := Hw) in HF1 as Hw1.
  assert (∃ cur rest id, F1 = cur :: rest ∧ wf_program cur = Some id) as (cur & rest & id & -> & Hid).
  { apply flush_slice_ids in HF1 as Hids. unfold flush_slice in HF1. destruct F as [|f F]; [done|].
    cbn [top_frame mbind res_bind] in HF1. destruct (wf_program f) as [id|] eqn:Hid; [|done].
    destruct F1 as [|cur rest]; [done|]. rewrite !fmap_cons in Hids. injection Hids as _ _ Hp _ _.
    exists cur, rest, id. split; [done|congruence]. }
  cbn [top_frame mbind res_bind] in He.
  apply bind_Ok_iff in He as ([decoded sk] & Hd & He). destruct sk; [done|].
  pose proof (callee_scope stack) as Hscope.
  assert (∀ ctx, callee_of stack = Some ctx → scope (S n) (sl_depth l + 1) ctx) as Hcallee
    by (intros ctx; apply Hscope; auto).
  pose proof Hw1 as (_ & (_ & Hlink & _) & _ & _ & HF & _). apply Forall_cons in HF as [(_ & Hout & _) _].
  destruct (Hlink id Hid) as (y & Hy & Hctx). cbn in Hctx.
  assert (∀ u, last decoded = Some u → did (pi_target y) u ∧ op_did (wf_storage_ctx cur) u) as Hlast.
  { intros u Hu. destruct (append_emits _ _ _ _ Htyped Hfits Hd) as [->|(v & -> & Hv)]; [done|].
    cbn in Hu. injection Hu as <-. assert (did (pi_target y) v) as Hdid by by eapply (top_did P (cur :: rest)).
    split; [done|]. rewrite Hctx. by eapply emits_performed. }
  apply walked_S in Hw1.
  assert (Hplain : ∀ u t, last decoded = Some u →
    @Ok Error _ (P, set_wf_out (wf_out cur ++ [u]) cur :: rest, mkPendingFrame (sl_depth l) (callee_of stack) None ∅
      (Some (sl_gas l)) false None (sl_gas_cost l)) = Ok t →
    walked (S n) (sl_depth l) t.1.1 t.1.2 ∧ pending_fits (program_id <$> t.1.1) (frame_id <$> t.1.2) (S n) (sl_depth l) t.2).
  { intros u t Hu [= <-]. cbn [fst snd]. split.
    - apply push_walked; [done|by eexists|]. apply Forall_app; split; [done|]. apply Forall_singleton. by apply Hlast.
    - split_and!; try done. by intros _ [? [=]]. }
  destruct (frame_index e c (callee_of stack)) as [index|] eqn:Hi.
  2: { destruct (last decoded) as [u|] eqn:Hu; [|done]. exact (Hplain u (P', F', next) eq_refl He). }
  destruct (last decoded) as [u|] eqn:Hu; [|done].
  destruct u as [|call| | | | | | | |]; try exact (Hplain _ (P', F', next) eq_refl He).
  apply bind_Ok_iff in He as (parent & Hparent & He). apply bind_Ok_iff in He as (P1 & HP1 & He).
  injection He as <- <- <-. rewrite Hid in Hparent. injection Hparent as <-.
  destruct (Hlast _ eq_refl) as [Hdid _].
  assert (program_id <$> P1 = program_id <$> (P ++ [nested_program id (wf_storage_ctx cur) index call])) as Hids1
    by (eapply update_program_ids; [|exact HP1]; done).
  assert (walked (S n) (sl_depth l) P1 (cur :: rest)) as Hw2.
  { assert (walked (S n) (sl_depth l) (P ++ [nested_program id (wf_storage_ctx cur) index call]) (cur :: rest)) as Hn.
    { apply nest_walked; [done..|]. intros ctx Hc. rewrite Hctx in Hc. by injection Hc as <-. }
    pose proof Hn as (_ & _ & _ & _ & HF & HP). eapply walked_update; [exact Hn|done..|].
    eapply update_program_did; [|exact HP|exact HP1]. done. }
  split.
  - apply push_walked; [done|by eexists|]. apply Forall_app; split; [done|]. apply Forall_singleton.
    rewrite Hctx. cbn. exists (call_args call). by destruct call.
  - split_and!; [done|exact Hcallee| |done]. intros id' [= <-]. rewrite Hids1, fmap_app.
    eexists. split.
    + rewrite lookup_app_r by (rewrite length_fmap; lia). by rewrite length_fmap, Nat.sub_diag.
    + cbn. by eapply decoded_callee.
Qed.

Lemma walk_call_walked e c P F P' F' X :
  walked n (sl_depth l) P F → opc_of (sl_op l) = OP_CALL → walk_call e c P F l = Ok (P', F', X) →
  walked (S n) (sl_depth l) P' F' ∧
  holds (pending_fits (program_id <$> P') (frame_id <$> F') (S n) (sl_depth l)) X ∧ (sl_error l = None → is_Some X).
Proof.
  intros Hw Hop Hc. unfold walk_call in Hc. apply bind_Ok_iff in Hc as ([cur rest] & _ & Hc).
  destruct (sl_stack l) as [stack|] eqn:Hstack; [|done]. cbn [ok_or mbind res_bind] in Hc.
  destruct (sl_error l); [injection Hc as <- <- <-; split; [by apply walked_S|done]|].
  destruct (wf_program cur).
  - apply bind_Ok_iff in Hc as ([[P1 F1] next] & He & Hc). injection Hc as <- <- <-.
    by apply emit_call_walked in He as [??].
  - injection Hc as <- <- <-. split; [by apply walked_S|]. split; [|by eexists].
    split_and!; [done| |done|by intros _ [? [=]]]. intros ctx. apply callee_scope; auto.
Qed.

Lemma walk_create_walked P F F' X :
  walked n (sl_depth l) P F → walk_create P F l = Ok (F', X) →
  walked (S n) (sl_depth l) P F' ∧
  holds (pending_fits (program_id <$> P) (frame_id <$> F') (S n) (sl_depth l)) X ∧ (sl_error l = None → is_Some X).
Proof.
  intros Hw Hc. unfold walk_create in Hc. apply bind_Ok_iff in Hc as ([cur rest] & _ & Hc).
  assert (∀ G gas emitted, pending_fits (program_id <$> P) (frame_id <$> G) (S n) (sl_depth l)
    (mkPendingFrame (sl_depth l) None None ∅ gas emitted None 0)) as Hp.
  { intros G gas emitted. split_and!; try done. by intros _ [? [=]]. }
  destruct (sl_error l); [injection Hc as <- <-; split; [by apply walked_S|done]|].
  destruct (wf_program cur); [|injection Hc as <- <-; split; [by apply walked_S|split; [apply Hp|by eexists]]].
  apply bind_Ok_iff in Hc as (F1 & HF1 & Hc). apply flush_slice_walked with (1 := Hw) in HF1 as Hw1.
  assert (∃ f tail, F1 = f :: tail ∧ is_Some (wf_program f)) as (f & tail & -> & Hsome).
  { apply flush_slice_ids in HF1 as Hids. unfold flush_slice in HF1. destruct F as [|f F]; [done|].
    cbn [top_frame mbind res_bind] in HF1. destruct (wf_program f) as [id|] eqn:Hid; [|done].
    destruct F1 as [|f1 tail]; [done|]. rewrite !fmap_cons in Hids. injection Hids as _ _ Hpr _ _.
    exists f1, tail. split; [done|]. rewrite Hpr. by eexists. }
  cbn [top_frame mbind res_bind] in Hc. apply bind_Ok_iff in Hc as ([out sk] & Ha & Hc). destruct sk; [done|].
  injection Hc as <- <-. split; [|split; [apply Hp|by eexists]].
  pose proof Hw1 as (_ & _ & _ & _ & HF & _). apply Forall_cons in HF as [(_ & Hout & _) _].
  apply push_walked; [by apply walked_S|done|]. by eapply append_content.
Qed.
End op.

Lemma walk_op_walked n l e c P F X0 sk s :
  logs !! n = Some l → log_typed l → log_fits l → walked n (sl_depth l) P F →
  walk_op e c (mkSplitState P F X0 sk) l = Ok s →
  walk_state (S n) (sl_depth l) (may_open l) s ∧ 1 <= sl_depth l.
Proof.
  intros Hl Ht Hfits Hw Hop. unfold walk_op in Hop. destruct F as [|cur rest]; [done|].
  cbn [top_frame mbind res_bind] in Hop.
  assert (1 <= sl_depth l) as Hd. { destruct Hw as (_ & _ & _ & Hlen & _). cbn in Hlen. lia. }
  split; [|exact Hd]. apply (walked_S n l Hl) in Hw as Hw'.
  assert (Hsame : ∀ sk', walk_state (S n) (sl_depth l) false (mkSplitState P (cur :: rest) None sk')) by done.
  assert (Hlog : ('(programs, cur) ← walk_log P cur l;
    Ok (mkSplitState programs (cur :: rest) None sk)) = Ok s → walk_state (S n) (sl_depth l) false s).
  { intros Hk. apply bind_Ok_iff in Hk as ([P1 f1] & Hk & [= <-]).
    eapply (walk_log_walked n l Hl Ht Hfits) in Hk; [|exact Hw]. done. }
  assert (Hcreate : ('(frames, pending) ← walk_create P (cur :: rest) l;
    Ok (mkSplitState P frames pending sk)) = Ok s → walk_state (S n) (sl_depth l)
      match sl_error l with Some _ => false | None => true end s).
  { intros Hk. apply bind_Ok_iff in Hk as ([F1 X1] & Hk & [= <-]).
    eapply (walk_create_walked n l Hl Ht Hfits) in Hk as (Hk & HX & Hsome); [|exact Hw].
    split; [done|]. split; [done|]. cbn. destruct (sl_error l); [done|]. auto. }
  assert (Hdelegate : sl_op l ∈ ["DELEGATECALL"; "CALLCODE"]%string →
    @Ok Error _ (mkSplitState P (cur :: rest)
      match sl_error l with Some _ => None | None => Some (delegate_pending cur l) end sk) = Ok s →
    walk_state (S n) (sl_depth l) match sl_error l with Some _ => false | None => true end s).
  { intros Hname [= <-]. split; [done|]. destruct (sl_error l); [done|]. split; [|by eexists]. cbn.
    pose proof Hw as (_ & (_ & Hlink & _) & _). split_and!; [done| |exact Hlink|done].
    intros ctx Hctx. eapply scope_delegate; [by apply opens_next|done|]. by eapply (top_scope n l P (cur :: rest)). }
  pose proof (opc_of_name (sl_op l)) as Hname. unfold may_open.
  destruct (opc_of (sl_op l)) eqn:Hopc.
  2,3,15: injection Hop as <-; apply Hsame.
  4,5: apply Hdelegate; [rewrite Hname; set_solver|exact Hop].
  4,5: exact (Hcreate Hop).
  4-8: exact (Hlog Hop).
  - apply bind_Ok_iff in Hop as ([P1 f1] & Hk & [= <-]).
    eapply (walk_sstore_walked n l Hl) in Hk; [done|exact Hw|done].
  - apply bind_Ok_iff in Hop as ([[P1 F1] X1] & Hk & [= <-]).
    eapply (walk_call_walked n l Hl Ht Hfits) in Hk as (Hk & HX & Hsome); [|exact Hw|done].
    split; [done|]. split; [done|]. cbn. destruct (sl_error l); [done|]. auto.
  - destruct (sl_error l); [injection Hop as <-; apply Hsame|].
    apply bind_Ok_iff in Hop as (stack & Hstack & [= <-]). split; [done|]. split; [|by eexists].
    split_and!; [done| |done|by intros _ [? [=]]]. intros ctx.
    apply (callee_scope n l) with (stack := stack); try done; [by right|].
    by destruct (sl_stack l); [injection Hstack as ->|].
Qed.

Lemma split_step_walked n l e cands D open s s' :
  logs !! n = Some l → log_typed l → log_fits l → walk_state n D open s → 1 <= D →
  sl_depth l <= D ∨ open = true ∧ sl_depth l = D + 1 →
  split_step e cands s (n, l) = Ok s' → walk_state (S n) (sl_depth l) (may_open l) s' ∧ 1 <= sl_depth l.
Proof.
  intros Hl Ht Hfits Hs HD Hdepth Hstep. unfold split_step in Hstep.
  apply bind_Ok_iff in Hstep as (s1 & H1 & Hstep).
  destruct (open_pending_walked _ _ _ _ _ _ Hs HD Hdepth H1) as (D1 & Hw & Hle & HD1).
  apply bind_Ok_iff in Hstep as ([P F] & Hcl & Hstep).
  eapply close_frames_walked in Hcl; [|exact Hw|exact HD1|exact Hle|].
  - by eapply walk_op_walked.
  - destruct Hw as (_ & _ & _ & Hlen & _). lia.
Qed.

Lemma split_run_walked e cands suffix n D open s s' :
  drop n logs = suffix → Forall log_typed suffix → Forall log_fits suffix → walk_state n D open s → 1 <= D →
  well_nested D open suffix = true →
  foldM (split_step e cands) (zip (seq n (length suffix)) suffix) s = Ok s' →
  ∃ D' open', walk_state (n + length suffix) D' open' s'.
Proof.
  revert n D open s. induction suffix as [|l suffix IH]; intros n D open s Hdrop Ht Hfits Hs HD Hn Hrun.
  { injection Hrun as <-. exists D, open. by rewrite Nat.add_0_r. }
  apply Forall_cons in Ht as [Htl Ht]. apply Forall_cons in Hfits as [Hfl Hfits].
  assert (logs !! n = Some l) as Hl by (rewrite <-(Nat.add_0_r n), <-lookup_drop, Hdrop; done).
  cbn [well_nested] in Hn. apply andb_true_iff in Hn as [Hdepth Hn].
  cbn [length seq zip zip_with foldM] in Hrun. apply bind_Ok_iff in Hrun as (s1 & Hs1 & Hrun).
  eapply split_step_walked in Hs1 as [Hs1 Hd1]; [|done..|].
  - cbn [length]. replace (n + S (length suffix))%nat with (S n + length suffix)%nat by lia. eapply (IH (S n)); try done.
    by rewrite <-Nat.add_1_r, <-drop_drop, Hdrop.
  - apply orb_true_iff in Hdepth as [Hd|[-> Hd]%andb_true_iff]; [left; lia|right; split; [done|lia]].
Qed.

(** ** The programs after the walk *)

Lemma drop_range_did P first P' :
  drop_range P first = Ok P' → Forall program_did P →
  Forall program_did P' ∧ program_id <$> P' = program_id <$> P.
Proof.
  intros Hd HP. eapply (foldM_inv (λ Q, Forall program_did Q ∧ program_id <$> Q = program_id <$> P)); [|done|exact Hd].
  intros Q id Q' _ [HQ Hids] Hstep. unfold drop_if_orphan in Hstep.
  apply bind_Ok_iff in Hstep as (p & Hp%expect_Some & Hstep). apply bind_Ok_iff in Hstep as (d & _ & [= <-]).
  destruct d; [|done]. split; [|rewrite <-Hids; by eapply insert_ids].
  apply Forall_insert; [done|]. rewrite Forall_lookup in HQ. exact (HQ _ _ Hp).
Qed.

Lemma retain_children_did P P' :
  retain_children P = Ok P' → Forall program_did P →
  Forall program_did P' ∧ program_id <$> P' = program_id <$> P.
Proof.
  intros Hr HP. split.
  - eapply mapM_Forall; [|exact HP|exact Hr]. intros p q Hp Hq. by apply bind_Ok_iff in Hq as (cs & _ & [= <-]).
  - eapply mapM_fmap_Ok; [|exact Hr]. intros p q Hq. by apply bind_Ok_iff in Hq as (cs & _ & [= <-]).
Qed.

Lemma replace_nested_did ctx pos u us us' :
  performed ctx u → Forall (performed ctx) us → replace_nested pos u us = Some us' → Forall (performed ctx) us'.
Proof.
  intros Hu Hus. revert pos us'. induction Hus as [|x us Hx Hus IH]; cbn; intros pos us'; [done|].
  destruct (is_nested x); [destruct pos as [|pos]|].
  - intros [= <-]. by constructor.
  - intros (vs & Hvs & ->)%fmap_Some. constructor; eauto.
  - intros (vs & Hvs & ->)%fmap_Some. constructor; eauto.
Qed.

Lemma unnest_did P id P' :
  opened (program_id <$> P) → Forall program_did P → unnest P id = Ok P' →
  Forall program_did P' ∧ program_id <$> P' = program_id <$> P.
Proof.
  intros Ho HP Hu. unfold unnest in Hu.
  apply bind_Ok_iff in Hu as (p & Hp%expect_Some & Hu). apply bind_Ok_iff in Hu as (parent & Hparent%expect_Some & Hu).
  apply bind_Ok_iff in Hu as (q & Hq%expect_Some & Hu). apply bind_Ok_iff in Hu as (pos & _ & Hu).
  apply bind_Ok_iff in Hu as (fallback & Hfb%expect_Some & Hu).
  apply bind_Ok_iff in Hu as (us & Hus%expect_Some & Hu).
  apply bind_Ok_iff in Hu as (vs & Hvs%expect_Some & Hu).
  apply bind_Ok_iff in Hu as (P1 & HP1 & Hu). apply bind_Ok_iff in Hu as (P2 & HP2 & Hu).
  assert (performed (ps_target q) (UCall fallback)) as Hcall.
  { destruct Ho as [(x & Hx & _ & Hroot) Hc]. destruct id as [|id].
    - rewrite list_lookup_fmap, Hp in Hx. injection Hx as <-. cbn in Hroot. congruence.
    - destruct (Hc id (program_id p)) as (call & q' & y & Hf & Hpar & Hy & Hcaller & _ & _ & _ & Hdid);
        [by rewrite list_lookup_fmap, Hp|]. cbn in Hf, Hpar. simplify_eq.
      rewrite list_lookup_fmap, Hq in Hy. injection Hy as <-. by rewrite Hcaller in Hdid. }
  assert (Forall program_did P1) as HP1'.
  { eapply update_program_did; [|exact HP|exact HP1]. intros r Hr Hrd ws [= <-]. cbn. simplify_eq.
    eapply replace_nested_did; [exact Hcall| |exact Hvs]. by apply Hrd. }
  assert (Forall program_did P2) as HP2' by by eapply update_program_did in HP2.
  apply update_program_ids in HP1; [|done]. apply update_program_ids in HP2; [|done].
  apply drop_range_did in Hu as [Hd Hids]; [|done]. split; [done|congruence].
Qed.

Lemma prune_did P cost P' :
  opened (program_id <$> P) → Forall program_did P → prune_unprofitable P cost = Ok P' →
  Forall program_did P' ∧ program_id <$> P' = program_id <$> P.
Proof.
  intros Ho HP Hp. unfold prune_unprofitable in Hp.
  apply bind_Ok_iff in Hp as ([[Q wb] ns] & Hf & [= <-]).
  apply (foldM_inv (λ st : list ProgramState * list Z * list Z,
    Forall program_did st.1.1 ∧ program_id <$> st.1.1 = program_id <$> P)) in Hf; [exact Hf| |done].
  intros [[Q' wb'] ns'] id st' _ [HQ Hids] Hs. cbn in HQ, Hids. unfold prune_step in Hs.
  apply bind_Ok_iff in Hs as (p & _ & Hs). case_match; [by injection Hs as <-|].
  apply bind_Ok_iff in Hs as (size & _ & Hs). apply bind_Ok_iff in Hs as (depth & _ & Hs).
  apply bind_Ok_iff in Hs as (savings & _ & Hs). case_match; [by injection Hs as <-|].
  apply bind_Ok_iff in Hs as (P1 & HP1 & [= <-]). rewrite <-Hids in Ho.
  apply unnest_did in HP1 as [? Hids1]; [|done..]. cbn. split; [done|congruence].
Qed.

(** ** The tree *)

Lemma initial_walked ri : walk_state 0 1 false (initial_split_state root ri).
Proof.
  assert (walked 0 1 [root_program root ri] [root_frame root]) as Hw; [|by split; [exact Hw|]].
  split_and!.
  - split; [by eexists|]. intros i x Hx. by rewrite lookup_nil in Hx || destruct i.
  - split_and!; try done. intros id [= <-]. by eexists.
  - apply Forall_singleton. intros ctx [= <-]. apply scope_root.
  - done.
  - apply Forall_singleton. split_and!; [|constructor|done]. intros ctx m k v Hm. cbn in Hm. by rewrite lookup_empty in Hm.
  - apply Forall_singleton. by intros us [=].
Qed.

Lemma finish_root_did n D open s P f :
  walk_state n D open s → finish_root s = Ok (P, f) →
  opened (program_id <$> P) ∧ Forall program_did P.
Proof.
  destruct s as [P0 F X sk]. intros (Hw & _) Hf. cbn in Hw. unfold finish_root in Hf.
  apply bind_Ok_iff in Hf as ([] & Hlen & Hf). apply bind_Ok_iff in Hf as (F1 & HF1 & Hf).
  apply (flush_slice_walked _ _ _ _ _ Hw) in HF1 as Hw1.
  destruct F1 as [|f1 rest]; [done|]. cbn [top_frame mbind res_bind] in Hf.
  apply bind_Ok_iff in Hf as (P1 & HP1 & [= <- <-]). destruct Hw1 as (Ho & Hfits & _ & _ & HF & HP).
  assert (rest = []) as ->.
  { apply flush_slice_ids, (f_equal length) in HF1. rewrite !length_fmap in HF1.
    unfold bail_if in Hlen. destruct (Nat.eqb_spec (length F) 1); [|done]. cbn in HF1. by destruct rest; [|cbn in HF1; lia]. }
  apply update_program_ids in HP1 as Hids; [|done]. split; [by rewrite Hids|].
  eapply update_program_did; [|exact HP|exact HP1]. intros p Hp _ us [= <-]. cbn.
  destruct Hfits as (_ & Hlink & Hroot & _). injection Hroot as _ _ Hprog _.
  pose proof (linked_ctx _ _ _ _ Hlink Hprog Hp) as Hctx. apply Forall_inv in HF as (_ & Hout & _).
  by rewrite Hctx in Hout.
Qed.

(** A frame after the first is a program after the first. *)
Lemma compact_programs P frames :
  compact P = Ok frames → Forall2 (λ p f, compact_program P p = Ok f) (List.filter is_kept P) frames.
Proof. apply mapM_Ok_Forall2. Qed.
Lemma kept_later P i p : List.filter is_kept P !! S i = Some p → ∃ j, P !! S j = Some p.
Proof.
  destruct P as [|p0 P]; [done|]. cbn [List.filter]. intros Hi.
  assert (p ∈ List.filter is_kept P) as Hp.
  { destruct (is_kept p0); [by eapply list_elem_of_lookup_2|]. by eapply list_elem_of_lookup_2. }
  apply list_elem_of_In, filter_In in Hp as [Hp _]. apply list_elem_of_In, list_elem_of_lookup in Hp as [j Hj].
  by exists j.
Qed.
Lemma compact_program_fields P p f :
  compact_program P p = Ok f →
  ps_updates p = Some (fp_updates f) ∧ fp_target f = ps_target p ∧ fp_caller f = ps_caller p ∧
  fp_value f = ps_value p ∧ fp_calldata_hash f = ps_calldata_hash p.
Proof.
  unfold compact_program. intros Hc. apply bind_Ok_iff in Hc as (us & Hus & Hc).
  apply bind_Ok_iff in Hc as (cs & _ & [= <-]). cbn. by destruct (ps_updates p); [injection Hus as ->|].
Qed.

Lemma compact_did P frames :
  compact P = Ok frames → opened (program_id <$> P) → Forall program_did P →
  (∀ f u, f ∈ frames → u ∈ fp_updates f → performed (fp_target f) u) ∧
  (∀ i g, frames !! S i = Some g → ∃ args,
     did (fp_caller g) (UCall (mkCall (fp_target g) (fp_value g) args)) ∧ fp_calldata_hash g = keccak256 args).
Proof.
  intros Hc%compact_programs Ho HP. split.
  - intros f u [i Hi]%list_elem_of_lookup Hu. destruct (Forall2_lookup_r _ _ _ _ _ Hc Hi) as (p & Hp & Hf).
    apply compact_program_fields in Hf as (Hus & Ht & _). apply list_elem_of_lookup_2, list_elem_of_In, filter_In in Hp as [Hp _].
    rewrite Forall_forall in HP. apply list_elem_of_In, HP in Hp. specialize (Hp _ Hus).
    rewrite Forall_forall in Hp. rewrite Ht. by apply Hp.
  - intros i g Hg. destruct (Forall2_lookup_r _ _ _ _ _ Hc Hg) as (p & Hp & Hf).
    apply compact_program_fields in Hf as (_ & Ht & Hcl & Hv & Hh). apply kept_later in Hp as [j Hj].
    destruct Ho as [_ Ho]. destruct (Ho j (program_id p)) as (call & q & y & _ & _ & _ & _ & Ht' & Hv' & Hh' & Hdid);
      [by rewrite list_lookup_fmap, Hj|]. cbn in *. exists (call_args call).
    rewrite Ht, Hcl, Hv, Hh, Ht', Hv', Hh'. split; [by destruct call|done].
Qed.
End walk.

(** ** Properties *)

(** C16: Whatever the eligibility and the cost model, on a trace whose depths nest: every operation of every
    frame that [split_frame_tree] returns was made by a log of the trace that ran in the storage of the frame's
    contract (as the calls and delegations below it say), with the operands of its opcode; a [NESTED] op stands
    for such a [CALL]. Every other frame was called so by its caller, with its value and the data its calldata
    hash is of. All values have the types of their Solidity fields, and the gas totals fit [u64]. *)
Theorem split_frame_tree_performed `{TypeLaws} trace root e cost tree :
  is_address root → Forall log_typed (df_struct_logs trace) → Forall log_fits (df_struct_logs trace) →
  well_nested 1 false (df_struct_logs trace) = true →
  split_frame_tree trace root e cost = Ok tree →
  let logs := df_struct_logs trace in
  (∀ f u, f ∈ fte_frames tree → u ∈ fp_updates f → performed root logs (fp_target f) u) ∧
  (∀ i g, fte_frames tree !! S i = Some g → ∃ args,
     did root logs (fp_caller g) (UCall (mkCall (fp_target g) (fp_value g) args)) ∧
     fp_calldata_hash g = keccak256 args) ∧
  tree_typed tree.
Proof.
  intros Hroot Ht Hfits Hnest Hs logs. pose proof (split_frame_tree_frames _ _ _ _ _ Hroot Ht Hs) as Htyped.
  apply and_assoc. split; [|exact Htyped]. unfold split_frame_tree in Hs.
  apply bind_Ok_iff in Hs as ([cands ri] & _ & Hs). apply bind_Ok_iff in Hs as (s & Hwalk & Hs).
  eapply (split_run_walked root logs) in Hwalk as (D & open & Hw);
    [|done|exact Ht|exact Hfits|apply initial_walked|lia|exact Hnest].
  apply bind_Ok_iff in Hs as ([P f] & Hf & Hs). apply (finish_root_did _ _ _ _ _ _ _ _ Hw) in Hf as [Ho HP].
  unfold finish_split in Hs. apply bind_Ok_iff in Hs as (P1 & HP1 & Hs).
  apply (drop_range_did root logs) in HP1 as [HP1 Hids1]; [|done].
  apply bind_Ok_iff in Hs as (P2 & HP2 & Hs). apply (retain_children_did root logs) in HP2 as [HP2 Hids2]; [|done].
  assert (opened root logs (program_id <$> P2)) as Ho2 by by rewrite Hids2, Hids1.
  apply bind_Ok_iff in Hs as (P3 & HP3 & Hs). apply (prune_did root logs) in HP3 as [HP3 Hids3]; [|done..].
  apply bind_Ok_iff in Hs as (g1 & _ & Hs). apply bind_Ok_iff in Hs as (g2 & _ & Hs).
  apply bind_Ok_iff in Hs as (g3 & _ & Hs). apply bind_Ok_iff in Hs as (frames & Hfr & [= <-]).
  apply (compact_did root logs _ _ Hfr); [by rewrite Hids3|done].
Qed.

(** ** A sample *)

#[local] Existing Instances SplitTyping.word_externals SplitTyping.word_type_laws.

(** The root stores, calls the nested contract 77, which stores, and both programs hold what they did. *)
Lemma split_frame_tree_performed_witness :
  ∃ tree, typed_split = Ok tree ∧
    (fp_target <$> fte_frames tree) = [10; 77] ∧
    (∀ f u, f ∈ fte_frames tree → u ∈ fp_updates f →
       performed 10 (df_struct_logs typed_nested) (fp_target f) u) ∧
    ∃ g args, fte_frames tree !! 1%nat = Some g ∧
      did 10 (df_struct_logs typed_nested) (fp_caller g) (UCall (mkCall (fp_target g) (fp_value g) args)).
Proof.
  destruct typed_split as [tree| |] eqn:Hs; [|vm_compute in Hs; discriminate Hs..].
  assert (fp_target <$> fte_frames tree = [10; 77]) as Htargets
    by (vm_compute in Hs; injection Hs as <-; reflexivity).
  assert (is_Some (fte_frames tree !! 1%nat)) as [g Hg].
  { apply lookup_lt_is_Some. apply (f_equal length) in Htargets. rewrite length_fmap in Htargets. rewrite Htargets. cbn. lia. }
  exists tree. split; [reflexivity|]. split; [exact Htargets|].
  destruct (split_frame_tree_performed typed_nested 10 (Consumers (λ a, a =? 77)) NESTING_COST_MODEL_V1 tree)
    as (Hops & Hcalls & _); [by_compute|by_compute| |vm_compute; reflexivity|exact Hs|].
  - repeat (apply Forall_cons; split; [apply fits_spec; vm_compute; reflexivity|]). constructor.
  - split; [exact Hops|]. destruct (Hcalls 0%nat g Hg) as (args & Hdid & _). exists g, args. split; [exact Hg|exact Hdid].
Defined.
