(* ===== verification/Estimator.v ===== *)
(** * Running a frame tree through the EVM

    [crates/gas-estimator/src/lib.rs]: the per-transaction gas cap, the calldata of the estimator
    contract, the injection of that contract, and the run of a nested tree piece by piece. revm is a
    parameter: a database of accounts with the operations of [CacheDB], and the outcome of one
    transaction on it. *)

From S2P Require Import Prelude.
From S2P Require Import Types.
From S2P Require Import Instances.
From S2P Require Import Encoding.
From S2P Require Import Trace.
From S2P Require Import Heuristic.
From S2P Require Import Prune.

(** ** The per-transaction cap *)

(** revm's [SpecId] is a C-like enum ordered by activation; the code compares it with [OSAKA]. *)
Definition EIP7825_TX_GAS_CAP : Z := 2 ^ 24.

Definition effective_tx_gas_limit (osaka gas_limit spec : Z) : Z :=
  if osaka <=? spec then Z.min gas_limit EIP7825_TX_GAS_CAP else gas_limit.

(** ** The calldata *)

(** [DynSolValue::Tuple([uint8[], bytes[]]).abi_encode_params()], of the tuple's two arrays. *)
Class DynAbi := { dyn_encode_params : list Z → list (list Z) → list Z }.

Definition RUN_STATE_UPDATES_SELECTOR : list Z := [0x7a; 0x88; 0x8d; 0xbc].

Definition build_gas_estimation_calldata `{Externals, DynAbi} (state_updates : list StateUpdate)
  : list Z :=
  let '(types, args) := encode_state_updates_to_sol state_updates in
  RUN_STATE_UPDATES_SELECTOR ++ dyn_encode_params (StateUpdateType_as_u8 <$> types) args.

(** ** The database and the EVM, as parameters *)

Record AccountInfo := mkAccountInfo {
  ai_balance : Z;
  ai_nonce : Z;
  ai_code_hash : Z;
  ai_code : option (list Z)
}.

(** [AccountInfo::default()]: the empty account; its code is empty bytecode under [KECCAK_EMPTY]. *)
Definition default_account (keccak_empty : Z) : AccountInfo := mkAccountInfo 0 0 keccak_empty (Some []).

Inductive ExecutionResult : Type :=
  | ExSuccess (gas_used : Z)
  | ExRevert (gas_used : Z) (output : list Z)
  | ExHalt (gas_used : Z).

(** The parts of revm the code calls. [db_set_code_hash] writes the cached account's hash in place;
    [evm_transact] runs one call transaction and returns its result and the database with its
    writes. *)
Class Revm (DB : Type) := {
  db_basic : DB → Z → option AccountInfo;
  db_insert_account : DB → Z → AccountInfo → DB;
  db_set_code_hash : DB → Z → Z → DB;
  db_insert_storage : DB → Z → Z → Z → option DB;
  db_storage : DB → Z → Z → Z;
  hash_slow : list Z → Z;
  keccak_empty : Z;
  evm_transact : DB → Z → Z → list Z → Z → Z → option (ExecutionResult * DB)
}.

(** What the code relies on: an inserted account is the one read back, and no other changes. *)
Class RevmLaws (DB : Type) `{Revm DB} : Prop := {
  basic_insert_same db a i : db_basic (db_insert_account db a i) a = Some i;
  basic_insert_other db a b i : a ≠ b → db_basic (db_insert_account db a i) b = db_basic db b;
  basic_hash_same db a i h : db_basic db a = Some i →
    db_basic (db_set_code_hash db a h) a =
    Some (mkAccountInfo (ai_balance i) (ai_nonce i) h (ai_code i));
  basic_hash_other db a b h : a ≠ b → db_basic (db_set_code_hash db a h) b = db_basic db b;
  basic_storage db a s v db' b : db_insert_storage db a s v = Some db' → db_basic db' b = db_basic db b;
  storage_same db a s v db' : db_insert_storage db a s v = Some db' → db_storage db' a s = v
}.

Section estimator.
Context {DB : Type} `{Externals} `{DynAbi} `{Revm DB}.
(** The embedded contract's code, and the environment's fields the code reads. *)
Variables (estimator_code : list Z) (osaka env_gas_limit env_spec : Z).

Definition ascii_bytes (s : string) : list Z :=
  (λ c, Z.of_nat (Ascii.nat_of_ascii c)) <$> String.list_ascii_of_string s.

Definition estimator_hash : Z := hash_slow estimator_code.

(** [U256] subtraction wraps. *)
Definition IMPL_SLOT : Z :=
  (keccak256 (ascii_bytes "gas.estimator.implementation") - 1) mod 2 ^ 256.

(** The last 20 bytes of the hash. *)
Definition backup_address (contract_address : Z) : Z :=
  address_from_word
    (keccak256 (ascii_bytes "gas.estimator.backup" ++ be_bytes 20 contract_address)).

(** The original code of an account, if it has any, and the hash it is kept under. *)
Definition original_code (account : AccountInfo) : option (list Z * Z) :=
  match ai_code account with
  | Some (b :: code) =>
      let stored := ai_code_hash account in
      let hash := if (stored =? 0) || (stored =? keccak_empty) then hash_slow (b :: code) else stored in
      Some (b :: code, hash)
  | _ => None
  end.

Definition inject_estimator (db : DB) (contract_address : Z) : Result DB :=
  let backup_addr := backup_address contract_address in
  let original_account := default (default_account keccak_empty) (db_basic db contract_address) in
  let '(db, original_hash) :=
    match original_code original_account with
    | Some (code, hash) =>
        (db_insert_account db backup_addr (mkAccountInfo 0 0 hash (Some code)), hash)
    | None => (db, estimator_hash)
    end in
  let db := db_insert_account db contract_address
    (mkAccountInfo (ai_balance original_account) (ai_nonce original_account) estimator_hash
       (Some estimator_code)) in
  let db := db_set_code_hash db contract_address original_hash in
  ok_or (db_insert_storage db contract_address IMPL_SLOT backup_addr)
    (EEstimator "Failed to write IMPL_SLOT").

(** A value is credited to the caller before the run; the transaction then debits it. *)
Definition fund_caller (db : DB) (caller_address value : Z) : DB :=
  if value =? 0 then db
  else
    let account := default (default_account keccak_empty) (db_basic db caller_address) in
    db_insert_account db caller_address
      (mkAccountInfo (Z.min (ai_balance account + value) u256_max) (ai_nonce account)
         (ai_code_hash account) (ai_code account)).

(** [run_estimator]: the gas and the database after it, which keeps the run's writes if [commit]. *)
Definition run_estimator (db : DB) (contract_address caller_address : Z) (calldata : list Z)
  (value : Z) (commit : bool) : Result (Z * DB) :=
  let db := fund_caller db caller_address value in
  let tx_gas_limit := effective_tx_gas_limit osaka env_gas_limit env_spec in
  '(result, db') ← ok_or (evm_transact db caller_address contract_address calldata value tx_gas_limit)
    (EEstimator "Gas estimation failed");
  match result with
  | ExSuccess gas_used => Ok (gas_used, if commit then db' else db)
  | ExRevert _ _ => Err (EEstimator "Gas estimation reverted")
  | ExHalt _ => Err (EEstimator "Gas estimation halted")
  end.

Definition estimate_gas_raw (db : DB) (contract_address caller_address : Z) (calldata : list Z)
  (value : Z) : Result (Z * DB) :=
  db ← inject_estimator db contract_address;
  run_estimator db contract_address caller_address calldata value false.

Definition estimate_state_changes_gas (db : DB) (contract_address caller_address : Z)
  (state_updates : list StateUpdate) (value : Z) : Result (Z * DB) :=
  estimate_gas_raw db contract_address caller_address (build_gas_estimation_calldata state_updates)
    value.

(** ** Frame trees *)

(** [struct FrameTreeRun], but its environment. *)
Variables (frames : list FrameProgram) (caller_address : Z).

(** [FrameTreeRun::piece]. *)
Definition run_piece (db : DB) (index piece_index : nat) (updates : list StateUpdate) (value : Z)
  : Result (Z * DB) :=
  frame ← expect (frames !! index) "index out of bounds";
  let value := if (piece_index =? 0)%nat then value else 0 in
  '(gas, db) ← run_estimator db (fp_target frame) caller_address
    (build_gas_estimation_calldata updates) value true;
  Ok (if (piece_index =? 0)%nat then gas else sat_sub gas BASE_TX_COST, db).

(** The locals of [FrameTreeRun::run] that change in its loop. *)
Record RunState := mkRunState {
  rs_db : DB;
  rs_frame_gas : list Z;
  rs_children : list nat;
  rs_piece : list StateUpdate;
  rs_pieces : nat;
  rs_gas : Z
}.

(** The piece gathered so far runs unless it is an empty later one. *)
Definition close_piece (index : nat) (value : Z) (s : RunState) : Result RunState :=
  if (rs_pieces s =? 0)%nat || negb (length (rs_piece s) =? 0)%nat then
    '(g, db) ← run_piece (rs_db s) index (rs_pieces s) (rs_piece s) value;
    Ok (mkRunState db (rs_frame_gas s) (rs_children s) [] (S (rs_pieces s)) (sat_add (rs_gas s) g))
  else Ok s.

Section body.
(** The recursive call. *)
Variable run_child : DB → nat → Z → list Z → Result (DB * list Z).

Definition run_update (index : nat) (value : Z) (s : RunState) (update : StateUpdate)
  : Result RunState :=
  if negb (is_nested update) then
    Ok (mkRunState (rs_db s) (rs_frame_gas s) (rs_children s) (rs_piece s ++ [update]) (rs_pieces s)
          (rs_gas s))
  else
    s ← close_piece index value s;
    match rs_children s with
    | [] => Err (EMoreNested index)
    | child :: children =>
        if (child <=? index)%nat then Err (EChildOrder index child)
        else
          f ← expect (frames !! child) "index out of bounds";
          '(db, frame_gas) ← run_child (rs_db s) child (fp_value f) (rs_frame_gas s);
          Ok (mkRunState db frame_gas children (rs_piece s) (rs_pieces s) (rs_gas s))
    end.

Definition run_body (db : DB) (index : nat) (value : Z) (frame_gas : list Z)
  : Result (DB * list Z) :=
  frame ← ok_or (frames !! index) (ENoFrame index);
  s ← foldM (run_update index value) (fp_updates frame)
    (mkRunState db frame_gas (fp_children frame) [] 0 0);
  s ← close_piece index value s;
  _ ← bail_if (negb (length (rs_children s) =? 0)%nat) (EMoreChildren index);
  Ok (rs_db s, <[index := rs_gas s]> (rs_frame_gas s)).
End body.

(** [FrameTreeRun::run]. A child's index is larger than its parent's, so [length frames] levels are
    enough ([run_fuel_enough]). *)
Fixpoint run (fuel : nat) (db : DB) (index : nat) (value : Z) (frame_gas : list Z)
  : Result (DB * list Z) :=
  match fuel with
  | O => Panic "out of fuel"
  | S fuel => run_body (run fuel) db index value frame_gas
  end.

(** Each contract is injected once. *)
Definition inject_frame (st : DB * gset Z) (frame : FrameProgram) : Result (DB * gset Z) :=
  let '(db, injected) := st in
  if bool_decide (fp_target frame ∈ injected) then Ok (db, injected)
  else
    db ← inject_estimator db (fp_target frame);
    Ok (db, {[fp_target frame]} ∪ injected).

Definition estimate_frame_tree_gas (db : DB) (root_value : Z) : Result (DB * list Z) :=
  match frames with
  | [] => Err ENoRootFrame
  | _ =>
      '(db, _) ← foldM inject_frame frames (db, ∅);
      run (S (length frames)) db 0 root_value (replicate (length frames) 0)
  end.
End estimator.
