(* ===== verification/EstimatorSpec.v ===== *)
(** * The schedule of a frame-tree run

    What [Estimator.estimate_frame_tree_gas] executes on a well-formed tree: a fixed depth-first
    schedule of pieces, a function of the tree alone, run in order on one database. The frames
    [split_frame_tree] returns are such trees. *)

From stdpp Require Import relations.
From S2P Require Import Prelude.
From S2P Require Import Types.
From S2P Require Import Instances.
From S2P Require Import Encoding.
From S2P Require Import Heuristic.
From S2P Require Import Prune.
From S2P Require Import EncodeTree.
From S2P Require Import WalkInv.
From S2P Require Import TreeSpec.
From S2P Require Import Estimator.

(** ** The schedule *)

Record Piece := mkPiece {
  pc_frame : nat;
  pc_index : nat;
  pc_updates : list StateUpdate;
  pc_value : Z
}.

(** A program cut at its [NESTED] ops. *)
Fixpoint segments (us : list StateUpdate) : list (list StateUpdate) :=
  match us with
  | [] => [[]]
  | u :: us =>
      if is_nested u then [] :: segments us
      else match segments us with s :: ss => (u :: s) :: ss | [] => [[u]] end
  end.

(** The pieces of frame [i] from its [k]-th on, and its children's schedules between them. An empty
    piece is run only if it is the first. *)
Fixpoint interleave (i : nat) (value : Z) (k : nat) (segs : list (list StateUpdate))
  (plans : list (list Piece)) : list Piece :=
  match segs with
  | [] => []
  | s :: segs =>
      let runs := (k =? 0)%nat || negb (length s =? 0)%nat in
      (if runs then [mkPiece i k s value] else []) ++
      match plans with
      | p :: plans => p ++ interleave i value (if runs then S k else k) segs plans
      | [] => interleave i value (if runs then S k else k) segs []
      end
  end.

Fixpoint schedule (frames : list FrameProgram) (fuel i : nat) (value : Z) : list Piece :=
  match fuel, frames !! i with
  | S fuel, Some f =>
      interleave i value 0 (segments (fp_updates f))
        ((λ c, schedule frames fuel c (default 0 (fp_value <$> frames !! c))) <$> fp_children f)
  | _, _ => []
  end.

(** ** Trees *)

(** The children of a frame, and the frames of its subtree. *)
Definition child_of (frames : list FrameProgram) (i c : nat) : Prop :=
  ∃ f, frames !! i = Some f ∧ c ∈ fp_children f.
Abbreviation below frames := (rtc (child_of frames)).

(** What the run needs of a tree: one child per [NESTED] op, each later and inside the tree, and no
    frame with two parents or twice the same child. *)
Definition runnable (frames : list FrameProgram) : Prop :=
  (∀ i f, frames !! i = Some f →
    nested_count (fp_updates f) = length (fp_children f) ∧ NoDup (fp_children f) ∧
    Forall (λ c, (i < c < length frames)%nat) (fp_children f)) ∧
  ∀ p q c, child_of frames p c → child_of frames q c → p = q.

(** Split trees are runnable. *)
Lemma frames_fine_runnable frames : frames_fine frames → runnable frames.
Proof.
  intros Hfine. split.
  - intros i f Hf. destruct (Hfine i f Hf) as (Hs & Hc & Hops & _). split_and!.
    + rewrite nested_count_ops, Hops. by rewrite length_fmap.
    + by apply (sorted_NoDup lt); [exact Nat.lt_irrefl|].
    + done.
  - intros p q c (fp & Hp & Hcp) (fq & Hq & Hcq).
    assert (0 < c)%nat as Hpos.
    { destruct (Hfine p fp Hp) as (_ & Hc & _). rewrite Forall_forall in Hc.
      specialize (Hc c Hcp). lia. }
    destruct (Hfine p fp Hp) as (_ & Hc & _). rewrite Forall_forall in Hc. specialize (Hc c Hcp).
    destruct (lookup_lt_is_Some_2 frames c) as [g Hg]; [lia|].
    destruct (Hfine c g Hg) as (_ & _ & _ & Hpar). destruct (Hpar Hpos) as (_ & r & h & _ & _ & Hu).
    rewrite (Hu p fp), (Hu q fq) by done. done.
Qed.

Section tree.
Context (frames : list FrameProgram).
Hypothesis Hrun : runnable frames.

Lemma child_lt i c : child_of frames i c → (i < c < length frames)%nat.
Proof.
  intros (f & Hf & Hc). destruct (proj1 Hrun i f Hf) as (_ & _ & Hall).
  rewrite Forall_forall in Hall. by apply Hall.
Qed.

Lemma below_le i j : below frames i j → (i ≤ j)%nat.
Proof. induction 1 as [|x y z Hxy _ IH]; [done|]. apply child_lt in Hxy. lia. Qed.

(** Two subtrees that share a frame are one inside the other. *)
Lemma below_chain a b j : below frames a j → below frames b j → below frames a b ∨ below frames b a.
Proof.
  intros Ha. revert b. induction Ha as [a|a y j Hay Hyj IH]; intros b Hb; [by right|].
  destruct (IH b Hb) as [Hyb|Hby]; [left; by eapply rtc_l|].
  apply rtc_inv_r in Hby as [->|(z & Hbz & Hzy)]; [left; by apply rtc_once|].
  right. by rewrite (proj2 Hrun a z y Hay Hzy).
Qed.

Lemma siblings_disjoint i c d j :
  child_of frames i c → child_of frames i d → below frames c j → below frames d j → c = d.
Proof.
  assert (∀ x y, child_of frames i x → child_of frames i y → below frames x y → x = y) as Hone.
  { intros x y Hx Hy Hxy. apply rtc_inv_r in Hxy as [|(z & Hxz & Hzy)]; [done|].
    rewrite (proj2 Hrun z i y Hzy Hy) in Hxz. apply below_le in Hxz. apply child_lt in Hx. lia. }
  intros Hc Hd Hcj Hdj. destruct (below_chain c d j Hcj Hdj); [by apply Hone|symmetry; by apply Hone].
Qed.

(** The frames a schedule runs are those of the subtree. *)
Lemma interleave_frames i value k segs plans p :
  p ∈ interleave i value k segs plans → pc_frame p = i ∨ ∃ plan, plan ∈ plans ∧ p ∈ plan.
Proof.
  revert k plans. induction segs as [|s segs IH]; intros k plans Hp;
    [by apply not_elem_of_nil in Hp|].
  cbn [interleave] in Hp. apply elem_of_app in Hp as [Hp|Hp].
  - destruct (_ || _); [|by apply not_elem_of_nil in Hp].
    apply list_elem_of_singleton in Hp as ->. by left.
  - destruct plans as [|plan plans].
    + apply IH in Hp as [|(q & Hq & _)]; [by left|by apply not_elem_of_nil in Hq].
    + apply elem_of_app in Hp as [Hp|Hp]; [right; exists plan; split; [by left|done]|].
      apply IH in Hp as [|(q & Hq & ?)]; [by left|right; exists q; split; [by right|done]].
Qed.

Lemma schedule_frames fuel i value p :
  p ∈ schedule frames fuel i value → below frames i (pc_frame p).
Proof.
  revert i value. induction fuel as [|fuel IH]; intros i value Hp; [by apply not_elem_of_nil in Hp|].
  cbn [schedule] in Hp. destruct (frames !! i) as [f|] eqn:Hf; [|by apply not_elem_of_nil in Hp].
  apply interleave_frames in Hp as [->|(plan & Hplan & Hp)]; [done|].
  apply list_elem_of_fmap in Hplan as (c & -> & Hc). apply IH in Hp.
  apply (rtc_l _ i c); [by exists f|done].
Qed.
End tree.

(** ** Executing a schedule *)

Section exec.
Context {DB : Type} `{Externals} `{DynAbi} `{Revm DB}.
Variables (osaka env_gas_limit env_spec : Z).
Variables (frames : list FrameProgram) (caller_address : Z).

Local Abbreviation run_piece :=
  (run_piece osaka env_gas_limit env_spec frames caller_address).
Local Abbreviation run := (run osaka env_gas_limit env_spec frames caller_address).
Local Abbreviation close_piece :=
  (close_piece osaka env_gas_limit env_spec frames caller_address).
Local Abbreviation run_update :=
  (run_update osaka env_gas_limit env_spec frames caller_address).

(** Run one piece and add its gas to its frame's. *)
Definition exec_piece (st : DB * list Z) (p : Piece) : Result (DB * list Z) :=
  let '(db, frame_gas) := st in
  '(g, db) ← run_piece db (pc_frame p) (pc_index p) (pc_updates p) (pc_value p);
  Ok (db, alter (λ total, sat_add total g) (pc_frame p) frame_gas).

Definition exec (ps : list Piece) (st : DB * list Z) : Result (DB * list Z) := foldM exec_piece ps st.

Lemma exec_app ps qs st : exec (ps ++ qs) st = (exec ps st ≫= exec qs).
Proof. apply foldM_app. Qed.

Lemma exec_other ps st st' :
  exec ps st = Ok st' → length st'.2 = length st.2 ∧
  ∀ j, (∀ p, p ∈ ps → pc_frame p ≠ j) → st'.2 !! j = st.2 !! j.
Proof.
  revert st. induction ps as [|p ps IH]; intros [db fg] Hx; [cbn in Hx; by inv_res|].
  cbn [exec foldM exec_piece] in Hx.
  destruct (run_piece _ _ _ _ _) as [[g db1]| |]; [|done..]. cbn [mbind res_bind] in Hx.
  apply IH in Hx as [Hlen Hj]. cbn [snd] in *. rewrite length_alter in Hlen. split; [done|].
  intros j Hne. rewrite Hj by (intros q Hq; apply Hne; by right).
  apply list_lookup_alter_ne. apply Hne. by left.
Qed.

Lemma list_alter_insert_comm {A} (h : A → A) i j (x : A) (l : list A) :
  i ≠ j → alter h j (<[i := x]> l) = <[i := x]> (alter h j l).
Proof.
  intros Hij. apply list_eq. intros k.
  destruct (decide (k = j)) as [->|Hkj].
  - rewrite list_lookup_alter_eq, !list_lookup_insert_ne by done. by rewrite list_lookup_alter_eq.
  - rewrite list_lookup_alter_ne by done. destruct (decide (k = i)) as [->|Hki].
    + destruct (decide (i < length l)%nat) as [Hl|Hl].
      * rewrite !list_lookup_insert_eq by (rewrite ?length_alter; done). done.
      * rewrite !list_insert_ge by (rewrite ?length_alter; lia).
        by rewrite list_lookup_alter_ne.
    + rewrite !list_lookup_insert_ne by done. by rewrite list_lookup_alter_ne.
Qed.

(** Pieces of other frames do not see, or touch, a frame's gas. *)
Lemma exec_insert ps db fg i g :
  (∀ p, p ∈ ps → pc_frame p ≠ i) →
  exec ps (db, <[i := g]> fg) = ('(db, fg) ← exec ps (db, fg); Ok (db, <[i := g]> fg)).
Proof.
  revert db fg. induction ps as [|p ps IH]; intros db fg Hne; [done|].
  cbn [exec foldM exec_piece].
  destruct (run_piece _ _ _ _ _) as [[g' db1]| |]; [|done..]. cbn [mbind res_bind].
  rewrite list_alter_insert_comm by (intros ->; by apply (Hne p); [left|]).
  apply IH. intros q Hq. apply Hne. by right.
Qed.

(** [piece] in front of the first segment. *)
Definition prepend (piece : list StateUpdate) (segs : list (list StateUpdate)) :=
  match segs with s :: ss => (piece ++ s) :: ss | [] => [] end.

Lemma segments_cons us : ∃ s ss, segments us = s :: ss.
Proof.
  destruct us as [|u us]; [by eexists _, _|]. cbn. destruct (is_nested u); [by eexists _, _|].
  destruct (segments us); by eexists _, _.
Qed.

Lemma prepend_nil us : prepend [] (segments us) = segments us.
Proof. by destruct (segments_cons us) as (s & ss & ->). Qed.

Lemma prepend_plain piece u us :
  is_nested u = false → prepend piece (segments (u :: us)) = prepend (piece ++ [u]) (segments us).
Proof.
  intros Hu. cbn [segments]. rewrite Hu. destruct (segments_cons us) as (s & ss & ->).
  cbn. by rewrite <-app_assoc.
Qed.

(** Closing a piece runs it as the schedule does. *)
Lemma close_piece_exec i value db fg cs piece k g :
  (i < length fg)%nat →
  let runs := (k =? 0)%nat || negb (length piece =? 0)%nat in
  close_piece i value (mkRunState db fg cs piece k g) =
  ('(db', fg') ← exec (if runs then [mkPiece i k piece value] else []) (db, <[i := g]> fg);
   Ok (mkRunState db' fg cs [] (if runs then S k else k) (default 0 (fg' !! i)))) ∧
  ∀ db' fg', exec (if runs then [mkPiece i k piece value] else []) (db, <[i := g]> fg) = Ok (db', fg')
    → fg' = <[i := default 0 (fg' !! i)]> fg.
Proof.
  intros Hi. cbv zeta. unfold Estimator.close_piece. cbn [rs_pieces rs_piece rs_db rs_gas
    rs_frame_gas rs_children].
  assert (Hlook : <[i := g]> fg !! i = Some g) by by apply list_lookup_insert_eq.
  destruct ((k =? 0)%nat || negb (length piece =? 0)%nat) eqn:Hruns.
  - cbn [exec foldM exec_piece pc_frame pc_index pc_updates pc_value].
    destruct (run_piece db i k piece value) as [[h db1]| |]; cbn [mbind res_bind];
      [|split; [done|intros ?? [=]]..].
    split.
    + rewrite list_lookup_alter_eq, Hlook. done.
    + intros db' fg' [= <- <-]. rewrite list_lookup_alter_eq, Hlook. cbn [fmap option_fmap option_map default].
      apply list_eq. intros j. destruct (decide (j = i)) as [->|Hne].
      * by rewrite list_lookup_alter_eq, Hlook, list_lookup_insert_eq.
      * rewrite list_lookup_alter_ne, !list_lookup_insert_ne by done. done.
  - cbn [exec foldM mbind res_bind]. split.
    + rewrite Hlook. apply orb_false_iff in Hruns as [_ Hp]. apply negb_false_iff, Nat.eqb_eq in Hp.
      by apply nil_length_inv in Hp as ->.
    + intros db' fg' [= <- <-]. by rewrite Hlook.
Qed.

Lemma run_update_plain rc i value s u :
  is_nested u = false →
  run_update rc i value s u = Ok (mkRunState (rs_db s) (rs_frame_gas s) (rs_children s)
    (rs_piece s ++ [u]) (rs_pieces s) (rs_gas s)).
Proof. intros Hu. unfold Estimator.run_update. by rewrite Hu. Qed.

Lemma run_update_nested rc i value s u :
  is_nested u = true →
  run_update rc i value s u =
  (s ← close_piece i value s;
   match rs_children s with
   | [] => Err (EMoreNested i)
   | child :: children =>
       if (child <=? i)%nat then Err (EChildOrder i child)
       else
         f ← expect (frames !! child) "index out of bounds";
         '(db, frame_gas) ← rc (rs_db s) child (fp_value f) (rs_frame_gas s);
         Ok (mkRunState db frame_gas children (rs_piece s) (rs_pieces s) (rs_gas s))
   end).
Proof. intros Hu. unfold Estimator.run_update. by rewrite Hu. Qed.

Section step.
Hypothesis Htree : runnable frames.
Variables (fuel i : nat) (value : Z).
(** The children's runs are their schedules. *)
Hypothesis IH : ∀ c db fg, child_of frames i c → length fg = length frames →
  (∀ j, below frames c j → fg !! j = Some 0) →
  run fuel db c (default 0 (fp_value <$> frames !! c)) fg =
  exec (schedule frames fuel c (default 0 (fp_value <$> frames !! c))) (db, fg).

Local Abbreviation plans cs :=
  ((λ c, schedule frames fuel c (default 0 (fp_value <$> frames !! c))) <$> cs).

(** The rest of the loop, and the end of the frame. *)
Definition rest_of_run (us : list StateUpdate) (s : RunState) : Result (DB * list Z) :=
  s ← foldM (run_update (run fuel) i value) us s;
  s ← close_piece i value s;
  _ ← bail_if (negb (length (rs_children s) =? 0)%nat) (EMoreChildren i);
  Ok (rs_db s, <[i := rs_gas s]> (rs_frame_gas s)).

Lemma rest_exec us db fg cs piece k g :
  nested_count us = length cs → NoDup cs → (∀ c, c ∈ cs → child_of frames i c) →
  (i < length frames)%nat → length fg = length frames →
  (∀ c j, c ∈ cs → below frames c j → fg !! j = Some 0) →
  rest_of_run us (mkRunState db fg cs piece k g) =
  exec (interleave i value k (prepend piece (segments us)) (plans cs)) (db, <[i := g]> fg).
Proof.
  revert db fg cs piece k g.
  induction us as [|u us IHus]; intros db fg cs piece k g Hcount Hnd Hcs Hi Hlen Hzero.
  - destruct cs; [|done]. unfold rest_of_run. cbn [foldM mbind res_bind segments prepend interleave
      fmap list_fmap]. rewrite app_nil_r.
    destruct (close_piece_exec i value db fg [] piece k g) as [-> Hfg]; [by rewrite Hlen|].
    cbn [app]. rewrite app_nil_r. destruct (exec _ _) as [[db' fg']| |] eqn:Hx; [|done..].
    cbn [mbind res_bind rs_children length Nat.eqb negb bail_if rs_db rs_gas rs_frame_gas].
    by rewrite <-(Hfg db' fg').
  - rewrite nested_count_cons in Hcount. destruct (is_nested u) eqn:Hu.
    2:{ rewrite prepend_plain by done. rewrite <-IHus by done. unfold rest_of_run. cbn [foldM].
        by rewrite run_update_plain. }
    destruct cs as [|c cs]; [done|]. injection Hcount as Hcount.
    apply NoDup_cons in Hnd as [Hc Hnd].
    assert (Hic : child_of frames i c) by (apply Hcs; by left).
    pose proof (child_lt frames Htree i c Hic) as Hlt.
    cbn [segments]. rewrite Hu. cbn [prepend interleave fmap list_fmap]. rewrite app_nil_r.
    rewrite exec_app. unfold rest_of_run. cbn [foldM]. rewrite run_update_nested by done.
    destruct (close_piece_exec i value db fg (c :: cs) piece k g) as [-> Hfg]; [by rewrite Hlen|].
    set (runs := (k =? 0)%nat || negb (length piece =? 0)%nat) in *.
    destruct (exec (if runs then _ else _) _) as [[db1 fg1]| |] eqn:Hx; [|done..].
    cbn [mbind res_bind rs_children rs_db rs_frame_gas rs_piece rs_pieces rs_gas].
    specialize (Hfg db1 fg1 eq_refl).
    rewrite (proj2 (Nat.leb_gt c i)) by lia.
    destruct (lookup_lt_is_Some_2 frames c) as [f Hf]; [lia|]. rewrite exec_app.
    pose proof (IH c db1 fg Hic Hlen (λ j Hj, Hzero c j (list_elem_of_here _ _) Hj)) as Hchild.
    rewrite Hf in Hchild |- *. change (default 0 (fp_value <$> Some f)) with (fp_value f) in *.
    cbn [expect mbind res_bind].
    rewrite Hchild.
    rewrite Hfg at 1. rewrite exec_insert.
    2:{ intros p Hp. apply schedule_frames in Hp. pose proof (below_le frames Htree _ _ Hp). lia. }
    destruct (exec (schedule _ _ _ _) (db1, fg)) as [[db2 fg2]| |] eqn:Hx2; [|done..].
    cbn [mbind res_bind]. apply exec_other in Hx2 as [Hlen2 Hother]. cbn [snd] in *.
    change (rest_of_run us (mkRunState db2 fg2 cs [] (if runs then S k else k) (default 0 (fg1 !! i)))
      = exec (interleave i value (if runs then S k else k) (segments us) (plans cs))
          (db2, <[i := default 0 (fg1 !! i)]> fg2)).
    rewrite <-prepend_nil. apply IHus; [done|done|intros d Hd; apply Hcs; by right|done|lia|].
    intros d j Hd Hj. rewrite Hother; [apply (Hzero d); [by right|done]|].
    intros p Hp Hpj. apply schedule_frames in Hp. rewrite Hpj in Hp.
    apply Hc. rewrite (siblings_disjoint frames Htree i c d j); try done. apply Hcs. by right.
Qed.
End step.

Lemma run_exec fuel i f value db fg :
  runnable frames → frames !! i = Some f → (length frames < fuel + i)%nat →
  length fg = length frames → (∀ j, below frames i j → fg !! j = Some 0) →
  run fuel db i value fg = exec (schedule frames fuel i value) (db, fg).
Proof.
  intros Htree. revert i f value db fg. induction fuel as [|fuel IH]; intros i f value db fg Hf Hfuel Hlen Hz.
  { apply lookup_lt_Some in Hf. lia. }
  cbn [Estimator.run schedule]. unfold run_body. rewrite Hf. cbn [ok_or mbind res_bind].
  destruct (proj1 Htree i f Hf) as (Hcount & Hnd & Hall).
  assert (Hchild : ∀ c, c ∈ fp_children f → child_of frames i c) by (intros c Hc; by exists f).
  rewrite <-(prepend_nil (fp_updates f)).
  assert (fg = <[i := 0]> fg) as Hfg by (symmetry; apply list_insert_id, Hz; done).
  rewrite Hfg at 2. rewrite <-rest_exec; [done|done| |done|done|done|by eapply lookup_lt_Some|done|].
  - intros c db' fg' Hc Hl Hzc. pose proof (child_lt frames Htree i c Hc).
    destruct (lookup_lt_is_Some_2 frames c) as [g Hg]; [lia|]. apply (IH c g); [done|lia|done|done].
  - intros c j Hc Hj. apply Hz. apply (rtc_l _ i c); [by apply Hchild|done].
Qed.
End exec.

(** ** What a schedule covers *)

(** The pieces of frame [j]. *)
Definition own (j : nat) (ps : list Piece) : list Piece := List.filter (λ p, pc_frame p =? j)%nat ps.

Lemma own_app j ps qs : own j (ps ++ qs) = own j ps ++ own j qs.
Proof. apply List.filter_app. Qed.

Lemma own_none j ps : (∀ p, p ∈ ps → pc_frame p ≠ j) → own j ps = [].
Proof.
  intros Hne. induction ps as [|p ps IH]; [done|]. cbn.
  rewrite (proj2 (Nat.eqb_neq (pc_frame p) j)) by (apply Hne; by left).
  apply IH. intros q Hq. apply Hne. by right.
Qed.

Lemma own_interleave i v k segs plans :
  (∀ plan p, plan ∈ plans → p ∈ plan → pc_frame p ≠ i) →
  own i (interleave i v k segs plans) = interleave i v k segs [].
Proof.
  revert k plans. induction segs as [|s segs IH]; intros k plans Hne; [done|].
  cbn [interleave]. rewrite own_app.
  assert (own i (if (k =? 0)%nat || negb (length s =? 0)%nat then [mkPiece i k s v] else []) =
    (if (k =? 0)%nat || negb (length s =? 0)%nat then [mkPiece i k s v] else [])) as ->
    by (destruct (_ || _); [cbn; by rewrite Nat.eqb_refl|done]).
  f_equal. destruct plans as [|plan plans]; [by apply IH|].
  rewrite own_app, own_none, app_nil_l by (intros p Hp; apply (Hne plan); [by left|done]).
  apply IH. intros plan' p Hp. apply Hne. by right.
Qed.

(** The own pieces of a frame: its segments, the empty later ones left out. *)
Lemma own_pieces i v k segs :
  concat (pc_updates <$> interleave i v k segs []) = concat segs ∧
  pc_index <$> interleave i v k segs [] = seq k (length (interleave i v k segs [])) ∧
  Forall (λ p, pc_value p = v) (interleave i v k segs []).
Proof.
  revert k. induction segs as [|s segs IH]; intros k; [done|]. cbn [interleave concat].
  destruct ((k =? 0)%nat || negb (length s =? 0)%nat) eqn:Hruns.
  - destruct (IH (S k)) as (Hc & Hi & Hv). cbn. rewrite Hc, Hi. split_and!; [done|done|by constructor].
  - destruct (IH k) as (Hc & Hi & Hv). cbn [app]. rewrite Hc. split_and!; [|done|done].
    apply orb_false_iff in Hruns as [_ Hs]. apply negb_false_iff, Nat.eqb_eq in Hs.
    by apply nil_length_inv in Hs as ->.
Qed.

Lemma concat_segments us : concat (segments us) = without_nested_ops us.
Proof.
  unfold without_nested_ops. induction us as [|u us IH]; [done|]. cbn [segments List.filter].
  destruct (is_nested u); cbn; [done|]. destruct (segments_cons us) as (s & ss & Hs).
  rewrite Hs in *. cbn in *. by rewrite IH.
Qed.

(** A frame of one child's subtree has its pieces in that child's schedule. *)
Lemma own_child i v k segs plans n c plan j :
  length segs = S (length plans) → j ≠ i → plans !! c = Some plan → n = j →
  (∀ c' plan' p, plans !! c' = Some plan' → c' ≠ c → p ∈ plan' → pc_frame p ≠ j) →
  own j (interleave i v k segs plans) = own j plan.
Proof.
  intros Hlen Hji Hc _ Hother. revert k plans c Hlen Hc Hother.
  induction segs as [|s segs IH]; intros k plans c Hlen Hc Hother; [done|].
  cbn [interleave]. rewrite own_app, (own_none j (if _ || _ then _ else _)).
  2:{ intros p Hp. destruct (_ || _); [|by apply not_elem_of_nil in Hp].
      apply list_elem_of_singleton in Hp as ->. cbn. congruence. }
  destruct plans as [|plan' plans]; [done|]. rewrite own_app. cbn [app].
  destruct c as [|c].
  - injection Hc as ->. rewrite (own_none j (interleave _ _ _ _ _)), app_nil_r; [done|].
    intros p Hp. apply interleave_frames in Hp as [->|(plan' & Hplan & Hp)]; [congruence|].
    apply list_elem_of_lookup in Hplan as [c' Hc']. by apply (Hother (S c') plan').
  - rewrite (own_none j plan') by (intros p Hp; by apply (Hother 0%nat plan' p)).
    apply (IH _ plans c); [by injection Hlen|done|].
    intros c' plan'' p Hc' Hne. apply (Hother (S c')); [done|lia].
Qed.

Lemma length_segments us : length (segments us) = S (nested_count us).
Proof.
  induction us as [|u us IH]; [done|]. rewrite nested_count_cons. cbn [segments].
  destruct (is_nested u); cbn; [by rewrite IH|]. destruct (segments_cons us) as (s & ss & Hs).
  rewrite Hs in *. done.
Qed.

Lemma schedule_own frames fuel i v j f :
  runnable frames → below frames i j → frames !! j = Some f → (length frames < fuel + i)%nat →
  let v' := if (j =? i)%nat then v else fp_value f in
  own j (schedule frames fuel i v) = interleave j v' 0 (segments (fp_updates f)) [].
Proof.
  intros Htree Hb Hf. revert i v Hb. induction fuel as [|fuel IH]; intros i v Hb Hfuel; cbv zeta.
  { apply lookup_lt_Some in Hf. pose proof (below_le frames Htree _ _ Hb). lia. }
  cbn [schedule]. apply rtc_inv in Hb as [<-|(c & Hic & Hcj)].
  - rewrite Hf, Nat.eqb_refl. apply own_interleave. intros plan p Hplan Hp.
    apply list_elem_of_fmap in Hplan as (c & -> & Hc). apply schedule_frames in Hp.
    pose proof (below_le frames Htree _ _ Hp). pose proof (child_lt frames Htree i c). 
    assert (child_of frames i c) as Hic by by exists f. specialize (H0 Hic). lia.
  - pose proof (child_lt frames Htree i c Hic). pose proof (below_le frames Htree _ _ Hcj).
    rewrite (proj2 (Nat.eqb_neq j i)) by lia. pose proof Hic as (g & Hg & Hc). rewrite Hg.
    destruct (proj1 Htree i g Hg) as (Hcount & Hnd & _).
    apply list_elem_of_lookup in Hc as [pos Hpos].
    rewrite (own_child _ _ _ _ _ j pos
      (schedule frames fuel c (default 0 (fp_value <$> frames !! c)))); [| |lia| |done|].
    + rewrite IH by (done || lia). cbv zeta. destruct (Nat.eqb_spec j c) as [->|]; [|done].
      by rewrite Hf.
    + by rewrite length_segments, length_fmap, Hcount.
    + by rewrite list_lookup_fmap, Hpos.
    + intros pos' plan p Hplan Hne Hp Hpj. rewrite list_lookup_fmap in Hplan.
      destruct (fp_children g !! pos') as [d|] eqn:Hd; [|done]. injection Hplan as <-.
      apply schedule_frames in Hp. rewrite Hpj in Hp. apply Hne.
      assert (child_of frames i d) as Hid by (exists g; split; [done|by eapply list_elem_of_lookup_2]).
      assert (d = c) as -> by by eapply (siblings_disjoint frames Htree i d c j).
      by eapply NoDup_lookup.
Qed.

Lemma all_below frames j f :
  frames_fine frames → frames !! j = Some f → below frames 0%nat j.
Proof.
  intros Hfine. revert f. induction (lt_wf j) as [j _ IH]; intros f Hf.
  destruct (decide (j = 0%nat)) as [->|Hj]; [done|].
  destruct (Hfine j f Hf) as (_ & _ & _ & Hpar). destruct (Hpar ltac:(lia)) as (_ & q & g & Hg & Hin & _).
  destruct (Hfine q g Hg) as (_ & Hc & _). rewrite Forall_forall in Hc. specialize (Hc j Hin).
  eapply rtc_r; [by apply (IH q ltac:(lia) g)|by exists g].
Qed.

(** ** Injection *)

Section inject.
Context {DB : Type} `{Externals} `{RevmLaws DB}.
Variables (estimator_code : list Z).

(** Injecting the estimator replaces the contract's code and nothing else of the account: its
    balance and nonce stay, and the hash a callee reads stays that of the original code. The original
    code, if there was any, is kept at the backup address under that hash, the slot the estimator
    delegates through holds the backup address, and every other account is untouched. *)
Theorem inject_estimator_keeps db a db' :
  inject_estimator estimator_code db a = Ok db' → backup_address a ≠ a →
  let account := default (default_account keccak_empty) (db_basic db a) in
  db_basic db' a = Some (mkAccountInfo (ai_balance account) (ai_nonce account)
    (match original_code account with Some (_, h) => h | None => estimator_hash estimator_code end)
    (Some estimator_code)) ∧
  (∀ code h, original_code account = Some (code, h) →
    db_basic db' (backup_address a) = Some (mkAccountInfo 0 0 h (Some code))) ∧
  (∀ b, b ≠ a → b ≠ backup_address a → db_basic db' b = db_basic db b) ∧
  db_storage db' a IMPL_SLOT = backup_address a.
Proof.
  intros Hok Hne. cbv zeta. unfold inject_estimator in Hok.
  set (account := default _ (db_basic db a)) in *.
  assert (∃ db1 h, db_insert_storage (db_set_code_hash (db_insert_account db1 a
      (mkAccountInfo (ai_balance account) (ai_nonce account) (estimator_hash estimator_code)
        (Some estimator_code))) a h) a IMPL_SLOT (backup_address a) = Some db' ∧
    h = (match original_code account with Some (_, h) => h | None => estimator_hash estimator_code end) ∧
    db1 = (match original_code account with
      | Some (code, h) => db_insert_account db (backup_address a) (mkAccountInfo 0 0 h (Some code))
      | None => db end)) as (db1 & h & Hdb & Hh & Hdb1).
  { destruct (original_code account) as [[code h]|];
      destruct (db_insert_storage _ _ _ _) eqn:Hs; cbn [ok_or] in Hok; try discriminate Hok;
      injection Hok as <-; eauto. }
  rewrite <-Hh. split_and!.
  - rewrite (basic_storage _ _ _ _ _ a Hdb). erewrite basic_hash_same by apply basic_insert_same. done.
  - intros code h' Hcode. rewrite (basic_storage _ _ _ _ _ _ Hdb), basic_hash_other by congruence.
    rewrite basic_insert_other, Hdb1, Hcode by congruence. apply basic_insert_same.
  - intros b Hba Hbb. rewrite (basic_storage _ _ _ _ _ _ Hdb), basic_hash_other by congruence.
    rewrite basic_insert_other, Hdb1 by congruence.
    destruct (original_code account) as [[code h']|]; [|done]. by rewrite basic_insert_other.
  - by eapply storage_same.
Qed.
End inject.

(** ** Properties *)

(** C8: A split tree's frames, run from the root, execute the tree's schedule: the gas of a frame is the
    saturating sum of its pieces', and the only way to fail is a piece that fails. *)
Theorem estimate_frame_tree_gas_schedule {DB} `{Externals} `{DynAbi} `{Revm DB}
    code osaka gas_limit spec frames caller (db db0 : DB) seen root_value :
  frames_fine frames → frames ≠ [] →
  foldM (inject_frame code) frames (db, ∅) = Ok (db0, seen) →
  estimate_frame_tree_gas code osaka gas_limit spec frames caller db root_value =
  exec osaka gas_limit spec frames caller (schedule frames (S (length frames)) 0 root_value)
    (db0, replicate (length frames) 0).
Proof.
  intros Hfine Hne Hinject. unfold estimate_frame_tree_gas. destruct frames as [|f rest]; [done|].
  rewrite Hinject. cbn [mbind res_bind].
  apply (run_exec _ _ _ _ _ _ 0%nat f); [by apply frames_fine_runnable|done|lia| |].
  - by rewrite length_replicate.
  - intros j Hj. apply lookup_replicate. split; [done|].
    apply frames_fine_runnable in Hfine as Htree. apply rtc_inv_r in Hj as [<-|(z & _ & Hz)]; [cbn; lia|].
    by apply (child_lt _ Htree z).
Qed.

(** The schedule of a split tree applies every op of every frame exactly once and in order: the
    pieces of a frame, joined, are its program without its [NESTED] ops, numbered from 0; there is
    always a first one, which carries the frame's value. *)
Theorem schedule_covers frames root_value j f :
  frames_fine frames → frames !! j = Some f →
  let ps := own j (schedule frames (S (length frames)) 0 root_value) in
  concat (pc_updates <$> ps) = without_nested_ops (fp_updates f) ∧
  pc_index <$> ps = seq 0 (length ps) ∧ ps ≠ [] ∧
  Forall (λ p, pc_value p = if (j =? 0)%nat then root_value else fp_value f) ps.
Proof.
  intros Hfine Hf. cbv zeta. pose proof (frames_fine_runnable frames Hfine) as Htree.
  rewrite (schedule_own frames _ 0 root_value j f Htree) by (done || lia || by eapply all_below).
  destruct (own_pieces j (if (j =? 0)%nat then root_value else fp_value f) 0
    (segments (fp_updates f))) as (Hc & Hi & Hv).
  rewrite Hc, Hi, concat_segments. split_and!; [done|done| |done].
  destruct (segments_cons (fp_updates f)) as (s & ss & ->). by cbn.
Qed.

(** ** A concrete instance

    A database of accounts and storage whose runs always succeed, at the intrinsic cost of their
    calldata. *)

Definition SampleDb : Type := gmap Z AccountInfo * gmap Z (gmap Z Z).

#[export] Instance sample_dyn_abi : DynAbi := {| dyn_encode_params types args := types ++ concat args |}.

#[export] Instance sample_revm : Revm SampleDb := {|
  db_basic db a := db.1 !! a;
  db_insert_account db a i := (<[a := i]> db.1, db.2);
  db_set_code_hash db a h :=
    (alter (λ i, mkAccountInfo (ai_balance i) (ai_nonce i) h (ai_code i)) a db.1, db.2);
  db_insert_storage db a s v := Some (db.1, <[a := <[s := v]> (default ∅ (db.2 !! a))]> db.2);
  db_storage db a s := default 0 (default ∅ (db.2 !! a) !! s);
  hash_slow := keccak256;
  keccak_empty := 1;
  evm_transact db _ _ calldata _ _ := Some (ExSuccess (BASE_TX_COST + calldata_gas calldata), db)
|}.

#[export] Instance sample_revm_laws : RevmLaws SampleDb.
Proof.
  split; cbn.
  - intros. apply lookup_insert_eq.
  - intros. by apply lookup_insert_ne.
  - intros db a i h Hi. by rewrite lookup_alter_eq, Hi.
  - intros. by apply lookup_alter_ne.
  - by intros db a s v db' b [= <-].
  - intros db a s v db' [= <-]. cbn. rewrite lookup_insert_eq. cbn. by rewrite lookup_insert_eq.
Qed.

Lemma sample_frames_fine : frames_fine sample_frames.
Proof.
  intros [|[|i]] f Hf; [| |discriminate Hf]; injection Hf as <-; split_and!.
  - repeat constructor.
  - repeat constructor.
  - reflexivity.
  - cbn. lia.
  - constructor.
  - constructor.
  - reflexivity.
  - intros _. split; [by eexists|]. eexists 0%nat, _. split; [reflexivity|]. split; [by left|].
    intros [|[|q]] g Hg; [done| |discriminate Hg]. injection Hg as <-.
    by intros Hin%not_elem_of_nil.
Qed.

Definition sample_db : SampleDb := ({[10 := mkAccountInfo 7 3 0 (Some [96; 1])]}, ∅).
Definition sample_code : list Z := [96; 0; 53].

(** Writing storage never fails in the sample database, so injecting never does. *)
Lemma sample_inject (db : SampleDb) a : ∃ db', inject_estimator sample_code db a = Ok db'.
Proof. unfold inject_estimator. destruct (original_code _) as [[code h]|]; eexists; reflexivity. Qed.

Lemma sample_inject_all frames (st : SampleDb * gset Z) :
  ∃ st', foldM (inject_frame sample_code) frames st = Ok st'.
Proof.
  revert st. induction frames as [|f frames IH]; intros st; [by eexists|]. cbn [foldM].
  assert (∃ st', inject_frame sample_code st f = Ok st') as [st' ->]; [|apply IH].
  destruct st as [db seen]. unfold inject_frame. case_bool_decide; [by eexists|].
  destruct (sample_inject db (fp_target f)) as [db' ->]. by eexists.
Qed.

Lemma inject_estimator_keeps_witness :
  ∃ db', inject_estimator sample_code sample_db 10 = Ok db' ∧
    db_basic db' 10 = Some (mkAccountInfo 7 3 (hash_slow [96; 1]) (Some sample_code)).
Proof.
  destruct (sample_inject sample_db 10) as [db' Hdb]. exists db'. split; [exact Hdb|].
  refine (proj1 (inject_estimator_keeps (DB := SampleDb) sample_code sample_db 10 db' Hdb _)).
  by_compute.
Defined.

Lemma estimate_frame_tree_gas_schedule_witness :
  ∃ db0 seen, foldM (inject_frame (DB := SampleDb) sample_code) sample_frames (sample_db, ∅) = Ok (db0, seen) ∧
    estimate_frame_tree_gas (DB := SampleDb) sample_code 20 30000000 19 sample_frames 5 sample_db 0 =
    exec 20 30000000 19 sample_frames 5 (schedule sample_frames 3 0 0) (db0, [0; 0]).
Proof.
  destruct (sample_inject_all sample_frames (sample_db, ∅)) as [[db0 seen] Hin].
  exists db0, seen. split; [exact Hin|].
  exact (estimate_frame_tree_gas_schedule (DB := SampleDb) sample_code 20 30000000 19 sample_frames 5
    sample_db db0 seen 0 sample_frames_fine ltac:(discriminate) Hin).
Defined.

Lemma schedule_covers_witness :
  frames_fine sample_frames ∧
  concat (pc_updates <$> own 0 (schedule sample_frames 3 0 9)) = [UStore (mkStore 1 2)].
Proof.
  split; [exact sample_frames_fine|].
  exact (proj1 (schedule_covers sample_frames 9 0 _ sample_frames_fine eq_refl)).
Defined.
