(* ===== verification/RateLimit.v ===== *)
(** * Rate limiting and retries

    [crates/indexer-rpc/src/lib.rs]: the charge of a weight in burst-sized chunks, the retry loop
    with its backoff, and the classification of RPC errors by their text. The token bucket, the random
    jitter and Unicode lower-casing are parameters. *)

From Stdlib Require Import Strings.String Strings.Ascii.
From S2P Require Import Prelude.

(** ** Weights *)

Definition HEAD_POLL : Z := 1.
Definition BLOCK_HEADER : Z := 12.
Definition BLOCK_FULL : Z := 25.
Definition RECEIPT : Z := 15.
Definition TX_BY_HASH : Z := 15.
Definition TRACE_TX : Z := 80.
Definition ANALYZE_TX : Z := 250.
Definition HEURISTIC_ANALYZE_TX : Z := 150.

Record RateLimiterConfig := mkRateLimiterConfig {
  rps_budget : Z;
  burst : Z;
  max_concurrency : Z
}.

Definition RateLimiterConfig_default : RateLimiterConfig := mkRateLimiterConfig 240 60 16.

(** [RateLimiter::new]: the quota handed to the bucket, and the chunk size. *)
Record RateLimiter := mkRateLimiter { rl_rps : Z; rl_burst : Z; rl_permits : Z }.

Definition RateLimiter_new (config : RateLimiterConfig) : RateLimiter :=
  mkRateLimiter (Z.max (rps_budget config) 1) (Z.max (burst config) 1) (max_concurrency config).

(** ** Acquiring *)

Section acquire.
(** The bucket, and [until_n_ready]: [None] if it can never hold that many tokens. *)
Context {Bucket : Type} (until_n_ready : Bucket → Z → option Bucket).

(** The loop of [acquire]: the bucket after it, and the chunks charged. *)
Fixpoint charge (fuel : nat) (burst : Z) (bucket : Bucket) (remaining : Z) : Bucket * list Z :=
  match fuel with
  | O => (bucket, [])
  | S fuel =>
      if 0 <? remaining then
        let chunk := Z.min remaining burst in
        match until_n_ready bucket chunk with
        | None => (bucket, [])
        | Some bucket =>
            let '(bucket, chunks) := charge fuel burst bucket (remaining - chunk) in
            (bucket, chunk :: chunks)
        end
      else (bucket, [])
  end.

(** [RateLimiter::acquire], up to the semaphore. A chunk is at least 1, so [weight] rounds are
    enough. *)
Definition acquire (l : RateLimiter) (bucket : Bucket) (weight : Z) : Bucket * list Z :=
  let remaining := Z.max weight 1 in
  charge (S (Z.to_nat remaining)) (rl_burst l) bucket remaining.
End acquire.

(** ** Retrying *)

Record RetryConfig := mkRetryConfig { max_attempts : Z; base_delay_ms : Z; max_delay_ms : Z }.

Definition RetryConfig_default : RetryConfig := mkRetryConfig 3 200 8000.

(** [u64::pow] wraps in release builds. *)
Definition u64_pow (b e : Z) : Z := wrap64 (b ^ e).

(** The delay before jitter, in milliseconds. *)
Definition backoff (config : RetryConfig) (attempt : Z) : Z :=
  let exp := u64_mul (base_delay_ms config) (u64_pow 4 (Z.max (attempt - 1) 0)) in
  Z.min exp (max_delay_ms config).

Inductive RetryError (E : Type) : Type := Exhausted (attempts : Z) (source : E).
Arguments Exhausted {E}.

Section retry.
(** The operation on the state of the world, and the predicate. *)
Context {W T E : Type} (f : Eff E W T) (is_transient : E → bool).

(** [with_retry]: the outcome, the world after it, and the delays slept (before jitter). A round that
    goes on has [attempt < max_attempts], so [max_attempts] rounds are enough. *)
Fixpoint retry_loop (fuel : nat) (config : RetryConfig) (attempt : Z) (w : W)
  : option (Res (RetryError E) T * W * list Z) :=
  match fuel with
  | O => None
  | S fuel =>
      let attempt := attempt + 1 in
      let '(r, w) := f w in
      match r with
      | Ok v => Some (Ok v, w, [])
      | Panic p => Some (Panic p, w, [])
      | Err e =>
          if (max_attempts config <=? attempt) || negb (is_transient e) then
            Some (Err (Exhausted attempt e), w, [])
          else
            let delay := backoff config attempt in
            '(r, w, delays) ← retry_loop fuel config attempt w;
            Some (r, w, delay :: delays)
      end
  end.

Definition with_retry (config : RetryConfig) (w : W)
  : option (Res (RetryError E) T * W * list Z) :=
  retry_loop (S (Z.to_nat (max_attempts config))) config 0 w.

(** The world after [n] calls, and the outcome of call [n], counted from 0. *)
Fixpoint world_after (n : nat) (w : W) : W :=
  match n with O => w | S n => (f (world_after n w)).2 end.
Definition outcome (n : nat) (w : W) : Res E T := (f (world_after n w)).1.
End retry.

(** ** Transient errors *)

Definition is_hexdigit (c : ascii) : bool :=
  let n := Z.of_nat (nat_of_ascii c) in
  ((48 <=? n) && (n <=? 57)) || ((97 <=? n) && (n <=? 102)) || ((65 <=? n) && (n <=? 70)).

(** The character at [i], if any, is a hexadecimal digit. *)
Definition hexdigit_at (s : string) (i : nat) : bool :=
  match String.get i s with Some c => is_hexdigit c | None => false end.

(** The boundary test of [contains_status_code] for an occurrence at [start]. *)
Definition standalone (s code : string) (start : nat) : bool :=
  let end_ := (start + String.length code)%nat in
  let hex_prefixed := (2 <=? start)%nat && String.eqb (substring (start - 2) 2 s) "0x" in
  let boundary_before :=
    negb hex_prefixed && ((start =? 0)%nat || negb (hexdigit_at s (start - 1))) in
  let boundary_after := (end_ =? String.length s)%nat || negb (hexdigit_at s end_) in
  boundary_before && boundary_after.

(** The [while let] loop: [String.index from] is [s[from..].find]. The start of an occurrence of an
    ASCII code is a character boundary. *)
Fixpoint find_status (fuel : nat) (s code : string) (from : nat) : bool :=
  match fuel with
  | O => false
  | S fuel =>
      match String.index from code s with
      | Some start => if standalone s code start then true else find_status fuel s code (S start)
      | None => false
      end
  end.

Definition contains_status_code (s code : string) : bool :=
  find_status (S (S (String.length s))) s code 0.

(** [str::contains]. *)
Definition contains (s pattern : string) : bool :=
  match String.index 0 pattern s with Some _ => true | None => false end.

Definition is_transient_rpc_error (to_lowercase : string → string) (e : string) : bool :=
  let s := to_lowercase e in
  contains_status_code s "503" || contains_status_code s "502" || contains_status_code s "504"
  || contains_status_code s "429" || contains s "error sending request"
  || contains s "connection reset" || contains s "connection closed"
  || contains s "connection refused" || contains s "timed out" || contains s "timeout"
  || contains s "temporarily unavailable" || contains s "unexpected eof".

(** ** Lemmas *)

Fixpoint zsum (l : list Z) : Z := match l with [] => 0 | x :: l => x + zsum l end.

Lemma charge_spec {Bucket} (until_n_ready : Bucket → Z → option Bucket) burst fuel bucket remaining :
  1 <= burst → (∀ b n, 1 <= n <= burst → is_Some (until_n_ready b n)) →
  0 <= remaining → remaining < Z.of_nat fuel →
  let chunks := (charge until_n_ready fuel burst bucket remaining).2 in
  zsum chunks = remaining ∧ Forall (λ c, 1 <= c <= burst) chunks ∧
  zlen chunks = (remaining + burst - 1) / burst.
Proof.
  intros Hb Hready. revert bucket remaining. induction fuel as [|fuel IH]; intros bucket remaining H0 Hf;
    [lia|]. cbn [charge]. destruct (Z.ltb_spec 0 remaining) as [Hpos|Hz].
  - destruct (Hready bucket (Z.min remaining burst)) as [b' Hb']; [lia|]. rewrite Hb'.
    specialize (IH b' (remaining - Z.min remaining burst) ltac:(lia) ltac:(lia)). cbv zeta in IH.
    destruct (charge _ _ _ _ _) as [b2 chunks]. cbn [snd zsum] in *. destruct IH as (Hs & Hall & Hl).
    rewrite zlen_cons. split_and!; [lia|constructor; [lia|done]|]. rewrite Hl.
    destruct (Z.le_ge_cases remaining burst).
    + rewrite (Z.min_l remaining burst) by lia.
      replace (remaining - remaining + burst - 1) with (burst - 1) by lia.
      replace (remaining + burst - 1) with (1 * burst + (remaining - 1)) by lia.
      by rewrite Z.div_add_l, !Z.div_small by lia.
    + rewrite (Z.min_r remaining burst) by lia.
      replace (remaining + burst - 1) with (1 * burst + (remaining - burst + burst - 1)) by lia.
      rewrite Z.div_add_l by lia. done.
  - cbn. split_and!; [lia|constructor|].
    assert (remaining = 0) as -> by lia. rewrite Z.div_small by lia. done.
Qed.

(** The answer of the loop, in terms of the outcomes of the successive calls. *)
Lemma retry_loop_spec {W T E} (f : Eff E W T) is_transient config fuel k w :
  (Z.to_nat (max_attempts config) < fuel + k)%nat → (0 < fuel)%nat →
  ∃ n r delays, retry_loop f is_transient fuel config (Z.of_nat k) (world_after f k w) =
      Some (r, world_after f (S n) w, delays) ∧ (k ≤ n)%nat ∧
    (∀ m, (k ≤ m < n)%nat → Z.of_nat m + 1 < max_attempts config ∧
      ∃ e, outcome f m w = Err e ∧ is_transient e = true) ∧
    match outcome f n w with
    | Ok v => r = Ok v
    | Panic p => r = Panic p
    | Err e => r = Err (Exhausted (Z.of_nat n + 1) e) ∧
        (max_attempts config <= Z.of_nat n + 1 ∨ is_transient e = false)
    end ∧
    delays = (λ m, backoff config (Z.of_nat m + 1)) <$> seq k (n - k).
Proof.
  revert k. induction fuel as [|fuel IH]; intros k Hf Hpos; [lia|]. cbn [retry_loop].
  assert (Houtcome : f (world_after f k w) = (outcome f k w, world_after f (S k) w))
    by (unfold outcome; cbn; by destruct (f (world_after f k w))).
  rewrite Houtcome. destruct (outcome f k w) as [v|e|p] eqn:Ho.
  - exists k, (Ok v), []. rewrite Ho, Nat.sub_diag. split_and!; try done. lia.
  - destruct (Z.leb_spec (max_attempts config) (Z.of_nat k + 1)) as [Hmax|Hmax];
      [|destruct (is_transient e) eqn:Ht]; cbn [orb negb].
    + exists k. eexists _, []. rewrite Ho, Nat.sub_diag. split_and!; try done; [lia|by left].
    + replace (Z.of_nat k + 1) with (Z.of_nat (S k)) by lia.
      destruct (IH (S k)) as (n & r & delays & -> & Hn & Hall & Hr & Hd); [lia|lia|].
      exists n, r. eexists. cbn [mbind option_bind]. split_and!; [done|lia| |done|].
      * intros m Hm. destruct (decide (m = k)) as [->|]; [|apply Hall; lia].
        split; [lia|]. by exists e.
      * rewrite Hd. replace (n - k)%nat with (S (n - S k)) by lia. cbn [seq fmap list_fmap].
        f_equal. f_equal. lia.
    + exists k. eexists _, []. rewrite Ho, Nat.sub_diag. split_and!; try done; [lia|by right].
  - exists k, (Panic p), []. rewrite Ho, Nat.sub_diag. split_and!; try done. lia.
Qed.

(** Occurrences of a code. *)
Definition occurs (s code : string) (i : nat) : Prop := substring i (String.length code) s = code.

Lemma index_some from code s i :
  String.index from code s = Some i →
  occurs s code i ∧ ∀ j, (from ≤ j < i)%nat → ¬ occurs s code j.
Proof.
  intros Hi. split; [by apply index_correct1 in Hi|]. intros j Hj Ho.
  refine (index_correct2 _ _ _ _ Hi j _ _ Ho); lia.
Qed.

Lemma index_ge from code s i : String.index from code s = Some i → (from ≤ i)%nat.
Proof.
  revert from i. induction s as [|c s IH]; intros from i Hi.
  - destruct from; [|by destruct code]. lia.
  - destruct from as [|from]; [lia|]. cbn in Hi.
    destruct (String.index from code s) as [j|] eqn:Hj; [|done]. injection Hi as <-.
    apply IH in Hj. lia.
Qed.

Lemma occurs_length s code i : code ≠ ""%string → occurs s code i → (i < String.length s)%nat.
Proof.
  unfold occurs. intros Hne. revert i. induction s as [|c s IH]; intros i Ho.
  - destruct i, (String.length code) eqn:Hl; cbn in Ho; congruence.
  - destruct i as [|i]; cbn; [lia|]. cbn in Ho. apply IH in Ho. lia.
Qed.

Lemma find_status_iff s code fuel from :
  code ≠ ""%string → (String.length s < fuel + from)%nat →
  find_status fuel s code from = true ↔
  ∃ i, (from ≤ i)%nat ∧ occurs s code i ∧ standalone s code i = true.
Proof.
  intros Hne. revert from. induction fuel as [|fuel IH]; intros from Hf.
  { split; [done|]. intros (i & Hi & Ho & _). apply occurs_length in Ho; [lia|done]. }
  cbn [find_status]. destruct (String.index from code s) as [start|] eqn:Hs.
  - apply index_ge in Hs as Hge. apply index_some in Hs as [Ho Hbefore].
    destruct (standalone s code start) eqn:Hst.
    + split; [|done]. intros _. by exists start.
    + rewrite IH by lia. split; intros (i & Hi & Hoi & Hsi).
      * exists i. split_and!; [lia|done|done].
      * exists i. split_and!; [|done|done].
        destruct (decide (i < start)%nat) as [Hlt|]; [by destruct (Hbefore i ltac:(lia))|].
        destruct (decide (i = start)) as [->|]; [congruence|lia].
  - split; [done|]. intros (i & Hi & Ho & _).
    exfalso. exact (index_correct3 from i code s Hs Hne Hi Ho).
Qed.

(** ** Properties *)

(** [acquire] charges the whole weight (at least one token) whatever the configuration, in as few
    chunks as the burst allows, none above it, on a bucket that only refuses more than its burst. *)
Theorem acquire_charges_weight {Bucket} (until_n_ready : Bucket → Z → option Bucket) config bucket weight :
  let l := RateLimiter_new config in
  (∀ b n, 1 <= n <= rl_burst l → is_Some (until_n_ready b n)) →
  let chunks := (acquire until_n_ready l bucket weight).2 in
  zsum chunks = Z.max weight 1 ∧ Forall (λ c, 1 <= c <= rl_burst l) chunks ∧
  zlen chunks = (Z.max weight 1 + rl_burst l - 1) / rl_burst l.
Proof.
  intros l Hready. cbv zeta. unfold acquire. apply charge_spec; [cbn; lia|done|lia|lia].
Qed.

Lemma acquire_charges_weight_witness :
  zsum (acquire (λ b n, if n <=? 60 then Some (b - n) else None)
    (RateLimiter_new RateLimiterConfig_default) 0 ANALYZE_TX).2 = 250.
Proof.
  refine (proj1 (acquire_charges_weight (λ b n, if n <=? 60 then Some (b - n) else None)
    RateLimiterConfig_default 0 ANALYZE_TX _)).
  intros b n Hn. cbn in Hn. exists (b - n). destruct (Z.leb_spec n 60); [reflexivity|lia].
Defined.

(** [with_retry] always answers: it stops at the first success, the first permanent error or the
    [max_attempts]-th call, whichever comes first, calls the operation that many times (once at
    least), reports the attempts made, and sleeps between two calls and not after the last. *)
Theorem with_retry_spec {W T E} (f : Eff E W T) is_transient config w :
  ∃ n r delays, with_retry f is_transient config w = Some (r, world_after f (S n) w, delays) ∧
    (∀ m, (m < n)%nat → Z.of_nat m + 1 < max_attempts config ∧
      ∃ e, outcome f m w = Err e ∧ is_transient e = true) ∧
    match outcome f n w with
    | Ok v => r = Ok v
    | Panic p => r = Panic p
    | Err e => r = Err (Exhausted (Z.of_nat n + 1) e) ∧
        (max_attempts config <= Z.of_nat n + 1 ∨ is_transient e = false)
    end ∧
    delays = (λ m, backoff config (Z.of_nat m + 1)) <$> seq 0 n.
Proof.
  destruct (retry_loop_spec f is_transient config (S (Z.to_nat (max_attempts config))) 0 w)
    as (n & r & delays & Hr & _ & Hall & Hout & Hd); [lia|lia|].
  exists n, r, delays. rewrite Nat.sub_0_r in Hd. split_and!; [done| |done|done].
  intros m Hm. apply Hall. lia.
Qed.

(** The delay before jitter never exceeds the configured maximum, and is [base * 4^(attempt - 1)] up
    to it as long as that product fits in 64 bits; at attempt 33 the power itself has wrapped to 0. *)
Theorem backoff_bounds config attempt :
  0 <= base_delay_ms config → 0 <= max_delay_ms config → 1 <= attempt →
  backoff config attempt <= max_delay_ms config ∧
  (base_delay_ms config * 4 ^ (attempt - 1) <= u64_max →
   1 <= base_delay_ms config →
   backoff config attempt = Z.min (base_delay_ms config * 4 ^ (attempt - 1)) (max_delay_ms config)) ∧
  (33 <= attempt → backoff config attempt = 0).
Proof.
  intros Hb Hm Ha. unfold backoff, u64_mul, u64_pow. rewrite Z.max_l by lia. split_and!.
  - lia.
  - intros Hfit Hb1. assert (0 < 4 ^ (attempt - 1)) by (apply Z.pow_pos_nonneg; lia).
    rewrite (wrap64_id (4 ^ _)) by nia. by rewrite wrap64_id by nia.
  - intros Hbig. assert (wrap64 (4 ^ (attempt - 1)) = 0) as ->.
    { unfold wrap64. replace (4 ^ (attempt - 1)) with (4 ^ (attempt - 33) * 2 ^ 64).
      - apply Z.mod_mul. lia.
      - change (2 ^ 64) with (4 ^ 32). rewrite <-Z.pow_add_r by lia. f_equal. lia. }
    rewrite Z.mul_0_r. change (wrap64 0) with 0. lia.
Qed.

Lemma backoff_bounds_witness :
  backoff RetryConfig_default 3 = 3200 ∧ backoff RetryConfig_default 33 = 0.
Proof.
  split.
  - rewrite (proj1 (proj2 (backoff_bounds RetryConfig_default 3 ltac:(easy) ltac:(easy) ltac:(easy))));
      [reflexivity|by_compute|easy].
  - apply (backoff_bounds RetryConfig_default 33); easy.
Defined.

(** A status code is found exactly when it occurs as a number of its own: not inside a longer
    hexadecimal run, and not right after [0x]. *)
Theorem contains_status_code_iff s code :
  code ≠ ""%string →
  contains_status_code s code = true ↔ ∃ i, occurs s code i ∧ standalone s code i = true.
Proof.
  intros Hne. unfold contains_status_code. rewrite find_status_iff by (done || lia).
  split; [intros (i & _ & ?); by exists i|]. intros (i & ?). exists i. split; [lia|done].
Qed.

Lemma contains_status_code_iff_witness :
  contains_status_code "block 15029 failed: http 502" "502" = true ∧
  contains_status_code "block 15029 failed" "502" = false.
Proof.
  split; [|reflexivity]. apply contains_status_code_iff; [discriminate|].
  exists 25%nat. split; reflexivity.
Defined.
