(* ===== verification/Effects.v ===== *)
(** * Reasoning about effects

    Inversion of the runs of [Prelude.Eff] computations, and the operations that leave an observation
    of the world as it is. *)

From S2P Require Import Prelude.

Section effects.
Context {E W A B : Type}.

Lemma eff_bind_Ok (m : Eff E W A) (f : A → Eff E W B) b w w' :
  (m ≫= f) w = (Ok b, w') ↔ ∃ a w1, m w = (Ok a, w1) ∧ f a w1 = (Ok b, w').
Proof.
  unfold mbind, eff_bind. destruct (m w) as [[a|e|p] w1]; (split; [|by intros (?&?&[=]&?); subst]).
  - eauto.
  - by intros [=].
  - by intros [=].
Qed.

Lemma eff_bind_Err (m : Eff E W A) (f : A → Eff E W B) e w w' :
  (m ≫= f) w = (Err e, w') ↔
  m w = (Err e, w') ∨ ∃ a w1, m w = (Ok a, w1) ∧ f a w1 = (Err e, w').
Proof.
  unfold mbind, eff_bind. destruct (m w) as [[a|e'|p] w1]; split; intros H;
    try (destruct H as [[=]|(?&?&[=]&?)]; subst; done).
  - right. eauto.
  - left. congruence.
  - done.
Qed.

Lemma eff_bind_step (m : Eff E W A) (f : A → Eff E W B) a w w1 :
  m w = (Ok a, w1) → (m ≫= f) w = f a w1.
Proof. unfold mbind, eff_bind. by intros ->. Qed.
End effects.

(** A failure: an error or a panic. *)
Definition fails {E A} (r : Res E A) : Prop := match r with Ok _ => False | _ => True end.

(** A run of a sequence goes on with the first result, or fails with the first failure. *)
Lemma eff_bind_run {E W A B} (m : Eff E W A) (f : A → Eff E W B) r w w' :
  (m ≫= f) w = (r, w') →
  (∃ a w1, m w = (Ok a, w1) ∧ f a w1 = (r, w')) ∨ (∃ r0, m w = (r0, w') ∧ fails r0 ∧ fails r).
Proof.
  unfold mbind, eff_bind. destruct (m w) as [[a|e|p] w1]; [by eauto|..]; intros [= <- <-];
    right; eexists; split; done.
Qed.

Lemma eff_map_err_Ok {E F W A} (g : E → F) (m : Eff E W A) a w w' :
  eff_map_err g m w = (Ok a, w') ↔ m w = (Ok a, w').
Proof. unfold eff_map_err. destruct (m w) as [[] w1]; cbn; split; congruence. Qed.

Lemma eff_map_err_Err {E F W A} (g : E → F) (m : Eff E W A) x w w' :
  eff_map_err g m w = (Err x, w') → ∃ e, x = g e.
Proof. unfold eff_map_err. destruct (m w) as [[] w1]; cbn; intros [=]; eauto. Qed.

Lemma eff_map_err_run {E F W A} (g : E → F) (m : Eff E W A) r w w' :
  eff_map_err g m w = (r, w') → ∃ r0, m w = (r0, w') ∧ r = map_err g r0.
Proof. unfold eff_map_err. destruct (m w) as [r0 w1]. intros [= <- <-]. eauto. Qed.

Lemma map_err_fails {E F A} (g : E → F) (r : Res E A) : fails (map_err g r) ↔ fails r.
Proof. by destruct r. Qed.

Lemma eff_try_Ok {E F W A} (m : Eff E W A) (r : A + E) w w' :
  eff_try (F := F) m w = (Ok r, w') →
  m w = (match r with inl a => Ok a | inr e => Err e end, w').
Proof. unfold eff_try. destruct (m w) as [[] w1]; intros [=]; by subst. Qed.

Lemma eff_try_run {E F W A} (m : Eff E W A) (r : Res F (A + E)) w w' :
  eff_try m w = (r, w') → ∃ r0, m w = (r0, w') ∧
    r = match r0 with Ok a => Ok (inl a) | Err e => Ok (inr e) | Panic p => Panic p end.
Proof. unfold eff_try. destruct (m w) as [[] w1]; intros [= <- <-]; eauto. Qed.

Lemma eff_res_Ok {E W A} (r : Res E A) a (w w' : W) :
  eff_res r w = (Ok a, w') ↔ r = Ok a ∧ w' = w.
Proof. unfold eff_res. split; [intros [= -> ->]; done|by intros [-> ->]]. Qed.

Lemma ok_or_Ok {E A} (o : option A) (e : E) a : ok_or o e = Ok a ↔ o = Some a.
Proof. destruct o; cbn; split; congruence. Qed.
Lemma bail_if_Ok {E} b (e : E) u : bail_if b e = Ok u ↔ b = false.
Proof. destruct b, u; cbn; split; congruence. Qed.

(** Take a successful run apart. *)
Ltac inv_eff :=
  repeat match goal with
  | H : mbind _ _ _ = (Ok _, _) |- _ => apply eff_bind_Ok in H as (? & ? & ? & H)
  | H : eff_map_err _ _ _ = (Ok _, _) |- _ => apply eff_map_err_Ok in H
  | H : eff_res _ _ = (Ok _, _) |- _ => apply eff_res_Ok in H as [? ->]
  | H : ok_or _ _ = Ok _ |- _ => apply ok_or_Ok in H
  | H : bail_if _ _ = Ok _ |- _ => apply bail_if_Ok in H
  end.

(** ** Operations an observation does not see *)

Section quiet.
Context {W K V : Type} (see : W → K → V).

Definition quiet {E A} (m : Eff E W A) : Prop :=
  ∀ w r w', m w = (r, w') → ∀ k, see w' k = see w k.

Lemma quiet_ret {E A} (a : A) : quiet (mret a : Eff E W A).
Proof. by intros w r w' [= <- <-]. Qed.
Lemma quiet_res {E A} (r : Res E A) : quiet (eff_res r).
Proof. by intros w r' w' [= <- <-]. Qed.
Lemma quiet_bind {E A B} (m : Eff E W A) (f : A → Eff E W B) :
  quiet m → (∀ a, quiet (f a)) → quiet (m ≫= f).
Proof.
  intros Hm Hf w r w' Hrun k. apply eff_bind_run in Hrun as [(a & w1 & Hm1 & Hrun)|(r0 & Hrun & _)].
  - by rewrite (Hf _ _ _ _ Hrun), (Hm _ _ _ Hm1).
  - by rewrite (Hm _ _ _ Hrun).
Qed.
Lemma quiet_map_err {E F A} (g : E → F) (m : Eff E W A) : quiet m → quiet (eff_map_err g m).
Proof. intros Hm w r w' Hrun. apply eff_map_err_run in Hrun as (r0 & Hrun & _). by eapply Hm. Qed.
Lemma quiet_try {E F A} (m : Eff E W A) : quiet m → quiet (eff_try (F := F) m).
Proof. intros Hm w r w' Hrun. apply eff_try_run in Hrun as (r0 & Hrun & _). by eapply Hm. Qed.
Lemma quiet_total {E A} (m : W → A * W) :
  (∀ w k, see (m w).2 k = see w k) → quiet (eff_total (E := E) m).
Proof.
  intros Hm w r w' Hrun k. unfold eff_total in Hrun. specialize (Hm w k).
  destruct (m w) as [a w1]. by injection Hrun as <- <-.
Qed.
End quiet.

#[export] Hint Resolve quiet_ret quiet_res quiet_bind quiet_map_err quiet_try quiet_total : gas.

(** Follow a computation down to the operations of the world. *)
Ltac prove_quiet :=
  repeat first
    [ apply quiet_bind; [|intros ?] | apply quiet_map_err | apply quiet_try | apply quiet_res
    | apply quiet_ret | apply quiet_total; intros ? ? ];
  eauto with gas.

(** ** A logic of outcomes

    [ensures I m Q F]: run where [I] holds, [m] ends where [I] holds, what it returns satisfies [Q], and
    the error it fails with satisfies [F]. *)

Section ensures.
Context {W : Type} (I : W → Prop).

Definition res_sat {E A} (Q : A → Prop) (F : E → Prop) (r : Res E A) : Prop :=
  match r with Ok a => Q a | Err e => F e | Panic _ => True end.

Definition ensures {E A} (m : Eff E W A) (Q : A → Prop) (F : E → Prop) : Prop :=
  ∀ w r w', I w → m w = (r, w') → I w' ∧ res_sat Q F r.

Lemma ensures_ret {E A} (a : A) (Q : A → Prop) (F : E → Prop) : Q a → ensures (mret a) Q F.
Proof. by intros HQ w r w' Hw [= <- <-]. Qed.
Lemma ensures_res {E A} (r : Res E A) (Q : A → Prop) (F : E → Prop) :
  res_sat Q F r → ensures (eff_res r) Q F.
Proof. by intros HQ w r' w' Hw [= <- <-]. Qed.
Lemma ensures_bind {E A B} (m : Eff E W A) (f : A → Eff E W B) P Q F :
  ensures m P F → (∀ a, P a → ensures (f a) Q F) → ensures (m ≫= f) Q F.
Proof.
  intros Hm Hf w r w' Hw. unfold mbind, eff_bind. destruct (m w) as [r0 w1] eqn:Hm1.
  destruct (Hm _ _ _ Hw Hm1) as [Hw1 Hr0]. destruct r0 as [a|e|p]; [by apply Hf|..];
    intros [= <- <-]; done.
Qed.
Lemma ensures_map_err {E F A} (g : E → F) (m : Eff E W A) Q (G : F → Prop) :
  ensures m Q (G ∘ g) → ensures (eff_map_err g m) Q G.
Proof.
  intros Hm w r w' Hw Hrun. apply eff_map_err_run in Hrun as (r0 & Hrun & ->).
  destruct (Hm _ _ _ Hw Hrun) as [Hw1 HQ]. split; [done|]. by destruct r0.
Qed.
Lemma ensures_try {E F A} (m : Eff E W A) P G (Q : A + E → Prop) (R : F → Prop) :
  ensures m P G → (∀ a, P a → Q (inl a)) → (∀ e, G e → Q (inr e)) → ensures (eff_try m) Q R.
Proof.
  intros Hm Hl Hr w r w' Hw Hrun. apply eff_try_run in Hrun as (r0 & Hrun & ->).
  destruct (Hm _ _ _ Hw Hrun) as [Hw1 HP]. split; [done|]. destruct r0; cbn in *; auto.
Qed.
Lemma ensures_weaken {E A} (m : Eff E W A) (P Q : A → Prop) (F G : E → Prop) :
  ensures m P F → (∀ a, P a → Q a) → (∀ e, F e → G e) → ensures m Q G.
Proof.
  intros Hm HPQ HFG w r w' Hw Hrun. destruct (Hm _ _ _ Hw Hrun) as [? Hr].
  split; [done|]. destruct r; cbn in *; auto.
Qed.
End ensures.

(** An operation of a part of the world keeps what the whole needs of the part. *)
Lemma ensures_zoom {E S W A} (part : S → W) update (I : S → Prop) (J : W → Prop) (m : Eff E W A) Q F :
  (∀ s, I s → J (part s)) → (∀ s w, I s → J w → I (update w s)) →
  ensures J m Q F → ensures I (zoom part update m) Q F.
Proof.
  intros HI HJ Hm s r s' Hs Hrun. unfold zoom in Hrun. destruct (m (part s)) as [r0 w] eqn:Hw.
  injection Hrun as <- <-. destruct (Hm _ _ _ (HI _ Hs) Hw). auto.
Qed.

(** Nothing need be known of the world. *)
Definition anywhere {W} (w : W) : Prop := True.

Lemma ensures_anywhere_zoom {E S W A} (part : S → W) update (m : Eff E W A) Q F :
  ensures anywhere m Q F → ensures anywhere (zoom part update m) Q F.
Proof. by apply ensures_zoom. Qed.
