(* ===== verification/Analyze.v ===== *)
(** * Analysing one historical transaction

    [EvmSketchAnalyzer::analyze_tx] of [crates/indexer-api/src/lib.rs] and the fetches of
    [crates/rpc/src/lib.rs] it makes: the decisions to skip, the extraction, the choice of estimate, and
    the report. The node, the text of the errors and the sketch that measures gas are operations of a
    class; what they answer is up to the world. *)

From Stdlib Require Import Strings.Ascii.
From S2P Require Import Prelude.
From S2P Require Import Types.
From S2P Require Import Encoding.
From S2P Require Import Trace.
From S2P Require Import Heuristic.
From S2P Require Import RateLimit.

(** ** What the node answers *)

Record Receipt := mkReceipt {
  rc_status : bool;
  rc_to : option Z;
  rc_from : Z;
  rc_gas_used : Z;
  rc_block_number : option Z;
  rc_transaction_index : option Z;
  rc_effective_gas_price : Z
}.

(** A transaction as the node lists it. Access lists and authorizations are passed on unread. *)
Record ChainTx := mkChainTx {
  ctx_hash : Z;
  ctx_signer : Z;
  ctx_to : option Z;
  ctx_input : list Z;
  ctx_value : Z;
  ctx_gas_limit : Z;
  ctx_nonce : Z;
  ctx_effective_gas_price : option Z → Z;
  ctx_function_selector : option (list Z);
  ctx_access_list : option (list (Z * list Z));
  ctx_authorization_list : option (list (list Z))
}.

Record Block := mkBlock {
  blk_timestamp : Z;
  blk_base_fee_per_gas : option Z;
  blk_transactions : list ChainTx
}.

Inductive TxKind := KCall (a : Z) | KCreate.

Record PrecedingTx := mkPrecedingTx {
  pt_from : Z;
  pt_kind : TxKind;
  pt_input : list Z;
  pt_value : Z;
  pt_gas_limit : Z;
  pt_nonce : Z;
  pt_gas_price : Z;
  pt_access_list : list (Z * list Z);
  pt_authorization_list : list (list Z)
}.

Record OriginalTx := mkOriginalTx { ot_value : Z; ot_gas_price : Z }.

(** ** Errors *)

(** The ways [compute_state_updates_from_tx] fails. *)
Inductive TraceFailure :=
  | TFFailedTx                       (* "transaction failed" *)
  | TFRpc (message : string)
  | TFNotDefault                     (* "Expected default trace" *)
  | TFEmpty (tx_hash : Z)            (* "debug_traceTransaction returned an empty trace ..." *)
  | TFExtract (e : Error).

Inductive SkipReason :=
  | ContractCreation | NoContractCalled | BelowGasThreshold | Reverted | EmptyTrace | NoStateUpdates.

(** What [AnalyzerError::Rpc] reports. *)
Inductive RpcFailure :=
  | RFReceipt (e : RetryError string)       (* "get_transaction_receipt: {e}" *)
  | RFNoBlockNumber                         (* "receipt has no block_number" *)
  | RFNoTransactionIndex                    (* "receipt has no transaction_index" *)
  | RFBlock (e : RetryError string)         (* "get_block_by_number: {e}" *)
  | RFBlockNotFound (block : Z)             (* "block {block_number} not found" *)
  | RFTransaction (e : RetryError string)   (* "get_transaction_by_hash: {e}" *)
  | RFTimedOut (secs : Z).                  (* "analyze_tx timed out after {}s" *)

Inductive AnalyzerError :=
  | Skipped (reason : SkipReason)
  | ReceiptNotFound (tx_hash : Z)
  | Rpc (why : RpcFailure)
  | TraceError (e : RetryError TraceFailure) (* "trace extraction failed: {e}" *)
  | Estimation (message : string).           (* "builder.build: {e}" *)

Record AnalysisReport := mkAnalysisReport {
  ar_chain_id : Z;
  ar_block_number : Z;
  ar_block_timestamp : Z;
  ar_tx_hash : Z;
  ar_tx_index : Z;
  ar_from : Z;
  ar_to : Z;
  ar_function_selector : list Z;
  ar_gas_used : Z;
  ar_effective_gas_price_wei : Z;
  ar_gaskiller_gas_estimate : Z;
  ar_gas_saved : Z;
  ar_wei_saved : Z;
  ar_is_heuristic : bool;
  ar_failure_reason : option string;
  ar_state_update_count : Z;
  ar_skipped_opcodes : gset string;
  ar_reentered : bool
}.

Record AnalyzerConfig := mkAnalyzerConfig { chain_id : Z; min_gas_used : Z; heuristic_only : bool }.

Definition AnalyzerConfig_default : AnalyzerConfig := mkAnalyzerConfig 1 50000 false.

(** The trait the worker is written against. *)
Class Analyzer (W : Type) := { analyze : Z → Eff AnalyzerError W AnalysisReport }.

(** ** The node and the sketch *)

Class Node (W : Type) := {
  get_block_number : Eff string W Z;
  get_transaction_receipt : Z → Eff string W (option Receipt);
  get_block_by_number : Z → Eff string W (option Block);
  get_transaction_by_hash : Z → Eff string W (option ChainTx);
  (** [None]: the trace of another tracer. *)
  debug_trace_transaction : Z → Eff string W (option DefaultFrame);
  (** [to_lowercase], and the [Display] of an extraction's failure. *)
  lower : string → string;
  failure_text : TraceFailure → string
}.

(** [GasKillerEvmSketchDefault] of [crates/evmsketch]: build at a block, and measure. *)
Class Sketch (W : Type) := {
  sketch : Type;
  build_sketch : Z → Eff string W sketch;
  estimate_state_changes_gas_with_preceding :
    sketch → Z → Z → list StateUpdate → list PrecedingTx → OriginalTx → Eff string W Z
}.

Section analyze.
Context {W : Type} `{Externals, Node W, Sketch W}.

(** ** Fetching *)

Definition get_tx_trace (tx_hash : Z) (status : bool) : Eff TraceFailure W DefaultFrame :=
  if negb status then eff_res (Err TFFailedTx)
  else
    trace ← eff_map_err TFRpc (debug_trace_transaction tx_hash);
    eff_res (ok_or trace TFNotDefault).

Definition compute_state_updates_from_tx (tx_hash : Z) (status : bool) (origin : option Z)
  : Eff TraceFailure W TraceExtract :=
  trace ← get_tx_trace tx_hash status;
  if (0 <? length (df_struct_logs trace))%nat
  then eff_res (map_err TFExtract (compute_state_updates trace origin))
  else eff_res (Err (TFEmpty tx_hash)).

Definition preceding_tx (base_fee : option Z) (tx : ChainTx) : PrecedingTx :=
  mkPrecedingTx (ctx_signer tx)
    (match ctx_to tx with Some addr => KCall addr | None => KCreate end)
    (ctx_input tx) (ctx_value tx) (ctx_gas_limit tx) (ctx_nonce tx)
    (ctx_effective_gas_price tx base_fee) (default [] (ctx_access_list tx))
    (default [] (ctx_authorization_list tx)).

Inductive PrecedingError :=
  | PERpc (message : string)
  | PEBlockNotFound (block : Z)
  | PEIndex (tx_index count : Z).

Definition get_preceding_transactions (block_number tx_index : Z)
  : Eff PrecedingError W (list PrecedingTx) :=
  if tx_index =? 0 then mret []
  else
    block ← eff_map_err PERpc (get_block_by_number block_number);
    block ← eff_res (ok_or block (PEBlockNotFound block_number));
    let txs := blk_transactions block in
    if zlen txs <=? tx_index then eff_res (Err (PEIndex tx_index (zlen txs)))
    else mret (preceding_tx (blk_base_fee_per_gas block) <$> take (Z.to_nat tx_index) txs).

(** ** Retrying *)

(** [with_retry] as the code awaits it. It always answers ([RateLimit.with_retry_spec]), so the last
    branch is never taken. *)
Definition retrying {T E} (text : E → string) (f : Eff E W T) : Eff (RetryError E) W T := λ w,
  match with_retry f (λ e, is_transient_rpc_error lower (text e)) RetryConfig_default w with
  | Some (r, w, _) => (r, w)
  | None => (Panic "with_retry did not answer", w)
  end.

(** ** The analysis *)

(** [reason.lines().next().unwrap_or("unknown")]: up to the first line feed, less a carriage return
    before it. *)
Fixpoint until_newline (s : string) : string :=
  match s with
  | EmptyString => EmptyString
  | String c s' =>
      if Ascii.eqb c "010"%char then EmptyString
      else
        match s' with
        | String d _ =>
            if Ascii.eqb c "013"%char && Ascii.eqb d "010"%char then EmptyString
            else String c (until_newline s')
        | EmptyString => String c EmptyString
        end
  end.
Definition first_line (s : string) : string :=
  match s with EmptyString => "unknown" | _ => until_newline s end.

(** [gas + TURETZKY_UPPER_GAS_LIMIT_SCHNORR], on [u64]. *)
Definition settled_gas (gas : Z) : Z := u64_add gas TURETZKY_UPPER_GAS_LIMIT_SCHNORR.

(** Steps 5 and 6: the estimate, whether it is heuristic, and why the measured one failed. *)
Definition choose_estimate (config : AnalyzerConfig) (extract : TraceExtract)
  (to from block_number tx_index : Z) (original : OriginalTx)
  : Eff AnalyzerError W (Z * bool * option string) :=
  if heuristic_only config then
    mret (settled_gas (estimate_gas_from_state_updates extract), true, None)
  else
    p ← eff_try (get_preceding_transactions block_number tx_index);
    let preceding_txs := match p with inl p => p | inr _ => [] end in
    gk ← eff_map_err Estimation (build_sketch block_number);
    g ← eff_try (estimate_state_changes_gas_with_preceding gk to from
                   (te_state_updates extract) preceding_txs original);
    mret match g with
    | inl g => (settled_gas g, false, None)
    | inr reason =>
        (settled_gas (estimate_gas_from_state_updates extract), true, Some (first_line reason))
    end.

Definition quote : Ascii.ascii := "034"%char.

(** [format!("{o:?}")] of an opcode name, which has nothing to escape. *)
Definition debug_string (o : string) : string :=
  String quote (String.append o (String quote EmptyString)).

Definition u128_saturating_mul (a b : Z) : Z := Z.min (2 ^ 128 - 1) (a * b).

Definition analyze_tx (config : AnalyzerConfig) (tx_hash : Z) : Eff AnalyzerError W AnalysisReport :=
  receipt ← eff_map_err (Rpc ∘ RFReceipt) (retrying id (get_transaction_receipt tx_hash));
  receipt ← eff_res (ok_or receipt (ReceiptNotFound tx_hash));
  _ ← eff_res (bail_if (negb (rc_status receipt)) (Skipped Reverted));
  to ← eff_res (ok_or (rc_to receipt) (Skipped ContractCreation));
  let gas_used := rc_gas_used receipt in
  _ ← eff_res (bail_if (gas_used <? min_gas_used config) (Skipped BelowGasThreshold));
  block_number ← eff_res (ok_or (rc_block_number receipt) (Rpc RFNoBlockNumber));
  tx_index ← eff_res (ok_or (rc_transaction_index receipt) (Rpc RFNoTransactionIndex));
  let tx_sender := rc_from receipt in
  let effective_gas_price_wei := rc_effective_gas_price receipt in
  block ← eff_map_err (Rpc ∘ RFBlock) (retrying id (get_block_by_number block_number));
  block ← eff_res (ok_or block (Rpc (RFBlockNotFound block_number)));
  tx ← eff_map_err (Rpc ∘ RFTransaction) (retrying id (get_transaction_by_hash tx_hash));
  let function_selector := default [0; 0; 0; 0] (tx ≫= ctx_function_selector) in
  let original := mkOriginalTx (default 0 (ctx_value <$> tx)) effective_gas_price_wei in
  extract ← eff_map_err TraceError
    (retrying failure_text (compute_state_updates_from_tx tx_hash (rc_status receipt) (Some to)));
  _ ← eff_res (bail_if (bool_decide (te_state_updates extract = [])) (Skipped NoStateUpdates));
  '(gaskiller_gas_estimate, is_heuristic, failure_reason) ←
    choose_estimate config extract to tx_sender block_number tx_index original;
  let gas_saved := sat_sub gas_used gaskiller_gas_estimate in
  let wei_saved := u128_saturating_mul gas_saved effective_gas_price_wei in
  mret (mkAnalysisReport (chain_id config) block_number (blk_timestamp block) tx_hash tx_index
    tx_sender to function_selector gas_used effective_gas_price_wei gaskiller_gas_estimate
    gas_saved wei_saved is_heuristic failure_reason
    (zlen (te_state_updates extract) mod 2 ^ 32)
    (set_map debug_string (te_skipped_opcodes extract)) (te_reentered extract)).
End analyze.

(** [EvmSketchAnalyzer] is an analyzer. *)
#[export] Instance EvmSketchAnalyzer {W} `{Externals, Node W, Sketch W} (config : AnalyzerConfig)
  : Analyzer W := {| analyze := analyze_tx config |}.
