(* ===== verification/AnalyzeSpec.v ===== *)
(** * What an analysis reports

    The decisions of [Analyze.analyze_tx] to skip, and the contents of a report, whatever the node and
    the sketch answer. *)

From S2P Require Import Prelude.
From S2P Require Import Types.
From S2P Require Import Instances.
From S2P Require Import Encoding.
From S2P Require Import Trace.
From S2P Require Import TraceSpec.
From S2P Require Import Heuristic.
From S2P Require Import RateLimit.
From S2P Require Import Analyze.
From S2P Require Import Effects.

Section spec.
Context {W : Type} `{Externals, Node W, Sketch W}.

(** A retried operation answers what one of its calls answered. *)
Lemma retrying_Ok {T E} (text : E → string) (f : Eff E W T) v w w' :
  retrying text f w = (Ok v, w') → ∃ n, outcome f n w = Ok v ∧ w' = world_after f (S n) w.
Proof.
  unfold retrying, with_retry.
  destruct (retry_loop_spec f (λ e, is_transient_rpc_error lower (text e)) RetryConfig_default
    (S (Z.to_nat (max_attempts RetryConfig_default))) 0 w) as (n & r & delays & Hr & _ & _ & Ho & _);
    [lia|lia|].
  change (Z.of_nat 0) with 0 in Hr. cbn [world_after] in Hr. rewrite Hr. intros [= -> <-].
  exists n. split; [|done]. destruct (outcome f n w) as [v'|e|p]; [congruence|by destruct Ho|done].
Qed.

(** An extraction that succeeded is the core's, on a trace that is not empty. *)
Lemma compute_from_tx_Ok h status origin extract w w' :
  compute_state_updates_from_tx h status origin w = (Ok extract, w') →
  status = true ∧ ∃ trace, debug_trace_transaction h w = (Ok (Some trace), w') ∧
    df_struct_logs trace ≠ [] ∧ compute_state_updates trace origin = Ok extract.
Proof.
  unfold compute_state_updates_from_tx, get_tx_trace. intros Hrun.
  apply eff_bind_Ok in Hrun as (trace & w1 & Htr & Hrun).
  destruct status; cbn [negb] in Htr; [|done]. inv_eff. subst. split; [done|]. exists trace.
  destruct (Nat.ltb_spec 0 (length (df_struct_logs trace))) as [Hlen|];
    [|by unfold eff_res in Hrun].
  unfold eff_res, map_err in Hrun. destruct (compute_state_updates trace origin) eqn:Hc; try done.
  injection Hrun as <- <-. split_and!; [done| |done]. intros Hnil. rewrite Hnil in Hlen. cbn in Hlen. lia.
Qed.

(** What the choice of estimate answers: the heuristic of the extraction, or a measurement. *)
Definition chosen (config : AnalyzerConfig) (extract : TraceExtract) (to from : Z)
  (original : OriginalTx) (estimate : Z) (is_heuristic : bool) (reason : option string) : Prop :=
  if is_heuristic then
    estimate = settled_gas (estimate_gas_from_state_updates extract) ∧
    (heuristic_only config = true ↔ reason = None)
  else
    heuristic_only config = false ∧ reason = None ∧ ∃ s p w1 w2 g,
      estimate_state_changes_gas_with_preceding s to from (te_state_updates extract) p original w1
        = (Ok g, w2) ∧
      estimate = settled_gas g.

Lemma choose_estimate_Ok config extract to from b i original w e heur reason w' :
  choose_estimate config extract to from b i original w = (Ok (e, heur, reason), w') →
  chosen config extract to from original e heur reason.
Proof.
  unfold choose_estimate, chosen. destruct (heuristic_only config) eqn:Hh.
  { intros [= <- <- <- <-]. done. }
  intros Hrun. inv_eff. unfold mret, eff_ret in Hrun. destruct x3 as [g|why].
  - injection Hrun as <- <- <- <-. split_and!; [done..|].
    repeat eexists. by apply eff_try_Ok in H4.
  - injection Hrun as <- <- <- <-. split; [done|]. done.
Qed.

(** C27: A report is of a successful call of a contract that used at least the configured gas, on whose
    trace the extraction found at least one update; it carries the receipt's fields; the saving is
    what the receipt's gas exceeds the estimate by, never negative; and the estimate is the heuristic
    of that extraction or a measurement of its updates, plus the Schnorr settlement cost, flagged
    accordingly. *)
Theorem analyze_tx_report config h w r w' :
  analyze_tx config h w = (Ok r, w') →
  ∃ receipt w0 trace extract w1 w2 value,
    retrying id (get_transaction_receipt h) w = (Ok (Some receipt), w0) ∧
    rc_status receipt = true ∧ rc_to receipt = Some (ar_to r) ∧ rc_from receipt = ar_from r ∧
    min_gas_used config <= rc_gas_used receipt ∧ rc_gas_used receipt = ar_gas_used r ∧
    debug_trace_transaction h w1 = (Ok (Some trace), w2) ∧
    compute_state_updates trace (Some (ar_to r)) = Ok extract ∧ te_state_updates extract ≠ [] ∧
    ar_gas_saved r = Z.max 0 (rc_gas_used receipt - ar_gaskiller_gas_estimate r) ∧
    ar_wei_saved r = Z.min (2 ^ 128 - 1) (ar_gas_saved r * rc_effective_gas_price receipt) ∧
    ar_reentered r = te_reentered extract ∧
    chosen config extract (ar_to r) (ar_from r)
      (mkOriginalTx value (rc_effective_gas_price receipt))
      (ar_gaskiller_gas_estimate r) (ar_is_heuristic r) (ar_failure_reason r).
Proof.
  intros Hrun. unfold analyze_tx in Hrun. inv_eff. subst.
  match goal with Hc : choose_estimate _ _ _ _ _ _ _ _ = (Ok ?p, _) |- _ =>
    destruct p as [[e heur] reason]; apply choose_estimate_Ok in Hc end.
  match goal with Ht : retrying failure_text _ _ = _ |- _ =>
    apply retrying_Ok in Ht as (n & Ht & _); unfold outcome in Ht;
    destruct (compute_state_updates_from_tx _ _ _ _) as [m w2] eqn:Hm; cbn in Ht; subst m;
    apply compute_from_tx_Ok in Hm as (Hst & trace & Htr & _ & Hcomp) end.
  unfold mret, eff_ret in Hrun. injection Hrun as <- <-. cbn.
  repeat eexists; try eassumption.
  - by apply Z.ltb_ge.
  - intros Hnil. by rewrite bool_decide_eq_true_2 in *.
Qed.

(** ** Skips *)

(** The skips the receipt alone decides, in the order the code tests them. *)
Definition receipt_skip (config : AnalyzerConfig) (receipt : Receipt) : option SkipReason :=
  if negb (rc_status receipt) then Some Reverted
  else if bool_decide (rc_to receipt = None) then Some ContractCreation
  else if rc_gas_used receipt <? min_gas_used config then Some BelowGasThreshold
  else None.

Lemma map_err_no_skip {E A} (g : E → AnalyzerError) (m : Eff E W A) r w w' :
  (∀ e, g e ≠ Skipped r) → eff_map_err g m w ≠ (Err (Skipped r), w').
Proof. intros Hg He. apply eff_map_err_Err in He as [e He]. by destruct (Hg e). Qed.

Lemma ok_or_Err {A} (o : option A) (e x : AnalyzerError) (w w' : W) :
  eff_res (ok_or o e) w = (Err x, w') → x = e.
Proof. unfold eff_res. destruct o; cbn; congruence. Qed.

Lemma choose_estimate_no_skip config extract to from b i original w r w' :
  choose_estimate config extract to from b i original w ≠ (Err (Skipped r), w').
Proof.
  unfold choose_estimate. destruct (heuristic_only config); [done|]. intros Hrun.
  apply eff_bind_Err in Hrun as [Hrun|(p & w1 & _ & Hrun)].
  { unfold eff_try in Hrun. by destruct (get_preceding_transactions _ _ _) as [[] ?]. }
  apply eff_bind_Err in Hrun as [Hrun|(gk & w2 & _ & Hrun)]; [by eapply map_err_no_skip in Hrun|].
  apply eff_bind_Err in Hrun as [Hrun|(g & w3 & _ & Hrun)]; [|done].
  unfold eff_try in Hrun. by destruct (estimate_state_changes_gas_with_preceding _ _ _ _ _ _ _) as [[] ?].
Qed.

(** A transaction its receipt rules out is skipped with the reason tested first, and nothing more is
    asked of the node; any other is skipped only for want of updates, never as an empty trace or for
    not calling a contract. *)
Theorem analyze_tx_skips config h w receipt w0 :
  retrying id (get_transaction_receipt h) w = (Ok (Some receipt), w0) →
  match receipt_skip config receipt with
  | Some r => analyze_tx config h w = (Err (Skipped r), w0)
  | None => ∀ r w', analyze_tx config h w = (Err (Skipped r), w') → r = NoStateUpdates
  end.
Proof.
  intros Hrec. unfold analyze_tx.
  erewrite eff_bind_step by (by apply eff_map_err_Ok).
  erewrite eff_bind_step by (by apply eff_res_Ok). unfold receipt_skip.
  destruct (rc_status receipt); [|reflexivity]. cbn [negb].
  erewrite eff_bind_step by (by apply eff_res_Ok).
  destruct (rc_to receipt) as [to|]; [|reflexivity].
  rewrite bool_decide_eq_false_2 by done. erewrite eff_bind_step by (by apply eff_res_Ok).
  destruct (rc_gas_used receipt <? min_gas_used config); [reflexivity|].
  erewrite eff_bind_step by (by apply eff_res_Ok).
  intros r w' Hrun.
  repeat (apply eff_bind_Err in Hrun as [Hrun|(? & ? & _ & Hrun)];
    [first [by apply ok_or_Err in Hrun | by eapply map_err_no_skip in Hrun |
      by apply choose_estimate_no_skip in Hrun |
      unfold eff_res, bail_if in Hrun; case_bool_decide; congruence]|]).
  repeat case_match. done.
Qed.
End spec.

(** ** Witnesses *)

(** A node that knows one transaction, and a sketch that cannot be built. *)
Definition sample_receipt (gas_used : Z) : Receipt :=
  mkReceipt true (Some 77) 10 gas_used (Some 100) (Some 3) 2.

#[export] Instance sample_node : Node unit := {|
  get_block_number w := (Ok 100, w);
  get_transaction_receipt h w := (Ok (Some (sample_receipt (if h =? 1 then 400000 else 20000))), w);
  get_block_by_number _ w := (Ok (Some (mkBlock 1700 None [])), w);
  get_transaction_by_hash _ w := (Ok None, w);
  debug_trace_transaction _ w :=
    (Ok (Some (mkDefaultFrame false 0 []
      [sample_log 1 "SSTORE" 100 [7; 1]; sample_log 1 "STOP" 95 []])), w);
  lower s := s;
  failure_text _ := "failed"
|}.

#[export] Instance sample_sketch : Sketch unit := {|
  sketch := unit;
  build_sketch _ w := (Err "no fork", w);
  estimate_state_changes_gas_with_preceding _ _ _ _ _ _ w := (Err "no fork", w)
|}.

Abbreviation sample_report := (analyze_tx (mkAnalyzerConfig 1 50000 true) 1 tt).

Lemma analyze_tx_report_witness :
  match sample_report.1 with
  | Ok r => ar_gas_saved r = 327411 ∧ ar_is_heuristic r = true ∧
      min_gas_used (mkAnalyzerConfig 1 50000 true) <= ar_gas_used r
  | _ => False
  end.
Proof.
  destruct sample_report as [[r|e|p] w'] eqn:Hrun; cbn [fst];
    [|exfalso; revert Hrun; by vm_compute..].
  destruct (analyze_tx_report (mkAnalyzerConfig 1 50000 true) 1 tt r w' Hrun)
    as (receipt & w0 & trace & extract & w1 & w2 & value & Hrec & _ & _ & _ & Hmin & Hgas & _).
  rewrite <-Hgas. split_and!; [| |exact Hmin]; revert Hrun; vm_compute; by intros [= <- _].
Defined.

Lemma analyze_tx_skips_witness :
  analyze_tx (mkAnalyzerConfig 1 50000 true) 2 tt = (Err (Skipped BelowGasThreshold), tt).
Proof.
  exact (analyze_tx_skips (mkAnalyzerConfig 1 50000 true) 2 tt (sample_receipt 20000) tt eq_refl).
Defined.
