(* ===== verification/Jobs.v ===== *)
(** * The job queue, the head tracker and the worker

    [queue.rs], [head_tracker.rs] and [worker.rs] of [crates/indexer-service]: the queue operations on a
    Redis server, and the bodies of the two service loops, as effects on the world. The server, the
    JSON codec, the clock, the resolver and the store are operations of classes, with what the services
    rely on of them as laws; the analyzer is any instance of [Analyze.Analyzer]. Sleeping, logging and
    the rate limiter's permits (which only delay) are left out. *)

From S2P Require Import Prelude.
From S2P Require Import Types.
From S2P Require Import Analyze.

(** ** Jobs *)

Record AnalyzeTxJob := mkAnalyzeTxJob {
  job_chain_id : Z;
  job_tx_hash : Z;
  job_block_number : Z;
  job_tx_index : Z;
  job_attempt : Z;
  job_enqueued_at : Z
}.

(** [i64] subtraction; both timestamps are seconds since the epoch. *)
Definition age_secs (j : AnalyzeTxJob) (now : Z) : option Z :=
  if 0 <? job_enqueued_at j then Some (now - job_enqueued_at j) else None.

(** [u32] addition wraps. *)
Definition u32_add (a b : Z) : Z := (a + b) mod 2 ^ 32.

Definition next_attempt (j : AnalyzeTxJob) : AnalyzeTxJob :=
  mkAnalyzeTxJob (job_chain_id j) (job_tx_hash j) (job_block_number j) (job_tx_index j)
    (u32_add (job_attempt j) 1) (job_enqueued_at j).

(** The fields fit their types. *)
Definition job_wf (j : AnalyzeTxJob) : Prop :=
  is_u64 (job_chain_id j) ∧ is_u256 (job_tx_hash j) ∧ is_u64 (job_block_number j) ∧
  is_u64 (job_tx_index j) ∧ 0 <= job_attempt j < 2 ^ 32 ∧
  - 2 ^ 63 <= job_enqueued_at j < 2 ^ 63.

(** ** The Redis server, the codec and the clock *)

Class QueueServer (W : Type) := {
  rpush : string → list Z → Eff string W unit;
  llen : string → Eff string W Z;
  (** [BLPOP] with a timeout in seconds. *)
  blpop : string → Z → Eff string W (option (list Z));
  incr_by : string → Z → Eff string W Z;
  (** [SET key value EX seconds]. *)
  set_ex : string → Z → Z → Eff string W unit;
  (** [serde_json] on [AnalyzeTxJob] and [Dead], and [chrono::Utc::now().timestamp()]. *)
  job_to_vec : AnalyzeTxJob → list Z;
  job_from_slice : list Z → option AnalyzeTxJob;
  dead_to_vec : AnalyzeTxJob → Z → string → list Z;
  timestamp : W → Z * W
}.

(** ** The queue *)

Definition QUEUE_KEY : string := "analyzer:queue:pending".
Definition DEAD_KEY : string := "analyzer:queue:dead".
Definition LAST_HEAD_KEY : string := "indexer:state:last_head".
Definition LAST_HEAD_TTL_SECS : Z := 60.
Definition SKIPPED_BLOCKS_KEY : string := "indexer:state:skipped_blocks".
Definition EXPIRED_JOBS_KEY : string := "indexer:state:expired_jobs".

Inductive QueueError := QRedis (message : string) | QSerde.

Section queue.
Context {W : Type} `{QueueServer W}.

Definition enqueue (j : AnalyzeTxJob) : Eff QueueError W unit :=
  eff_map_err QRedis (rpush QUEUE_KEY (job_to_vec j)).

Definition depth : Eff QueueError W Z := eff_map_err QRedis (llen QUEUE_KEY).

Definition claim (timeout : Z) : Eff QueueError W (option AnalyzeTxJob) :=
  result ← eff_map_err QRedis (blpop QUEUE_KEY timeout);
  match result with
  | Some payload => j ← eff_res (ok_or (job_from_slice payload) QSerde); mret (Some j)
  | None => mret None
  end.

Definition requeue (j : AnalyzeTxJob) : Eff QueueError W unit := enqueue j.

Definition publish_last_head (block_number : Z) : Eff QueueError W unit :=
  eff_map_err QRedis (set_ex LAST_HEAD_KEY block_number LAST_HEAD_TTL_SECS).

Definition incr_dropped (key : string) (by_ : Z) : Eff QueueError W unit :=
  _ ← eff_map_err QRedis (incr_by key by_); mret tt.

Definition dead_letter (j : AnalyzeTxJob) (reason : string) : Eff QueueError W unit :=
  failed_at ← eff_total timestamp;
  eff_map_err QRedis (rpush DEAD_KEY (dead_to_vec j failed_at reason)).
End queue.

(** ** The head tracker *)

Record HeadTrackerConfig := mkHeadTrackerConfig { max_queue_depth : Z; max_blocks_behind : Z }.

(** The locals of [run] across iterations. *)
Record Tracker := mkTracker { next_block : Z; skipped_blocks : Z }.

(** What ends or fails a round: the node or the queue. *)
Inductive TrackerError :=
  | TENode (message : string)
  | TENotFound (block : Z)
  | TEQueue (e : QueueError).

Section tracker.
Context {W : Type} `{QueueServer W, Node W}.

(** The loop of [enqueue_block]. *)
Fixpoint enqueue_txs (chain_id block_number idx : Z) (txs : list ChainTx)
  : Eff TrackerError W unit :=
  match txs with
  | [] => mret tt
  | tx :: txs =>
      match ctx_to tx with
      | None => enqueue_txs chain_id block_number (idx + 1) txs
      | Some _ =>
          now ← eff_total timestamp;
          let j := mkAnalyzeTxJob chain_id (ctx_hash tx) block_number idx 0 now in
          _ ← eff_map_err TEQueue (enqueue j);
          enqueue_txs chain_id block_number (idx + 1) txs
      end
  end.

Definition enqueue_block (chain_id block_number : Z) : Eff TrackerError W unit :=
  block ← eff_map_err TENode (get_block_by_number block_number);
  block ← eff_res (ok_or block (TENotFound block_number));
  enqueue_txs chain_id block_number 0 (blk_transactions block).

(** Lines 75-95: skip ahead when too far behind. *)
Definition bound_lag (cfg : HeadTrackerConfig) (head : Z) (t : Tracker)
  : Eff TrackerError W Tracker :=
  if (0 <? max_blocks_behind cfg) && (max_blocks_behind cfg <? sat_sub head (next_block t)) then
    let new_start := head - max_blocks_behind cfg in
    let skipped := new_start - next_block t in
    _ ← eff_try (E := QueueError) (incr_dropped SKIPPED_BLOCKS_KEY skipped);
    mret (mkTracker new_start (u64_add (skipped_blocks t) skipped))
  else mret t.

(** One iteration, and the block it fanned out, if any. An error of [get_block_number] or [depth] ends
    the service; one of [enqueue_block] is retried in the next round. *)
Definition tracker_step (cfg : HeadTrackerConfig) (chain_id : Z) (t : Tracker)
  : Eff TrackerError W (Tracker * option Z) :=
  head ← eff_map_err TENode get_block_number;
  _ ← eff_try (E := QueueError) (publish_last_head head);
  depth ← eff_map_err TEQueue depth;
  if max_queue_depth cfg <? depth then mret (t, None)
  else
    t ← bound_lag cfg head t;
    if head <? next_block t then mret (t, None)
    else
      let block_n := next_block t in
      r ← eff_try (E := TrackerError) (enqueue_block chain_id block_n);
      mret match r with
      | inr _ => (t, None)
      | inl _ => (mkTracker (u64_add block_n 1) (skipped_blocks t), Some block_n)
      end.

(** Live-only: the first block is the one after the current head. *)
Definition tracker_start : Eff TrackerError W Tracker :=
  head ← eff_map_err TENode get_block_number; mret (mkTracker (u64_add head 1) 0).

(** The first [n] iterations: the locals, the blocks fanned out, and whether the loop goes on. *)
Fixpoint tracker_run (n : nat) (cfg : HeadTrackerConfig) (chain_id : Z) (t : Tracker) (w : W)
  : Tracker * list Z * bool * W :=
  match n with
  | O => (t, [], true, w)
  | S n =>
      match tracker_step cfg chain_id t w with
      | (Ok (t, block), w) =>
          let '(t, blocks, live, w) := tracker_run n cfg chain_id t w in
          (t, match block with Some b => b :: blocks | None => blocks end, live, w)
      | (_, w) => (t, [], false, w)
      end
  end.
End tracker.

(** ** The worker *)

Record WorkerConfig := mkWorkerConfig {
  max_retries : Z;
  analyze_timeout_secs : Z;
  queue_job_ttl_secs : Z
}.

(** The resolver and the store of a worker, [tokio::time::timeout] around the analysis ([None] when
    the time is up), and [AnalyzerError]'s [Display]. *)
Class Backend (W : Type) := {
  project : Type;
  project_slug : project → string;
  resolve : Z → Z → W → project * W;
  insert_analysis : AnalysisReport → string → Eff string W unit;
  upsert_project : project → Eff string W unit;
  upsert_address_project : Z → Z → string → Eff string W unit;
  with_timeout : Z → Eff AnalyzerError W AnalysisReport → Eff AnalyzerError W (option AnalysisReport);
  error_text : AnalyzerError → string
}.

(** What became of a job claimed; [DFailed] if [handle] failed. *)
Inductive Disposition := DExpired | DPersisted | DSkipped | DRequeued | DDeadLettered | DFailed.

Inductive HandleError := HStore (message : string) | HQueue (e : QueueError).

(** [cfg.queue_job_ttl_secs as i64]. *)
Definition ttl_secs (cfg : WorkerConfig) : Z :=
  if queue_job_ttl_secs cfg <? 2 ^ 63 then queue_job_ttl_secs cfg
  else queue_job_ttl_secs cfg - 2 ^ 64.

Definition expired (cfg : WorkerConfig) (now : Z) (j : AnalyzeTxJob) : bool :=
  (0 <? ttl_secs cfg) &&
  match age_secs j now with Some age => ttl_secs cfg <? age | None => false end.

Section worker.
Context {W : Type} `{QueueServer W, Backend W, Analyzer W}.

(** The analysis under its deadline. *)
Definition timed_analysis (cfg : WorkerConfig) (j : AnalyzeTxJob) : Eff AnalyzerError W AnalysisReport :=
  r ← with_timeout (analyze_timeout_secs cfg) (analyze (job_tx_hash j));
  eff_res (ok_or r (Rpc (RFTimedOut (analyze_timeout_secs cfg)))).

Definition persist (report : AnalysisReport) : Eff string W unit :=
  project ← eff_total (resolve (ar_chain_id report) (ar_to report));
  _ ← insert_analysis report (project_slug project);
  _ ← upsert_project project;
  upsert_address_project (ar_chain_id report) (ar_to report) (project_slug project).

(** [handle], and which of its branches ended it. *)
Definition handle (cfg : WorkerConfig) (j : AnalyzeTxJob) : Eff HandleError W Disposition :=
  r ← eff_try (timed_analysis cfg j);
  match r with
  | inl report => _ ← eff_map_err HStore (persist report); mret DPersisted
  | inr (Skipped _) => mret DSkipped
  | inr e =>
      if u32_add (job_attempt j) 1 <? max_retries cfg then
        _ ← eff_map_err HQueue (requeue (next_attempt j)); mret DRequeued
      else
        _ ← eff_map_err HQueue (dead_letter j (error_text e)); mret DDeadLettered
  end.

(** Lines 72-90: the clock is read only under a time-to-live. *)
Definition check_expired (cfg : WorkerConfig) (j : AnalyzeTxJob) : Eff QueueError W bool :=
  if 0 <? ttl_secs cfg then now ← eff_total timestamp; mret (expired cfg now j) else mret false.

(** One iteration: the job it claimed, if any, and its disposition. An error of [claim] ends the
    service; one of [handle] is logged. *)
Definition worker_step (cfg : WorkerConfig) : Eff QueueError W (option (AnalyzeTxJob * Disposition)) :=
  job ← claim 5;
  match job with
  | None => mret None
  | Some j =>
      e ← check_expired cfg j;
      if (e : bool) then
        _ ← eff_try (E := QueueError) (incr_dropped EXPIRED_JOBS_KEY 1); mret (Some (j, DExpired))
      else
        d ← eff_try (handle cfg j);
        mret (Some (j, match d with inl d => d | inr _ => DFailed end))
  end.

(** The first [n] iterations: the jobs claimed, and whether the loop goes on. *)
Fixpoint worker_run (n : nat) (cfg : WorkerConfig) (w : W)
  : list (AnalyzeTxJob * Disposition) * bool * W :=
  match n with
  | O => ([], true, w)
  | S n =>
      match worker_step cfg w with
      | (Ok done, w) =>
          let '(log, live, w) := worker_run n cfg w in
          (match done with Some d => d :: log | None => log end, live, w)
      | (_, w) => ([], false, w)
      end
  end.
End worker.
