(* ===== verification/QueueSpec.v ===== *)
(** * The queue as two lists

    What the services rely on of the Redis server and the JSON codec, and what each queue operation
    does to the abstract queue the server holds: the pending jobs, front first, and the dead
    letters. *)

From S2P Require Import Prelude.
From S2P Require Import Types.
From S2P Require Import Analyze.
From S2P Require Import Jobs.
From S2P Require Import Effects.

(** ** Laws *)

(** The lists of the server as the commands document them, for one client at a time: a command that
    fails may have been executed or not. *)
Class QueueLaws (W : Type) `{QueueServer W} := {
  lists : W → string → list (list Z);
  rpush_law k v w r w' : rpush k v w = (r, w') →
    (∀ k', k' ≠ k → lists w' k' = lists w k') ∧
    match r with
    | Ok _ => lists w' k = lists w k ++ [v]
    | _ => lists w' k = lists w k ∨ lists w' k = lists w k ++ [v]
    end;
  blpop_law k t w r w' : blpop k t w = (r, w') →
    (∀ k', k' ≠ k → lists w' k' = lists w k') ∧
    match r with
    | Ok (Some v) => lists w k = v :: lists w' k
    | Ok None => lists w k = [] ∧ lists w' k = []
    | _ => lists w' k = lists w k ∨ lists w' k = tail (lists w k)
    end;
  llen_law k w n w' : llen k w = (Ok n, w') → n = zlen (lists w k);
  llen_quiet k : quiet lists (llen k);
  incr_quiet k n : quiet lists (incr_by k n);
  set_quiet k v s : quiet lists (set_ex k v s);
  timestamp_quiet w k : lists (timestamp w).2 k = lists w k;
  job_codec j : job_wf j → job_from_slice (job_to_vec j) = Some j
}.

#[export] Hint Resolve llen_quiet incr_quiet set_quiet timestamp_quiet : gas.

(** ** The abstract queue *)

Record AbstractQueue := mkAQ { pending : list AnalyzeTxJob; dead : list (list Z) }.

Lemma job_wf_next j : job_wf j → job_wf (next_attempt j).
Proof.
  unfold job_wf, next_attempt, u32_add. cbn. intros (?&?&?&?&_&?). split_and!; try done;
    pose proof (Z.mod_pos_bound (job_attempt j + 1) (2 ^ 32)); lia.
Qed.

Section queue.
Context {W : Type} `{QueueLaws W}.

Definition represents (w : W) (q : AbstractQueue) : Prop :=
  lists w QUEUE_KEY = job_to_vec <$> pending q ∧ lists w DEAD_KEY = dead q ∧
  Forall job_wf (pending q).

Lemma represents_quiet {E A} (m : Eff E W A) w r w' q :
  quiet lists m → m w = (r, w') → represents w q → represents w' q.
Proof.
  intros Hm Hrun (Hp & Hd & Hwf). unfold represents.
  by rewrite !(Hm _ _ _ Hrun).
Qed.

Lemma quiet_incr_dropped k n : quiet lists (incr_dropped k n).
Proof. unfold incr_dropped. eauto with gas. Qed.
Lemma quiet_depth : quiet lists depth.
Proof. unfold depth. eauto with gas. Qed.
Lemma quiet_publish_last_head n : quiet lists (publish_last_head n).
Proof. unfold publish_last_head. eauto with gas. Qed.

Lemma depth_spec w n w' q : represents w q → depth w = (Ok n, w') → n = zlen (pending q).
Proof.
  intros (Hp & _) Hrun. apply eff_map_err_Ok, llen_law in Hrun as ->. rewrite Hp.
  unfold zlen. by rewrite length_fmap.
Qed.

(** [enqueue] appends; if it fails it may have. *)
Lemma enqueue_spec j w r w' q :
  represents w q → job_wf j → enqueue j w = (r, w') →
  let q1 := mkAQ (pending q ++ [j]) (dead q) in
  match r with Ok _ => represents w' q1 | _ => represents w' q ∨ represents w' q1 end.
Proof.
  intros (Hp & Hd & Hwf) Hj Hrun q1. apply eff_map_err_run in Hrun as (r0 & Hrun & ->).
  apply rpush_law in Hrun as [Hother Hr]. rewrite <-(Hother DEAD_KEY) in Hd by done.
  assert (Hwf1 : Forall job_wf (pending q ++ [j])) by (apply Forall_app; auto).
  assert (Hq1 : lists w' QUEUE_KEY = lists w QUEUE_KEY ++ [job_to_vec j] → represents w' q1).
  { intros Ha. split; [|done]. unfold q1. cbn. by rewrite Ha, Hp, fmap_app. }
  destruct r0; cbn; [by apply Hq1|..]; (destruct Hr as [Hr|Hr]; [left|right; by apply Hq1]);
    (split; [by rewrite Hr|done]).
Qed.

(** [dead_letter] appends to the dead list; if it fails it may have. *)
Lemma dead_letter_spec j reason w r w' q :
  represents w q → dead_letter j reason w = (r, w') →
  let q1 t := mkAQ (pending q) (dead q ++ [dead_to_vec j t reason]) in
  ∃ t, match r with Ok _ => represents w' (q1 t) | _ => represents w' q ∨ represents w' (q1 t) end.
Proof.
  intros Hq Hrun q1. apply eff_bind_run in Hrun as [(t & w1 & Ht & Hrun)|(r0 & Ht & Hr0 & _)].
  2:{ unfold eff_total in Ht. destruct (timestamp w). by injection Ht as <- <-. }
  apply (represents_quiet _ _ _ _ q) in Ht as (Hp & Hd & Hwf); [|by eauto with gas|done].
  apply eff_map_err_run in Hrun as (r0 & Hrun & ->).
  apply rpush_law in Hrun as [Hother Hr]. rewrite <-(Hother QUEUE_KEY) in Hp by done. exists t.
  assert (Hq1 : lists w' DEAD_KEY = lists w1 DEAD_KEY ++ [dead_to_vec j t reason] →
    represents w' (q1 t)).
  { intros Ha. split; [done|]. by rewrite Ha, Hd. }
  destruct r0; cbn; [by apply Hq1|..]; (destruct Hr as [Hr|Hr]; [left|right; by apply Hq1]);
    (split; [done|by rewrite Hr]).
Qed.

(** [claim] takes the first job, if any; if it fails it may have. *)
Lemma claim_spec t w r w' q :
  represents w q → claim t w = (r, w') →
  match r with
  | Ok None => pending q = [] ∧ represents w' q
  | Ok (Some j) => ∃ rest, pending q = j :: rest ∧ job_wf j ∧ represents w' (mkAQ rest (dead q))
  | _ => represents w' q ∨
      ∃ j rest, pending q = j :: rest ∧ represents w' (mkAQ rest (dead q))
  end.
Proof.
  intros (Hp & Hd & Hwf) Hrun. unfold claim in Hrun.
  apply eff_bind_run in Hrun as [(o & w1 & Hpop & Hrun)|(r0 & Hpop & Hr0 & Hr)].
  - apply eff_map_err_Ok, blpop_law in Hpop as [Hother Hpop].
    rewrite <-(Hother DEAD_KEY) in Hd by done. destruct o as [payload|].
    + rewrite Hp in Hpop. destruct (pending q) as [|j rest]; [done|]. injection Hpop as <- Hrest.
      apply Forall_cons in Hwf as [Hj Hwf]. unfold mbind, eff_bind, eff_res in Hrun.
      rewrite job_codec in Hrun by done. injection Hrun as <- <-. by exists rest.
    + injection Hrun as <- <-. destruct Hpop as [He He']. rewrite Hp in He.
      destruct q as [[|] ?]; [|done]. done.
  - apply eff_map_err_run in Hpop as (r1 & Hpop & ->). apply map_err_fails in Hr0.
    apply blpop_law in Hpop as [Hother Hpop]. rewrite <-(Hother DEAD_KEY) in Hd by done.
    assert (Hc : represents w' q ∨
      ∃ j rest, pending q = j :: rest ∧ represents w' (mkAQ rest (dead q))); [|by destruct r].
    assert (Hl : lists w' QUEUE_KEY = lists w QUEUE_KEY ∨
      lists w' QUEUE_KEY = tail (lists w QUEUE_KEY)) by (by destruct r1).
    unfold represents. rewrite Hp in Hl. destruct Hl as [->| ->]; [by left|].
    destruct (pending q) as [|j rest]; [by left|]. right. exists j, rest.
    by apply Forall_cons in Hwf as [_ Hwf].
Qed.
End queue.

(** ** A concrete server

    An in-memory server that never fails, on which the theorems that assume the laws are
    instantiated. *)

Record SampleWorld := mkSampleWorld { sw_lists : gmap string (list (list Z)); sw_now : Z }.

Definition sample_list (w : SampleWorld) (k : string) : list (list Z) := default [] (sw_lists w !! k).
Definition set_list (k : string) (l : list (list Z)) (w : SampleWorld) : SampleWorld :=
  mkSampleWorld (<[k := l]> (sw_lists w)) (sw_now w).

Definition sample_from_slice (payload : list Z) : option AnalyzeTxJob :=
  match payload with
  | [c; h; b; i; a; e] => Some (mkAnalyzeTxJob c h b i a e)
  | _ => None
  end.

#[export] Instance sample_server : QueueServer SampleWorld := {|
  rpush k v w := (Ok tt, set_list k (sample_list w k ++ [v]) w);
  llen k w := (Ok (zlen (sample_list w k)), w);
  blpop k _ w := (Ok (head (sample_list w k)), set_list k (tail (sample_list w k)) w);
  incr_by _ n w := (Ok n, w);
  set_ex _ _ _ w := (Ok tt, w);
  job_to_vec j := [job_chain_id j; job_tx_hash j; job_block_number j; job_tx_index j;
    job_attempt j; job_enqueued_at j];
  job_from_slice := sample_from_slice;
  dead_to_vec j t _ := [job_tx_hash j; t];
  timestamp w := (sw_now w, w)
|}.

Lemma sample_list_set k k' l w :
  sample_list (set_list k l w) k' = if decide (k' = k) then l else sample_list w k'.
Proof.
  unfold sample_list, set_list. cbn. destruct (decide (k' = k)) as [->|Hk].
  - by rewrite lookup_insert_eq.
  - by rewrite lookup_insert_ne.
Qed.

#[export] Instance sample_queue_laws : QueueLaws SampleWorld.
Proof.
  refine {| lists := sample_list |}; try done.
  - intros k v w r w' [= <- <-]. split.
    + intros k' Hk. rewrite sample_list_set. by destruct (decide _).
    + rewrite sample_list_set. by destruct (decide _).
  - intros k t w r w' [= <- <-]. split.
    + intros k' Hk. rewrite sample_list_set. by destruct (decide _).
    + destruct (sample_list w k) as [|v l] eqn:Hl; cbn; rewrite sample_list_set;
        by destruct (decide _).
  - by intros k w n w' [= <- <-].
  - by intros k w r w' [= <- <-].
  - by intros k n w r w' [= <- <-].
  - by intros k v s w r w' [= <- <-].
  - by intros [].
Defined.

Definition sample_job : AnalyzeTxJob := mkAnalyzeTxJob 1 77 100 0 0 1000.
Definition sample_world (now : Z) : SampleWorld :=
  (enqueue sample_job (mkSampleWorld ∅ now)).2.

Lemma sample_represents now : represents (sample_world now) (mkAQ [sample_job] []).
Proof.
  split_and!; [reflexivity..|]. constructor; [|constructor]. by_compute.
Qed.
