(* ===== verification/WorkerSpec.v ===== *)
(** * What happens to a job

    A round of the worker refines a round of an abstract queue machine, whatever the analyzer, the
    resolver, the store and the server answer; conservation, expiry and termination follow on that
    machine. *)

From S2P Require Import Prelude.
From S2P Require Import Types.
From S2P Require Import Analyze.
From S2P Require Import Jobs.
From S2P Require Import Effects.
From S2P Require Import QueueSpec.

(** The analyzer, the resolver and the store do not touch the queue's lists. *)
Class BackendLaws (W : Type) `{QueueLaws W, Backend W, Analyzer W} := {
  analyze_quiet h : quiet lists (analyze h);
  timeout_quiet secs m : quiet lists m → quiet lists (with_timeout secs m);
  resolve_quiet c a w k : lists (resolve c a w).2 k = lists w k;
  insert_quiet r s : quiet lists (insert_analysis r s);
  upsert_quiet p : quiet lists (upsert_project p);
  address_quiet c a s : quiet lists (upsert_address_project c a s)
}.

#[export] Hint Resolve analyze_quiet timeout_quiet resolve_quiet insert_quiet upsert_quiet
  address_quiet quiet_incr_dropped : gas.

(** ** The abstract machine *)

Section machine.
Context {W : Type} `{QueueServer W}.
Variable cfg : WorkerConfig.

(** What a round that fails after claiming [j] may leave. *)
Inductive interrupted (j : AnalyzeTxJob) (rest : list AnalyzeTxJob) (d : list (list Z))
  : AbstractQueue → Prop :=
  | IGone : interrupted j rest d (mkAQ rest d)
  | IRequeued : u32_add (job_attempt j) 1 < max_retries cfg →
      interrupted j rest d (mkAQ (rest ++ [next_attempt j]) d)
  | IDead t reason : max_retries cfg <= u32_add (job_attempt j) 1 →
      interrupted j rest d (mkAQ rest (d ++ [dead_to_vec j t reason])).

Inductive worker_round (q : AbstractQueue)
  : Res QueueError (option (AnalyzeTxJob * Disposition)) → AbstractQueue → Prop :=
  | WIdle : pending q = [] → worker_round q (Ok None) q
  | WGone j rest disp :
      pending q = j :: rest → disp = DExpired ∨ disp = DPersisted ∨ disp = DSkipped →
      worker_round q (Ok (Some (j, disp))) (mkAQ rest (dead q))
  | WRequeued j rest :
      pending q = j :: rest → u32_add (job_attempt j) 1 < max_retries cfg →
      worker_round q (Ok (Some (j, DRequeued))) (mkAQ (rest ++ [next_attempt j]) (dead q))
  | WDead j rest t reason :
      pending q = j :: rest → max_retries cfg <= u32_add (job_attempt j) 1 →
      worker_round q (Ok (Some (j, DDeadLettered)))
        (mkAQ rest (dead q ++ [dead_to_vec j t reason]))
  | WFailed j rest q' :
      pending q = j :: rest → interrupted j rest (dead q) q' →
      worker_round q (Ok (Some (j, DFailed))) q'
  | WStopped r q' :
      fails r →
      q' = q ∨ (∃ j rest, pending q = j :: rest ∧ interrupted j rest (dead q) q') →
      worker_round q r q'.
End machine.

(** ** The worker refines the machine *)

Section refinement.
Context {W : Type} `{BackendLaws W}.

Lemma quiet_timed_analysis cfg j : quiet lists (timed_analysis cfg j).
Proof. unfold timed_analysis. prove_quiet. Qed.
Lemma quiet_persist r : quiet lists (persist r).
Proof. unfold persist. prove_quiet. Qed.
Lemma quiet_check_expired cfg j : quiet lists (check_expired cfg j).
Proof. unfold check_expired. destruct (0 <? ttl_secs cfg); prove_quiet. Qed.

(** The two ways of giving a job back. *)
Lemma give_back_spec cfg j e w r w' rest d :
  represents w (mkAQ rest d) → job_wf j →
  (if u32_add (job_attempt j) 1 <? max_retries cfg then
     _ ← eff_map_err HQueue (requeue (next_attempt j)); mret DRequeued
   else _ ← eff_map_err HQueue (dead_letter j (error_text e)); mret DDeadLettered) w = (r, w') →
  ∃ q', represents w' q' ∧
    (fails r ∧ interrupted cfg j rest d q' ∨
     r = Ok DRequeued ∧ u32_add (job_attempt j) 1 < max_retries cfg ∧
       q' = mkAQ (rest ++ [next_attempt j]) d ∨
     r = Ok DDeadLettered ∧ max_retries cfg <= u32_add (job_attempt j) 1 ∧
       ∃ t reason, q' = mkAQ rest (d ++ [dead_to_vec j t reason])).
Proof.
  intros Hq Hj Hrun.
  destruct (Z.ltb_spec (u32_add (job_attempt j) 1) (max_retries cfg)) as [Hlt|Hge].
  - apply eff_bind_run in Hrun as [([] & w1 & He & Hrun)|(r0 & He & Hr0 & Hr)].
    + apply eff_map_err_Ok, (enqueue_spec _ _ _ _ _ Hq (job_wf_next _ Hj)) in He.
      injection Hrun as <- <-. eexists. split; [exact He|]. right. by left.
    + apply eff_map_err_run in He as (r1 & He & ->). apply map_err_fails in Hr0.
      apply (enqueue_spec _ _ _ _ _ Hq (job_wf_next _ Hj)) in He.
      assert (represents w' (mkAQ rest d) ∨ represents w' (mkAQ (rest ++ [next_attempt j]) d))
        as [Hq'|Hq'] by (by destruct r1); eexists; (split; [exact Hq'|]); left;
        (split; [done|]); by constructor.
  - apply eff_bind_run in Hrun as [([] & w1 & He & Hrun)|(r0 & He & Hr0 & Hr)].
    + apply eff_map_err_Ok, (dead_letter_spec _ _ _ _ _ _ Hq) in He as [t He].
      injection Hrun as <- <-. eexists. split; [exact He|]. right. right. eauto.
    + apply eff_map_err_run in He as (r1 & He & ->). apply map_err_fails in Hr0.
      apply (dead_letter_spec _ _ _ _ _ _ Hq) in He as [t He].
      assert (represents w' (mkAQ rest d) ∨
        represents w' (mkAQ rest (d ++ [dead_to_vec j t (error_text e)])))
        as [Hq'|Hq'] by (by destruct r1); eexists; (split; [exact Hq'|]); left;
        (split; [done|]); by constructor.
Qed.

Lemma handle_spec cfg j w r w' q rest :
  pending q = j :: rest → represents w (mkAQ rest (dead q)) → job_wf j →
  handle cfg j w = (r, w') →
  ∃ q', represents w' q' ∧
    match r with
    | Ok disp => worker_round cfg q (Ok (Some (j, disp))) q'
    | _ => interrupted cfg j rest (dead q) q'
    end.
Proof.
  intros Hp Hq Hj Hrun. unfold handle in Hrun.
  apply eff_bind_run in Hrun as [(a & w1 & Ha & Hrun)|(r0 & Ha & Hr0 & Hr)];
    apply (represents_quiet _ _ _ _ (mkAQ rest (dead q))) in Ha;
    try (by apply quiet_try, quiet_timed_analysis); try done.
  2:{ eexists. split; [exact Ha|]. destruct r; [done|constructor..]. }
  assert (Hback : ∀ e, (if u32_add (job_attempt j) 1 <? max_retries cfg then
     _ ← eff_map_err HQueue (requeue (next_attempt j)); mret DRequeued
   else _ ← eff_map_err HQueue (dead_letter j (error_text e)); mret DDeadLettered) w1 = (r, w') →
   ∃ q', represents w' q' ∧
    match r with
    | Ok disp => worker_round cfg q (Ok (Some (j, disp))) q'
    | _ => interrupted cfg j rest (dead q) q'
    end).
  { intros e He. apply (give_back_spec _ _ _ _ _ _ _ _ Ha Hj) in He
      as (q' & Hq' & [[Hf Hi]|[(-> & Hlt & ->)|(-> & Hge & t & reason & ->)]]);
      eexists; (split; [exact Hq'|]).
    - by destruct r.
    - by econstructor.
    - by econstructor. }
  destruct a as [report|[]]; [|..|by eapply Hback|by eapply Hback|by eapply Hback|by eapply Hback].
  - apply eff_bind_run in Hrun as [([] & w2 & Hs & Hrun)|(r0 & Hs & Hr0 & Hr)];
      apply (represents_quiet _ _ _ _ (mkAQ rest (dead q))) in Hs;
      try (by apply quiet_map_err, quiet_persist); try done.
    + injection Hrun as <- <-. eexists. split; [exact Hs|]. eapply WGone; eauto.
    + eexists. split; [exact Hs|]. destruct r; [done|constructor..].
  - injection Hrun as <- <-. eexists. split; [exact Ha|]. eapply WGone; eauto.
Qed.

(** C13: Every round of the worker on a server that holds the queue [q] is a round of the abstract machine
    from [q], and leaves a server that holds the queue the machine reaches: the first job is claimed,
    and it is gone (expired, persisted or skipped), back at the end as its next attempt while attempts
    remain, or a dead letter once they do not; only a failing server leaves it open which. *)
Theorem worker_step_refines cfg w q r w' :
  represents w q → worker_step cfg w = (r, w') →
  ∃ q', represents w' q' ∧ worker_round cfg q r q'.
Proof.
  intros Hq Hrun. unfold worker_step in Hrun.
  apply eff_bind_run in Hrun as [(o & w1 & Hc & Hrun)|(r0 & Hc & Hr0 & Hr)];
    apply (claim_spec _ _ _ _ _ Hq) in Hc.
  2:{ assert (represents w' q ∨
        ∃ j rest, pending q = j :: rest ∧ represents w' (mkAQ rest (dead q)))
        as [Hq'|(j & rest & Hp & Hq')] by (by destruct r0);
      eexists; (split; [exact Hq'|]); constructor; try done; [by left|right].
      exists j, rest. split; [done|constructor]. }
  destruct o as [j|].
  2:{ injection Hrun as <- <-. destruct Hc as [Hp Hq1]. exists q. split; [done|by constructor]. }
  destruct Hc as (rest & Hp & Hj & Hq1).
  assert (Hgone : ∀ w r, represents w (mkAQ rest (dead q)) → fails r →
    ∃ q', represents w q' ∧ worker_round cfg q r q').
  { intros w2 r2 Hq2 Hf. eexists. split; [exact Hq2|]. apply WStopped; [done|]. right.
    exists j, rest. split; [done|constructor]. }
  apply eff_bind_run in Hrun as [(e & w2 & He & Hrun)|(r0 & He & Hr0 & Hr)];
    apply (represents_quiet _ _ _ _ (mkAQ rest (dead q))) in He;
    try (by apply quiet_check_expired); try done; [|by apply Hgone].
  destruct e.
  - apply eff_bind_run in Hrun as [(u & w3 & Hi & Hrun)|(r0 & Hi & Hr0 & Hr)];
      apply (represents_quiet _ _ _ _ (mkAQ rest (dead q))) in Hi;
      try (by apply quiet_try, quiet_incr_dropped); try done; [|by apply Hgone].
    injection Hrun as <- <-. eexists. split; [exact Hi|]. eapply WGone; eauto.
  - apply eff_bind_run in Hrun as [(d & w3 & Hd & Hrun)|(r0 & Hd & Hr0 & Hr)];
      apply eff_try_run in Hd as (r1 & Hd & Hr1);
      apply (handle_spec cfg j _ _ _ q rest Hp He Hj) in Hd as (q' & Hq' & Hround).
    + injection Hrun as <- <-. exists q'. split; [done|].
      destruct r1; [by injection Hr1 as ->| |done]. injection Hr1 as ->. by eapply WFailed.
    + exists q'. split; [done|]. subst r0. destruct r1; [done..|]. apply WStopped; [done|].
      right. by exists j, rest.
Qed.
End refinement.

(** ** Runs of the machine *)

(** What identifies a job across retries. *)
Definition job_key (j : AnalyzeTxJob) : Z * Z * Z * Z * Z :=
  (job_chain_id j, job_tx_hash j, job_block_number j, job_tx_index j, job_enqueued_at j).

Definition is_final (d : Disposition) : bool := match d with DRequeued => false | _ => true end.
Definition is_failed (d : Disposition) : bool := match d with DFailed => true | _ => false end.

(** The jobs of a log with a disposition of a kind. *)
Definition jobs_with (p : Disposition → bool) (log : list (AnalyzeTxJob * Disposition))
  : list AnalyzeTxJob := fst <$> List.filter (λ e, p e.2) log.

(** The attempts a job has: at least one, however small the limit. *)
Definition limit (cfg : WorkerConfig) : Z := Z.max (max_retries cfg) 1.
Definition fresh (cfg : WorkerConfig) (j : AnalyzeTxJob) : Prop := 0 <= job_attempt j < limit cfg.
Definition attempts_left (cfg : WorkerConfig) (j : AnalyzeTxJob) : nat :=
  Z.to_nat (limit cfg - job_attempt j).
Definition rounds_left (cfg : WorkerConfig) (q : AbstractQueue) : nat :=
  sum_list (attempts_left cfg <$> pending q).

Lemma attempts_left_next cfg j :
  fresh cfg j → max_retries cfg <= 2 ^ 32 - 1 → u32_add (job_attempt j) 1 < max_retries cfg →
  fresh cfg (next_attempt j) ∧ (attempts_left cfg (next_attempt j) < attempts_left cfg j)%nat.
Proof.
  unfold fresh, attempts_left, limit, u32_add. intros Hf Hmax Hlt. cbn [job_attempt next_attempt].
  unfold u32_add. destruct (decide (job_attempt j + 1 < 2 ^ 32)) as [Hs|Hs].
  - rewrite Z.mod_small in * by lia. split; lia.
  - lia.
Qed.

Section runs.
Context {W : Type} `{QueueServer W}.
Variable cfg : WorkerConfig.

(** The rounds of a loop that ends at the first failure. *)
Inductive machine_run : AbstractQueue → list (AnalyzeTxJob * Disposition) → bool →
    AbstractQueue → nat → Prop :=
  | MDone q : machine_run q [] true q 0
  | MStop q r q' : worker_round cfg q r q' → fails r → machine_run q [] false q' 1
  | MRound q o q1 log live q' n :
      worker_round cfg q (Ok o) q1 → machine_run q1 log live q' n →
      machine_run q (match o with Some d => d :: log | None => log end) live q' (S n).

Lemma jobs_with_cons p e log :
  jobs_with p (e :: log) = (if p e.2 then [e.1] else []) ++ jobs_with p log.
Proof. unfold jobs_with. cbn. by destruct (p e.2). Qed.

(** The jobs a round accounts for: [again] are back although [handle] failed, [lost] are gone with a
    round that ended the loop. *)
Lemma round_conserves q r q' :
  worker_round cfg q r q' →
  ∃ again lost : list (Z * Z * Z * Z * Z),
    match r with
    | Ok None => q' = q ∧ again = [] ∧ lost = []
    | Ok (Some (j, d)) =>
        (job_key <$> pending q) ++ again ≡ₚ
          (job_key <$> pending q') ++ (if is_final d then [job_key j] else []) ∧
        again ⊆+ (if is_failed d then [job_key j] else []) ∧ lost = []
    | _ => (job_key <$> pending q) ++ again ≡ₚ (job_key <$> pending q') ++ lost ∧
        again = [] ∧ (length lost ≤ 1)%nat
    end.
Proof.
  assert (Hnext : ∀ rest j, job_key <$> rest ++ [next_attempt j] = (job_key <$> rest) ++ [job_key j])
    by (intros; by rewrite fmap_app).
  assert (Hback : ∀ rest j, (job_key <$> j :: rest) ≡ₚ (job_key <$> rest ++ [next_attempt j]))
    by (intros; rewrite Hnext; apply Permutation_cons_append).
  destruct 1 as [Hp|j rest d Hp Hd|j rest Hp Hlt|j rest t reason Hp Hge|j rest q' Hp Hi|r q' Hf Hq].
  - by exists [], [].
  - exists [], []. rewrite Hp, app_nil_r. cbn [pending].
    destruct Hd as [-> |[-> | ->]]; cbn; (split_and!; [apply Permutation_cons_append|done..]).
  - exists [], []. rewrite Hp, !app_nil_r. by split_and!.
  - exists [], []. rewrite Hp, app_nil_r. cbn. by split_and!; [apply Permutation_cons_append|..].
  - rewrite Hp. destruct Hi as [|Hlt|t reason Hge].
    + exists [], []. rewrite app_nil_r. cbn. split_and!; [apply Permutation_cons_append| |done].
      apply submseteq_nil_l.
    + exists [job_key j], []. cbn [pending is_final is_failed]. split_and!; [|done|done].
      by rewrite Hback.
    + exists [], []. rewrite app_nil_r. cbn. split_and!; [apply Permutation_cons_append| |done].
      apply submseteq_nil_l.
  - assert (∃ lost, (job_key <$> pending q) ++ [] ≡ₚ (job_key <$> pending q') ++ lost ∧
      (length lost ≤ 1)%nat) as (lost & Hl & Hlen).
    { rewrite app_nil_r. destruct Hq as [->|(j & rest & Hp & [|Hlt|t reason Hge])].
      - exists []. rewrite app_nil_r. split; [done|cbn; lia].
      - exists [job_key j]. rewrite Hp. split; [apply Permutation_cons_append|done].
      - exists []. rewrite Hp, app_nil_r. cbn [pending]. split; [apply Hback|cbn; lia].
      - exists [job_key j]. rewrite Hp. split; [apply Permutation_cons_append|done]. }
    exists [], lost. by destruct r.
Qed.

Lemma run_conserves q log live q' n :
  machine_run q log live q' n →
  ∃ again lost : list (Z * Z * Z * Z * Z),
    (job_key <$> pending q) ++ again ≡ₚ
      (job_key <$> pending q') ++ (job_key <$> jobs_with is_final log) ++ lost ∧
    again ⊆+ (job_key <$> jobs_with is_failed log) ∧
    (length lost ≤ if live then 0 else 1)%nat.
Proof.
  induction 1 as [q|q r q' Hround Hf|q o q1 log live q' n Hround _ (again & lost & IH & Ha & Hl)].
  - exists [], []. rewrite !app_nil_r. split_and!; [done|apply submseteq_nil_l|done].
  - apply round_conserves in Hround as (again & lost & Hr).
    assert ((job_key <$> pending q) ++ again ≡ₚ (job_key <$> pending q') ++ lost ∧
      again = [] ∧ (length lost ≤ 1)%nat) as (Hq & -> & Hlen) by (by destruct r).
    exists [], lost. split_and!; [done|apply submseteq_nil_l|done].
  - apply round_conserves in Hround as (again1 & lost1 & Hr). destruct o as [[j d]|].
    + destruct Hr as (Hq & Ha1 & _). exists (again1 ++ again), lost.
      rewrite !jobs_with_cons, !fmap_app. cbn [fst snd]. split_and!; [|..|done].
      * rewrite app_assoc, Hq, <-!app_assoc, (Permutation_app_comm (if is_final d then _ else _)).
        rewrite app_assoc, IH. destruct (is_final d); cbn [fmap list_fmap]; solve_Permutation.
      * apply submseteq_app; [by destruct (is_failed d)|done].
    + destruct Hr as (-> & -> & ->). by exists again, lost.
Qed.
End runs.

Section drain.
Context {W : Type} `{QueueServer W}.
Variable cfg : WorkerConfig.
Hypothesis retries_fit : max_retries cfg <= 2 ^ 32 - 1.

Lemma interrupted_measure j rest d q' :
  Forall (fresh cfg) (j :: rest) → interrupted cfg j rest d q' →
  Forall (fresh cfg) (pending q') ∧
  (rounds_left cfg q' < attempts_left cfg j + sum_list (attempts_left cfg <$> rest))%nat.
Proof.
  intros [Hj Hrest]%Forall_cons. unfold rounds_left.
  assert (Hpos : (0 < attempts_left cfg j)%nat) by (unfold fresh in Hj; unfold attempts_left; lia).
  destruct 1 as [|Hlt|t reason Hge]; cbn [pending]; [split; [done|lia]| |split; [done|lia]].
  destruct (attempts_left_next cfg j Hj retries_fit Hlt) as [Hn Hdec]. split.
  - apply Forall_app. split; [done|by constructor].
  - rewrite fmap_app, sum_list_with_app. cbn. lia.
Qed.

Lemma round_measure q o q' :
  worker_round cfg q (Ok o) q' → Forall (fresh cfg) (pending q) →
  Forall (fresh cfg) (pending q') ∧
  match o with
  | Some _ => (rounds_left cfg q' < rounds_left cfg q)%nat
  | None => pending q = [] ∧ q' = q
  end.
Proof.
  assert (Hi : ∀ j rest q', pending q = j :: rest → interrupted cfg j rest (dead q) q' →
    Forall (fresh cfg) (pending q) →
    Forall (fresh cfg) (pending q') ∧ (rounds_left cfg q' < rounds_left cfg q)%nat).
  { intros j rest q1 Hp Hi Hf. rewrite Hp in Hf. unfold rounds_left at 2. rewrite Hp. cbn.
    by eapply interrupted_measure. }
  inversion 1; subst; intros Hf; try done; eapply Hi; eauto; by constructor.
Qed.

Lemma run_measure q log live q' n :
  machine_run cfg q log live q' n → Forall (fresh cfg) (pending q) →
  (length log ≤ rounds_left cfg q)%nat ∧
  (live = true → (rounds_left cfg q ≤ n)%nat → pending q' = []).
Proof.
  induction 1 as [q|q r q' Hround Hf|q o q1 log live q' n Hround _ IH]; intros Hfresh.
  - split; [cbn; lia|]. intros _ Hz. destruct (pending q) as [|j rest] eqn:Hp; [done|].
    apply Forall_cons in Hfresh as [Hj _]. unfold rounds_left in Hz. rewrite Hp in Hz. cbn in Hz.
    unfold fresh in Hj. unfold attempts_left in Hz. lia.
  - split; [cbn; lia|done].
  - apply round_measure in Hround as [Hfresh1 Hm]; [|done]. destruct (IH Hfresh1) as [Hl Hd].
    destruct o as [e|]; cbn [length].
    + split; [lia|]. intros Hlive Hle. apply Hd; [done|lia].
    + destruct Hm as [Hp ->]. split; [done|]. intros Hlive _. apply Hd; [done|].
      unfold rounds_left. rewrite Hp. cbn. lia.
Qed.
End drain.

(** ** The worker's runs *)

Section worker.
Context {W : Type} `{BackendLaws W}.

Lemma worker_run_machine cfg n w q log live w' :
  represents w q → worker_run n cfg w = (log, live, w') →
  ∃ q' m, represents w' q' ∧ machine_run cfg q log live q' m ∧ (live = true → m = n).
Proof.
  revert w q log live w'. induction n as [|n IH]; intros w q log live w' Hq Hrun; cbn in Hrun.
  { injection Hrun as <- <- <-. exists q, O. split_and!; [done|constructor|done]. }
  destruct (worker_step cfg w) as [r w1] eqn:Hstep.
  apply (worker_step_refines _ _ _ _ _ Hq) in Hstep as (q1 & Hq1 & Hround).
  destruct r as [o|e|p].
  2,3: injection Hrun as <- <- <-; exists q1, 1%nat; split_and!;
    [done|by eapply MStop|done].
  destruct (worker_run n cfg w1) as [[log1 live1] w2] eqn:Hrest. injection Hrun as <- <- <-.
  destruct (IH _ _ _ _ _ Hq1 Hrest) as (q' & m & Hq' & Hmach & Hlive).
  exists q', (S m). split_and!; [done|by econstructor|]. intros Ht. by rewrite Hlive.
Qed.
End worker.

(** Whatever is answered to it, no job disappears: the jobs pending before a run are, up to their
    attempt count, those still pending after it plus those it disposed of for good, each as often,
    except that a job whose handling failed may be back in the queue as well, and the job in hand when
    the loop itself ended may be gone. *)
Theorem worker_conserves_jobs {W} `{BackendLaws W} cfg n w q log live w' :
  represents w q → worker_run n cfg w = (log, live, w') →
  ∃ q' again lost, represents w' q' ∧
    (job_key <$> pending q) ++ again ≡ₚ
      (job_key <$> pending q') ++ (job_key <$> jobs_with is_final log) ++ lost ∧
    again ⊆+ (job_key <$> jobs_with is_failed log) ∧
    (length lost ≤ if live then 0 else 1)%nat.
Proof.
  intros Hq Hrun. destruct (worker_run_machine _ _ _ _ _ _ _ Hq Hrun) as (q' & m & Hq' & Hm & _).
  apply run_conserves in Hm as (again & lost & ?). by exists q', again, lost.
Qed.

(** C25: The worker terminates on what is queued: a job is claimed at most [max max_retries 1] times, so the
    log of a run is no longer than the attempts left, and a run of as many rounds, if no failure ends
    it, leaves nothing pending. *)
Theorem worker_drains {W} `{BackendLaws W} cfg n w q log live w' :
  max_retries cfg <= 2 ^ 32 - 1 → represents w q → Forall (fresh cfg) (pending q) →
  worker_run n cfg w = (log, live, w') →
  (length log ≤ rounds_left cfg q)%nat ∧
  (live = true → (rounds_left cfg q ≤ n)%nat → lists w' QUEUE_KEY = []).
Proof.
  intros Hmax Hq Hfresh Hrun.
  destruct (worker_run_machine _ _ _ _ _ _ _ Hq Hrun) as (q' & m & (Hp & _) & Hm & Hlive).
  destruct (run_measure cfg Hmax _ _ _ _ _ Hm Hfresh) as [Hl Hd]. split; [done|].
  intros Ht Hn. rewrite Hp, Hd; [done|done|]. by rewrite Hlive.
Qed.

Lemma handle_not_expired {W} `{QueueServer W, Backend W, Analyzer W} cfg j w d w' :
  handle cfg j w = (Ok d, w') → d ≠ DExpired.
Proof.
  unfold handle. intros Hrun. apply eff_bind_Ok in Hrun as (r & w1 & _ & Hrun).
  repeat case_match; inv_eff; by injection Hrun as <- <-.
Qed.

(** Stale work is never analysed: under a time-to-live a job claimed with a timestamp is handled only
    if, by the clock at its claim, it is no older than that since its first enqueue, and dropped only
    if it is. *)
Theorem worker_step_expiry {W} `{QueueServer W, Backend W, Analyzer W} cfg w j d w' :
  0 < ttl_secs cfg → 0 < job_enqueued_at j → worker_step cfg w = (Ok (Some (j, d)), w') →
  ∃ w1, claim 5 w = (Ok (Some j), w1) ∧
    (d ≠ DExpired → (timestamp w1).1 - job_enqueued_at j <= ttl_secs cfg) ∧
    (d = DExpired → ttl_secs cfg < (timestamp w1).1 - job_enqueued_at j).
Proof.
  intros Ht Hj Hrun. unfold worker_step in Hrun.
  apply eff_bind_Ok in Hrun as (o & w1 & Hc & Hrun). destruct o as [j'|]; [|done].
  apply eff_bind_Ok in Hrun as (e & w2 & He & Hrun).
  assert (He' : e = expired cfg (timestamp w1).1 j').
  { unfold check_expired in He. rewrite (proj2 (Z.ltb_lt _ _) Ht) in He.
    unfold mbind, eff_bind, eff_total in He. destruct (timestamp w1). by injection He as <- _. }
  assert (Hexp : job_enqueued_at j' = job_enqueued_at j →
    e = (ttl_secs cfg <? (timestamp w1).1 - job_enqueued_at j)).
  { intros E. rewrite He'. unfold expired, age_secs.
    by rewrite E, (proj2 (Z.ltb_lt _ _) Ht), (proj2 (Z.ltb_lt _ _) Hj). }
  destruct e; apply eff_bind_Ok in Hrun as (r & w3 & Hr & Hrun); injection Hrun as -> <- <-;
    exists w1; (split; [done|]); specialize (Hexp eq_refl); symmetry in Hexp.
  - apply Z.ltb_lt in Hexp. by split.
  - apply Z.ltb_ge in Hexp. split; [done|]. intros Hd. exfalso.
    apply eff_try_Ok in Hr. destruct r as [d|]; [|done]. subst d.
    by apply handle_not_expired in Hr.
Qed.

(** ** Witnesses *)

(** An analyzer that is down, and a store that takes anything. *)
#[export] Instance sample_analyzer : Analyzer SampleWorld := {|
  analyze _ w := (Err (Estimation "down"), w)
|}.

#[export] Instance sample_backend : Backend SampleWorld := {|
  project := string;
  project_slug s := s;
  resolve _ _ w := ("unknown"%string, w);
  insert_analysis _ _ w := (Ok tt, w);
  upsert_project _ w := (Ok tt, w);
  upsert_address_project _ _ _ w := (Ok tt, w);
  with_timeout _ m := r ← m; mret (Some r);
  error_text _ := "down"%string
|}.

#[export] Instance sample_backend_laws : BackendLaws SampleWorld.
Proof.
  split; try done.
  - by intros h w r w' [= <- <-].
  - intros secs m Hm. cbn. prove_quiet.
  - by intros r s w r' w' [= <- <-].
  - by intros p w r w' [= <- <-].
  - by intros c a s w r w' [= <- <-].
Defined.

Definition sample_cfg : WorkerConfig := mkWorkerConfig 3 60 3600.

Lemma worker_step_refines_witness :
  ∃ q', represents (worker_step sample_cfg (sample_world 1010)).2 q' ∧
    worker_round sample_cfg (mkAQ [sample_job] []) (Ok (Some (sample_job, DRequeued))) q'.
Proof.
  exact (worker_step_refines sample_cfg _ _ _ _ (sample_represents 1010) eq_refl).
Defined.

Lemma worker_conserves_jobs_witness :
  ∃ q' again lost, represents (worker_run 2 sample_cfg (sample_world 1010)).2 q' ∧
    [job_key sample_job] ++ again ≡ₚ (job_key <$> pending q') ++ [] ++ lost ∧
    again ⊆+ [] ∧ (length lost ≤ 0)%nat.
Proof.
  exact (worker_conserves_jobs sample_cfg 2 _ _ _ _ _ (sample_represents 1010) eq_refl).
Defined.

Lemma worker_drains_witness :
  lists (worker_run 3 sample_cfg (sample_world 1010)).2 QUEUE_KEY = [] ∧
  lists (worker_run 3 sample_cfg (sample_world 1010)).2 DEAD_KEY = [[77; 1010]].
Proof.
  split; [|reflexivity].
  refine (proj2 (worker_drains sample_cfg 3 (sample_world 1010) (mkAQ [sample_job] [])
    (worker_run 3 sample_cfg (sample_world 1010)).1.1 true _ _ (sample_represents 1010) _ eq_refl)
    eq_refl _); [by_compute| |by_compute].
  constructor; [split; by_compute|constructor].
Defined.

Lemma worker_step_expiry_witness :
  (worker_step sample_cfg (sample_world 9000)).1 = Ok (Some (sample_job, DExpired)) ∧
  ∃ w1 : SampleWorld, 3600 < (timestamp w1).1 - 1000.
Proof.
  split; [reflexivity|].
  destruct (worker_step_expiry sample_cfg (sample_world 9000) sample_job DExpired
    (worker_step sample_cfg (sample_world 9000)).2 ltac:(reflexivity) ltac:(reflexivity) eq_refl)
    as (w1 & _ & _ & Hold).
  exists w1. exact (Hold eq_refl).
Defined.
