(* ===== verification/TrackerSpec.v ===== *)
(** * Which blocks are fanned out

    The head tracker's rounds, whatever the node and the server answer: what a fanned-out block adds to
    the queue, and which blocks a run covers. *)

From S2P Require Import Prelude.
From S2P Require Import Types.
From S2P Require Import Analyze.
From S2P Require Import Jobs.
From S2P Require Import Effects.
From S2P Require Import QueueSpec.

(** Asking the node does not touch the queue, and a chain has fewer than [2^64 - 1] blocks. *)
Class NodeLaws (W : Type) `{QueueLaws W, Node W} := {
  block_number_quiet : quiet lists get_block_number;
  block_quiet n : quiet lists (get_block_by_number n);
  head_bound w h w' : get_block_number w = (Ok h, w') → 0 <= h < u64_max
}.

#[export] Hint Resolve block_number_quiet block_quiet quiet_incr_dropped quiet_depth
  quiet_publish_last_head : gas.

(** The transactions with a recipient, with their position. *)
Fixpoint called (idx : Z) (txs : list ChainTx) : list (Z * ChainTx) :=
  match txs with
  | [] => []
  | tx :: txs =>
      match ctx_to tx with Some _ => [(idx, tx)] | None => [] end ++ called (idx + 1) txs
  end.

(** The first-attempt jobs of a block's first transactions with a recipient, one per time of
    enqueueing. *)
Definition block_jobs (chain_id block_number idx : Z) (txs : list ChainTx) (times : list Z)
  : list AnalyzeTxJob :=
  zip_with (λ p now, mkAnalyzeTxJob chain_id (ctx_hash p.2) block_number p.1 0 now)
    (called idx txs) times.

Section tracker.
Context {W : Type} `{NodeLaws W}.

Lemma enqueue_lists j w r w' :
  enqueue j w = (r, w') →
  match r with
  | Ok _ => lists w' QUEUE_KEY = lists w QUEUE_KEY ++ [job_to_vec j]
  | _ => lists w' QUEUE_KEY = lists w QUEUE_KEY ∨
      lists w' QUEUE_KEY = lists w QUEUE_KEY ++ [job_to_vec j]
  end.
Proof. intros (r0 & Hr & ->)%eff_map_err_run. apply rpush_law in Hr as [_ Hr]. by destruct r0. Qed.

(** A fan-out appends the jobs of the first transactions, of all of them when it succeeds. *)
Lemma enqueue_txs_spec chain_id n idx txs w r w' :
  enqueue_txs chain_id n idx txs w = (r, w') →
  ∃ times, lists w' QUEUE_KEY =
      lists w QUEUE_KEY ++ (job_to_vec <$> block_jobs chain_id n idx txs times) ∧
    (length times ≤ length (called idx txs))%nat ∧
    (¬ fails r → length times = length (called idx txs)).
Proof.
  revert idx w. unfold block_jobs. induction txs as [|tx txs IH]; intros idx w Hrun;
    cbn [enqueue_txs called] in *.
  { injection Hrun as <- <-. exists []. by rewrite app_nil_r. }
  destruct (ctx_to tx) as [a|]; [|by apply IH in Hrun]. cbn [app length].
  apply eff_bind_run in Hrun as [(now & w1 & Hn & Hrun)|(r0 & Hn & Hr0 & _)].
  2:{ unfold eff_total in Hn. destruct (timestamp w). by injection Hn as <- <-. }
  assert (Hq : lists w1 QUEUE_KEY = lists w QUEUE_KEY).
  { eapply quiet_total; [|exact Hn]. intros. apply timestamp_quiet. }
  apply eff_bind_run in Hrun as [(u & w2 & He & Hrun)|(r0 & He & Hr0 & Hr)].
  - apply eff_map_err_Ok, enqueue_lists in He.
    apply IH in Hrun as (times & Hl & Hle & Hok). exists (now :: times).
    rewrite Hl, He, Hq. cbn [zip_with fmap list_fmap length]. rewrite <-app_assoc.
    split_and!; [done|lia|]. intros Hf. by rewrite Hok.
  - apply eff_map_err_run in He as (r1 & He & ->). apply map_err_fails in Hr0.
    apply enqueue_lists in He. rewrite Hq in He.
    assert (lists w' QUEUE_KEY = lists w QUEUE_KEY ∨
      lists w' QUEUE_KEY = lists w QUEUE_KEY ++ [job_to_vec (mkAnalyzeTxJob chain_id
        (ctx_hash tx) n idx 0 now)]) as [Hl|Hl] by (by destruct r1).
    + exists []. rewrite Hl, app_nil_r. cbn. split_and!; [done|lia|done].
    + exists [now]. rewrite Hl. cbn. split_and!; [by destruct (called _ _)|lia|done].
Qed.

Lemma enqueue_block_Ok chain_id n w u w' :
  enqueue_block chain_id n w = (Ok u, w') →
  ∃ block times w1, get_block_by_number n w = (Ok (Some block), w1) ∧
    length times = length (called 0 (blk_transactions block)) ∧
    lists w' QUEUE_KEY = lists w QUEUE_KEY ++
      (job_to_vec <$> block_jobs chain_id n 0 (blk_transactions block) times).
Proof.
  unfold enqueue_block. intros Hrun. apply eff_bind_Ok in Hrun as (o & w1 & Hb & Hrun).
  apply eff_bind_Ok in Hrun as (block & w2 & Hb' & Hrun).
  apply eff_map_err_Ok in Hb. apply eff_res_Ok in Hb' as [Hb' ->]. apply ok_or_Ok in Hb' as ->.
  apply enqueue_txs_spec in Hrun as (times & Hl & _ & Hok).
  exists block, times, w1. split_and!; [done|by apply Hok; intros []|].
  by rewrite Hl, (block_quiet _ _ _ _ Hb).
Qed.

(** A cursor in range. *)
Definition tracker_ok (t : Tracker) : Prop :=
  0 <= skipped_blocks t <= next_block t ∧ next_block t <= u64_max.

Lemma bound_lag_spec cfg head t w t' w' :
  0 <= max_blocks_behind cfg → 0 <= head < u64_max → tracker_ok t →
  bound_lag cfg head t w = (Ok t', w') →
  tracker_ok t' ∧ (∀ k, lists w' k = lists w k) ∧ next_block t <= next_block t' ∧
  next_block t' - next_block t = skipped_blocks t' - skipped_blocks t ∧
  (max_blocks_behind cfg = 0 → t' = t) ∧
  (0 < max_blocks_behind cfg → head - next_block t' <= max_blocks_behind cfg).
Proof.
  intros Hm Hh [Hs Hn] Hrun. unfold bound_lag, sat_sub in Hrun.
  destruct (Z.ltb_spec 0 (max_blocks_behind cfg)) as [Hpos|Hz]; cbn [andb] in Hrun.
  2:{ injection Hrun as <- <-. unfold tracker_ok. split_and!; (done || lia). }
  destruct (Z.ltb_spec (max_blocks_behind cfg) (Z.max 0 (head - next_block t))) as [Hfar|Hnear].
  - apply eff_bind_Ok in Hrun as (u & w1 & Hi & Hrun). injection Hrun as <- <-.
    rewrite u64_add_exact by lia. unfold tracker_ok. cbn. split_and!; try lia.
    eapply quiet_try; [apply quiet_incr_dropped|exact Hi].
  - injection Hrun as <- <-. unfold tracker_ok. split_and!; (done || lia).
Qed.

(** One round: the cursor stays, skips, or fans out one block and passes it. *)
Lemma tracker_step_spec cfg chain_id t w t' block w' :
  tracker_ok t → 0 <= max_blocks_behind cfg →
  tracker_step cfg chain_id t w = (Ok (t', block), w') →
  tracker_ok t' ∧ next_block t <= next_block t' ∧
  (max_blocks_behind cfg = 0 → skipped_blocks t' = skipped_blocks t) ∧
  match block with
  | None => next_block t' - next_block t = skipped_blocks t' - skipped_blocks t
  | Some b =>
      next_block t' = b + 1 ∧ next_block t <= b ∧
      next_block t' - next_block t = skipped_blocks t' - skipped_blocks t + 1 ∧
      ∃ head w0, get_block_number w = (Ok head, w0) ∧ b <= head ∧
      zlen (lists w QUEUE_KEY) <= max_queue_depth cfg ∧
      (0 < max_blocks_behind cfg → head - b <= max_blocks_behind cfg) ∧
      ∃ blk times w1 w2, get_block_by_number b w1 = (Ok (Some blk), w2) ∧
        length times = length (called 0 (blk_transactions blk)) ∧
        lists w' QUEUE_KEY = lists w QUEUE_KEY ++
          (job_to_vec <$> block_jobs chain_id b 0 (blk_transactions blk) times)
  end.
Proof.
  intros Ht Hm Hrun. unfold tracker_step in Hrun.
  apply eff_bind_Ok in Hrun as (head & w0 & Hhead & Hrun). apply eff_map_err_Ok in Hhead.
  pose proof (head_bound _ _ _ Hhead) as Hb. pose proof (block_number_quiet _ _ _ Hhead) as Hq0.
  apply eff_bind_Ok in Hrun as (u & w1 & Hpub & Hrun).
  assert (Hq1 : ∀ k, lists w1 k = lists w0 k).
  { eapply quiet_try; [apply quiet_publish_last_head|exact Hpub]. }
  apply eff_bind_Ok in Hrun as (d & w2 & Hd & Hrun). apply eff_map_err_Ok in Hd.
  pose proof (quiet_depth _ _ _ Hd) as Hq2. apply eff_map_err_Ok, llen_law in Hd.
  destruct (Z.ltb_spec (max_queue_depth cfg) d) as [Hdeep|Hshallow].
  { injection Hrun as <- <- <-. split_and!; try done; lia. }
  apply eff_bind_Ok in Hrun as (t2 & w3 & Hlag & Hrun).
  apply bound_lag_spec in Hlag as (Ht2 & Hq3 & Hle & Hdiff & Hz & Hbehind); [|done..].
  destruct (Z.ltb_spec head (next_block t2)) as [Hahead|Hready].
  { injection Hrun as <- <- <-. split_and!; try done. intros Hnb. by rewrite (Hz Hnb). }
  apply eff_bind_Ok in Hrun as (r & w4 & Hr & Hrun). apply eff_try_Ok in Hr.
  destruct r as [[]|]; injection Hrun as <- <- <-.
  2:{ split_and!; try done. intros Hnb. by rewrite (Hz Hnb). }
  apply enqueue_block_Ok in Hr as (blk & times & w5 & Hblk & Hlen & Hl).
  unfold tracker_ok in *. cbn. rewrite u64_add_exact by lia.
  split_and!; try lia. { intros Hnb. by rewrite (Hz Hnb). }
  exists head, w0. split_and!; try done.
  { subst d. by rewrite <-Hq0, <-Hq1. }
  exists blk, times, w3, w5. split_and!; try done. by rewrite Hl, Hq3, Hq2, Hq1, Hq0.
Qed.

(** When a round fans out a block, it is the next one after any skip, not past the head, at most
    [max_blocks_behind] behind it if that bounds the lag, on a queue that was not saturated; and what
    the queue gains is one first-attempt job per transaction with a recipient, in block order. *)
Theorem tracker_step_fans_out cfg chain_id t w t' b w' :
  tracker_ok t → 0 <= max_blocks_behind cfg →
  tracker_step cfg chain_id t w = (Ok (t', Some b), w') →
  next_block t' = b + 1 ∧ next_block t <= b ∧
  ∃ head w0, get_block_number w = (Ok head, w0) ∧ b <= head ∧
    (0 < max_blocks_behind cfg → head - b <= max_blocks_behind cfg) ∧
    zlen (lists w QUEUE_KEY) <= max_queue_depth cfg ∧
    ∃ blk times w1 w2, get_block_by_number b w1 = (Ok (Some blk), w2) ∧
      length times = length (called 0 (blk_transactions blk)) ∧
      lists w' QUEUE_KEY = lists w QUEUE_KEY ++
        (job_to_vec <$> block_jobs chain_id b 0 (blk_transactions blk) times).
Proof.
  intros Ht Hm Hstep.
  destruct (tracker_step_spec _ _ _ _ _ _ _ Ht Hm Hstep)
    as (_ & _ & _ & Hb & Hle & _ & head & w0 & Hh & Hbh & Hd & Hl & Hblk).
  split_and!; [done..|]. by exists head, w0.
Qed.

(** C26: Over any run every block from the cursor on is either fanned out exactly once, in ascending order,
    or counted as skipped; with no bound on the lag nothing is skipped and the blocks are
    consecutive. *)
Theorem tracker_run_covers n cfg chain_id t w t' blocks live w' :
  tracker_ok t → 0 <= max_blocks_behind cfg →
  tracker_run n cfg chain_id t w = (t', blocks, live, w') →
  next_block t <= next_block t' ∧
  StronglySorted Z.lt blocks ∧ Forall (λ b, next_block t <= b < next_block t') blocks ∧
  zlen blocks + (skipped_blocks t' - skipped_blocks t) = next_block t' - next_block t ∧
  (max_blocks_behind cfg = 0 →
    skipped_blocks t' = skipped_blocks t ∧
    blocks = seqZ (next_block t) (next_block t' - next_block t)).
Proof.
  intros Ht Hm. revert t w t' blocks live w' Ht.
  assert (Hnil : ∀ t, next_block t <= next_block t ∧ StronglySorted Z.lt [] ∧
    Forall (λ b, next_block t <= b < next_block t) [] ∧
    zlen (@nil Z) + (skipped_blocks t - skipped_blocks t) = next_block t - next_block t ∧
    (max_blocks_behind cfg = 0 → skipped_blocks t = skipped_blocks t ∧
      [] = seqZ (next_block t) (next_block t - next_block t))).
  { intros t. rewrite !Z.sub_diag. split_and!; [lia|constructor|constructor|done|done]. }
  induction n as [|n IH]; intros t w t' blocks live w' Ht Hrun; cbn [tracker_run] in Hrun.
  { injection Hrun as <- <- <- <-. apply Hnil. }
  destruct (tracker_step cfg chain_id t w) as [[[t1 block]|e|p] w1] eqn:Hstep.
  2,3: injection Hrun as <- <- <- <-; apply Hnil.
  apply tracker_step_spec in Hstep as (Ht1 & Hle & Hz & Hblock); [|done..].
  destruct (tracker_run n cfg chain_id t1 w1) as [[[t2 blocks2] live2] w2] eqn:Hrest.
  apply IH in Hrest as (Hle1 & Hs & Hall & Hcount & Hzero); [|done].
  injection Hrun as <- <- <- <-.
  assert (Hlater : Forall (λ b, next_block t <= b < next_block t2) blocks2).
  { eapply Forall_impl; [exact Hall|]. cbn beta. lia. }
  destruct block as [b|].
  - destruct Hblock as (Hb & Hr & Hd & _). rewrite zlen_cons. split_and!; [lia| | |lia|].
    + constructor; [done|]. eapply Forall_impl; [exact Hall|]. cbn beta. lia.
    + constructor; [lia|done].
    + intros Hnb. destruct (Hzero Hnb) as [Hsk Hbl]. rewrite (Hz Hnb) in *. split; [lia|].
      assert (b = next_block t) as -> by lia. rewrite seqZ_cons by lia. f_equal. rewrite Hbl.
      f_equal; lia.
  - split_and!; [lia|done|done|lia|].
    intros Hnb. destruct (Hzero Hnb) as [Hsk Hbl]. rewrite (Hz Hnb) in *. split; [lia|].
    assert (next_block t1 = next_block t) as <- by lia. done.
Qed.
End tracker.

(** ** Witnesses *)

Definition sample_tx (h : Z) (to : option Z) : ChainTx :=
  mkChainTx h 1 to [] 0 21000 0 (λ _, 0) None None None.

(** A chain at block 110, each block with a call and a creation. *)
#[export] Instance sample_chain : Node SampleWorld := {|
  get_block_number w := (Ok 110, w);
  get_transaction_receipt _ w := (Ok None, w);
  get_block_by_number n w :=
    (Ok (Some (mkBlock n None [sample_tx (2 * n) None; sample_tx (2 * n + 1) (Some 5)])), w);
  get_transaction_by_hash _ w := (Ok None, w);
  debug_trace_transaction _ w := (Ok None, w);
  lower s := s;
  failure_text _ := EmptyString
|}.

#[export] Instance sample_chain_laws : NodeLaws SampleWorld.
Proof.
  split.
  - by intros w r w' [= <- <-].
  - by intros n w r w' [= <- <-].
  - intros w h w' [= <- <-]. by_compute.
Defined.

Definition lag_cfg : HeadTrackerConfig := mkHeadTrackerConfig 1000 4.
Definition sample_tracker : Tracker := mkTracker 101 0.

Lemma tracker_step_fans_out_witness :
  (tracker_step lag_cfg 1 sample_tracker (sample_world 5)).1 = Ok (mkTracker 107 5, Some 106) ∧
  next_block (mkTracker 107 5) = 106 + 1.
Proof.
  split; [vm_compute; reflexivity|].
  refine (proj1 (tracker_step_fans_out lag_cfg 1 sample_tracker (sample_world 5)
    (mkTracker 107 5) 106 (tracker_step lag_cfg 1 sample_tracker (sample_world 5)).2 _ _ _));
    [split; [split|]; by_compute|by_compute|vm_compute; reflexivity].
Defined.

Abbreviation sample_tracked := (tracker_run 2 lag_cfg 1 sample_tracker (sample_world 5)).

Lemma tracker_run_covers_witness :
  skipped_blocks sample_tracked.1.1.1 = 5 ∧ StronglySorted Z.lt sample_tracked.1.1.2.
Proof.
  split; [vm_compute; reflexivity|].
  destruct sample_tracked as [[[t' blocks] live] w'] eqn:Hrun.
  refine (proj1 (proj2 (tracker_run_covers 2 lag_cfg 1 sample_tracker (sample_world 5) t' blocks live
    w' _ _ Hrun))); [split; [split|]; by_compute|by_compute].
Defined.
