(* ===== verification/Transport.v ===== *)
(** * Errors of a JSON-RPC request

    What [crates/rpc], [crates/evmsketch] read of a failed request: a JSON-RPC error response, an HTTP
    status, or a failure of the connection; and how they decide from its code and wording what it says
    of the endpoint or of the call. *)

From Stdlib Require Import Strings.Ascii.
From S2P Require Import Prelude.
From S2P Require Import RateLimit.

Record ErrorPayload := mkPayload { ep_code : Z; ep_message : string }.

(** [TransportError]: an error response, an HTTP error, or anything else. *)
Inductive TransportError :=
  | ErrorResp (payload : ErrorPayload)
  | HttpError (status : Z) (body : string)
  | Transport (message : string).

(** [str::to_lowercase], the [Display] of a payload, and what is called of [serde_json]. *)
Class Texts := {
  lowercase : string → string;
  display_payload : ErrorPayload → string;
  display_error : TransportError → string;
  Json : Type;
  from_str : string → option Json;
  json_get : Json → string → option Json;
  payload_from_value : Json → option ErrorPayload
}.

(** [str::to_ascii_lowercase]. *)
Definition ascii_lower (c : ascii) : ascii :=
  let n := nat_of_ascii c in
  if ((65 <=? n) && (n <=? 90))%nat then ascii_of_nat (n + 32) else c.
Fixpoint to_ascii_lowercase (s : string) : string :=
  match s with EmptyString => EmptyString | String c s => String (ascii_lower c) (to_ascii_lowercase s) end.

Definition contains_any (s : string) (needles : list string) : bool :=
  existsb (contains s) needles.

Section classification.
Context `{Texts}.

(** [simple_rpc_db::is_method_not_found]. *)
Definition is_method_not_found (err : TransportError) : bool :=
  match err with
  | ErrorResp payload =>
      if ep_code payload =? -32601 then true
      else
        let msg := lowercase (ep_message payload) in
        contains msg "method not found" || contains msg "eth_getproof is not supported"
  | _ => false
  end.

Definition json_rpc_error_in (body : string) : option ErrorPayload :=
  response ← from_str body;
  error ← json_get response "error";
  payload_from_value error.

Definition is_rate_limited (code : Z) (message : string) : bool :=
  let message := to_ascii_lowercase message in
  (code =? 429) || (code =? -32005) || contains message "rate limit" ||
  contains message "too many requests".

Definition is_unsupported_tracer (message : string) : bool :=
  let message := to_ascii_lowercase message in
  contains message "tracer" &&
  contains_any message
    ["unsupported"; "unknown"; "not supported"; "not found"; "not available"; "not allowed";
     "disabled"]%string.

Definition is_evm_failure (payload : ErrorPayload) : bool :=
  let message := lowercase (ep_message payload) in
  if String.prefix "revm error" message then false
  else
    bool_decide (ep_code payload ∈ [3; -32015]) ||
    String.prefix "evm error" message ||
    contains_any message
      ["revert"; "out of gas"; "invalid opcode"; "stack underflow"; "stack overflow";
       "invalid jump destination"]%string.
End classification.

(** The wordings of the tests of [crates/rpc]: throttling is not a refusal of the tracer, and a refusal
    is recognised whatever its case. *)
Example throttled : is_rate_limited (-32000) "Too Many Requests" = true.
Proof. reflexivity. Qed.
Example refused : is_unsupported_tracer "Unsupported Tracer type" = true.
Proof. reflexivity. Qed.
Example unrelated : is_unsupported_tracer "execution reverted in tracer" = false.
Proof. reflexivity. Qed.

(** Texts for the witnesses: only ASCII is lowered, and a body is its own error. *)
#[export] Instance sample_texts : Texts := {|
  lowercase := to_ascii_lowercase;
  display_payload p := ep_message p;
  display_error e := match e with ErrorResp p => ep_message p | HttpError _ b => b | Transport m => m end;
  Json := string;
  from_str s := Some s;
  json_get j _ := Some j;
  payload_from_value j := Some (mkPayload 0 j)
|}.
