(* ===== verification/RpcDb.v ===== *)
(** * The JSON-RPC database

    [crates/evmsketch/src/simple_rpc_db.rs]: accounts and storage read from a node at one block, by
    [eth_getProof] where the endpoint has it and by separate reads where it has not, and the prefetch
    that fills a [CacheDB] before a run. The node and revm's [CacheDB] are operations of classes. *)

From S2P Require Import Prelude.
From S2P Require Import Estimator.
From S2P Require Import Transport.

(** An [eth_getProof] response: what the code reads of it. *)
Record ProofResponse := mkProof {
  pr_balance : Z;
  pr_nonce : Z;
  pr_code_hash : Z;
  pr_storage_proof : list (Z * Z)
}.

(** The state reads, at a block. *)
Class StateNode (W : Type) := {
  get_proof : Z → list Z → Z → Eff TransportError W ProofResponse;
  get_code_at : Z → Z → Eff TransportError W (list Z);
  get_balance : Z → Z → Eff TransportError W Z;
  get_transaction_count : Z → Z → Eff TransportError W Z;
  get_storage_at : Z → Z → Z → Eff TransportError W Z;
  (** The hash of a block, if there is one of that number. *)
  get_block_hash : Z → Eff TransportError W (option Z);
  (** [Bytecode::hash_slow] and [KECCAK_EMPTY]. *)
  code_hash_of : list Z → Z;
  KECCAK_EMPTY : Z
}.

(** revm's [CacheDB], over the database below it. Inserting storage loads the account first, which
    can fail. *)
Class CacheDB (C : Type) := {
  cached_account : C → Z → option AccountInfo;
  cached_slot : C → Z → Z → option Z;
  insert_account_info : C → Z → AccountInfo → C;
  insert_account_storage : C → Z → Z → Z → option C
}.

(** The messages of [SimpleRpcDbError] and of the prefetch. *)
Inductive DbError :=
  | DbProof (address : Z) (e : TransportError)
  | DbCode (address : Z) (e : TransportError)
  | DbBalance (address : Z) (e : TransportError)
  | DbNonce (address : Z) (e : TransportError)
  | DbStorage (address index : Z) (e : TransportError)
  | DbCodeByHash
  | DbBlock (number : Z) (e : TransportError)
  | DbInsert (address slot : Z).

(** The node, the [proof_supported] flag and the cache. *)
Record DbWorld (W C : Type) := mkDbWorld { dw_node : W; dw_supported : bool; dw_cache : C }.
Arguments mkDbWorld {W C}.
Arguments dw_node {W C}.
Arguments dw_supported {W C}.
Arguments dw_cache {W C}.

Section rpc_db.
Context {W C : Type} `{Texts, StateNode W, CacheDB C}.
Abbreviation Db E A := (Eff E (DbWorld W C) A).

Definition proof_code_hash (code_hash : Z) : Z := if code_hash =? 0 then KECCAK_EMPTY else code_hash.

(** A request to the node. *)
Definition ask {E A} (m : Eff E W A) : Db E A :=
  zoom dw_node (λ w s, mkDbWorld w (dw_supported s) (dw_cache s)) m.
Definition supported {E} : Db E bool := λ s, (Ok (dw_supported s), s).
Definition clear_supported {E} : Db E unit := λ s, (Ok tt, mkDbWorld (dw_node s) false (dw_cache s)).

(** The variable part of [basic_ref]: [fetch_account_parallel]. *)
Definition fetch_account_parallel (block address : Z) : Db DbError AccountInfo :=
  balance_res ← eff_try (ask (get_balance address block));
  nonce_res ← eff_try (ask (get_transaction_count address block));
  code_res ← eff_try (ask (get_code_at address block));
  balance ← eff_res (match balance_res with inl b => Ok b | inr e => Err (DbBalance address e) end);
  nonce ← eff_res (match nonce_res with inl n => Ok n | inr e => Err (DbNonce address e) end);
  code ← eff_res (match code_res with inl c => Ok c | inr e => Err (DbCode address e) end);
  mret (mkAccountInfo balance nonce (code_hash_of code) (Some code)).

Inductive GetProofOutcome :=
  | GPOk (info : AccountInfo)
  | GPMethodNotSupported
  | GPErr (e : DbError).

(** The account a proof and the code read alongside it give. *)
Definition account_of_proof (address : Z) (proof : ProofResponse) (code_res : list Z + TransportError)
  : AccountInfo + DbError :=
  let code_hash := proof_code_hash (pr_code_hash proof) in
  if code_hash =? KECCAK_EMPTY then
    inl (mkAccountInfo (pr_balance proof) (pr_nonce proof) code_hash (Some []))
  else
    match code_res with
    | inl code => inl (mkAccountInfo (pr_balance proof) (pr_nonce proof) code_hash (Some code))
    | inr e => inr (DbCode address e)
    end.

Definition try_fetch_with_proof (block address : Z) : Db DbError GetProofOutcome :=
  proof_res ← eff_try (ask (get_proof address [] block));
  code_res ← eff_try (ask (get_code_at address block));
  mret match proof_res with
  | inr e => if is_method_not_found e then GPMethodNotSupported else GPErr (DbProof address e)
  | inl proof =>
      match account_of_proof address proof code_res with
      | inl info => GPOk info
      | inr e => GPErr e
      end
  end.

Definition fetch_account (block address : Z) : Db DbError (option AccountInfo) :=
  proof_supported ← supported;
  if (proof_supported : bool) then
    outcome ← try_fetch_with_proof block address;
    match outcome with
    | GPOk info => mret (Some info)
    | GPMethodNotSupported =>
        _ ← clear_supported; info ← fetch_account_parallel block address; mret (Some info)
    | GPErr e => eff_res (Err e)
    end
  else info ← fetch_account_parallel block address; mret (Some info).

Definition storage_ref (block address index : Z) : Db DbError Z :=
  eff_map_err (DbStorage address index) (ask (get_storage_at address index block)).

Definition code_by_hash_ref (hash : Z) : Db DbError (list Z) := eff_res (Err DbCodeByHash).

(** [unwrap_or_default]: a missing block's hash is zero. *)
Definition block_hash_ref (number : Z) : Db DbError Z :=
  b ← eff_map_err (DbBlock number) (ask (get_block_hash number)); mret (default 0 b).

(** ** Reading through the cache *)

Definition basic_ref (block address : Z) : Db DbError (option AccountInfo) := λ s,
  match cached_account (dw_cache s) address with
  | Some info => (Ok (Some info), s)
  | None => fetch_account block address s
  end.

Definition slot_ref (block address index : Z) : Db DbError Z := λ s,
  match cached_slot (dw_cache s) address index with
  | Some v => (Ok v, s)
  | None => storage_ref block address index s
  end.

(** ** The prefetch *)

(** [HashSet::insert] as a filter: the first occurrences, in order. *)
Fixpoint dedup (seen keys : list Z) : list Z :=
  match keys with
  | [] => []
  | k :: keys => if bool_decide (k ∈ seen) then dedup seen keys else k :: dedup (k :: seen) keys
  end.

Definition insert_info (address : Z) (info : AccountInfo) : Db DbError unit := λ s,
  (Ok tt, mkDbWorld (dw_node s) (dw_supported s) (insert_account_info (dw_cache s) address info)).

Definition insert_slot (address : Z) (p : Z * Z) : Db DbError unit := λ s,
  match insert_account_storage (dw_cache s) address p.1 p.2 with
  | Some c => (Ok tt, mkDbWorld (dw_node s) (dw_supported s) c)
  | None => (Err (DbInsert address p.1), s)
  end.

Fixpoint insert_slots (address : Z) (l : list (Z * Z)) : Db DbError unit :=
  match l with
  | [] => mret tt
  | p :: l => _ ← insert_slot address p; insert_slots address l
  end.

(** One task joined: whether to go on. *)
Definition join_task (block : Z) (task : Z * list Z) : Db DbError bool :=
  let '(address, keys) := task in
  proof_res ← eff_try (ask (get_proof address (dedup [] keys) block));
  code_res ← eff_try (ask (get_code_at address block));
  match proof_res with
  | inr e => if is_method_not_found e then _ ← clear_supported; mret false else mret true
  | inl proof =>
      match account_of_proof address proof code_res with
      | inr _ => mret true
      | inl info =>
          _ ← insert_info address info;
          _ ← insert_slots address (pr_storage_proof proof);
          mret true
      end
  end.

Fixpoint join_all (block : Z) (tasks : list (Z * list Z)) : Db DbError unit :=
  match tasks with
  | [] => mret tt
  | t :: tasks => go ← join_task block t; if (go : bool) then join_all block tasks else mret tt
  end.

(** [prefetch_slots_into_cache], its tasks in the order they complete. The requests of a task are made
    where it is joined: the code makes them earlier and concurrently, which a node at a fixed block
    cannot tell. *)
Definition prefetch_slots_into_cache (block : Z) (slots : list (Z * list Z)) : Db DbError unit :=
  proof_supported ← supported;
  if (length slots =? 0)%nat || negb proof_supported then mret tt else join_all block slots.
End rpc_db.
