(* ===== verification/RpcDbSpec.v ===== *)
(** * The database reads the block

    On a node that answers for one block, what is read through the cache is that block's state,
    whichever reads the endpoint supports, and whatever was prefetched before in whatever order. *)

From S2P Require Import Prelude.
From S2P Require Import Estimator.
From S2P Require Import Effects.
From S2P Require Import Transport.
From S2P Require Import RpcDb.

(** ** Laws *)

(** The accounts and slots of the block, which every answer is about. A proof may report a missing
    account's code hash as zero. *)
Class BlockState (W : Type) `{StateNode W} (block : Z) := {
  account_at : Z → AccountInfo;
  slot_at : Z → Z → Z;
  balance_true a w b w' : get_balance a block w = (Ok b, w') → b = ai_balance (account_at a);
  nonce_true a w n w' : get_transaction_count a block w = (Ok n, w') → n = ai_nonce (account_at a);
  code_true a w c w' : get_code_at a block w = (Ok c, w') → ai_code (account_at a) = Some c;
  storage_true a k w v w' : get_storage_at a k block w = (Ok v, w') → v = slot_at a k;
  proof_true a ks w p w' : get_proof a ks block w = (Ok p, w') →
    pr_balance p = ai_balance (account_at a) ∧ pr_nonce p = ai_nonce (account_at a) ∧
    (pr_code_hash p = ai_code_hash (account_at a) ∨
     pr_code_hash p = 0 ∧ ai_code (account_at a) = Some []) ∧
    Forall (λ kv, kv.2 = slot_at a kv.1) (pr_storage_proof p);
  account_code a : ∃ c, ai_code (account_at a) = Some c ∧
    ai_code_hash (account_at a) = code_hash_of c ∧ code_hash_of c ≠ 0;
  hash_of_empty c : code_hash_of c = KECCAK_EMPTY ↔ c = []
}.

(** revm's cache: an insertion is read back and changes nothing else. *)
Class CacheLaws (C : Type) `{CacheDB C} : Prop := {
  account_inserted c a i b :
    cached_account (insert_account_info c a i) b = if decide (b = a) then Some i else cached_account c b;
  account_keeps_slots c a i b k : cached_slot (insert_account_info c a i) b k = cached_slot c b k;
  slot_inserted c a k v c' b j : insert_account_storage c a k v = Some c' →
    cached_slot c' b j = if decide (b = a ∧ j = k) then Some v else cached_slot c b j;
  slot_keeps_accounts c a k v c' b : insert_account_storage c a k v = Some c' →
    is_Some (cached_account c a) → cached_account c' b = cached_account c b
}.

Section spec.
Context {W C : Type} (block : Z) `{Texts, BlockState W block, CacheLaws C}.
Abbreviation Db E A := (Eff E (DbWorld W C) A).

(** Everything cached is the block's. *)
Definition coherent (c : C) : Prop :=
  (∀ a i, cached_account c a = Some i → i = account_at a) ∧
  (∀ a k v, cached_slot c a k = Some v → v = slot_at a k).

(** Operations that do not touch the cache, and do not set the flag. *)
Definition reads {E A} (m : Db E A) : Prop := ∀ s r s', m s = (r, s') →
  dw_cache s' = dw_cache s ∧ (dw_supported s' = true → dw_supported s = true).

Lemma reads_ask {E A} (m : Eff E W A) : reads (ask m).
Proof. intros s r s' Hrun. unfold ask, zoom in Hrun. destruct (m _) as [r0 w]. by injection Hrun as <- <-. Qed.
Lemma reads_ret {E A} (a : A) : reads (mret a : Db E A).
Proof. by intros s r s' [= <- <-]. Qed.
Lemma reads_res {E A} (r : Res E A) : reads (eff_res r).
Proof. by intros s r' s' [= <- <-]. Qed.
Lemma reads_clear {E} : reads (clear_supported (E := E)).
Proof. by intros s r s' [= <- <-]. Qed.
Lemma reads_supported {E} : reads (supported (E := E)).
Proof. by intros s r s' [= <- <-]. Qed.
Lemma reads_try {E F A} (m : Db E A) : reads m → reads (eff_try (F := F) m).
Proof. intros Hm s r s' (r0 & Hrun & _)%eff_try_run. by eapply Hm. Qed.
Lemma reads_map_err {E F A} (g : E → F) (m : Db E A) : reads m → reads (eff_map_err g m).
Proof. intros Hm s r s' (r0 & Hrun & _)%eff_map_err_run. by eapply Hm. Qed.
Lemma reads_bind {E A B} (m : Db E A) (f : A → Db E B) :
  reads m → (∀ a, reads (f a)) → reads (m ≫= f).
Proof.
  intros Hm Hf s r s' Hrun. apply eff_bind_run in Hrun as [(a & s1 & Hm1 & Hrun)|(r0 & Hrun & _)].
  - apply Hm in Hm1 as [Hc1 Hs1]. apply Hf in Hrun as [Hc2 Hs2]. rewrite Hc2. auto.
  - by eapply Hm.
Qed.

Ltac prove_reads :=
  repeat first
    [ apply reads_bind; [|intros ?] | apply reads_try | apply reads_map_err | apply reads_ask
    | apply reads_ret | apply reads_res | apply reads_clear | apply reads_supported
    | case_match ].

Lemma fetch_account_reads a : reads (fetch_account (C := C) block a).
Proof. unfold fetch_account, try_fetch_with_proof, fetch_account_parallel. prove_reads. Qed.
Lemma storage_ref_reads a k : reads (storage_ref (C := C) block a k).
Proof. unfold storage_ref. prove_reads. Qed.

(** ** Fetching an account *)

Lemma ask_run {E A} (m : Eff E W A) s r s' :
  ask (C := C) m s = (r, s') → m (dw_node s) = (r, dw_node s').
Proof. unfold ask, zoom. destruct (m _) as [r0 w]. by intros [= <- <-]. Qed.

Lemma try_ask_run {E F A} (m : Eff E W A) s (a : A) s' :
  eff_try (F := F) (ask (C := C) m) s = (Ok (inl a), s') → m (dw_node s) = (Ok a, dw_node s').
Proof. intros Hrun%eff_try_Ok. by apply ask_run in Hrun. Qed.

(** What a proof and the code beside it give is the account. *)
Lemma account_of_proof_true a ks p code_res info s s' w w' :
  get_proof a ks block w = (Ok p, w') →
  eff_try (F := DbError) (ask (C := C) (get_code_at a block)) s = (Ok code_res, s') →
  account_of_proof a p code_res = inl info → info = account_at a.
Proof.
  intros (Hb & Hn & Hh & _)%proof_true Hcode. unfold account_of_proof, proof_code_hash.
  destruct (account_code a) as (c & Hc & Hhash & Hnz). rewrite Hb, Hn.
  destruct (account_at a) as [b n h co] eqn:Ha. cbn in *. subst co h.
  destruct (Z.eqb_spec (pr_code_hash p) 0) as [Hz|Hz].
  - destruct Hh as [Hh|[_ [= ->]]]; [congruence|]. rewrite Z.eqb_refl. intros [= <-].
    by rewrite (proj2 (hash_of_empty [])).
  - destruct Hh as [Hh|[Hh _]]; [|done]. rewrite Hh.
    destruct (Z.eqb_spec (code_hash_of c) KECCAK_EMPTY) as [He|He].
    + apply hash_of_empty in He as ->. by intros [= <-].
    + destruct code_res as [code|e]; [|done]. intros [= <-].
      apply try_ask_run, code_true in Hcode. rewrite Ha in Hcode. cbn in Hcode. congruence.
Qed.

Lemma fetch_account_parallel_true a (s : DbWorld W C) info s' :
  fetch_account_parallel block a s = (Ok info, s') → info = account_at a.
Proof.
  unfold fetch_account_parallel. intros Hrun.
  apply eff_bind_Ok in Hrun as (b & s1 & Hb & Hrun). apply eff_bind_Ok in Hrun as (n & s2 & Hn & Hrun).
  apply eff_bind_Ok in Hrun as (c & s3 & Hc & Hrun).
  apply eff_bind_Ok in Hrun as (b' & s4 & Hb' & Hrun). apply eff_res_Ok in Hb' as [Hb' ->].
  apply eff_bind_Ok in Hrun as (n' & s5 & Hn' & Hrun). apply eff_res_Ok in Hn' as [Hn' ->].
  apply eff_bind_Ok in Hrun as (c' & s6 & Hc' & Hrun). apply eff_res_Ok in Hc' as [Hc' ->].
  destruct b as [b|], n as [n|], c as [c|]; try done.
  apply try_ask_run, balance_true in Hb. apply try_ask_run, nonce_true in Hn.
  apply try_ask_run, code_true in Hc. injection Hrun as <- <-.
  destruct (account_code a) as (co & Hco & Hh & _).
  destruct (account_at a) as [? ? ? ?]. cbn in *. congruence.
Qed.

(** Either way of fetching gives the block's account. *)
Lemma fetch_account_true a (s : DbWorld W C) o s' :
  fetch_account block a s = (Ok o, s') → o = Some (account_at a).
Proof.
  unfold fetch_account. intros Hrun. apply eff_bind_Ok in Hrun as (b & s1 & _ & Hrun).
  assert (Hpar : ∀ (s : DbWorld W C) o s', (info ← fetch_account_parallel block a; mret (Some info)) s = (Ok o, s') →
    o = Some (account_at a)).
  { intros t o' t' Hr. apply eff_bind_Ok in Hr as (i & t1 & Hi & Hr).
    apply fetch_account_parallel_true in Hi as ->. by injection Hr as <- <-. }
  destruct b; [|by eapply Hpar].
  apply eff_bind_Ok in Hrun as (outcome & s2 & Ho & Hrun). unfold try_fetch_with_proof in Ho.
  apply eff_bind_Ok in Ho as (p & s3 & Hp & Ho). apply eff_bind_Ok in Ho as (c & s4 & Hc & Ho).
  injection Ho as <- <-. destruct p as [p|e].
  - destruct (account_of_proof a p c) as [info|e] eqn:Hacc; [|done].
    injection Hrun as <- <-. f_equal. eapply account_of_proof_true; [|exact Hc|exact Hacc].
    by apply try_ask_run in Hp.
  - destruct (is_method_not_found e); [|done].
    apply eff_bind_Ok in Hrun as (u & s5 & _ & Hrun). by eapply Hpar.
Qed.

(** ** The prefetch *)

Lemma insert_slots_coherent a l (s : DbWorld W C) r s' :
  coherent (dw_cache s) → is_Some (cached_account (dw_cache s) a) →
  Forall (λ kv, kv.2 = slot_at a kv.1) l → insert_slots a l s = (r, s') → coherent (dw_cache s').
Proof.
  intros Hc Ha Hl. revert s Hc Ha. induction Hl as [|[k v] l Hv Hl IH]; intros s Hc Ha Hrun.
  { by injection Hrun as <- <-. }
  cbn [insert_slots] in Hrun. cbn in Hv. subst v.
  unfold mbind, eff_bind, insert_slot in Hrun. cbn [fst snd] in Hrun.
  destruct (insert_account_storage (dw_cache s) a k (slot_at a k)) as [c'|] eqn:Hi.
  2:{ by injection Hrun as <- <-. }
  apply IH in Hrun; [done|..]; cbn [dw_cache].
  - destruct Hc as [Hca Hcs]. split.
    + intros b i. rewrite (slot_keeps_accounts _ _ _ _ _ _ Hi) by done. apply Hca.
    + intros b j v. rewrite (slot_inserted _ _ _ _ _ _ _ Hi).
      destruct (decide _) as [[-> ->]|]; [by intros [= <-]|apply Hcs].
  - by rewrite (slot_keeps_accounts _ _ _ _ _ _ Hi).
Qed.

Lemma join_task_coherent task (s : DbWorld W C) r s' :
  coherent (dw_cache s) → join_task block task s = (r, s') → coherent (dw_cache s').
Proof.
  intros Hc. destruct task as [a keys]. unfold join_task. intros Hrun.
  apply eff_bind_run in Hrun as [(p & s1 & Hp & Hrun)|(r0 & Hp & _)];
    destruct (reads_try _ (reads_ask (get_proof a (dedup [] keys) block)) _ _ _ Hp) as [Hc1 _];
    rewrite <-Hc1 in Hc; [|done].
  apply eff_bind_run in Hrun as [(c & s2 & Hcode & Hrun)|(r0 & Hcode & _)];
    destruct (reads_try _ (reads_ask (get_code_at a block)) _ _ _ Hcode) as [Hc2 _];
    rewrite <-Hc2 in Hc; [|done].
  destruct p as [p|e].
  2:{ destruct (is_method_not_found e); by injection Hrun as <- <-. }
  destruct (account_of_proof a p c) as [info|e] eqn:Hacc; [|by injection Hrun as <- <-].
  apply try_ask_run in Hp.
  assert (info = account_at a) as -> by (by eapply account_of_proof_true).
  apply proof_true in Hp as (_ & _ & _ & Hslots).
  apply eff_bind_run in Hrun as [(u & s3 & Hi & Hrun)|(r0 & Hi & Hr0 & _)];
    [|by injection Hi as <- <-].
  injection Hi as <- <-.
  assert (Hc3 : coherent (insert_account_info (dw_cache s2) a (account_at a))).
  { destruct Hc as [Hca Hcs]. split.
    - intros b i. rewrite account_inserted.
      destruct (decide _) as [->|]; [by intros [= <-]|apply Hca].
    - intros b k v. rewrite account_keeps_slots. apply Hcs. }
  assert (Hin : is_Some (cached_account (insert_account_info (dw_cache s2) a (account_at a)) a))
    by (rewrite account_inserted, decide_True by done; eauto).
  apply eff_bind_run in Hrun as [(u' & s4 & Hi & Hrun)|(r0 & Hi & _)];
    apply insert_slots_coherent in Hi; try done.
  by injection Hrun as <- <-.
Qed.

Lemma join_all_coherent tasks (s : DbWorld W C) r s' :
  coherent (dw_cache s) → join_all block tasks s = (r, s') → coherent (dw_cache s').
Proof.
  revert s. induction tasks as [|t tasks IH]; intros s Hc Hrun; [by injection Hrun as <- <-|].
  cbn [join_all] in Hrun. apply eff_bind_run in Hrun as [(go & s1 & Ht & Hrun)|(r0 & Ht & _)];
    apply join_task_coherent in Ht; try done.
  destruct go; [by eapply IH|by injection Hrun as <- <-].
Qed.

Lemma prefetch_coherent slots (s : DbWorld W C) r s' :
  coherent (dw_cache s) → prefetch_slots_into_cache block slots s = (r, s') →
  coherent (dw_cache s').
Proof.
  intros Hc Hrun. unfold prefetch_slots_into_cache in Hrun.
  apply eff_bind_run in Hrun as [(b & s1 & Hs & Hrun)|(r0 & Hs & Hr0 & _)];
    injection Hs as <- <-; [|done].
  destruct (_ || _); [by injection Hrun as <- <-|by eapply join_all_coherent].
Qed.

(** C28: A prefetch cannot change what a run reads: starting from a cache that agrees with the block, after
    the prefetch of any hints, completing in any order, however it ends, every account and slot that
    can be read through the cache is the block's, whether it was prefetched, is fetched with a proof,
    or by separate reads. *)
Theorem reads_after_prefetch slots (s : DbWorld W C) r s1 :
  coherent (dw_cache s) → prefetch_slots_into_cache block slots s = (r, s1) →
  coherent (dw_cache s1) ∧
  (∀ a o s2, basic_ref block a s1 = (Ok o, s2) → o = Some (account_at a)) ∧
  (∀ a k v s2, slot_ref block a k s1 = (Ok v, s2) → v = slot_at a k).
Proof.
  intros Hc Hrun. pose proof (prefetch_coherent _ _ _ _ Hc Hrun) as Hc1. split; [done|].
  destruct Hc1 as [Hca Hcs]. split.
  - intros a o s2. unfold basic_ref. destruct (cached_account _ a) as [i|] eqn:Hi.
    + intros [= <- <-]. f_equal. by apply Hca.
    + apply fetch_account_true.
  - intros a k v s2. unfold slot_ref. destruct (cached_slot _ a k) as [u|] eqn:Hu.
    + intros [= <- <-]. by apply Hcs.
    + intros Hr%eff_map_err_Ok%ask_run. by eapply storage_true.
Qed.
End spec.

(** ** Witness *)

(** A node that holds one contract, at 10, and a cache of two maps. *)
Definition sample_account (a : Z) : AccountInfo :=
  if a =? 10 then mkAccountInfo 7 1 5 (Some [96; 0]) else mkAccountInfo 0 0 1 (Some []).
Definition sample_code_hash (c : list Z) : Z := match c with [] => 1 | _ => 5 end.

#[export] Instance sample_state_node : StateNode unit := {|
  get_proof a ks _ w :=
    (Ok (mkProof (ai_balance (sample_account a)) (ai_nonce (sample_account a))
      (if a =? 10 then 5 else 0) ((λ k, (k, k + 1)) <$> ks)), w);
  get_code_at a _ w := (Ok (default [] (ai_code (sample_account a))), w);
  get_balance a _ w := (Ok (ai_balance (sample_account a)), w);
  get_transaction_count a _ w := (Ok (ai_nonce (sample_account a)), w);
  get_storage_at a k _ w := (Ok (k + 1), w);
  get_block_hash n w := (Ok (Some n), w);
  code_hash_of := sample_code_hash;
  KECCAK_EMPTY := 1
|}.

#[export] Instance sample_block_state : BlockState unit 100.
Proof.
  refine {| account_at := sample_account; slot_at := λ _ k, k + 1 |}.
  - by intros a w b w' [= <- <-].
  - by intros a w b w' [= <- <-].
  - intros a w c w' [= <- <-]. unfold sample_account. by destruct (a =? 10).
  - by intros a k w v w' [= <- <-].
  - intros a ks w p w' [= <- <-]. cbn. unfold sample_account.
    destruct (a =? 10); cbn; split_and!; auto; apply Forall_fmap, Forall_forall; done.
  - intros a. unfold sample_account. destruct (a =? 10); cbn; eauto.
  - intros [|b c]; cbn; split; (done || discriminate).
Defined.

Record SampleCache := mkSampleCache { sc_accounts : gmap Z AccountInfo; sc_slots : gmap (Z * Z) Z }.

#[export] Instance sample_cache : CacheDB SampleCache := {|
  cached_account c a := sc_accounts c !! a;
  cached_slot c a k := sc_slots c !! (a, k);
  insert_account_info c a i := mkSampleCache (<[a := i]> (sc_accounts c)) (sc_slots c);
  insert_account_storage c a k v := Some (mkSampleCache (sc_accounts c) (<[(a, k) := v]> (sc_slots c)))
|}.

#[export] Instance sample_cache_laws : CacheLaws SampleCache.
Proof.
  split; cbn.
  - intros c a i b. destruct (decide (b = a)) as [->|]; [apply lookup_insert_eq|].
    by apply lookup_insert_ne.
  - done.
  - intros c a k v c' b j [= <-]. cbn. destruct (decide _) as [[-> ->]|Hne].
    + apply lookup_insert_eq.
    + apply lookup_insert_ne. intros [= -> ->]. by destruct Hne.
  - by intros c a k v c' b [= <-].
Defined.

Definition sample_db : DbWorld unit SampleCache := mkDbWorld tt true (mkSampleCache ∅ ∅).

Lemma reads_after_prefetch_witness :
  cached_slot (dw_cache (prefetch_slots_into_cache 100 [(10, [3; 3]); (11, [])] sample_db).2) 10 3
    = Some 4 ∧
  (basic_ref 100 11 (prefetch_slots_into_cache 100 [(10, [3; 3]); (11, [])] sample_db).2).1
    = Ok (Some (sample_account 11)).
Proof.
  split; [vm_compute; reflexivity|].
  destruct (reads_after_prefetch (C := SampleCache) 100 [(10, [3; 3]); (11, [])] sample_db
    (prefetch_slots_into_cache 100 [(10, [3; 3]); (11, [])] sample_db).1
    (prefetch_slots_into_cache 100 [(10, [3; 3]); (11, [])] sample_db).2) as (_ & Hb & _).
  - split; cbn; intros *; by rewrite lookup_empty.
  - vm_compute. reflexivity.
  - rewrite (Hb 11 (Some (sample_account 11))
      (basic_ref 100 11 (prefetch_slots_into_cache 100 [(10, [3; 3]); (11, [])] sample_db).2).2);
      vm_compute; reflexivity.
Defined.
