(* ===== verification/CallTrace.v ===== *)
(** * Tracing a simulated call

    The [debug_traceCall] requests of [crates/rpc/src/lib.rs]: the struct-log trace, the prestate diff,
    the call frame, and the last two from one [muxTracer] request, each under a simulation profile. The
    node is an operation of a class; what it answers is a value. *)

From stdpp Require Import pretty.
From S2P Require Import Prelude.
From S2P Require Import Types.
From S2P Require Import Trace.
From S2P Require Import SimProfile.
From S2P Require Import Prestate.
From S2P Require Import Analyze.
From S2P Require Import Transport.

(** ** Requests *)

(** The fields of a [TransactionRequest] the code reads or sets. *)
Record TransactionRequest := mkRequest {
  tr_from : option Z;
  tr_to : option TxKind;
  tr_gas : option Z;
  tr_value : option Z;
  tr_input : option (list Z);
  tr_access_list : option (list (Z * list Z))
}.

Definition TransactionRequest_default : TransactionRequest := mkRequest None None None None None None.

Record BlockOverrides := mkBlockOverrides { bo_gas_limit : option Z }.
Definition BlockOverrides_default : BlockOverrides := mkBlockOverrides None.

Record PreStateConfig := mkPreStateConfig { diff_mode : option bool; disable_code : option bool }.
Record CallConfig := mkCallConfig { with_log : option bool }.

Inductive BuiltInTracer := PreStateTracerName | CallTracerName.
#[export] Instance BuiltInTracer_eq_dec : EqDecision BuiltInTracer.
Proof. solve_decision. Defined.

Inductive TracingOptions :=
  | StructLogs (enable_memory disable_storage : option bool)
  | PreStateTracer (config : PreStateConfig)
  | CallTracer (config : CallConfig)
  | MuxTracer (config : list (BuiltInTracer * (PreStateConfig + CallConfig))).

Record TracingCallOptions := mkCallOptions {
  tco_tracing_options : TracingOptions;
  tco_block_overrides : option BlockOverrides
}.

#[local] Set Warnings "-register-all".

(** ** Answers *)

Inductive GethTrace :=
  | GDefault (trace : DefaultFrame)
  | GPreState
  | GPreStateDiff (diff : DiffMode)
  | GCall (frame : CallFrame)
  | GMux (frames : list (BuiltInTracer * GethTrace))
  | GOther.

(** Why a [muxTracer] answer is not the two frames. *)
Inductive SplitError :=
  | NotMux (trace : GethTrace)
  | NotDiffInMux (other : option GethTrace)
  | NotFrameInMux (other : option GethTrace).

Inductive MuxedTraces :=
  | MuxFrames (frames : DiffMode * CallFrame)
  | MuxUnsupported
  | MuxRejected (reason : string) (payload : option ErrorPayload)
  | MuxMalformed (why : SplitError).

(** The errors of the requests. [CallFailed] is the [EvmFailure] a caller can recognise. *)
Inductive CallError :=
  | CallFailed (why : EvmFailure)
  | TraceCall (e : TransportError)        (* "debug_trace_call failed: {e}" *)
  | NotDefaultTrace                       (* "Expected default trace from debug_trace_call" *)
  | PrestateCall (e : TransportError)     (* "prestate debug_trace_call failed: {e}" *)
  | NotPrestateDiff (other : GethTrace)   (* "expected prestate diff frame, got {other:?}" *)
  | CallTracerCall (e : TransportError)   (* "callTracer debug_trace_call failed: {e}" *)
  | NotCallFrame (other : GethTrace)      (* "expected call frame, got {other:?}" *)
  | MuxCall (reason : string).            (* "muxTracer debug_trace_call failed: {reason}" *)

(** An endpoint, [P], answers at a block. *)
Class TraceNode (P W : Type) := {
  debug_trace_call : P → TransactionRequest → Z → TracingCallOptions → Eff TransportError W GethTrace
}.

(** ** The profile *)

Definition set_tr_gas (gas : option Z) (r : TransactionRequest) : TransactionRequest :=
  mkRequest (tr_from r) (tr_to r) gas (tr_value r) (tr_input r) (tr_access_list r).

Definition apply_sim_profile (tx_request : TransactionRequest) (options : TracingCallOptions)
  (profile : SimProfile) : TransactionRequest * TracingCallOptions :=
  (match tx_gas_limit_override profile with
   | Some tx_gas => set_tr_gas (Some tx_gas) tx_request
   | None => tx_request
   end,
   match block_gas_limit_override profile with
   | Some block_gas =>
       mkCallOptions (tco_tracing_options options) (Some (mkBlockOverrides (Some block_gas)))
   | None => options
   end).

Definition prestate_diff_config : PreStateConfig := mkPreStateConfig (Some true) (Some true).
Definition call_with_log_config : CallConfig := mkCallConfig (Some true).
Definition struct_log_options : TracingOptions := StructLogs (Some true) (Some true).
Definition mux_options : TracingOptions :=
  MuxTracer [(PreStateTracerName, inl prestate_diff_config); (CallTracerName, inr call_with_log_config)].

(** ** Reading a [muxTracer] answer *)

(** [HashMap::remove] on the frames. *)
Fixpoint remove_frame (name : BuiltInTracer) (frames : list (BuiltInTracer * GethTrace))
  : option GethTrace * list (BuiltInTracer * GethTrace) :=
  match frames with
  | [] => (None, [])
  | (n, t) :: frames =>
      if bool_decide (n = name) then (Some t, frames)
      else let '(o, rest) := remove_frame name frames in (o, (n, t) :: rest)
  end.

Definition split_prestate_and_call (trace : GethTrace) : Res SplitError (DiffMode * CallFrame) :=
  match trace with
  | GMux frames =>
      let '(other, frames) := remove_frame PreStateTracerName frames in
      diff ← match other with Some (GPreStateDiff diff) => Ok diff | _ => Err (NotDiffInMux other) end;
      let '(other, _) := remove_frame CallTracerName frames in
      frame ← match other with Some (GCall frame) => Ok frame | _ => Err (NotFrameInMux other) end;
      Ok (diff, frame)
  | _ => Err (NotMux trace)
  end.

Section call_trace.
Context {P W : Type} `{Texts, TraceNode P W}.

(** ** The requests *)

Definition send (provider : P) (tx_request : TransactionRequest) (block : Z) (profile : SimProfile)
  (tracing_options : TracingOptions) : Eff TransportError W GethTrace :=
  let '(tx_request, options) :=
    apply_sim_profile tx_request (mkCallOptions tracing_options None) profile in
  debug_trace_call provider tx_request block options.

Definition get_trace_from_call_with_profile (provider : P) (tx_request : TransactionRequest)
  (block : Z) (profile : SimProfile) : Eff CallError W DefaultFrame :=
  trace ← eff_map_err TraceCall (send provider tx_request block profile struct_log_options);
  match trace with
  | GDefault trace =>
      _ ← eff_res (map_err CallFailed (ensure_call_succeeded trace));
      mret trace
  | _ => eff_res (Err NotDefaultTrace)
  end.

Definition get_prestate_diff_from_call_with_profile (provider : P) (tx_request : TransactionRequest)
  (block : Z) (profile : SimProfile) : Eff CallError W DiffMode :=
  trace ← eff_map_err PrestateCall
    (send provider tx_request block profile (PreStateTracer prestate_diff_config));
  match trace with
  | GPreStateDiff diff => mret diff
  | other => eff_res (Err (NotPrestateDiff other))
  end.

Definition get_call_frame_from_call_with_profile (provider : P) (tx_request : TransactionRequest)
  (block : Z) (profile : SimProfile) : Eff CallError W CallFrame :=
  trace ← eff_map_err CallTracerCall
    (send provider tx_request block profile (CallTracer call_with_log_config));
  match trace with
  | GCall frame => mret frame
  | other => eff_res (Err (NotCallFrame other))
  end.

Definition get_trace_from_call (provider : P) (tx_request : TransactionRequest) (block : Z)
  : Eff CallError W DefaultFrame :=
  get_trace_from_call_with_profile provider tx_request block Chain.
Definition get_prestate_diff_from_call (provider : P) (tx_request : TransactionRequest) (block : Z)
  : Eff CallError W DiffMode :=
  get_prestate_diff_from_call_with_profile provider tx_request block Chain.
Definition get_call_frame_from_call (provider : P) (tx_request : TransactionRequest) (block : Z)
  : Eff CallError W CallFrame :=
  get_call_frame_from_call_with_profile provider tx_request block Chain.

(** ** The mux request *)

(** A 4xx status other than a timeout and a rate limit: the endpoint answered. *)
Definition is_answer_status (status : Z) : bool :=
  (400 <=? status) && (status <? 500) && negb (bool_decide (status ∈ [408; 429])).

Definition classify_mux_error (error : TransportError) : Res CallError MuxedTraces :=
  '(reason, payload) ←
    match error with
    | ErrorResp resp => Ok (display_payload resp, Some resp)
    | HttpError status body =>
        if is_answer_status status
        then Ok (("HTTP " +:+ pretty status +:+ ": " +:+ body)%string, json_rpc_error_in body)
        else Err (MuxCall (display_error error))
    | Transport _ => Err (MuxCall (display_error error))
    end;
  if match payload with
     | Some payload => is_rate_limited (ep_code payload) (ep_message payload)
     | None => false
     end
  then Err (MuxCall reason)
  else Ok (if is_unsupported_tracer reason then MuxUnsupported else MuxRejected reason payload).

Definition get_prestate_diff_and_call_frame_with_profile (provider : P)
  (tx_request : TransactionRequest) (block : Z) (profile : SimProfile)
  : Eff CallError W MuxedTraces :=
  answer ← eff_try (send provider tx_request block profile mux_options);
  match answer with
  | inl trace =>
      mret match split_prestate_and_call trace with
           | Ok frames => MuxFrames frames
           | Err e => MuxMalformed e
           | Panic _ => MuxMalformed (NotMux trace)
           end
  | inr e => eff_res (classify_mux_error e)
  end.
End call_trace.
