(* ===== verification/Extract.v ===== *)
(** * Extracting the program of a simulated call

    The extraction of [crates/evmsketch/src/lib.rs]: what an endpoint has shown about [muxTracer], the
    prestate diff and call frame with or without it, the net form, and the choice between the net form
    and the struct-log extractors. *)

From S2P Require Import Prelude.
From S2P Require Import Types.
From S2P Require Import Trace.
From S2P Require Import SimProfile.
From S2P Require Import Prestate.
From S2P Require Import Prune.
From S2P Require Import Transport.
From S2P Require Import CallTrace.

(** ** What an endpoint has shown about [muxTracer] *)

(** [Instant]: nanoseconds of a monotonic clock. *)
Class Clock (W : Type) := { instant : W → Z }.

(** [MUX_PAUSE], in milliseconds as [as_millis] gives it. *)
Definition MUX_PAUSE : Z := 60 * 60 * 1000.
Definition MUX_REJECTIONS_BEFORE_PAUSE : Z := 3.

Record MuxSupport := mkMuxSupport {
  ms_pause : Z;
  ms_epoch : Z;
  ms_paused_until_ms : Z;
  ms_rejections : Z
}.

(** [with_pause], at the instant [now]. *)
Definition with_pause (pause now : Z) : MuxSupport := mkMuxSupport pause now 0 0.
Definition MuxSupport_default (now : Z) : MuxSupport := with_pause MUX_PAUSE now.

(** [elapsed().as_millis()], which saturates at zero and at [u64::MAX]. *)
Definition now_ms (now : Z) (m : MuxSupport) : Z :=
  Z.min u64_max (Z.max 0 (now - ms_epoch m) / 1000000).

Definition is_paused (now : Z) (m : MuxSupport) : bool := now_ms now m <? ms_paused_until_ms m.

Definition pause (now : Z) (m : MuxSupport) : MuxSupport :=
  mkMuxSupport (ms_pause m) (ms_epoch m)
    (sat_add (now_ms now m) (Z.min u64_max (ms_pause m))) 0.

Definition answered (m : MuxSupport) : MuxSupport :=
  mkMuxSupport (ms_pause m) (ms_epoch m) (ms_paused_until_ms m) 0.

(** [fetch_add(1) + 1], on [u32]. *)
Definition rejected (now : Z) (m : MuxSupport) : bool * MuxSupport :=
  let rejections := (ms_rejections m + 1) mod 2 ^ 32 in
  let m := mkMuxSupport (ms_pause m) (ms_epoch m) (ms_paused_until_ms m) rejections in
  if MUX_REJECTIONS_BEFORE_PAUSE <=? rejections then (true, pause now m) else (false, m).

(** ** Encodings *)

Inductive StateEncoding := Legacy | Canonical | PrestateNet.
Definition StateEncoding_default : StateEncoding := Legacy.
Inductive StructLogEncoder := LegacyLogs | CanonicalLogs.
Inductive Extraction := XPrestateNet | XStructLog | XPrestateFallback.

#[export] Instance StateEncoding_eq_dec : EqDecision StateEncoding.
Proof. solve_decision. Defined.

Definition signs_prestate_net (e : StateEncoding) : bool :=
  match e with PrestateNet => true | _ => false end.
Definition struct_log_encoder (e : StateEncoding) : StructLogEncoder :=
  match e with Legacy => LegacyLogs | Canonical | PrestateNet => CanonicalLogs end.
Definition extraction_as_str (e : Extraction) : string :=
  match e with
  | XPrestateNet => "prestate_net"
  | XStructLog => "struct_log"
  | XPrestateFallback => "prestate_fallback"
  end.

(** One run's output, without its timings. *)
Record Extracted := mkExtracted {
  ex_state_updates : list StateUpdate;
  ex_skipped_opcodes : gset string;
  ex_call_gas_total : Z;
  ex_extraction : Extraction
}.

Inductive ExtractError :=
  | XCall (e : CallError)      (* the requests, and [EvmFailure]s *)
  | XParse (e : Error).        (* the extractors *)

(** The nodes, and what one endpoint has shown. *)
Record MuxWorld (W : Type) := mkMuxWorld { mw_node : W; mw_mux : MuxSupport }.
Arguments mkMuxWorld {W}.
Arguments mw_node {W}.
Arguments mw_mux {W}.

Section extract.
Context {P W : Type} `{Externals, Texts, TraceNode P W, Clock W}.

(** A request to a node. *)
Definition on_node {E A} (m : Eff E W A) : Eff E (MuxWorld W) A :=
  zoom mw_node (λ w s, mkMuxWorld w (mw_mux s)) m.

(** An operation on [MuxSupport], which reads the clock. *)
Definition on_mux {E A} (f : Z → MuxSupport → A * MuxSupport) : Eff E (MuxWorld W) A := λ s,
  let '(a, m) := f (instant (mw_node s)) (mw_mux s) in (Ok a, mkMuxWorld (mw_node s) m).

(** The two requests of a [try_join!] run one after the other; the second is not waited for when the
    first fails. *)
Definition separate_tracers (provider : P) (tx_request : TransactionRequest) (block : Z)
  (profile : SimProfile) : Eff CallError (MuxWorld W) (DiffMode * CallFrame) :=
  diff ← on_node (get_prestate_diff_from_call_with_profile provider tx_request block profile);
  frame ← on_node (get_call_frame_from_call_with_profile provider tx_request block profile);
  mret (diff, frame).

(** What the mux request decides: the frames, or [None] to go on with the separate tracers. *)
Definition try_mux (provider : P) (tx_request : TransactionRequest) (block : Z)
  (profile : SimProfile) : Eff CallError (MuxWorld W) (option (DiffMode * CallFrame)) :=
  traces ← on_node (get_prestate_diff_and_call_frame_with_profile provider tx_request block profile);
  match traces with
  | MuxFrames frames => _ ← on_mux (λ _ m, (tt, answered m)); mret (Some frames)
  | MuxRejected reason payload =>
      if match payload with Some payload => is_evm_failure payload | None => false end then
        _ ← on_mux (λ _ m, (tt, answered m));
        eff_res (Err (CallFailed (mkEvmFailure ("muxTracer debug_trace_call failed: " +:+ reason))))
      else _ ← on_mux rejected; mret None
  | MuxUnsupported | MuxMalformed _ => _ ← on_mux (λ now m, (tt, pause now m)); mret None
  end.

Definition prestate_diff_and_call_frame (provider : P) (tx_request : TransactionRequest) (block : Z)
  (profile : SimProfile) : Eff CallError (MuxWorld W) (DiffMode * CallFrame) :=
  paused ← on_mux (λ now m, (is_paused now m, m));
  if (paused : bool) then separate_tracers provider tx_request block profile
  else
    muxed ← try_mux provider tx_request block profile;
    match muxed with
    | Some frames => mret frames
    | None => separate_tracers provider tx_request block profile
    end.

Definition try_prestate_net (provider : P) (tx_request : TransactionRequest) (block consumer : Z)
  (profile : SimProfile) : Eff CallError (MuxWorld W) (option (list StateUpdate)) :=
  '(diff, frame) ← prestate_diff_and_call_frame provider tx_request block profile;
  match frame_failure frame with
  | Some reason => eff_res (Err (CallFailed (mkEvmFailure reason)))
  | None =>
      mret match classify_prestate_eligibility frame diff consumer with
           | Eligible => Some (build_state_updates_from_prestate consumer diff frame)
           | Fallback _ => None
           end
  end.

(** The extractor of an encoding, on a trace. *)
Definition run_struct_log_encoder (encoding : StateEncoding) (trace : DefaultFrame) (consumer : Z)
  : Result (list StateUpdate * gset string * Z) :=
  match struct_log_encoder encoding with
  | LegacyLogs =>
      extract ← compute_state_updates trace None;
      Ok (te_state_updates extract, te_skipped_opcodes extract, te_call_gas_total extract)
  | CanonicalLogs => compute_state_updates_canonical trace consumer
  end.

Definition extract_struct_logs (provider : P) (tx_request : TransactionRequest) (block consumer : Z)
  (encoding : StateEncoding) (profile : SimProfile) (extraction : Extraction)
  : Eff ExtractError (MuxWorld W) Extracted :=
  trace ← eff_map_err XCall
    (on_node (get_trace_from_call_with_profile provider tx_request block profile));
  '(state_updates, skipped_opcodes, call_gas_total) ←
    eff_res (map_err XParse (run_struct_log_encoder encoding trace consumer));
  mret (mkExtracted state_updates skipped_opcodes call_gas_total extraction).

Definition extract_state_updates_hybrid (provider : P) (tx_request : TransactionRequest)
  (block consumer : Z) (encoding : StateEncoding) (profile : SimProfile)
  : Eff ExtractError (MuxWorld W) Extracted :=
  if signs_prestate_net encoding then
    net ← eff_map_err XCall (try_prestate_net provider tx_request block consumer profile);
    match net with
    | Some updates => mret (mkExtracted updates ∅ 0 XPrestateNet)
    | None =>
        extract_struct_logs provider tx_request block consumer encoding profile XPrestateFallback
    end
  else extract_struct_logs provider tx_request block consumer encoding profile XStructLog.
End extract.
