(* ===== verification/ExtractSpec.v ===== *)
(** * The extracted program depends on the call alone

    What two operators sign must not depend on their endpoints' wording, on which tracers an endpoint
    offers, or on what happened in earlier runs. On nodes that answer about the same chain, a run of
    [extract_state_updates_hybrid] returns the program a reference function computes from the call's
    trace, diff and frame, or fails with an error of its requests. *)

From S2P Require Import Prelude.
From S2P Require Import Types.
From S2P Require Import Instances.
From S2P Require Import Trace.
From S2P Require Import SimProfile.
From S2P Require Import Prestate.
From S2P Require Import Prune.
From S2P Require Import Effects.
From S2P Require Import Analyze.
From S2P Require Import Transport.
From S2P Require Import CallTrace.
From S2P Require Import Extract.

(** ** What the nodes' answers are about *)

(** The trace, the diff and the frame of each call at each block, under each block environment. *)
Record Truth := mkTruth {
  t_trace : TransactionRequest → Z → option BlockOverrides → DefaultFrame;
  t_diff : TransactionRequest → Z → option BlockOverrides → DiffMode;
  t_frame : TransactionRequest → Z → option BlockOverrides → CallFrame
}.

(** An answer of the requested shape is the truth; one of another shape says nothing. *)
Definition answer_true (T : Truth) (r : TransactionRequest) (b : Z) (ov : option BlockOverrides)
  (asked : TracingOptions) (answer : GethTrace) : Prop :=
  match asked, answer with
  | StructLogs _ _, GDefault t => t = t_trace T r b ov
  | PreStateTracer _, GPreStateDiff d => d = t_diff T r b ov
  | CallTracer _, GCall f => f = t_frame T r b ov
  | MuxTracer _, GMux frames =>
      Forall (λ nt, match nt with
        | (PreStateTracerName, GPreStateDiff d) => d = t_diff T r b ov
        | (CallTracerName, GCall f) => f = t_frame T r b ov
        | _ => True
        end) frames
  | _, _ => True
  end.

(** A mux request the endpoint rejects as a failure of the EVM. *)
Definition rejects_call `{Texts} (e : TransportError) : Prop :=
  ∃ reason payload, classify_mux_error e = Ok (MuxRejected reason (Some payload)) ∧
    is_evm_failure payload = true.

(** The options the code asks with. *)
Definition asked_options : list TracingOptions :=
  [struct_log_options; PreStateTracer prestate_diff_config; CallTracer call_with_log_config;
   mux_options].

(** An endpoint that answers about the chain, if at all. *)
Definition honest {P W} `{Texts, TraceNode P W} (T : Truth) (p : P) : Prop :=
  ∀ r b ov asked (w w' : W) res, asked ∈ asked_options →
    debug_trace_call p r b (mkCallOptions asked ov) w = (res, w') →
    res_sat (answer_true T r b ov asked)
      (λ e, asked = mux_options → rejects_call e → frame_failure (t_frame T r b ov) ≠ None) res.

(** ** The reference *)

(** The call as it is simulated. *)
Definition simulated (profile : SimProfile) (r : TransactionRequest)
  : TransactionRequest * option BlockOverrides :=
  (match tx_gas_limit_override profile with Some g => set_tr_gas (Some g) r | None => r end,
   (λ g, mkBlockOverrides (Some g)) <$> block_gas_limit_override profile).

Definition from_logs `{Externals} (trace : DefaultFrame) (encoding : StateEncoding) (consumer : Z)
  (x : Extraction) : option Extracted :=
  if df_failed trace then None
  else
    match run_struct_log_encoder encoding trace consumer with
    | Ok (updates, skipped, gas) => Some (mkExtracted updates skipped gas x)
    | _ => None
    end.

(** The program an encoding stands for. *)
Definition program_of `{Externals} (T : Truth) (encoding : StateEncoding) (profile : SimProfile)
  (r : TransactionRequest) (block consumer : Z) : option Extracted :=
  let '(r, ov) := simulated profile r in
  let trace := t_trace T r block ov in
  let diff := t_diff T r block ov in
  let frame := t_frame T r block ov in
  if signs_prestate_net encoding then
    if bool_decide (frame_failure frame = None) then
      match classify_prestate_eligibility frame diff consumer with
      | Eligible =>
          Some (mkExtracted (build_state_updates_from_prestate consumer diff frame) ∅ 0 XPrestateNet)
      | Fallback _ => from_logs trace encoding consumer XPrestateFallback
      end
    else None
  else from_logs trace encoding consumer XStructLog.

(** The errors of the requests, which say nothing of the call. *)
Definition request_failed (e : CallError) : Prop :=
  match e with CallFailed _ => False | _ => True end.

(** ** Proofs *)

(** A failed mux request gives no frames, and its errors are about the request. *)
Lemma classify_mux_error_cases `{Texts} e :
  res_sat (λ t, match t with MuxFrames _ => False | _ => True end) request_failed (classify_mux_error e).
Proof.
  unfold classify_mux_error. destruct e as [payload|status body|m]; cbn; [|destruct (is_answer_status _); cbn|];
    repeat first [done | case_match; cbn].
Qed.

Section extract_spec.
Context {P W : Type} `{Externals, Texts, TraceNode P W, Clock W}.
Variables (T : Truth) (p : P).
Hypothesis Hhonest : honest T p.

Section call.
Variables (profile : SimProfile) (r : TransactionRequest) (block : Z).

Let sim := simulated profile r.
Let trace := t_trace T sim.1 block sim.2.
Let diff := t_diff T sim.1 block sim.2.
Let frame := t_frame T sim.1 block sim.2.

Lemma send_true asked : asked ∈ asked_options →
  ensures (W := W) anywhere (send p r block profile asked)
    (answer_true T sim.1 block sim.2 asked)
    (λ e, asked = mux_options → rejects_call e → frame_failure frame ≠ None).
Proof.
  intros Hasked w res w' _ Hrun. split; [done|].
  assert (debug_trace_call p sim.1 block (mkCallOptions asked sim.2) w = (res, w')) as Hd.
  { subst sim. unfold send, simulated, apply_sim_profile in *. by destruct profile. }
  by eapply Hhonest.
Qed.

Lemma separate_true :
  ensures (W := MuxWorld W) anywhere (separate_tracers p r block profile)
    (λ q, q = (diff, frame)) request_failed.
Proof.
  unfold separate_tracers, get_prestate_diff_from_call_with_profile,
    get_call_frame_from_call_with_profile.
  eapply ensures_bind with (P := λ d, d = diff).
  - apply ensures_anywhere_zoom. eapply ensures_bind.
    + apply ensures_map_err. eapply ensures_weaken; [apply send_true|exact (λ a Ha, Ha)|done].
      right. left.
    + intros a Ha. destruct a; by apply ensures_res.
  - intros d ->. eapply ensures_bind with (P := λ f, f = frame).
    + apply ensures_anywhere_zoom. eapply ensures_bind.
      * apply ensures_map_err.
        eapply ensures_weaken; [apply send_true|exact (λ a Ha, Ha)|done].
        right. right. left.
      * intros a Ha. destruct a; by apply ensures_res.
    + intros f ->. by apply ensures_ret.
Qed.

Lemma remove_frame_elem n frames t rest :
  remove_frame n frames = (Some t, rest) →
  (n, t) ∈ frames ∧ ∀ x, x ∈ rest → x ∈ frames.
Proof.
  revert rest. induction frames as [|[m u] frames IH]; intros rest Hr; [done|].
  cbn [remove_frame] in Hr. case_bool_decide as Hm.
  - injection Hr as <- <-. subst m. split; [left|]. intros x Hx. by right.
  - destruct (remove_frame n frames) as [o l] eqn:Hl. injection Hr as -> <-.
    destruct (IH l eq_refl) as [Hin Hall]. split; [by right|].
    intros x [->|Hx]%elem_of_cons; [by left|right; auto].
Qed.

(** The frames a mux answer holds are those of the call. *)
Lemma split_true t q :
  answer_true T sim.1 block sim.2 mux_options t → split_prestate_and_call t = Ok q → q = (diff, frame).
Proof.
  destruct t as [ | | | |frames| ]; try done. cbn. intros Hall. rewrite Forall_forall in Hall.
  destruct (remove_frame PreStateTracerName frames) as [o l] eqn:Hd.
  destruct o as [[ | |d| | | ]|]; try done. cbn.
  destruct (remove_frame CallTracerName l) as [o l'] eqn:Hf.
  destruct o as [[ | | |f| | ]|]; try done. cbn. intros [= <-].
  apply remove_frame_elem in Hd as [Hd Hl]. apply remove_frame_elem in Hf as [Hf _].
  pose proof (Hall _ Hd) as Hd'. pose proof (Hall _ (Hl _ Hf)) as Hf'. cbn in Hd', Hf'.
  by rewrite Hd', Hf'.
Qed.

(** ** The mux changes nothing *)

Definition run_failed (e : CallError) : Prop :=
  match e with CallFailed _ => frame_failure frame ≠ None | _ => True end.

Lemma on_mux_true {E A} (f : Z → MuxSupport → A * MuxSupport) (F : E → Prop) :
  ensures (W := MuxWorld W) anywhere (on_mux f) (λ _, True) F.
Proof.
  intros s res s' _ Hrun. split; [done|]. unfold on_mux in Hrun. destruct (f _ _).
  by injection Hrun as <- <-.
Qed.

(** A step of [MuxSupport] on the way. *)
Lemma then_true {E A B} (f : Z → MuxSupport → A * MuxSupport) (m : Eff E (MuxWorld W) B) Q (F : E → Prop) :
  ensures anywhere m Q F → ensures anywhere (_ ← on_mux f; m) Q F.
Proof. intros Hm. eapply ensures_bind; [apply on_mux_true|]. by intros _ _. Qed.

Lemma mux_answer_true :
  ensures (W := W) anywhere (get_prestate_diff_and_call_frame_with_profile p r block profile)
    (λ t, match t with
      | MuxFrames q => q = (diff, frame)
      | MuxRejected _ (Some payload) => is_evm_failure payload = true → frame_failure frame ≠ None
      | _ => True
      end) request_failed.
Proof.
  unfold get_prestate_diff_and_call_frame_with_profile. eapply ensures_bind.
  - eapply ensures_try with
      (Q := λ a, match a with inl t => answer_true T sim.1 block sim.2 mux_options t
        | inr e => rejects_call e → frame_failure frame ≠ None end) (R := request_failed).
    + apply send_true. right. right. right. left.
    + by intros a Ha.
    + intros e He. by apply He.
  - intros [t|e] Ha.
    + apply ensures_ret. destruct (split_prestate_and_call t) eqn:Hs; [|done..].
      eapply split_true; [exact Ha|done].
    + apply ensures_res. pose proof (classify_mux_error_cases e) as Hc.
      destruct (classify_mux_error e) as [t|e'|] eqn:He; [|by destruct e'|done]. cbn in Hc |- *.
      destruct t as [| |reason [payload|]|]; try done.
      intros Hev. apply Ha. by exists reason, payload.
Qed.

Lemma mux_transparent :
  ensures (W := MuxWorld W) anywhere (prestate_diff_and_call_frame p r block profile)
    (λ q, q = (diff, frame)) run_failed.
Proof.
  assert (Hsep : ensures (W := MuxWorld W) anywhere (separate_tracers p r block profile)
    (λ q, q = (diff, frame)) run_failed).
  { eapply ensures_weaken; [apply separate_true|done|]. by intros []. }
  unfold prestate_diff_and_call_frame. eapply ensures_bind; [apply on_mux_true|].
  intros paused _. destruct paused; [done|].
  eapply ensures_bind with (P := λ o, ∀ q, o = Some q → q = (diff, frame)).
  - unfold try_mux. eapply ensures_bind.
    { apply ensures_anywhere_zoom. eapply ensures_weaken; [apply mux_answer_true| |].
      - intros a Ha. exact Ha.
      - by intros []. }
    intros [q| |reason payload|why] Ht.
    + apply then_true, ensures_ret. by intros ? [= <-].
    + apply then_true, ensures_ret. done.
    + destruct payload as [payload|].
      * destruct (is_evm_failure payload) eqn:Hev; apply then_true; [|by apply ensures_ret].
        apply ensures_res. by apply Ht.
      * apply then_true. by apply ensures_ret.
    + apply then_true, ensures_ret. done.
  - intros [q|] Hq; [|done]. apply ensures_ret. by apply Hq.
Qed.

(** ** The extraction *)

Lemma trace_true :
  ensures (W := W) anywhere (get_trace_from_call_with_profile p r block profile)
    (λ t, t = trace ∧ df_failed trace = false)
    (λ e, df_failed trace = true ∨ request_failed e).
Proof.
  unfold get_trace_from_call_with_profile. eapply ensures_bind.
  - apply ensures_map_err. eapply ensures_weaken; [apply send_true|exact (λ a Ha, Ha)|by right]. left.
  - intros a Ha. destruct a as [t| | | | | ]; try (apply ensures_res; by right).
    assert (t = trace) as -> by exact Ha.
    eapply ensures_bind with (P := λ _, df_failed trace = false).
    + apply ensures_res. unfold ensure_call_succeeded. destruct (df_failed trace); cbn; auto.
    + intros _ Hf. by apply ensures_ret.
Qed.

Lemma net_true consumer :
  ensures (W := MuxWorld W) anywhere (try_prestate_net p r block consumer profile)
    (λ o, frame_failure frame = None ∧
      o = match classify_prestate_eligibility frame diff consumer with
          | Eligible => Some (build_state_updates_from_prestate consumer diff frame)
          | Fallback _ => None
          end) run_failed.
Proof.
  unfold try_prestate_net. eapply ensures_bind; [apply mux_transparent|]. intros [d f] [= -> ->].
  destruct (frame_failure frame) eqn:Hf; [|by apply ensures_ret].
  apply ensures_res. cbn. by rewrite Hf.
Qed.

(** Errors of a run: the call has no program, or a request failed. *)
Definition no_program (program : option Extracted) (e : ExtractError) : Prop :=
  program = None ∨ ∃ e', e = XCall e' ∧ request_failed e'.

Lemma logs_true consumer encoding x :
  ensures (W := MuxWorld W) anywhere
    (extract_struct_logs p r block consumer encoding profile x)
    (λ y, from_logs trace encoding consumer x = Some y)
    (no_program (from_logs trace encoding consumer x)).
Proof.
  unfold extract_struct_logs, from_logs. eapply ensures_bind with (P := λ t, t = trace ∧ df_failed trace = false).
  - apply ensures_map_err, ensures_anywhere_zoom. eapply ensures_weaken; [apply trace_true|done|].
    intros e [Hf|He]; unfold no_program; cbn; [left; by rewrite Hf|right; eauto].
  - intros t [-> Hf]. rewrite Hf. eapply ensures_bind with
      (P := λ q, run_struct_log_encoder encoding trace consumer = Ok q).
    + apply ensures_res. destruct (run_struct_log_encoder _ _ _); cbn; [done| |done]. by left.
    + intros [[us sk] g] ->. by apply ensures_ret.
Qed.
End call.

Lemma extract_true profile r block consumer encoding :
  let program := program_of T encoding profile r block consumer in
  ensures (W := MuxWorld W) anywhere (extract_state_updates_hybrid p r block consumer encoding profile)
    (λ x, program = Some x) (no_program program).
Proof.
  unfold extract_state_updates_hybrid, program_of.
  pose proof (logs_true profile r block consumer encoding) as Hlogs. cbv zeta in Hlogs.
  destruct (simulated profile r) as [r' ov] eqn:Hsim. cbn [fst snd] in Hlogs.
  destruct (signs_prestate_net encoding); [|apply Hlogs].
  eapply ensures_bind.
  - apply ensures_map_err. eapply ensures_weaken; [apply net_true|exact (λ a Ha, Ha)|].
    intros e He. unfold run_failed in He. rewrite Hsim in He. unfold no_program.
    destruct e; try (right; by eexists). left. by rewrite bool_decide_eq_false_2.
  - intros o [Hf ->]. cbv zeta in *. rewrite Hsim in *. cbn [fst snd] in *.
    rewrite bool_decide_eq_true_2 by done.
    destruct (classify_prestate_eligibility _ _ _); [by apply ensures_ret|apply Hlogs].
Qed.

(** C4: Whatever the endpoint supports, however it words its refusals, and whatever was learnt of it in
    earlier runs, an extraction returns the program its encoding stands for or fails: the net form of
    an eligible call and the canonical program of any other under [PrestateNet], and the program of the
    encoding's own extractor otherwise. It fails only when the call has no program, because it failed in
    the EVM or its trace cannot be extracted, or on a failed request; a tracer error is never a change
    of representation. *)
Theorem extract_agrees profile r block consumer encoding (s : MuxWorld W) res s' :
  extract_state_updates_hybrid p r block consumer encoding profile s = (res, s') →
  let program := program_of T encoding profile r block consumer in
  res_sat (λ x, program = Some x) (no_program program) res.
Proof. intros Hrun. by destruct (extract_true profile r block consumer encoding s res s' I Hrun). Qed.
End extract_spec.

(** ** Witness *)

(** An endpoint without [muxTracer], and a call that stores one slot. *)
Definition sample_truth : Truth := {|
  t_trace _ _ _ := mkDefaultFrame false 0 [] [];
  t_diff _ _ _ := mkDiffMode {[10 := {[1 := 4]}]} {[10 := {[1 := 5]}]};
  t_frame _ _ _ := mkCallFrame "CALL" (Some 10) None None [] []
|}.

#[export] Instance sample_trace_node : TraceNode unit Z := {|
  debug_trace_call _ r b o w :=
    (match tco_tracing_options o with
     | StructLogs _ _ => Ok (GDefault (t_trace sample_truth r b (tco_block_overrides o)))
     | PreStateTracer _ => Ok (GPreStateDiff (t_diff sample_truth r b (tco_block_overrides o)))
     | CallTracer _ => Ok (GCall (t_frame sample_truth r b (tco_block_overrides o)))
     | MuxTracer _ => Err (ErrorResp (mkPayload (-32602) "unsupported tracer type"))
     end, w + 1)
|}.
#[export] Instance sample_clock : Clock Z := {| instant w := w |}.

Lemma sample_honest : honest (W := Z) sample_truth ().
Proof.
  intros r b ov asked w w' res Hasked. unfold debug_trace_call, sample_trace_node. cbn.
  destruct asked; intros [= <- <-]; cbn; try done.
  intros _ (reason & payload & Hc & _). vm_compute in Hc. discriminate Hc.
Qed.

Definition sample_request : TransactionRequest :=
  mkRequest None (Some (KCall 10)) None None None None.

Lemma extract_agrees_witness :
  ∃ x, (extract_state_updates_hybrid () sample_request 7 10 PrestateNet Unbounded
          (mkMuxWorld 0 (MuxSupport_default 0))).1 = Ok x ∧
    program_of sample_truth PrestateNet Unbounded sample_request 7 10 = Some x ∧
    ex_state_updates x = [UStore (mkStore 1 5)].
Proof.
  eexists. split; [vm_compute; reflexivity|]. split; [|reflexivity].
  apply (extract_agrees sample_truth () sample_honest Unbounded sample_request 7 10 PrestateNet
    (mkMuxWorld 0 (MuxSupport_default 0)) (Ok _)
    (extract_state_updates_hybrid () sample_request 7 10 PrestateNet Unbounded
       (mkMuxWorld 0 (MuxSupport_default 0))).2).
  vm_compute. reflexivity.
Defined.

(** ** When [muxTracer] is paused

    [MuxSupport] as a state machine over the history of what an endpoint answered: its counter is the
    number of rejections in a row modulo three, and it is paused exactly within the pause that follows
    a refusal or a third rejection. *)

(** What becomes of a mux request: the endpoint served it, rejected it, or showed it cannot serve it. *)
Inductive MuxEvent := Answered | Rejected | Refused.

Definition mux_step (now : Z) (ev : MuxEvent) (m : MuxSupport) : MuxSupport :=
  match ev with
  | Answered => answered m
  | Rejected => (rejected now m).2
  | Refused => pause now m
  end.

(** ** Every run is at most one event *)

Section runs.
Context {P W : Type} `{Texts, TraceNode P W, Clock W}.

Definition one_event (m m' : MuxSupport) : Prop := m' = m ∨ ∃ now ev, m' = mux_step now ev m.

Lemma on_node_mux {E A} (m : Eff E W A) s r s' : on_node m s = (r, s') → mw_mux s' = mw_mux s.
Proof. unfold on_node, zoom. destruct (m _). by intros [= <- <-]. Qed.

Lemma separate_tracers_mux (p : P) r b profile (s : MuxWorld W) x s' :
  separate_tracers p r b profile s = (x, s') → mw_mux s' = mw_mux s.
Proof.
  unfold separate_tracers. intros Hrun.
  apply eff_bind_run in Hrun as [(d & s1 & H3 & Hrun)|(x0 & H3 & _)]; apply on_node_mux in H3; [|done].
  apply eff_bind_run in Hrun as [(f & s2 & H4 & Hrun)|(x0 & H4 & _)]; apply on_node_mux in H4;
    [injection Hrun as <- <-|]; congruence.
Qed.

Lemma try_mux_event (p : P) r b profile (s : MuxWorld W) x s' :
  try_mux p r b profile s = (x, s') → one_event (mw_mux s) (mw_mux s').
Proof.
  unfold try_mux. intros Hrun.
  apply eff_bind_run in Hrun as [(t & s1 & H3 & Hrun)|(x0 & H3 & _)]; apply on_node_mux in H3;
    rewrite <-H3; [|by left]. right. exists (instant (mw_node s1)).
  unfold mbind, eff_bind, on_mux in Hrun.
  destruct t as [q| |reason payload|why].
  - injection Hrun as <- <-. by exists Answered.
  - injection Hrun as <- <-. by exists Refused.
  - destruct (match payload with Some payload => is_evm_failure payload | None => false end).
    + injection Hrun as <- <-. by exists Answered.
    + destruct (rejected _ _) as [b' m] eqn:Hr. injection Hrun as <- <-. exists Rejected. cbn. by rewrite Hr.
  - injection Hrun as <- <-. by exists Refused.
Qed.

Lemma prestate_run_event (p : P) r b profile (s : MuxWorld W) x s' :
  prestate_diff_and_call_frame p r b profile s = (x, s') → one_event (mw_mux s) (mw_mux s').
Proof.
  unfold prestate_diff_and_call_frame. intros Hrun.
  apply eff_bind_run in Hrun as [(t & s1 & H3 & Hrun)|(x0 & H3 & Hf & _)];
    unfold on_mux in H3; injection H3 as <- <-; [|done]. destruct s as [w m]. cbn in *.
  destruct (is_paused _ _); [left; by apply separate_tracers_mux in Hrun|].
  apply eff_bind_run in Hrun as [(o & s2 & Hm & Hrun)|(x0 & Hm & _)]; apply try_mux_event in Hm;
    [|done]. destruct o; [by injection Hrun as <- <-|].
  apply separate_tracers_mux in Hrun. by rewrite Hrun.
Qed.
End runs.

(** ** Histories *)

(** Newest first: the events of an endpoint and their instants. *)
Abbreviation History := (list (Z * MuxEvent)).

Section history.
Variables (pause_ms epoch : Z).
Hypothesis Hpause : 0 < pause_ms <= u64_max.

Definition mux_after (h : History) : MuxSupport :=
  foldr (λ e m, mux_step e.1 e.2 m) (with_pause pause_ms epoch) h.

(** Rejections in a row. *)
Fixpoint streak (h : History) : nat :=
  match h with (_, Rejected) :: h => S (streak h) | _ => 0 end.

(** The newest event pauses: a refusal, or every third rejection in a row. *)
Definition pauses (h : History) : Prop :=
  match h with
  | (_, Refused) :: _ => True
  | (_, Rejected) :: _ => (streak h mod 3 = 0)%nat
  | _ => False
  end.

#[local] Instance pauses_dec h : Decision (pauses h).
Proof. destruct h as [|[? []] ?]; apply _. Defined.

(** Milliseconds since the epoch. *)
Definition elapsed_ms (now : Z) : Z := now_ms now (with_pause pause_ms epoch).

Fixpoint paused_until (h : History) : Z :=
  match h with
  | [] => 0
  | (t, _) :: h' => if decide (pauses h) then sat_add (elapsed_ms t) pause_ms else paused_until h'
  end.

Lemma streak_mod_S n : (S n mod 3 = if decide (n mod 3 = 2) then 0 else S (n mod 3))%nat.
Proof.
  pose proof (Nat.div_mod_eq n 3). pose proof (Nat.mod_upper_bound n 3 ltac:(done)).
  pose proof (Nat.div_mod_eq (S n) 3). pose proof (Nat.mod_upper_bound (S n) 3 ltac:(done)).
  case_decide; lia.
Qed.

(** The counter counts the current streak, and never reaches three. *)
Lemma mux_after_state h :
  mux_after h = mkMuxSupport pause_ms epoch (paused_until h) (Z.of_nat (streak h mod 3)).
Proof.
  induction h as [|[t ev] h IH]; [done|].
  assert (mux_after ((t, ev) :: h) = mux_step t ev (mux_after h)) as -> by done. rewrite IH. clear IH.
  assert (Hmin : Z.min u64_max pause_ms = pause_ms) by lia.
  pose proof (Nat.mod_upper_bound (streak h) 3 ltac:(done)). pose proof (streak_mod_S (streak h)).
  destruct ev; cbn [mux_step streak paused_until];
    destruct (decide (pauses _)) as [Hp|Hp]; cbn [pauses streak] in Hp; try done.
  - unfold rejected, MUX_REJECTIONS_BEFORE_PAUSE. cbn [ms_rejections ms_pause ms_epoch ms_paused_until_ms].
    rewrite Z.mod_small, (proj2 (Z.leb_le _ _)) by (case_decide; lia).
    unfold pause. cbn [snd ms_pause ms_epoch]. by rewrite Hmin, Hp.
  - unfold rejected, MUX_REJECTIONS_BEFORE_PAUSE. cbn [ms_rejections ms_pause ms_epoch ms_paused_until_ms].
    rewrite Z.mod_small, (proj2 (Z.leb_gt _ _)) by (case_decide; lia).
    cbn [snd]. f_equal. case_decide; lia.
  - unfold pause. cbn [ms_pause ms_epoch]. by rewrite Hmin.
Qed.

(** Instants do not go back. *)
Definition in_order (h : History) : Prop := StronglySorted (λ a b, b.1 <= a.1) h.

Lemma elapsed_mono a b : a <= b → elapsed_ms a <= elapsed_ms b.
Proof.
  intros Hab. unfold elapsed_ms, now_ms. cbn.
  pose proof (Z.div_le_mono (Z.max 0 (a - epoch)) (Z.max 0 (b - epoch)) 1000000). lia.
Qed.

(** [paused_until] is the latest end of a pause. *)
Lemma paused_until_spec h now : in_order h → Forall (λ e, e.1 <= now) h → 
  elapsed_ms now < paused_until h ↔
  ∃ later t ev earlier, h = later ++ (t, ev) :: earlier ∧ pauses ((t, ev) :: earlier) ∧
    elapsed_ms now < sat_add (elapsed_ms t) pause_ms.
Proof.
  assert (H0 : 0 <= elapsed_ms now).
  { unfold elapsed_ms, now_ms. cbn. pose proof (Z.div_pos (Z.max 0 (now - epoch)) 1000000).
    unfold u64_max. lia. }
  intros Hord. induction Hord as [|[t ev] h Hord IH Hle]; intros Hnow; cbn [paused_until].
  { split; [lia|]. by intros ([|? ?] & ? & ? & ? & ? & _). }
  apply Forall_cons in Hnow as [Ht Hnow]. cbn in Ht. specialize (IH Hnow).
  destruct (decide (pauses ((t, ev) :: h))) as [Hp|Hp].
  - split; [intros Hlt; by exists [], t, ev, h|].
    intros ([|e later] & t' & ev' & earlier & Heq & Hp' & Hlt).
    { by injection Heq as <- <- <-. }
    injection Heq as <- ->. rewrite Forall_forall in Hle.
    specialize (Hle (t', ev') ltac:(apply elem_of_app; right; left)). cbn in Hle.
    apply elapsed_mono in Hle. unfold sat_add in *. lia.
  - rewrite IH. split.
    + intros (later & t' & ev' & earlier & -> & Hrest). by exists ((t, ev) :: later), t', ev', earlier.
    + intros ([|e later] & t' & ev' & earlier & Heq & Hp' & Hlt).
      { by injection Heq as <- <- <-. }
      injection Heq as <- ->. by exists later, t', ev', earlier.
Qed.

(** After any history of answers, [muxTracer] is paused exactly when a pausing event (a refusal, or a
    third, sixth, ... rejection in a row) lies less than the pause behind, in whole milliseconds; and
    the counter of rejections stays below three. *)
Theorem mux_paused_iff h now :
  in_order h → Forall (λ e, e.1 <= now) h →
  0 <= ms_rejections (mux_after h) < MUX_REJECTIONS_BEFORE_PAUSE ∧
  (is_paused now (mux_after h) = true ↔
   ∃ later t ev earlier, h = later ++ (t, ev) :: earlier ∧ pauses ((t, ev) :: earlier) ∧
     elapsed_ms now < sat_add (elapsed_ms t) pause_ms).
Proof.
  intros Hord Hnow. rewrite mux_after_state. split.
  - cbn. pose proof (Nat.mod_upper_bound (streak h) 3). unfold MUX_REJECTIONS_BEFORE_PAUSE. lia.
  - rewrite <-paused_until_spec by done. unfold is_paused, now_ms. cbn. apply Z.ltb_lt.
Qed.
End history.

(** Two rejections, an answer, three rejections: paused for an hour from the last. *)
Lemma mux_paused_iff_witness :
  is_paused 5000000000 (mux_after MUX_PAUSE 0
    [(4000000000, Rejected); (3000000000, Rejected); (2000000000, Rejected); (1000000000, Answered);
     (0, Rejected); (0, Rejected)]) = true.
Proof.
  apply mux_paused_iff.
  - split; vm_compute; [reflexivity|discriminate].
  - repeat constructor; cbn; lia.
  - repeat constructor; cbn; lia.
  - exists [], 4000000000, Rejected. eexists. split; [reflexivity|]. split; vm_compute; reflexivity.
Defined.
