(* ===== verification/Executor.v ===== *)
(** * The executor of a block

    The executor of [crates/evmsketch/src/lib.rs]: the chains it knows, its builder, the cache of
    executors and of what is known of each endpoint, the environment of a block, and the gas estimates
    on the state before the block, with hinted slots prefetched or with the preceding transactions of
    the block replayed ([crates/gas-estimator/src/lib.rs]). The sketch builder, the LRU cache and revm
    are operations of classes. *)

From S2P Require Import Prelude.
From S2P Require Import Types.
From S2P Require Import Encoding.
From S2P Require Import Trace.
From S2P Require Import Heuristic.
From S2P Require Import Prune.
From S2P Require Import Estimator.
From S2P Require Import Analyze.
From S2P Require Import Transport.
From S2P Require Import RpcDb.
From S2P Require Import CallTrace.
From S2P Require Import Extract.

(** ** The chains *)

Definition MAINNET_CHAIN_ID : Z := 1.
Definition SEPOLIA_CHAIN_ID : Z := 11155111.
Definition GNOSIS_CHAIN_ID : Z := 100.

(** [ChainConfig], the fields the code sets. *)
Record ChainConfig := mkChainConfig {
  cc_chain_id : Z;
  cc_homestead_block : option Z;
  cc_eip150_block : option Z;
  cc_eip155_block : option Z;
  cc_eip158_block : option Z;
  cc_byzantium_block : option Z;
  cc_constantinople_block : option Z;
  cc_petersburg_block : option Z;
  cc_istanbul_block : option Z;
  cc_berlin_block : option Z;
  cc_london_block : option Z;
  cc_shanghai_time : option Z;
  cc_cancun_time : option Z;
  cc_prague_time : option Z
}.

Inductive EthereumHardfork :=
  | Frontier | Homestead | Tangerine | SpuriousDragon | Byzantium | Constantinople | Petersburg
  | Istanbul | Berlin | London | Shanghai | Cancun | Prague.
Inductive ForkCondition := ForkBlock (n : Z) | ForkTimestamp (t : Z).

Inductive Genesis := GenesisMainnet | GenesisSepolia | GenesisCustom (config : ChainConfig).
Inductive Hardforks :=
  | HardforksMainnet
  | HardforksSepolia
  | HardforksNew (forks : list (EthereumHardfork * ForkCondition)).

Definition gnosis_chain_config : ChainConfig := {|
  cc_chain_id := GNOSIS_CHAIN_ID;
  cc_homestead_block := Some 0;
  cc_eip150_block := Some 0;
  cc_eip155_block := Some 0;
  cc_eip158_block := Some 0;
  cc_byzantium_block := Some 0;
  cc_constantinople_block := Some 0;
  cc_petersburg_block := Some 0;
  cc_istanbul_block := Some 0;
  cc_berlin_block := Some 16101500;
  cc_london_block := Some 19040000;
  cc_shanghai_time := Some 1690889660;
  cc_cancun_time := Some 1710181820;
  cc_prague_time := Some 1746021820
|}.

Definition gnosis_hardforks : Hardforks := HardforksNew [
  (Frontier, ForkBlock 0); (Homestead, ForkBlock 0); (Tangerine, ForkBlock 0);
  (SpuriousDragon, ForkBlock 0); (Byzantium, ForkBlock 0); (Constantinople, ForkBlock 0);
  (Petersburg, ForkBlock 0); (Istanbul, ForkBlock 0); (Berlin, ForkBlock 16101500);
  (London, ForkBlock 19040000); (Shanghai, ForkTimestamp 1690889660);
  (Cancun, ForkTimestamp 1710181820); (Prague, ForkTimestamp 1746021820)].

Definition chain_id_to_genesis_and_spec (chain_id : Z) : option (Genesis * Hardforks) :=
  if chain_id =? MAINNET_CHAIN_ID then Some (GenesisMainnet, HardforksMainnet)
  else if chain_id =? SEPOLIA_CHAIN_ID then Some (GenesisSepolia, HardforksSepolia)
  else if chain_id =? GNOSIS_CHAIN_ID then Some (GenesisCustom gnosis_chain_config, gnosis_hardforks)
  else None.

(** ** Contract inputs *)

Inductive ContractCalldata := CalldataCall (data : list Z) | CalldataCreate (data : list Z).
Record ContractInput := mkContractInput {
  ci_contract_address : Z;
  ci_caller_address : Z;
  ci_calldata : ContractCalldata
}.

(** [None]: "Transaction must have a 'to' address". *)
Definition tx_request_to_contract_input (tx_request : TransactionRequest) : option ContractInput :=
  contract_address ← match tr_to tx_request with
                     | Some (KCall addr) => Some addr
                     | Some KCreate => Some 0
                     | None => None
                     end;
  let caller_address := default 0 (tr_from tx_request) in
  let calldata := default [] (tr_input tx_request) in
  Some (mkContractInput contract_address caller_address
          (match tr_to tx_request with
           | Some KCreate => CalldataCreate calldata
           | _ => CalldataCall calldata
           end)).

(** ** Executors *)

(** The anchored block's header: the fields the code reads. *)
Record Header := mkHeader {
  hd_number : Z;
  hd_timestamp : Z;
  hd_gas_limit : Z;
  hd_beneficiary : Z;
  hd_mix_hash : Z;
  hd_base_fee_per_gas : option Z;
  hd_difficulty : Z
}.

Record EvmSketch (P : Type) := mkEvmSketch { sk_provider : P; sk_header : Header; sk_hash : Z }.
Arguments mkEvmSketch {P}.
Arguments sk_provider {P}.
Arguments sk_header {P}.
Arguments sk_hash {P}.

Record EvmSketchExecutor (P : Type) := mkExecutor {
  xe_sketch : EvmSketch P;
  xe_chain_id : Z;
  xe_spec : Z
}.
Arguments mkExecutor {P}.
Arguments xe_sketch {P}.
Arguments xe_chain_id {P}.
Arguments xe_spec {P}.

Inductive BlockTag := TagLatest | TagNumber (n : Z).

Inductive ExecutorError :=
  | InvalidRpcUrl (* "Invalid RPC URL: {}" *)
  | NoRpcUrl (* "RPC URL is required" *)
  | ChainIdFailed (e : TransportError) (* "Failed to query eth_chainId: {}" *)
  | UnsupportedChain (chain_id : Z) (* "unsupported chain id {other}: ..." *)
  | SketchFailed (e : string). (* "Failed to build EvmSketch: {}" *)

(** [Url::parse] with [RootProvider::new_http]; the sketch builder; [alloy_evm::spec]. *)
Class SketchBuilder (P W : Type) := {
  new_http : string → option P;
  get_chain_id : P → Eff TransportError W Z;
  build_evm_sketch : P → BlockTag → Genesis → Eff string W (EvmSketch P);
  evm_spec : Hardforks → Header → Z
}.

Record ExecutorBuilder (P : Type) := mkBuilder {
  eb_rpc_url : option P;
  eb_block : BlockTag;
  eb_chain_id : option Z
}.
Arguments mkBuilder {P}.
Arguments eb_rpc_url {P}.
Arguments eb_block {P}.
Arguments eb_chain_id {P}.

Section builder.
Context {P W : Type} `{SketchBuilder P W}.

Definition builder_new : ExecutorBuilder P := mkBuilder None TagLatest None.
Definition rpc_url (url : P) (b : ExecutorBuilder P) : ExecutorBuilder P :=
  mkBuilder (Some url) (eb_block b) (eb_chain_id b).
Definition at_block (block : BlockTag) (b : ExecutorBuilder P) : ExecutorBuilder P :=
  mkBuilder (eb_rpc_url b) block (eb_chain_id b).
Definition with_chain_id (chain_id : Z) (b : ExecutorBuilder P) : ExecutorBuilder P :=
  mkBuilder (eb_rpc_url b) (eb_block b) (Some chain_id).

Definition build (b : ExecutorBuilder P) : Eff ExecutorError W (EvmSketchExecutor P) :=
  rpc_url ← eff_res (ok_or (eb_rpc_url b) NoRpcUrl);
  chain_id ←
    match eb_chain_id b with
    | Some id => mret id
    | None => eff_map_err ChainIdFailed (get_chain_id rpc_url)
    end;
  '(genesis, hardforks) ←
    eff_res (ok_or (chain_id_to_genesis_and_spec chain_id) (UnsupportedChain chain_id));
  sketch ← eff_map_err SketchFailed (build_evm_sketch rpc_url (eb_block b) genesis);
  mret (mkExecutor sketch chain_id (evm_spec hardforks (sk_header sketch))).

(** [GasKillerEvmSketchBuilder::build]. *)
Definition gas_killer_build (url : P) (block : BlockTag) : Eff ExecutorError W (EvmSketchExecutor P) :=
  build (at_block block (rpc_url url builder_new)).
End builder.

Section executor.
Context {P : Type}.

Definition anchor_block_number (e : EvmSketchExecutor P) : Z := hd_number (sk_header (xe_sketch e)).
Definition anchor_block_hash (e : EvmSketchExecutor P) : Z := sk_hash (xe_sketch e).

Record SimEnvOpts := mkSimEnv {
  se_number : Z;
  se_timestamp : Z;
  se_gas_limit : Z;
  se_coinbase : Z;
  se_prevrandao : Z;
  se_gas_price : Z;
  se_basefee : Z;
  se_difficulty : Z;
  se_spec : Z;
  se_value : Z
}.

Definition sim_env (e : EvmSketchExecutor P) : SimEnvOpts :=
  let header := sk_header (xe_sketch e) in
  mkSimEnv (hd_number header) (hd_timestamp header) (hd_gas_limit header) (hd_beneficiary header)
    (hd_mix_hash header) 0 (default 0 (hd_base_fee_per_gas header)) (hd_difficulty header)
    (xe_spec e) 0.

Definition set_value_and_price (value gas_price : Z) (env : SimEnvOpts) : SimEnvOpts :=
  mkSimEnv (se_number env) (se_timestamp env) (se_gas_limit env) (se_coinbase env)
    (se_prevrandao env) gas_price (se_basefee env) (se_difficulty env) (se_spec env) value.
End executor.

(** ** The cache *)

(** [lru::LruCache] of executors: [get] moves an entry, [put] may evict others. *)
Class Lru (L K V : Type) := {
  lru_peek : L → K → option V;
  lru_get : L → K → option V * L;
  lru_put : L → K → V → L
}.

Record ExecutorCache (P L : Type) := mkCache {
  ec_inner : L;
  ec_chain_ids : gmap string Z;
  ec_trace_providers : gmap string P;
  ec_mux_support : gmap string MuxSupport
}.
Arguments mkCache {P L}.
Arguments ec_inner {P L}.
Arguments ec_chain_ids {P L}.
Arguments ec_trace_providers {P L}.
Arguments ec_mux_support {P L}.

(** The nodes and the process' cache. *)
Record App (P L W : Type) := mkApp { app_node : W; app_cache : ExecutorCache P L }.
Arguments mkApp {P L W}.
Arguments app_node {P L W}.
Arguments app_cache {P L W}.

Section cache.
Context {P L W : Type} `{SketchBuilder P W, Lru L (string * Z) (EvmSketchExecutor P), Clock W}.
Abbreviation Run E A := (Eff E (App P L W) A).

Definition on_net {E A} (m : Eff E W A) : Run E A := zoom app_node (λ w s, mkApp w (app_cache s)) m.

Definition get_or_create_trace_provider (rpc_url : string) : Run ExecutorError P := λ s,
  let 'mkCache inner chain_ids trace_providers mux := app_cache s in
  match trace_providers !! rpc_url with
  | Some p => (Ok p, s)
  | None =>
      match new_http rpc_url with
      | Some provider =>
          (Ok provider,
           mkApp (app_node s) (mkCache inner chain_ids (<[rpc_url := provider]> trace_providers) mux))
      | None => (Err InvalidRpcUrl, s)
      end
  end.

(** [mux_support(rpc_url)], which every request to the endpoint shares, handed to [m]. *)
Definition with_mux_support {E A} (rpc_url : string) (m : Eff E (MuxWorld W) A) : Run E A := λ s,
  let 'mkCache inner chain_ids trace_providers mux := app_cache s in
  let support := default (MuxSupport_default (instant (app_node s))) (mux !! rpc_url) in
  let '(r, s') := m (mkMuxWorld (app_node s) support) in
  (r, mkApp (mw_node s')
        (mkCache inner chain_ids trace_providers (<[rpc_url := mw_mux s']> mux))).

Definition lookup_executor (key : string * Z) : Run ExecutorError (option (EvmSketchExecutor P)) := λ s,
  let 'mkCache inner chain_ids trace_providers mux := app_cache s in
  let '(o, inner) := lru_get inner key in
  (Ok o, mkApp (app_node s) (mkCache inner chain_ids trace_providers mux)).

Definition put_executor (key : string * Z) (e : EvmSketchExecutor P) : Run ExecutorError unit := λ s,
  let 'mkCache inner chain_ids trace_providers mux := app_cache s in
  (Ok tt, mkApp (app_node s) (mkCache (lru_put inner key e) chain_ids trace_providers mux)).

Definition known_chain_id (rpc_url : string) : Run ExecutorError (option Z) := λ s,
  (Ok (ec_chain_ids (app_cache s) !! rpc_url), s).

Definition put_chain_id (rpc_url : string) (id : Z) : Run ExecutorError unit := λ s,
  let 'mkCache inner chain_ids trace_providers mux := app_cache s in
  (Ok tt, mkApp (app_node s) (mkCache inner (<[rpc_url := id]> chain_ids) trace_providers mux)).

Definition chain_id_for (rpc_url : string) (url : P) : Run ExecutorError Z :=
  chain_id ← known_chain_id rpc_url;
  match chain_id with
  | Some id => mret id
  | None =>
      id ← on_net (eff_map_err ChainIdFailed (get_chain_id url));
      _ ← put_chain_id rpc_url id;
      mret id
  end.

(** [get_or_build_timed], without the time: the executor, and whether it was cached. *)
Definition get_or_build_timed (rpc_url : string) (block_number : Z)
  : Run ExecutorError (EvmSketchExecutor P * bool) :=
  let key := (rpc_url, block_number) in
  cached ← lookup_executor key;
  match cached with
  | Some exec => mret (exec, true)
  | None =>
      url ← eff_res (ok_or (new_http rpc_url) InvalidRpcUrl);
      chain_id ← chain_id_for rpc_url url;
      exec ← on_net (build (at_block (TagNumber block_number)
                              (with_chain_id chain_id (Executor.rpc_url url builder_new))));
      _ ← put_executor key exec;
      mret (exec, false)
  end.

Definition get_or_build (rpc_url : string) (block_number : Z)
  : Run ExecutorError (EvmSketchExecutor P) :=
  '(executor, _) ← get_or_build_timed rpc_url block_number; mret executor.
End cache.

(** [EvmSketchExecutorCache::new]. *)
Definition cache_new {P L} (lru_new : L) : ExecutorCache P L := mkCache lru_new ∅ ∅ ∅.
