(* ===== verification/Estimates.v ===== *)
(** * Gas estimates on the state before a block

    The estimates of [crates/evmsketch/src/lib.rs]: a fresh [CacheDB] over the state at the end of the
    block before the anchor, hinted slots prefetched into it or the preceding transactions of the block
    replayed on it ([replay_preceding_transactions] of [crates/gas-estimator/src/lib.rs]), and the run
    of [Estimator]. *)

From S2P Require Import Prelude.
From S2P Require Import Types.
From S2P Require Import Encoding.
From S2P Require Import Trace.
From S2P Require Import Heuristic.
From S2P Require Import Prune.
From S2P Require Import Estimator.
From S2P Require Import Analyze.
From S2P Require Import Transport.
From S2P Require Import RpcDb.
From S2P Require Import Executor.

Abbreviation Hints := (gmap Z (list Z)).

(** [hints.entry(address).or_default().extend(keys)]. *)
Definition extend_hints (hints : Hints) (item : Z * list Z) : Hints :=
  <[item.1 := default [] (hints !! item.1) ++ item.2]> hints.

Definition hints_from_update (contract_address : Z) (hints : Hints) (update : StateUpdate) : Hints :=
  match update with
  | UStore s => extend_hints hints (contract_address, [store_slot s])
  | UCall c => extend_hints hints (call_target c, [])
  | _ => hints
  end.

Definition hints_from_state_updates (contract_address : Z) (state_updates : list StateUpdate) : Hints :=
  fold_left (hints_from_update contract_address) state_updates
    (extend_hints ∅ (contract_address, [])).

(** The hints of an access list, addresses without keys included. *)
Definition hints_from_access_list (items : list (Z * list Z)) : Hints :=
  fold_left extend_hints items ∅.

(** Those of the preceding transactions, which skip them. *)
Definition hints_from_preceding (preceding_txs : list PrecedingTx) : Hints :=
  fold_left (λ hints tx,
    fold_left (λ hints item,
      if (length item.2 =? 0)%nat then hints else extend_hints hints item)
      (pt_access_list tx) hints)
    preceding_txs ∅.

(** ** revm over the database *)

(** [TxEnv::builder] and [transact_commit], for a preceding transaction. *)
Class Replay (DB : Type) := {
  TxEnv : Type;
  build_tx_env : PrecedingTx → option TxEnv;
  transact_commit : DB → TxEnv → option (ExecutionResult * DB)
}.

(** What runs over the JSON-RPC database of an endpoint at a block, in an environment. *)
Class Runtime (P W C : Type) := {
  state_node : P → StateNode W;
  empty_cache : C;
  revm_at : P → Z → SimEnvOpts → Revm (DbWorld W C);
  replay_at : P → Z → SimEnvOpts → Replay (DbWorld W C);
  (** The order the tasks of a prefetch complete in. *)
  completion : Hints → list (Z * list Z);
  (** The embedded estimator's code, and the place of [OSAKA] among the specs. *)
  estimator_code : list Z;
  osaka : Z
}.

Inductive EstimateError :=
  | PrefetchFailed (e : DbError)             (* "storage slot prefetch failed" *)
  | RunFailed (e : Error)
  | BuildTxFailed (i : nat)                  (* "Failed to build tx env for preceding tx {}" *)
  | ReplayFailed (i : nat).                  (* "Failed to replay preceding tx {}" *)

(** ** Replaying *)

Section replay.
Context {DB : Type} `{Replay DB}.

Fixpoint replay_from (i : nat) (db : DB) (preceding_txs : list PrecedingTx)
  : Res EstimateError (list ExecutionResult * DB) :=
  match preceding_txs with
  | [] => Ok ([], db)
  | tx :: txs =>
      revm_tx ← ok_or (build_tx_env tx) (BuildTxFailed i);
      '(result, db) ← ok_or (transact_commit db revm_tx) (ReplayFailed i);
      '(results, db) ← replay_from (S i) db txs;
      Ok (result :: results, db)
  end.

Definition replay_preceding_transactions (db : DB) (preceding_txs : list PrecedingTx)
  : Res EstimateError (list ExecutionResult * DB) := replay_from 0 db preceding_txs.
End replay.

Section estimates.
Context {P W C : Type} `{Externals, DynAbi, Texts, CacheDB C, Runtime P W C}.
Abbreviation Db E A := (Eff E (DbWorld W C) A).

(** [anchor_block_number().saturating_sub(1)]. *)
Definition state_block (e : EvmSketchExecutor P) : Z := sat_sub (anchor_block_number e) 1.

(** A fresh cache over [SimpleRpcDb::new(provider, state_block)]. *)
Definition with_db {A} (m : Db EstimateError A) : Eff EstimateError W A := λ w,
  let '(r, db) := m (mkDbWorld w true empty_cache) in (r, dw_node db).

(** A run of revm on the database. *)
Definition on_db {E A} (run : DbWorld W C → Res E (A * DbWorld W C)) : Db E A := λ db,
  match run db with
  | Ok (a, db) => (Ok a, db)
  | Err e => (Err e, db)
  | Panic p => (Panic p, db)
  end.

Definition prefetch (e : EvmSketchExecutor P) (hints : Hints) : Db EstimateError unit :=
  eff_map_err PrefetchFailed
    (prefetch_slots_into_cache (H0 := state_node (sk_provider (xe_sketch e))) (state_block e)
       (completion hints)).

(** [gas_analyzer_estimator::estimate_state_changes_gas]. *)
Definition price_updates (e : EvmSketchExecutor P) (env : SimEnvOpts)
  (contract_address caller_address : Z) (state_updates : list StateUpdate) : Db EstimateError Z :=
  eff_map_err RunFailed (on_db (λ db,
    estimate_state_changes_gas (H1 := revm_at (sk_provider (xe_sketch e)) (state_block e) env)
      estimator_code osaka (se_gas_limit env) (se_spec env) db contract_address caller_address
      state_updates (se_value env))).

(** [gas_analyzer_estimator::estimate_frame_tree_gas]. *)
Definition price_frames (e : EvmSketchExecutor P) (env : SimEnvOpts) (frames : list FrameProgram)
  (caller_address root_value : Z) : Db EstimateError (list Z) :=
  eff_map_err RunFailed (on_db (λ db,
    '(db, gas) ← estimate_frame_tree_gas
      (H1 := revm_at (sk_provider (xe_sketch e)) (state_block e) env)
      estimator_code osaka (se_gas_limit env) (se_spec env) frames caller_address db root_value;
    Ok (gas, db))).

(** ** [DefaultEvmSketchExecutor] *)

Definition estimate_state_changes_gas_raw (e : EvmSketchExecutor P)
  (contract_address caller_address : Z) (calldata : list Z) (gas_price : Z)
  : Eff EstimateError W Z :=
  let env := set_value_and_price 0 gas_price (sim_env e) in
  with_db (eff_map_err RunFailed (on_db (λ db,
    estimate_gas_raw (H1 := revm_at (sk_provider (xe_sketch e)) (state_block e) env)
      estimator_code osaka (se_gas_limit env) (se_spec env) db contract_address caller_address
      calldata (se_value env)))).

(** [DefaultEvmSketchExecutor::estimate_state_changes_gas], and [GasKillerEvmSketch]'s. *)
Definition executor_estimate_state_changes_gas (e : EvmSketchExecutor P)
  (contract_address caller_address : Z) (state_updates : list StateUpdate) : Eff EstimateError W Z :=
  with_db (price_updates e (sim_env e) contract_address caller_address state_updates).

(** [estimate_state_changes_gas_with_hints_timed], without its timings. *)
Definition estimate_state_changes_gas_with_hints (e : EvmSketchExecutor P)
  (contract_address caller_address : Z) (state_updates : list StateUpdate) (storage_hints : Hints)
  (value : Z) : Eff EstimateError W Z :=
  with_db (_ ← prefetch e storage_hints;
           price_updates e (set_value_and_price value 0 (sim_env e)) contract_address caller_address
             state_updates).

(** [estimate_frame_tree_gas_with_hints_timed], without its timings. *)
Definition estimate_frame_tree_gas_with_hints (e : EvmSketchExecutor P) (frames : list FrameProgram)
  (caller_address : Z) (storage_hints : Hints) (value : Z) : Eff EstimateError W (list Z) :=
  with_db (_ ← prefetch e storage_hints;
           price_frames e (set_value_and_price value 0 (sim_env e)) frames caller_address value).

(** ** [GasKillerEvmSketchDefault] *)

Definition original_env (e : EvmSketchExecutor P) (original : OriginalTx) : SimEnvOpts :=
  set_value_and_price (ot_value original) (ot_gas_price original) (sim_env e).

(** [state_after_preceding], on a fresh database. *)
Definition state_after_preceding (e : EvmSketchExecutor P) (preceding_txs : list PrecedingTx)
  (original : OriginalTx) : Db EstimateError unit :=
  if (length preceding_txs =? 0)%nat then mret tt
  else
    let hints := hints_from_preceding preceding_txs in
    _ ← if bool_decide (hints = ∅) then mret tt else prefetch e hints;
    _ ← on_db (λ db, replay_preceding_transactions
      (H := replay_at (sk_provider (xe_sketch e)) (state_block e) (original_env e original))
      db preceding_txs);
    mret tt.

Definition estimate_gas_with_preceding (e : EvmSketchExecutor P)
  (contract_address caller_address : Z) (state_updates : list StateUpdate)
  (preceding_txs : list PrecedingTx) (original : OriginalTx) : Eff EstimateError W Z :=
  with_db (_ ← state_after_preceding e preceding_txs original;
           price_updates e (original_env e original) contract_address caller_address state_updates).

Record FrameTreeGas := mkFrameTreeGas { ftg_frame_gas : list Z; ftg_total : Z }.

Definition estimate_frame_tree_gas_with_preceding (e : EvmSketchExecutor P)
  (frames : list FrameProgram) (sender : Z) (preceding_txs : list PrecedingTx)
  (original : OriginalTx) (cost : NestingCostModel) : Eff EstimateError W FrameTreeGas :=
  with_db (_ ← state_after_preceding e preceding_txs original;
           let env := original_env e original in
           frame_gas ← price_frames e env frames sender (se_value env);
           mret (mkFrameTreeGas frame_gas (frame_tree_total frame_gas cost))).

Definition estimate_gas_from_trace `{Node W} (tx_hash : Z) (status : bool) : Eff TraceFailure W Z :=
  trace ← get_tx_trace tx_hash status;
  mret (estimate_gas_from_operations (extract_operation_counts_from_trace trace)).
End estimates.

(** The sketches the analysis of a historical transaction uses ([Analyze.Sketch]), at an endpoint:
    errors print as the class' texts. *)
Definition executor_sketch {P W C} `{Externals, DynAbi, Texts, CacheDB C, Runtime P W C, SketchBuilder P W}
  (url : P) (executor_text : ExecutorError → string) (estimate_text : EstimateError → string)
  : Sketch W := {|
  sketch := EvmSketchExecutor P;
  build_sketch block := eff_map_err executor_text (gas_killer_build url (TagNumber block));
  estimate_state_changes_gas_with_preceding e contract caller updates preceding original :=
    eff_map_err estimate_text
      (estimate_gas_with_preceding (C := C) e contract caller updates preceding original)
|}.
