(* ===== verification/Encode.v ===== *)
(** * Encoding a call

    The entry points of [crates/evmsketch/src/lib.rs]: the encoded program of a simulated call with its
    gas estimate, and the frame tree of a call for nested settlement with the probes that decide which
    callees can be nested. The branches of a [try_join!] run one after the other, as do the buffered
    probes; timings are left out. *)

From S2P Require Import Prelude.
From S2P Require Import Types.
From S2P Require Import Encoding.
From S2P Require Import Trace.
From S2P Require Import SimProfile.
From S2P Require Import Prune.
From S2P Require Import Estimator.
From S2P Require Import Analyze.
From S2P Require Import Transport.
From S2P Require Import RpcDb.
From S2P Require Import CallTrace.
From S2P Require Import Extract.
From S2P Require Import Executor.
From S2P Require Import Estimates.

Record EncodedStateUpdates := mkEncoded {
  esu_storage_updates : list Z;
  esu_update_count : Z;
  esu_gas_estimate : Z;
  esu_is_heuristic : bool;
  esu_skipped_opcodes : gset string;
  esu_extraction : Extraction;
  esu_executor_cache_hit : bool
}.

Record EncodedFrameTree := mkEncodedFrameTree {
  eft_frames : list FrameProgram;
  eft_counter_moves : gset Z;
  eft_gas_estimate : Z;
  eft_skipped_opcodes : gset string;
  eft_extraction : Extraction;
  eft_executor_cache_hit : bool
}.

Inductive EncodeError :=
  | EncExecutor (e : ExecutorError)
  | EncNoTo                                          (* "Transaction must have a 'to' address" *)
  | EncExtract (e : ExtractError)
  | EncRejected (consumer : Z) (v : UnboundedCostViolation)
  | EncEstimate (e : EstimateError)
  | EncLegacyTree                                    (* "nested settlement needs the canonical ..." *)
  | EncProbe (to : Z) (e : TransportError).          (* "eth_call to {to} failed: {e}" *)

(** [eth_call] at a block. *)
Class EthCall (P W : Type) := {
  eth_call : P → TransactionRequest → Z → Eff TransportError W (list Z)
}.

Definition GAS_KILLER_NESTED_INTERFACE_ID : list Z := [0x78; 0x48; 0x18; 0x74].
Definition SUPPORTS_INTERFACE_SELECTOR : list Z := [0x01; 0xff; 0xc9; 0xa7].
Definition SCHNORR_REGISTRY_SELECTOR : list Z := [0x5c; 0xc3; 0x74; 0x50].
Definition NESTABILITY_PROBE_GAS : Z := 1000000.

(** [supportsInterface(GAS_KILLER_NESTED_INTERFACE_ID)]. *)
Definition interface_probe : list Z :=
  SUPPORTS_INTERFACE_SELECTOR ++ GAS_KILLER_NESTED_INTERFACE_ID ++ replicate 28 0.

(** [tx_request.to], if it is a call. *)
Definition call_target_of (tx_request : TransactionRequest) : option Z :=
  match tr_to tx_request with Some (KCall addr) => Some addr | _ => None end.

(** The transaction index a tracker store implies. *)
Fixpoint tracker_index (updates : list StateUpdate) : option Z :=
  match updates with
  | [] => None
  | UStore s :: updates =>
      if store_slot s =? STATE_TRACKER_SLOT then Some (sat_sub (store_value s) 1)
      else tracker_index updates
  | _ :: updates => tracker_index updates
  end.

(** The targets of the [CALL]s of a trace that did not fail as an op. *)
Definition called_addresses (trace : DefaultFrame) : gset Z :=
  list_to_set (flat_map (λ l : StructLog,
    if bool_decide (sl_opc l = OP_CALL ∧ sl_error l = None) then
      match sl_stack l with
      | Some stack =>
          match second_from_top stack with Some v => [address_from_word v] | None => [] end
      | None => []
      end
    else []) (df_struct_logs trace)).

Section nestability.
Context {P W : Type} `{Texts, EthCall P W}.

Definition probe_request (to : Z) (data : list Z) : TransactionRequest :=
  mkRequest None (Some (KCall to)) (Some NESTABILITY_PROBE_GAS) None (Some data) None.

Definition static_read (provider : P) (to : Z) (data : list Z) (block : Z)
  : Eff EncodeError W (option (list Z)) :=
  answer ← eff_try (eth_call provider (probe_request to data) block);
  match answer with
  | inl out => mret (Some out)
  | inr (ErrorResp payload) =>
      if is_evm_failure payload then mret None else eff_res (Err (EncProbe to (ErrorResp payload)))
  | inr e => eff_res (Err (EncProbe to e))
  end.

Definition nested_registry (provider : P) (contract block : Z) : Eff EncodeError W (option Z) :=
  supports ← static_read provider contract interface_probe block;
  match supports with
  | None => mret None
  | Some supports =>
      if negb (length supports =? 32)%nat || (be_to_Z supports =? 0) then mret None
      else
        registry ← static_read provider contract SCHNORR_REGISTRY_SELECTOR block;
        match registry with
        | None => mret None
        | Some registry =>
            if negb (length registry =? 32)%nat then mret None
            else mret (Some (be_to_Z (drop 12 registry)))
        end
  end.

(** Whether one callee shares the registry. *)
Definition probe_callee (provider : P) (registry block callee : Z) : Eff EncodeError W (Z * bool) :=
  r ← nested_registry provider callee block;
  mret (callee, bool_decide (r = Some registry)).

Fixpoint probe_all (provider : P) (registry block : Z) (callees : list Z)
  : Eff EncodeError W (list (Z * bool)) :=
  match callees with
  | [] => mret []
  | callee :: callees =>
      p ← probe_callee provider registry block callee;
      rest ← probe_all provider registry block callees;
      mret (p :: rest)
  end.

Definition nestable_callees (provider : P) (trace : DefaultFrame) (root block : Z)
  : Eff EncodeError W (gset Z) :=
  registry ← nested_registry provider root block;
  match registry with
  | None => mret ∅
  | Some registry =>
      probes ← probe_all provider registry block (set_items (called_addresses trace));
      mret (list_to_set (fst <$> List.filter snd probes))
  end.
End nestability.

Section encode.
Context {P L W C : Type} `{Externals, DynAbi, Texts, TraceNode P W, Clock W, EthCall P W,
  SketchBuilder P W, Lru L (string * Z) (EvmSketchExecutor P), CacheDB C, Runtime P W C}.
Abbreviation Run A := (Eff EncodeError (App P L W) A).

(** ** One program *)

(** The unbounded profile's gate on the payload. *)
Definition check_payload (profile : SimProfile) (consumer : Z) (updates : list StateUpdate)
  (call_gas_total : Z) : Res EncodeError unit :=
  match payload_gas_budget profile with
  | Some budget =>
      _ ← map_err (EncRejected consumer)
        (validate_unbounded_cost updates call_gas_total
           (turetzky_upper_gas_limit Bls) budget);
      Ok tt
  | None => Ok tt
  end.

(** Access-list hints after those of the program. *)
Definition merge_hints (all_hints storage_hints : Hints) : Hints :=
  fold_left extend_hints (map_items storage_hints) all_hints.

Definition call_to_encoded_state_updates_profiled (rpc_url : string) (tx_request : TransactionRequest)
  (block_number : Z) (encoding : StateEncoding) (profile : SimProfile) : Run EncodedStateUpdates :=
  provider ← eff_map_err EncExecutor (get_or_create_trace_provider rpc_url);
  contract_address ← eff_res (ok_or (call_target_of tx_request) EncNoTo);
  let caller_address := default 0 (tr_from tx_request) in
  let tx_value := default 0 (tr_value tx_request) in
  let storage_hints := hints_from_access_list (default [] (tr_access_list tx_request)) in
  extracted ← eff_map_err EncExtract (with_mux_support rpc_url
    (extract_state_updates_hybrid provider tx_request block_number contract_address encoding profile));
  '(executor, cache_hit) ← eff_map_err EncExecutor (get_or_build_timed rpc_url block_number);
  let state_updates := ex_state_updates extracted in
  _ ← eff_res (check_payload profile contract_address state_updates (ex_call_gas_total extracted));
  let storage_updates := encode_state_updates_to_abi state_updates in
  let all_hints :=
    merge_hints (hints_from_state_updates contract_address state_updates) storage_hints in
  gas_estimate ← on_net (eff_map_err EncEstimate
    (estimate_state_changes_gas_with_hints (C := C) executor contract_address caller_address
       state_updates all_hints tx_value));
  mret (mkEncoded storage_updates (zlen state_updates) gas_estimate false
          (ex_skipped_opcodes extracted) (ex_extraction extracted) cache_hit).

Definition call_to_encoded_state_updates_mode (rpc_url : string) (tx_request : TransactionRequest)
  (block_number : Z) (encoding : StateEncoding) : Run EncodedStateUpdates :=
  call_to_encoded_state_updates_profiled rpc_url tx_request block_number encoding Chain.

Definition call_to_encoded_state_updates (rpc_url : string) (tx_request : TransactionRequest)
  (block_number : Z) : Run EncodedStateUpdates :=
  call_to_encoded_state_updates_mode rpc_url tx_request block_number Legacy.

(** ** A tree *)

(** The tree of a call the net form represents: one frame. *)
Definition net_frame (root : Z) (updates : list StateUpdate) : FrameProgram :=
  mkFrameProgram root 0 0 0 (tracker_index updates) updates [].

(** The program's gate, over every frame together. *)
Definition check_tree (profile : SimProfile) (root : Z) (tree : FrameTreeExtract)
  : Res EncodeError unit :=
  match payload_gas_budget profile with
  | Some budget =>
      _ ← map_err (EncRejected root)
        (validate_unbounded_tree_cost
           (flat_map (λ f, without_nested_ops (fp_updates f)) (fte_frames tree))
           (fte_call_gas_total tree) (fte_create_gas_total tree)
           (turetzky_upper_gas_limit Bls) budget);
      Ok tt
  | None => Ok tt
  end.

Definition tree_hints (frames : list FrameProgram) : Hints :=
  fold_left (λ hints frame,
    fold_left extend_hints
      (map_items (hints_from_state_updates (fp_target frame) (without_nested_ops (fp_updates frame))))
      hints)
    frames ∅.

(** The single-frame tree, priced. *)
Definition finish_net_frame (rpc_url : string) (block_number root caller_address tx_value : Z)
  (updates : list StateUpdate) : Run EncodedFrameTree :=
  '(executor, cache_hit) ← eff_map_err EncExecutor (get_or_build_timed rpc_url block_number);
  gas_estimate ← on_net (eff_map_err EncEstimate
    (estimate_state_changes_gas_with_hints (C := C) executor root caller_address updates
       (hints_from_state_updates root updates) tx_value));
  mret (mkEncodedFrameTree [net_frame root updates] {[root]} gas_estimate ∅ XPrestateNet cache_hit).

(** The struct-log tree: trace, probe, split, gate, price. *)
Definition finish_split_tree (provider : P) (rpc_url : string) (tx_request : TransactionRequest)
  (block_number root caller_address tx_value : Z) (profile : SimProfile) (cost : NestingCostModel)
  (extraction : Extraction) : Run EncodedFrameTree :=
  trace ← on_net (eff_map_err (EncExtract ∘ XCall)
    (get_trace_from_call_with_profile provider tx_request block_number profile));
  nestable ← on_net (nestable_callees provider trace root block_number);
  '(executor, cache_hit) ← eff_map_err EncExecutor (get_or_build_timed rpc_url block_number);
  tree ← eff_res (map_err (EncExtract ∘ XParse)
    (compute_frame_tree_canonical trace root (λ a, bool_decide (a ∈ nestable)) cost));
  _ ← eff_res (check_tree profile root tree);
  frame_gas ← on_net (eff_map_err EncEstimate
    (estimate_frame_tree_gas_with_hints (C := C) executor (fte_frames tree) caller_address
       (tree_hints (fte_frames tree)) tx_value));
  mret (mkEncodedFrameTree (fte_frames tree) (fte_counter_moves tree)
          (frame_tree_total frame_gas cost) (fte_skipped_opcodes tree) extraction cache_hit).

Definition call_to_frame_tree (rpc_url : string) (tx_request : TransactionRequest)
  (block_number : Z) (encoding : StateEncoding) (profile : SimProfile) (cost : NestingCostModel)
  : Run EncodedFrameTree :=
  if bool_decide (encoding = Legacy) then eff_res (Err EncLegacyTree)
  else
    provider ← eff_map_err EncExecutor (get_or_create_trace_provider rpc_url);
    root ← eff_res (ok_or (call_target_of tx_request) EncNoTo);
    let caller_address := default 0 (tr_from tx_request) in
    let tx_value := default 0 (tr_value tx_request) in
    if signs_prestate_net encoding then
      net ← eff_map_err (EncExtract ∘ XCall) (with_mux_support rpc_url
        (try_prestate_net provider tx_request block_number root profile));
      match net with
      | Some updates => finish_net_frame rpc_url block_number root caller_address tx_value updates
      | None =>
          finish_split_tree provider rpc_url tx_request block_number root caller_address tx_value
            profile cost XPrestateFallback
      end
    else
      finish_split_tree provider rpc_url tx_request block_number root caller_address tx_value profile
        cost XStructLog.
End encode.
