(* ===== verification/EncodeSpec.v ===== *)
(** * What an encoded call is

    The entry points of [Encode] against references: the encoded program is that of [program_of], the
    frame tree that of [tree_of], whatever the endpoint's wording, the state of the caches and of the
    mux; a payload under the unbounded profile fits its budget. The executor cache only hands out
    executors of the asked block, whose chain and spec are those of the endpoint. *)

From S2P Require Import Prelude.
From S2P Require Import Types.
From S2P Require Import Instances.
From S2P Require Import Encoding.
From S2P Require Import Trace.
From S2P Require Import SimProfile.
From S2P Require Import Prestate.
From S2P Require Import FrameTree.
From S2P Require Import Prune.
From S2P Require Import WalkSpec.
From S2P Require Import WalkInv.
From S2P Require Import TreeSpec.
From S2P Require Import Estimator.
From S2P Require Import EstimatorSpec.
From S2P Require Import Effects.
From S2P Require Import Analyze.
From S2P Require Import Transport.
From S2P Require Import RpcDb.
From S2P Require Import RpcDbSpec.
From S2P Require Import CallTrace.
From S2P Require Import Extract.
From S2P Require Import ExtractSpec.
From S2P Require Import Executor.
From S2P Require Import Estimates.
From S2P Require Import Encode.

(** ** Laws *)

(** An endpoint's chain does not change, and a sketch at a block is anchored there. *)
Class SketchLaws (P W : Type) `{SketchBuilder P W} := {
  chain_id_of : P → Z;
  chain_id_true (p : P) (w w' : W) id : get_chain_id p w = (Ok id, w') → id = chain_id_of p;
  sketch_anchor (p : P) n g (w w' : W) sk : build_evm_sketch p (TagNumber n) g w = (Ok sk, w') →
    sk_provider sk = p ∧ hd_number (sk_header sk) = n
}.

(** [get] finds what [peek] sees and forgets nothing; [put] is seen, and adds nothing else. *)
Class LruLaws (L K V : Type) `{Lru L K V} : Prop := {
  lru_get_peek (c : L) (k : K) : (lru_get c k).1 = lru_peek c k;
  lru_get_keeps (c : L) (k j : K) : lru_peek (lru_get c k).2 j = lru_peek c j;
  lru_put_peek (c : L) (k j : K) v u : lru_peek (lru_put c k v) j = Some u →
    j = k ∧ u = v ∨ lru_peek c j = Some u
}.

Section executor_cache.
Context {P L W : Type} `{SketchLaws P W, LruLaws L (string * Z) (EvmSketchExecutor P), Clock W}.

(** The executor of an endpoint at a block. *)
Definition executor_for (p : P) (n : Z) (e : EvmSketchExecutor P) : Prop :=
  xe_chain_id e = chain_id_of p ∧ sk_provider (xe_sketch e) = p ∧ anchor_block_number e = n ∧
  ∃ genesis hardforks, chain_id_to_genesis_and_spec (chain_id_of p) = Some (genesis, hardforks) ∧
    xe_spec e = evm_spec hardforks (sk_header (xe_sketch e)).

Definition cache_ok (c : ExecutorCache P L) : Prop :=
  (∀ url p, ec_trace_providers c !! url = Some p → new_http url = Some p) ∧
  (∀ url id, ec_chain_ids c !! url = Some id → ∃ p, new_http url = Some p ∧ id = chain_id_of p) ∧
  (∀ url n e, lru_peek (ec_inner c) (url, n) = Some e → ∃ p, new_http url = Some p ∧ executor_for p n e).

Definition app_ok (s : App P L W) : Prop := cache_ok (app_cache s).

Lemma on_net_ok {E A} (m : Eff E W A) Q F :
  ensures anywhere m Q F → ensures app_ok (on_net m) Q F.
Proof. intros Hm. eapply ensures_zoom; [|done|exact Hm]. done. Qed.

Lemma trace_provider_ok url :
  ensures app_ok (get_or_create_trace_provider url) (λ p, new_http url = Some p) (λ _, True).
Proof.
  intros [w [inner ids provs mux]] r s' (Hp & Hi & He) Hrun. unfold get_or_create_trace_provider in Hrun.
  cbn in *. destruct (provs !! url) as [p|] eqn:Hprov.
  { injection Hrun as <- <-. split; [done|]. by apply Hp. }
  destruct (new_http url) as [p|] eqn:Hnew; injection Hrun as <- <-; [|done].
  split; [|done]. split_and!; [|done..]. cbn. intros u q.
  rewrite lookup_insert_Some. intros [[<- <-]|[_ Hq]]; [done|by apply Hp].
Qed.

Lemma with_mux_ok {E A} url (m : Eff E (MuxWorld W) A) Q F :
  ensures anywhere m Q F → ensures app_ok (with_mux_support url m) Q F.
Proof.
  intros Hm [w [inner ids provs mux]] r s' Hok Hrun. unfold with_mux_support in Hrun. cbn in Hrun.
  destruct (m _) as [r0 w0] eqn:Hr. injection Hrun as <- <-. split; [done|]. by apply Hm in Hr as [_ Hr].
Qed.

Lemma chain_id_for_ok url p :
  new_http url = Some p →
  ensures app_ok (chain_id_for url p) (λ id, id = chain_id_of p) (λ _, True).
Proof.
  intros Hnew. unfold chain_id_for.
  eapply ensures_bind with (P := λ o, ∀ id, o = Some id → id = chain_id_of p).
  { intros [w [inner ids provs mux]] r s' Hok [= <- <-]. split; [done|]. cbn. intros id Hid.
    destruct Hok as (_ & Hi & _). destruct (Hi _ _ Hid) as (q & Hq & ->). congruence. }
  intros [id|] Hid; [by apply ensures_ret, Hid|].
  eapply ensures_bind with (P := λ id, id = chain_id_of p).
  { apply on_net_ok, ensures_map_err. intros w [id| |] w' _ Hrun; split; try done.
    by apply chain_id_true in Hrun. }
  intros id ->. eapply ensures_bind with (P := λ _, True); [|by intros _ _; apply ensures_ret].
  intros [w [inner ids provs mux]] r s' (Hp & Hi & He) [= <- <-]. split; [|done].
  split_and!; [done| |done]. cbn. intros u i. rewrite lookup_insert_Some.
  intros [[<- <-]|[_ Hu]]; [by exists p|by apply Hi].
Qed.

Lemma build_ok p n :
  ensures (W := W) anywhere
    (build (at_block (TagNumber n) (with_chain_id (chain_id_of p) (rpc_url p builder_new))))
    (executor_for p n) (λ _, True).
Proof.
  unfold build. cbn [eb_rpc_url eb_chain_id eb_block at_block with_chain_id rpc_url].
  eapply ensures_bind with (P := λ q, q = p); [by apply ensures_ret|]. intros q ->.
  eapply ensures_bind with (P := λ id, id = chain_id_of p); [by apply ensures_ret|]. intros id ->.
  eapply ensures_bind with (P := λ gh, chain_id_to_genesis_and_spec (chain_id_of p) = Some gh).
  { apply ensures_res. by destruct (chain_id_to_genesis_and_spec _). }
  intros [g hf] Hgh. eapply ensures_bind with
    (P := λ sk, sk_provider sk = p ∧ hd_number (sk_header sk) = n).
  { apply ensures_map_err. intros w [sk| |] w' _ Hrun; split; try done. by apply sketch_anchor in Hrun. }
  intros sk [Hp Hn]. apply ensures_ret. split_and!; try done. by exists g, hf.
Qed.

Lemma get_or_build_ok url n :
  ensures app_ok (get_or_build_timed url n)
    (λ q, ∃ p, new_http url = Some p ∧ executor_for p n q.1) (λ _, True).
Proof.
  unfold get_or_build_timed. eapply ensures_bind with
    (P := λ o, ∀ e, o = Some e → ∃ p, new_http url = Some p ∧ executor_for p n e).
  { intros [w [inner ids provs mux]] r t (Hp & Hi & He) Hl. unfold lookup_executor in Hl. cbn in Hl.
    pose proof (lru_get_peek inner (url, n)) as Hpeek.
    pose proof (lru_get_keeps inner (url, n)) as Hkeep.
    destruct (lru_get inner (url, n)) as [o inner']. injection Hl as <- <-. cbn in Hpeek, Hkeep.
    split; [split_and!; [done..|]|]; cbn.
    - intros u i e. rewrite Hkeep. apply He.
    - intros e ->. by eapply He. }
  intros [e|] He; [by apply ensures_ret, He|].
  eapply ensures_bind with (P := λ p, new_http url = Some p).
  { apply ensures_res. by destruct (new_http url). }
  intros p Hnew. eapply ensures_bind; [by apply chain_id_for_ok|]. intros id ->.
  eapply ensures_bind; [apply on_net_ok, build_ok|]. intros e Hex.
  eapply ensures_bind with (P := λ _, True); [|by intros _ _; apply ensures_ret; exists p].
  intros [w [inner ids provs mux]] r t (Hp & Hi & Hc) [= <- <-]. split; [|done].
  split_and!; [done..|]. cbn. intros u i x Hx. apply lru_put_peek in Hx as [[[= -> ->] ->]|Hx].
  - by exists p.
  - by apply Hc.
Qed.

(** From any cache a process can have, [get_or_build] hands out, cached or built, an executor of the
    asked endpoint anchored at the asked block, with that endpoint's chain id and the spec of its
    chain's hardfork schedule at the block; a chain that is not supported has none. The cache it leaves
    is as good. *)
Theorem get_or_build_sound url n (s : App P L W) res s' :
  app_ok s → get_or_build_timed url n s = (res, s') →
  app_ok s' ∧ res_sat (λ q, ∃ p, new_http url = Some p ∧ executor_for p n q.1) (λ _, True) res.
Proof. apply get_or_build_ok. Qed.
End executor_cache.

(** ** References *)

(** A payload the profile accepts. *)
Definition payload_fits `{Externals} (profile : SimProfile) (creates : bool) (updates : list StateUpdate)
  (replayed_gas : Z) : Prop :=
  ∀ budget, payload_gas_budget profile = Some budget →
    (creates = false → first_create updates = None) ∧
    estimate_applied_payload_gas updates replayed_gas (turetzky_upper_gas_limit Bls) <= budget.

Lemma validate_fits `{Externals} us gas creates signature budget c :
  validate us gas creates signature budget = Ok c →
  (creates = false → first_create us = None) ∧ estimate_applied_payload_gas us gas signature <= budget.
Proof.
  intros Hc. assert (validate us gas true signature budget = Ok c ∧
    (creates = false → first_create us = None)) as [Ht Hf].
  { destruct creates; [done|]. rewrite validate_false in Hc. by destruct (first_create us). }
  split; [done|]. rewrite validate_true in Ht. cbv zeta in Ht.
  destruct (Z.ltb_spec budget (estimate_applied_payload_gas us gas signature)); [done|lia].
Qed.

(** What the contracts answer to a read at a block, if they do not fail. *)
Definition Reads : Type := Z → list Z → Z → option (list Z).

Definition honest_reads {P W} `{Texts, EthCall P W} (reads : Reads) (p : P) : Prop :=
  ∀ to data b (w w' : W) res, eth_call p (probe_request to data) b w = (res, w') →
    match res with
    | Ok out => reads to data b = Some out
    | Err (ErrorResp payload) => is_evm_failure payload = true → reads to data b = None
    | _ => True
    end.

(** The registry of a nestable consumer. *)
Definition registry_at (reads : Reads) (block contract : Z) : option Z :=
  supports ← reads contract interface_probe block;
  if negb (length supports =? 32)%nat || (be_to_Z supports =? 0) then None
  else
    registry ← reads contract SCHNORR_REGISTRY_SELECTOR block;
    if negb (length registry =? 32)%nat then None else Some (be_to_Z (drop 12 registry)).

(** The callees of a trace that share the root's registry. *)
Definition consumers_of (reads : Reads) (block root : Z) (trace : DefaultFrame) : gset Z :=
  match registry_at reads block root with
  | None => ∅
  | Some registry =>
      list_to_set (List.filter (λ a, bool_decide (registry_at reads block a = Some registry))
        (set_items (called_addresses trace)))
  end.

Section nestable.
Context {P W : Type} `{Texts, EthCall P W}.
Variables (reads : Reads) (p : P).
Hypothesis Hreads : honest_reads (W := W) reads p.

Lemma static_read_true to data b :
  ensures (W := W) anywhere (static_read p to data b) (λ o, o = reads to data b) (λ _, True).
Proof.
  unfold static_read. eapply ensures_bind with (P := λ a, match a with
    | inl out => reads to data b = Some out
    | inr (ErrorResp payload) => is_evm_failure payload = true → reads to data b = None
    | inr _ => True end).
  - intros w res w' _ Hrun. apply eff_try_run in Hrun as (r0 & Hrun & ->).
    apply Hreads in Hrun. split; [done|]. by destruct r0 as [|[]|].
  - intros [out|[payload|status body|m]] Ha; try by apply ensures_res.
    destruct (is_evm_failure payload); [|by apply ensures_res]. apply ensures_ret. by rewrite Ha.
Qed.

Lemma nested_registry_true a b :
  ensures (W := W) anywhere (nested_registry p a b) (λ o, o = registry_at reads b a) (λ _, True).
Proof.
  unfold nested_registry, registry_at. eapply ensures_bind; [apply static_read_true|].
  intros o ->. destruct (reads a interface_probe b) as [supports|]; [|by apply ensures_ret]. cbn.
  destruct (_ || _); [by apply ensures_ret|].
  eapply ensures_bind; [apply static_read_true|]. intros o ->.
  destruct (reads a SCHNORR_REGISTRY_SELECTOR b) as [registry|]; [|by apply ensures_ret]. cbn.
  destruct (negb _); by apply ensures_ret.
Qed.

Lemma probe_all_true registry b callees :
  ensures (W := W) anywhere (probe_all p registry b callees)
    (λ l, l = (λ a, (a, bool_decide (registry_at reads b a = Some registry))) <$> callees) (λ _, True).
Proof.
  induction callees as [|a callees IH]; cbn [probe_all]; [by apply ensures_ret|].
  eapply ensures_bind with (P := λ q, q = (a, bool_decide (registry_at reads b a = Some registry))).
  - unfold probe_callee. eapply ensures_bind; [apply nested_registry_true|]. intros o ->. by apply ensures_ret.
  - intros q ->. eapply ensures_bind; [exact IH|]. intros l ->. by apply ensures_ret.
Qed.

Lemma nestable_callees_true trace root b :
  ensures (W := W) anywhere (nestable_callees p trace root b)
    (λ s, s = consumers_of reads b root trace) (λ _, True).
Proof.
  unfold nestable_callees, consumers_of. eapply ensures_bind; [apply nested_registry_true|].
  intros o ->. destruct (registry_at reads b root) as [registry|]; [|by apply ensures_ret].
  eapply ensures_bind; [apply probe_all_true|]. intros l ->. apply ensures_ret. f_equal.
  induction (set_items (called_addresses trace)) as [|a l IH]; [done|]. cbn.
  destruct (bool_decide _); cbn; by rewrite IH.
Qed.
End nestable.

(** The gate answers by [payload_fits]. *)
Lemma validate_fits_iff `{Externals} us gas creates signature budget :
  (∃ c, validate us gas creates signature budget = Ok c) ↔
  (creates = false → first_create us = None) ∧ estimate_applied_payload_gas us gas signature <= budget.
Proof.
  split; [intros [c Hc]; by eapply validate_fits|]. intros [Hf Hle].
  assert (∃ c, validate us gas true signature budget = Ok c) as [c Hc].
  { rewrite validate_true. cbv zeta. rewrite (proj2 (Z.ltb_ge _ _)) by done. by eexists. }
  destruct creates; [by exists c|]. exists c. by rewrite validate_false, Hf.
Qed.

(** The frame tree an encoding stands for: the net form as a single frame, or the canonical split with
    the consumers that share the root's registry. *)
Definition split_of `{Externals} (reads : Reads) (trace : DefaultFrame) (root block : Z)
  (cost : NestingCostModel) (x : Extraction) : option (FrameTreeExtract * Extraction) :=
  if df_failed trace then None
  else
    match compute_frame_tree_canonical trace root
            (λ a, bool_decide (a ∈ consumers_of reads block root trace)) cost with
    | Ok tree => Some (tree, x)
    | _ => None
    end.

Definition net_tree (root : Z) (updates : list StateUpdate) : FrameTreeExtract :=
  mkFrameTreeExtract [net_frame root updates] ∅ 0 0 0 {[root]}.

Definition tree_of `{Externals} (T : Truth) (reads : Reads) (encoding : StateEncoding)
  (profile : SimProfile) (cost : NestingCostModel) (r : TransactionRequest) (block root : Z)
  : option (FrameTreeExtract * Extraction) :=
  let '(r, ov) := simulated profile r in
  let trace := t_trace T r block ov in
  let diff := t_diff T r block ov in
  let frame := t_frame T r block ov in
  match encoding with
  | Legacy => None
  | Canonical => split_of reads trace root block cost XStructLog
  | PrestateNet =>
      if bool_decide (frame_failure frame = None) then
        match classify_prestate_eligibility frame diff root with
        | Eligible =>
            Some (net_tree root (build_state_updates_from_prestate root diff frame), XPrestateNet)
        | Fallback _ => split_of reads trace root block cost XPrestateFallback
        end
      else None
  end.

(** The updates of every frame, which land in one transaction. *)
Definition tree_updates (tree : FrameTreeExtract) : list StateUpdate :=
  flat_map (λ f, without_nested_ops (fp_updates f)) (fte_frames tree).

(** ** The pipelines *)

Section pipelines.
Context {P L W C : Type} `{Externals, DynAbi, Texts, TraceNode P W, Clock W, EthCall P W,
  SketchLaws P W, LruLaws L (string * Z) (EvmSketchExecutor P), CacheDB C, Runtime P W C}.
Variables (T : Truth) (reads : Reads) (rpc : string) (p : P).
Hypotheses (Hurl : new_http rpc = Some p) (Hhonest : honest (W := W) T p)
  (Hreads : honest_reads (W := W) reads p).
Abbreviation Run A := (Eff EncodeError (App P L W) A).

Lemma ensures_any {E A} (m : Eff E W A) : ensures anywhere m (λ _, True) (λ _, True).
Proof. intros w r w' _ _. split; [done|]. by destruct r. Qed.

Lemma provider_ok F : (∀ e, F (EncExecutor e)) →
  ensures app_ok (eff_map_err EncExecutor (get_or_create_trace_provider rpc) : Run P) (λ q, q = p) F.
Proof.
  intros HF. apply ensures_map_err. eapply ensures_weaken; [apply trace_provider_ok| |].
  - cbn. intros q Hq. congruence.
  - intros e _. apply HF.
Qed.

Lemma executor_ok n F : (∀ e, F (EncExecutor e)) →
  ensures app_ok (eff_map_err EncExecutor (get_or_build_timed rpc n) : Run _) (λ _, True) F.
Proof.
  intros HF. apply ensures_map_err. eapply ensures_weaken; [apply get_or_build_ok|done|].
  intros e _. apply HF.
Qed.

Lemma estimate_ok {A} (m : Eff EstimateError W A) F : (∀ e, F (EncEstimate e)) →
  ensures app_ok (on_net (eff_map_err EncEstimate m) : Run A) (λ _, True) F.
Proof.
  intros HF. apply on_net_ok, ensures_map_err. eapply ensures_weaken; [apply ensures_any|done|].
  intros e _. apply HF.
Qed.

(** What the errors of an encoding say. *)
Definition encode_refused (encoding : StateEncoding) (profile : SimProfile) (r : TransactionRequest)
  (block : Z) (e : EncodeError) : Prop :=
  match e with
  | EncNoTo => call_target_of r = None
  | EncExtract e => ∃ consumer, call_target_of r = Some consumer ∧
      no_program (program_of T encoding profile r block consumer) e
  | EncRejected consumer _ => ∃ x, call_target_of r = Some consumer ∧
      program_of T encoding profile r block consumer = Some x ∧
      ¬ payload_fits profile false (ex_state_updates x) (ex_call_gas_total x)
  | _ => True
  end.

(** What an encoding returns. *)
Definition encode_returns (encoding : StateEncoding) (profile : SimProfile) (r : TransactionRequest)
  (block : Z) (out : EncodedStateUpdates) : Prop :=
  ∃ consumer x, call_target_of r = Some consumer ∧
    program_of T encoding profile r block consumer = Some x ∧
    esu_storage_updates out = encode_state_updates_to_abi (ex_state_updates x) ∧
    esu_update_count out = zlen (ex_state_updates x) ∧
    esu_skipped_opcodes out = ex_skipped_opcodes x ∧ esu_extraction out = ex_extraction x ∧
    payload_fits profile false (ex_state_updates x) (ex_call_gas_total x).

Lemma check_payload_ok profile consumer updates gas :
  match check_payload profile consumer updates gas with
  | Ok _ => payload_fits profile false updates gas
  | Err (EncRejected c _) => c = consumer ∧ ¬ payload_fits profile false updates gas
  | _ => False
  end.
Proof.
  unfold check_payload, payload_fits, validate_unbounded_cost.
  destruct (payload_gas_budget profile) as [budget|]; [|done].
  pose proof (validate_fits_iff updates gas false (turetzky_upper_gas_limit Bls) budget) as Hiff.
  destruct (validate updates gas false _ budget) as [c|v|w] eqn:Hv; cbn.
  - intros b [= <-]. apply Hiff. by exists c.
  - split; [done|]. intros Hall. by destruct (proj2 Hiff (Hall _ eq_refl)).
  - rewrite validate_false in Hv. destruct (first_create updates); [done|].
    rewrite validate_true in Hv. cbv zeta in Hv. by destruct (_ <? _).
Qed.

Lemma encode_ok encoding profile r block :
  ensures app_ok
    (call_to_encoded_state_updates_profiled (C := C) rpc r block encoding profile : Run _)
    (encode_returns encoding profile r block) (encode_refused encoding profile r block).
Proof.
  unfold call_to_encoded_state_updates_profiled.
  eapply ensures_bind; [by apply provider_ok|]. intros q ->.
  eapply ensures_bind with (P := λ consumer, call_target_of r = Some consumer).
  { apply ensures_res. by destruct (call_target_of r) eqn:Hto. }
  intros consumer Hto. eapply ensures_bind.
  { apply ensures_map_err, with_mux_ok. eapply ensures_weaken; [by apply extract_true| |].
    - intros x Hx. exact Hx.
    - intros e He. by exists consumer. }
  intros x Hx. cbn beta in Hx.
  eapply ensures_bind; [by apply executor_ok|]. intros [executor hit] _.
  eapply ensures_bind with (P := λ _, payload_fits profile false (ex_state_updates x) (ex_call_gas_total x)).
  { apply ensures_res. pose proof (check_payload_ok profile consumer (ex_state_updates x)
      (ex_call_gas_total x)) as Hc. destruct (check_payload _ _ _ _) as [|e|]; [done| |done].
    destruct e; try done. cbn. destruct Hc as [-> Hc]. by exists x. }
  intros _ Hfits. eapply ensures_bind; [by apply estimate_ok|]. intros gas _.
  apply ensures_ret. by exists consumer, x.
Qed.

(** C5: On an honest endpoint, whatever the caches and the mux have learnt, the bytes a call is encoded
    to are the ABI encoding of the program its encoding stands for, and under the unbounded profile
    that payload creates nothing and costs at most the budget to apply. A rejection means the payload
    does not fit, and an extraction error that the call has no program or a request failed. *)
Theorem encoded_program_agrees encoding profile r block (s : App P L W) res s' :
  app_ok s →
  call_to_encoded_state_updates_profiled (C := C) rpc r block encoding profile s = (res, s') →
  app_ok s' ∧
  res_sat (encode_returns encoding profile r block) (encode_refused encoding profile r block) res.
Proof. apply encode_ok. Qed.

(** What a frame tree is: that of the reference, in the shape [encode_frame_tree] needs, of the root and
    of consumers that share its registry, and within the budget when it was split. *)
Definition tree_returns (encoding : StateEncoding) (profile : SimProfile) (cost : NestingCostModel)
  (r : TransactionRequest) (block : Z) (out : EncodedFrameTree) : Prop :=
  ∃ root tree, call_target_of r = Some root ∧
    tree_of T reads encoding profile cost r block root = Some (tree, eft_extraction out) ∧
    eft_frames out = fte_frames tree ∧ eft_counter_moves out = fte_counter_moves tree ∧
    eft_skipped_opcodes out = fte_skipped_opcodes tree ∧
    frames_fine (eft_frames out) ∧ fp_target <$> head (eft_frames out) = Some root ∧
    (∀ i f, eft_frames out !! S i = Some f →
      is_Some (registry_at reads block root) ∧
      registry_at reads block (fp_target f) = registry_at reads block root) ∧
    (eft_extraction out = XPrestateNet ∨
     payload_fits profile true (tree_updates tree)
       (sat_add (fte_call_gas_total tree) (fte_create_gas_total tree))).

Lemma net_tree_fine root diff frame :
  frames_fine [net_frame root (build_state_updates_from_prestate root diff frame)].
Proof.
  intros [|i] f Hf; [|done]. injection Hf as <-. split_and!; cbn; [constructor|constructor| |lia].
  unfold build_state_updates_from_prestate. rewrite nested_ops_app.
  assert (∀ us, (∀ u, u ∈ us → is_nested u = false) → nested_ops us = []) as Hnone.
  { induction us as [|u us IH]; intros Hu; [done|]. unfold nested_ops in *. cbn.
    rewrite IH by (intros v Hv; apply Hu; by right). specialize (Hu u ltac:(left)). by destruct u. }
  rewrite !Hnone; [done| |].
  - intros u (l & -> & _)%list_elem_of_fmap. unfold log_to_update. by repeat case_match.
  - intros u Hu. unfold net_stores in Hu. apply list_elem_of_In, in_flat_map in Hu as (k & _ & Hu).
    destruct (_ =? _); [done|]. by destruct Hu as [<-|[]].
Qed.

Lemma consumers_of_shared block root trace a :
  a ∈ consumers_of reads block root trace →
  is_Some (registry_at reads block root) ∧ registry_at reads block a = registry_at reads block root.
Proof.
  unfold consumers_of. destruct (registry_at reads block root) as [registry|]; [|by intros ?%not_elem_of_empty].
  rewrite elem_of_list_to_set, list_elem_of_In, filter_In. intros [_ Ha].
  apply bool_decide_eq_true in Ha. by split.
Qed.

Lemma check_tree_ok profile root tree :
  check_tree profile root tree = Ok tt →
  payload_fits profile true (tree_updates tree) (sat_add (fte_call_gas_total tree) (fte_create_gas_total tree)).
Proof.
  unfold check_tree, payload_fits, validate_unbounded_tree_cost. intros Hc budget Hb. rewrite Hb in Hc.
  destruct (validate _ _ true _ budget) as [c| |] eqn:Hv; [|done..]. by eapply validate_fits.
Qed.

Definition any_refusal (e : EncodeError) : Prop := True.

Lemma split_tree_ok encoding profile cost r block root x :
  (∀ tree, split_of reads (t_trace T (simulated profile r).1 block (simulated profile r).2) root block cost x
    = Some (tree, x) → tree_of T reads encoding profile cost r block root = Some (tree, x)) →
  call_target_of r = Some root → ∀ caller value,
  ensures app_ok
    (finish_split_tree (C := C) p rpc r block root caller value profile cost x : Run _)
    (tree_returns encoding profile cost r block) any_refusal.
Proof.
  intros Htree Hto caller value. unfold finish_split_tree.
  set (trace := t_trace T _ _ _) in Htree.
  eapply ensures_bind with (P := λ t, t = trace ∧ df_failed trace = false).
  { apply on_net_ok, ensures_map_err. eapply ensures_weaken; [by apply trace_true|done|done]. }
  intros t [-> Hfailed]. eapply ensures_bind.
  { apply on_net_ok. eapply ensures_weaken; [by apply nestable_callees_true|exact (λ a Ha, Ha)|done]. }
  intros nestable ->. eapply ensures_bind; [by apply executor_ok|]. intros [executor hit] _.
  eapply ensures_bind with (P := λ tree, compute_frame_tree_canonical trace root
    (λ a, bool_decide (a ∈ consumers_of reads block root trace)) cost = Ok tree).
  { apply ensures_res. by destruct (compute_frame_tree_canonical _ _ _ _). }
  intros tree Hs. eapply ensures_bind with (P := λ _, check_tree profile root tree = Ok tt).
  { apply ensures_res. by destruct (check_tree profile root tree) as [[]| |]. }
  intros _ Hcheck. eapply ensures_bind; [by apply estimate_ok|]. intros gas _. apply ensures_ret.
  exists root, tree. cbn [eft_frames eft_counter_moves eft_skipped_opcodes eft_extraction].
  unfold compute_frame_tree_canonical in Hs.
  pose proof (split_root_frame _ _ _ _ _ Hs) as (P' & f & index & g & rest & _ & Hg & Ht & _ & _ & _ & Hfine & _).
  split_and!; try done.
  - apply Htree. unfold split_of, compute_frame_tree_canonical. by rewrite Hfailed, Hs.
  - rewrite Hg. cbn. by rewrite Ht.
  - intros i h Hh. apply (split_frames_owned _ _ _ _ _ _ _ Hs) in Hh. cbn in Hh.
    apply bool_decide_eq_true in Hh. by eapply consumers_of_shared.
  - right. by eapply check_tree_ok.
Qed.

Lemma tree_ok_run encoding profile cost r block :
  ensures app_ok (call_to_frame_tree (C := C) rpc r block encoding profile cost : Run _)
    (tree_returns encoding profile cost r block) any_refusal.
Proof.
  unfold call_to_frame_tree. case_bool_decide as Hl; [by apply ensures_res|].
  eapply ensures_bind; [by apply provider_ok|]. intros q ->.
  eapply ensures_bind with (P := λ root, call_target_of r = Some root).
  { apply ensures_res. by destruct (call_target_of r) eqn:Hto. }
  intros root Hto. cbv zeta. destruct encoding; [done| |].
  { cbn [signs_prestate_net]. apply split_tree_ok; [|done]. intros tree. unfold tree_of.
    by destruct (simulated profile r). }
  cbn [signs_prestate_net]. eapply ensures_bind.
  { apply ensures_map_err, with_mux_ok. eapply ensures_weaken; [by apply net_true|exact (λ a Ha, Ha)|done]. }
  intros o [Hf ->]. destruct (classify_prestate_eligibility _ _ root) as [|reason] eqn:Hel.
  - unfold finish_net_frame. eapply ensures_bind; [by apply executor_ok|]. intros [executor hit] _.
    eapply ensures_bind; [by apply estimate_ok|]. intros gas _. apply ensures_ret.
    eexists root, (net_tree root _). cbn [eft_frames eft_counter_moves eft_skipped_opcodes eft_extraction].
    split_and!; [done| |done..|apply net_tree_fine|done|done|by left].
    unfold tree_of. destruct (simulated profile r) as [sr ov]. cbn in *. rewrite Hel.
    by rewrite bool_decide_eq_true_2.
  - apply split_tree_ok; [|done]. intros tree. unfold tree_of.
    destruct (simulated profile r) as [sr ov]. cbn [fst snd] in *. rewrite Hel.
    by rewrite bool_decide_eq_true_2.
Qed.

(** C6: On an honest endpoint, the frame tree of a call is the reference's, whatever the caches have learnt:
    the net form as one frame, or the canonical split in which exactly the callees that report the
    nested interface and share the root's registry at the block can be frames. It always has the shape
    settlement encodes, starts with the called contract, nests only consumers of the same registry, and
    when it was split it fits the profile's budget as one transaction. *)
Theorem frame_tree_agrees encoding profile cost r block (s : App P L W) out s' :
  app_ok s → call_to_frame_tree (C := C) rpc r block encoding profile cost s = (Ok out, s') →
  app_ok s' ∧ encoding ≠ Legacy ∧ tree_returns encoding profile cost r block out.
Proof.
  intros Hok Hrun. destruct (tree_ok_run _ _ _ _ _ _ _ _ Hok Hrun) as [Hok' Hret].
  split; [done|]. split; [|done]. intros ->. unfold call_to_frame_tree in Hrun.
  by rewrite bool_decide_eq_true_2 in Hrun.
Qed.
End pipelines.

(** ** Witnesses *)

(** Two endpoints: one whose call stores and calls a consumer, and one whose call changes 800 slots. *)
Definition light_truth : Truth := {|
  t_trace _ _ _ := split_sample;
  t_diff := t_diff sample_truth;
  t_frame := t_frame sample_truth
|}.
Definition heavy_truth : Truth := {|
  t_trace _ _ _ := split_sample;
  t_diff _ _ _ := mkDiffMode ∅ {[10 := list_to_map ((λ k, (k, 1)) <$> seqZ 1 800)]};
  t_frame := t_frame sample_truth
|}.
Definition truth_of (light : bool) : Truth := if light then light_truth else heavy_truth.

#[export] Instance sample_endpoints : TraceNode bool Z := {|
  debug_trace_call p r b o w :=
    (match tco_tracing_options o with
     | StructLogs _ _ => Ok (GDefault (t_trace (truth_of p) r b (tco_block_overrides o)))
     | PreStateTracer _ => Ok (GPreStateDiff (t_diff (truth_of p) r b (tco_block_overrides o)))
     | CallTracer _ => Ok (GCall (t_frame (truth_of p) r b (tco_block_overrides o)))
     | MuxTracer _ => Err (HttpError 403 "muxTracer is not allowed")
     end, w + 1)
|}.

(** Every contract is a consumer of registry 5. *)
Definition sample_reads : Reads := λ _ data _,
  Some (replicate 31 0 ++ [if bool_decide (data = SCHNORR_REGISTRY_SELECTOR) then 5 else 1]).

#[export] Instance sample_calls : EthCall bool Z := {|
  eth_call _ r b w :=
    (match tr_to r with
     | Some (KCall to) => from_option Ok (Err (Transport "")) (sample_reads to (default [] (tr_input r)) b)
     | _ => Err (Transport "")
     end, w + 1)
|}.

#[export] Instance sample_builder : SketchBuilder bool Z := {|
  new_http url := if String.eqb url "light" then Some true else if String.eqb url "heavy" then Some false else None;
  get_chain_id _ w := (Ok 100, w);
  build_evm_sketch p tag _ w :=
    (Ok (mkEvmSketch p (mkHeader (match tag with TagNumber n => n | TagLatest => 0 end) 5 30000000 0 0 None 0) 9), w);
  evm_spec _ _ := 17
|}.
#[export] Instance sample_sketch_laws : SketchLaws bool Z.
Proof.
  refine {| chain_id_of _ := 100 |}.
  - by intros p w w' id [= <- <-].
  - by intros p n g w w' sk [= <- <-].
Defined.

(** A cache of one executor. *)
#[export] Instance sample_lru : Lru (option ((string * Z) * EvmSketchExecutor bool)) (string * Z)
    (EvmSketchExecutor bool) := {|
  lru_peek c k := e ← c; if bool_decide (e.1 = k) then Some e.2 else None;
  lru_get c k := (e ← c; if bool_decide (e.1 = k) then Some e.2 else None, c);
  lru_put _ k v := Some (k, v)
|}.
#[export] Instance sample_lru_laws :
  LruLaws (option ((string * Z) * EvmSketchExecutor bool)) (string * Z) (EvmSketchExecutor bool).
Proof.
  split; [done|done|]. intros c k j v u. cbn. case_bool_decide; [|done]. intros [= <-]. by left.
Qed.

(** revm over the database, as a transaction's base cost. *)
#[export] Instance sample_runtime : Runtime bool Z SampleCache := {|
  state_node _ := {|
    get_proof _ _ _ w := (Err (ErrorResp (mkPayload (-32601) "")), w);
    get_code_at _ _ w := (Ok [], w);
    get_balance _ _ w := (Ok 0, w);
    get_transaction_count _ _ w := (Ok 0, w);
    get_storage_at _ _ _ w := (Ok 0, w);
    get_block_hash _ w := (Ok None, w);
    code_hash_of := sample_code_hash;
    KECCAK_EMPTY := 1
  |};
  empty_cache := mkSampleCache ∅ ∅;
  revm_at _ _ _ := {|
    db_basic db a := cached_account (dw_cache db) a;
    db_insert_account db a i :=
      mkDbWorld (dw_node db) (dw_supported db) (insert_account_info (dw_cache db) a i);
    db_set_code_hash db _ _ := db;
    db_insert_storage db a s v :=
      mkDbWorld (dw_node db) (dw_supported db) <$> insert_account_storage (dw_cache db) a s v;
    db_storage db a s := default 0 (cached_slot (dw_cache db) a s);
    hash_slow := sample_code_hash;
    keccak_empty := 1;
    evm_transact db _ _ _ _ _ := Some (ExSuccess 30000, db)
  |};
  replay_at _ _ _ := {| TxEnv := unit; build_tx_env _ := Some ();
    transact_commit db _ := Some (ExSuccess 0, db) |};
  completion := map_items;
  estimator_code := [1];
  osaka := 18
|}.

Abbreviation SampleApp := (App bool (option ((string * Z) * EvmSketchExecutor bool)) Z).
Definition sample_app : SampleApp := mkApp 0 (cache_new None).

Lemma sample_app_ok : app_ok sample_app.
Proof.
  split_and!; cbn.
  - intros url p. by rewrite lookup_empty.
  - intros url id. by rewrite lookup_empty.
  - done.
Qed.

Lemma sample_endpoints_honest light : honest (W := Z) (truth_of light) light.
Proof.
  intros r b ov asked w w' res Hasked. unfold debug_trace_call, sample_endpoints. cbn.
  destruct asked; intros [= <- <-]; cbn; try done.
  intros _ (reason & payload & Hc & _). vm_compute in Hc. discriminate Hc.
Qed.

Lemma light_url : new_http (P := bool) (W := Z) "light" = Some true.
Proof. reflexivity. Qed.

Lemma sample_reads_honest light : honest_reads (P := bool) (W := Z) sample_reads light.
Proof. by intros to data b w w' res [= <- <-]. Qed.

Lemma get_or_build_sound_witness :
  ∃ e, (get_or_build_timed "light" 7 sample_app).1 = Ok (e, false) ∧ executor_for true 7 e.
Proof.
  destruct (get_or_build_timed "light" 7 sample_app) as [res s'] eqn:Hrun.
  destruct (get_or_build_sound "light" 7 sample_app res s' sample_app_ok Hrun) as [_ Hres].
  destruct res as [[e hit]|e|w]; [|vm_compute in Hrun; discriminate Hrun..].
  destruct Hres as (p & Hp & Hex). exists e. split.
  - assert (hit = false) as -> by (vm_compute in Hrun; injection Hrun as _ <- _; reflexivity).
    reflexivity.
  - cbn in Hp. injection Hp as <-. exact Hex.
Defined.

(** Encoding under the unbounded profile: one store, in the net form. *)
Lemma encoded_program_agrees_witness :
  ∃ out, (call_to_encoded_state_updates_profiled (C := SampleCache) "light" sample_request 7 PrestateNet
            Unbounded sample_app).1 = Ok out ∧
    encode_returns light_truth PrestateNet Unbounded sample_request 7 out.
Proof.
  destruct (call_to_encoded_state_updates_profiled (C := SampleCache) "light" sample_request 7 PrestateNet
    Unbounded sample_app) as [res s'] eqn:Hrun.
  destruct (encoded_program_agrees light_truth "light" true light_url (sample_endpoints_honest true)
    PrestateNet Unbounded sample_request 7 sample_app res s' sample_app_ok Hrun) as [_ Hres].
  destruct res as [out|e|w]; [|vm_compute in Hrun; discriminate Hrun..].
  exists out. split; [reflexivity|exact Hres].
Defined.

Lemma frame_tree_agrees_witness :
  ∃ out, (call_to_frame_tree (C := SampleCache) "light" sample_request 7 Canonical Unbounded
            NESTING_COST_MODEL_V1 sample_app).1 = Ok out ∧
    length (eft_frames out) = 2%nat ∧
    tree_returns light_truth sample_reads Canonical Unbounded NESTING_COST_MODEL_V1 sample_request 7 out.
Proof.
  destruct (call_to_frame_tree (C := SampleCache) "light" sample_request 7 Canonical Unbounded
    NESTING_COST_MODEL_V1 sample_app) as [res s'] eqn:Hrun.
  destruct res as [out|e|w]; [|vm_compute in Hrun; discriminate Hrun..].
  exists out. split; [reflexivity|]. split.
  - vm_compute in Hrun. injection Hrun as <- _. reflexivity.
  - exact (proj2 (proj2 (frame_tree_agrees light_truth sample_reads "light" true light_url
      (sample_endpoints_honest true) (sample_reads_honest true) Canonical Unbounded NESTING_COST_MODEL_V1
      sample_request 7 sample_app out s' sample_app_ok Hrun))).
Defined.

(** A net form that does not fit the budget is refused as a program, but returned as a tree: the net
    branch of [call_to_frame_tree] has no gate. *)
Example net_tree_has_no_gate :
  (∃ v, (call_to_encoded_state_updates_profiled (C := SampleCache) "heavy" sample_request 7 PrestateNet
           Unbounded sample_app).1 = Err (EncRejected 10 v)) ∧
  (∃ out, (call_to_frame_tree (C := SampleCache) "heavy" sample_request 7 PrestateNet Unbounded
             NESTING_COST_MODEL_V1 sample_app).1 = Ok out ∧
    length (flat_map fp_updates (eft_frames out)) = 800%nat).
Proof.
  split; [eexists; vm_compute; reflexivity|]. eexists. split; [vm_compute; reflexivity|].
  vm_compute. reflexivity.
Qed.
