(* ===== verification/LeanTrace.v ===== *)
(** * Lean trace parsing

    [crates/wasm/src/lean_trace.rs]: the visitor that reads a struct log from the fields of a JSON map
    and keeps its memory only where extraction reads it. serde's decoders of single values are
    operations of a class; the visitor's own loop over the fields, in the order they come, is modelled. *)

From S2P Require Import Prelude.
From S2P Require Import Types.
From S2P Require Import Trace.

(** What serde decodes a JSON value as; [None] where it refuses. *)
Class Serde (V : Type) := {
  as_u64 : V → option Z;
  as_string : V → option string;
  as_opt_string : V → option (option string);
  (** [Option<Vec<U256>>] *)
  as_opt_words : V → option (option (list Z));
  (** [Option<Vec<String>>] *)
  as_opt_strings : V → option (option (list string));
  as_opt_u64 : V → option (option Z);
  (** [Option<IgnoredAny>]: whether the value is other than null. *)
  is_present : V → bool
}.

(** What the visitor relies on: a list of strings is there exactly where the value is not null. *)
Class SerdeLaws (V : Type) `{Serde V} : Prop := {
  strings_present v m : as_opt_strings v = Some m → is_present v = bool_decide (is_Some m)
}.

Inductive Field := FPc | FOp | FGas | FGasCost | FDepth | FError | FStack | FMemory | FMemSize | FRefund | FOther.

(** [field_identifier], [rename_all = "camelCase"]. *)
Definition field_of (key : string) : Field :=
  if (key =? "pc")%string then FPc else if (key =? "op")%string then FOp
  else if (key =? "gas")%string then FGas else if (key =? "gasCost")%string then FGasCost
  else if (key =? "depth")%string then FDepth else if (key =? "error")%string then FError
  else if (key =? "stack")%string then FStack else if (key =? "memory")%string then FMemory
  else if (key =? "memSize")%string then FMemSize else if (key =? "refund")%string then FRefund
  else FOther.

Inductive SerdeError :=
  | InvalidValue (key : string)
  | MissingField (name : string).

(** The locals of [visit_map]; the fields of [log] that only the end sets are left out. *)
Record Visit := mkVisit {
  vi_pc : option Z;
  vi_op : option string;
  vi_gas : option Z;
  vi_gas_cost : option Z;
  vi_depth : option Z;
  vi_error : option string;
  vi_stack : option (list Z);
  vi_memory : option (list string);
  vi_memory_size : option Z;
  vi_refund_counter : option Z
}.

Definition visit_start : Visit := mkVisit None None None None None None None None None None.

(** A step's memory where it is not read: an empty snapshot if there was one. *)
Definition forget_memory (memory : option (list string)) : option (list string) := (λ _, []) <$> memory.

Section visitor.
Context {V : Type} `{Serde V}.

(** A map, in the order its fields come. *)
Abbreviation Entries := (list (string * V)).

Definition decode {A} (read : V → option A) (e : string * V) : Res SerdeError A :=
  ok_or (read e.2) (InvalidValue e.1).

(** The arm of [Field::Memory]. *)
Definition visit_memory (op : option string) (e : string * V) : Res SerdeError (option (list string)) :=
  match op with
  | Some op =>
      if negb (reads_memory op) then Ok (if is_present e.2 then Some [] else None)
      else decode as_opt_strings e
  | None => decode as_opt_strings e
  end.

Definition visit_field (s : Visit) (e : string * V) : Res SerdeError Visit :=
  let 'mkVisit pc op gas cost depth err stack memory size refund := s in
  match field_of e.1 with
  | FPc => v ← decode as_u64 e; Ok (mkVisit (Some v) op gas cost depth err stack memory size refund)
  | FOp => v ← decode as_string e; Ok (mkVisit pc (Some v) gas cost depth err stack memory size refund)
  | FGas => v ← decode as_u64 e; Ok (mkVisit pc op (Some v) cost depth err stack memory size refund)
  | FGasCost => v ← decode as_u64 e; Ok (mkVisit pc op gas (Some v) depth err stack memory size refund)
  | FDepth => v ← decode as_u64 e; Ok (mkVisit pc op gas cost (Some v) err stack memory size refund)
  | FError => v ← decode as_opt_string e; Ok (mkVisit pc op gas cost depth v stack memory size refund)
  | FStack => v ← decode as_opt_words e; Ok (mkVisit pc op gas cost depth err v memory size refund)
  | FMemory => v ← visit_memory op e; Ok (mkVisit pc op gas cost depth err stack v size refund)
  | FMemSize => v ← decode as_opt_u64 e; Ok (mkVisit pc op gas cost depth err stack memory v refund)
  | FRefund => v ← decode as_opt_u64 e; Ok (mkVisit pc op gas cost depth err stack memory size v)
  | FOther => Ok s
  end.

(** What the end of [visit_map] makes of the locals. *)
Definition finish_log (s : Visit) : Res SerdeError StructLog :=
  op ← ok_or (vi_op s) (MissingField "op");
  let memory := if reads_memory op then vi_memory s else forget_memory (vi_memory s) in
  _ ← ok_or (vi_pc s) (MissingField "pc");
  gas ← ok_or (vi_gas s) (MissingField "gas");
  gas_cost ← ok_or (vi_gas_cost s) (MissingField "gasCost");
  depth ← ok_or (vi_depth s) (MissingField "depth");
  Ok (mkStructLog depth op gas gas_cost (vi_stack s) memory (vi_error s) (vi_refund_counter s)).

Definition visit_map (map : Entries) : Res SerdeError StructLog :=
  s ← foldM visit_field map visit_start; finish_log s.

(** [LeanFrame] before its logs are visited. *)
Record RawFrame := mkRawFrame {
  rf_failed : bool;
  rf_gas : Z;
  rf_return_value : list Z;
  rf_struct_logs : list Entries
}.

Fixpoint visit_all (visit : Entries → Res SerdeError StructLog) (maps : list Entries)
  : Res SerdeError (list StructLog) :=
  match maps with
  | [] => Ok []
  | map :: maps => log ← visit map; logs ← visit_all visit maps; Ok (log :: logs)
  end.

(** Deserializing a [LeanFrame], and [DefaultFrame::from]. *)
Definition parse_lean_frame (frame : RawFrame) : Res SerdeError DefaultFrame :=
  logs ← visit_all visit_map (rf_struct_logs frame);
  Ok (mkDefaultFrame (rf_failed frame) (rf_gas frame) (rf_return_value frame) logs).
End visitor.
Arguments RawFrame V : clear implicits.
