(* ===== verification/LeanSpec.v ===== *)
(** * Lean and full parsing agree

    A reference parser reads the same fields in the same order but keeps every memory snapshot. What
    it accepts the lean one accepts, with the snapshots extraction does not read emptied, and the
    extraction and the split of the two traces are the same. *)

From S2P Require Import Prelude.
From S2P Require Import Types.
From S2P Require Import Instances.
From S2P Require Import Trace.
From S2P Require Import SimProfile.
From S2P Require Import Scan.
From S2P Require Import FrameTree.
From S2P Require Import Prune.
From S2P Require Import LeanTrace.

(** ** Reference *)

Section reference.
Context {V : Type} `{Serde V}.

Definition full_field (s : Visit) (e : string * V) : Res SerdeError Visit :=
  match field_of e.1 with
  | FMemory =>
      v ← decode as_opt_strings e;
      Ok (mkVisit (vi_pc s) (vi_op s) (vi_gas s) (vi_gas_cost s) (vi_depth s) (vi_error s)
            (vi_stack s) v (vi_memory_size s) (vi_refund_counter s))
  | _ => visit_field s e
  end.

Definition full_log (s : Visit) : Res SerdeError StructLog :=
  op ← ok_or (vi_op s) (MissingField "op");
  _ ← ok_or (vi_pc s) (MissingField "pc");
  gas ← ok_or (vi_gas s) (MissingField "gas");
  gas_cost ← ok_or (vi_gas_cost s) (MissingField "gasCost");
  depth ← ok_or (vi_depth s) (MissingField "depth");
  Ok (mkStructLog depth op gas gas_cost (vi_stack s) (vi_memory s) (vi_error s) (vi_refund_counter s)).

Definition full_map (map : list (string * V)) : Res SerdeError StructLog :=
  s ← foldM full_field map visit_start; full_log s.

Definition parse_full_frame (frame : RawFrame V) : Res SerdeError DefaultFrame :=
  logs ← visit_all full_map (rf_struct_logs frame);
  Ok (mkDefaultFrame (rf_failed frame) (rf_gas frame) (rf_return_value frame) logs).
End reference.

(** A log whose memory is kept only where it is read. *)
Definition lean_log (l : StructLog) : StructLog :=
  if reads_memory (sl_op l) then l
  else mkStructLog (sl_depth l) (sl_op l) (sl_gas l) (sl_gas_cost l) (sl_stack l)
         (forget_memory (sl_memory l)) (sl_error l) (sl_refund_counter l).

Definition lean_frame (trace : DefaultFrame) : DefaultFrame :=
  mkDefaultFrame (df_failed trace) (df_gas trace) (df_return_value trace)
    (lean_log <$> df_struct_logs trace).

(** ** Parsing *)

Section parsing.
Context {V : Type} `{SerdeLaws V}.

(** The lean locals [s] against the full ones [t], with the keys still to come: equal but for the
    memory, which is that of [t] or, once the opcode is known not to read it, emptied. *)
Definition visit_like (rest : list string) (s t : Visit) : Prop :=
  ∃ memory,
    s = mkVisit (vi_pc t) (vi_op t) (vi_gas t) (vi_gas_cost t) (vi_depth t) (vi_error t)
          (vi_stack t) memory (vi_memory_size t) (vi_refund_counter t) ∧
    (is_Some (vi_op t) → "op"%string ∉ rest) ∧
    (memory = vi_memory t ∨
     memory = forget_memory (vi_memory t) ∧ reads_memory <$> vi_op t = Some false).

Lemma field_of_op key : field_of key = FOp → key = "op"%string.
Proof.
  unfold field_of. destruct (String.eqb_spec key "pc"); [done|].
  destruct (String.eqb_spec key "op") as [->|]; [done|]. by repeat case_match.
Qed.

Lemma visit_memory_full op (e : string * V) m :
  decode as_opt_strings e = Ok m →
  visit_memory op e = Ok m ∨
  visit_memory op e = Ok (forget_memory m) ∧ reads_memory <$> op = Some false.
Proof.
  intros Hm. unfold visit_memory. destruct op as [op|]; [|by left].
  destruct (reads_memory op) eqn:Hop; cbn [negb]; [by left|]. right. split; [|cbn; by rewrite Hop].
  unfold decode in Hm. destruct (as_opt_strings e.2) as [m'|] eqn:Hv; [|done].
  injection Hm as ->. rewrite (strings_present _ _ Hv). by destruct m.
Qed.

(** One field. *)
Lemma visit_field_like e rest s t t' :
  e.1 ∉ rest → visit_like (e.1 :: rest) s t → full_field t e = Ok t' →
  ∃ s', visit_field s e = Ok s' ∧ visit_like rest s' t'.
Proof.
  intros He (memory & -> & Hop & Hmem) Ht. destruct t as [pc op gas cost depth err stack m size refund].
  cbn in Hop, Hmem. rewrite not_elem_of_cons in Hop.
  unfold full_field in Ht. unfold visit_field. cbn in Ht |- *.
  destruct (field_of e.1) eqn:Hf.
  2: { apply field_of_op in Hf as Hkey.
    destruct op as [op|]; [destruct Hop as [Hne _]; [by eexists|congruence]|].
    inv_res. eexists; split; [done|].
    eexists; split; [done|]. cbn. destruct Hmem as [->|[_ [=]]]. split; [congruence|by left]. }
  7: { destruct (decode as_opt_strings e) as [v| |] eqn:Hv; [|done..]. cbn in Ht. inv_res.
    destruct (visit_memory_full op e v Hv) as [->|[-> Hr]]; cbn; eexists; (split; [done|]);
      eexists; (split; [done|]); cbn; (split; [intros Ho; by apply Hop|]); [by left|by right]. }
  all: inv_res; eexists; (split; [done|]); eexists; (split; [done|]); cbn;
    (split; [intros Ho; by apply Hop|done]).
Qed.

Lemma visit_fields_like map s t t' :
  NoDup map.*1 → visit_like map.*1 s t → foldM full_field map t = Ok t' →
  ∃ s', foldM visit_field map s = Ok s' ∧ visit_like [] s' t'.
Proof.
  revert s t. induction map as [|e map IH]; intros s t Hnd Hs Ht; cbn in *.
  { inv_res. eauto. }
  apply NoDup_cons in Hnd as [He Hnd]. inv_res.
  destruct (visit_field_like e map.*1 s t a) as (s' & -> & Hs'); [done..|]. cbn.
  by eapply IH.
Qed.

Lemma visit_map_full map l :
  NoDup map.*1 → full_map map = Ok l → visit_map map = Ok (lean_log l).
Proof.
  intros Hnd Hl. unfold full_map, visit_map in *.
  destruct (foldM full_field map visit_start) as [t| |] eqn:Ht; [|done..].
  destruct (visit_fields_like map visit_start visit_start t) as (s & -> & Hs); [done| |done|].
  { eexists. split; [done|]. split; [by intros []|by left]. }
  destruct Hs as (memory & -> & _ & Hmem). destruct t as [pc op gas cost depth err stack m size refund].
  cbn in Hl, Hmem |- *. unfold full_log, finish_log in *. cbn in Hl |- *.
  destruct op as [op|]; [|done]. cbn in Hl |- *.
  destruct pc, gas, cost, depth; try discriminate Hl. cbn in Hl |- *. injection Hl as <-.
  unfold lean_log. cbn. destruct (reads_memory op) eqn:Hop.
  - destruct Hmem as [->|[_ Hno]]; [done|]. cbn in Hno. congruence.
  - destruct Hmem as [->|[-> _]]; [done|]. by destruct m.
Qed.

Lemma visit_all_full maps logs :
  Forall (λ map, NoDup map.*1) maps → visit_all full_map maps = Ok logs →
  visit_all visit_map maps = Ok (lean_log <$> logs).
Proof.
  intros Hnd. revert logs. induction Hnd as [|map maps Hmap _ IH]; intros logs Hl; cbn in *.
  { by inv_res. }
  inv_res. rewrite (visit_map_full map _ Hmap Heqr). cbn.
  rewrite (IH _ eq_refl). done.
Qed.

Lemma parse_lean_full frame trace :
  Forall (λ map, NoDup map.*1) (rf_struct_logs frame) → parse_full_frame frame = Ok trace →
  parse_lean_frame frame = Ok (lean_frame trace).
Proof.
  unfold parse_full_frame, parse_lean_frame. intros Hnd Hf. inv_res.
  by rewrite (visit_all_full _ _ Hnd Heqr).
Qed.
End parsing.

(** ** Extraction *)

Section extraction.
Context `{Externals}.

Lemma lean_reads l : reads_memory (sl_op l) = true → lean_log l = l.
Proof. unfold lean_log. by intros ->. Qed.

Lemma parse_memory_outcome memory :
  parse_trace_memory memory = Panic "invalid hex" ∨ ∃ bs, parse_trace_memory memory = Ok bs.
Proof.
  unfold parse_trace_memory. generalize (@nil Z).
  induction memory as [|w memory IH]; intros acc; cbn; [by eauto|].
  destruct (hex_decode (strip_0x w)); cbn; [apply IH|by left].
Qed.

(** Only [SSTORE] is decoded without its memory being read. *)
Lemma append_lean ups l :
  is_state_op (sl_op l) = true →
  append_state_update_from_struct_log ups l ≠ Panic "invalid hex" →
  append_state_update_from_struct_log ups (lean_log l) = append_state_update_from_struct_log ups l.
Proof.
  unfold lean_log. intros Hop Hp. destruct (reads_memory (sl_op l)) eqn:Hr; [done|].
  unfold append_state_update_from_struct_log in *. cbn.
  destruct (sl_stack l) as [stack|]; [|done]. cbn in Hp |- *.
  destruct (sl_memory l) as [memory|]; [|done]. cbn.
  destruct (parse_memory_outcome memory) as [He|[bs He]]; rewrite He in Hp |- *; [done|]. cbn.
  unfold append_by_opcode, is_state_op, reads_memory in *.
  by destruct (opc_of (sl_op l)).
Qed.

Lemma extract_op_lean s l :
  extract_op s l ≠ Panic "invalid hex" → extract_op s (lean_log l) = extract_op s l.
Proof.
  intros Hp. destruct s as [ups td sk cs ct tr aw pe cg ce cr ss re].
  assert (sl_depth (lean_log l) = sl_depth l) as Hd by (unfold lean_log; by case_match).
  assert (sl_op (lean_log l) = sl_op l) as Ho by (unfold lean_log; by case_match).
  assert (∀ s, record_update s (lean_log l) = record_update s l) as Hrec.
  { intros s. unfold lean_log. by case_match. }
  unfold extract_op in *. rewrite Hd, Ho. destruct (negb _); [done|].
  destruct (is_state_op (sl_op l)) eqn:Hst; [|done].
  destruct cs; [|done].
  assert (append_state_update_from_struct_log ups l ≠ Panic "invalid hex") as Hap.
  { intros Hap. apply Hp. unfold is_state_op in Hst.
    rewrite Hap. by destruct (opc_of (sl_op l)). }
  rewrite (append_lean ups l Hst Hap).
  destruct (append_state_update_from_struct_log ups l) as [[ups' [o|]]| |]; [done| |done..].
  cbn [mbind res_bind]. by rewrite Hrec.
Qed.

Lemma trace_step_lean origin s l :
  trace_step origin s l ≠ Panic "invalid hex" →
  trace_step origin s (lean_log l) = trace_step origin s l.
Proof.
  unfold trace_step.
  assert (take_awaiting_entry s (lean_log l) = take_awaiting_entry s l) as ->
    by (unfold lean_log; by case_match).
  assert (close_pending_create (take_awaiting_entry s l) (lean_log l) =
          close_pending_create (take_awaiting_entry s l) l) as ->
    by (unfold lean_log; by case_match).
  destruct (close_pending_create _ l) as [t| |]; cbn; [|done..].
  assert (detect_reentry origin t (lean_log l) = detect_reentry origin t l) as ->
    by (unfold lean_log; by case_match).
  assert (leave_frames (detect_reentry origin t l) (lean_log l) =
          leave_frames (detect_reentry origin t l) l) as -> by (unfold lean_log; by case_match).
  apply extract_op_lean.
Qed.

Lemma trace_loop_lean origin logs s :
  foldM (trace_step origin) logs s ≠ Panic "invalid hex" →
  foldM (trace_step origin) (lean_log <$> logs) s = foldM (trace_step origin) logs s.
Proof.
  revert s. induction logs as [|l logs IH]; intros s Hp; cbn in *; [done|].
  rewrite trace_step_lean by (intros Hs; by rewrite Hs in Hp).
  destruct (trace_step origin s l); cbn in *; [by apply IH|done..].
Qed.

Lemma compute_lean trace origin :
  compute_state_updates trace origin ≠ Panic "invalid hex" →
  compute_state_updates (lean_frame trace) origin = compute_state_updates trace origin.
Proof.
  unfold compute_state_updates. intros Hp. cbn [lean_frame df_struct_logs] in *.
  rewrite trace_loop_lean by (intros Hs; by rewrite Hs in Hp).
  assert (trace_refund_counter (lean_log <$> df_struct_logs trace) =
          trace_refund_counter (df_struct_logs trace)) as ->; [|done].
  unfold trace_refund_counter. rewrite fmap_last.
  destruct (last (df_struct_logs trace)) as [l|]; [|done]. cbn. unfold lean_log. by case_match.
Qed.
End extraction.

(** ** The split

    It reads memory only for [CALL], creates and logs, which keep theirs. *)

Section split.
Context `{Externals}.

Lemma scan_step_lean s i l : scan_step s (i, lean_log l) = scan_step s (i, l).
Proof. unfold lean_log. by case_match. Qed.

Lemma walk_op_lean e c s l : walk_op e c s (lean_log l) = walk_op e c s l.
Proof.
  unfold lean_log. destruct (reads_memory (sl_op l)) eqn:Hr; [done|].
  destruct s as [programs frames pending skipped]. unfold walk_op. cbn.
  unfold reads_memory in Hr. by destruct (opc_of (sl_op l)).
Qed.

Lemma split_step_lean e cands s i l : split_step e cands s (i, lean_log l) = split_step e cands s (i, l).
Proof.
  unfold split_step.
  assert (open_pending s (lean_log l) = open_pending s l) as -> by (unfold lean_log; by case_match).
  destruct (open_pending s l) as [t| |]; cbn [mbind res_bind]; [|done..].
  assert (∀ n programs frames, close_frames n programs frames (lean_log l) =
    close_frames n programs frames l) as ->.
  { intros n. induction n as [|n IH]; intros programs frames; cbn; [done|].
    assert (sl_depth (lean_log l) = sl_depth l) as -> by (unfold lean_log; by case_match).
    assert (close_frame programs frames (lean_log l) = close_frame programs frames l) as ->
      by (unfold lean_log; by case_match).
    destruct (sl_depth l <? _); [|done].
    destruct (close_frame programs frames l) as [[]| |]; cbn; auto. }
  destruct (close_frames _ _ _ l) as [[]| |]; cbn [mbind res_bind]; [|done..].
  apply walk_op_lean.
Qed.

(** A loop over the numbered logs whose body cannot tell a lean log. *)
Lemma enumerate_loop_lean {S} (f : S → nat * StructLog → Result S) logs s :
  (∀ s i l, f s (i, lean_log l) = f s (i, l)) →
  foldM f (enumerate (lean_log <$> logs)) s = foldM f (enumerate logs) s.
Proof.
  intros Hf. unfold enumerate. rewrite length_fmap. generalize (seq 0 (length logs)) as ks.
  intros ks. revert logs s. induction ks as [|k ks IH]; intros [|l logs] s; cbn; try done.
  rewrite Hf. by destruct (f s (k, l)); cbn.
Qed.

Lemma split_lean trace root e cost :
  split_frame_tree (lean_frame trace) root e cost = split_frame_tree trace root e cost.
Proof.
  unfold split_frame_tree, scan_candidates. cbn [lean_frame df_struct_logs].
  rewrite enumerate_loop_lean by apply scan_step_lean.
  destruct (foldM scan_step _ _) as [t| |]; cbn [mbind res_bind]; [|done..].
  by rewrite enumerate_loop_lean by apply split_step_lean.
Qed.
End split.

(** ** Property *)

(** C19: What the reference parser makes of a frame, the lean parser makes of it with the memory of every
    step that extraction does not read emptied, whatever the order of the fields; and from the lean
    trace [compute_state_updates] and every frame-tree split give what they give on the full one (unless
    the full one holds a snapshot that is no hexadecimal, which only the full extraction trips over). *)
Theorem lean_parse_agrees {V} `{SerdeLaws V, Externals} (frame : RawFrame V) full :
  Forall (λ map, NoDup map.*1) (rf_struct_logs frame) →
  parse_full_frame frame = Ok full →
  parse_lean_frame frame = Ok (lean_frame full) ∧
  (∀ origin, compute_state_updates full origin ≠ Panic "invalid hex" →
     compute_state_updates (lean_frame full) origin = compute_state_updates full origin) ∧
  (∀ root e cost, split_frame_tree (lean_frame full) root e cost = split_frame_tree full root e cost).
Proof.
  intros Hnd Hf. split_and!.
  - by apply parse_lean_full.
  - intros origin. apply compute_lean.
  - intros root e cost. apply split_lean.
Qed.

(** ** Example *)

Inductive SampleJson :=
  | JNull | JNum (n : Z) | JStr (s : string) | JWords (ws : list Z) | JStrs (ss : list string).

#[export] Instance sample_serde : Serde SampleJson := {|
  as_u64 v := match v with JNum n => Some n | _ => None end;
  as_string v := match v with JStr s => Some s | _ => None end;
  as_opt_string v := match v with JNull => Some None | JStr s => Some (Some s) | _ => None end;
  as_opt_words v := match v with JNull => Some None | JWords ws => Some (Some ws) | _ => None end;
  as_opt_strings v := match v with JNull => Some None | JStrs ss => Some (Some ss) | _ => None end;
  as_opt_u64 v := match v with JNull => Some None | JNum n => Some (Some n) | _ => None end;
  is_present v := match v with JNull => false | _ => true end
|}.

#[export] Instance sample_serde_laws : SerdeLaws SampleJson.
Proof. split. by intros [] m [= <-]. Qed.

(** A write with its memory first and its opcode last, and a log. *)
Definition sample_raw : RawFrame SampleJson := mkRawFrame false 1 [] [
  [("memory", JStrs ["00"]); ("pc", JNum 0); ("gas", JNum 9); ("gasCost", JNum 3); ("depth", JNum 1);
   ("stack", JWords [7; 1]); ("storage", JNull); ("op", JStr "SSTORE")];
  [("op", JStr "LOG0"); ("pc", JNum 1); ("gas", JNum 6); ("gasCost", JNum 3); ("depth", JNum 1);
   ("stack", JWords [1; 0]); ("memory", JStrs ["ab"])]]%string.

Lemma lean_parse_agrees_witness :
  ∃ full, parse_full_frame sample_raw = Ok full ∧
    sl_memory <$> df_struct_logs full = [Some ["00"]; Some ["ab"]]%string ∧
    sl_memory <$> df_struct_logs (lean_frame full) = [Some []; Some ["ab"]]%string ∧
    parse_lean_frame sample_raw = Ok (lean_frame full) ∧
    compute_state_updates (H := sample_externals) (lean_frame full) None =
    compute_state_updates (H := sample_externals) full None.
Proof.
  eexists. split; [vm_compute; reflexivity|]. split; [reflexivity|]. split; [reflexivity|].
  eassert (Hnd : Forall _ _); [|eassert (Hfull : parse_full_frame sample_raw = Ok _);
    [|destruct (lean_parse_agrees (H1 := sample_externals) sample_raw _ Hnd Hfull) as (Hp & Hc & _)]].
  - by_compute.
  - vm_compute. reflexivity.
  - split; [exact Hp|apply Hc]. vm_compute. discriminate.
Defined.
