(* ===== verification/Seeds.v ===== *)
(** * What the empty state is seeded with

    From [crates/wasm/src/lib.rs]: the accounts and slots an analysis in the browser puts into an
    otherwise empty database before it runs a program, from the prestate diff of the transaction or
    from its whole prestate. The database and the decoding of bytecode are parameters. *)

From S2P Require Import Prelude.
From S2P Require Import Types.
From S2P Require Import Trace.
From S2P Require Import Prestate.
From S2P Require Import SimProfile.
From S2P Require Import Prune.
From S2P Require Import Estimator.
From S2P Require Import RpcDb.

(** An account as [prestateTracer] gives it. *)
Record AccountState := mkAccountState {
  as_balance : option Z;
  as_nonce : option Z;
  as_code : option (list Z);
  as_storage : gmap Z Z
}.

(** alloy's [DiffMode], with all of its accounts' fields. *)
Record StateDiff := mkStateDiff {
  sd_pre : gmap Z AccountState;
  sd_post : gmap Z AccountState
}.

(** The storage of a diff, which is what [Prestate] reads. *)
Definition storage_diff (diff : StateDiff) : DiffMode :=
  mkDiffMode (as_storage <$> sd_pre diff) (as_storage <$> sd_post diff).

Record Seeds := mkSeeds {
  sd_storage : gmap Z (gmap Z Z);
  sd_accounts : gmap Z AccountInfo
}.
Definition no_seeds : Seeds := mkSeeds ∅ ∅.

(** [Bytecode::new_raw_checked], its error printed, and [KECCAK_EMPTY]. *)
Class Bytecode := {
  new_raw_checked : list Z → Res string (list Z);
  EMPTY_HASH : Z
}.

(** Every account a [CALL] or [CALLCODE] of the trace entered a frame in. *)
Definition entered_callee (call next : StructLog) : option Z :=
  if bool_decide (sl_op call = "CALL" ∨ sl_op call = "CALLCODE")%string &&
     bool_decide (sl_error call = None) && (sl_depth next =? sl_depth call + 1)
  then stack ← sl_stack call; target ← second_from_top stack; Some (address_from_word target)
  else None.

Fixpoint entered_callees (logs : list StructLog) : list Z :=
  match logs with
  | call :: ((next :: _) as logs) =>
      match entered_callee call next with Some a => [a] | None => [] end ++ entered_callees logs
  | _ => []
  end.

Definition callees_with_code (trace : DefaultFrame) : gset Z :=
  list_to_set (entered_callees (df_struct_logs trace)).

Section called.
Context `{Bytecode}.

(** The account that a call's target is created as, if it was not empty. *)
Definition called_account (diff : option StateDiff) (with_code : gset Z) (target : Z)
  : option AccountInfo :=
  let existing := mkAccountInfo 0 1 EMPTY_HASH (Some []) in
  match diff ≫= (λ d, sd_pre d !! target) with
  | None => if bool_decide (target ∈ with_code) then Some existing else None
  | Some pre =>
      let balance := default 0 (as_balance pre) in
      let nonce := default 0 (as_nonce pre) in
      let has_code := negb (length (default [] (as_code pre)) =? 0)%nat || bool_decide (target ∈ with_code) in
      if (balance =? 0) && (nonce =? 0) && negb has_code then None
      else Some (mkAccountInfo balance (if has_code then Z.max nonce 1 else nonce) EMPTY_HASH (Some []))
  end.

Definition insert_called (diff : option StateDiff) (with_code : gset Z) (accounts : gmap Z AccountInfo)
  (update : StateUpdate) : gmap Z AccountInfo :=
  match update with
  | UCall call =>
      match called_account diff with_code (call_target call) with
      | Some info => <[call_target call := info]> accounts
      | None => accounts
      end
  | _ => accounts
  end.

Definition called_accounts (diff : option StateDiff) (updates : list StateUpdate)
  (with_code : gset Z) : gmap Z AccountInfo :=
  fold_left (insert_called diff with_code) updates ∅.
End called.

(** ** Storage before the transaction *)

(** The value last stored to each slot. *)
Definition last_stores (updates : list StateUpdate) : gmap Z Z :=
  fold_left (λ last u, match u with UStore s => <[store_slot s := store_value s]> last | _ => last end)
    updates ∅.

Definition original_value (pre post : option (gmap Z Z)) (slot last : Z) : Z :=
  match pre ≫= (.!! slot) with
  | Some value => value
  | None => if bool_decide (is_Some (post ≫= (.!! slot))) then 0 else last
  end.

Definition original_storage (diff : StateDiff) (account : Z) (updates : list StateUpdate) : gmap Z Z :=
  let pre := as_storage <$> sd_pre diff !! account in
  let post := as_storage <$> sd_post diff !! account in
  map_imap (λ slot last, Some (original_value pre post slot last)) (last_stores updates).

(** [Seeds::for_program]. *)
Definition for_program `{Bytecode} (diff : option (StateDiff * Z)) (at_ : Z)
  (updates : list StateUpdate) (with_code : gset Z) : Seeds :=
  mkSeeds
    (match diff with
     | Some (diff, consumer) => {[at_ := original_storage diff consumer updates]}
     | None => ∅
     end)
    (called_accounts (fst <$> diff) updates with_code).

(** ** A frame tree *)

(** [visit] of [return_order]: each frame after its children. Children have larger ids than their
    parent, so [length frames] levels are enough. *)
Fixpoint visit_frame (frames : list FrameProgram) (fuel : nat) (order : list nat) (id : nat)
  : Res string (list nat) :=
  match fuel with
  | O => Panic "out of fuel"
  | S fuel =>
      frame ← expect (frames !! id) "index out of bounds";
      order ← foldM (visit_frame frames fuel) (fp_children frame) order;
      Ok (order ++ [id])
  end.

Definition return_order (frames : list FrameProgram) : Res string (list nat) :=
  match frames with
  | [] => Ok []
  | _ => visit_frame frames (length frames) [] 0
  end.

(** The updates of the frames of each contract, in the order the frames return. *)
Definition add_by_target (frames : list FrameProgram) (by_target : gmap Z (list StateUpdate)) (id : nat)
  : Res string (gmap Z (list StateUpdate)) :=
  frame ← expect (frames !! id) "index out of bounds";
  Ok (<[fp_target frame := default [] (by_target !! fp_target frame) ++ fp_updates frame]> by_target).

Definition frame_tree_seeds `{Bytecode} (diff : option StateDiff) (frames : list FrameProgram)
  (with_code : gset Z) : Res string Seeds :=
  let accounts := called_accounts diff (flat_map fp_updates frames) with_code in
  match diff with
  | None => Ok (mkSeeds ∅ accounts)
  | Some diff =>
      order ← return_order frames;
      by_target ← foldM (add_by_target frames) order ∅;
      Ok (mkSeeds (map_imap (λ target updates, Some (original_storage diff target updates)) by_target)
            accounts)
  end.

(** ** The whole prestate *)

(** The loop body of [Replay::seeds]. *)
Definition seed_account `{Externals, Bytecode} (address_text : Z → string) (seeds : Seeds)
  (item : Z * AccountState) : Res string Seeds :=
  let '(address, account) := item in
  let code := match as_code account with Some (b :: code) => Some (b :: code) | _ => None end in
  let code_hash := match code with Some code => keccak256 code | None => EMPTY_HASH end in
  code ← match code with
         | None => Ok None
         | Some code =>
             code ← map_err (λ e, "Invalid code for " +:+ address_text address +:+ " in prestate: " +:+ e)
               (new_raw_checked code);
             Ok (Some code)
         end;
  Ok (mkSeeds (<[address := as_storage account]> (sd_storage seeds))
        (<[address := mkAccountInfo (default 0 (as_balance account)) (default 0 (as_nonce account))
             code_hash code]> (sd_accounts seeds))).

Definition replay_seeds `{Externals, Bytecode} (address_text : Z → string)
  (state : gmap Z AccountState) : Res string Seeds :=
  foldM (seed_account address_text) (map_items state) no_seeds.

(** ** The seeded database *)

Section seeded.
Context {C : Type} `{CacheDB C}.
Variables (empty_db : C) (storage_error : string).

Definition seed_slot (account : Z) (db : C) (kv : Z * Z) : Res string C :=
  if kv.2 =? 0 then Ok db
  else ok_or (insert_account_storage db account kv.1 kv.2)
         ("Failed to seed storage: " +:+ storage_error).

Definition seeded_db (seeds : Seeds) : Res string C :=
  let db := fold_left (λ db kv, insert_account_info db kv.1 kv.2) (map_items (sd_accounts seeds)) empty_db in
  foldM (λ db kv, foldM (seed_slot kv.1) (map_items kv.2) db) (map_items (sd_storage seeds)) db.
End seeded.
