(* ===== verification/SeedsSpec.v ===== *)
(** * The seeded state

    What the tracer's diff says of two states, and how far the slots and accounts seeded from it are those of
    the state before the transaction; the order in which the frames of a tree return. *)

From S2P Require Import Prelude.
From S2P Require Import Types.
From S2P Require Import Trace.
From S2P Require Import Prestate.
From S2P Require Import SimProfile.
From S2P Require Import FrameTree.
From S2P Require Import Prune.
From S2P Require Import WalkInv.
From S2P Require Import TreeSpec.
From S2P Require Import EncodeTree.
From S2P Require Import Estimator.
From S2P Require Import EstimatorSpec.
From S2P Require Import RpcDb.
From S2P Require Import RpcDbSpec.
From S2P Require Import Seeds.

(** ** What a diff says *)

(** [prestateTracer] in diff mode: of each account the slots that changed, [pre] without those that
    were zero before and [post] without those that are zero after. *)
Definition diff_reports (before after : Z → Z → Z) (diff : StateDiff) : Prop :=
  ∀ account slot,
    let old := before account slot in
    let new := after account slot in
    (sd_pre diff !! account ≫= λ a, as_storage a !! slot) =
      (if decide (old ≠ new ∧ old ≠ 0) then Some old else None) ∧
    (sd_post diff !! account ≫= λ a, as_storage a !! slot) =
      (if decide (old ≠ new ∧ new ≠ 0) then Some new else None).

(** ** Storage *)

Lemma last_stores_snoc updates u :
  last_stores (updates ++ [u]) =
  match u with
  | UStore s => <[store_slot s := store_value s]> (last_stores updates)
  | _ => last_stores updates
  end.
Proof. unfold last_stores. by rewrite fold_left_app. Qed.

Lemma last_stores_lookup updates slot : last_stores updates !! slot = last_store updates slot.
Proof.
  induction updates as [|u updates IH] using rev_ind; [done|].
  rewrite last_stores_snoc, last_store_snoc. destruct u; try done.
  destruct (Z.eqb_spec (store_slot s) slot) as [->|Hne].
  - by rewrite lookup_insert_eq.
  - by rewrite lookup_insert_ne.
Qed.

Lemma original_storage_lookup diff account updates slot :
  original_storage diff account updates !! slot =
  (original_value (as_storage <$> sd_pre diff !! account) (as_storage <$> sd_post diff !! account) slot
     <$> last_store updates slot).
Proof.
  unfold original_storage. rewrite map_lookup_imap, last_stores_lookup.
  by destruct (last_store updates slot).
Qed.

(** The original of a slot that the transaction changed is its value before; of one that it left as it was, the
    value stored last. *)
Lemma original_value_spec before after diff account slot last :
  diff_reports before after diff →
  original_value (as_storage <$> sd_pre diff !! account) (as_storage <$> sd_post diff !! account) slot last =
  if decide (before account slot = after account slot) then last else before account slot.
Proof.
  intros Hd. destruct (Hd account slot) as [Hpre Hpost]. unfold original_value.
  assert (∀ o : option AccountState, (as_storage <$> o) ≫= (.!! slot) = (o ≫= λ a, as_storage a !! slot))
    as Hfm by (by intros []).
  rewrite !Hfm. cbn zeta in Hpre, Hpost. rewrite Hpre, Hpost.
  destruct (decide (before account slot = after account slot)) as [Heq|Hne].
  - rewrite !decide_False by tauto. by rewrite bool_decide_eq_false_2 by by intros [].
  - destruct (decide (before account slot = 0)) as [H0|H0]; [|by rewrite decide_True].
    rewrite decide_False by tauto. rewrite decide_True by (split; congruence).
    by rewrite bool_decide_eq_true_2 by by eexists.
Qed.
Lemma original_value_before before after diff account slot :
  diff_reports before after diff →
  original_value (as_storage <$> sd_pre diff !! account) (as_storage <$> sd_post diff !! account) slot
    (after account slot) = before account slot.
Proof. intros Hd. rewrite (original_value_spec before after) by done. by case_decide. Qed.

(** ** Accounts *)

Section accounts.
Context `{Bytecode}.

Lemma called_targets_snoc updates u :
  called_targets (updates ++ [u]) =
  called_targets updates ++ match u with UCall call => [call_target call] | _ => [] end.
Proof. unfold called_targets. rewrite flat_map_app. cbn. by rewrite app_nil_r. Qed.

Lemma insert_called_lookup diff with_code m call target :
  insert_called diff with_code m (UCall call) !! target =
  match called_account diff with_code target with
  | Some info => if decide (target = call_target call) then Some info else m !! target
  | None => m !! target
  end.
Proof.
  cbn. destruct (decide (target = call_target call)) as [->|Hne].
  - destruct (called_account _ _ _); [by rewrite lookup_insert_eq|done].
  - assert (∀ o, match o with
      | Some info => <[call_target call := info]> m
      | None => m
      end !! target = m !! target) as -> by (intros []; [by rewrite lookup_insert_ne|done]).
    by destruct (called_account _ _ target).
Qed.

Lemma called_accounts_lookup diff updates with_code target :
  called_accounts diff updates with_code !! target =
  if decide (target ∈ called_targets updates) then called_account diff with_code target else None.
Proof.
  induction updates as [|u updates IH] using rev_ind.
  { destruct (decide _) as [[]%not_elem_of_nil|]; done. }
  unfold called_accounts in *. rewrite fold_left_app. cbn [fold_left].
  rewrite called_targets_snoc.
  destruct u as [|call| | | | | | | |]; try (rewrite app_nil_r; exact IH).
  rewrite insert_called_lookup, IH.
  destruct (decide (target ∈ called_targets updates ++ [call_target call])) as [Hin|Hno].
  - apply elem_of_app in Hin as [Hin|Hin]; [|apply list_elem_of_singleton in Hin as ->].
    + rewrite (decide_True _ _ Hin).
      destruct (called_account _ _ target), (decide (target = call_target call)); done.
    + destruct (called_account _ _ _); repeat case_decide; done.
  - rewrite elem_of_app, list_elem_of_singleton in Hno.
    destruct (called_account _ _ target); repeat case_decide; try done; tauto.
Qed.

(** An account that [EIP-161] counts as empty when it has no code. *)
Definition empty_account (info : AccountInfo) : Prop :=
  ai_balance info = 0 ∧ ai_nonce info = 0.

Lemma called_account_nonempty diff with_code target info :
  called_account diff with_code target = Some info → ¬ empty_account info.
Proof.
  unfold called_account, empty_account. intros Hc [Hb Hn].
  destruct (diff ≫= _) as [pre|].
  - destruct ((default 0 (as_balance pre) =? 0)) eqn:Hbal, (default 0 (as_nonce pre) =? 0) eqn:Hnon;
      destruct (negb _ || _); cbn in Hc; try discriminate Hc; injection Hc as <-; cbn in *; lia.
  - destruct (bool_decide _); [|done]. injection Hc as <-. done.
Qed.
End accounts.

(** Whether an account was not empty when called, as far as the diff and the trace say. *)
Definition existed (diff : option StateDiff) (with_code : gset Z) (target : Z) : Prop :=
  target ∈ with_code ∨
  ∃ pre, (diff ≫= λ d, sd_pre d !! target) = Some pre ∧
    (default 0 (as_balance pre) ≠ 0 ∨ default 0 (as_nonce pre) ≠ 0 ∨ default [] (as_code pre) ≠ []).

Lemma called_account_existed `{Bytecode} diff with_code target :
  is_Some (called_account diff with_code target) ↔ existed diff with_code target.
Proof.
  unfold called_account, existed. destruct (diff ≫= _) as [pre|].
  - set (bal := default 0 (as_balance pre)). set (nonce := default 0 (as_nonce pre)).
    set (code := default [] (as_code pre)).
    assert ((bal =? 0) && (nonce =? 0) &&
      negb (negb (length code =? 0)%nat || bool_decide (target ∈ with_code)) = true ↔
      ¬ (target ∈ with_code ∨ bal ≠ 0 ∨ nonce ≠ 0 ∨ code ≠ [])) as Hiff.
    { rewrite !andb_true_iff, !Z.eqb_eq, negb_true_iff, orb_false_iff, negb_false_iff, Nat.eqb_eq,
        bool_decide_eq_false.
      split; [intros ([Hb Hn] & Hl%nil_length_inv & Hin) [?|[?|[?|?]]]; done|].
      intros Hno. destruct (decide (bal = 0)), (decide (nonce = 0)); try tauto.
      destruct code; [|exfalso; apply Hno; by right; right; right]. tauto. }
    transitivity (target ∈ with_code ∨ bal ≠ 0 ∨ nonce ≠ 0 ∨ code ≠ []).
    + cbv zeta. destruct (_ && _ && _) eqn:Hb.
      * pose proof (proj1 Hiff eq_refl). split; [by intros []|done].
      * split; [|intros _; by eexists]. intros _.
        destruct (decide (target ∈ with_code ∨ bal ≠ 0 ∨ nonce ≠ 0 ∨ code ≠ [])) as [|Hno]; [done|].
        by apply Hiff in Hno.
    + split; [intros [?|?]; [by left|right; by exists pre]|].
      intros [?|(p & Hp & Hor)]; [by left|right]. by injection Hp as <-.
  - destruct (bool_decide_reflect (target ∈ with_code)) as [Hin|Hno].
    + split; [by left|by eexists].
    + split; [by intros []|]. by intros [Hin|(p & [=] & _)].
Qed.

(** ** The database *)

(** An empty database: an inserted account or slot is read back, insertion never fails, and a slot's
    leaves the accounts. *)
Class EmptyLaws (C : Type) `{CacheDB C} (empty_db : C) : Prop := {
  account_inserted_at c a i b :
    cached_account (insert_account_info c a i) b = if decide (b = a) then Some i else cached_account c b;
  account_keeps_slot c a i b k : cached_slot (insert_account_info c a i) b k = cached_slot c b k;
  slot_inserts c a k v : ∃ c', insert_account_storage c a k v = Some c' ∧
    (∀ b j, cached_slot c' b j = if decide (b = a ∧ j = k) then Some v else cached_slot c b j) ∧
    ∀ b i, cached_account c b = Some i → cached_account c' b = Some i;
  no_slots a k : cached_slot empty_db a k = None
}.

Section database.
Context {C : Type} (empty_db : C) `{EmptyLaws C empty_db}.
Variable storage_error : string.

(** A slot's value over what the database held: zeros are not written. *)
Definition over (value old : option Z) : option Z :=
  match value with Some v => if v =? 0 then old else Some v | None => old end.

Definition keeps_accounts (db db' : C) : Prop :=
  ∀ b i, cached_account db b = Some i → cached_account db' b = Some i.

Lemma seed_slot_spec a db k v :
  ∃ db', seed_slot storage_error a db (k, v) = Ok db' ∧ keeps_accounts db db' ∧
    ∀ b j, cached_slot db' b j =
      if decide (b = a ∧ j = k) then over (Some v) (cached_slot db b j) else cached_slot db b j.
Proof.
  unfold seed_slot, over. cbn. destruct (v =? 0).
  - exists db. split_and!; [done|by intros ??|]. intros b j. by case_decide.
  - destruct (slot_inserts (empty_db := empty_db) db a k v) as (db' & -> & Hs & Ha). by exists db'.
Qed.

Lemma seed_slots_spec a items db :
  NoDup items.*1 →
  ∃ db', foldM (seed_slot storage_error a) items db = Ok db' ∧ keeps_accounts db db' ∧
    ∀ b j, cached_slot db' b j =
      if decide (b = a) then over ((list_to_map items : gmap Z Z) !! j) (cached_slot db b j)
      else cached_slot db b j.
Proof.
  revert db. induction items as [|[k v] items IH]; intros db Hnd.
  { exists db. split_and!; [done|by intros ??|]. intros b j. by case_decide. }
  apply NoDup_cons in Hnd as [Hk Hnd].
  destruct (seed_slot_spec a db k v) as (db1 & Hdb1 & Ha1 & Hs1).
  destruct (IH db1 Hnd) as (db2 & Hdb2 & Ha2 & Hs2).
  exists db2. cbn [foldM]. rewrite Hdb1. cbn [mbind res_bind]. split_and!; [done| |].
  { intros b i Hb. by apply Ha2, Ha1. }
  intros b j. rewrite Hs2, Hs1. cbn [list_to_map foldr uncurry].
  destruct (decide (b = a)) as [->|Hb]; [|by rewrite decide_False by tauto].
  destruct (decide (j = k)) as [->|Hj].
  - rewrite decide_True by done. cbn. rewrite lookup_insert_eq.
    by rewrite (not_elem_of_list_to_map_1 _ _ Hk).
  - rewrite decide_False by tauto. cbn. by rewrite lookup_insert_ne.
Qed.

Lemma seed_storage_spec items db :
  NoDup items.*1 →
  ∃ db', foldM (λ db kv, foldM (seed_slot storage_error kv.1) (map_items kv.2) db) items db = Ok db' ∧
    keeps_accounts db db' ∧
    ∀ b j, cached_slot db' b j =
      over ((list_to_map items : gmap Z (gmap Z Z)) !! b ≫= (.!! j)) (cached_slot db b j).
Proof.
  revert db. induction items as [|[a m] items IH]; intros db Hnd.
  { exists db. by split_and!; [done|intros ??|]. }
  apply NoDup_cons in Hnd as [Ha Hnd]. cbn [fst] in Ha.
  destruct (seed_slots_spec a (map_items m) db) as (db1 & Hdb1 & Ha1 & Hs1);
    [apply NoDup_map_items_keys|].
  destruct (IH db1 Hnd) as (db2 & Hdb2 & Ha2 & Hs2).
  exists db2. cbn [foldM fst snd]. rewrite Hdb1. cbn [mbind res_bind]. split_and!; [done| |].
  { intros b i Hb. by apply Ha2, Ha1. }
  intros b j. rewrite Hs2, Hs1, list_to_map_map_items. cbn [list_to_map foldr uncurry].
  destruct (decide (b = a)) as [->|Hb]; cbn.
  - rewrite lookup_insert_eq. by rewrite (not_elem_of_list_to_map_1 _ _ Ha).
  - by rewrite lookup_insert_ne.
Qed.

Lemma insert_infos_spec items db :
  NoDup items.*1 →
  let db' := fold_left (λ db kv, insert_account_info db kv.1 kv.2) items db in
  (∀ a i, (list_to_map items : gmap Z AccountInfo) !! a = Some i → cached_account db' a = Some i) ∧
  (∀ b k, cached_slot db' b k = cached_slot db b k) ∧
  ∀ a, a ∉ items.*1 → cached_account db' a = cached_account db a.
Proof.
  revert db. induction items as [|[k v] items IH]; intros db Hnd; cbn [fold_left fst snd].
  { by split_and!. }
  apply NoDup_cons in Hnd as [Hk Hnd]. cbn [fst] in Hk.
  destruct (IH (insert_account_info db k v) Hnd) as (Ha & Hs & Hn). split_and!.
  - intros a i. cbn. destruct (decide (a = k)) as [->|Hne].
    + rewrite lookup_insert_eq. intros [= <-]. rewrite (Hn _ Hk).
      rewrite (account_inserted_at (empty_db := empty_db)). by rewrite decide_True.
    + rewrite lookup_insert_ne by done. apply Ha.
  - intros b j. rewrite Hs. apply (account_keeps_slot (empty_db := empty_db)).
  - intros a Ha'. cbn in Ha'. apply not_elem_of_cons in Ha' as [Hne Ha']. rewrite (Hn _ Ha').
    rewrite (account_inserted_at (empty_db := empty_db)). by rewrite decide_False.
Qed.

(** Seeding never fails; each seeded account is read back, and each slot that is not zero. *)
Lemma seeded_db_spec seeds :
  ∃ db, seeded_db empty_db storage_error seeds = Ok db ∧
    (∀ a i, sd_accounts seeds !! a = Some i → cached_account db a = Some i) ∧
    ∀ a k, default 0 (cached_slot db a k) = default 0 (sd_storage seeds !! a ≫= (.!! k)).
Proof.
  unfold seeded_db.
  destruct (insert_infos_spec (map_items (sd_accounts seeds)) empty_db) as (Ha & Hs & _);
    [apply NoDup_map_items_keys|].
  set (db0 := fold_left _ (map_items (sd_accounts seeds)) empty_db) in *.
  destruct (seed_storage_spec (map_items (sd_storage seeds)) db0) as (db & -> & Hk & Hslot);
    [apply NoDup_map_items_keys|].
  exists db. split_and!; [done| |].
  - intros a i Hi. apply Hk, Ha. by rewrite list_to_map_map_items.
  - intros a k. rewrite Hslot, Hs, (no_slots (empty_db := empty_db)), list_to_map_map_items.
    unfold over. destruct (sd_storage seeds !! a ≫= _) as [v|]; [|done].
    by destruct (Z.eqb_spec v 0) as [->|].
Qed.
End database.

(** ** The order in which frames return *)

Section order.
Context (frames : list FrameProgram).
Hypothesis Htree : runnable frames.

Fixpoint post_order (fuel : nat) (id : nat) : list nat :=
  match fuel with
  | O => []
  | S fuel => flat_map (post_order fuel) (default [] (fp_children <$> frames !! id)) ++ [id]
  end.

Lemma visit_post_order fuel id order :
  (id < length frames)%nat → (length frames - id ≤ fuel)%nat →
  visit_frame frames fuel order id = Ok (order ++ post_order fuel id).
Proof.
  revert id order. induction fuel as [|fuel IH]; intros id order Hid Hfuel; [lia|].
  destruct (lookup_lt_is_Some_2 frames id Hid) as [f Hf].
  cbn [visit_frame post_order]. rewrite Hf. cbn [expect mbind res_bind fmap option_fmap option_map default].
  destruct (proj1 Htree id f Hf) as (_ & _ & Hch). rewrite Forall_forall in Hch.
  assert (∀ cs, (∀ c, c ∈ cs → c ∈ fp_children f) → ∀ order,
    foldM (visit_frame frames fuel) cs order = Ok (order ++ flat_map (post_order fuel) cs)) as Hfold.
  { induction cs as [|c cs IHcs]; intros Hcs acc; cbn; [by rewrite app_nil_r|].
    assert (id < c < length frames)%nat as Hc by (apply Hch, Hcs; by left).
    rewrite IH by lia. cbn. rewrite IHcs by (intros; apply Hcs; by right).
    by rewrite (assoc_L (++)). }
  rewrite Hfold by done. cbn. by rewrite (assoc_L (++)).
Qed.

Lemma post_order_below fuel id j :
  (length frames - id ≤ fuel)%nat → (id < length frames)%nat →
  j ∈ post_order fuel id ↔ below frames id j.
Proof.
  revert id. induction fuel as [|fuel IH]; intros id Hfuel Hid; [lia|].
  destruct (lookup_lt_is_Some_2 frames id Hid) as [f Hf]. cbn [post_order]. rewrite Hf. cbn.
  assert (∀ c, c ∈ fp_children f ↔ child_of frames id c) as Hch.
  { intros c. split; [by exists f|]. intros (g & Hg & Hc). congruence. }
  rewrite elem_of_app, list_elem_of_singleton, list_elem_of_In, in_flat_map. split.
  - intros [(c & Hc & Hj)| ->]; [|done]. apply list_elem_of_In in Hc, Hj. apply Hch in Hc as Hc'.
    pose proof (child_lt frames Htree _ _ Hc').
    apply (rtc_l _ _ c); [done|]. by apply IH; [lia..|].
  - intros Hj. apply rtc_inv in Hj as [<-|(c & Hc & Hj)]; [by right|]. left. exists c.
    pose proof (child_lt frames Htree _ _ Hc). rewrite <-!list_elem_of_In. split; [by apply Hch|].
    apply IH; [lia..|done].
Qed.
Lemma flat_map_NoDup {A B} (f : A → list B) l :
  NoDup l → (∀ x, x ∈ l → NoDup (f x)) →
  (∀ x y z, x ∈ l → y ∈ l → z ∈ f x → z ∈ f y → x = y) → NoDup (flat_map f l).
Proof.
  induction 1 as [|x l Hx Hl IH]; intros Hf Hd; cbn; [constructor|].
  apply NoDup_app. split_and!.
  - apply Hf. by left.
  - intros z Hz (y & Hy & Hzy)%list_elem_of_In%in_flat_map. apply list_elem_of_In in Hy, Hzy.
    assert (x = y) as <- by (apply (Hd x y z); auto; [by left|by right]). done.
  - apply IH; [intros y Hy; apply Hf; by right|]. intros y y' z Hy Hy'. apply Hd; by right.
Qed.

Lemma post_order_NoDup fuel id :
  (length frames - id ≤ fuel)%nat → (id < length frames)%nat → NoDup (post_order fuel id).
Proof.
  revert id. induction fuel as [|fuel IH]; intros id Hfuel Hid; [constructor|].
  destruct (lookup_lt_is_Some_2 frames id Hid) as [f Hf]. cbn [post_order]. rewrite Hf. cbn.
  destruct (proj1 Htree id f Hf) as (_ & Hnd & Hlt). rewrite Forall_forall in Hlt.
  assert (∀ c, c ∈ fp_children f → child_of frames id c) as Hch by (by exists f).
  apply NoDup_app. split_and!.
  - apply flat_map_NoDup; [done|..].
    + intros c Hc. specialize (Hlt c Hc). apply IH; lia.
    + intros c d j Hc Hd Hcj Hdj. pose proof (Hlt c Hc). pose proof (Hlt d Hd).
      apply post_order_below in Hcj, Hdj; [|lia..].
      apply (siblings_disjoint frames Htree id c d j); auto.
  - intros j (c & Hc & Hj)%list_elem_of_In%in_flat_map Hji. apply list_elem_of_singleton in Hji as ->.
    apply list_elem_of_In in Hc, Hj. pose proof (Hlt c Hc). apply post_order_below in Hj; [|lia..].
    apply (below_le frames Htree) in Hj. lia.
  - apply NoDup_singleton.
Qed.
End order.

(** [x] comes before [y] in a list. *)
Definition precedes {A} (l : list A) (x y : A) : Prop :=
  ∃ l1 l2 l3, l = l1 ++ x :: l2 ++ y :: l3.

Lemma precedes_app {A} (l k : list A) x y : x ∈ l → y ∈ k → precedes (l ++ k) x y.
Proof.
  intros (l1 & l2 & ->)%list_elem_of_split (k1 & k2 & ->)%list_elem_of_split.
  exists l1, (l2 ++ k1), k2. by rewrite <-!(assoc_L (++)).
Qed.

Lemma precedes_within {A} (l1 l l2 : list A) x y : precedes l x y → precedes (l1 ++ l ++ l2) x y.
Proof.
  intros (k1 & k2 & k3 & ->). exists (l1 ++ k1), k2, (k3 ++ l2).
  by rewrite <-!(assoc_L (++)), <-app_comm_cons, <-!(assoc_L (++)).
Qed.

Lemma post_order_children frames fuel id p c :
  runnable frames → (length frames - id ≤ fuel)%nat → (id < length frames)%nat →
  below frames id p → child_of frames p c → precedes (post_order frames fuel id) c p.
Proof.
  intros Htree. revert id. induction fuel as [|fuel IH]; intros id Hfuel Hid Hp Hc; [lia|].
  destruct (lookup_lt_is_Some_2 frames id Hid) as [f Hf]. cbn [post_order]. rewrite Hf. cbn.
  apply rtc_inv in Hp as [<-|(d & Hd & Hp)].
  - destruct Hc as (g & Hg & Hin). assert (g = f) as -> by congruence.
    assert (child_of frames id c) as Hc by by exists f.
    pose proof (child_lt frames Htree _ _ Hc).
    apply precedes_app; [|by apply list_elem_of_singleton].
    apply list_elem_of_In, in_flat_map. exists c. rewrite <-!list_elem_of_In. split; [done|].
    by apply post_order_below; [done|lia..|].
  - destruct Hd as (g & Hg & Hin). assert (g = f) as -> by congruence.
    assert (child_of frames id d) as Hd by by exists f.
    pose proof (child_lt frames Htree _ _ Hd).
    apply list_elem_of_split in Hin as (c1 & c2 & ->).
    rewrite flat_map_app. cbn. rewrite <-!(assoc_L (++)). apply precedes_within.
    apply IH; [lia..|done|done].
Qed.

(** The order of a split tree: every frame once, each after its children. *)
Lemma return_order_spec frames :
  frames_fine frames → frames ≠ [] →
  ∃ order, return_order frames = Ok order ∧ order ≡ₚ seq 0 (length frames) ∧
    ∀ p c, child_of frames p c → precedes order c p.
Proof.
  intros Hfine Hne. pose proof (frames_fine_runnable frames Hfine) as Htree.
  assert (0 < length frames)%nat as Hpos by (destruct frames; [done|cbn; lia]).
  exists (post_order frames (length frames) 0).
  assert (∀ j, (j < length frames)%nat → below frames 0%nat j) as Hall.
  { intros j [f Hf]%lookup_lt_is_Some_2. by eapply all_below. }
  split_and!.
  - unfold return_order. destruct frames as [|f fs]; [done|].
    rewrite (visit_post_order _ Htree) by lia. done.
  - apply NoDup_Permutation; [apply post_order_NoDup; [done|lia..]|apply NoDup_seq|].
    intros j. rewrite (post_order_below _ Htree), elem_of_seq by lia. split.
    + intros Hj. split; [lia|]. cbn.
      apply rtc_inv_r in Hj as [<-|(q & _ & Hq)]; [lia|]. apply (child_lt _ Htree) in Hq. lia.
    + intros [_ Hj]. by apply Hall.
  - intros p c Hc. pose proof (child_lt frames Htree _ _ Hc).
    apply post_order_children; [done|lia..|apply Hall; lia|done].
Qed.

(** ** Seeding a tree *)

(** The updates of the frames of one contract, in a given order of frames. *)
Definition updates_of (frames : list FrameProgram) (order : list nat) (target : Z) : list StateUpdate :=
  flat_map (λ id, match frames !! id with
                  | Some f => if fp_target f =? target then fp_updates f else []
                  | None => []
                  end) order.

Lemma add_by_target_spec frames order m :
  Forall (λ id, id < length frames)%nat order →
  ∃ m', foldM (add_by_target frames) order m = Ok m' ∧
    ∀ target, default [] (m' !! target) = default [] (m !! target) ++ updates_of frames order target.
Proof.
  intros Hall. revert m. induction Hall as [|id order Hid _ IH]; intros m.
  { exists m. split; [done|]. intros. by rewrite app_nil_r. }
  destruct (lookup_lt_is_Some_2 frames id Hid) as [f Hf].
  cbn [foldM].
  assert (add_by_target frames m id =
    Ok (<[fp_target f := default [] (m !! fp_target f) ++ fp_updates f]> m)) as ->
    by (unfold add_by_target; by rewrite Hf).
  cbn [mbind res_bind].
  destruct (IH (<[fp_target f := default [] (m !! fp_target f) ++ fp_updates f]> m)) as (m' & -> & Hm').
  exists m'. split; [done|]. intros target. rewrite Hm'.
  change (updates_of frames (id :: order) target) with
    (match frames !! id with
     | Some f => if fp_target f =? target then fp_updates f else []
     | None => []
     end ++ updates_of frames order target). rewrite Hf.
  destruct (Z.eqb_spec (fp_target f) target) as [<-|Hne].
  - rewrite lookup_insert_eq. cbn. by rewrite (assoc_L (++)).
  - by rewrite lookup_insert_ne.
Qed.

(** ** Properties *)

(** The empty state of a single program reads as the state before the transaction: from what the
    prestate diff says, every slot the program stores to starts at the value it had before (where the
    program leaves what the transaction left), a called account exists exactly if the diff or the trace
    says that it was not empty, and none that exists is empty. *)
Theorem program_seeds_sound {C} (empty_db : C) `{EmptyLaws C empty_db, Bytecode} storage_error
    before after diff consumer at_ updates with_code :
  diff_reports before after diff →
  let seeds := for_program (Some (diff, consumer)) at_ updates with_code in
  ∃ db, seeded_db empty_db storage_error seeds = Ok db ∧
    (∀ slot, last_store updates slot = Some (after consumer slot) →
       default 0 (cached_slot db at_ slot) = before consumer slot) ∧
    ∀ target, target ∈ called_targets updates →
      (existed (Some diff) with_code target ↔ is_Some (sd_accounts seeds !! target)) ∧
      ∀ info, sd_accounts seeds !! target = Some info →
        cached_account db target = Some info ∧ ¬ empty_account info.
Proof.
  intros Hd seeds. destruct (seeded_db_spec empty_db storage_error seeds) as (db & Hdb & Ha & Hs).
  exists db. split_and!; [done| |].
  - intros slot Hlast. rewrite Hs. subst seeds. cbn. rewrite lookup_singleton_eq. cbn.
    rewrite original_storage_lookup, Hlast. cbn. by apply original_value_before.
  - intros target Hin. subst seeds. cbn in *.
    rewrite called_accounts_lookup, decide_True by done. rewrite called_account_existed.
    split; [done|]. intros info Hinfo. split; [|by eapply called_account_nonempty].
    apply Ha. by rewrite called_accounts_lookup, decide_True.
Qed.

(** C21: What the replay of a split starts from. Its frames are put in the order they return: each once, and after
    its children. Seeding never fails. A slot that a frame of a contract stores to and the transaction changed
    starts with its value from before; one that the transaction left as it was starts with what the last of the
    contract's frames to return stored last, which is the value before exactly if that store was the
    transaction's last; every other slot starts at zero. A contract that a frame calls has an account exactly if
    it existed before, as far as the diff and the trace say. *)
Theorem frame_tree_seeds_sound {C} (empty_db : C) `{EmptyLaws C empty_db, Bytecode} storage_error
    before after diff frames with_code :
  frames_fine frames → frames ≠ [] → diff_reports before after diff →
  ∃ order seeds db, return_order frames = Ok order ∧ order ≡ₚ seq 0 (length frames) ∧
    (∀ p c, child_of frames p c → precedes order c p) ∧
    frame_tree_seeds (Some diff) frames with_code = Ok seeds ∧
    seeded_db empty_db storage_error seeds = Ok db ∧
    (∀ target slot, default 0 (cached_slot db target slot) =
      match last_store (updates_of frames order target) slot with
      | Some last => if decide (before target slot = after target slot) then last else before target slot
      | None => 0
      end) ∧
    ∀ target, target ∈ called_targets (flat_map fp_updates frames) →
      (existed (Some diff) with_code target ↔ is_Some (sd_accounts seeds !! target)) ∧
      ∀ info, sd_accounts seeds !! target = Some info →
        cached_account db target = Some info ∧ ¬ empty_account info.
Proof.
  intros Hfine Hne Hd. destruct (return_order_spec frames Hfine Hne) as (order & Horder & Hperm & Hch).
  destruct (add_by_target_spec frames order ∅) as (m & Hm & Hof).
  { rewrite Hperm. apply Forall_seq. lia. }
  set (seeds := mkSeeds (map_imap (λ target updates, Some (original_storage diff target updates)) m)
    (called_accounts (Some diff) (flat_map fp_updates frames) with_code)).
  destruct (seeded_db_spec empty_db storage_error seeds) as (db & Hdb & Ha & Hs).
  exists order, seeds, db. split_and!; try done.
  - unfold frame_tree_seeds. rewrite Horder. cbn. by rewrite Hm.
  - intros target slot. rewrite Hs. subst seeds. cbn. rewrite map_lookup_imap.
    specialize (Hof target). rewrite lookup_empty in Hof. cbn in Hof. rewrite <-Hof.
    destruct (m !! target) as [us|]; cbn [from_option mbind option_bind id default]; [|done].
    rewrite original_storage_lookup. destruct (last_store us slot) as [last|]; [|done].
    cbn. by apply original_value_spec.
  - intros target Hin. subst seeds. cbn [sd_accounts] in *.
    rewrite called_accounts_lookup, decide_True by done. rewrite called_account_existed.
    split; [done|]. intros info Hinfo. split; [|by eapply called_account_nonempty].
    apply Ha. cbn. by rewrite called_accounts_lookup, decide_True.
Qed.

(** ** Example *)

#[export] Instance sample_bytecode : Bytecode := {| new_raw_checked code := Ok code; EMPTY_HASH := 1 |}.

(** revm's cache over an empty database. *)
#[export] Instance sample_empty_cache : CacheDB SampleDb := {|
  cached_account db a := db.1 !! a;
  cached_slot db a k := default ∅ (db.2 !! a) !! k;
  insert_account_info db a i := (<[a := i]> db.1, db.2);
  insert_account_storage db a k v := Some (db.1, <[a := <[k := v]> (default ∅ (db.2 !! a))]> db.2)
|}.
Definition sample_empty : SampleDb := (∅, ∅).

#[export] Instance sample_empty_laws : EmptyLaws SampleDb sample_empty.
Proof.
  split; cbn.
  - intros c a i b. case_decide as Hb; [subst; apply lookup_insert_eq|by apply lookup_insert_ne].
  - done.
  - intros c a k v. eexists. split; [done|]. cbn. split; [|done]. intros b j.
    destruct (decide (b = a)) as [->|Hb].
    + rewrite lookup_insert_eq. cbn. destruct (decide (j = k)) as [->|Hj].
      * by rewrite decide_True, lookup_insert_eq.
      * rewrite decide_False by tauto. by rewrite lookup_insert_ne.
    + rewrite decide_False by tauto. by rewrite lookup_insert_ne.
  - intros a k. by rewrite lookup_empty.
Qed.

(** Slot 1 of contract 10 goes from 3 to 4, slot 2 from 5 to zero, slot 3 is rewritten with its own
    value, and contract 20 exists. *)
Definition sample_before (account slot : Z) : Z :=
  if account =? 10 then if slot =? 1 then 3 else if slot =? 2 then 5 else if slot =? 3 then 7 else 0 else 0.
Definition sample_after (account slot : Z) : Z :=
  if account =? 10 then if slot =? 1 then 4 else if slot =? 3 then 7 else 0 else 0.
Definition sample_diff : StateDiff :=
  mkStateDiff
    {[10 := mkAccountState None None (Some [96]) {[1 := 3; 2 := 5]}; 20 := mkAccountState (Some 9) None None ∅]}
    {[10 := mkAccountState None None None {[1 := 4]}]}.

Lemma sample_reports : diff_reports sample_before sample_after sample_diff.
Proof.
  intros account slot. unfold sample_before, sample_after, sample_diff. cbn [sd_pre sd_post].
  destruct (Z.eqb_spec account 10) as [->|Ha].
  - rewrite lookup_insert_eq, lookup_singleton_eq. cbn [mbind option_bind as_storage].
    destruct (Z.eqb_spec slot 1) as [->|H1]; [done|].
    destruct (Z.eqb_spec slot 2) as [->|H2]; [done|].
    rewrite lookup_insert_ne, !lookup_singleton_ne by done.
    destruct (slot =? 3); done.
  - rewrite (lookup_insert_ne _ 10), (lookup_singleton_ne 10 account) by done. cbn [mbind option_bind].
    destruct (decide (account = 20)) as [->|Hb]; [by rewrite lookup_singleton_eq|].
    by rewrite lookup_singleton_ne by done.
Qed.

Lemma program_seeds_sound_witness :
  let updates := [UStore (mkStore 1 9); UStore (mkStore 1 4); UStore (mkStore 2 0); UStore (mkStore 3 7);
                  UCall (mkCall 20 1 [])] in
  ∃ db, seeded_db sample_empty "" (for_program (Some (sample_diff, 10)) 99 updates ∅) = Ok db ∧
    (λ slot, default 0 (cached_slot db 99 slot)) <$> [1; 2; 3] = [3; 5; 7] ∧
    is_Some (cached_account db 20).
Proof.
  intros updates.
  destruct (program_seeds_sound sample_empty "" sample_before sample_after sample_diff 10 99 updates ∅
    sample_reports) as (db & Hdb & Hslots & Haccounts).
  exists db. split; [exact Hdb|]. split.
  - cbn [fmap list_fmap]. rewrite (Hslots 1), (Hslots 2), (Hslots 3) by reflexivity. reflexivity.
  - destruct (Haccounts 20) as [_ Hinfo]; [by_compute|].
    destruct (Hinfo (mkAccountInfo 9 0 1 (Some []))) as [Hc _]; [vm_compute; reflexivity|].
    rewrite Hc. by eexists.
Defined.

(** Two frames of contract 10, the root and one that it calls through contract 20, and a call. *)
Definition seeded_frames : list FrameProgram := [
  mkFrameProgram 10 0 0 0 (Some 4) [UStore (mkStore 1 9); UNested (mkNested 20 0 0); UStore (mkStore 1 4)] [1%nat];
  mkFrameProgram 20 10 0 77 (Some 6) [UNested (mkNested 10 0 0); UCall (mkCall 20 1 [])] [2%nat];
  mkFrameProgram 10 20 0 78 (Some 5) [UStore (mkStore 1 6); UStore (mkStore 3 8)] []].

Lemma seeded_frames_fine : frames_fine seeded_frames.
Proof.
  assert (∀ q g c, seeded_frames !! q = Some g → c ∈ fp_children g → c = S q) as Hnext.
  { intros [|[|[|q]]] g c Hg; [..|discriminate Hg]; injection Hg as <-; cbn;
      [by intros ->%list_elem_of_singleton ..|by intros []%not_elem_of_nil]. }
  intros i f Hf. split_and!.
  1-3: destruct i as [|[|[|i]]]; [..|discriminate Hf]; injection Hf as <-;
    by (repeat constructor; cbn; lia).
  intros Hi. split; [destruct i as [|[|[|i]]]; [lia|..|discriminate Hf]; injection Hf as <-; by eexists|].
  destruct i as [|i]; [lia|]. exists i.
  assert (∃ g, seeded_frames !! i = Some g ∧ S i ∈ fp_children g) as (g & Hg & Hin).
  { destruct i as [|[|i]]; [..|discriminate Hf]; (eexists; split; [reflexivity|by left]). }
  exists g. split_and!; [done|done|]. intros q' g' Hg' Hin'. specialize (Hnext _ _ _ Hg' Hin'). lia.
Qed.

(** Slot 1, which the transaction changed, starts at the 3 it had. Slot 3 keeps its 7 over the transaction, but
    the last of the frames that stores to it leaves 8 there, which a call outside the tree has to have undone:
    it starts at that 8. *)
Lemma frame_tree_seeds_sound_witness :
  ∃ order seeds db, return_order seeded_frames = Ok order ∧ order = [2; 1; 0]%nat ∧
    frame_tree_seeds (Some sample_diff) seeded_frames ∅ = Ok seeds ∧
    seeded_db sample_empty "" seeds = Ok db ∧
    (λ slot, default 0 (cached_slot db 10 slot)) <$> [1; 2; 3] = [3; 0; 8] ∧ sample_before 10 3 = 7 ∧
    is_Some (cached_account db 20).
Proof.
  destruct (frame_tree_seeds_sound sample_empty "" sample_before sample_after sample_diff seeded_frames ∅
    seeded_frames_fine ltac:(discriminate) sample_reports)
    as (order & seeds & db & Horder & _ & _ & Hseeds & Hdb & Hslots & Haccounts).
  exists order, seeds, db. assert (order = [2; 1; 0]%nat) as Hor by (vm_compute in Horder; by injection Horder).
  split; [exact Horder|]. split; [exact Hor|]. split; [exact Hseeds|]. split; [exact Hdb|].
  split; [|split; [reflexivity|]].
  - cbn [fmap list_fmap]. rewrite (Hslots 10 1), (Hslots 10 2), (Hslots 10 3), Hor. reflexivity.
  - destruct (Haccounts 20) as [[Hex _] Hinfo]; [by_compute|].
    destruct Hex as [info Hi]; [|destruct (Hinfo info Hi) as [Hc _]; rewrite Hc; by eexists].
    right. eexists. split; [reflexivity|]. left. discriminate.
Defined.
