(* ===== verification/Wasm.v ===== *)
(** * The browser's entry points

    [crates/wasm/src/lib.rs]: a traced transaction or its prestate analysed against a state that is
    empty but for [Seeds], or over the state the transaction started from. JSON, hexadecimal addresses,
    amounts and revm are parameters; what is passed to JavaScript is returned as a value. *)

From Stdlib Require Import Strings.Ascii.
From S2P Require Import Prelude.
From S2P Require Import Types.
From S2P Require Import Encoding.
From S2P Require Import Trace.
From S2P Require Import Heuristic.
From S2P Require Import SimProfile.
From S2P Require Import Prestate.
From S2P Require Import FrameTree.
From S2P Require Import Prune.
From S2P Require Import Estimator.
From S2P Require Import RateLimit.
From S2P Require Import Transport.
From S2P Require Import RpcDb.
From S2P Require Import Executor.
From S2P Require Import LeanTrace.
From S2P Require Import Seeds.

(** ** Results *)

Record AnalyzeTraceResult := mkAnalyzeTrace {
  at_encoded_updates : string;
  at_gas_estimate : Z;
  at_is_heuristic : bool;
  at_state_update_count : nat;
  at_skipped_opcodes : list string;
  at_reentered : bool;
  at_native_call_gas : Z;
  at_callees_executed : bool;
  at_replay_error : option string;
  at_signature_verification_gas : Z
}.

(** Why a call has no net form; [describe]d where it is shown. *)
Inductive Ineligible := NotACall (typ : string) | NoNetForm (reason : FallbackReason).

(** [eligible] with a result, or not with a reason. *)
Inductive PrestateAnalysis :=
  | NetResult (result : AnalyzeTraceResult)
  | NetIneligible (reason : Ineligible).

Record EncodeTraceResult := mkEncodeTrace {
  et_encoded_updates : string;
  et_state_update_count : nat;
  et_skipped_opcodes : list string
}.

Record EstimateGasResult := mkEstimateGas {
  eg_gas_estimate : Z;
  eg_is_heuristic : bool;
  eg_state_update_count : nat;
  eg_skipped_opcodes : list string;
  eg_reentered : bool
}.

Record FrameGas := mkFrameGas { fg_target : Z; fg_caller : Z; fg_op_count : nat; fg_gas : Z }.

Record FrameTreeAnalysis := mkFrameTreeAnalysis {
  ft_root_only_gas : Z;
  ft_nested_gas : Z;
  ft_root_only_native_call_gas : Z;
  ft_nested_native_call_gas : Z;
  ft_callees_executed : bool;
  ft_replay_error : option string;
  ft_frame_overhead_gas : Z;
  ft_signature_verification_gas : Z;
  ft_frames : list FrameGas;
  ft_not_nested : list (Z * NotNestedReason);
  ft_skipped_opcodes : list string
}.

Definition SIGNATURE_VERIFICATION_GAS : Z := TURETZKY_UPPER_GAS_LIMIT_SCHNORR.

Inductive AnalyzeTraceBytesError :=
  | BytesRpc (message : string) (too_large : bool)
  | BytesAnalysis (message : string).

(** ** The libraries' parsers

    Each fails with the text of its error. [json_response] is a response's result and the message of
    its error, if it has them. *)
Class Inputs (V : Type) := {
  json_frame : string → Res string (RawFrame V);
  json_response : list Z → Res string (option (RawFrame V) * option string);
  json_diff : string → Res string StateDiff;
  json_call_frame : string → Res string CallFrame;
  json_accounts : string → Res string (gmap Z AccountState);
  parse_address : string → Res string Z;
  parse_u256 : string → Res string Z;
  serde_text : SerdeError → string;
  core_text : Error → string;
  address_text : Z → string;
  debug_text : string → string;
  storage_error : string
}.

(** [CacheDB<EmptyDB>] and revm over it in an environment, the embedded estimator's code, and the
    newest spec. *)
Class EmptyRuntime (C : Type) := {
  empty_db : C;
  revm_in : SimEnvOpts → Revm C;
  injected_code : list Z;
  newest_spec : Z
}.

(** [match m { Ok(a) => .., Err(e) => .. }]. *)
Definition attempt {E F A} (m : Res E A) : Res F (A + E) :=
  match m with Ok a => Ok (inl a) | Err e => Ok (inr e) | Panic p => Panic p end.

(** [option.map(..).transpose()]. *)
Definition traverse {E A B} (f : A → Res E B) (o : option A) : Res E (option B) :=
  match o with Some a => b ← f a; Ok (Some b) | None => Ok None end.

Definition string_le (a b : string) : Prop := Is_true (String.leb a b).
#[export] Instance string_le_dec a b : Decision (string_le a b).
Proof. unfold string_le. apply _. Defined.
(** The opcodes of a set, sorted. *)
Definition sorted_texts (s : gset string) : list string := merge_sort string_le (elements s).

(** The rest of [s] from the first place [needle] stands at. *)
Fixpoint from_first (needle s : string) : option string :=
  if String.prefix needle s then Some s
  else match s with EmptyString => None | String _ s => from_first needle s end.

Definition is_too_large (message : string) : bool :=
  let m := to_ascii_lowercase message in
  contains m "too big" || contains m "too large" || contains m "size exceeds" ||
  contains m "larger than" ||
  match from_first "exceeds" m with Some rest => contains rest "limit" | None => false end.

(** [format!("0x{}", hex::encode(..))]. *)
Definition hex_text (bytes : list Z) : string := "0x" +:+ hex_string bytes.

Section wasm.
Context {V C : Type} `{Externals, DynAbi, Serde V, Inputs V, Bytecode, CacheDB C, EmptyRuntime C}.

(** ** Parsing *)

Definition parse_wei (name : string) (wei : option string) : Res string Z :=
  match wei with
  | None => Ok 0
  | Some v => map_err (λ e, "Invalid " +:+ name +:+ " " +:+ debug_text v +:+ ": " +:+ e) (parse_u256 v)
  end.
Definition parse_value (value : option string) : Res string Z := parse_wei "value" value.

Definition parse_caller (caller_address : string) : Res string Z :=
  map_err (String.append "Invalid caller address: ") (parse_address caller_address).

Definition parse_origin (origin_address : option string) : Res string (option Z) :=
  traverse (λ s, map_err (String.append "Invalid origin address: ") (parse_address s)) origin_address.

Definition parse_diff (diff_json : string) : Res string StateDiff :=
  map_err (String.append "Failed to parse prestate diff: ") (json_diff diff_json).

(** [serde_json::from_str::<LeanFrame>]. *)
Definition parse_trace (trace_json : string) : Res string DefaultFrame :=
  map_err (String.append "Failed to parse trace: ")
    (raw ← json_frame trace_json; map_err serde_text (parse_lean_frame raw)).

Definition compute (trace : DefaultFrame) (origin : option Z) : Res string (TraceExtract * gset Z) :=
  let with_code := callees_with_code trace in
  extract ← map_err (λ e, "Failed to compute state updates: " +:+ core_text e)
    (compute_state_updates trace origin);
  Ok (extract, with_code).

Definition parse_and_compute (trace_json : string) (origin : option Z)
  : Res string (TraceExtract * gset Z) :=
  trace ← parse_trace trace_json; compute trace origin.

(** A node's error goes before a result. *)
Definition parse_trace_response (response : list Z) : Res AnalyzeTraceBytesError DefaultFrame :=
  '(trace, error) ← map_err (λ e, BytesAnalysis ("Failed to parse trace: " +:+ e))
    ('(result, error) ← json_response response;
     trace ← traverse (λ raw, map_err serde_text (parse_lean_frame raw)) result;
     Ok (trace, error));
  match trace, error with
  | _, Some message => Err (BytesRpc message (is_too_large message))
  | Some trace, None => Ok trace
  | None, None => Err (BytesAnalysis "RPC response has neither a result nor an error")
  end.

(** ** Environments and replays *)

Definition wasm_sim_env (block_number : option Z) (value : Z) : SimEnvOpts :=
  mkSimEnv (default 0 block_number) 0 30000000 0 0 0 0 0 newest_spec value.

(** [struct Replay]. *)
Record Replay := mkReplay { rp_seeds : Seeds; rp_gas_price : Z; rp_timestamp : Z }.

Definition replay_env (replay : Replay) (block_number : option Z) (value : Z) : SimEnvOpts :=
  let env := wasm_sim_env block_number value in
  mkSimEnv (se_number env) (rp_timestamp replay) (se_gas_limit env) (se_coinbase env)
    (se_prevrandao env) (rp_gas_price replay) (se_basefee env) (se_difficulty env) (se_spec env)
    (se_value env).

(** [Replay::parse]. *)
Definition parse_replay (prestate_json : string) (gas_price : option string) (timestamp : option Z)
  : Res string Replay :=
  state ← map_err (String.append "Failed to parse prestate: ") (json_accounts prestate_json);
  price ← parse_wei "gas price" gas_price;
  price ← (if price <? 2 ^ 128 then Ok price
           else Err ("Invalid gas price " +:+ debug_text (default ""%string gas_price) +:+ ": out of range"));
  seeds ← replay_seeds address_text state;
  Ok (mkReplay seeds price (default 0 timestamp)).

Definition trace_replay (origin : option Z) (replay : option Replay) : Res string (option (Replay * Z)) :=
  traverse (λ replay,
    origin ← ok_or origin "a prestate needs origin_address, the account it settles";
    Ok (replay, origin)) replay.

Definition trace_diff (origin : option Z) (prestate_diff_json : option string)
  : Res string (option (StateDiff * Z)) :=
  traverse (λ diff_json,
    origin ← ok_or origin "a prestate diff needs origin_address, the account whose slots it seeds";
    diff ← parse_diff diff_json;
    Ok (diff, origin)) prestate_diff_json.

(** ** One program *)

(** [estimate_state_changes_gas] on a seeded state. *)
Definition price_program (env : SimEnvOpts) (db : C) (at_ caller : Z) (updates : list StateUpdate)
  : Result Z :=
  '(gas, _) ← estimate_state_changes_gas (H1 := revm_in env) injected_code newest_spec (se_gas_limit env)
    (se_spec env) db at_ caller updates (se_value env);
  Ok gas.

(** The program at the consumer, over the state the transaction started from. *)
Definition replay_program (replay : Replay) (consumer caller : Z) (block_number : option Z) (value : Z)
  (updates : list StateUpdate) : Res string Z :=
  db ← seeded_db empty_db storage_error (rp_seeds replay);
  map_err core_text (price_program (replay_env replay block_number value) db consumer caller updates).

(** The program at the estimator's address over the empty state: its gas, and whether it is the
    heuristic's. *)
Definition price_on_empty (extract : TraceExtract) (addr caller : Z) (block_number : option Z) (value : Z)
  (diff : option (StateDiff * Z)) (with_code : gset Z) : Res string (Z * bool) :=
  let updates := te_state_updates extract in
  db ← seeded_db empty_db storage_error (for_program diff addr updates with_code);
  priced ← attempt (price_program (wasm_sim_env block_number value) db addr caller updates);
  Ok match priced with
     | inl gas => (sat_add gas (te_callee_gas_total extract), false)
     | inr _ => (estimate_gas_from_state_updates extract, true)
     end.

Definition analyze_extract (extract : TraceExtract) (estimator_address caller_address : string)
  (block_number : option Z) (value : option string) (diff : option (StateDiff * Z))
  (with_code : gset Z) (replay : option (Replay * Z)) : Res string AnalyzeTraceResult :=
  let state_updates := te_state_updates extract in
  let encoded := encode_state_updates_to_abi state_updates in
  addr ← map_err (String.append "Invalid estimator address: ") (parse_address estimator_address);
  caller ← parse_caller caller_address;
  value ← parse_value value;
  replayed ← traverse (λ '(replay, consumer),
    attempt (replay_program replay consumer caller block_number value state_updates)) replay;
  let replay_error := match replayed with Some (inr e) => Some e | _ => None end in
  '(gas_estimate, is_heuristic, callees_executed) ←
    match replayed with
    | Some (inl gas) => Ok (gas, false, true)
    | _ =>
        '(gas, heuristic) ← price_on_empty extract addr caller block_number value diff with_code;
        Ok (gas, heuristic, false)
    end;
  Ok (mkAnalyzeTrace (hex_text encoded) gas_estimate is_heuristic (length state_updates)
        (sorted_texts (te_skipped_opcodes extract)) (te_reentered extract)
        (te_callee_gas_total extract) callees_executed replay_error SIGNATURE_VERIFICATION_GAS).

Definition analyze_trace_inner (trace_json estimator_address caller_address : string)
  (block_number : option Z) (origin_address value prestate_diff_json : option string)
  (replay : option Replay) : Res string AnalyzeTraceResult :=
  origin ← parse_origin origin_address;
  '(extract, with_code) ← parse_and_compute trace_json origin;
  diff ← trace_diff origin prestate_diff_json;
  replay ← trace_replay origin replay;
  analyze_extract extract estimator_address caller_address block_number value diff with_code replay.

Definition analyze_trace_bytes_inner (response : list Z) (estimator_address caller_address : string)
  (block_number : option Z) (origin_address value prestate_diff_json : option string)
  (replay : option Replay) : Res AnalyzeTraceBytesError AnalyzeTraceResult :=
  origin ← map_err BytesAnalysis (parse_origin origin_address);
  trace ← parse_trace_response response;
  '(extract, with_code) ← map_err BytesAnalysis (compute trace origin);
  diff ← map_err BytesAnalysis (trace_diff origin prestate_diff_json);
  replay ← map_err BytesAnalysis (trace_replay origin replay);
  map_err BytesAnalysis
    (analyze_extract extract estimator_address caller_address block_number value diff with_code replay).

(** ** The net form *)

Definition SSTORE_COLD_SET_COST : Z := 22100.
Definition SSTORE_COLD_RESET_COST : Z := 5000.
Definition SSTORE_CLEARS_REFUND : Z := 4800.

Definition slot_cost (pre post : gmap Z Z) (costs : Z * Z) (slot : Z) : Z * Z :=
  let '(gas, refund) := costs in
  let old := slot_value pre slot in
  let new := slot_value post slot in
  if old =? new then (gas, refund)
  else (u64_add gas (if old =? 0 then SSTORE_COLD_SET_COST else SSTORE_COLD_RESET_COST),
        if negb (old =? 0) && (new =? 0) then u64_add refund SSTORE_CLEARS_REFUND else refund).

Definition net_sstore_costs (diff : DiffMode) (consumer : Z) : Z * Z :=
  let pre := storage_of (dm_pre diff) consumer in
  let post := storage_of (dm_post diff) consumer in
  fold_left (slot_cost pre post) (touched pre post) (0, 0).

Definition net_extract (diff : DiffMode) (frame : CallFrame) (consumer : Z) : TraceExtract :=
  let '(sstore_gas_total, refund_counter) := net_sstore_costs diff consumer in
  mkTraceExtract (build_state_updates_from_prestate consumer diff frame) ∅ 0 0 0 sstore_gas_total
    refund_counter false.

Definition analyze_prestate_inner
  (diff_json call_frame_json consumer_address estimator_address caller_address : string)
  (block_number : option Z) (value : option string) : Res string PrestateAnalysis :=
  diff ← parse_diff diff_json;
  frame ← map_err (String.append "Failed to parse call frame: ") (json_call_frame call_frame_json);
  consumer ← map_err (String.append "Invalid consumer address: ") (parse_address consumer_address);
  if negb (cf_typ frame =? "CALL")%string then Ok (NetIneligible (NotACall (cf_typ frame)))
  else
    match classify_prestate_eligibility frame (storage_diff diff) consumer with
    | Fallback reason => Ok (NetIneligible (NoNetForm reason))
    | Eligible =>
        result ← analyze_extract (net_extract (storage_diff diff) frame consumer) estimator_address
          caller_address block_number value (Some (diff, consumer)) ∅ None;
        Ok (NetResult result)
    end.

(** ** The heuristic and the encoding alone *)

Definition estimate_gas_heuristic_inner (trace_json : string) (origin_address : option string)
  : Res string EstimateGasResult :=
  origin ← parse_origin origin_address;
  '(extract, _) ← parse_and_compute trace_json origin;
  Ok (mkEstimateGas (estimate_gas_from_state_updates extract) true (length (te_state_updates extract))
        (sorted_texts (te_skipped_opcodes extract)) (te_reentered extract)).

Definition encode_trace_inner (trace_json : string) : Res string EncodeTraceResult :=
  '(extract, _) ← parse_and_compute trace_json None;
  Ok (mkEncodeTrace (hex_text (encode_state_updates_to_abi (te_state_updates extract)))
        (length (te_state_updates extract)) (sorted_texts (te_skipped_opcodes extract))).

(** ** A frame tree *)

(** [owned] without the root. *)
Definition parse_owned (root : Z) (owned : list string) : Res string (gset Z) :=
  foldM (λ set a,
    address ← map_err (λ e, "Invalid owned address " +:+ debug_text a +:+ ": " +:+ e) (parse_address a);
    Ok (if address =? root then set else {[address]} ∪ set)) owned ∅.

(** [estimate_frame_tree_gas] on a seeded state. *)
Definition price_tree (env : SimEnvOpts) (seeds : Seeds) (frames : list FrameProgram) (caller value : Z)
  (why : string → string) : Res string (list Z) :=
  db ← seeded_db empty_db storage_error seeds;
  map_err (λ e, why (core_text e))
    ('(_, gas) ← estimate_frame_tree_gas (H1 := revm_in env) injected_code newest_spec
        (se_gas_limit env) (se_spec env) frames caller db value;
     Ok gas).

(** Both settlements over the state the transaction started from. *)
Definition replay_trees (replay : Replay) (root_only nested : list FrameProgram) (caller : Z)
  (block_number : option Z) (value : Z) : Res string (list Z * list Z) :=
  let env := replay_env replay block_number value in
  let price settlement frames := price_tree env (rp_seeds replay) frames caller value
    (λ e, settlement +:+ ": " +:+ e) in
  root_only_gas ← price "root-only"%string root_only;
  nested_gas ← price "nested"%string nested;
  Ok (root_only_gas, nested_gas).

(** One settlement over the empty state. *)
Definition price_tree_on_empty (diff : option StateDiff) (with_code : gset Z)
  (frames : list FrameProgram) (caller : Z) (block_number : option Z) (value : Z)
  : Res string (list Z) :=
  seeds ← frame_tree_seeds diff frames with_code;
  price_tree (wasm_sim_env block_number value) seeds frames caller value
    (String.append "Gas estimation failed: ").

(** The gas of both settlements' frames, what their callees spent in the trace where they did not run,
    and whether they ran. *)
Definition settle_trees (replayed : option ((list Z * list Z) + string)) (diff : option StateDiff)
  (with_code : gset Z) (root_only nested : FrameTreeExtract) (caller : Z) (block_number : option Z)
  (value : Z) : Res string (list Z * list Z * Z * Z * bool) :=
  match replayed with
  | Some (inl (root_only_gas, frame_gas)) => Ok (root_only_gas, frame_gas, 0, 0, true)
  | _ =>
      root_only_gas ←
        price_tree_on_empty diff with_code (fte_frames root_only) caller block_number value;
      frame_gas ← price_tree_on_empty diff with_code (fte_frames nested) caller block_number value;
      Ok (root_only_gas, frame_gas, fte_callee_gas_total root_only, fte_callee_gas_total nested, false)
  end.

Definition frame_gas_of (p : FrameProgram * Z) : FrameGas :=
  mkFrameGas (fp_target p.1) (fp_caller p.1) (length (fp_updates p.1)) p.2.

Definition analyze_frame_tree_trace (trace : DefaultFrame) (root_address : string) (owned : list string)
  (caller_address : string) (block_number : option Z) (value prestate_diff_json : option string)
  (replay : option Replay) : Res string FrameTreeAnalysis :=
  diff ← traverse parse_diff prestate_diff_json;
  root ← map_err (String.append "Invalid root address: ") (parse_address root_address);
  owned ← parse_owned root owned;
  caller ← parse_caller caller_address;
  value ← parse_value value;
  let cost := NESTING_COST_MODEL_V1 in
  let with_code := callees_with_code trace in
  let split owned := map_err (λ e, "Failed to split trace: " +:+ core_text e)
    (compute_frame_tree_hypothetical trace root owned cost) in
  root_only ← split ∅;
  nested ← split owned;
  replayed ← traverse (λ replay,
    attempt (replay_trees replay (fte_frames root_only) (fte_frames nested) caller block_number value))
    replay;
  let replay_error := match replayed with Some (inr e) => Some e | _ => None end in
  '(root_only_gas, frame_gas, root_only_callees, nested_callees, callees_executed) ←
    settle_trees replayed diff with_code root_only nested caller block_number value;
  Ok (mkFrameTreeAnalysis
        (sat_add (frame_tree_total root_only_gas cost) root_only_callees)
        (sat_add (frame_tree_total frame_gas cost) nested_callees)
        (fte_callee_gas_total root_only) (fte_callee_gas_total nested)
        callees_executed replay_error (frame_overhead_gas cost) SIGNATURE_VERIFICATION_GAS
        (frame_gas_of <$> zip (fte_frames nested) frame_gas)
        (unnested_owned owned (fte_frames nested))
        (sorted_texts (fte_skipped_opcodes nested))).

Definition analyze_frame_tree_inner (trace_json root_address : string) (owned : list string)
  (caller_address : string) (block_number : option Z) (value prestate_diff_json : option string)
  (replay : option Replay) : Res string FrameTreeAnalysis :=
  trace ← parse_trace trace_json;
  analyze_frame_tree_trace trace root_address owned caller_address block_number value
    prestate_diff_json replay.

Definition analyze_frame_tree_bytes_inner (response : list Z) (root_address : string)
  (owned : list string) (caller_address : string) (block_number : option Z)
  (value prestate_diff_json : option string) (replay : option Replay)
  : Res AnalyzeTraceBytesError FrameTreeAnalysis :=
  trace ← parse_trace_response response;
  map_err BytesAnalysis
    (analyze_frame_tree_trace trace root_address owned caller_address block_number value
       prestate_diff_json replay).

(** ** The exports

    A JavaScript error by name and message. *)

Definition bytes_error_to_js (e : AnalyzeTraceBytesError) : string * string :=
  match e with
  | BytesRpc message too_large => ((if too_large then "TraceTooLargeError" else "RpcError")%string, message)
  | BytesAnalysis message => ("Error"%string, message)
  end.

(** [JsError::new]. *)
Definition js_error (message : string) : string * string := ("Error"%string, message).
Abbreviation Js A := (Res (string * string) A).

Definition export_replay (prestate_json gas_price : option string) (block_timestamp : option Z)
  : Js (option Replay) :=
  map_err js_error (traverse (λ json, parse_replay json gas_price block_timestamp) prestate_json).

Definition analyze_trace (trace_json estimator_address caller_address : string)
  (block_number : option Z) (origin_address value prestate_diff_json prestate_json gas_price : option string)
  (block_timestamp : option Z) : Js AnalyzeTraceResult :=
  replay ← export_replay prestate_json gas_price block_timestamp;
  map_err js_error (analyze_trace_inner trace_json estimator_address caller_address block_number
    origin_address value prestate_diff_json replay).

Definition analyze_trace_bytes (response : list Z) (estimator_address caller_address : string)
  (block_number : option Z) (origin_address value prestate_diff_json prestate_json gas_price : option string)
  (block_timestamp : option Z) : Js AnalyzeTraceResult :=
  replay ← export_replay prestate_json gas_price block_timestamp;
  map_err bytes_error_to_js (analyze_trace_bytes_inner response estimator_address caller_address
    block_number origin_address value prestate_diff_json replay).

Definition analyze_prestate
  (diff_json call_frame_json consumer_address estimator_address caller_address : string)
  (block_number : option Z) (value : option string) : Js PrestateAnalysis :=
  map_err js_error (analyze_prestate_inner diff_json call_frame_json consumer_address estimator_address
    caller_address block_number value).

Definition analyze_frame_tree (trace_json root_address : string) (owned : list string)
  (caller_address : string) (block_number : option Z)
  (value prestate_diff_json prestate_json gas_price : option string) (block_timestamp : option Z)
  : Js FrameTreeAnalysis :=
  replay ← export_replay prestate_json gas_price block_timestamp;
  map_err js_error (analyze_frame_tree_inner trace_json root_address owned caller_address block_number
    value prestate_diff_json replay).

Definition analyze_frame_tree_bytes (response : list Z) (root_address : string) (owned : list string)
  (caller_address : string) (block_number : option Z)
  (value prestate_diff_json prestate_json gas_price : option string) (block_timestamp : option Z)
  : Js FrameTreeAnalysis :=
  replay ← export_replay prestate_json gas_price block_timestamp;
  map_err bytes_error_to_js (analyze_frame_tree_bytes_inner response root_address owned caller_address
    block_number value prestate_diff_json replay).

Definition estimate_gas_heuristic (trace_json : string) (origin_address : option string)
  : Js EstimateGasResult :=
  map_err js_error (estimate_gas_heuristic_inner trace_json origin_address).

Definition encode_trace (trace_json : string) : Js EncodeTraceResult :=
  map_err js_error (encode_trace_inner trace_json).
End wasm.
