(* ===== verification/WasmSpec.v ===== *)
(** * What the browser reports

    Which estimate an analysis reports and on which state; that the net form's program runs over the
    consumer's storage from before the transaction; and what a frame-tree analysis lists. *)

From S2P Require Import Prelude.
From S2P Require Import Types.
From S2P Require Import Instances.
From S2P Require Import Encoding.
From S2P Require Import Trace.
From S2P Require Import Heuristic.
From S2P Require Import SimProfile.
From S2P Require Import Prestate.
From S2P Require Import FrameTree.
From S2P Require Import Prune.
From S2P Require Import EncodeTree.
From S2P Require Import WalkSpec.
From S2P Require Import WalkInv.
From S2P Require Import TreeSpec.
From S2P Require Import Estimator.
From S2P Require Import EstimatorSpec.
From S2P Require Import RateLimit.
From S2P Require Import RpcDb.
From S2P Require Import Executor.
From S2P Require Import LeanTrace.
From S2P Require Import LeanSpec.
From S2P Require Import Seeds.
From S2P Require Import SeedsSpec.
From S2P Require Import Wasm.

(** ** Outcomes that are no panic *)

Definition settles {E A} (r : Res E A) : Prop := match r with Panic _ => False | _ => True end.

Lemma settles_bind {E A B} (m : Res E A) (f : A → Res E B) :
  settles m → (∀ a, settles (f a)) → settles (m ≫= f).
Proof. destruct m; cbn; auto. Qed.

Section pricing.
Context {DB : Type} `{Externals, DynAbi, Revm DB}.

Lemma run_estimator_settles code osaka limit spec db at_ caller data value :
  settles (estimate_gas_raw code osaka limit spec db at_ caller data value).
Proof.
  unfold estimate_gas_raw. apply settles_bind.
  - unfold inject_estimator. destruct (original_code _) as [[]|]; by destruct (db_insert_storage _ _ _ _).
  - intros db'. unfold run_estimator.
    by destruct (evm_transact _ _ _ _ _ _) as [[[] ?]|].
Qed.

Lemma run_length osaka limit spec frames caller fuel db i value fg db' fg' :
  run osaka limit spec frames caller fuel db i value fg = Ok (db', fg') → length fg' = length fg.
Proof.
  revert db i value fg db' fg'. induction fuel as [|fuel IH]; intros db i value fg db' fg' Hrun; [done|].
  cbn [run] in Hrun. unfold run_body in Hrun.
  destruct (frames !! i) as [f|]; [|done]. cbn [ok_or mbind res_bind] in Hrun.
  assert (∀ s s', close_piece osaka limit spec frames caller i value s = Ok s' →
    length (rs_frame_gas s') = length (rs_frame_gas s)) as Hclose.
  { intros s s' Hs. unfold close_piece in Hs. destruct (_ || _); [|by inv_res].
    destruct (run_piece _ _ _ _ _ _ _ _ _ _) as [[]| |]; by inv_res. }
  destruct (foldM _ (fp_updates f) _) as [s| |] eqn:Hf; [|done..]. cbn [mbind res_bind] in Hrun.
  assert (length (rs_frame_gas s) = length fg) as Hs.
  { refine (foldM_inv (λ s, length (rs_frame_gas s) = length fg) _ _ _ _ _ _ Hf); [|done].
    intros s0 u s1 _ Hs0 Hu. unfold run_update in Hu. destruct (negb _); [by inv_res|].
    destruct (close_piece _ _ _ _ _ _ _ s0) as [s2| |] eqn:Hc; [|done..]. cbn [mbind res_bind] in Hu.
    apply Hclose in Hc. destruct (rs_children s2) as [|c cs]; [done|]. destruct (_ <=? _)%nat; [done|].
    destruct (frames !! c); [|done]. cbn [expect mbind res_bind] in Hu.
    destruct (run _ _ _ _ _ fuel _ _ _ _) as [[db1 fg1]| |] eqn:Hr; [|done..]. cbn in Hu. inv_res.
    cbn. apply IH in Hr. congruence. }
  destruct (close_piece _ _ _ _ _ _ _ s) as [s'| |] eqn:Hc; [|done..]. cbn [mbind res_bind] in Hrun.
  apply Hclose in Hc. destruct (negb _); [done|]. cbn in Hrun. inv_res.
  rewrite length_insert. congruence.
Qed.

Lemma tree_gas_length code osaka limit spec frames caller db value db' gas :
  estimate_frame_tree_gas code osaka limit spec frames caller db value = Ok (db', gas) →
  length gas = length frames.
Proof.
  unfold estimate_frame_tree_gas. intros Hgas. destruct frames as [|f fs] eqn:Hfs; [done|].
  rewrite <-Hfs in *. clear Hfs.
  destruct (foldM _ frames _) as [[db0 ?]| |]; [|done..]. cbn [mbind res_bind] in Hgas.
  apply run_length in Hgas. by rewrite length_replicate in Hgas.
Qed.
End pricing.

(** ** One program *)

Section program.
Context {V C : Type} `{Externals, DynAbi, Serde V, Inputs V, Bytecode, CacheDB C, EmptyRuntime C,
  !EmptyLaws C empty_db}.

Lemma price_settles env db at_ caller updates :
  settles (price_program (C := C) env db at_ caller updates).
Proof.
  unfold price_program, estimate_state_changes_gas. apply settles_bind; [apply run_estimator_settles|].
  by intros [].
Qed.

Lemma replay_settles replay consumer caller block_number value updates :
  settles (replay_program (V := V) (C := C) replay consumer caller block_number value updates).
Proof.
  unfold replay_program.
  destruct (seeded_db_spec (empty_db (C := C)) (storage_error (V := V)) (rp_seeds replay)) as (db & -> & _).
  cbn. pose proof (price_settles (replay_env replay block_number value) db consumer caller updates).
  by destruct (price_program _ _ _ _ _).
Qed.

(** What the fallback reports: the run on the seeded empty state with what the callees spent in the
    trace, or the heuristic if the run fails. *)
Definition falls_back (extract : TraceExtract) (addr caller : Z) (block_number : option Z) (value : Z)
  (diff : option (StateDiff * Z)) (with_code : gset Z) (gas : Z) (is_heuristic : bool) : Prop :=
  ∃ db, seeded_db empty_db (storage_error (V := V))
      (for_program diff addr (te_state_updates extract) with_code) = Ok db ∧
    match price_program (C := C) (wasm_sim_env block_number value) db addr caller (te_state_updates extract) with
    | Ok run => gas = sat_add run (te_callee_gas_total extract) ∧ is_heuristic = false
    | Err _ => gas = estimate_gas_from_state_updates extract ∧ is_heuristic = true
    | Panic _ => False
    end.

Lemma price_on_empty_spec extract addr caller block_number value diff with_code :
  ∃ gas heuristic,
    price_on_empty (V := V) (C := C) extract addr caller block_number value diff with_code =
      Ok (gas, heuristic) ∧
    falls_back extract addr caller block_number value diff with_code gas heuristic.
Proof.
  unfold price_on_empty, falls_back.
  destruct (seeded_db_spec (empty_db (C := C)) (storage_error (V := V))
    (for_program diff addr (te_state_updates extract) with_code)) as (db & Hdb & _).
  rewrite Hdb. cbn [mbind res_bind].
  pose proof (price_settles (wasm_sim_env block_number value) db addr caller (te_state_updates extract)) as Hp.
  destruct (price_program _ _ _ _ _) as [run|e|] eqn:Hrun; [| |done]; cbn;
    (do 2 eexists); (split; [done|]); exists db; (split; [done|]); by rewrite Hrun.
Qed.
End program.

Section analysis.
Context {V C : Type} `{Externals, DynAbi, Serde V, Inputs V, Bytecode, CacheDB C, EmptyRuntime C,
  !EmptyLaws C empty_db}.

(** What an analysis reports of an extraction. *)
Definition analysis_fine (extract : TraceExtract) (block_number : option Z) (diff : option (StateDiff * Z))
  (with_code : gset Z) (replay : option (Replay * Z)) (addr caller wei : Z) (r : AnalyzeTraceResult) : Prop :=
  at_encoded_updates r = hex_text (encode_state_updates_to_abi (te_state_updates extract)) ∧
  at_state_update_count r = length (te_state_updates extract) ∧
  let falls_back := falls_back (V := V) (C := C) extract addr caller block_number wei diff with_code
    (at_gas_estimate r) (at_is_heuristic r) in
  match (λ '(rp, consumer), replay_program (V := V) (C := C) rp consumer caller block_number wei
           (te_state_updates extract)) <$> replay with
  | Some (Ok gas) =>
      at_callees_executed r = true ∧ at_replay_error r = None ∧
      at_gas_estimate r = gas ∧ at_is_heuristic r = false
  | Some (Err e) => at_callees_executed r = false ∧ at_replay_error r = Some e ∧ falls_back
  | None => at_callees_executed r = false ∧ at_replay_error r = None ∧ falls_back
  | Some (Panic _) => False
  end.

Lemma analyze_extract_fine extract estimator_address caller_address block_number value diff with_code
    replay addr caller wei :
  parse_address estimator_address = Ok addr → parse_address caller_address = Ok caller →
  parse_value value = Ok wei →
  ∃ r, analyze_extract (V := V) (C := C) extract estimator_address caller_address block_number value diff
      with_code replay = Ok r ∧
    analysis_fine extract block_number diff with_code replay addr caller wei r.
Proof.
  intros Haddr Hcaller Hwei. unfold analyze_extract, parse_caller, analysis_fine.
  rewrite Haddr, Hcaller, Hwei. cbn [map_err mbind res_bind].
  destruct (price_on_empty_spec (V := V) (C := C) extract addr caller block_number wei diff with_code)
    as (gas & heuristic & Hprice & Hback).
  destruct replay as [[rp consumer]|]; cbn [traverse fmap option_fmap option_map mbind res_bind].
  - pose proof (replay_settles (V := V) (C := C) rp consumer caller block_number wei
      (te_state_updates extract)) as Hs.
    destruct (replay_program _ _ _ _ _ _) as [g|e|]; [| |done]; cbn [attempt mbind res_bind].
    + by eexists.
    + rewrite Hprice. by eexists.
  - rewrite Hprice. by eexists.
Qed.

(** The converse: an answer parsed its addresses and amount. *)
Lemma analyze_extract_answer extract estimator_address caller_address block_number value diff with_code
    replay r :
  analyze_extract (V := V) (C := C) extract estimator_address caller_address block_number value diff
    with_code replay = Ok r →
  ∃ addr caller wei, parse_address estimator_address = Ok addr ∧ parse_address caller_address = Ok caller ∧
    parse_value value = Ok wei ∧ analysis_fine extract block_number diff with_code replay addr caller wei r.
Proof.
  intros Hr. assert (∃ addr caller wei, parse_address estimator_address = Ok addr ∧
    parse_address caller_address = Ok caller ∧ parse_value value = Ok wei) as (addr & caller & wei & Ha & Hc & Hw).
  { unfold analyze_extract, parse_caller in Hr.
    destruct (parse_address estimator_address); [|done..]. cbn [map_err mbind res_bind] in Hr.
    destruct (parse_address caller_address); [|done..]. cbn [map_err mbind res_bind] in Hr.
    destruct (parse_value value); [|done..]. by eexists _, _, _. }
  exists addr, caller, wei. split_and!; try done.
  destruct (analyze_extract_fine extract _ _ block_number _ diff with_code replay _ _ _ Ha Hc Hw)
    as (r' & Hr' & Hfine). congruence.
Qed.
End analysis.

(** The analysis of a trace answers exactly if its inputs parse, the extraction succeeds and a diff or
    prestate comes with an origin; it then reports the encoded program with the run over the replayed
    state if there is one and it succeeds, and otherwise falls back to the seeded empty state, telling
    why the replay failed. *)
Theorem analyze_trace_answers {V C} `{Externals, DynAbi, Serde V, Inputs V, Bytecode, CacheDB C,
    EmptyRuntime C, !EmptyLaws C empty_db} trace_json estimator_address caller_address block_number
    origin_address value prestate_diff_json replay r :
  analyze_trace_inner (V := V) (C := C) trace_json estimator_address caller_address block_number
    origin_address value prestate_diff_json replay = Ok r ↔
  ∃ origin trace extract diff replay' addr caller wei,
    parse_origin (V := V) origin_address = Ok origin ∧ parse_trace trace_json = Ok trace ∧
    compute_state_updates trace origin = Ok extract ∧
    trace_diff (V := V) origin prestate_diff_json = Ok diff ∧ trace_replay origin replay = Ok replay' ∧
    parse_address estimator_address = Ok addr ∧ parse_address caller_address = Ok caller ∧
    parse_value value = Ok wei ∧
    analyze_extract (V := V) (C := C) extract estimator_address caller_address block_number value diff
      (callees_with_code trace) replay' = Ok r ∧
    analysis_fine (V := V) (C := C) extract block_number diff (callees_with_code trace) replay' addr caller
      wei r.
Proof.
  unfold analyze_trace_inner, parse_and_compute, compute. split.
  - intros Hr.
    destruct (parse_origin origin_address) as [origin| |]; [|done..]. cbn [mbind res_bind] in Hr.
    destruct (parse_trace trace_json) as [trace| |] eqn:Htrace; [|done..]. cbn [mbind res_bind] in Hr.
    destruct (compute_state_updates trace origin) as [extract| |] eqn:He; [|done..].
    cbn [map_err mbind res_bind] in Hr.
    destruct (trace_diff origin prestate_diff_json) as [diff| |] eqn:Hd; [|done..]. cbn [mbind res_bind] in Hr.
    destruct (trace_replay origin replay) as [replay'| |] eqn:Hrp; [|done..]. cbn [mbind res_bind] in Hr.
    destruct (analyze_extract_answer _ _ _ _ _ _ _ _ _ Hr) as (addr & caller & wei & ? & ? & ? & ?).
    exists origin, trace, extract, diff, replay', addr, caller, wei. by split_and!.
  - intros (origin & trace & extract & diff & replay' & addr & caller & wei & -> & Ht & He & Hd & Hrp & Hr).
    cbn [mbind res_bind]. rewrite Ht. cbn [mbind res_bind]. rewrite He. cbn [map_err mbind res_bind].
    rewrite Hd. cbn [mbind res_bind]. rewrite Hrp. cbn [mbind res_bind]. apply Hr.
Qed.

(** ** The net form *)

(** The last value the net form stores to a slot is the one after. *)
Lemma net_last_store before after diff frame consumer slot v :
  diff_reports before after diff →
  last_store (build_state_updates_from_prestate consumer (storage_diff diff) frame) slot = Some v →
  v = after consumer slot.
Proof.
  intros Hd. unfold build_state_updates_from_prestate.
  set (pre := storage_of (dm_pre (storage_diff diff)) consumer).
  set (post := storage_of (dm_post (storage_diff diff)) consumer).
  assert (∀ k, slot_value pre k ≠ slot_value post k → slot_value post k = after consumer k) as Hpost.
  { intros k Hne. destruct (Hd consumer k) as [H1 H2].
    assert (∀ m : gmap Z AccountState, storage_of (as_storage <$> m) consumer !! k =
      (m !! consumer ≫= λ a, as_storage a !! k)) as Hst.
    { intros m. unfold storage_of. rewrite lookup_fmap. by destruct (m !! consumer). }
    subst pre post. unfold slot_value in *. cbn [storage_diff dm_pre dm_post] in *.
    rewrite !Hst, H1, H2 in *. cbv zeta in *.
    destruct (decide (before consumer k ≠ after consumer k ∧ before consumer k ≠ 0)) as [|],
      (decide (before consumer k ≠ after consumer k ∧ after consumer k ≠ 0)) as [|]; cbn in *; try done.
    destruct (decide (after consumer k = 0)); [done|tauto]. }
  assert (∀ us, (∀ s, UStore s ∈ us → store_value s = after consumer (store_slot s)) →
    last_store us slot = Some v → v = after consumer slot) as Hgen.
  { induction us as [|u us IH] using rev_ind; [done|]. intros Hall. rewrite last_store_snoc.
    assert (last_store us slot = Some v → v = after consumer slot) as Hus.
    { apply IH. intros s Hs. apply Hall, elem_of_app. by left. }
    destruct u; try exact Hus. destruct (Z.eqb_spec (store_slot s) slot) as [<-|]; [|exact Hus].
    intros [= <-]. apply Hall, elem_of_app. right. by left. }
  apply Hgen. intros s [Hs|Hs]%elem_of_app.
  - unfold net_stores in Hs. apply list_elem_of_In, in_flat_map in Hs as (k & _ & Hs).
    destruct (Z.eqb_spec (slot_value pre k) (slot_value post k)) as [|Hne]; [done|].
    destruct Hs as [[= <-]|[]]. by apply Hpost.
  - apply list_elem_of_fmap in Hs as (l & Hl & _). unfold log_to_update in Hl.
    by destruct (default [] (lf_topics l)) as [|? [|? [|? [|? ?]]]].
Qed.

(** C20: The analysis from a prestate diff: the call is reported as having no net form exactly if it is no
    [CALL] or not eligible; otherwise the reported program is the net form, and it is priced on a state
    where every slot it stores to holds the value from before the transaction. *)
Theorem analyze_prestate_agrees {V C} `{Externals, DynAbi, Serde V, Inputs V, Bytecode, CacheDB C,
    EmptyRuntime C, !EmptyLaws C empty_db} before after diff_json call_frame_json consumer_address
    estimator_address caller_address block_number value diff frame consumer a :
  analyze_prestate_inner (V := V) (C := C) diff_json call_frame_json consumer_address estimator_address
    caller_address block_number value = Ok a →
  json_diff diff_json = Ok diff → json_call_frame call_frame_json = Ok frame →
  parse_address consumer_address = Ok consumer → diff_reports before after diff →
  let eligible := cf_typ frame = "CALL"%string ∧
    classify_prestate_eligibility frame (storage_diff diff) consumer = Eligible in
  match a with
  | NetIneligible _ => ¬ eligible
  | NetResult r =>
      eligible ∧
      let updates := build_state_updates_from_prestate consumer (storage_diff diff) frame in
      at_encoded_updates r = hex_text (encode_state_updates_to_abi updates) ∧
      at_callees_executed r = false ∧
      ∃ addr caller wei db,
        (∀ slot, is_Some (last_store updates slot) → default 0 (cached_slot db addr slot) = before consumer slot) ∧
        match price_program (C := C) (wasm_sim_env block_number wei) db addr caller updates with
        | Ok run => at_is_heuristic r = false ∧ (is_u64 run → at_gas_estimate r = run)
        | _ => at_is_heuristic r = true
        end
  end.
Proof.
  intros Ha Hdiff Hframe Hconsumer Hd eligible. subst eligible. unfold analyze_prestate_inner, parse_diff in Ha.
  rewrite Hdiff, Hframe, Hconsumer in Ha. cbn [map_err mbind res_bind] in Ha.
  destruct (String.eqb_spec (cf_typ frame) "CALL") as [Hcall|Hcall]; cbn [negb] in Ha;
    [|inv_res; by intros []].
  destruct (classify_prestate_eligibility _ _ _) as [|reason] eqn:Hel; [|inv_res; by intros []].
  destruct (analyze_extract _ _ _ _ _ _ _ _) as [r| |] eqn:Hr; [|done..]. cbn in Ha. inv_res.
  destruct (analyze_extract_answer _ _ _ _ _ _ _ _ _ Hr) as (addr & caller & wei & _ & _ & _ & Hfine).
  unfold net_extract in Hfine. destruct (net_sstore_costs _ _) as [sstore refund].
  destruct Hfine as (Henc & _ & Hex & _ & db & Hdb & Hback). cbn [te_state_updates te_callee_gas_total] in *.
  split; [done|]. split; [done|]. split; [done|]. exists addr, caller, wei, db. split.
  - intros slot [v Hv]. pose proof (net_last_store _ _ _ _ _ _ _ Hd Hv) as ->.
    destruct (seeded_db_spec (empty_db (C := C)) (storage_error (V := V)) (for_program (Some (diff, consumer)) addr
      (build_state_updates_from_prestate consumer (storage_diff diff) frame) ∅)) as (db' & Hdb' & _ & Hs).
    rewrite Hdb in Hdb'. injection Hdb' as <-. rewrite Hs. cbn. rewrite lookup_singleton_eq. cbn [mbind option_bind].
    rewrite original_storage_lookup, Hv. cbn. by apply original_value_before.
  - destruct (price_program _ _ _ _ _) as [run|e|]; [| |done]; destruct Hback as [Hgas ->]; [|done].
    split; [done|]. intros Hrun. rewrite Hgas. revert Hrun. u64_lia.
Qed.

(** ** A frame tree *)

Section tree.
Context {V C : Type} `{Externals, DynAbi, Serde V, Inputs V, Bytecode, CacheDB C, EmptyRuntime C}.

Lemma price_tree_length env seeds frames caller value why gas :
  price_tree (V := V) (C := C) env seeds frames caller value why = Ok gas → length gas = length frames.
Proof.
  unfold price_tree. intros Hg. destruct (seeded_db _ _ _) as [db| |]; [|done..]. cbn [mbind res_bind] in Hg.
  destruct (estimate_frame_tree_gas _ _ _ _ _ _ _ _) as [[db' g]| |] eqn:Hrun; [|done..].
  cbn in Hg. inv_res. by eapply (tree_gas_length (H1 := revm_in env)).
Qed.

Lemma price_tree_why env seeds frames caller value why why' gas :
  price_tree (V := V) (C := C) env seeds frames caller value why = Ok gas →
  price_tree (V := V) (C := C) env seeds frames caller value why' = Ok gas.
Proof.
  unfold price_tree. destruct (seeded_db _ _ _); [|done..]. cbn [mbind res_bind].
  by destruct (estimate_frame_tree_gas _ _ _ _ _ _ _ _) as [[]| |].
Qed.

(** The replayed gas has an entry per frame, and is the same for the same frames. *)
Lemma replay_trees_gas replay root_only nested caller block_number value g1 g2 :
  replay_trees (V := V) (C := C) replay root_only nested caller block_number value = Ok (g1, g2) →
  length g2 = length nested ∧ (root_only = nested → g1 = g2).
Proof.
  unfold replay_trees. intros Hg.
  destruct (price_tree _ _ root_only _ _ _) as [a| |] eqn:Ha; [|done..]. cbn [mbind res_bind] in Hg.
  destruct (price_tree _ _ nested _ _ _) as [b| |] eqn:Hb; [|done..]. cbn in Hg. inv_res.
  split; [by eapply price_tree_length|]. intros ->.
  pose proof (price_tree_why _ _ _ _ _ _ (λ e, "nested" +:+ ": " +:+ e) _ Ha). congruence.
Qed.

Lemma price_on_empty_length diff with_code frames caller block_number value gas :
  price_tree_on_empty (V := V) (C := C) diff with_code frames caller block_number value = Ok gas →
  length gas = length frames.
Proof.
  unfold price_tree_on_empty. intros Hg.
  destruct (frame_tree_seeds _ _ _); [|done..]. cbn [mbind res_bind] in Hg. by eapply price_tree_length.
Qed.

Lemma settle_trees_gas replay replayed diff with_code root_only nested caller block_number value g1 g2 c1 c2 ex :
  traverse (λ replay, attempt (F := string) (replay_trees (V := V) (C := C) replay (fte_frames root_only)
    (fte_frames nested) caller block_number value)) replay = Ok replayed →
  settle_trees (V := V) (C := C) replayed diff with_code root_only nested caller block_number value =
    Ok (g1, g2, c1, c2, ex) →
  length g2 = length (fte_frames nested) ∧ (root_only = nested → g1 = g2 ∧ c1 = c2).
Proof.
  intros Hrep Hs.
  assert (settle_trees (V := V) (C := C) None diff with_code root_only nested caller block_number value =
    Ok (g1, g2, c1, c2, ex) → length g2 = length (fte_frames nested) ∧
      (root_only = nested → g1 = g2 ∧ c1 = c2)) as Hempty.
  { cbn. intros Hg. destruct (price_tree_on_empty _ _ (fte_frames root_only) _ _ _) as [a| |] eqn:Ha; [|done..].
    cbn [mbind res_bind] in Hg.
    destruct (price_tree_on_empty _ _ (fte_frames nested) _ _ _) as [b| |] eqn:Hb; [|done..].
    cbn in Hg. inv_res. split; [by eapply price_on_empty_length|]. intros ->. split; congruence. }
  destruct replayed as [[[a b]|e]|]; [|by apply Hempty..]. cbn in Hs. inv_res.
  destruct replay as [replay|]; [|done]. cbn [traverse] in Hrep.
  destruct (replay_trees _ _ _ _ _ _) as [[a b]| |] eqn:Hr; [|done..]. cbn in Hrep. injection Hrep as -> ->.
  apply replay_trees_gas in Hr as [Hlen Heq]. split; [done|]. intros ->. by rewrite Heq.
Qed.

(** The root is not among the owned contracts. *)
Lemma parse_owned_root root owned set :
  parse_owned (V := V) root owned = Ok set →
  root ∉ set ∧ ∀ a, a ∈ set → ∃ text, text ∈ owned ∧ parse_address text = Ok a.
Proof.
  unfold parse_owned. intros Hset.
  refine (foldM_inv (λ set : gset Z, root ∉ set ∧
    ∀ a, a ∈ set → ∃ text, text ∈ owned ∧ parse_address text = Ok a) _ _ _ _ _ _ Hset); [|set_solver].
  intros s text s' Hin [Hr Hall] Hs. destruct (parse_address text) as [a| |] eqn:Ha; [|done..].
  cbn in Hs. destruct (Z.eqb_spec a root) as [->|Hne]; inv_res; [done|]. split; [set_solver|].
  intros b [->%elem_of_singleton|Hb]%elem_of_union; [by exists text|by apply Hall].
Qed.
End tree.

(** A function of the frames of a list with their gas that ignores the gas. *)
Lemma fmap_zip_l {A B X} (h : A * B → X) (h' : A → X) l k :
  (length l ≤ length k)%nat → (∀ a b, h (a, b) = h' a) → h <$> zip l k = h' <$> l.
Proof.
  intros Hlen Hh. revert k Hlen. induction l as [|a l IH]; intros [|b k] Hlen; cbn in *; try done; [lia|].
  rewrite Hh. f_equal. apply IH. lia.
Qed.

(** A frame-tree analysis lists the frames of the split with their gas: the root first, and then only
    frames of owned contracts other than the root; every owned contract either has a frame or is
    listed as not nested. Nothing owned, the two settlements cost the same. *)
Theorem analyze_frame_tree_lists {V C} `{Externals, DynAbi, Serde V, Inputs V, Bytecode, CacheDB C,
    EmptyRuntime C} trace root_address owned caller_address block_number value prestate_diff_json replay r :
  analyze_frame_tree_trace (V := V) (C := C) trace root_address owned caller_address block_number value
    prestate_diff_json replay = Ok r →
  ∃ root set nested,
    parse_address root_address = Ok root ∧ parse_owned (V := V) root owned = Ok set ∧ root ∉ set ∧
    compute_frame_tree_hypothetical trace root set NESTING_COST_MODEL_V1 = Ok nested ∧
    (λ f, (fg_target f, fg_caller f, fg_op_count f)) <$> ft_frames r =
      (λ f, (fp_target f, fp_caller f, length (fp_updates f))) <$> fte_frames nested ∧
    fg_target <$> head (ft_frames r) = Some root ∧
    (∀ f, f ∈ tail (ft_frames r) → fg_target f ∈ set) ∧
    (∀ a, a ∈ set ↔ a ∈ fg_target <$> tail (ft_frames r) ∨ a ∈ (ft_not_nested r).*1) ∧
    (set = ∅ → ft_nested_gas r = ft_root_only_gas r).
Proof.
  unfold analyze_frame_tree_trace. intros Hr.
  destruct (traverse _ _) as [diff| |]; [|done..]. cbn [mbind res_bind] in Hr.
  destruct (parse_address root_address) as [root| |] eqn:Hroot; [|done..]. cbn [map_err mbind res_bind] in Hr.
  destruct (parse_owned root owned) as [set| |] eqn:Hset; [|done..]. cbn [mbind res_bind] in Hr.
  destruct (parse_caller _) as [caller| |]; [|done..]. cbn [mbind res_bind] in Hr.
  destruct (parse_value _) as [wei| |]; [|done..]. cbn [mbind res_bind] in Hr.
  destruct (compute_frame_tree_hypothetical _ _ ∅ _) as [root_only| |] eqn:Honly; [|done..].
  cbn [map_err mbind res_bind] in Hr.
  destruct (compute_frame_tree_hypothetical _ _ set _) as [nested| |] eqn:Hnested; [|done..].
  cbn [map_err mbind res_bind] in Hr.
  destruct (traverse _ replay) as [replayed| |] eqn:Hrep; [|done..]. cbn [mbind res_bind] in Hr.
  exists root, set, nested. destruct (parse_owned_root _ _ _ Hset) as [Hout _].
  destruct (settle_trees _ _ _ _ _ _ _ _) as [[[[[g1 g2] c1] c2] ex]| |] eqn:Hg; [|done..].
  cbn in Hr. inv_res. destruct (settle_trees_gas _ _ _ _ _ _ _ _ _ _ _ _ _ _ Hrep Hg) as [Hlen Hsame].
  cbn [ft_frames ft_not_nested ft_nested_gas ft_root_only_gas].
  destruct (split_root_frame _ _ _ _ _ Hnested) as (_ & _ & _ & f & rest & _ & Hfs & Hf & _).
  assert (fg_target <$> (frame_gas_of <$> zip (fte_frames nested) g2) = fp_target <$> fte_frames nested) as Htg.
  { rewrite <-list_fmap_compose. apply fmap_zip_l; [lia|done]. }
  assert (∀ g, g ∈ rest → fp_target g ∈ set) as Howned.
  { intros g [i Hi]%list_elem_of_lookup. apply (split_frames_owned _ _ _ _ _ i g Hnested). by rewrite Hfs. }
  assert (∀ a, a ∈ (unnested_owned set (fte_frames nested)).*1 ↔ a ∈ set ∧ a ∉ fp_target <$> fte_frames nested)
    as Hnot by apply unnested_owned_spec.
  rewrite Hfs in Htg, Hnot, Hlen |- *. destruct g2 as [|gas g2]; [done|]. cbn in Htg, Hnot |- *.
  injection Htg as Htg. rewrite Htg.
  split_and!; try done.
  - f_equal. rewrite <-list_fmap_compose. apply fmap_zip_l; [cbn in Hlen; lia|done].
  - by rewrite Hf.
  - intros g Hg'. apply (list_elem_of_fmap_2 fg_target) in Hg'. rewrite Htg in Hg'.
    apply list_elem_of_fmap in Hg' as (g' & -> & Hin). by apply Howned.
  - intros a. rewrite Hnot, Hf, not_elem_of_cons. split.
    + intros Ha. destruct (decide (a ∈ fp_target <$> rest)); [by left|right].
      split; [done|]. split; [|done]. by intros ->.
    + intros [(g & -> & Hin)%list_elem_of_fmap|[? _]]; [by apply Howned|done].
  - intros ->. rewrite Hnested in Honly. injection Honly as <-. by destruct (Hsame eq_refl) as [-> ->].
Qed.

(** ** Example *)

#[export] Instance sample_inputs : Inputs SampleJson := {|
  json_frame text := if (text =? "trace")%string then Ok sample_raw else Err "no trace"%string;
  json_response _ := Ok (Some sample_raw, None);
  json_diff _ := Ok sample_diff;
  json_call_frame _ := Ok (mkCallFrame "CALL" (Some 10) None None [] []);
  json_accounts _ := Ok ∅;
  parse_address text :=
    if (text =? "0xa")%string then Ok 10
    else if (text =? "0x4d")%string then Ok 77
    else if (text =? "0x63")%string then Ok 99 else Err "no address"%string;
  parse_u256 _ := Ok 0;
  serde_text _ := "serde"%string;
  core_text _ := "core"%string;
  address_text _ := "0x"%string;
  debug_text text := text;
  storage_error := "storage"%string
|}.

#[export] Instance sample_empty_runtime : EmptyRuntime SampleDb := {|
  empty_db := sample_empty;
  revm_in _ := sample_revm;
  injected_code := sample_code;
  newest_spec := 20
|}.

#[export] Instance sample_runtime_laws : EmptyLaws SampleDb empty_db := sample_empty_laws.

Lemma analyze_trace_answers_witness :
  ∃ r, analyze_trace_inner (V := SampleJson) (C := SampleDb) "trace" "0x63" "0xa" None (Some "0xa") None
      (Some "diff") None = Ok r ∧
    at_is_heuristic r = false ∧ at_state_update_count r = 2%nat.
Proof.
  destruct (analyze_trace_inner (V := SampleJson) (C := SampleDb) "trace" "0x63" "0xa" None (Some "0xa") None
      (Some "diff") None) as [r| |] eqn:Hrun; [|vm_compute in Hrun; discriminate Hrun..].
  exists r. split; [reflexivity|]. split; [vm_compute in Hrun; injection Hrun as <-; reflexivity|].
  apply analyze_trace_answers in Hrun.
  destruct Hrun as (origin & trace & extract & _ & _ & _ & _ & _ & Horigin & Htrace & Hextract & _ & _ & _ &
    _ & _ & _ & _ & Hcount & _).
  rewrite Hcount. vm_compute in Horigin. injection Horigin as <-. vm_compute in Htrace.
  injection Htrace as <-. vm_compute in Hextract. injection Hextract as <-. reflexivity.
Defined.

Lemma analyze_prestate_agrees_witness :
  ∃ r, analyze_prestate_inner (V := SampleJson) (C := SampleDb) "diff" "frame" "0xa" "0x63" "0xa" None None =
      Ok (NetResult r) ∧
    at_callees_executed r = false ∧ at_gas_estimate r = 21824.
Proof.
  destruct (analyze_prestate_inner (V := SampleJson) (C := SampleDb) "diff" "frame" "0xa" "0x63" "0xa" None None)
    as [[r|]| |] eqn:Hrun; [|vm_compute in Hrun; discriminate Hrun..].
  exists r. split; [reflexivity|].
  destruct (analyze_prestate_agrees sample_before sample_after _ _ _ _ _ _ _ sample_diff
    (mkCallFrame "CALL" (Some 10) None None [] []) 10 _ Hrun eq_refl eq_refl eq_refl sample_reports)
    as (_ & _ & Hcallees & _).
  split; [exact Hcallees|]. vm_compute in Hrun. injection Hrun as <-. reflexivity.
Defined.

Lemma analyze_frame_tree_lists_witness :
  ∃ r, analyze_frame_tree_trace (V := SampleJson) (C := SampleDb) split_sample "0xa" ["0x4d"; "0x63"]%string "0x63" None
      None None None = Ok r ∧
    (99 ∈ (ft_not_nested r).*1 ∨ 99 ∈ fg_target <$> tail (ft_frames r)) ∧ length (ft_frames r) = 2%nat.
Proof.
  destruct (analyze_frame_tree_trace (V := SampleJson) (C := SampleDb) split_sample "0xa" ["0x4d"; "0x63"]%string "0x63"
    None None None None) as [r| |] eqn:Hrun; [|vm_compute in Hrun; discriminate Hrun..].
  exists r. split; [reflexivity|].
  destruct (analyze_frame_tree_lists _ _ _ _ _ _ _ _ _ Hrun)
    as (root & set & nested & Hroot & Hset & _ & _ & _ & _ & _ & Howned & _).
  split.
  - assert (99 ∈ set) as Hin.
    { vm_compute in Hroot. injection Hroot as <-.
      change (Ok ({[99]} ∪ ({[77]} ∪ ∅) : gset Z) = Ok (E := string) set) in Hset. injection Hset as <-.
      apply elem_of_union_l, elem_of_singleton. reflexivity. }
    apply Howned in Hin as [Hin|Hin]; [right|left]; exact Hin.
  - vm_compute in Hrun. injection Hrun as <-. reflexivity.
Defined.
