(* ===== verification/Resolver.v ===== *)
(** * Naming contracts

    [crates/indexer-resolver]: the snapshot of address and project names built from a curated overlay
    and a protocol list; what the block explorers say of a contract; the dictionary from contract names
    to projects; and the directory of function signatures. Files, HTTP and JSON are parameters, as is
    what Rust's Unicode tables say of a character. *)

From Stdlib Require Import Strings.Ascii.
From S2P Require Import Prelude.
From S2P Require Import Types.
From S2P Require Import Trace.
From S2P Require Import Prestate.
From S2P Require Import Transport.

(** The messages of a malformed address. *)
Inductive AddressWhy := NotHex | NotTwentyBytes (got : nat).

Inductive ResolverError :=
  | RIo (why : string)
  | RYaml (why : string)
  | RAddress (text : string) (why : AddressWhy)
  | RHttp (why : string)
  | REtherscan (message : string)
  | RJson (why : string).

Record ProjectInfo := mkProject {
  pi_slug : string;
  pi_name : string;
  pi_category : option string;
  pi_contact_email : option string;
  pi_contact_url : option string
}.

(** [hex::encode(address)]. *)
Definition address_hex (address : Z) : string := hex_string (be_bytes 20 address).

(** [ProjectInfo::unknown]. *)
Definition unknown (address : Z) : ProjectInfo :=
  mkProject ("unknown:0x" +:+ address_hex address) ("Unknown (0x" +:+ address_hex address +:+ ")")
    None None None.

(** [overlay.yaml]'s entries; the contact's mail and URL. *)
Record OverlayEntry := mkOverlay {
  oe_chain_id : Z;
  oe_address : string;
  oe_project_slug : string;
  oe_project_name : string;
  oe_category : option string;
  oe_contact : option (option string * option string)
}.

Record DefiLlamaProtocol := mkProtocol {
  dl_slug : string;
  dl_name : string;
  dl_category : option string;
  dl_address : option string
}.

Record ResolverSnapshot := mkSnapshot {
  rs_addresses : gmap (Z * Z) ProjectInfo;
  rs_projects : gmap string ProjectInfo
}.
Definition empty_snapshot : ResolverSnapshot := mkSnapshot ∅ ∅.

(** [str::trim]. *)
Class Strings := { trim : string → string }.

(** What is read outside: the overlay file, decoded, and the protocol list. *)
Class Sources (W : Type) := {
  read_overlay : string → Eff ResolverError W (list OverlayEntry);
  fetch_protocols : string → Eff ResolverError W (list DefiLlamaProtocol)
}.

(** [str::split_once(':')]. *)
Fixpoint split_colon (s : string) : option (string * string) :=
  match s with
  | EmptyString => None
  | String c rest =>
      if Ascii.eqb c ":"%char then Some (EmptyString, rest)
      else '(prefix, rest) ← split_colon rest; Some (String c prefix, rest)
  end.

(** [entry(k).or_insert(v)]. *)
Definition or_insert `{Countable K} {V} (k : K) (v : V) (m : gmap K V) : gmap K V :=
  match m !! k with Some _ => m | None => <[k := v]> m end.

Section resolver.
Context `{Externals, Strings}.

Definition parse_address (s : string) : Res ResolverError Z :=
  bytes ← ok_or (hex_decode (strip_0x s)) (RAddress s NotHex);
  if (length bytes =? 20)%nat then Ok (be_to_Z bytes)
  else Err (RAddress s (NotTwentyBytes (length bytes))).

Definition parse_defillama_address (raw : option string) : option (Z * Z) :=
  raw ← raw;
  let s := trim raw in
  if (s =? "")%string then None
  else
    hex_part ← match split_colon s with
               | None => Some s
               | Some (prefix, rest) =>
                   if (to_ascii_lowercase prefix =? "ethereum")%string then Some rest else None
               end;
    match parse_address hex_part with Ok a => Some (1, a) | _ => None end.

Definition overlay_project (e : OverlayEntry) : ProjectInfo :=
  let '(email, url) := default (None, None) (oe_contact e) in
  mkProject (oe_project_slug e) (oe_project_name e) (oe_category e) email url.

(** The loop body of [load_overlay]. *)
Definition add_overlay (into : ResolverSnapshot) (entry : OverlayEntry) : Res ResolverError ResolverSnapshot :=
  address ← parse_address (oe_address entry);
  let info := overlay_project entry in
  Ok (mkSnapshot (<[(oe_chain_id entry, address) := info]> (rs_addresses into))
        (or_insert (oe_project_slug entry) info (rs_projects into))).

Definition protocol_project (p : DefiLlamaProtocol) : ProjectInfo :=
  mkProject (dl_slug p) (dl_name p) (dl_category p) None None.

(** The loop body of [load_defillama]. *)
Definition add_protocol (into : ResolverSnapshot) (p : DefiLlamaProtocol) : ResolverSnapshot :=
  let info := protocol_project p in
  mkSnapshot
    (match parse_defillama_address (dl_address p) with
     | Some key => or_insert key info (rs_addresses into)
     | None => rs_addresses into
     end)
    (or_insert (dl_slug p) info (rs_projects into)).

Section refresh.
Context {W : Type} `{Sources W}.

Definition load_overlay (path : string) (into : ResolverSnapshot) : Eff ResolverError W ResolverSnapshot :=
  entries ← read_overlay path;
  eff_res (foldM add_overlay entries into).

Definition load_defillama (url : string) (into : ResolverSnapshot) : Eff ResolverError W ResolverSnapshot :=
  protocols ← fetch_protocols url;
  mret (fold_left add_protocol protocols into).

(** The world and the resolver's snapshot, which is swapped whole. *)
Record ResolverWorld := mkResolverWorld { rw_world : W; rw_snapshot : ResolverSnapshot }.

Definition outside {A} (m : Eff ResolverError W A) : Eff ResolverError ResolverWorld A :=
  zoom rw_world (λ w s, mkResolverWorld w (rw_snapshot s)) m.

Definition swap (snapshot : ResolverSnapshot) : Eff ResolverError ResolverWorld unit :=
  λ s, (Ok tt, mkResolverWorld (rw_world s) snapshot).

(** The two sources of [Resolver::refresh]; a failed protocol list leaves the overlay's names. *)
Definition from_overlay (overlay_path : option string) : Eff ResolverError ResolverWorld ResolverSnapshot :=
  match overlay_path with
  | Some path => outside (load_overlay path empty_snapshot)
  | None => mret empty_snapshot
  end.

Definition with_defillama (endpoint : option string) (new_snapshot : ResolverSnapshot)
  : Eff ResolverError ResolverWorld ResolverSnapshot :=
  match endpoint with
  | Some url =>
      loaded ← eff_try (outside (load_defillama url new_snapshot));
      mret match loaded with inl s => s | inr _ => new_snapshot end
  | None => mret new_snapshot
  end.

(** [Resolver::refresh]. *)
Definition refresh (overlay_path defillama_endpoint : option string) : Eff ResolverError ResolverWorld unit :=
  new_snapshot ← from_overlay overlay_path;
  new_snapshot ← with_defillama defillama_endpoint new_snapshot;
  swap new_snapshot.

(** [Resolver::resolve]. *)
Definition resolve (s : ResolverWorld) (chain_id address : Z) : ProjectInfo :=
  default (unknown address) (rs_addresses (rw_snapshot s) !! (chain_id, address)).
End refresh.
End resolver.
Arguments ResolverWorld W : clear implicits.

(** ** Explorers *)

Inductive ContractMeta :=
  | Verified (name : string) (is_proxy : bool) (implementation : option Z)
  | Unverified.

Record SourceCode := mkSourceCode {
  sc_contract_name : string;
  sc_proxy : option string;
  sc_implementation : option string
}.

(** Blockscout's address page. *)
Record Implementation := mkImplementation { im_address : option string; im_name : option string }.
Record AddressResp := mkAddressResp {
  ar_name : option string;
  ar_smart_contract : option (option string);
  ar_implementations : option (list Implementation)
}.

(** The explorers' answers, and what is called of [serde_json] on Etherscan's [result]. *)
Class Explorers (W : Type) := {
  Value : Type;
  value_as_str : Value → option string;
  value_rows : Value → option (list SourceCode);
  get_sourcecode : Z → string → Eff ResolverError W Value;
  get_address_page : string → Eff ResolverError W AddressResp
}.

Section explorers.
Context {W : Type} `{Externals, Strings, Explorers W}.

(** The prefix is looked for after trimming, and what is decoded without one is not trimmed. *)
Definition etherscan_parse_address (s : string) : option Z :=
  let stripped := if String.prefix "0x" (trim s) then strip_0x (trim s) else s in
  bytes ← hex_decode stripped;
  if (length bytes =? 20)%nat then Some (be_to_Z bytes) else None.

Definition blockscout_parse_address (s : string) : option Z :=
  bytes ← hex_decode (strip_0x s);
  if (length bytes =? 20)%nat then Some (be_to_Z bytes) else None.

(** [deserialize_api_result]: rows, or the message of an error. *)
Definition api_result (v : Value) : Res ResolverError (list SourceCode + string) :=
  match value_as_str v with
  | Some s => Ok (inr s)
  | None => rows ← ok_or (value_rows v) (RHttp "error decoding response body"); Ok (inl rows)
  end.

Definition source_meta (rows : list SourceCode) : ContractMeta :=
  match rows with
  | [] => Unverified
  | entry :: _ =>
      if (trim (sc_contract_name entry) =? "")%string then Unverified
      else Verified (sc_contract_name entry) (bool_decide (sc_proxy entry = Some "1"%string))
             (sc_implementation entry ≫= etherscan_parse_address)
  end.

(** [EtherscanClient::get_contract_name]. *)
Definition etherscan_get_contract_name (chain_id address : Z) : Eff ResolverError W ContractMeta :=
  response ← get_sourcecode chain_id ("0x" +:+ address_hex address);
  result ← eff_res (api_result response);
  match result with
  | inl rows => mret (source_meta rows)
  | inr msg => eff_res (Err (REtherscan ("api error: " +:+ msg)))
  end.

Definition page_name (resp : AddressResp) : option string :=
  match ar_smart_contract resp ≫= id with
  | Some name => Some name
  | None =>
      match ar_name resp with
      | Some name => Some name
      | None => i ← default [] (ar_implementations resp) !! 0%nat; im_name i
      end
  end.

Definition page_meta (resp : AddressResp) : ContractMeta :=
  match page_name resp with
  | Some name =>
      if (trim name =? "")%string then Unverified
      else
        let implementation :=
          i ← default [] (ar_implementations resp) !! 0%nat;
          address ← im_address i; blockscout_parse_address address in
        Verified name (bool_decide (is_Some implementation)) implementation
  | None => Unverified
  end.

(** [BlockscoutClient::get_contract_name]. *)
Definition blockscout_get_contract_name (address : Z) : Eff ResolverError W ContractMeta :=
  resp ← get_address_page ("0x" +:+ address_hex address);
  mret (page_meta resp).
End explorers.

(** ** Names to projects *)

(** A text as its characters' code points, and that of a literal. *)
Abbreviation Text := (list Z).
Definition text (s : string) : Text :=
  (λ c, Z.of_nat (nat_of_ascii c)) <$> String.list_ascii_of_string s.

(** [str::chars], [char::is_uppercase], [is_lowercase] and [to_lowercase]. *)
Class Unicode := {
  chars : string → Text;
  is_uppercase : Z → bool;
  is_lowercase : Z → bool;
  to_lowercase : Z → Text
}.

Definition is_ascii_digit (c : Z) : bool := (48 <=? c) && (c <=? 57).

Section names.
Context `{Unicode}.

(** The loop of [normalize_name], after the character before. *)
Fixpoint dash_words (prev : option Z) (s : Text) : Text :=
  match s with
  | [] => []
  | c :: s =>
      let dash :=
        match prev with
        | Some p => is_uppercase c && (is_lowercase p || is_ascii_digit p)
        | None => false
        end in
      (if dash then [45] else []) ++ to_lowercase c ++ dash_words (Some c) s
  end.

(** Underscores and spaces become dashes. *)
Definition dashed (c : Z) : Z := if (c =? 95) || (c =? 32) then 45 else c.
Definition normalize_name (s : string) : Text := dashed <$> dash_words None (chars s).

Definition SUFFIXES : list Text :=
  text <$> ["-router02"; "-routerv2"; "-router"; "-implementation"; "-proxy"; "-token"; "-v4"; "-v3";
            "-v2"; "-v1"]%string.

(** [str::strip_suffix]. *)
Definition strip_suffix (s suffix : Text) : option Text :=
  let n := (length s - length suffix)%nat in
  if bool_decide (length suffix ≤ length s)%nat && bool_decide (drop n s = suffix) then Some (take n s)
  else None.

Fixpoint strip_first (suffixes : list Text) (s : Text) : Text :=
  match suffixes with
  | [] => s
  | suffix :: suffixes =>
      match strip_suffix s suffix with Some stripped => stripped | None => strip_first suffixes s end
  end.
Definition strip_one_suffix (s : Text) : Text := strip_first SUFFIXES s.

(** [NameDict]; its keys are normalized. *)
Abbreviation NameDict := (gmap (list Z) string).

(** [NameDict::load], after the file is decoded. *)
Definition load_names (entries : list (string * string)) : NameDict :=
  fold_left (λ map e, <[normalize_name e.1 := e.2]> map) entries ∅.

(** The loop of [lookup]: at most [n] suffixes are stripped. *)
Fixpoint lookup_stripped (names : NameDict) (n : nat) (s : Text) : option string :=
  match n with
  | O => None
  | S n =>
      let trimmed := strip_one_suffix s in
      if bool_decide (trimmed = s) then None
      else match names !! trimmed with Some slug => Some slug | None => lookup_stripped names n trimmed end
  end.

Definition lookup_name (names : NameDict) (contract_name : string) : option string :=
  let normalized := normalize_name contract_name in
  match names !! normalized with
  | Some slug => Some slug
  | None => lookup_stripped names 4 normalized
  end.
End names.

(** ** Function signatures *)

Record Signature := mkSignature { sg_id : Z; sg_text_signature : string }.
Record ResolvedSelector := mkResolved {
  rv_selector : list Z;
  rv_primary_name : string;
  rv_primary_sig : string;
  rv_all_signatures : list string
}.

Class FourByte (W : Type) := { get_signatures : string → Eff ResolverError W (list Signature) }.

Definition id_le (a b : Signature) : bool := sg_id a <=? sg_id b.

(** [split('(').next()]. *)
Fixpoint before_paren (s : string) : string :=
  match s with
  | EmptyString => EmptyString
  | String c rest => if Ascii.eqb c "("%char then EmptyString else String c (before_paren rest)
  end.

Definition resolve_selector (selector : list Z) (results : list Signature) : option ResolvedSelector :=
  match sort_by id_le results with
  | [] => None
  | primary :: _ as sorted =>
      Some (mkResolved selector (before_paren (sg_text_signature primary)) (sg_text_signature primary)
              (sg_text_signature <$> sorted))
  end.

(** [FourByteClient::lookup]. *)
Definition fourbyte_lookup {W} `{FourByte W} (selector : list Z)
  : Eff ResolverError W (option ResolvedSelector) :=
  results ← get_signatures ("0x" +:+ hex_string selector);
  mret (resolve_selector selector results).
