(* ===== verification/ResolverSpec.v ===== *)
(** * The names resolved

    What a refresh of the resolver leaves: the overlay before the protocol list, or what was there
    before; and which entry of the dictionary names a contract. *)

From S2P Require Import Prelude.
From S2P Require Import Effects.
From S2P Require Import Types.
From S2P Require Import Instances.
From S2P Require Import Trace.
From S2P Require Import Transport.
From S2P Require Import Resolver.

(** ** Reference *)

Section reference.
Context `{Externals, Strings}.

Definition is_of (key : Z * Z) (e : OverlayEntry) : bool :=
  match parse_address (oe_address e) with Ok a => bool_decide ((oe_chain_id e, a) = key) | _ => false end.

(** The overlay's entry of an address: the last one. *)
Definition overlay_of (entries : list OverlayEntry) (key : Z * Z) : option OverlayEntry :=
  last (List.filter (is_of key) entries).

(** The protocol whose main address it is: the first one. *)
Definition protocol_of (protocols : list DefiLlamaProtocol) (key : Z * Z) : option DefiLlamaProtocol :=
  head (List.filter (λ p, bool_decide (parse_defillama_address (dl_address p) = Some key)) protocols).

(** The first of either kind with a slug. *)
Definition overlay_named (entries : list OverlayEntry) (slug : string) : option OverlayEntry :=
  head (List.filter (λ e, bool_decide (oe_project_slug e = slug)) entries).
Definition protocol_named (protocols : list DefiLlamaProtocol) (slug : string) : option DefiLlamaProtocol :=
  head (List.filter (λ p, bool_decide (dl_slug p = slug)) protocols).

(** What a refresh read: nothing where it has no source, or the protocol list failed. *)
Definition overlay_read {W} `{Sources W} (path : option string) (w : W) (entries : list OverlayEntry)
  (w' : W) : Prop :=
  match path with
  | None => entries = [] ∧ w' = w
  | Some path => read_overlay path w = (Ok entries, w')
  end.
Definition protocols_read {W} `{Sources W} (url : option string) (w : W)
  (protocols : list DefiLlamaProtocol) (w' : W) : Prop :=
  match url with
  | None => protocols = [] ∧ w' = w
  | Some url =>
      fetch_protocols url w = (Ok protocols, w') ∨
      protocols = [] ∧ ∃ e, fetch_protocols url w = (Err e, w')
  end.

(** ** The maps *)

Lemma or_insert_lookup `{Countable K} {V} (k j : K) (v : V) (m : gmap K V) :
  or_insert k v m !! j =
  match m !! j with Some x => Some x | None => if decide (j = k) then Some v else None end.
Proof.
  unfold or_insert. destruct (decide (j = k)) as [->|Hne].
  - destruct (m !! k) eqn:Hk; [done|]. by rewrite lookup_insert_eq.
  - destruct (m !! k); [by destruct (m !! j)|]. rewrite lookup_insert_ne by done. by destruct (m !! j).
Qed.

Lemma overlay_of_cons e entries key :
  overlay_of (e :: entries) key =
  match overlay_of entries key with
  | Some x => Some x
  | None => if is_of key e then Some e else None
  end.
Proof.
  unfold overlay_of. cbn [List.filter]. destruct (is_of key e).
  - rewrite last_cons. by destruct (last _).
  - by destruct (last _).
Qed.

Lemma overlay_addresses entries s s' key :
  foldM add_overlay entries s = Ok s' →
  rs_addresses s' !! key =
    match overlay_of entries key with
    | Some e => Some (overlay_project e)
    | None => rs_addresses s !! key
    end.
Proof.
  revert s. induction entries as [|e entries IH]; intros s Hs; cbn [foldM] in Hs.
  { by inv_res. }
  destruct (add_overlay s e) as [s1| |] eqn:Hs1; [|done..]. cbn [mbind res_bind] in Hs.
  rewrite (IH _ Hs), overlay_of_cons. unfold add_overlay in Hs1.
  destruct (parse_address (oe_address e)) as [a| |] eqn:Ha; [|done..]. cbn in Hs1. inv_res. cbn [rs_addresses].
  unfold is_of. rewrite Ha. destruct (overlay_of entries key); [done|]. case_bool_decide as Hk.
  - by rewrite <-Hk, lookup_insert_eq.
  - by rewrite lookup_insert_ne.
Qed.

Lemma overlay_projects entries s s' slug :
  foldM add_overlay entries s = Ok s' →
  rs_projects s' !! slug =
    match rs_projects s !! slug with
    | Some p => Some p
    | None => overlay_project <$> overlay_named entries slug
    end.
Proof.
  revert s. induction entries as [|e entries IH]; intros s Hs; cbn [foldM] in Hs.
  { inv_res. by destruct (rs_projects s' !! slug). }
  destruct (add_overlay s e) as [s1| |] eqn:Hs1; [|done..]. cbn [mbind res_bind] in Hs.
  rewrite (IH _ Hs). unfold add_overlay in Hs1.
  destruct (parse_address (oe_address e)) as [a| |] eqn:Ha; [|done..]. cbn in Hs1. inv_res. cbn [rs_projects].
  rewrite or_insert_lookup. unfold overlay_named. cbn [List.filter].
  destruct (rs_projects s !! slug); [done|].
  destruct (decide (slug = oe_project_slug e)) as [->|Hne].
  - by rewrite bool_decide_eq_true_2.
  - by rewrite bool_decide_eq_false_2 by congruence.
Qed.

Lemma protocol_addresses protocols s key :
  rs_addresses (fold_left add_protocol protocols s) !! key =
    match rs_addresses s !! key with
    | Some p => Some p
    | None => protocol_project <$> protocol_of protocols key
    end.
Proof.
  revert s. induction protocols as [|p protocols IH]; intros s; cbn [fold_left].
  { by destruct (rs_addresses s !! key). }
  rewrite IH. unfold add_protocol, protocol_of. cbn [rs_addresses List.filter].
  destruct (parse_defillama_address (dl_address p)) as [k|].
  - rewrite or_insert_lookup. destruct (rs_addresses s !! key); [done|].
    destruct (decide (key = k)) as [->|Hne].
    + by rewrite bool_decide_eq_true_2.
    + by rewrite bool_decide_eq_false_2 by congruence.
  - by destruct (rs_addresses s !! key).
Qed.

Lemma protocol_projects protocols s slug :
  rs_projects (fold_left add_protocol protocols s) !! slug =
    match rs_projects s !! slug with
    | Some p => Some p
    | None => protocol_project <$> protocol_named protocols slug
    end.
Proof.
  revert s. induction protocols as [|p protocols IH]; intros s; cbn [fold_left].
  { by destruct (rs_projects s !! slug). }
  rewrite IH. unfold add_protocol, protocol_named. cbn [rs_projects List.filter].
  rewrite or_insert_lookup. destruct (rs_projects s !! slug); [done|].
  destruct (decide (slug = dl_slug p)) as [->|Hne].
  - by rewrite bool_decide_eq_true_2.
  - by rewrite bool_decide_eq_false_2 by congruence.
Qed.

End reference.

(** ** A refresh *)

Section runs.
Context {W : Type} `{Externals, Strings, Sources W}.

Lemma add_overlay_error entries s e :
  foldM add_overlay entries s = Err e →
  ∃ entry, entry ∈ entries ∧ parse_address (oe_address entry) = Err e.
Proof.
  revert s. induction entries as [|entry entries IH]; intros s Hs; cbn [foldM] in Hs; [done|].
  destruct (add_overlay s entry) as [s1|e'|] eqn:Hs1; [|cbn in Hs; injection Hs as ->|done].
  - destruct (IH s1 Hs) as (x & Hx & He). exists x. split; [by right|done].
  - exists entry. split; [by left|]. unfold add_overlay in Hs1.
    destruct (parse_address (oe_address entry)); cbn in Hs1; congruence.
Qed.

Lemma from_overlay_run overlay_path (s s' : ResolverWorld W) m :
  from_overlay overlay_path s = (m, s') →
  rw_snapshot s' = rw_snapshot s ∧
  match m with
  | Ok loaded => ∃ entries, overlay_read overlay_path (rw_world s) entries (rw_world s') ∧
      foldM add_overlay entries empty_snapshot = Ok loaded
  | Err e => ∃ path, overlay_path = Some path ∧
      (read_overlay path (rw_world s) = (Err e, rw_world s') ∨
       ∃ entries entry, read_overlay path (rw_world s) = (Ok entries, rw_world s') ∧ entry ∈ entries ∧
         parse_address (oe_address entry) = Err e)
  | Panic _ => True
  end.
Proof.
  unfold from_overlay, outside, zoom, load_overlay, mbind, eff_bind, overlay_read.
  destruct overlay_path as [path|].
  - destruct (read_overlay path (rw_world s)) as [[entries|e|p] w] eqn:Hread.
    + unfold eff_res. intros [= <- <-]. split; [done|]. cbn [rw_world].
      destruct (foldM add_overlay entries empty_snapshot) as [loaded|e|p] eqn:Hf; [by eauto| |done].
      exists path. split; [done|]. right.
      destruct (add_overlay_error _ _ _ Hf) as (entry & Hin & He). by exists entries, entry.
    + intros [= <- <-]. split; [done|]. exists path. by split; [|left].
    + by intros [= <- <-].
  - intros [= <- <-]. split; [done|]. by exists [].
Qed.

Lemma with_defillama_run url loaded (s s' : ResolverWorld W) m :
  with_defillama url loaded s = (m, s') →
  rw_snapshot s' = rw_snapshot s ∧
  match m with
  | Ok loaded' => ∃ protocols, protocols_read url (rw_world s) protocols (rw_world s') ∧
      loaded' = fold_left add_protocol protocols loaded
  | Err _ => False
  | Panic _ => True
  end.
Proof.
  unfold with_defillama, eff_try, outside, zoom, load_defillama, mbind, eff_bind, protocols_read.
  destruct url as [url|].
  - destruct (fetch_protocols url (rw_world s)) as [[protocols|e|p] w] eqn:Hread; intros [= <- <-];
      (split; [done|]); [| |done].
    + exists protocols. by split; [left|].
    + exists []. split; [|done]. right. eauto.
  - intros [= <- <-]. split; [done|]. by exists [].
Qed.
End runs.

(** A refresh either fails and changes nothing, or names every address by the overlay's last entry for
    it, else by the first protocol whose address it is, else as unknown; and every project by the
    overlay's first entry of its slug, else the first protocol's. Only an overlay that cannot be read
    or holds a malformed address makes it fail. *)
Theorem refresh_spec {W} `{Externals, Strings, Sources W} overlay_path url (s s' : ResolverWorld W) r :
  refresh overlay_path url s = (r, s') →
  match r with
  | Ok _ =>
      ∃ entries w protocols,
        overlay_read overlay_path (rw_world s) entries w ∧ protocols_read url w protocols (rw_world s') ∧
        (∀ chain address, resolve s' chain address =
           match overlay_of entries (chain, address) with
           | Some e => overlay_project e
           | None =>
               match protocol_of protocols (chain, address) with
               | Some p => protocol_project p
               | None => unknown address
               end
           end) ∧
        ∀ slug, rs_projects (rw_snapshot s') !! slug =
          match overlay_named entries slug with
          | Some e => Some (overlay_project e)
          | None => protocol_project <$> protocol_named protocols slug
          end
  | Err e =>
      rw_snapshot s' = rw_snapshot s ∧
      ∃ path, overlay_path = Some path ∧
        (read_overlay path (rw_world s) = (Err e, rw_world s') ∨
         ∃ entries entry, read_overlay path (rw_world s) = (Ok entries, rw_world s') ∧ entry ∈ entries ∧
           parse_address (oe_address entry) = Err e)
  | Panic _ => True
  end.
Proof.
  intros Hrun. unfold refresh, mbind, eff_bind in Hrun.
  destruct (from_overlay overlay_path s) as [m s1] eqn:Hover.
  destruct (from_overlay_run _ _ _ _ Hover) as [Hsnap Hm].
  destruct m as [loaded|e|p]; [|by injection Hrun as <- <-..].
  destruct Hm as (entries & Hread & Hf).
  destruct (with_defillama url loaded s1) as [m s2] eqn:Hdef.
  destruct (with_defillama_run _ _ _ _ _ Hdef) as [_ Hm].
  destruct m as [done_|e|p]; [|done|by injection Hrun as <- <-].
  destruct Hm as (protocols & Hpro & ->). injection Hrun as <- <-.
  exists entries, (rw_world s1), protocols. split_and!; [done|done| |].
  - intros chain address. unfold resolve. cbn [rw_snapshot].
    rewrite protocol_addresses, (overlay_addresses _ _ _ _ Hf). cbn [empty_snapshot rs_addresses].
    rewrite lookup_empty. destruct (overlay_of entries _); [done|]. by destruct (protocol_of protocols _).
  - intros slug. cbn [rw_snapshot].
    rewrite protocol_projects, (overlay_projects _ _ _ _ Hf). cbn [empty_snapshot rs_projects].
    rewrite lookup_empty. by destruct (overlay_named entries slug).
Qed.

(** ** The dictionary *)

Section names.
Context `{Unicode}.

(** A normalized name and what is left after each of up to [n] suffixes. *)
Fixpoint stages (n : nat) (s : list Z) : list (list Z) :=
  match n with
  | O => []
  | S n => strip_one_suffix s :: stages n (strip_one_suffix s)
  end.

Lemma stages_stuck (names : gmap (list Z) string) n s :
  strip_one_suffix s = s → names !! s = None → omap (names !!.) (stages n s) = [].
Proof.
  intros Hs Hnone. induction n as [|n IH]; [done|]. cbn [stages omap list_omap]. rewrite Hs, Hnone. exact IH.
Qed.

Lemma lookup_stripped_stages names n s :
  names !! s = None → lookup_stripped names n s = head (omap (names !!.) (stages n s)).
Proof.
  revert s. induction n as [|n IH]; intros s Hs; [done|]. cbn [lookup_stripped].
  case_bool_decide as Hstuck.
  - by rewrite stages_stuck.
  - cbn [stages omap list_omap]. destruct (names !! strip_one_suffix s) eqn:Ht; [done|]. by apply IH.
Qed.

Lemma lookup_name_stages names contract_name :
  lookup_name names contract_name =
  head (omap (names !!.) (normalize_name contract_name :: stages 4 (normalize_name contract_name))).
Proof.
  unfold lookup_name. cbn [omap list_omap].
  destruct (names !! normalize_name contract_name) eqn:Hn; [done|]. by apply lookup_stripped_stages.
Qed.

Lemma load_names_lookup entries key :
  load_names entries !! key =
  snd <$> last (List.filter (λ e, bool_decide (normalize_name e.1 = key)) entries).
Proof.
  unfold load_names. induction entries as [|e entries IH] using rev_ind; [done|].
  rewrite fold_left_app. cbn [fold_left]. rewrite List.filter_app. cbn [List.filter].
  case_bool_decide as Hk.
  - rewrite last_snoc. subst. by rewrite lookup_insert_eq.
  - rewrite lookup_insert_ne by done. by rewrite app_nil_r, IH.
Qed.
End names.

(** A contract is named by the entry for its normalized name, or for the longest of what is left of it
    after one to four suffixes; and every name of the dictionary is found, as the last entry that
    normalizes as it does. *)
Theorem lookup_name_spec `{Unicode} entries :
  (∀ contract_name, lookup_name (load_names entries) contract_name =
     head (omap (load_names entries !!.)
       (normalize_name contract_name :: stages 4 (normalize_name contract_name)))) ∧
  ∀ name slug, (name, slug) ∈ entries →
    ∃ name' slug', (name', slug') ∈ entries ∧ normalize_name name' = normalize_name name ∧
      lookup_name (load_names entries) name = Some slug'.
Proof.
  split; [apply lookup_name_stages|]. intros name slug Hin.
  destruct (last (List.filter (λ e, bool_decide (normalize_name e.1 = normalize_name name)) entries))
    as [[name' slug']|] eqn:Hlast.
  - exists name', slug'. assert ((name', slug') ∈ entries ∧ normalize_name name' = normalize_name name)
      as [Hin' Hn].
    { apply last_Some_elem_of in Hlast. rewrite list_elem_of_In, filter_In, <-list_elem_of_In in Hlast.
      destruct Hlast as [? Hb]. by apply bool_decide_eq_true in Hb. }
    split_and!; [done..|]. unfold lookup_name. by rewrite load_names_lookup, Hlast.
  - exfalso. apply last_None in Hlast.
    assert ((name, slug) ∈ ([] : list (string * string))) as []%not_elem_of_nil.
    rewrite <-Hlast, list_elem_of_In, filter_In, <-list_elem_of_In. by rewrite bool_decide_eq_true_2.
Qed.

(** ** Examples *)

#[export] Instance sample_strings : Strings := {| trim s := s |}.

(** The tables for ASCII. *)
#[export] Instance sample_unicode : Unicode := {|
  chars := text;
  is_uppercase c := (65 <=? c) && (c <=? 90);
  is_lowercase c := (97 <=? c) && (c <=? 122);
  to_lowercase c := [if (65 <=? c) && (c <=? 90) then c + 32 else c]
|}.

(** The names of the crate's tests. *)
Example normalized_names :
  normalize_name <$> ["UniswapV2Router02"; "TetherToken"; "FiatTokenProxy"]%string =
  text <$> ["uniswap-v2-router02"; "tether-token"; "fiat-token-proxy"]%string.
Proof. vm_compute. reflexivity. Qed.

(** A versioned router is not found under the unversioned router's name. *)
Example router_skipped :
  lookup_name (load_names [("uniswap-v2-router", "uniswap")]%string) "UniswapV2Router02" = None ∧
  lookup_name (load_names [("uniswap-v2", "uniswap")]%string) "UniswapV2Router02" = Some "uniswap"%string.
Proof. vm_compute. done. Qed.

(** An empty name of the contract hides the name of the address. *)
Example blank_name_hides :
  page_meta (H := sample_externals) (mkAddressResp (Some "Vault"%string) (Some (Some ""%string)) None) = Unverified.
Proof. vm_compute. reflexivity. Qed.

Lemma lookup_name_spec_witness :
  lookup_name (load_names [("uniswap-v2", "uniswap")]%string) "uniswap-v2" = Some "uniswap"%string ∧
  lookup_name (load_names [("uniswap-v2", "uniswap")]%string) "UniswapV2Router02" = Some "uniswap"%string.
Proof.
  destruct (lookup_name_spec [("uniswap-v2", "uniswap")]%string) as [Hstages Hfound]. split.
  - destruct (Hfound "uniswap-v2" "uniswap")%string as (name & slug & Hin & _ & Hlookup); [by left|].
    apply list_elem_of_singleton in Hin. injection Hin as -> ->. exact Hlookup.
  - rewrite Hstages. vm_compute. reflexivity.
Defined.

(** A world with an overlay and a protocol that claims the same address. *)
#[export] Instance sample_sources : Sources nat := {|
  read_overlay path w := (Ok [mkOverlay 1 "0x00000000000000000000000000000000000000aa" "x" "X" None None]%string, S w);
  fetch_protocols url w :=
    (Ok [mkProtocol "y" "Y" None (Some "ethereum:0x00000000000000000000000000000000000000aa");
         mkProtocol "z" "Z" None (Some "0x00000000000000000000000000000000000000bb")]%string, S w)
|}.

Lemma refresh_spec_witness :
  ∃ s', refresh (H := sample_externals) (Some "overlay.yaml"%string) (Some "url"%string)
      (mkResolverWorld 0%nat empty_snapshot) = (Ok tt, s') ∧
    (pi_slug (resolve s' 1 0xaa), pi_slug (resolve s' 1 0xbb)) = ("x", "z")%string.
Proof.
  destruct (refresh (H := sample_externals) (Some "overlay.yaml"%string) (Some "url"%string)
    (mkResolverWorld 0%nat empty_snapshot)) as [r s'] eqn:Hrun.
  pose proof (refresh_spec (H := sample_externals) _ _ _ _ _ Hrun) as Hspec.
  destruct r as [[]|e|p]; [|vm_compute in Hrun; discriminate Hrun..].
  exists s'. split; [reflexivity|].
  destruct Hspec as (entries & w & protocols & Hread & Hpro & Hnames & _).
  cbn in Hread. injection Hread as <- <-.
  destruct Hpro as [Hpro|[_ [e Hpro]]]; [|discriminate Hpro]. cbn in Hpro. injection Hpro as <- _.
  rewrite !Hnames. vm_compute. reflexivity.
Defined.
