(* ===== verification/Labeler.v ===== *)
(** * Labelling unknown contracts

    [crates/indexer-service/src/labeler.rs], [fourbyte_resolver.rs] and the resolver's refresh of
    [refresher.rs]: the producer that ranks unknown contracts into a sorted set, the consumer that
    takes one at a time and asks the explorers for its name, and the loops that store names and
    signatures. The store's SQL statements and Redis are operations of classes; sleeping and logging
    are left out. *)

From S2P Require Import Prelude.
From S2P Require Import Types.
From S2P Require Import Trace.
From S2P Require Import Resolver.

Definition QUEUE_KEY : string := "labeler:queue".

(** The statements of the store that name contracts; their errors are texts. *)
Class Store (W : Type) := {
  (** Addresses as bytes, with the wei saved over their lifetime. *)
  top_unknown_addresses : Z → Z → Z → Eff string W (list (list Z * Z));
  (** Chain, address, result, contract name, matched slug. *)
  upsert_label_attempt : Z → Z → string → option string → option string → Eff string W unit;
  upsert_project : ProjectInfo → Eff string W unit;
  upsert_address_project : Z → Z → string → Eff string W unit;
  relabel_unknowns : Eff string W Z;
  unresolved_selectors : Z → Z → Eff string W (list (list Z));
  upsert_function_selector :
    list Z → option string → option string → list string → string → Eff string W unit
}.

(** A Redis sorted set, and [bd_to_f64]. *)
Class SortedSet (W : Type) := {
  Score : Type;
  bd_to_f64 : Z → Score;
  zadd : string → string → Score → Eff string W Z;
  zcard : string → Eff string W Z;
  zpopmax : string → nat → Eff string W (list (string * Score))
}.

(** [let _ = ..]: an error is dropped. *)
Definition ignore {E F W A} (m : Eff E W A) : Eff F W unit := _ ← eff_try m; mret tt.

(** [.ok()], [.unwrap_or(..)]. *)
Definition eff_ok {E F W A} (m : Eff E W A) : Eff F W (option A) :=
  r ← eff_try m; mret match r with inl a => Some a | inr _ => None end.

(** ** The producer *)

Section producer.
Context {W : Type} `{Store W, SortedSet W}.

(** The loop over the rows: how many were pushed before Redis failed. *)
Fixpoint push_rows (rows : list (list Z * Z)) (pushed : Z) : Eff string W Z :=
  match rows with
  | [] => mret pushed
  | (address, wei_saved_total) :: rows =>
      res ← eff_try (zadd QUEUE_KEY (hex_string address) (bd_to_f64 wei_saved_total));
      match res with
      | inl _ => push_rows rows (pushed + 1)
      | inr _ => mret pushed
      end
  end.

(** What was pushed, and the set's size after. *)
Definition producer_tick_once (chain_id batch_size retry_days : Z) : Eff string W (Z * Z) :=
  rows ← eff_map_err (String.append "labeler producer query failed: ")
    (top_unknown_addresses chain_id batch_size retry_days);
  pushed ← (if (length rows =? 0)%nat then mret 0 else push_rows rows 0);
  depth ← eff_ok (zcard QUEUE_KEY);
  mret (pushed, default (-1) depth).
End producer.

(** ** The consumer *)

(** What the explorers say of a contract's name. *)
Inductive FetchedName :=
  | FetchFailed
  | FetchUnverified
  | FetchNamed (name : string).

Section consumer.
Context {W : Type} `{Externals, Strings, Unicode, Explorers W, Store W, SortedSet W}.
(** The chain, whether Blockscout is configured, and the dictionary. *)
Variables (chain_id : Z) (blockscout : bool) (names : gmap (list Z) string).

Abbreviation Run A := (Eff string W A).

(** The first [match] of [process_address]: Etherscan, or Blockscout where it fails. *)
Definition fetch_meta (addr : Z) : Run (option ContractMeta) :=
  meta ← eff_try (etherscan_get_contract_name chain_id addr);
  match meta with
  | inl m => mret (Some m)
  | inr _ => if blockscout then eff_ok (blockscout_get_contract_name addr) else mret None
  end.

(** The second: Blockscout where the contract is unverified. *)
Definition fetch_name (addr : Z) : Run FetchedName :=
  meta ← fetch_meta addr;
  match meta with
  | None => mret FetchFailed
  | Some (Verified name _ _) => mret (FetchNamed name)
  | Some Unverified =>
      bs_meta ← (if blockscout then eff_ok (blockscout_get_contract_name addr) else mret None);
      mret match bs_meta with
           | Some (Verified name _ _) => FetchNamed name
           | _ => FetchUnverified
           end
  end.

Definition record_attempt (addr : Z) (result : string) (name slug : option string) : Run unit :=
  ignore (upsert_label_attempt chain_id addr result name slug).

(** The end of [process_address]: the project, the mapping, the analyses already stored. *)
Definition persist_match (addr : Z) (name slug : string) : Run unit :=
  project ← eff_try (upsert_project (mkProject slug name None None None));
  match project with
  | inr _ => record_attempt addr "error" (Some name) (Some slug)
  | inl _ =>
      mapping ← eff_try (upsert_address_project chain_id addr slug);
      match mapping with
      | inr _ => record_attempt addr "error" (Some name) (Some slug)
      | inl _ =>
          _ ← ignore relabel_unknowns;
          record_attempt addr "matched" (Some name) (Some slug)
      end
  end.

Definition process_address (addr : Z) : Run unit :=
  fetched ← fetch_name addr;
  match fetched with
  | FetchFailed => record_attempt addr "error" None None
  | FetchUnverified => record_attempt addr "unverified" None None
  | FetchNamed name =>
      match lookup_name names name with
      | None => record_attempt addr "no-match" (Some name) None
      | Some slug => persist_match addr name slug
      end
  end.

Definition parse_addr_member (member : string) : option Z :=
  bytes ← hex_decode member;
  if (length bytes =? 20)%nat then Some (be_to_Z bytes) else None.

(** One round of [consumer_loop], and how it goes on: after five seconds, after thirty, at once, or when
    the pace allows. *)
Inductive ConsumerRound :=
  | PopFailed
  | QueueEmpty
  | MalformedMember (member : string)
  | Processed (addr : Z).

Definition consumer_round : Run ConsumerRound :=
  popped ← eff_try (zpopmax QUEUE_KEY 1);
  match popped with
  | inr _ => mret PopFailed
  | inl [] => mret QueueEmpty
  | inl ((member, _) :: _) =>
      match parse_addr_member member with
      | None => mret (MalformedMember member)
      | Some addr => _ ← process_address addr; mret (Processed addr)
      end
  end.
End consumer.

(** ** Function signatures *)

Section fourbyte.
Context {W : Type} `{Store W, FourByte W}.

(** One selector of the loop of [run_once]: a failed lookup is left for the next tick. *)
Definition resolve_one (counts : Z * Z) (selector : list Z) : Eff string W (Z * Z) :=
  let '(resolved, unresolved) := counts in
  found ← eff_try (fourbyte_lookup selector);
  match found with
  | inl (Some r) =>
      _ ← ignore (upsert_function_selector (rv_selector r) (Some (rv_primary_name r))
            (Some (rv_primary_sig r)) (rv_all_signatures r) "fourbyte");
      mret (resolved + 1, unresolved)
  | inl None =>
      _ ← ignore (upsert_function_selector selector None None [] "unresolved");
      mret (resolved, unresolved + 1)
  | inr _ => mret (resolved, unresolved)
  end.

Fixpoint resolve_all (selectors : list (list Z)) (counts : Z * Z) : Eff string W (Z * Z) :=
  match selectors with
  | [] => mret counts
  | selector :: selectors => counts ← resolve_one counts selector; resolve_all selectors counts
  end.

(** [run_once], with the counts it logs. *)
Definition run_once (chain_id batch_size : Z) : Eff string W (Z * Z) :=
  selectors ← eff_map_err (String.append "unresolved_selectors query failed: ")
    (unresolved_selectors chain_id batch_size);
  resolve_all selectors (0, 0).
End fourbyte.

(** ** The resolver's refresh *)

Record ResolverRefreshOutcome := mkOutcome { ro_projects : Z; ro_addresses : Z; ro_relabeled : Z }.

Section refresher.
Context {W : Type} `{Externals, Strings, Sources W, Store W}.

Abbreviation Run A := (Eff string (ResolverWorld W) A).

Definition on_store {E A} (m : Eff E W A) : Eff E (ResolverWorld W) A :=
  zoom rw_world (λ w s, mkResolverWorld w (rw_snapshot s)) m.

(** A loop of upserts: how many succeeded. *)
Fixpoint upsert_all {A} (upsert : A → Eff string W unit) (items : list A) (count : Z) : Eff string W Z :=
  match items with
  | [] => mret count
  | item :: items =>
      r ← eff_try (upsert item);
      upsert_all upsert items match r with inl _ => count + 1 | inr _ => count end
  end.

(** [refresh_resolver_with]. The maps are iterated in an order of their own. *)
Definition refresh_resolver_with (overlay_path defillama_url : option string)
  : Run ResolverRefreshOutcome :=
  refreshed ← eff_try (refresh overlay_path defillama_url);
  match refreshed with
  | inr _ => mret (mkOutcome 0 0 0)
  | inl _ =>
      snapshot ← (λ s, (Ok (rw_snapshot s), s) : Res string ResolverSnapshot * ResolverWorld W);
      project_count ← on_store (upsert_all upsert_project (snd <$> map_to_list (rs_projects snapshot)) 0);
      address_count ← on_store (upsert_all
        (λ '((chain_id, addr), info), upsert_address_project chain_id addr (pi_slug info))
        (map_to_list (rs_addresses snapshot)) 0);
      relabeled ← on_store (eff_ok relabel_unknowns);
      mret (mkOutcome project_count address_count (default 0 relabeled))
  end.
End refresher.
