(* ===== verification/LabelerSpec.v ===== *)
(** * What a label attempt leaves behind

    The store is a database with laws: what each statement makes of a contract's row and what it leaves.
    Every attempt changes at most the row of its own contract, maps it only for a name the dictionary
    knows, and records the outcome it had. *)

From S2P Require Import Prelude.
From S2P Require Import Effects.
From S2P Require Import Types.
From S2P Require Import Instances.
From S2P Require Import Trace.
From S2P Require Import Resolver.
From S2P Require Import ResolverSpec.
From S2P Require Import Labeler.

(** ** The database *)

(** What the tables hold of a contract: the result and name last recorded for it, the project it is mapped
    to, and whether a person set that mapping. *)
Record LabelRow := mkRow {
  row_attempt : option (string * option string);
  row_mapping : option string;
  row_by_hand : bool
}.

(** What a statement makes of the row. *)
Definition attempted (outcome : string * option string) (row : LabelRow) : LabelRow :=
  mkRow (Some outcome) (row_mapping row) (row_by_hand row).
Definition mapped (slug : string) (row : LabelRow) : LabelRow :=
  if row_by_hand row then row else mkRow (row_attempt row) (Some slug) false.

(** Only the statements named write the rows, each that of its contract, and one that fails writes
    nothing. A row's key is what the database makes of the chain and the address. *)
Class LabelLaws (W : Type) `{Store W, Explorers W} := {
  Key : Type;
  key_eq_dec :: EqDecision Key;
  key_of : Z → Z → Key;
  row_of : W → Key → LabelRow;
  attempt_written w w' r chain a result name slug :
    upsert_label_attempt chain a result name slug w = (r, w') →
    ∀ key, row_of w' key =
      match r with
      | Ok _ => if decide (key = key_of chain a) then attempted (result, name) (row_of w key) else row_of w key
      | _ => row_of w key
      end;
  mapping_written w w' r chain a slug :
    upsert_address_project chain a slug w = (r, w') →
    ∀ key, row_of w' key =
      match r with
      | Ok _ => if decide (key = key_of chain a) then mapped slug (row_of w key) else row_of w key
      | _ => row_of w key
      end;
  project_quiet p : quiet row_of (upsert_project p);
  relabel_quiet : quiet row_of relabel_unknowns;
  sourcecode_quiet chain a : quiet row_of (get_sourcecode chain a);
  page_quiet a : quiet row_of (get_address_page a)
}.
#[export] Hint Resolve project_quiet relabel_quiet sourcecode_quiet page_quiet : gas.

Section attempts.
Context {W : Type} `{Externals, Strings, Unicode, LabelLaws W}.

Lemma quiet_ok {E F A} (m : Eff E W A) : quiet row_of m → quiet row_of (eff_ok (F := F) m).
Proof. unfold eff_ok. auto with gas. Qed.
Lemma quiet_ignore {E F A} (m : Eff E W A) : quiet row_of m → quiet row_of (ignore (F := F) m).
Proof. unfold ignore. auto with gas. Qed.

Lemma quiet_etherscan chain addr : quiet row_of (etherscan_get_contract_name (W := W) chain addr).
Proof.
  unfold etherscan_get_contract_name. apply quiet_bind; [auto with gas|]. intros v.
  apply quiet_bind; [auto with gas|]. intros [rows|msg]; auto with gas.
Qed.
Lemma quiet_blockscout addr : quiet row_of (blockscout_get_contract_name (W := W) addr).
Proof. unfold blockscout_get_contract_name. auto with gas. Qed.
Hint Resolve quiet_ok quiet_ignore quiet_etherscan quiet_blockscout : gas.

Lemma quiet_fetch chain blockscout addr : quiet row_of (fetch_name (W := W) chain blockscout addr).
Proof.
  apply quiet_bind; [apply quiet_bind|].
  - auto with gas.
  - intros [m|e]; [auto with gas|]. destruct blockscout; auto with gas.
  - intros [[|]|]; [auto with gas| |auto with gas]. destruct blockscout; auto with gas.
Qed.

(** Only the row of [key] may change, to one of [rows]. *)
Definition leaves (key : Key) (rows : list LabelRow) (w w' : W) : Prop :=
  (∀ k, k ≠ key → row_of w' k = row_of w k) ∧ row_of w' key ∈ rows.

Lemma leaves_after key rows w w1 w' :
  (∀ k, row_of w1 k = row_of w k) → leaves key rows w1 w' → leaves key rows w w'.
Proof. intros Heq [Ho Hin]. split; [|done]. intros k Hk. by rewrite Ho, Heq. Qed.

Lemma leaves_more key rows rows' w w' : rows ⊆ rows' → leaves key rows w w' → leaves key rows' w w'.
Proof. intros Hsub [Ho Hin]. split; [done|by apply Hsub]. Qed.

Lemma leaves_same key rows w w' :
  (∀ k, row_of w' k = row_of w k) → row_of w key ∈ rows → leaves key rows w w'.
Proof. intros Heq Hin. split; [auto|by rewrite Heq]. Qed.

Lemma record_attempt_run chain addr result name slug w r w' :
  record_attempt chain addr result name slug w = (r, w') →
  leaves (key_of chain addr) [row_of w (key_of chain addr); attempted (result, name) (row_of w (key_of chain addr))] w w'.
Proof.
  unfold record_attempt, ignore, mbind, eff_bind, eff_try. intros Hrun.
  destruct (upsert_label_attempt chain addr result name slug w) as [r0 w1] eqn:Hup.
  pose proof (attempt_written _ _ _ _ _ _ _ _ Hup) as Hrow.
  assert (w' = w1) as -> by (destruct r0; by injection Hrun as _ <-).
  split; [intros k Hk|]; rewrite Hrow.
  - destruct r0; [by rewrite decide_False|done..].
  - rewrite decide_True by done. destruct r0; set_solver.
Qed.

(** The rows an attempt may leave that maps the contract to [slug]: the mapping and the record of it may
    each fail. *)
Definition match_rows (name slug : string) (row : LabelRow) : list LabelRow :=
  [row; attempted ("error"%string, Some name) row; mapped slug row;
   attempted ("matched"%string, Some name) (mapped slug row)].

Lemma persist_match_run chain addr name slug w r w' :
  persist_match chain addr name slug w = (r, w') →
  leaves (key_of chain addr) (match_rows name slug (row_of w (key_of chain addr))) w w'.
Proof.
  unfold persist_match. intros Hrun. set (key := key_of chain addr).
  apply eff_bind_run in Hrun as [(p & w1 & Hp & Hrun)|(r0 & Hp & _)];
    pose proof (quiet_try _ _ (project_quiet _) _ _ _ Hp) as Hq; [|apply leaves_same; [done|left]].
  rewrite <-(Hq key). apply (leaves_after _ _ _ _ _ Hq). clear Hp.
  destruct p as [[]|e]; [|by eapply leaves_more, record_attempt_run, Hrun; set_solver].
  apply eff_bind_run in Hrun as [(m & w2 & Hm & Hrun)|(r0 & Hm & Hf & _)];
    apply eff_try_run in Hm as (r2 & Hm & Hr2); pose proof (mapping_written _ _ _ _ _ _ Hm) as Hrow.
  2: { destruct r2; [by subst..|]. apply leaves_same; [exact Hrow|left]. }
  destruct m as [[]|e].
  - assert (r2 = Ok tt) as -> by (destruct r2 as [[]| |]; congruence).
    pose proof (Hrow key) as Hkey. rewrite decide_True in Hkey by done.
    assert (∀ rows, leaves key rows w2 w' → leaves key rows w1 w') as Hstep.
    { intros rows [Ho Hin]. split; [|done]. intros k Hk. rewrite Ho, Hrow by done. by rewrite decide_False. }
    apply Hstep. apply eff_bind_run in Hrun as [(u & w3 & Hrel & Hrun)|(r0 & Hrel & _)];
      pose proof (quiet_ignore _ relabel_quiet _ _ _ Hrel) as Hq'.
    + apply (leaves_after _ _ _ _ _ Hq'). eapply leaves_more, record_attempt_run, Hrun.
      fold key. rewrite Hq', Hkey. set_solver.
    + apply leaves_same; [exact Hq'|]. rewrite Hkey. set_solver.
  - assert (r2 = Err e) as -> by (destruct r2; congruence). cbn in Hrow.
    rewrite <-(Hrow key). apply (leaves_after _ _ _ _ _ Hrow).
    eapply leaves_more, record_attempt_run, Hrun. set_solver.
Qed.

(** That an explorer gave [name]. *)
Definition named_by (chain : Z) (blockscout : bool) (addr : Z) (name : string) : Prop :=
  ∃ (v v' : W) proxy implementation,
    etherscan_get_contract_name chain addr v = (Ok (Verified name proxy implementation), v') ∨
    blockscout = true ∧
    blockscout_get_contract_name addr v = (Ok (Verified name proxy implementation), v').

Lemma eff_ok_run {E F A} (m : Eff E W A) a w w' :
  eff_ok (F := F) m w = (Ok (Some a), w') → m w = (Ok a, w').
Proof. unfold eff_ok, mbind, eff_bind, eff_try. destruct (m w) as [[] w1]; by intros [= <- <-]. Qed.

Lemma fetch_meta_named chain blockscout addr name proxy implementation w w' :
  fetch_meta chain blockscout addr w = (Ok (Some (Verified name proxy implementation)), w') →
  named_by chain blockscout addr name.
Proof.
  unfold fetch_meta. intros Hrun.
  apply eff_bind_run in Hrun as [(m & w1 & Hm & Hrun)|(r0 & _ & _ & Hf)]; [|done].
  apply eff_try_run in Hm as (r0 & Hm & Hr). destruct m as [m|e].
  - injection Hrun as -> <-. exists w, w1, proxy, implementation. left. destruct r0; congruence.
  - destruct blockscout; [|discriminate Hrun]. apply eff_ok_run in Hrun.
    exists w1, w', proxy, implementation. by right.
Qed.

Lemma fetch_name_named chain blockscout addr name w w' :
  fetch_name chain blockscout addr w = (Ok (FetchNamed name), w') → named_by chain blockscout addr name.
Proof.
  unfold fetch_name. intros Hrun.
  apply eff_bind_run in Hrun as [(m & w1 & Hm & Hrun)|(r0 & _ & _ & Hf)]; [|done].
  destruct m as [[n proxy implementation|]|]; [| |discriminate Hrun].
  - injection Hrun as -> <-. by eapply fetch_meta_named.
  - apply eff_bind_run in Hrun as [(m & w2 & Hm2 & Hrun)|(r0 & _ & _ & Hf)]; [|done].
    destruct m as [[n proxy implementation|]|]; [|discriminate Hrun..]. injection Hrun as -> <-.
    destruct blockscout; [|discriminate Hm2]. apply eff_ok_run in Hm2.
    exists w1, w2, proxy, implementation. by right.
Qed.

End attempts.

(** The rows an attempt may leave, by what it fetched. *)
Definition attempt_rows `{Unicode} (names : gmap (list Z) string) (fetched : Res string FetchedName)
  (row : LabelRow) : list LabelRow :=
  match fetched with
  | Ok FetchFailed => [row; attempted ("error"%string, None) row]
  | Ok FetchUnverified => [row; attempted ("unverified"%string, None) row]
  | Ok (FetchNamed name) =>
      match lookup_name names name with
      | None => [row; attempted ("no-match"%string, Some name) row]
      | Some slug => match_rows name slug row
      end
  | _ => [row]
  end.

(** C30: An attempt asks the explorers, which changes no row, and then changes only the row of its own contract:
    it records an error where no explorer answered, an unverified contract, a name the dictionary does not
    know, or the match, after mapping the contract to that name's project unless a person mapped it; an
    attempt whose project or mapping cannot be stored is an error. A name is one that an explorer gave. *)
Theorem process_address_spec {W} `{Externals, Strings, Unicode, LabelLaws W} chain_id blockscout names
    addr (w w' : W) r :
  process_address chain_id blockscout names addr w = (r, w') →
  ∃ fetched w1, fetch_name chain_id blockscout addr w = (fetched, w1) ∧
    (∀ name, fetched = Ok (FetchNamed name) → named_by (W := W) chain_id blockscout addr name) ∧
    leaves (key_of chain_id addr) (attempt_rows names fetched (row_of w (key_of chain_id addr))) w w'.
Proof.
  intros Hrun. destruct (fetch_name chain_id blockscout addr w) as [f w1] eqn:Hfetch.
  pose proof (quiet_fetch _ _ _ _ _ _ Hfetch) as Hquiet. exists f, w1. split; [done|].
  split; [intros name ->; by eapply fetch_name_named|].
  rewrite <-Hquiet. apply (leaves_after _ _ _ _ _ Hquiet).
  unfold process_address, mbind, eff_bind in Hrun. rewrite Hfetch in Hrun. unfold attempt_rows.
  destruct f as [[| |name]|e|p];
    [by eapply record_attempt_run|by eapply record_attempt_run| | |].
  2, 3: injection Hrun as _ <-; by apply leaves_same; [|left].
  destruct (lookup_name names name); [by eapply persist_match_run|by eapply record_attempt_run].
Qed.

(** ** A database *)

(** The tables as maps, and the contracts whose mapping a person set. *)
Record Labels := mkLabels {
  db_attempts : gmap (Z * Z) (string * option string);
  db_mappings : gmap (Z * Z) string;
  db_by_hand : gset (Z * Z)
}.

#[export] Instance labels_store : Store Labels := {|
  top_unknown_addresses _ _ _ w := (Ok [], w);
  upsert_label_attempt chain a result name _ w :=
    (Ok tt, mkLabels (<[(chain, a) := (result, name)]> (db_attempts w)) (db_mappings w) (db_by_hand w));
  upsert_project _ w := (Ok tt, w);
  upsert_address_project chain a slug w :=
    (Ok tt, if bool_decide ((chain, a) ∈ db_by_hand w) then w
            else mkLabels (db_attempts w) (<[(chain, a) := slug]> (db_mappings w)) (db_by_hand w));
  relabel_unknowns w := (Ok 0, w);
  unresolved_selectors _ _ w := (Ok [], w);
  upsert_function_selector _ _ _ _ _ w := (Ok tt, w)
|}.

(** Etherscan is down; Blockscout knows a router. *)
#[export] Instance labels_explorers : Explorers Labels := {|
  Value := unit;
  value_as_str _ := None;
  value_rows _ := None;
  get_sourcecode _ _ w := (Err (RHttp "timeout"), w);
  get_address_page _ w := (Ok (mkAddressResp (Some "UniswapV2Router02"%string) None None), w)
|}.

#[export] Instance labels_laws : LabelLaws Labels.
Proof.
  refine {| Key := Z * Z; key_of := pair; row_of w key := mkRow (db_attempts w !! key) (db_mappings w !! key) (bool_decide (key ∈ db_by_hand w)) |}.
  - intros w w' r chain a result name slug [= <- <-] key. cbn. case_decide as Hkey; [subst|].
    + unfold attempted. cbn. by rewrite lookup_insert_eq.
    + by rewrite lookup_insert_ne.
  - intros w w' r chain a slug [= <- <-] key. case_bool_decide as Hhand; case_decide as Hkey; [subst|done|subst|].
    + unfold mapped. cbn. by rewrite bool_decide_eq_true_2.
    + unfold mapped. cbn. by rewrite lookup_insert_eq, bool_decide_eq_false_2.
    + cbn. by rewrite lookup_insert_ne.
  - by intros p w r w' [= _ <-].
  - by intros w r w' [= _ <-].
  - by intros chain a w r w' [= _ <-].
  - by intros a w r w' [= _ <-].
Defined.

(** Etherscan is down, Blockscout names a router, and no other contract changes. *)
Lemma process_address_spec_witness :
  ∃ w', process_address (W := Labels) (H := sample_externals) 1 true
      (load_names [("uniswap-v2", "uniswap")]%string) 0xaa (mkLabels ∅ ∅ ∅) = (Ok tt, w') ∧
    row_of w' (1, 0xaa) = mkRow (Some ("matched", Some "UniswapV2Router02"))%string (Some "uniswap"%string) false ∧
    row_of w' (1, 0xbb) = mkRow None None false.
Proof.
  destruct (process_address (W := Labels) (H := sample_externals) 1 true
    (load_names [("uniswap-v2", "uniswap")]%string) 0xaa (mkLabels ∅ ∅ ∅)) as [r w'] eqn:Hrun.
  pose proof (process_address_spec (W := Labels) (H := sample_externals) _ _ _ _ _ _ _ Hrun)
    as (f & w1 & Hfetch & _ & Hother & _).
  exists w'. split_and!.
  - f_equal. vm_compute in Hrun. by injection Hrun as <- _.
  - vm_compute in Hrun. injection Hrun as _ <-. vm_compute. reflexivity.
  - rewrite Hother by done. vm_compute. reflexivity.
Defined.
