(* ===== verification/Anvil.v ===== *)
(** * The Anvil runner

    [crates/anvil/src/lib.rs]: measuring a program on a local Anvil fork, the decoding of what a failed
    run reverts with, the reports on the transactions of a block and on a single one, and the extractor
    that needs no fork. The fork, its requests and the signature database are operations of classes;
    spawning the process and printing are left out. *)

From Stdlib Require Import SpecFloat Strings.Ascii.
From S2P Require Import Prelude.
From S2P Require Import Types.
From S2P Require Import Encoding.
From S2P Require Import Trace.
From S2P Require Import RateLimit.
From S2P Require Import Estimator.
From S2P Require Import Analyze.

(** ** Data *)

(** The receipt of a mined transaction, with the fields the reports copy. *)
Record TransactionReceipt := mkTransactionReceipt {
  tr_receipt : Receipt;
  tr_transaction_hash : Z;
  tr_block_hash : option Z
}.

Record SignatureGasEstimate := mkSignatureGasEstimate {
  sge_gas_estimate : Z;
  sge_estimated_gas_cost : spec_float;
  sge_gas_savings : Z;
  sge_percent_savings : spec_float
}.

Record ReportDetails := mkReportDetails {
  rd_approx_gas_price_per_unit : spec_float;
  rd_gaskiller_base_gas_estimate : Z;
  rd_bls : SignatureGasEstimate;
  rd_schnorr : SignatureGasEstimate;
  rd_function_selector : list Z;
  rd_skipped_opcodes : string
}.

(** [DateTime<Utc>] is a time in milliseconds. *)
Record GasKillerReport := mkGasKillerReport {
  gkr_time : Z;
  gkr_commit : string;
  gkr_tx_hash : Z;
  gkr_block_hash : Z;
  gkr_block_number : Z;
  gkr_gas_used : Z;
  gkr_gas_cost : Z;
  gkr_approx_gas_unit_price : spec_float;
  gkr_gaskiller_base_gas_estimate : Z;
  gkr_gaskiller_gas_estimate_bls : Z;
  gkr_gaskiller_gas_estimate_schnorr : Z;
  gkr_gaskiller_estimated_gas_cost_bls : spec_float;
  gkr_gaskiller_estimated_gas_cost_schnorr : spec_float;
  gkr_gas_savings_bls : Z;
  gkr_gas_savings_schnorr : Z;
  gkr_percent_savings_bls : spec_float;
  gkr_percent_savings_schnorr : spec_float;
  gkr_function_selector : list Z;
  gkr_skipped_opcodes : string;
  gkr_error_log : option string
}.

Record StateUpdateReport := mkStateUpdateReport {
  sur_tx_hash : Z;
  sur_block_number : Z;
  sur_from : Z;
  sur_to : option Z;
  sur_value : Z;
  sur_gas_used : Z;
  sur_status : bool;
  sur_state_updates : list StateUpdate
}.

(** The error [RevertingContext] of the estimator's interface (types.rs). *)
Record RevertingContext := mkRevertingContext {
  rvc_index : Z;
  rvc_target : Z;
  rvc_revertData : list Z;
  rvc_callargs : list Z
}.

(** [contract::Error]: an error response, with its code and its data, or anything else. *)
Inductive ContractError :=
  | CErrorResp (code : Z) (message : string) (data : option string)
  | COther (message : string).

Inductive ProcessingError :=
  | PInvalidHex            (* "... rpc error contained invalid hex value" *)
  | PInvalidAbi            (* "... rpc error wasn't valid abi encoded" *)
  | PNoSignatures (why : string). (* "... could not access SignaturesIdentifier service ..." *)

(** The [anyhow] errors, as values. *)
Inductive AnvilError :=
  | ANRpc (message : string)
  | ANTransactionFailed                                (* "Transaction failed" *)
  | ANContract (e : ContractError)
  | ANReverted (index target : Z) (function error : string) (* "Simulation subcontext reverted ..." *)
  | ANProcessing (why : ProcessingError) (original : ContractError)
  | ANTrace (e : TraceFailure)
  | ANExtract (e : Error)
  | ANNoReceipt (tx_hash : Z)
  | ANNoTransaction (tx_hash : Z)
  | ANNotFound                                         (* "Transaction not found" *)
  | ANSkipped                                          (* "Skipped: either 1) gas used is ..." *)
  | ANNoTo.                                            (* "receipt does not have to address" *)

(** [TransactionRequest]: the field the code reads, and the request it passes on. *)
Record TransactionRequest := mkTransactionRequest { trq_to : option TxKind; trq_rest : list Z }.

(** ** The fork and the services *)

(** The requests [GasKiller] sends to its Anvil process. *)
Class AnvilFork (W : Type) := {
  fork_block_number : Eff string W Z;
  evm_snapshot : Eff string W Z;
  fork_code_at : Z → Eff string W (list Z);
  anvil_set_code : Z → list Z → Eff string W unit;
  anvil_set_storage_at : Z → Z → Z → Eff string W unit;
  (** [runStateUpdatesCall(types, args).send()] at a contract: the pending transaction. *)
  send_run_state_updates : Z → list Z → list (list Z) → Eff ContractError W Z;
  (** [get_receipt]: the status and the gas used. *)
  fork_receipt : Z → Eff string W (bool * Z);
  evm_revert : Z → Eff string W bool;
  fork_debug_trace : Z → Eff string W (option DefaultFrame)
}.

(** What is not the fork's: the code of the analysed chain, the clock, the build's commit, the order a
    [HashSet] is iterated in, texts, and the transactions simulated on a process of their own. *)
Class AnvilServices (W : Type) := {
  get_code_at : Z → Eff string W (list Z);
  utc_now : W → Z * W;
  GIT_HASH : string;
  hash_set_order : gset string → list string;
  debug_error : AnvilError → string;
  display_address : Z → string;
  (** [send_transaction] and [get_receipt] on a fork at a height: the hash and the status. *)
  simulate_transaction : TransactionRequest → option Z → Eff string W (Z * bool);
  simulated_node : Node W;
  (** [get_transaction_receipt] of the chain's node, with the hash and block hash. *)
  fetch_receipt : Z → Eff string W (option TransactionReceipt)
}.

(** [SignaturesIdentifier] and the ABI items it finds; the generated code of [RevertingContext]. *)
Class Signatures (W : Type) := {
  ErrorItem : Type;
  FunctionItem : Type;
  DynSolValue : Type;
  reverting_selector : list Z;
  abi_decode_reverting_context : list Z → option RevertingContext;
  signatures_identifier_new : Eff string W unit;
  identify_error : list Z → W → option ErrorItem * W;
  identify_function : list Z → W → option FunctionItem * W;
  decode_error : ErrorItem → list Z → option (list DynSolValue);
  abi_decode_input : FunctionItem → list Z → option (list DynSolValue);
  error_signature : ErrorItem → string;
  function_signature : FunctionItem → string;
  debug_value : DynSolValue → string
}.

(** ** Reports *)

Definition impl_slot `{Externals} : Z :=
  (keccak256 (ascii_bytes "gas.estimator.implementation") - 1) mod 2 ^ 256.

(** [Vec<String>::join]. *)
Fixpoint join (sep : string) (parts : list string) : string :=
  match parts with
  | [] => EmptyString
  | [p] => p
  | p :: parts => p +:+ sep +:+ join sep parts
  end.

Definition SignatureGasEstimate_compute (signature_type : SignatureType) (base_estimate gas_used : Z)
  (approx_gas_price_per_unit : spec_float) : SignatureGasEstimate :=
  let '(gas_estimate, gas_savings, percent_savings) := savings signature_type base_estimate gas_used in
  mkSignatureGasEstimate gas_estimate (f64_mul approx_gas_price_per_unit (f64_of_u64 gas_estimate))
    gas_savings percent_savings.

(** [price as f64 / gas_used as f64]. *)
Definition approx_price (receipt : TransactionReceipt) : spec_float :=
  f64_div (f64_of_u64 (rc_effective_gas_price (tr_receipt receipt)))
    (f64_of_u64 (rc_gas_used (tr_receipt receipt))).

Section reports.
Context {W : Type} `{AnvilServices W}.

Definition f64_zero : spec_float := S754_zero false.

Definition report_error (time : Z) (receipt : TransactionReceipt) (function_selector : list Z)
  (e : AnvilError) : Res AnvilError GasKillerReport :=
  block_hash ← expect (tr_block_hash receipt) "couldn't retrieve block hash";
  block_number ← expect (rc_block_number (tr_receipt receipt)) "couldn't retrieve block number";
  Ok (mkGasKillerReport time GIT_HASH (tr_transaction_hash receipt) block_hash block_number
        (rc_gas_used (tr_receipt receipt)) (rc_effective_gas_price (tr_receipt receipt))
        (approx_price receipt) 0 0 0 f64_zero f64_zero 0 0 f64_zero f64_zero function_selector ""
        (Some (debug_error e))).

Definition report_from (time : Z) (receipt : TransactionReceipt) (details : ReportDetails)
  : Res AnvilError GasKillerReport :=
  block_hash ← expect (tr_block_hash receipt) "couldn't retrieve block hash";
  block_number ← expect (rc_block_number (tr_receipt receipt)) "couldn't retrieve block number";
  Ok (mkGasKillerReport time GIT_HASH (tr_transaction_hash receipt) block_hash block_number
        (rc_gas_used (tr_receipt receipt)) (rc_effective_gas_price (tr_receipt receipt))
        (rd_approx_gas_price_per_unit details) (rd_gaskiller_base_gas_estimate details)
        (sge_gas_estimate (rd_bls details)) (sge_gas_estimate (rd_schnorr details))
        (sge_estimated_gas_cost (rd_bls details)) (sge_estimated_gas_cost (rd_schnorr details))
        (sge_gas_savings (rd_bls details)) (sge_gas_savings (rd_schnorr details))
        (sge_percent_savings (rd_bls details)) (sge_percent_savings (rd_schnorr details))
        (rd_function_selector details) (rd_skipped_opcodes details) None).
End reports.

(** ** What a failed run reverted with *)

Section reverts.
Context {W : Type} `{Externals, AnvilServices W, Signatures W}.

Definition format_decoded_values (values : list DynSolValue) : string :=
  join ", " (debug_value <$> values).

(** [bytes.get(0..4)]. *)
Definition first_four (bytes : list Z) : option (list Z) :=
  if (4 <=? length bytes)%nat then Some (take 4 bytes) else None.

Definition identified {I : Type} (identify : list Z → W → option I * W)
  (decode : I → list Z → option (list DynSolValue)) (data : list Z)
  : Eff ProcessingError W (option (I * list DynSolValue)) :=
  item ← (match first_four data with
          | Some selector => eff_total (identify selector)
          | None => mret None
          end);
  mret (i ← item; values ← decode i data; Some (i, values)).

Definition describe {I : Type} (what : string) (signature : I → string) (data : list Z)
  (item : option (I * list DynSolValue)) : string :=
  match item with
  | Some (i, values) => signature i +:+ " with values (" +:+ format_decoded_values values +:+ ")"
  | None => "Unrecognized " +:+ what +:+ ": 0x" +:+ hex_string data
  end.

Definition process_reverting_context_error (data : string)
  : Eff ProcessingError W AnvilError :=
  bytes ← eff_res (ok_or (hex_decode (strip_0x data)) PInvalidHex);
  context ← eff_res (ok_or (abi_decode_reverting_context bytes) PInvalidAbi);
  _ ← eff_map_err PNoSignatures signatures_identifier_new;
  error ← identified identify_error decode_error (rvc_revertData context);
  function ← identified identify_function abi_decode_input (rvc_callargs context);
  mret (ANReverted (rvc_index context) (rvc_target context)
          (describe "function" function_signature (rvc_callargs context) function)
          (describe "error" error_signature (rvc_revertData context) error)).

(** [trim_matches] of quotes: both ends. *)
Fixpoint trim_start_quotes (s : string) : string :=
  match s with
  | String c s' => if Ascii.eqb c quote then trim_start_quotes s' else s
  | EmptyString => s
  end.
Fixpoint trim_end_quotes (s : string) : string :=
  match s with
  | String c s' =>
      match trim_end_quotes s' with
      | EmptyString => if Ascii.eqb c quote then EmptyString else String c EmptyString
      | t => String c t
      end
  | EmptyString => EmptyString
  end.

Definition process_simulation_error (error : ContractError) : Eff AnvilError W AnvilError :=
  match error with
  | CErrorResp code _ (Some data) =>
      if code =? 3 then
        let selector_hex := "0x" +:+ hex_string reverting_selector in
        let data_inner := trim_end_quotes (trim_start_quotes data) in
        if String.prefix selector_hex data_inner then
          processed ← eff_try (process_reverting_context_error data_inner);
          mret match processed with inl e => e | inr why => ANProcessing why error end
        else mret (ANContract error)
      else mret (ANContract error)
  | _ => mret (ANContract error)
  end.
End reverts.

(** ** Measuring a program *)

Section measure.
Context {W : Type} `{Externals, AnvilServices W, AnvilFork W, Signatures W}.
(** The field [code]: the estimator's bytecode. *)
Variable estimator : list Z.

Definition backup_addr : Z := be_to_Z (replicate 20 0xba).

Definition gk_get_tx_trace (tx_hash : Z) : Eff AnvilError W DefaultFrame :=
  trace ← eff_map_err ANRpc (fork_debug_trace tx_hash);
  eff_res (ok_or trace (ANTrace TFNotDefault)).

(** Up to the injection of the proxy: the original code. *)
Definition inject_estimator (contract_address : Z) : Eff string W (list Z) :=
  original_code ← fork_code_at contract_address;
  _ ← anvil_set_code backup_addr original_code;
  _ ← anvil_set_code contract_address estimator;
  _ ← anvil_set_storage_at contract_address impl_slot backup_addr;
  mret original_code.

(** The [runStateUpdatesCall] and its receipt: the gas used. *)
Definition run_program (contract_address : Z) (state_updates : list StateUpdate)
  : Eff AnvilError W Z :=
  let '(types, args) := encode_state_updates_to_sol state_updates in
  tx ← eff_try (send_run_state_updates contract_address (StateUpdateType_as_u8 <$> types) args);
  match tx with
  | inr e => e ← process_simulation_error e; eff_res (Err e)
  | inl tx =>
      '(status, gas_used) ← eff_map_err ANRpc (fork_receipt tx);
      _ ← eff_res (bail_if (negb status) ANTransactionFailed);
      mret gas_used
  end.

Definition estimate_state_changes_gas (contract_address : Z) (state_updates : list StateUpdate)
  : Eff AnvilError W Z :=
  initial_block_number ← eff_map_err ANRpc fork_block_number;
  snapshot_id ← eff_map_err ANRpc evm_snapshot;
  original_code ← eff_map_err ANRpc (inject_estimator contract_address);
  gas_used ← run_program contract_address state_updates;
  _ ← eff_map_err ANRpc (anvil_set_code contract_address original_code);
  reverted ← eff_map_err ANRpc (evm_revert snapshot_id);
  _ ← eff_res (if (reverted : bool) then Ok tt else Panic "assertion failed: reverted");
  final_block_number ← eff_map_err ANRpc fork_block_number;
  _ ← eff_res (if initial_block_number =? final_block_number then Ok tt
               else Panic "block number should revert to initial state");
  mret gas_used.
End measure.

(** ** Reports on transactions *)

Section api.
Context {W : Type} `{Externals, Node W, AnvilServices W, AnvilFork W, Signatures W}.
Variable estimator : list Z.

Definition get_trace_from_call (tx_request : TransactionRequest) (block_height : option Z)
  : Eff AnvilError W DefaultFrame :=
  '(tx_hash, status) ← eff_map_err ANRpc (simulate_transaction tx_request block_height);
  _ ← eff_res (bail_if (negb status) (ANTrace TFFailedTx));
  eff_map_err ANTrace (get_tx_trace (H0 := simulated_node) tx_hash status).

Definition invokes_smart_contract (receipt : TransactionReceipt) : Eff AnvilError W bool :=
  match rc_to (tr_receipt receipt) with
  | None => mret false
  | Some address =>
      code ← eff_map_err ANRpc (get_code_at address);
      mret (negb (bool_decide (code = [])))
  end.

Definition fetch_function_selector (tx_hash : Z) : Eff AnvilError W (list Z) :=
  transaction ← eff_map_err ANRpc (get_transaction_by_hash tx_hash);
  transaction ← eff_res (ok_or transaction (ANNoTransaction tx_hash));
  mret (default [0; 0; 0; 0] (ctx_function_selector transaction)).

Definition gaskiller_reporter (tx_hash : Z) (receipt : TransactionReceipt)
  (function_selector : list Z) : Eff AnvilError W ReportDetails :=
  trace ← eff_map_err ANTrace (get_tx_trace tx_hash (rc_status (tr_receipt receipt)));
  extract ← eff_res (map_err ANExtract (compute_state_updates trace None));
  let skipped_opcodes := join ", " (hash_set_order (te_skipped_opcodes extract)) in
  to ← eff_res (expect (rc_to (tr_receipt receipt)) "called `Option::unwrap()` on a `None` value");
  base_gas_estimate ← estimate_state_changes_gas estimator to (te_state_updates extract);
  let gas_used := rc_gas_used (tr_receipt receipt) in
  let price := approx_price receipt in
  mret (mkReportDetails price base_gas_estimate
          (SignatureGasEstimate_compute Bls base_gas_estimate gas_used price)
          (SignatureGasEstimate_compute Schnorr base_gas_estimate gas_used price)
          function_selector skipped_opcodes).

Definition get_report (tx_hash : Z) (receipt : TransactionReceipt)
  : Eff AnvilError W GasKillerReport :=
  function_selector ← fetch_function_selector tx_hash;
  details ← eff_try (gaskiller_reporter tx_hash receipt function_selector);
  now ← eff_total utc_now;
  eff_res match details with
  | inr e => report_error now receipt function_selector e
  | inl details => report_from now receipt details
  end.

(** The filter of [gas_estimate_block]. *)
Definition qualifies (receipt : TransactionReceipt) : bool :=
  (TURETZKY_UPPER_GAS_LIMIT_SCHNORR <? rc_gas_used (tr_receipt receipt)) &&
  bool_decide (is_Some (rc_to (tr_receipt receipt))).

(** One round of its loop: an error of [get_report] becomes a report of its own. *)
Definition report_receipt (receipt : TransactionReceipt) : Eff AnvilError W GasKillerReport :=
  report ← eff_try (get_report (tr_transaction_hash receipt) receipt);
  match report with
  | inl report => mret report
  | inr e => now ← eff_total utc_now; eff_res (report_error now receipt [0; 0; 0; 0] e)
  end.

Fixpoint report_receipts (receipts : list TransactionReceipt)
  : Eff AnvilError W (list GasKillerReport) :=
  match receipts with
  | [] => mret []
  | receipt :: receipts =>
      report ← report_receipt receipt;
      reports ← report_receipts receipts;
      mret (report :: reports)
  end.

Definition gas_estimate_block (all_receipts : list TransactionReceipt)
  : Eff AnvilError W (list GasKillerReport) :=
  first ← eff_res (expect (head all_receipts) "index out of bounds");
  _ ← eff_res (expect (rc_block_number (tr_receipt first)) "couldn't find block number in receipt");
  report_receipts (List.filter qualifies all_receipts).

Definition gas_estimate_tx (tx_hash : Z) : Eff AnvilError W GasKillerReport :=
  receipt ← eff_map_err ANRpc (fetch_receipt tx_hash);
  receipt ← eff_res (ok_or receipt (ANNoReceipt tx_hash));
  smart_contract_tx ← invokes_smart_contract receipt;
  _ ← eff_res (bail_if
    ((rc_gas_used (tr_receipt receipt) <=? TURETZKY_UPPER_GAS_LIMIT_SCHNORR) ||
     negb smart_contract_tx || bool_decide (rc_to (tr_receipt receipt) = None) ||
     negb (rc_status (tr_receipt receipt))) ANSkipped);
  get_report tx_hash receipt.

Definition call_to_encoded_state_updates_with_gas_estimate (tx_request : TransactionRequest)
  (block_height : option Z) : Eff AnvilError W (list Z * Z * gset string) :=
  contract_address ← eff_res (ok_or
    (kind ← trq_to tx_request; match kind with KCall address => Some address | KCreate => None end)
    ANNoTo);
  trace ← get_trace_from_call tx_request block_height;
  extract ← eff_res (map_err ANExtract (compute_state_updates trace None));
  gas_estimate ← estimate_state_changes_gas estimator contract_address (te_state_updates extract);
  mret (encode_state_updates_to_abi (te_state_updates extract), gas_estimate,
        te_skipped_opcodes extract).

(** ** [TxStateExtractor] *)

Definition extract_state_updates (tx_hash : Z) : Eff AnvilError W (list StateUpdate) :=
  receipt ← eff_map_err ANRpc (get_transaction_receipt tx_hash);
  receipt ← eff_res (ok_or receipt (ANNoReceipt tx_hash));
  trace ← eff_map_err ANTrace (get_tx_trace tx_hash (rc_status receipt));
  extract ← eff_res (map_err ANExtract (compute_state_updates trace None));
  mret (te_state_updates extract).

Definition extract_with_metadata (tx_hash : Z) : Eff AnvilError W StateUpdateReport :=
  receipt ← eff_map_err ANRpc (get_transaction_receipt tx_hash);
  receipt ← eff_res (ok_or receipt ANNotFound);
  tx ← eff_map_err ANRpc (get_transaction_by_hash tx_hash);
  tx ← eff_res (ok_or tx ANNotFound);
  _ ← eff_res (bail_if (negb (rc_status receipt)) ANTransactionFailed);
  trace ← eff_map_err ANTrace (get_tx_trace tx_hash (rc_status receipt));
  extract ← eff_res (map_err ANExtract (compute_state_updates trace None));
  mret (mkStateUpdateReport tx_hash (default 0 (rc_block_number receipt)) (rc_from receipt)
          (ctx_to tx) (ctx_value tx) (rc_gas_used receipt) (rc_status receipt)
          (te_state_updates extract)).
End api.
