(* ===== verification/AnvilSpec.v ===== *)
(** * Properties of the Anvil runner

    What Anvil documents of its requests ([ForkLaws]), and what follows for [crates/anvil/src/lib.rs]: a
    measurement runs the program against the injected estimator and leaves the fork as it found it; a
    failed one leaves the estimator in place, and the next measurement of that contract takes it for the
    original code; the reports on a block are one per qualifying receipt, in order. *)

From Stdlib Require Import SpecFloat.
From S2P Require Import Prelude.
From S2P Require Import Types.
From S2P Require Import Instances.
From S2P Require Import Encoding.
From S2P Require Import Trace.
From S2P Require Import Effects.
From S2P Require Import Analyze.
From S2P Require Import Anvil.

(** ** What is relied on *)

(** The state of the fork, the states its snapshots hold, and what each request does to them. *)
Class ForkLaws (W : Type) `{AnvilFork W, Signatures W} := {
  Fork : Type;
  fork_of : W → Fork;
  snapshots : W → Z → option Fork;
  fork_code : Fork → Z → list Z;
  fork_slot : Fork → Z → Z → Z;
  fork_block : Fork → Z;
  same_fork (w w' : W) : Prop := fork_of w' = fork_of w ∧ ∀ id, snapshots w' id = snapshots w id;
  block_number_law w r w' :
    fork_block_number w = (r, w') →
    same_fork w w' ∧ res_sat (λ n, n = fork_block (fork_of w)) (λ _, True) r;
  code_at_law a w r w' :
    fork_code_at a w = (r, w') →
    same_fork w w' ∧ res_sat (λ c, c = fork_code (fork_of w) a) (λ _, True) r;
  receipt_law tx w r w' : fork_receipt tx w = (r, w') → same_fork w w';
  snapshot_law w r w' :
    evm_snapshot w = (r, w') →
    fork_of w' = fork_of w ∧ res_sat (λ id, snapshots w' id = Some (fork_of w)) (λ _, True) r;
  set_code_law a c w u w' :
    anvil_set_code a c w = (Ok u, w') →
    (∀ id, snapshots w' id = snapshots w id) ∧
    (∀ x, fork_code (fork_of w') x = if x =? a then c else fork_code (fork_of w) x) ∧
    (∀ x k, fork_slot (fork_of w') x k = fork_slot (fork_of w) x k);
  set_storage_law a k v w u w' :
    anvil_set_storage_at a k v w = (Ok u, w') →
    (∀ id, snapshots w' id = snapshots w id) ∧
    (∀ x, fork_code (fork_of w') x = fork_code (fork_of w) x) ∧
    (∀ x j, fork_slot (fork_of w') x j =
      if (x =? a) && (j =? k) then v else fork_slot (fork_of w) x j);
  (** Sending a call leaves snapshots, and the code of the contract called, as they are. *)
  send_law a types args w r w' :
    send_run_state_updates a types args w = (r, w') →
    (∀ id, snapshots w' id = snapshots w id) ∧
    fork_code (fork_of w') a = fork_code (fork_of w) a;
  revert_law id w w' : evm_revert id w = (Ok true, w') → snapshots w id = Some (fork_of w');
  (** The signature database is no part of the fork. *)
  new_law w r w' : signatures_identifier_new w = (r, w') → same_fork w w';
  identify_error_law s w : same_fork w (identify_error s w).2;
  identify_function_law s w : same_fork w (identify_function s w).2
}.

Section fork.
Context {W : Type} `{Externals, Node W, AnvilServices W, AnvilFork W, Signatures W, !ForkLaws W}.
Variable estimator : list Z.

(** ** Specification *)

(** The proxy stands at the contract, with the original code behind it. *)
Definition prepared (contract_address : Z) (original : list Z) (w : W) : Prop :=
  fork_code (fork_of w) contract_address = estimator ∧
  (contract_address ≠ backup_addr → fork_code (fork_of w) backup_addr = original) ∧
  fork_slot (fork_of w) contract_address impl_slot = backup_addr.

(** The errors of a run that was sent: a revert, or a failed receipt. *)
Definition simulation_failure (e : AnvilError) : Prop :=
  match e with
  | ANContract _ | ANReverted _ _ _ _ | ANProcessing _ _ | ANTransactionFailed => True
  | _ => False
  end.

(** A report of a receipt: its own figures, with an error, or with the estimate of each scheme. *)
Definition reports_on (receipt : TransactionReceipt) (report : GasKillerReport) : Prop :=
  gkr_tx_hash report = tr_transaction_hash receipt ∧
  tr_block_hash receipt = Some (gkr_block_hash report) ∧
  rc_block_number (tr_receipt receipt) = Some (gkr_block_number report) ∧
  gkr_gas_used report = rc_gas_used (tr_receipt receipt) ∧
  gkr_gas_cost report = rc_effective_gas_price (tr_receipt receipt) ∧
  match gkr_error_log report with
  | Some _ => gkr_gaskiller_base_gas_estimate report = 0 ∧
      gkr_gas_savings_bls report = 0 ∧ gkr_gas_savings_schnorr report = 0
  | None =>
      let base := gkr_gaskiller_base_gas_estimate report in
      let gas_used := rc_gas_used (tr_receipt receipt) in
      gkr_gaskiller_gas_estimate_bls report = total_gas_estimate Bls base ∧
      gkr_gaskiller_gas_estimate_schnorr report = total_gas_estimate Schnorr base ∧
      gkr_gas_savings_bls report = sat_sub gas_used (total_gas_estimate Bls base) ∧
      gkr_gas_savings_schnorr report = sat_sub gas_used (total_gas_estimate Schnorr base)
  end.

(** ** Lemmas *)

Lemma same_fork_refl w : same_fork w w.
Proof. by split. Qed.
Lemma same_fork_trans w1 w2 w3 : same_fork w1 w2 → same_fork w2 w3 → same_fork w1 w3.
Proof. intros [Hf1 Hs1] [Hf2 Hs2]. split; [congruence|]. intros id. by rewrite Hs2. Qed.

(** An operation that leaves the fork alone. *)
Definition keeps_fork {E A} (m : Eff E W A) : Prop := ∀ w r w', m w = (r, w') → same_fork w w'.

Lemma keeps_ret {E A} (a : A) : keeps_fork (mret a : Eff E W A).
Proof. intros w r w' [= <- <-]. apply same_fork_refl. Qed.
Lemma keeps_res {E A} (r : Res E A) : keeps_fork (eff_res r : Eff E W A).
Proof. intros w r' w' [= <- <-]. apply same_fork_refl. Qed.
Lemma keeps_total {E A} (m : W → A * W) : (∀ w, same_fork w (m w).2) → keeps_fork (eff_total (E := E) m).
Proof.
  intros Hm w r w' Hrun. unfold eff_total in Hrun. specialize (Hm w). destruct (m w).
  by injection Hrun as <- <-.
Qed.
Lemma keeps_bind {E A B} (m : Eff E W A) (f : A → Eff E W B) :
  keeps_fork m → (∀ a, keeps_fork (f a)) → keeps_fork (m ≫= f).
Proof.
  intros Hm Hf w r w' Hrun. apply eff_bind_run in Hrun as [(a & w1 & Hm1 & Hrun)|(r0 & Hrun & _)].
  - eapply same_fork_trans; [by eapply Hm|by eapply Hf].
  - by eapply Hm.
Qed.
Lemma keeps_map_err {E F A} (g : E → F) (m : Eff E W A) : keeps_fork m → keeps_fork (eff_map_err g m).
Proof. intros Hm w r w' Hrun. apply eff_map_err_run in Hrun as (r0 & Hrun & _). by eapply Hm. Qed.
Lemma keeps_try {E F A} (m : Eff E W A) : keeps_fork m → keeps_fork (eff_try (F := F) m).
Proof. intros Hm w r w' Hrun. apply eff_try_run in Hrun as (r0 & Hrun & _). by eapply Hm. Qed.

Lemma identified_keeps {I} (identify : list Z → W → option I * W) decode data :
  (∀ s w, same_fork w (identify s w).2) → keeps_fork (identified identify decode data).
Proof.
  intros Hi. apply keeps_bind; [|intros item; apply keeps_ret].
  destruct (first_four data); [by apply keeps_total|apply keeps_ret].
Qed.

Lemma process_simulation_error_keeps error : keeps_fork (process_simulation_error error).
Proof.
  unfold process_simulation_error. repeat case_match; try apply keeps_ret.
  apply keeps_bind; [apply keeps_try|intros; apply keeps_ret].
  apply keeps_bind; [apply keeps_res|intros bytes]. apply keeps_bind; [apply keeps_res|intros context].
  apply keeps_bind; [apply keeps_map_err; exact new_law|intros _].
  apply keeps_bind; [apply identified_keeps, identify_error_law|intros ?].
  apply keeps_bind; [apply identified_keeps, identify_function_law|intros ?]. apply keeps_ret.
Qed.

(** What it makes of an error is a simulation's failure. *)
Lemma process_simulation_error_failure error w r w' :
  process_simulation_error error w = (r, w') → res_sat simulation_failure (λ _, False) r.
Proof.
  unfold process_simulation_error. repeat case_match; try by intros [= <- <-].
  unfold mbind at 1, eff_bind at 1, eff_try.
  destruct (process_reverting_context_error _ w) as [[a|e|p] w1] eqn:Hp; intros [= <- <-]; [|done..].
  unfold process_reverting_context_error in Hp. inv_eff. by injection Hp as <- <-.
Qed.

Lemma inject_estimator_prepares contract_address original w w' :
  inject_estimator estimator contract_address w = (Ok original, w') →
  original = fork_code (fork_of w) contract_address ∧ prepared contract_address original w' ∧
  ∀ id, snapshots w' id = snapshots w id.
Proof.
  unfold inject_estimator. intros Hrun.
  apply eff_bind_Ok in Hrun as (c & w1 & Hget & Hrun).
  apply eff_bind_Ok in Hrun as (u1 & w2 & Hbackup & Hrun).
  apply eff_bind_Ok in Hrun as (u2 & w3 & Hproxy & Hrun).
  apply eff_bind_Ok in Hrun as (u3 & w4 & Hslot & [= <- <-]).
  apply code_at_law in Hget as [[Hf0 Hs0] Hc]. cbn in Hc.
  apply set_code_law in Hbackup as (Hs1 & Hc1 & _). apply set_code_law in Hproxy as (Hs2 & Hc2 & _).
  apply set_storage_law in Hslot as (Hs3 & Hc3 & Hk).
  split; [done|]. split; [|intros id; by rewrite Hs3, Hs2, Hs1, Hs0]. split_and!.
  - by rewrite Hc3, Hc2, Z.eqb_refl.
  - intros Hne. rewrite Hc3, Hc2, (proj2 (Z.eqb_neq _ _)) by congruence. by rewrite Hc1, Z.eqb_refl.
  - by rewrite Hk, !Z.eqb_refl.
Qed.

(** A run that answered, or failed as simulations do. *)
Lemma run_program_Ok contract_address us gas w w' :
  run_program contract_address us w = (Ok gas, w') →
  ∃ tx w1,
    send_run_state_updates contract_address (StateUpdateType_as_u8 <$> (update_type <$> us))
      (datas_of us) w = (Ok tx, w1) ∧
    fork_receipt tx w1 = (Ok (true, gas), w') ∧ ∀ id, snapshots w' id = snapshots w id.
Proof.
  unfold run_program, encode_state_updates_to_sol. intros Hrun.
  apply eff_bind_Ok in Hrun as (tx & w1 & Htx & Hrun). apply eff_try_Ok in Htx.
  destruct tx as [tx|e].
  - inv_eff. destruct x as [status g]. inv_eff. injection Hrun as -> ->.
    match goal with H : negb status = false |- _ => apply negb_false_iff in H; subst end.
    match goal with H : fork_receipt _ _ = _ |- _ => pose proof (receipt_law _ _ _ _ H) as [_ Hs]; exists tx, w1 end.
    split; [done|]. split; [done|]. intros id. rewrite Hs. by apply (send_law _ _ _ _ _ _ Htx).
  - inv_eff. done.
Qed.

Lemma run_program_Err contract_address us e w w' :
  run_program contract_address us w = (Err e, w') → simulation_failure e →
  fork_code (fork_of w') contract_address = fork_code (fork_of w) contract_address.
Proof.
  unfold run_program, encode_state_updates_to_sol. intros Hrun Hf.
  apply eff_bind_Err in Hrun as [Hrun|(tx & w1 & Htx & Hrun)].
  { unfold eff_try in Hrun. destruct (send_run_state_updates _ _ _ w) as [[] ?]; done. }
  apply eff_try_Ok in Htx. apply send_law in Htx as [_ <-]. destruct tx as [tx|error].
  - apply eff_bind_Err in Hrun as [Hrun|([status g] & w2 & Hrec & Hrun)].
    + apply eff_map_err_Err in Hrun as [e' ->]. done.
    + apply eff_map_err_Ok in Hrec. apply receipt_law in Hrec as [<- _].
      apply eff_bind_Err in Hrun as [[= _ <-]|(u & w3 & _ & Hrun)]; [done|discriminate Hrun].
  - apply eff_bind_Err in Hrun as [Hrun|(e' & w2 & Hp & [= _ <-])].
    + by apply process_simulation_error_keeps in Hrun as [<- _].
    + by apply process_simulation_error_keeps in Hp as [<- _].
Qed.

(** The two kinds of report. *)
Lemma report_error_reports time receipt selector e report :
  report_error time receipt selector e = Ok report → reports_on receipt report.
Proof.
  unfold report_error, expect. destruct (tr_block_hash receipt) eqn:Hh; [|done].
  destruct (rc_block_number _) eqn:Hn; [|done]. intros [= <-]. unfold reports_on; cbn. by split_and!.
Qed.

(** The details a successful analysis leaves. *)
Definition details_of (receipt : TransactionReceipt) (details : ReportDetails) : Prop :=
  let base := rd_gaskiller_base_gas_estimate details in
  let gas_used := rc_gas_used (tr_receipt receipt) in
  rd_bls details = SignatureGasEstimate_compute Bls base gas_used (approx_price receipt) ∧
  rd_schnorr details = SignatureGasEstimate_compute Schnorr base gas_used (approx_price receipt).

Lemma report_from_reports time receipt details report :
  details_of receipt details → report_from time receipt details = Ok report →
  reports_on receipt report.
Proof.
  intros [Hb Hs]. unfold report_from, expect. destruct (tr_block_hash receipt) eqn:Hh; [|done].
  destruct (rc_block_number _) eqn:Hn; [|done]. intros [= <-]. unfold reports_on; cbn.
  rewrite Hb, Hs. by split_and!.
Qed.

Lemma gaskiller_reporter_details tx_hash receipt selector details w w' :
  gaskiller_reporter estimator tx_hash receipt selector w = (Ok details, w') →
  details_of receipt details.
Proof. unfold gaskiller_reporter. intros Hrun. inv_eff. by injection Hrun as <- <-. Qed.

Lemma get_report_reports tx_hash receipt report w w' :
  get_report estimator tx_hash receipt w = (Ok report, w') → reports_on receipt report.
Proof.
  unfold get_report. intros Hrun. apply eff_bind_Ok in Hrun as (selector & w1 & _ & Hrun).
  apply eff_bind_Ok in Hrun as (details & w2 & Hd & Hrun). apply eff_try_Ok in Hd.
  apply eff_bind_Ok in Hrun as (now & w3 & _ & Hrun). apply eff_res_Ok in Hrun as [Hrun _].
  destruct details as [details|e]; [|by eapply report_error_reports].
  eapply report_from_reports; [|exact Hrun]. by eapply gaskiller_reporter_details.
Qed.

Lemma report_receipt_reports receipt w r w' :
  report_receipt estimator receipt w = (r, w') → res_sat (reports_on receipt) (λ _, False) r.
Proof.
  unfold report_receipt. unfold mbind at 1, eff_bind at 1, eff_try.
  destruct (get_report _ _ _ w) as [[report|e|p] w1] eqn:Hr.
  - intros [= <- <-]. by eapply get_report_reports.
  - unfold mbind, eff_bind, eff_total. destruct (utc_now w1) as [now w2]. intros [= <- <-].
    destruct (report_error now receipt [0; 0; 0; 0] e) eqn:He; cbn; [by eapply report_error_reports| |done].
    unfold report_error, expect in He. repeat case_match; done.
  - by intros [= <- <-].
Qed.

Lemma report_receipts_reports receipts w r w' :
  report_receipts estimator receipts w = (r, w') →
  res_sat (Forall2 reports_on receipts) (λ _, False) r.
Proof.
  revert w r w'. induction receipts as [|receipt receipts IH]; intros w r w'; cbn [report_receipts].
  { intros [= <- <-]. constructor. }
  unfold mbind at 1, eff_bind at 1.
  destruct (report_receipt estimator receipt w) as [[report|e|p] w1] eqn:Hr;
    apply report_receipt_reports in Hr; cbn in Hr; [|done|by intros [= <- <-]].
  unfold mbind, eff_bind.
  destruct (report_receipts estimator receipts w1) as [[reports|e|p] w2] eqn:Hrs;
    apply IH in Hrs; cbn in Hrs; [|done|by intros [= <- <-]].
  intros [= <- <-]. by constructor.
Qed.

(** ** Properties *)

(** C31: a measurement runs the encoded program against the estimator, standing at the contract with the
    contract's own code behind it at the backup address and the backup address in its slot; the gas is
    that of the run's successful receipt; and the fork is left exactly as it was found. *)
Theorem estimate_state_changes_gas_restores contract_address us gas w w' :
  estimate_state_changes_gas estimator contract_address us w = (Ok gas, w') →
  fork_of w' = fork_of w ∧
  ∃ w1 tx w2 w3,
    prepared contract_address (fork_code (fork_of w) contract_address) w1 ∧
    send_run_state_updates contract_address (StateUpdateType_as_u8 <$> (update_type <$> us))
      (datas_of us) w1 = (Ok tx, w2) ∧
    fork_receipt tx w2 = (Ok (true, gas), w3).
Proof.
  unfold estimate_state_changes_gas. intros Hrun.
  apply eff_bind_Ok in Hrun as (n & w1 & Hn & Hrun). apply eff_map_err_Ok, block_number_law in Hn as [[Hf1 _] _].
  apply eff_bind_Ok in Hrun as (id & w2 & Hid & Hrun).
  apply eff_map_err_Ok, snapshot_law in Hid as [Hf2 Hsnap]. cbn in Hsnap.
  apply eff_bind_Ok in Hrun as (code & w3 & Hinject & Hrun). apply eff_map_err_Ok in Hinject.
  apply inject_estimator_prepares in Hinject as (Hcode & Hprep & Hs3).
  apply eff_bind_Ok in Hrun as (g & w4 & Hg & Hrun).
  apply run_program_Ok in Hg as (tx & w5 & Hsend & Hrec & Hs4).
  apply eff_bind_Ok in Hrun as (u1 & w6 & Hset & Hrun).
  apply eff_map_err_Ok, set_code_law in Hset as (Hs6 & _).
  apply eff_bind_Ok in Hrun as (reverted & w7 & Hrev & Hrun). apply eff_map_err_Ok in Hrev.
  apply eff_bind_Ok in Hrun as (u2 & w8 & Hass & Hrun). apply eff_res_Ok in Hass as [Hass ->].
  destruct reverted; [|done]. apply revert_law in Hrev.
  apply eff_bind_Ok in Hrun as (m & w9 & Hm & Hrun). apply eff_map_err_Ok, block_number_law in Hm as [[Hf9 _] _].
  apply eff_bind_Ok in Hrun as (u3 & w10 & Hend & [= -> ->]). apply eff_res_Ok in Hend as [_ ->].
  split; [|exists w3, tx, w5, w4; rewrite <-Hf1, <-Hf2, <-Hcode; done].
  rewrite Hf9. rewrite Hs6, Hs4, Hs3, Hsnap in Hrev. congruence.
Qed.

(** a run that reverts, or whose receipt failed, returns early: the estimator stays where the
    contract's code was, and the next measurement of the contract on the same fork takes the estimator
    for the original code, and puts it behind the proxy. *)
Theorem simulation_failure_leaks contract_address us e w w' :
  estimate_state_changes_gas estimator contract_address us w = (Err e, w') → simulation_failure e →
  fork_code (fork_of w') contract_address = estimator ∧
  ∀ original w1, contract_address ≠ backup_addr →
    inject_estimator estimator contract_address w' = (Ok original, w1) →
    original = estimator ∧ fork_code (fork_of w1) backup_addr = estimator.
Proof.
  intros Hrun Hfail.
  assert (Hleak : fork_code (fork_of w') contract_address = estimator).
  { unfold estimate_state_changes_gas in Hrun.
    apply eff_bind_Err in Hrun as [[e' ->]%eff_map_err_Err|(n & w1 & Hn & Hrun)]; [done|].
    apply eff_bind_Err in Hrun as [[e' ->]%eff_map_err_Err|(id & w2 & Hid & Hrun)]; [done|].
    apply eff_bind_Err in Hrun as [[e' ->]%eff_map_err_Err|(code & w3 & Hinject & Hrun)]; [done|].
    apply eff_map_err_Ok, inject_estimator_prepares in Hinject as (_ & (Hproxy & _) & _).
    apply eff_bind_Err in Hrun as [Hrun|(g & w4 & Hg & Hrun)].
    { apply run_program_Err in Hrun; [|done]. congruence. }
    exfalso.
    apply eff_bind_Err in Hrun as [[e' ->]%eff_map_err_Err|(u1 & w5 & _ & Hrun)]; [done|].
    apply eff_bind_Err in Hrun as [[e' ->]%eff_map_err_Err|(reverted & w6 & _ & Hrun)]; [done|].
    apply eff_bind_Err in Hrun as [Hrun|(u2 & w7 & _ & Hrun)]; [by destruct reverted|].
    apply eff_bind_Err in Hrun as [[e' ->]%eff_map_err_Err|(m & w8 & _ & Hrun)]; [done|].
    apply eff_bind_Err in Hrun as [Hrun|(u3 & w9 & _ & Hrun)]; [|done].
    unfold eff_res in Hrun. by destruct (n =? m). }
  split; [exact Hleak|]. intros original w1 Hne Hinject.
  apply inject_estimator_prepares in Hinject as (-> & (_ & Hback & _) & _).
  rewrite <-Hleak at 2. split; [done|by apply Hback].
Qed.

(** [gas_estimate_block] reports, in order, on exactly the receipts of the block that used more than
    the smallest signature floor and called an address, each with its own hash, block, gas and price,
    and either an error and no savings, or the base estimate with each scheme's floor added and what
    that leaves of the gas used; no error of one transaction ends the block. *)
Theorem gas_estimate_block_reports receipts w r w' :
  gas_estimate_block estimator receipts w = (r, w') →
  match r with
  | Ok reports => Forall2 reports_on (List.filter qualifies receipts) reports
  | Err _ => False
  | Panic _ => True
  end.
Proof.
  unfold gas_estimate_block, mbind, eff_bind, eff_res.
  destruct (head receipts) as [first|]; cbn; [|by intros [= <- <-]].
  destruct (rc_block_number (tr_receipt first)); cbn; [|by intros [= <- <-]].
  intros Hrun. by apply report_receipts_reports in Hrun.
Qed.

(** [gas_estimate_tx] skips what could show no savings. *)
Lemma gas_estimate_tx_qualifies tx_hash report w w' :
  gas_estimate_tx estimator tx_hash w = (Ok report, w') →
  ∃ receipt w1, fetch_receipt tx_hash w = (Ok (Some receipt), w1) ∧ qualifies receipt = true ∧
    rc_status (tr_receipt receipt) = true ∧ reports_on receipt report.
Proof.
  unfold gas_estimate_tx. intros Hrun. inv_eff. subst.
  match goal with H : (_ || _) = false |- _ =>
    rewrite !orb_false_iff, !negb_false_iff in H; destruct H as [[[Hg Hc] Ht] Hs] end.
  match goal with H : fetch_receipt _ _ = (Ok (Some ?rc), ?w) |- _ =>
    exists rc, w; split; [exact H|]; rename rc into receipt end.
  split_and!; [|exact Hs|by eapply get_report_reports].
  unfold qualifies. apply andb_true_iff; split; [apply Z.ltb_lt; apply Z.leb_gt in Hg; lia|].
  apply bool_decide_eq_false in Ht. apply bool_decide_eq_true.
  destruct (rc_to (tr_receipt receipt)); [by eexists|done].
Qed.
End fork.

(** ** Witnesses *)

(** A fork as its code, its slots and its block number; the world holds its snapshots. *)
Record SampleFork := mkSampleFork {
  sf_code : gmap Z (list Z);
  sf_slots : gmap (Z * Z) Z;
  sf_block : Z
}.
Record SampleWorld := mkSampleWorld { sw_fork : SampleFork; sw_snapshots : gmap Z SampleFork; sw_next : Z }.

Definition with_fork (f : SampleFork) (w : SampleWorld) : SampleWorld :=
  mkSampleWorld f (sw_snapshots w) (sw_next w).

#[local] Instance sample_fork : AnvilFork SampleWorld := {|
  fork_block_number w := (Ok (sf_block (sw_fork w)), w);
  evm_snapshot w :=
    (Ok (sw_next w),
     mkSampleWorld (sw_fork w) (<[sw_next w := sw_fork w]> (sw_snapshots w)) (sw_next w + 1));
  fork_code_at a w := (Ok (default [] (sf_code (sw_fork w) !! a)), w);
  anvil_set_code a c w :=
    (Ok tt, with_fork (mkSampleFork (<[a := c]> (sf_code (sw_fork w))) (sf_slots (sw_fork w))
      (sf_block (sw_fork w))) w);
  anvil_set_storage_at a k v w :=
    (Ok tt, with_fork (mkSampleFork (sf_code (sw_fork w)) (<[(a, k) := v]> (sf_slots (sw_fork w)))
      (sf_block (sw_fork w))) w);
  (** A program that calls reverts; any other is mined. *)
  send_run_state_updates _ types _ w :=
    if bool_decide (1 ∈ types) then (Err (COther "execution reverted"), w)
    else (Ok 9, with_fork (mkSampleFork (sf_code (sw_fork w)) (sf_slots (sw_fork w))
      (sf_block (sw_fork w) + 1)) w);
  fork_receipt _ w := (Ok (true, 30000), w);
  evm_revert id w :=
    match sw_snapshots w !! id with
    | Some f => (Ok true, with_fork f w)
    | None => (Ok false, w)
    end;
  fork_debug_trace _ w := (Ok None, w)
|}.

#[local] Instance sample_signatures : Signatures SampleWorld := {|
  ErrorItem := unit; FunctionItem := unit; DynSolValue := unit;
  reverting_selector := [1; 2; 3; 4];
  abi_decode_reverting_context _ := None;
  signatures_identifier_new w := (Ok tt, w);
  identify_error _ w := (None, w);
  identify_function _ w := (None, w);
  decode_error _ _ := None;
  abi_decode_input _ _ := None;
  error_signature _ := "";
  function_signature _ := "";
  debug_value _ := ""
|}.

#[local] Instance sample_chain : Node SampleWorld := {|
  get_block_number w := (Ok 100, w);
  get_transaction_receipt _ w := (Ok None, w);
  get_block_by_number _ w := (Ok None, w);
  get_transaction_by_hash h w :=
    (Ok (Some (mkChainTx h 1 (Some 77) [] 0 0 0 (λ _, 0) None None None)), w);
  debug_trace_transaction _ w :=
    (Ok (Some (mkDefaultFrame false 0 []
      [mkStructLog 1 "SSTORE" 100 5 (Some [7; 1]) (Some []) None None])), w);
  lower s := s;
  failure_text _ := "failed"
|}.

#[local] Instance sample_services : AnvilServices SampleWorld := {|
  get_code_at _ w := (Ok [1], w);
  utc_now w := (1700, w);
  GIT_HASH := "abc";
  hash_set_order s := elements s;
  debug_error _ := "error";
  display_address _ := "";
  simulate_transaction _ _ w := (Err "no process", w);
  simulated_node := sample_chain;
  fetch_receipt _ w := (Ok None, w)
|}.

#[local] Instance sample_fork_laws : ForkLaws SampleWorld.
Proof.
  refine {|
    Fork := SampleFork; fork_of := sw_fork; snapshots w id := sw_snapshots w !! id;
    fork_code f a := default [] (sf_code f !! a);
    fork_slot f a k := default 0 (sf_slots f !! (a, k));
    fork_block := sf_block |}.
  - by intros w r w' [= <- <-].
  - by intros a w r w' [= <- <-].
  - by intros tx w r w' [= <- <-].
  - intros w r w' [= <- <-]. split; [done|]. cbn. apply lookup_insert_eq.
  - intros a c w u w' [= _ <-]. split; [done|]. split; [|done]. intros x. cbn.
    destruct (Z.eqb_spec x a) as [->|Hne]; [by rewrite lookup_insert_eq|by rewrite lookup_insert_ne].
  - intros a k v w u w' [= _ <-]. split; [done|]. split; [done|]. intros x j. cbn.
    destruct (Z.eqb_spec x a) as [->|Hx]; [destruct (Z.eqb_spec j k) as [->|Hj]|]; cbn;
      [by rewrite lookup_insert_eq|rewrite lookup_insert_ne; congruence..].
  - intros a types args w r w'. cbn. case_bool_decide; by intros [= <- <-].
  - intros id w w'. cbn. destruct (sw_snapshots w !! id) eqn:Hid; [|done]. by intros [= <-].
  - by intros w r w' [= <- <-].
  - by intros s w.
  - by intros s w.
Defined.

Definition sample_world : SampleWorld := mkSampleWorld (mkSampleFork {[77 := [1; 2]]} ∅ 50) ∅ 0.

Lemma estimate_state_changes_gas_restores_witness :
  ∃ w', estimate_state_changes_gas [5; 5] 77 [UStore (mkStore 1 2)] sample_world = (Ok 30000, w') ∧
    fork_of w' = fork_of sample_world.
Proof.
  destruct (estimate_state_changes_gas [5; 5] 77 [UStore (mkStore 1 2)] sample_world)
    as [[gas|e|p] w'] eqn:Hrun; [|exfalso; revert Hrun; by vm_compute..].
  assert (gas = 30000) as -> by (revert Hrun; vm_compute; by intros [= <- _]).
  exists w'. split; [reflexivity|].
  exact (proj1 (estimate_state_changes_gas_restores [5; 5] 77 [UStore (mkStore 1 2)] 30000
    sample_world w' Hrun)).
Defined.

Lemma simulation_failure_leaks_witness :
  ∃ e w', estimate_state_changes_gas [5; 5] 77 [UCall (mkCall 1 2 [])] sample_world = (Err e, w') ∧
    fork_code (fork_of sample_world) 77 = [1; 2] ∧ fork_code (fork_of w') 77 = [5; 5].
Proof.
  destruct (estimate_state_changes_gas [5; 5] 77 [UCall (mkCall 1 2 [])] sample_world)
    as [[gas|e|p] w'] eqn:Hrun; [exfalso; revert Hrun; by vm_compute| |exfalso; revert Hrun; by vm_compute].
  exists e, w'. split; [reflexivity|]. split; [reflexivity|].
  refine (proj1 (simulation_failure_leaks [5; 5] 77 [UCall (mkCall 1 2 [])] e sample_world w' Hrun _)).
  revert Hrun. vm_compute. by intros [= <- _].
Defined.

Definition sample_block_receipt (h gas : Z) : TransactionReceipt :=
  mkTransactionReceipt (mkReceipt true (Some 77) 10 gas (Some 100) (Some 3) 2) h (Some 5).

Lemma gas_estimate_block_reports_witness :
  ∃ reports w', gas_estimate_block [5; 5] [sample_block_receipt 1 400000; sample_block_receipt 2 20000]
      sample_world = (Ok reports, w') ∧
    length reports = 1%nat ∧ Forall2 reports_on [sample_block_receipt 1 400000] reports.
Proof.
  destruct (gas_estimate_block [5; 5] [sample_block_receipt 1 400000; sample_block_receipt 2 20000]
    sample_world) as [[reports|e|p] w'] eqn:Hrun; [|exfalso; revert Hrun; by vm_compute..].
  exists reports, w'. split; [reflexivity|].
  pose proof (gas_estimate_block_reports [5; 5] [sample_block_receipt 1 400000;
    sample_block_receipt 2 20000] sample_world (Ok reports) w' Hrun) as Hr.
  change (List.filter qualifies _) with [sample_block_receipt 1 400000] in Hr.
  split; [|exact Hr]. by apply Forall2_length in Hr.
Defined.
