(* ===== verification/Cli.v ===== *)
(** * The command line

    [crates/cli/src/main.rs], built with both backends: the arguments, the analysis of one transaction
    on the EvmSketch backend or on Anvil, the nested what-if, and the decoding of what a failed
    measurement reverted with. What is printed is a value; the wording is left out. *)

From Stdlib Require Import SpecFloat Strings.Ascii.
From S2P Require Import Prelude.
From S2P Require Import Types.
From S2P Require Import Encoding.
From S2P Require Import Trace.
From S2P Require Import Heuristic.
From S2P Require Import SimProfile.
From S2P Require Import Prune.
From S2P Require Import Analyze.
From S2P Require Import Transport.
From S2P Require Import RpcDb.
From S2P Require Import Estimator.
From S2P Require Import Executor.
From S2P Require Import Estimates.
From S2P Require Import Resolver.
From S2P Require Import Anvil.

(** ** Arguments *)

Inductive Commands :=
  | Transaction (hash : string)
  | Request (file : string).

(** The messages of a wrong [--owned]. *)
Inductive OwnedError :=
  | NotAnAddress (text : string)      (* "--owned: `{a}` is not an address: {e}" *)
  | NoAddresses                       (* "--owned needs at least one address" *)
  | NotATransaction.                  (* "--owned only applies to `t <TX_HASH>`" *)

Record CliArgs := mkCliArgs {
  ca_command : option Commands;
  ca_use_anvil : bool;
  ca_debug : bool;
  ca_owned : Res OwnedError (option (list Z))
}.

(** The environment, and the endpoint of a URL. *)
Class CliEnv (P : Type) := { RPC_URL : option string; parse_url : string → option P }.

(** [Address::from_str]. *)
Class AddressText := { address_from_str : string → option Z }.

(** [str::strip_prefix]. *)
Fixpoint strip_prefix (prefix s : string) : option string :=
  match prefix, s with
  | EmptyString, _ => Some s
  | String a prefix, String b s => if Ascii.eqb a b then strip_prefix prefix s else None
  | String _ _, EmptyString => None
  end.

Definition is_flag (arg : string) : bool := String.prefix "--" arg.

(** [str::split(',')]: at least one part. *)
Fixpoint split_commas (s : string) : list string :=
  match s with
  | EmptyString => [EmptyString]
  | String c s =>
      if Ascii.eqb c ","%char then EmptyString :: split_commas s
      else match split_commas s with
           | part :: parts => String c part :: parts
           | [] => [String c EmptyString]
           end
  end.

(** The locals of the loop over the arguments. *)
Record ArgScan := mkArgScan {
  as_owned_raw : list string;
  as_owned_given : bool;
  as_positional : list string
}.

(** The [while let] over the peekable arguments: the value of [--owned] is taken unless it is a flag. *)
Fixpoint scan_args (args : list string) (s : ArgScan) : ArgScan :=
  match args with
  | [] => s
  | arg :: rest =>
      let 'mkArgScan raw given positional := s in
      if (arg =? "--owned")%string then
        match rest with
        | next :: rest' =>
            if is_flag next then scan_args rest (mkArgScan raw true positional)
            else scan_args rest' (mkArgScan (raw ++ [next]) true positional)
        | [] => mkArgScan raw true positional
        end
      else
        match strip_prefix "--owned=" arg with
        | Some value => scan_args rest (mkArgScan (raw ++ [value]) true positional)
        | None =>
            if is_flag arg then scan_args rest s
            else scan_args rest (mkArgScan raw given (positional ++ [arg]))
        end
  end.

Section args.
Context `{AddressText, Strings}.

(** The addresses of the lists, up to the first text that is none. *)
Definition owned_texts (raw : list string) : list string :=
  List.filter (λ a, negb (a =? "")%string) (trim <$> flat_map split_commas raw).

Definition parse_owned (raw : list string) : Res OwnedError (list Z) :=
  mapM (λ a, ok_or (address_from_str a) (NotAnAddress a)) (owned_texts raw).

Definition parse_command (positional : list string) : option Commands :=
  match positional with
  | _ :: input_type :: value :: _ =>
      if ((input_type =? "t") || (input_type =? "tx"))%string then Some (Transaction value)
      else if ((input_type =? "r") || (input_type =? "request"))%string then Some (Request value)
      else if ((input_type =? "d") || (input_type =? "debug"))%string then Some (Transaction value)
      else None
  | _ => None
  end.

Definition is_transaction (command : option Commands) : bool :=
  match command with Some (Transaction _) => true | _ => false end.

Definition check_owned (given : bool) (owned : Res OwnedError (list Z)) (command : option Commands)
  : Res OwnedError (option (list Z)) :=
  if negb given then Ok None
  else
    match owned with
    | Ok [] => Err NoAddresses
    | _ => if negb (is_transaction command) then Err NotATransaction else l ← owned; Ok (Some l)
    end.

Definition parse_args_from (args : list string) : CliArgs :=
  let use_anvil := existsb (λ a, (a =? "--anvil") || (a =? "--legacy"))%string args in
  let debug := existsb (λ a, a =? "--debug")%string args in
  let scan := scan_args args (mkArgScan [] false []) in
  let command := parse_command (as_positional scan) in
  let owned := check_owned (as_owned_given scan) (parse_owned (as_owned_raw scan)) command in
  let debug := debug ||
    match as_positional scan !! 1%nat with
    | Some s => ((s =? "debug") || (s =? "d"))%string
    | None => false
    end in
  mkCliArgs command use_anvil debug owned.
End args.

(** ** What a failed measurement reverted with *)

(** [char::is_ascii_hexdigit]. *)
Definition is_hexdigit (c : ascii) : bool :=
  let n := nat_of_ascii c in
  ((48 <=? n) && (n <=? 57) || (65 <=? n) && (n <=? 70) || (97 <=? n) && (n <=? 102))%nat.

(** What follows the last [0x] of a text ([rfind]). *)
Fixpoint after_last_0x (s : string) : option string :=
  match s with
  | String a rest =>
      match after_last_0x rest with
      | Some t => Some t
      | None =>
          match rest with
          | String b t => if Ascii.eqb a "0"%char && Ascii.eqb b "x"%char then Some t else None
          | EmptyString => None
          end
      end
  | EmptyString => None
  end.

(** The digits it starts with. *)
Fixpoint leading_hex (s : string) : string :=
  match s with
  | String c s => if is_hexdigit c then String c (leading_hex s) else EmptyString
  | EmptyString => EmptyString
  end.

Definition decode_reverting_context {W} `{Externals, Signatures W} (msg : string)
  : option RevertingContext :=
  hex_body ← after_last_0x msg;
  bytes ← hex_decode (leading_hex hex_body);
  abi_decode_reverting_context bytes.

(** ** What the command prints *)

Record SchemeLine := mkSchemeLine {
  sl_type : SignatureType;
  sl_gas_estimate : Z;
  sl_gas_savings : Z;
  sl_percent_savings : spec_float
}.

Inductive EstimateType :=
  | Fallback          (* "(fallback heuristic - replay failed)" *)
  | HeuristicEstimate (* "(heuristic - measured estimation failed)" *)
  | Measured.         (* "(measured via StateChangeHandler)" *)

Record Analysis := mkAnalysis {
  an_tx_hash : Z;
  an_block_number : Z;
  an_block_hash : option Z;
  an_tx_index : Z;
  an_gas_used : Z;
  an_base_gas_estimate : Z;
  an_estimate_type : EstimateType;
  an_reentered : bool;
  an_schemes : list SchemeLine
}.

(** A frame's line: its number, target, caller where it is not the root, operations and gas. *)
Record FrameLine := mkFrameLine {
  fl_index : nat;
  fl_target : Z;
  fl_caller : option Z;
  fl_ops : Z;
  fl_gas : Z
}.

Record WhatIf := mkWhatIf {
  wi_owned : list Z;
  wi_frames : list FrameLine;
  wi_unnested : list (Z * NotNestedReason);
  wi_flat_total : Z;
  wi_nested_total : Z;
  wi_flat : list SchemeLine;
  wi_nested : list SchemeLine
}.

Inductive Output :=
  | OUsage
  | ORequestRemoved               (* "The request command is no longer supported ..." *)
  | OAnalysis (a : Analysis)
  | OAnvil (extract : TraceExtract) (report : GasKillerReport)
  | OWhatIf (w : WhatIf).

Inductive CliError :=
  | COwned (e : OwnedError)
  | CRpc (message : string)
  | CTrace (e : TraceFailure)
  | CExtract (e : Error)
  | CTxMissing (hash : Z)           (* "tx 0x{} present in receipt but missing from ..." *)
  | COwnedOnAnvil                   (* "--owned runs on the EvmSketch backend; drop --anvil" *)
  | CNoTo                           (* "Transaction has no 'to' address" *)
  | CAnvil (e : AnvilError)
  | CFailedTransaction (e : TraceFailure) (* "Cannot analyze failed transaction ..." *)
  | CNoTraceOperations (e : TraceFailure) (* "Cannot analyze transaction: Failed to extract ..." *)
  | CPreceding (e : PrecedingError) (* "Failed to fetch preceding transactions for block ..." *)
  | CSketch (message : string).     (* an error of the builder or of the frame tree's run *)

(** Measuring a frame tree on a sketch, and starting Anvil at a block. *)
Class FrameSketch (W : Type) `{Sketch W} := {
  estimate_frame_tree :
    sketch → list FrameProgram → Z → list PrecedingTx → OriginalTx → NestingCostModel →
    Eff string W FrameTreeGas
}.

(** What [crates/evmsketch] implements of it. *)
Definition executor_frame_sketch {P W C}
  `{Externals, DynAbi, Texts, CacheDB C, Runtime P W C, SketchBuilder P W}
  (url : P) (executor_text : ExecutorError → string) (estimate_text : EstimateError → string)
  : @FrameSketch W (executor_sketch (C := C) url executor_text estimate_text) :=
  @Build_FrameSketch W (executor_sketch (C := C) url executor_text estimate_text)
    (λ e frames sender preceding original cost,
       eff_map_err estimate_text
         (estimate_frame_tree_gas_with_preceding (C := C) e frames sender preceding original cost)).

Definition scheme_line (base_estimate gas_used : Z) (signature_type : SignatureType) : SchemeLine :=
  let '(gas_estimate, gas_savings, percent_savings) := savings signature_type base_estimate gas_used in
  mkSchemeLine signature_type gas_estimate gas_savings percent_savings.

Section commands.
Context {P W : Type} `{Externals, CliEnv P, Node W, Sketch W, !FrameSketch W, AnvilServices W,
  AnvilFork W, Signatures W}.
(** [GasKillerDefault::new], and the code it holds. *)
Variables (spawn_anvil : Z → Eff string W unit) (estimator : list Z).

(** ** The what-if *)

Definition frame_line (p : nat * (FrameProgram * Z)) : FrameLine :=
  let '(i, (frame, gas)) := p in
  mkFrameLine i (fp_target frame) (if (i =? 0)%nat then None else Some (fp_caller frame))
    (zlen (fp_updates frame)) gas.

(** [what_if::run]. *)
Definition what_if_run (tx_hash : Z) (status : bool) (root sender : Z) (original : OriginalTx)
  (block_number tx_index gas_used : Z) (owned : list Z) : Eff CliError W WhatIf :=
  let owned : gset Z := list_to_set owned ∖ {[root]} in
  let cost := NESTING_COST_MODEL_V1 in
  trace ← eff_map_err CTrace (get_tx_trace tx_hash status);
  flat ← eff_res (map_err CExtract (compute_frame_tree_hypothetical trace root ∅ cost));
  nested ← eff_res (map_err CExtract (compute_frame_tree_hypothetical trace root owned cost));
  gk ← eff_map_err CSketch (build_sketch block_number);
  preceding ← eff_map_err CPreceding (get_preceding_transactions block_number tx_index);
  flat_gas ← eff_map_err CSketch
    (estimate_frame_tree gk (fte_frames flat) sender preceding original cost);
  nested_gas ← eff_map_err CSketch
    (estimate_frame_tree gk (fte_frames nested) sender preceding original cost);
  mret (mkWhatIf (set_items owned)
          (frame_line <$> enumerate (zip (fte_frames nested) (ftg_frame_gas nested_gas)))
          (unnested_owned owned (fte_frames nested)) (ftg_total flat_gas) (ftg_total nested_gas)
          (scheme_line (ftg_total flat_gas) gas_used <$> ALL)
          (scheme_line (ftg_total nested_gas) gas_used <$> ALL)).

(** ** One transaction *)

Definition TraceExtract_default : TraceExtract := mkTraceExtract [] ∅ 0 0 0 0 0 false.

(** The extraction, and whether the fallback heuristic stands in for it. *)
Definition extract_or_fallback (tx_hash : Z) (original_status : bool) (to : option Z)
  : Eff CliError W (TraceExtract * bool) :=
  result ← eff_try (compute_state_updates_from_tx tx_hash original_status to);
  match result with
  | inl extract => mret (extract, false)
  | inr e =>
      if original_status then mret (TraceExtract_default, true)
      else eff_res (Err (CFailedTransaction e))
  end.

(** The base estimate, and whether it is heuristic. *)
Definition base_estimate (tx_hash : Z) (receipt : Receipt) (block_number tx_index : Z)
  (original_tx : OriginalTx) (extract : TraceExtract) (use_fallback : bool)
  : Eff CliError W (Z * bool) :=
  if use_fallback || bool_decide (te_state_updates extract = []) then
    _ ← eff_map_err CSketch (build_sketch block_number);
    estimate ← eff_map_err CNoTraceOperations (estimate_gas_from_trace tx_hash (rc_status receipt));
    mret (estimate, true)
  else
    contract_address ← eff_res (ok_or (rc_to receipt) CNoTo);
    gk ← eff_map_err CSketch (build_sketch block_number);
    preceding_txs ← eff_map_err CPreceding (get_preceding_transactions block_number tx_index);
    gas ← eff_try (estimate_state_changes_gas_with_preceding gk contract_address (rc_from receipt)
                     (te_state_updates extract) preceding_txs original_tx);
    mret match gas with
         | inl gas => (gas, false)
         | inr _ => (estimate_gas_from_state_updates extract, true)
         end.

Definition estimate_type (use_fallback is_heuristic : bool) : EstimateType :=
  if use_fallback then Fallback else if is_heuristic then HeuristicEstimate else Measured.

(** The default backend. *)
Definition analyze_evmsketch (tx_hash : Z) (receipt : TransactionReceipt) (block_number tx_index : Z)
  (original_tx : OriginalTx) : Eff CliError W Analysis :=
  let rc := tr_receipt receipt in
  '(extract, use_fallback) ← extract_or_fallback tx_hash (rc_status rc) (rc_to rc);
  '(base, is_heuristic) ←
    base_estimate tx_hash rc block_number tx_index original_tx extract use_fallback;
  mret (mkAnalysis tx_hash block_number (tr_block_hash receipt) tx_index (rc_gas_used rc) base
          (estimate_type use_fallback is_heuristic) (te_reentered extract)
          (scheme_line base (rc_gas_used rc) <$> ALL)).

(** [--anvil]. The block before the first wraps, as [u64] does in a release build. *)
Definition analyze_anvil (tx_hash : Z) (receipt : TransactionReceipt) (block_number : Z)
  : Eff CliError W Output :=
  started ← eff_try (spawn_anvil (wrap64 (block_number - 1)));
  _ ← eff_res match started with
              | inl _ => Ok tt
              | inr _ => Panic "Failed to initialize GasKiller"
              end;
  trace ← eff_map_err CTrace (get_tx_trace tx_hash (rc_status (tr_receipt receipt)));
  extract ← eff_res (map_err CExtract (compute_state_updates trace (rc_to (tr_receipt receipt))));
  report ← eff_map_err CAnvil (gas_estimate_tx estimator tx_hash);
  mret (OAnvil extract report).

(** [hex::const_decode_to_array] of a hash. *)
Definition decode_hash (hash : string) : Res CliError Z :=
  match hex_decode (strip_0x hash) with
  | Some bytes =>
      if (length bytes =? 32)%nat then Ok (be_to_Z bytes)
      else Panic "failed to decode transaction hash"
  | None => Panic "failed to decode transaction hash"
  end.

Definition run_transaction (args : CliArgs) (owned : list Z) (hash : string) : Eff CliError W Output :=
  tx_hash ← eff_res (decode_hash hash);
  receipt ← eff_map_err CRpc (fetch_receipt tx_hash);
  receipt ← eff_res (expect receipt "couldn't fetch tx receipt for tx");
  let rc := tr_receipt receipt in
  block_number ← eff_res (expect (rc_block_number rc) "couldn't retrieve block number");
  tx_index ← eff_res (expect (rc_transaction_index rc) "couldn't retrieve transaction index");
  tx ← eff_map_err CRpc (get_transaction_by_hash tx_hash);
  tx ← eff_res (ok_or tx (CTxMissing tx_hash));
  let original_tx := mkOriginalTx (ctx_value tx) (rc_effective_gas_price rc) in
  if negb (bool_decide (owned = [])) then
    if ca_use_anvil args then eff_res (Err COwnedOnAnvil)
    else
      root ← eff_res (ok_or (rc_to rc) CNoTo);
      w ← what_if_run tx_hash (rc_status rc) root (rc_from rc) original_tx block_number tx_index
            (rc_gas_used rc) owned;
      mret (OWhatIf w)
  else if ca_use_anvil args then analyze_anvil tx_hash receipt block_number
  else
    a ← analyze_evmsketch tx_hash receipt block_number tx_index original_tx;
    mret (OAnalysis a).

Definition execute_command (args : CliArgs) : Eff CliError W Output :=
  owned ← eff_res (map_err COwned (ca_owned args));
  rpc_url ← eff_res (expect RPC_URL "RPC_URL must be set");
  _ ← eff_res (expect (parse_url rpc_url) "unable to parse rpc url");
  match ca_command args with
  | Some (Transaction hash) => run_transaction args (default [] owned) hash
  | Some (Request _) => mret ORequestRemoved
  | None => mret OUsage
  end.
End commands.
