(* ===== verification/CliSpec.v ===== *)
(** * Properties of the command line

    The two spellings of [--owned] mean the same and neither is ever ignored; what each kind of base
    estimate that is printed rests on; what the what-if lists; and that the revert data at the end of a
    message is decoded. *)

From Stdlib Require Import Strings.Ascii.
From S2P Require Import Prelude.
From S2P Require Import Types.
From S2P Require Import Instances.
From S2P Require Import Encoding.
From S2P Require Import Trace.
From S2P Require Import Heuristic.
From S2P Require Import SimProfile.
From S2P Require Import Effects.
From S2P Require Import FrameTree.
From S2P Require Import Prune.
From S2P Require Import WalkSpec.
From S2P Require Import TreeSpec.
From S2P Require Import Analyze.
From S2P Require Import Estimates.
From S2P Require Import Resolver.
From S2P Require Import Anvil.
From S2P Require Import Cli.

(** ** Arguments *)

(** An argument that is [--owned] in either spelling. *)
Definition is_owned_arg (arg : string) : bool :=
  (arg =? "--owned")%string || bool_decide (is_Some (strip_prefix "--owned=" arg)).

Section scan.

(** A list read two arguments at a time, where the second follows from the first. *)
Lemma args_ind (P : list string → Prop) :
  P [] → (∀ a l, P l → (∀ b k, l = b :: k → P k) → P (a :: l)) → ∀ l, P l.
Proof.
  intros Hnil Hcons l. cut (P l ∧ ∀ b k, l = b :: k → P k); [tauto|].
  induction l as [|a l [IH1 IH2]]; [done|]. split; [by apply Hcons|]. by intros b k [= -> ->].
Qed.

Lemma strip_prefix_append p s : strip_prefix p (p +:+ s) = Some s.
Proof.
  induction p as [|c p IH]; [by destruct s|]. rewrite append_cons. cbn. by rewrite Ascii.eqb_refl.
Qed.

Lemma owned_arg_flag arg : is_owned_arg arg = true → is_flag arg = true.
Proof.
  unfold is_owned_arg. intros [->%String.eqb_eq|H%bool_decide_eq_true]%orb_true_iff; [done|].
  destruct arg as [|a arg]; [by destruct H|]. cbn [strip_prefix] in H.
  destruct (Ascii.eqb_spec "-" a) as [<-|]; [|by destruct H].
  destruct arg as [|b arg]; [by destruct H|]. cbn [strip_prefix] in H.
  destruct (Ascii.eqb_spec "-" b) as [<-|]; [|by destruct H].
  unfold is_flag. by destruct arg.
Qed.

(** Whether [--owned] was given is whether it is among the arguments. *)
Lemma scan_given args s :
  as_owned_given (scan_args args s) = as_owned_given s || existsb is_owned_arg args.
Proof.
  revert s. induction args as [|a l IH1 IH2] using args_ind; intros [raw given pos]; cbn [scan_args].
  { by rewrite orb_false_r. }
  cbn [existsb]. unfold is_owned_arg at 1.
  destruct (String.eqb_spec a "--owned") as [->|Ha]; cbn [orb].
  - destruct l as [|next rest]; [by rewrite orb_true_r|].
    destruct (is_flag next) eqn:Hn.
    + rewrite IH1. cbn. by rewrite orb_true_r.
    + rewrite (IH2 next rest eq_refl). cbn. by rewrite orb_true_r.
  - destruct (strip_prefix "--owned=" a) as [v|].
    + rewrite IH1. cbn. by rewrite orb_true_r.
    + rewrite bool_decide_eq_false_2 by (intros [? ?]; done). cbn [orb].
      destruct (is_flag a); rewrite IH1; done.
Qed.

(** The two spellings leave the same locals, whatever stands before and after. *)
Lemma scan_spellings pre v post s :
  is_flag v = false →
  scan_args (pre ++ "--owned" :: v :: post) s = scan_args (pre ++ ("--owned=" +:+ v) :: post) s.
Proof.
  intros Hv. revert s. induction pre as [|a pre IH1 IH2] using args_ind; intros [raw given pos].
  - cbn [app scan_args]. rewrite String.eqb_refl, Hv, strip_prefix_append.
    destruct (String.eqb_spec ("--owned=" +:+ v) "--owned") as [Heq|_]; [discriminate Heq|done].
  - cbn [app scan_args]. destruct (a =? "--owned")%string.
    + destruct pre as [|b pre]; cbn [app].
      * change (is_flag "--owned") with true. change (is_flag ("--owned=" +:+ v)) with
          (String.prefix "" ("owned=" +:+ v)). destruct (String.prefix _ _) eqn:Hp; [|discriminate Hp].
        apply (IH1 (mkArgScan raw true pos)).
      * destruct (is_flag b); [apply (IH1 (mkArgScan raw true pos))|].
        apply (IH2 b pre eq_refl).
    + destruct (strip_prefix "--owned=" a); [apply IH1|]. destruct (is_flag a); apply IH1.
Qed.
End scan.

Section parsing.
Context `{AddressText, Strings}.

(** [--owned A,B] and [--owned=A,B] are the same command line, wherever they stand: the same command,
    backend, verbosity and contracts, or the same error. *)
Theorem owned_spellings_agree pre v post :
  is_flag v = false →
  parse_args_from (pre ++ "--owned" :: v :: post) = parse_args_from (pre ++ ("--owned=" +:+ v) :: post).
Proof.
  intros Hv. unfold parse_args_from. rewrite (scan_spellings pre v post _ Hv).
  assert (Hany : ∀ f, f "--owned" = false → f v = false → f ("--owned=" +:+ v) = false →
    existsb f (pre ++ "--owned" :: v :: post) = existsb f (pre ++ ("--owned=" +:+ v) :: post)).
  { intros f H1 H2 H3. rewrite !existsb_app. cbn [existsb]. by rewrite H1, H2, H3. }
  assert (Hneq : ∀ t, is_flag t = true → (v =? t)%string = false).
  { intros t Ht. apply String.eqb_neq. intros ->. congruence. }
  rewrite (Hany (λ a, (a =? "--anvil") || (a =? "--legacy"))%string);
    [|done|by rewrite !Hneq|done].
  by rewrite (Hany (λ a, a =? "--debug")%string) by (done || by apply Hneq).
Qed.

(** C32: an [--owned] on the command line is never silently dropped: without one there is no list; with
    one, either the command is rejected, or it is the analysis of a transaction and the list is not
    empty and holds the address of every text given. *)
Theorem owned_never_ignored args :
  let parsed := parse_args_from args in
  (ca_owned parsed = Ok None ↔ existsb is_owned_arg args = false) ∧
  ∀ l, ca_owned parsed = Ok (Some l) →
    l ≠ [] ∧ (∃ hash, ca_command parsed = Some (Transaction hash)) ∧
    Forall2 (λ text a, address_from_str text = Some a)
      (owned_texts (as_owned_raw (scan_args args (mkArgScan [] false [])))) l.
Proof.
  unfold parse_args_from; cbn [ca_owned ca_command].
  pose proof (scan_given args (mkArgScan [] false [])) as Hgiven.
  cbn [as_owned_given orb] in Hgiven. rewrite <-Hgiven.
  set (s := scan_args args _). set (command := parse_command _). unfold check_owned.
  destruct (as_owned_given s); cbn [negb]; [|split; [done|by intros l]].
  destruct (parse_owned (as_owned_raw s)) as [[|a l]|e|p] eqn:Hp.
  - split; [done|by intros l].
  - destruct (is_transaction command) eqn:Hc; cbn; [|split; [done|by intros ?]].
    split; [done|]. intros k [= <-]. split; [done|]. split.
    + destruct command as [[h|f]|]; try discriminate Hc. by exists h.
    + unfold parse_owned in Hp. apply mapM_Ok_Forall2 in Hp. eapply Forall2_impl; [exact Hp|].
      intros t x Ht. cbn in Ht. by apply ok_or_Ok in Ht.
  - destruct (is_transaction command); cbn; (split; [done|by intros ?]).
  - destruct (is_transaction command); cbn; (split; [done|by intros ?]).
Qed.
End parsing.

(** ** Messages *)

Section messages.

Lemma after_last_lacks s : lacks "x" s = true → after_last_0x s = None.
Proof.
  unfold lacks. induction s as [|a s IH]; [done|]. cbn [every after_last_0x].
  intros [_ Hs]%andb_true_iff. rewrite (IH Hs). destruct s as [|b t]; [done|].
  cbn [every] in Hs. apply andb_true_iff in Hs as [Hb%negb_true_iff _]. by rewrite Hb, andb_false_r.
Qed.

Lemma after_last_0x_app p s : lacks "x" s = true → after_last_0x (p +:+ "0x" +:+ s) = Some s.
Proof.
  intros Hs. induction p as [|a p IH].
  - change ("" +:+ "0x" +:+ s) with (String "0" (String "x" s)). cbn [after_last_0x].
    rewrite (after_last_lacks s Hs). destruct s as [|b t]; reflexivity.
  - rewrite append_cons. cbn [after_last_0x]. by rewrite IH.
Qed.

Lemma leading_hex_app h s :
  every is_hexdigit h = true → match s with String c _ => is_hexdigit c = false | EmptyString => True end →
  leading_hex (h +:+ s) = h.
Proof.
  intros Hh Hs. induction h as [|c h IH].
  - destruct s as [|c s]; [done|]. change ("" +:+ String c s) with (String c s). cbn [leading_hex]. by rewrite Hs.
  - cbn [every] in Hh. apply andb_true_iff in Hh as [Hc Hh].
    rewrite append_cons. cbn [leading_hex]. by rewrite Hc, IH.
Qed.

Lemma hex_char_digit n : 0 <= n < 16 → is_hexdigit (hex_char n) = true ∧ Ascii.eqb (hex_char n) "x" = false.
Proof.
  intros Hn. assert (n ∈ Z.of_nat <$> seq 0 16) as Hin.
  { apply list_elem_of_fmap. exists (Z.to_nat n). split; [lia|]. apply elem_of_seq. lia. }
  assert (Forall (λ n, is_hexdigit (hex_char n) = true ∧ Ascii.eqb (hex_char n) "x" = false)
    (Z.of_nat <$> seq 0 16)) as Hall by by_compute.
  rewrite Forall_forall in Hall. exact (Hall n Hin).
Qed.

Lemma hex_string_digits bs :
  Forall is_byte bs → every is_hexdigit (hex_string bs) = true ∧ lacks "x" (hex_string bs) = true.
Proof.
  unfold lacks. induction 1 as [|b bs Hb Hbs [IH1 IH2]]; [done|]. cbn [hex_string every].
  unfold is_byte in Hb.
  destruct (hex_char_digit (b / 16)) as [-> ->]; [split; [apply Z.div_pos; lia|apply Z.div_lt_upper_bound; lia]|].
  destruct (hex_char_digit (b mod 16)) as [-> ->]; [apply Z.mod_pos_bound; lia|]. by rewrite IH1, IH2.
Qed.
End messages.

(** [hex::decode] reads what [hex::encode] writes. *)
Class HexLaws `{Externals} : Prop := {
  hex_decode_string bs : Forall is_byte bs → hex_decode (hex_string bs) = Some bs
}.

(** the revert data that ends a message ("... reverted (gas: N): 0x...") is decoded, whatever precedes
    it, other hexadecimal numbers included, and whatever follows that is no digit and holds no [x]. *)
Theorem decode_reverting_context_last {W} `{Externals, !HexLaws, Signatures W} pre data post :
  Forall is_byte data → lacks "x" post = true →
  match post with String c _ => is_hexdigit c = false | EmptyString => True end →
  decode_reverting_context (pre +:+ "0x" +:+ hex_string data +:+ post) =
  abi_decode_reverting_context data.
Proof.
  intros Hd Hx Hp. destruct (hex_string_digits data Hd) as [Hdig Hlx].
  unfold decode_reverting_context. rewrite after_last_0x_app.
  - cbn [mbind option_bind]. by rewrite leading_hex_app, hex_decode_string.
  - unfold lacks in *. by rewrite every_app, Hlx, Hx.
Qed.

(** ** The commands *)

Section commands.
Context {P W : Type} `{Externals, CliEnv P, Node W, Sketch W, !FrameSketch W, AnvilServices W,
  AnvilFork W, Signatures W}.

(** What a base estimate that is printed rests on. *)
Definition estimate_rests (tx_hash : Z) (rc : Receipt) (block_number tx_index : Z)
  (original_tx : OriginalTx) (base : Z) (t : EstimateType) : Prop :=
  match t with
  | Measured =>
      ∃ extract to gk preceding wa wa' wb wb' wc wc',
        compute_state_updates_from_tx tx_hash (rc_status rc) (rc_to rc) wa = (Ok extract, wa') ∧
        te_state_updates extract ≠ [] ∧ rc_to rc = Some to ∧
        get_preceding_transactions block_number tx_index wb = (Ok preceding, wb') ∧
        estimate_state_changes_gas_with_preceding gk to (rc_from rc) (te_state_updates extract)
          preceding original_tx wc = (Ok base, wc')
  | HeuristicEstimate =>
      ∃ extract wa wa',
        compute_state_updates_from_tx tx_hash (rc_status rc) (rc_to rc) wa = (Ok extract, wa') ∧
        if bool_decide (te_state_updates extract = [])
        then ∃ wb wb', estimate_gas_from_trace tx_hash (rc_status rc) wb = (Ok base, wb')
        else base = estimate_gas_from_state_updates extract
  | Fallback =>
      rc_status rc = true ∧
      (∃ e wa wa',
        compute_state_updates_from_tx tx_hash (rc_status rc) (rc_to rc) wa = (Err e, wa')) ∧
      ∃ wb wb', estimate_gas_from_trace tx_hash (rc_status rc) wb = (Ok base, wb')
  end.

Lemma extract_or_fallback_Ok tx_hash status to extract fallback w w' :
  extract_or_fallback tx_hash status to w = (Ok (extract, fallback), w') →
  if (fallback : bool)
  then status = true ∧ ∃ e, compute_state_updates_from_tx tx_hash status to w = (Err e, w')
  else compute_state_updates_from_tx tx_hash status to w = (Ok extract, w').
Proof.
  unfold extract_or_fallback. intros Hrun. apply eff_bind_Ok in Hrun as (r & w1 & Hr & Hrun).
  apply eff_try_Ok in Hr. destruct r as [x|e]; [by injection Hrun as -> <- ->|].
  destruct status; [|done]. injection Hrun as _ <- ->. eauto.
Qed.

(** each kind of estimate the command prints rests on what its label says: a measured one on every
    preceding transaction of the block and on a run that succeeded; a heuristic one on the operations
    extracted, priced as they are, or, where there are none, on the trace's; a fallback one, of a
    transaction that succeeded and could not be extracted, on the trace's. The savings of both schemes
    are those of that estimate. *)
Theorem analysis_rests tx_hash receipt block_number tx_index original_tx a w w' :
  analyze_evmsketch tx_hash receipt block_number tx_index original_tx w = (Ok a, w') →
  estimate_rests tx_hash (tr_receipt receipt) block_number tx_index original_tx
    (an_base_gas_estimate a) (an_estimate_type a) ∧
  an_schemes a = scheme_line (an_base_gas_estimate a) (rc_gas_used (tr_receipt receipt)) <$> ALL.
Proof.
  unfold analyze_evmsketch. intros Hrun.
  apply eff_bind_Ok in Hrun as ([extract fallback] & w1 & Hex & Hrun).
  apply eff_bind_Ok in Hrun as ([base heur] & w2 & Hbase & [= <- <-]). cbn.
  split; [|done]. apply extract_or_fallback_Ok in Hex. unfold base_estimate in Hbase.
  destruct fallback; cbn [orb] in Hbase.
  - destruct Hex as [Hst [e Hex]]. inv_eff. injection Hbase as <- <- <-. cbn.
    split; [done|]. split; eauto.
  - destruct (bool_decide (te_state_updates extract = [])) eqn:Hempty.
    + inv_eff. injection Hbase as <- <- <-. cbn. exists extract, w, w1. rewrite Hempty. eauto.
    + apply eff_bind_Ok in Hbase as (to & w3 & Hto & Hbase). apply eff_res_Ok in Hto as [Hto ->].
      apply ok_or_Ok in Hto.
      apply eff_bind_Ok in Hbase as (gk & w4 & _ & Hbase).
      apply eff_bind_Ok in Hbase as (preceding & w5 & Hp & Hbase). apply eff_map_err_Ok in Hp.
      apply eff_bind_Ok in Hbase as (gas & w6 & Hgas & Hbase). apply eff_try_Ok in Hgas.
      destruct gas as [gas|why]; injection Hbase as <- <- <-; cbn.
      * apply bool_decide_eq_false in Hempty.
        exists extract, to, gk, preceding, w, w1, w4, w5, w5, w6. done.
      * exists extract, w, w1. by rewrite Hempty.
Qed.

(** the what-if prices one trace twice, split by the same walk: with nothing owned it is the root's
    program alone; with the contracts owned, the root aside, every further frame is of an owned
    contract, and an owned contract is listed as not nested exactly when no frame is of it, as kept a
    call exactly when some frame still calls it. *)
Theorem what_if_lists tx_hash status root sender original block_number tx_index gas_used owned out w w' :
  what_if_run tx_hash status root sender original block_number tx_index gas_used owned w = (Ok out, w') →
  ∃ trace flat nested w1,
    get_tx_trace tx_hash status w = (Ok trace, w1) ∧
    compute_frame_tree_hypothetical trace root ∅ NESTING_COST_MODEL_V1 = Ok flat ∧
    compute_frame_tree_hypothetical trace root (list_to_set owned ∖ {[root]}) NESTING_COST_MODEL_V1
      = Ok nested ∧
    (∀ a, a ∈ wi_owned out ↔ a ∈ owned ∧ a ≠ root) ∧
    fp_target <$> fte_frames flat = [root] ∧
    (∃ rest, fp_target <$> fte_frames nested = root :: rest ∧ ∀ a, a ∈ rest → a ∈ wi_owned out) ∧
    (∀ a, a ∈ (wi_unnested out).*1 ↔ a ∈ wi_owned out ∧ a ∉ fp_target <$> fte_frames nested) ∧
    (∀ a reason, (a, reason) ∈ wi_unnested out →
      reason = KeptAsCall ↔
        ∃ f call, f ∈ fte_frames nested ∧ UCall call ∈ fp_updates f ∧ call_target call = a).
Proof.
  unfold what_if_run. intros Hrun. cbv zeta in Hrun. set (set := list_to_set owned ∖ {[root]}) in *.
  apply eff_bind_Ok in Hrun as (trace & w1 & Htrace & Hrun). apply eff_map_err_Ok in Htrace.
  apply eff_bind_Ok in Hrun as (flat & w2 & Hflat & Hrun). apply eff_res_Ok in Hflat as [Hflat ->].
  apply eff_bind_Ok in Hrun as (nested & w3 & Hnested & Hrun). apply eff_res_Ok in Hnested as [Hnested ->].
  do 4 (apply eff_bind_Ok in Hrun as (? & ? & _ & Hrun)). injection Hrun as <- <-.
  destruct (compute_frame_tree_hypothetical trace root ∅ _) as [flat'| |] eqn:Hf; [|done..].
  injection Hflat as ->.
  destruct (compute_frame_tree_hypothetical trace root set _) as [nested'| |] eqn:Hn; [|done..].
  injection Hnested as ->.
  exists trace, flat, nested, w1. cbn [wi_owned wi_unnested].
  assert (Hset : ∀ a, a ∈ set_items set ↔ a ∈ owned ∧ a ≠ root).
  { intros a. rewrite set_items_elem. unfold set. set_solver. }
  destruct (split_root_frame _ _ _ _ _ Hf) as (_ & _ & _ & f & frest & _ & Hff & Hft & _).
  destruct (split_root_frame _ _ _ _ _ Hn) as (_ & _ & _ & g & grest & _ & Hgf & Hgt & _).
  split_and!; try done.
  - rewrite Hff. destruct frest as [|h frest]; [by rewrite <-Hft|]. exfalso.
    assert (h_in : fte_frames flat !! 1%nat = Some h) by by rewrite Hff.
    apply (split_frames_owned _ _ _ _ _ 0 h Hf) in h_in. cbn in h_in. set_solver.
  - exists (fp_target <$> grest). rewrite Hgf. split; [by rewrite <-Hgt|].
    intros a (h & -> & [i Hi]%list_elem_of_lookup)%list_elem_of_fmap.
    rewrite set_items_elem. apply (split_frames_owned _ _ _ _ _ i h Hn). by rewrite Hgf.
  - intros a. by rewrite unnested_owned_spec, set_items_elem.
  - intros a reason. apply unnested_owned_reason.
Qed.
End commands.

(** ** Witnesses *)

#[local] Instance sample_address_text : AddressText := {|
  address_from_str text := if (text =? "0xa")%string then Some 10 else None
|}.
#[local] Instance sample_trim : Strings := {| trim s := s |}.

Lemma owned_spellings_agree_witness :
  ca_owned (parse_args_from ["cli"; "t"; "0x1"; "--owned"; "0xa"]%string) = Ok (Some [10]) ∧
  ca_owned (parse_args_from ["cli"; "t"; "0x1"; "--owned=0xa"]%string) = Ok (Some [10]).
Proof.
  split; [reflexivity|].
  change (["cli"; "t"; "0x1"; "--owned=0xa"]%string)
    with (["cli"; "t"; "0x1"]%string ++ ("--owned=" +:+ "0xa") :: []).
  rewrite <-(owned_spellings_agree ["cli"; "t"; "0x1"]%string "0xa" [] eq_refl). reflexivity.
Defined.

Lemma owned_never_ignored_witness :
  ca_owned (parse_args_from ["cli"; "t"; "0x1"]%string) = Ok None.
Proof. apply (owned_never_ignored ["cli"; "t"; "0x1"]%string). reflexivity. Defined.

(** A decoder that reads what [hex_string] writes: the sample's. *)
Lemma hex_digit_char n : 0 <= n < 16 → hex_digit (hex_char n) = Some n.
Proof.
  intros Hn. assert (n ∈ Z.of_nat <$> seq 0 16) as Hin.
  { apply list_elem_of_fmap. exists (Z.to_nat n). split; [lia|]. apply elem_of_seq. lia. }
  assert (Forall (λ n, hex_digit (hex_char n) = Some n) (Z.of_nat <$> seq 0 16)) as Hall by by_compute.
  rewrite Forall_forall in Hall. exact (Hall n Hin).
Qed.

#[local] Instance sample_hex_laws : HexLaws.
Proof.
  split. intros bs Hbs. change (hex_bytes (hex_string bs) = Some bs).
  induction Hbs as [|b bs Hb Hbs IH]; [done|]. cbn [hex_string hex_bytes]. unfold is_byte in Hb.
  rewrite (hex_digit_char (b / 16)) by (split; [apply Z.div_pos; lia|apply Z.div_lt_upper_bound; lia]).
  rewrite (hex_digit_char (b mod 16)) by (apply Z.mod_pos_bound; lia). cbn [mbind option_bind]. rewrite IH. cbn.
  do 2 f_equal. pose proof (Z.div_mod b 16). lia.
Qed.

#[local] Instance sample_reverts : Signatures unit := {|
  ErrorItem := unit; FunctionItem := unit; DynSolValue := unit;
  reverting_selector := [1; 2; 3; 4];
  abi_decode_reverting_context bytes := Some (mkRevertingContext 0 7 bytes []);
  signatures_identifier_new w := (Ok tt, w);
  identify_error _ w := (None, w);
  identify_function _ w := (None, w);
  decode_error _ _ := None;
  abi_decode_input _ _ := None;
  error_signature _ := "";
  function_signature _ := "";
  debug_value _ := ""
|}.

Lemma decode_reverting_context_last_witness :
  decode_reverting_context (W := unit) "at 0x12: reverted (gas: 9): 0x0aff." =
  Some (mkRevertingContext 0 7 [10; 255] []).
Proof.
  change "at 0x12: reverted (gas: 9): 0x0aff."%string
    with ("at 0x12: reverted (gas: 9): " +:+ "0x" +:+ hex_string [10; 255] +:+ ".").
  rewrite (decode_reverting_context_last (W := unit) "at 0x12: reverted (gas: 9): " [10; 255] ".");
    [reflexivity|by_compute|reflexivity|reflexivity].
Defined.

(** A node that traces one nested call, and a sketch that measures every frame at the floor. *)
#[local] Instance cli_node : Node unit := {|
  get_block_number w := (Ok 100, w);
  get_transaction_receipt _ w := (Ok None, w);
  get_block_by_number _ w := (Ok (Some (mkBlock 1700 None [])), w);
  get_transaction_by_hash _ w := (Ok None, w);
  debug_trace_transaction _ w := (Ok (Some split_sample), w);
  lower s := s;
  failure_text _ := "failed"
|}.
#[local] Instance cli_sketch : Sketch unit := {|
  sketch := unit;
  build_sketch _ w := (Ok tt, w);
  estimate_state_changes_gas_with_preceding _ _ _ _ _ _ w := (Ok 30000, w)
|}.
#[local] Instance cli_frame_sketch : FrameSketch unit := {|
  estimate_frame_tree _ frames _ _ _ cost w :=
    let gas := replicate (length frames) 21000 in
    (Ok (mkFrameTreeGas gas (frame_tree_total gas cost)), w)
|}.

Definition cli_receipt : TransactionReceipt :=
  mkTransactionReceipt (mkReceipt true (Some 10) 1 400000 (Some 100) (Some 0) 2) 1 (Some 5).

Lemma analysis_rests_witness :
  ∃ a, analyze_evmsketch 1 cli_receipt 100 0 (mkOriginalTx 0 2) tt = (Ok a, tt) ∧
    an_estimate_type a = Measured ∧
    estimate_rests 1 (tr_receipt cli_receipt) 100 0 (mkOriginalTx 0 2) 30000 Measured.
Proof.
  destruct (analyze_evmsketch 1 cli_receipt 100 0 (mkOriginalTx 0 2) tt) as [[a|e|p] []] eqn:Hrun;
    [|exfalso; revert Hrun; by vm_compute..].
  exists a. split; [reflexivity|].
  assert (an_estimate_type a = Measured ∧ an_base_gas_estimate a = 30000) as [Ht Hb]
    by (revert Hrun; vm_compute; by intros [= <-]).
  split; [exact Ht|]. rewrite <-Ht at 1. rewrite <-Hb.
  exact (proj1 (analysis_rests 1 cli_receipt 100 0 (mkOriginalTx 0 2) a tt tt Hrun)).
Defined.

Lemma what_if_lists_witness :
  ∃ out, what_if_run 1 true 10 1 (mkOriginalTx 0 2) 100 0 400000 [77; 88] tt = (Ok out, tt) ∧
    length (wi_frames out) = 2%nat ∧ wi_unnested out = [(88, NotReached)] ∧
    ∀ a, a ∈ wi_owned out ↔ a ∈ [77; 88] ∧ a ≠ 10.
Proof.
  destruct (what_if_run 1 true 10 1 (mkOriginalTx 0 2) 100 0 400000 [77; 88] tt) as [[out|e|p] []] eqn:Hrun;
    [|exfalso; revert Hrun; by vm_compute..].
  exists out. split; [reflexivity|].
  assert (length (wi_frames out) = 2%nat ∧ wi_unnested out = [(88, NotReached)]) as [Hf Hu]
    by (revert Hrun; vm_compute; by intros [= <-]).
  split; [exact Hf|]. split; [exact Hu|].
  destruct (what_if_lists 1 true 10 1 (mkOriginalTx 0 2) 100 0 400000 [77; 88] out tt tt Hrun)
    as (_ & _ & _ & _ & _ & _ & _ & Howned & _).
  exact Howned.
Defined.
