(* ===== verification/Auth.v ===== *)
(** * Sessions of the dashboard

    [crates/indexer-web/src/auth.rs] and the login handlers of [handlers/public.rs]: the allowlist, the
    password check, the signed session token, the cookie, and where a login leads. A Rust string is the
    string of its UTF-8 bytes. Hashing, base64 and bcrypt are operations of a class; the clock is an
    argument. *)

From Stdlib Require Import Strings.Ascii.
From Stdlib Require Import DecimalString.
From S2P Require Import Prelude.
From S2P Require Import Trace.

(** [i64] addition in a release build. *)
Definition i64_min : Z := - 2 ^ 63.
Definition i64_max : Z := 2 ^ 63 - 1.
Definition is_i64 (z : Z) : Prop := i64_min <= z <= i64_max.
#[export] Instance is_i64_dec z : Decision (is_i64 z).
Proof. unfold is_i64. apply _. Defined.
Definition i64_add (a b : Z) : Z := (a + b + 2 ^ 63) mod 2 ^ 64 - 2 ^ 63.

(** ** What the code uses of the standard library *)

(** [i64]'s [Display] and [FromStr]: digits after at most one sign. *)
Definition i64_text (z : Z) : string := NilZero.string_of_int (Z.to_int z).
Definition parse_i64 (s : string) : option Z :=
  d ← match s with
      | String c digits =>
          if Ascii.eqb c "+" then Decimal.Pos <$> NilZero.uint_of_string digits else NilZero.int_of_string s
      | EmptyString => None
      end;
  if bool_decide (is_i64 (Z.of_int d)) then Some (Z.of_int d) else None.

(** [str::rsplit_once] at a character. *)
Fixpoint rsplit_once (c : ascii) (s : string) : option (string * string) :=
  match s with
  | EmptyString => None
  | String a rest =>
      match rsplit_once c rest with
      | Some (p, q) => Some (String a p, q)
      | None => if Ascii.eqb a c then Some (EmptyString, rest) else None
      end
  end.

(** [std::str::from_utf8]: the bytes a character still needs, each within bounds. *)
Definition cont : Z * Z := (0x80, 0xBF).
Definition utf8_start (b : Z) : option (list (Z * Z)) :=
  if b <=? 0x7F then Some []
  else if (0xC2 <=? b) && (b <=? 0xDF) then Some [cont]
  else if b =? 0xE0 then Some [(0xA0, 0xBF); cont]
  else if b =? 0xED then Some [(0x80, 0x9F); cont]
  else if (0xE1 <=? b) && (b <=? 0xEF) then Some [cont; cont]
  else if b =? 0xF0 then Some [(0x90, 0xBF); cont; cont]
  else if (0xF1 <=? b) && (b <=? 0xF3) then Some [cont; cont; cont]
  else if b =? 0xF4 then Some [(0x80, 0x8F); cont; cont]
  else None.
Definition utf8_step (pending : list (Z * Z)) (b : Z) : option (list (Z * Z)) :=
  match pending with
  | [] => utf8_start b
  | (lo, hi) :: pending => if (lo <=? b) && (b <=? hi) then Some pending else None
  end.
Definition byte_of (c : ascii) : Z := Z.of_nat (nat_of_ascii c).
Fixpoint utf8_run (pending : list (Z * Z)) (s : string) : option (list (Z * Z)) :=
  match s with
  | EmptyString => Some pending
  | String c s => pending ← utf8_step pending (byte_of c); utf8_run pending s
  end.
Definition is_utf8 (s : string) : bool := bool_decide (utf8_run [] s = Some []).
Definition from_utf8 (bytes : string) : option string := if is_utf8 bytes then Some bytes else None.

(** ** Other crates *)

(** [hmac] over SHA-256, the URL-safe alphabet of [base64] without padding, and [bcrypt::verify]. *)
Class Crypto := {
  hmac_sha256 : string → string → list Z;
  b64_encode : string → string;
  b64_decode : string → option string;
  bcrypt_verify : string → string → option bool
}.

(** ** State *)

Definition SESSION_COOKIE : string := "ix_session".
Definition SESSION_TTL_SECS : Z := 7 * 24 * 60 * 60.

Record UserEntry := mkUser { username : string; bcrypt_hash : string }.
Record AuthState := mkAuth { users : list UserEntry; secret : string }.

Inductive AuthError :=
  | AIo (why : string)
  | AYaml (why : string)
  | SecretInvalid.

(** The allowlist's file, read and decoded. *)
Class Allowlist (W : Type) := { read_allowlist : string → Eff AuthError W (list UserEntry) }.

(** [AuthState::new]. *)
Definition auth_new {W} `{Allowlist W} (allowlist_path : string) (secret : string)
  : Eff AuthError W AuthState :=
  if (String.length secret <? 32)%nat then eff_res (Err SecretInvalid)
  else users ← read_allowlist allowlist_path; mret (mkAuth users secret).

Section auth.
Context `{Crypto}.

Definition listed (auth : AuthState) (name : string) : bool :=
  existsb (λ u, (username u =? name)%string) (users auth).

Definition verify_password (auth : AuthState) (name password : string) : option string :=
  entry ← List.find (λ u, (username u =? name)%string) (users auth);
  match bcrypt_verify password (bcrypt_hash entry) with
  | Some true => Some (username entry)
  | _ => None
  end.

Definition sign (auth : AuthState) (payload : string) : string := hex_string (hmac_sha256 (secret auth) payload).

Definition payload (name : string) (expires : Z) : string := name +:+ "|" +:+ i64_text expires.

Definition issue_token (auth : AuthState) (now : Z) (name : string) : string :=
  let expires := i64_add now SESSION_TTL_SECS in
  b64_encode (payload name expires +:+ "|" +:+ sign auth (payload name expires)).

Definition verify_token (auth : AuthState) (now : Z) (token : string) : option string :=
  bytes ← b64_decode token;
  raw ← from_utf8 bytes;
  '(payload, sig) ← rsplit_once "|" raw;
  if negb (sign auth payload =? sig)%string then None
  else
    '(name, expires) ← rsplit_once "|" payload;
    expires ← parse_i64 expires;
    if expires <? now then None
    else if negb (listed auth name) then None
    else Some name.
End auth.

(** ** Cookies and redirects *)

Inductive SameSite := Strict | Lax | NoneSite.
Record Cookie := mkCookie {
  c_name : string;
  c_value : string;
  c_http_only : bool;
  c_secure : bool;
  c_same_site : SameSite;
  c_path : string;
  c_max_age : Z
}.

Definition session_cookie (token : string) : Cookie :=
  mkCookie SESSION_COOKIE token true true Strict "/" SESSION_TTL_SECS.
Definition clear_cookie : Cookie := mkCookie SESSION_COOKIE "" true true Strict "/" 0.

Definition unreserved (b : Z) : bool :=
  (65 <=? b) && (b <=? 90) || (97 <=? b) && (b <=? 122) || (48 <=? b) && (b <=? 57) ||
  (b =? 45) || (b =? 95) || (b =? 46) || (b =? 126).
(** A digit of [{:02X}]. *)
Definition upper_hex_char (n : Z) : ascii := ascii_of_nat (Z.to_nat (if n <? 10 then 48 + n else 55 + n)).
Definition percent (b : Z) (rest : string) : string :=
  String "%" (String (upper_hex_char (b / 16)) (String (upper_hex_char (b mod 16)) rest)).
Fixpoint urlencode (s : string) : string :=
  match s with
  | EmptyString => EmptyString
  | String c s =>
      if unreserved (byte_of c) then String c (urlencode s) else percent (byte_of c) (urlencode s)
  end.

(** [starts_with] of the path a login leads to. *)
Definition sanitize_next (next : option string) : string :=
  match next with
  | Some n => if String.prefix "/" n && negb (String.prefix "//" n) then n else "/"
  | None => "/"
  end.

Section handlers.
Context `{Crypto}.

(** The extractor of [AuthUser]: the user, or where a request without one is sent. *)
Definition from_request_parts (auth : AuthState) (now : Z) (cookie : option string) (path : string)
    (query : option string) : string + string :=
  match cookie ≫= verify_token auth now with
  | Some name => inl name
  | None =>
      let q := default "" (String.append "?" <$> query) in
      inr ("/login?next=" +:+ urlencode path +:+ urlencode q)
  end.

(** A response: where to, or the login page again, and the cookie set. *)
Inductive LoginResponse :=
  | RedirectTo (target : string) (cookie : Cookie)
  | LoginAgain (error next : string).

Definition login_post (auth : AuthState) (now : Z) (name password : string) (next : option string)
  : LoginResponse :=
  match verify_password auth name password with
  | Some name => RedirectTo (sanitize_next next) (session_cookie (issue_token auth now name))
  | None => LoginAgain "Invalid username or password." (default "/" next)
  end.

Definition logout : LoginResponse := RedirectTo "/login" clear_cookie.
End handlers.
