(* ===== verification/AuthSpec.v ===== *)
(** * What a session token proves

    A token that the server issued is accepted exactly while its time and its user's place on the
    allowlist last, and a token that is accepted without forging a signature is that of a login of the
    same user. Redirects stay on the site as far as the first two characters tell. *)

From Stdlib Require Import Strings.Ascii.
From Stdlib Require Import DecimalString.
From Stdlib Require Import DecimalZ.
From S2P Require Import Prelude.
From S2P Require Import Trace.
From S2P Require Import Auth.

(** What is relied on: base64 decodes what it encoded, and a MAC is made of bytes. *)
Class CryptoLaws `{Crypto} : Prop := {
  b64_roundtrip s : b64_decode (b64_encode s) = Some s;
  hmac_bytes key msg : Forall is_byte (hmac_sha256 key msg)
}.

(** ** Splitting *)

Lemma rsplit_once_lacks c s : lacks c s = true → rsplit_once c s = None.
Proof.
  unfold lacks. induction s as [|a s IH]; cbn; [done|]. intros [Ha Hs]%andb_true_iff.
  rewrite (IH Hs). by destruct (Ascii.eqb a c).
Qed.

Lemma rsplit_once_app c p q : lacks c q = true → rsplit_once c (p +:+ String c q) = Some (p, q).
Proof.
  intros Hq. induction p as [|a p IH].
  - change (rsplit_once c (String c q) = Some (EmptyString, q)). cbn. by rewrite rsplit_once_lacks, Ascii.eqb_refl.
  - rewrite append_cons. cbn. by rewrite IH.
Qed.

Lemma rsplit_once_Some c s p q : rsplit_once c s = Some (p, q) → s = p +:+ String c q ∧ lacks c q = true.
Proof.
  revert p. induction s as [|a s IH]; intros p; cbn; [done|].
  destruct (rsplit_once c s) as [[p' q']|] eqn:Hs.
  - intros [= <- <-]. destruct (IH p' eq_refl) as [-> Hq]. done.
  - destruct (Ascii.eqb_spec a c) as [->|]; [|done]. intros [= <- <-]. split; [done|]. clear IH.
    unfold lacks. induction s as [|b s IH]; cbn in *; [done|].
    destruct (rsplit_once c s) as [[]|]; [done|]. destruct (Ascii.eqb b c); [done|]. by rewrite IH.
Qed.

(** ** Decimal texts *)

Definition digit_or_minus (c : ascii) : bool := (48 <=? byte_of c) && (byte_of c <=? 57) || (byte_of c =? 45).

Lemma uint_digits d : every digit_or_minus (NilEmpty.string_of_uint d) = true.
Proof. by induction d. Qed.

Lemma i64_text_digits z : every digit_or_minus (i64_text z) = true.
Proof.
  assert (∀ d, every digit_or_minus (NilZero.string_of_uint d) = true) as Hd.
  { intros d. unfold NilZero.string_of_uint. destruct d; [done|apply uint_digits..]. }
  unfold i64_text, NilZero.string_of_int. destruct (Z.to_int z) as [d|d]; [apply Hd|].
  change (true && every digit_or_minus (NilZero.string_of_uint d) = true). apply Hd.
Qed.

Lemma i64_text_lacks z : lacks "|" (i64_text z) = true.
Proof.
  eapply every_impl, i64_text_digits. intros c Hc.
  destruct (Ascii.eqb_spec c "|") as [->|]; [by vm_compute in Hc|done].
Qed.

Lemma parse_i64_text z : is_i64 z → parse_i64 (i64_text z) = Some z.
Proof.
  intros Hz. assert (NilZero.int_of_string (i64_text z) = Some (Z.to_int z)) as Hint.
  { unfold i64_text. apply NilZero.isi; destruct z; cbn; try done;
      (destruct (Pos.to_uint p) eqn:Hp; [|done..]); by destruct (DecimalPos.Unsigned.to_uint_nonnil p). }
  unfold parse_i64. pose proof (i64_text_digits z) as Hd.
  destruct (i64_text z) as [|c s]; [done|]. destruct (Ascii.eqb_spec c "+") as [->|Hc]; [done|].
  rewrite Hint. cbn [mbind option_bind]. rewrite DecimalZ.of_to. by rewrite bool_decide_eq_true_2.
Qed.

(** ** UTF-8 *)

Lemma utf8_run_app pending s t : utf8_run pending (s +:+ t) = utf8_run pending s ≫= λ p, utf8_run p t.
Proof.
  revert pending. induction s as [|c s IH]; intros pending; [done|]. rewrite append_cons. cbn.
  destruct (utf8_step pending (byte_of c)); cbn; [apply IH|done].
Qed.

Definition is_ascii (c : ascii) : bool := byte_of c <=? 0x7F.

Lemma utf8_run_ascii s : every is_ascii s = true → utf8_run [] s = Some [].
Proof.
  induction s as [|c s IH]; cbn; [done|]. intros [Hc Hs]%andb_true_iff.
  unfold utf8_start, is_ascii in *. rewrite Hc. by apply IH.
Qed.

Lemma from_utf8_app s t : is_utf8 s = true → every is_ascii t = true → from_utf8 (s +:+ t) = Some (s +:+ t).
Proof.
  unfold from_utf8, is_utf8. intros Hs%bool_decide_eq_true Ht.
  rewrite bool_decide_eq_true_2; [done|]. rewrite utf8_run_app, Hs. by apply utf8_run_ascii.
Qed.

Lemma every_hex P bs :
  (∀ n, 0 <= n < 16 → P (hex_char n) = true) → Forall is_byte bs → every P (hex_string bs) = true.
Proof.
  intros HP. induction 1 as [|b bs Hb _ IH]; cbn; [done|]. unfold is_byte in Hb.
  rewrite !HP, IH; [done|..]; Z.to_euclidean_division_equations; lia.
Qed.

(** ** Tokens *)

Section tokens.
Context `{CryptoLaws}.

Lemma hex_char_range n : 0 <= n < 16 → 48 <= byte_of (hex_char n) <= 102.
Proof.
  intros Hn. unfold byte_of, hex_char. rewrite Ascii.nat_ascii_embedding; destruct (n <? 10) eqn:?; lia.
Qed.

Lemma sign_lacks auth p : lacks "|" (sign auth p) = true.
Proof.
  apply every_hex; [|apply hmac_bytes]. intros n Hn%hex_char_range.
  destruct (Ascii.eqb_spec (hex_char n) "|") as [Heq|]; [|done]. rewrite Heq in Hn. vm_compute in Hn. by destruct Hn.
Qed.

Lemma sign_ascii auth p : every is_ascii (sign auth p) = true.
Proof.
  apply every_hex; [|apply hmac_bytes]. intros n Hn%hex_char_range. unfold is_ascii. lia.
Qed.

Lemma i64_text_ascii z : every is_ascii (i64_text z) = true.
Proof.
  eapply every_impl, i64_text_digits. intros c. unfold digit_or_minus, is_ascii. lia.
Qed.

Lemma payload_split name expires : rsplit_once "|" (payload name expires) = Some (name, i64_text expires).
Proof. apply (rsplit_once_app "|"), i64_text_lacks. Qed.
End tokens.

(** A token issued under a secret is accepted by whoever shares the secret, for its user, exactly up to its
    expiry and while the user is on the allowlist; a user may have any name, separators included. *)
Theorem token_accepted_iff `{CryptoLaws} auth auth' now now' name :
  is_utf8 name = true → is_i64 (now + SESSION_TTL_SECS) → secret auth' = secret auth →
  verify_token auth' now' (issue_token auth now name) =
    if (now' <=? now + SESSION_TTL_SECS) && listed auth' name then Some name else None.
Proof.
  intros Hname Hnow Hsecret. set (expires := now + SESSION_TTL_SECS).
  assert (i64_add now SESSION_TTL_SECS = expires) as Hadd.
  { unfold i64_add. rewrite Z.mod_small; [lia|]. unfold is_i64, i64_min, i64_max in Hnow. lia. }
  unfold verify_token, issue_token. rewrite Hadd, b64_roundtrip. cbn [mbind option_bind].
  set (sig := sign auth (payload name expires)).
  assert (from_utf8 (payload name expires +:+ "|" +:+ sig) = Some (payload name expires +:+ String "|" sig)) as ->.
  { unfold payload. rewrite !append_assoc. apply from_utf8_app; [done|].
    rewrite !every_app, i64_text_ascii. unfold sig. cbn [every]. by rewrite sign_ascii. }
  cbn [mbind option_bind]. rewrite rsplit_once_app by apply sign_lacks. cbn [mbind option_bind].
  unfold sig, sign. rewrite Hsecret, String.eqb_refl. cbn [negb]. rewrite payload_split. cbn [mbind option_bind].
  rewrite parse_i64_text by done. cbn [mbind option_bind].
  destruct (Z.ltb_spec expires now') as [?|?], (Z.leb_spec now' expires) as [?|?]; try lia; [done|].
  by destruct (listed auth' name).
Qed.

(** ** Logins *)

(** A login attempt: when, and the form. *)
Record Login := mkLogin { l_time : Z; l_name : string; l_password : string; l_next : option string }.

(** Whom an attempt logged in. *)
Definition logged_in `{Crypto} (auth : AuthState) (l : Login) : option string :=
  verify_password auth (l_name l) (l_password l).

(** The payloads the server signed in answering the attempts. *)
Definition signed `{Crypto} (auth : AuthState) (logins : list Login) : list string :=
  omap (λ l, (λ name, payload name (i64_add (l_time l) SESSION_TTL_SECS)) <$> logged_in auth l) logins.

Lemma verify_token_Some `{Crypto} auth now token u :
  verify_token auth now token = Some u →
  ∃ text expires, let p := u +:+ String "|" text in
    b64_decode token = Some (p +:+ String "|" (sign auth p)) ∧ lacks "|" text = true ∧
    parse_i64 text = Some expires ∧ now <= expires ∧ listed auth u = true.
Proof.
  unfold verify_token. intros Hv.
  destruct (b64_decode token) as [bytes|]; [|done]. cbn [mbind option_bind] in Hv.
  unfold from_utf8 in Hv. destruct (is_utf8 bytes); [|done]. cbn [mbind option_bind] in Hv.
  destruct (rsplit_once "|" bytes) as [[p sig]|] eqn:Hraw; [|done]. cbn [mbind option_bind] in Hv.
  apply rsplit_once_Some in Hraw as [-> _].
  destruct (String.eqb_spec (sign auth p) sig) as [Hsig|]; [|done]. subst sig. cbn [negb] in Hv.
  destruct (rsplit_once "|" p) as [[name text]|] eqn:Hp; [|done]. cbn [mbind option_bind] in Hv.
  apply rsplit_once_Some in Hp as [-> Htext].
  destruct (parse_i64 text) as [expires|] eqn:Hexp; [|done]. cbn [mbind option_bind] in Hv.
  destruct (Z.ltb_spec expires now); [done|]. destruct (listed auth name) eqn:Hl; [|done].
  injection Hv as <-. by exists text, expires.
Qed.

(** C29: A request is let in only for a user on the allowlist, with a cookie whose payload carries a signature
    under the server's secret; and if the server signed that payload, then the user logged in with the
    right password and the session's time since then has not passed. *)
Theorem session_lifetime `{CryptoLaws} auth auth' logins now cookie path query u :
  Forall (λ l, is_i64 (l_time l + SESSION_TTL_SECS)) logins →
  from_request_parts auth' now cookie path query = inl u →
  listed auth' u = true ∧
  ∃ token p, cookie = Some token ∧ b64_decode token = Some (p +:+ "|" +:+ sign auth' p) ∧
    (p ∈ signed auth logins →
     ∃ l, l ∈ logins ∧ logged_in auth l = Some u ∧ now <= l_time l + SESSION_TTL_SECS).
Proof.
  intros Htimes Hreq. unfold from_request_parts in Hreq.
  destruct cookie as [token|]; [|done]. cbn [mbind option_bind] in Hreq.
  destruct (verify_token auth' now token) as [name|] eqn:Hv; [|done]. injection Hreq as ->.
  apply verify_token_Some in Hv as (text & expires & Htoken & Hlacks & Hparse & Hnow & Hlisted).
  split; [done|]. exists token, (u +:+ String "|" text). split_and!; [done..|].
  intros (l & Hl & Hsigned)%list_elem_of_omap. exists l. split; [done|].
  destruct (logged_in auth l) as [name|]; [|done]. cbn in Hsigned. injection Hsigned as Hsigned.
  pose proof (payload_split name (i64_add (l_time l) SESSION_TTL_SECS)) as Hsplit.
  rewrite Hsigned, (rsplit_once_app "|" u text Hlacks) in Hsplit. injection Hsplit as -> ->.
  split; [done|]. rewrite Forall_forall in Htimes. specialize (Htimes l Hl). cbn in Htimes.
  assert (i64_add (l_time l) SESSION_TTL_SECS = l_time l + SESSION_TTL_SECS) as Hadd.
  { unfold i64_add. rewrite Z.mod_small; unfold is_i64, i64_min, i64_max in Htimes; lia. }
  rewrite Hadd, parse_i64_text in Hparse by done. by injection Hparse as <-.
Qed.

(** A login leads to a path whose second character is not a slash, but a backslash passes, which browsers
    read as one. *)
Example backslash_passes : sanitize_next (Some "/\evil.example"%string) = "/\evil.example"%string.
Proof. reflexivity. Qed.
Example slashes_refused : sanitize_next (Some "//evil.example"%string) = "/"%string.
Proof. reflexivity. Qed.

(** ** Witnesses *)

(** Base64 that keeps its text, a MAC that is the key's length, and passwords stored as they are. *)
#[export] Instance sample_crypto : Crypto := {|
  hmac_sha256 key msg := [Z.of_nat (String.length key) mod 256];
  b64_encode s := s;
  b64_decode s := Some s;
  bcrypt_verify password hash := Some (password =? hash)%string
|}.
#[export] Instance sample_crypto_laws : CryptoLaws.
Proof.
  split; [done|]. intros key msg. constructor; [|done]. unfold is_byte.
  pose proof (Z.mod_pos_bound (Z.of_nat (String.length key)) 256). lia.
Qed.
Definition sample_auth : AuthState := mkAuth [mkUser "a|b" "pw"] "key".

Lemma token_accepted_iff_witness :
  verify_token sample_auth 1000 (issue_token sample_auth 1000 "a|b") = Some "a|b"%string ∧
  verify_token sample_auth 605801 (issue_token sample_auth 1000 "a|b") = None.
Proof.
  split.
  - rewrite (token_accepted_iff sample_auth sample_auth); [reflexivity|reflexivity| |reflexivity].
    split; vm_compute; discriminate.
  - rewrite (token_accepted_iff sample_auth sample_auth); [reflexivity|reflexivity| |reflexivity].
    split; vm_compute; discriminate.
Defined.

Lemma session_lifetime_witness :
  let login := mkLogin 1000 "a|b" "pw" None in
  ∃ cookie, login_post sample_auth 1000 "a|b" "pw" None = RedirectTo "/" (session_cookie cookie) ∧
    from_request_parts sample_auth 2000 (Some cookie) "/" None = inl "a|b"%string ∧
    listed sample_auth "a|b" = true ∧ 2000 <= l_time login + SESSION_TTL_SECS.
Proof.
  intros login. exists (issue_token sample_auth 1000 "a|b").
  assert (from_request_parts sample_auth 2000 (Some (issue_token sample_auth 1000 "a|b")) "/" None =
    inl "a|b"%string) as Hreq by (vm_compute; reflexivity).
  assert (Forall (λ l, is_i64 (l_time l + SESSION_TTL_SECS)) [login]) as Htimes.
  { constructor; [|constructor]. split; vm_compute; discriminate. }
  destruct (session_lifetime sample_auth sample_auth _ _ _ _ _ _ Htimes Hreq)
    as (Hlisted & token & p & Htoken & Hdecode & Hsigned).
  split_and!; [reflexivity|exact Hreq|exact Hlisted|]. injection Htoken as <-.
  assert (p ∈ signed sample_auth [login]) as Hin.
  { assert (p = payload "a|b" (1000 + SESSION_TTL_SECS)) as ->; [|by left].
    assert (rsplit_once "|" (p +:+ String "|" (sign sample_auth p)) = Some (p, sign sample_auth p)) as Hp
      by (apply rsplit_once_app, sign_lacks).
    injection Hdecode as Hdecode.
    change (p +:+ "|" +:+ sign sample_auth p) with (p +:+ String "|" (sign sample_auth p)) in Hdecode.
    rewrite <-Hdecode in Hp. vm_compute in Hp. vm_compute. congruence. }
  destruct (Hsigned Hin) as (l & Hl & _ & Htime). apply list_elem_of_singleton in Hl. by subst l.
Defined.
