(* ===== verification/Refresher.v ===== *)
(** * Prices and periodic refreshes

    [crates/indexer-service/src/refresher.rs]: the ETH price of the day, the backfill of the days that
    have none, the initial pass of the refresher, and what its resolver refresh is given. HTTP, the
    price table and the rollups are operations of classes; the timers of the loops are left out. A day
    is a number of days since 1970-01-01. *)

From Stdlib Require Import SpecFloat Strings.Ascii.
From S2P Require Import Prelude.
From S2P Require Import Types.
From S2P Require Import Encoding.
From S2P Require Import Resolver.
From S2P Require Import Labeler.
From S2P Require Import Auth.

(** A reqwest client with a timeout and the user agent, a response that is no HTTP error, and its
    JSON. *)
Class PriceApi (W : Type) := {
  HttpClient : Type;
  HttpResponse : Type;
  build_client : Z → string → Eff string W HttpClient;
  get_ok : HttpClient → string → Eff string W HttpResponse;
  (** [CoingeckoResp] and [MarketChartRange]. *)
  json_usd : HttpResponse → Eff string W spec_float;
  json_prices : HttpResponse → Eff string W (list (spec_float * spec_float));
  utc_today : W → Z * W
}.

(** [BigDecimal], and its reading of a price printed with eight decimals. *)
Class Decimals := {
  BigDecimal : Type;
  decimal_zero : BigDecimal;
  decimal_of_price : spec_float → option BigDecimal
}.

(** The statements on [eth_prices], and the refresh of the materialized views. *)
Class PriceStore (W : Type) `{Decimals} := {
  upsert_eth_price : Z → BigDecimal → Eff string W unit;
  list_eth_price_days : Eff string W (list Z);
  refresh_rollups : Eff string W unit
}.

Inductive PriceError :=
  | PPriceUrlEmpty                   (* "price_url is empty" *)
  | PBaseUrlEmpty                    (* "coingecko_base_url is empty" *)
  | PDaysInverted (from_day to_day : Z) (* "from_day {from_day} is after to_day {to_day}" *)
  | PClient (why : string)
  | PFetch (why : string)
  | PJson (why : string)
  | PUpsert (why : string)           (* "upsert_eth_price failed: {e}" *)
  | PStore (why : string).

Definition COINGECKO_USER_AGENT : string :=
  "Mozilla/5.0 (X11; Linux x86_64) AppleWebKit/537.36 (KHTML, like Gecko) Chrome/124.0 Safari/537.36".

(** ** Times *)

(** [f64 as i64]: towards zero, saturating, zero for NaN. *)
Definition i64_min : Z := - 2 ^ 63.
Definition i64_max : Z := 2 ^ 63 - 1.
Definition clamp_i64 (z : Z) : Z := Z.max i64_min (Z.min i64_max z).
Definition f64_as_i64 (f : spec_float) : Z :=
  match f with
  | S754_zero _ => 0
  | S754_nan => 0
  | S754_infinity negative => if (negative : bool) then i64_min else i64_max
  | S754_finite negative m e =>
      let magnitude := if 0 <=? e then Z.pos m * 2 ^ e else Z.pos m / 2 ^ (- e) in
      clamp_i64 (if (negative : bool) then - magnitude else magnitude)
  end.

(** [Utc.timestamp_opt(secs, 0).single()] and its [date_naive]: within chrono's years. *)
Definition chrono_min : Z := -8334601228800.
Definition chrono_max : Z := 8210266876799.
Definition day_of_timestamp (secs : Z) : option Z :=
  if (chrono_min <=? secs) && (secs <=? chrono_max) then Some (secs / 86400) else None.

Definition f64_1000 : spec_float := f64_of_u64 1000.

(** The day of a sample's time in milliseconds. *)
Definition sample_day (ts_ms : spec_float) : option Z :=
  day_of_timestamp (f64_as_i64 (f64_div ts_ms f64_1000)).

(** [and_hms_opt(0, 0, 0)] and [and_hms_opt(23, 59, 59)], as timestamps. *)
Definition day_start (day : Z) : Z := day * 86400.
Definition day_end (day : Z) : Z := day * 86400 + 86399.

(** [trim_end_matches('/')]. *)
Fixpoint trim_end_slashes (s : string) : string :=
  match s with
  | String c s' =>
      match trim_end_slashes s' with
      | EmptyString => if Ascii.eqb c "/"%char then EmptyString else String c EmptyString
      | t => String c t
      end
  | EmptyString => EmptyString
  end.

Definition chart_url (coingecko_base_url : string) (from_day to_day : Z) : string :=
  trim_end_slashes coingecko_base_url +:+ "/coins/ethereum/market_chart/range?vs_currency=usd&from=" +:+
  i64_text (day_start from_day) +:+ "&to=" +:+ i64_text (day_end to_day).

(** The first sample of each day. *)
Definition bucket_by_day (prices : list (spec_float * spec_float)) : gmap Z spec_float :=
  fold_left (λ by_day p,
    match sample_day p.1 with
    | Some day => or_insert day p.2 by_day
    | None => by_day
    end) prices ∅.

(** ** Prices *)

Record BackfillOutcome := mkBackfill {
  days_inserted : Z;
  days_skipped : Z;
  min_day : option Z;
  max_day : option Z
}.

Section prices.
Context {W : Type} `{PriceApi W, PriceStore W}.

(** [BigDecimal::from_str(&format!("{:.8}", price)).unwrap_or(0)]. *)
Definition price_decimal (price : spec_float) : BigDecimal :=
  default decimal_zero (decimal_of_price price).

Definition refresh_eth_price_now (price_url : string) : Eff PriceError W BigDecimal :=
  _ ← eff_res (bail_if (price_url =? "")%string PPriceUrlEmpty);
  client ← eff_map_err PClient (build_client 10 COINGECKO_USER_AGENT);
  resp ← eff_map_err PFetch (get_ok client price_url);
  usd ← eff_map_err PJson (json_usd resp);
  let price := price_decimal usd in
  day ← eff_total utc_today;
  _ ← eff_map_err PUpsert (upsert_eth_price day price);
  mret price.

Definition refresh_eth_price {E} (price_url : string) : Eff E W unit :=
  if (price_url =? "")%string then mret tt else ignore (refresh_eth_price_now price_url).

(** One day of the loop of [backfill_eth_prices_now]. *)
Definition backfill_day (from_day to_day : Z) (existing : gset Z) (acc : BackfillOutcome)
  (p : Z * spec_float) : Eff PriceError W BackfillOutcome :=
  let '(day, price) := p in
  if (day <? from_day) || (to_day <? day) then mret acc
  else if bool_decide (day ∈ existing) then
    mret (mkBackfill (days_inserted acc) (days_skipped acc + 1) (min_day acc) (max_day acc))
  else
    _ ← eff_map_err PStore (upsert_eth_price day (price_decimal price));
    mret (mkBackfill (days_inserted acc + 1) (days_skipped acc)
            (Some (match min_day acc with Some d => Z.min d day | None => day end))
            (Some (match max_day acc with Some d => Z.max d day | None => day end))).

Fixpoint backfill_days (from_day to_day : Z) (existing : gset Z) (days : list (Z * spec_float))
  (acc : BackfillOutcome) : Eff PriceError W BackfillOutcome :=
  match days with
  | [] => mret acc
  | p :: days =>
      acc ← backfill_day from_day to_day existing acc p;
      backfill_days from_day to_day existing days acc
  end.

Definition backfill_eth_prices_now (coingecko_base_url : string) (from_day to_day : Z)
  : Eff PriceError W BackfillOutcome :=
  _ ← eff_res (bail_if (to_day <? from_day) (PDaysInverted from_day to_day));
  _ ← eff_res (bail_if (coingecko_base_url =? "")%string PBaseUrlEmpty);
  client ← eff_map_err PClient (build_client 30 COINGECKO_USER_AGENT);
  resp ← eff_map_err PFetch (get_ok client (chart_url coingecko_base_url from_day to_day));
  prices ← eff_map_err PJson (json_prices resp);
  let by_day := bucket_by_day prices in
  existing ← eff_map_err PStore list_eth_price_days;
  backfill_days from_day to_day (list_to_set existing) (map_items by_day) (mkBackfill 0 0 None None).
End prices.

(** ** The refresher *)

(** The fields of [CommonConfig] it reads. *)
Record RefreshConfig := mkRefreshConfig {
  rfc_defillama_url : string;
  rfc_overlay_path : string;
  rfc_price_url : string
}.

Section refresher.
Context {W : Type} `{Externals, Strings, Sources W, Store W, PriceApi W, PriceStore W}.
(** [Path::exists]. *)
Variable path_exists : string → bool.

Definition refresh_resolver_into_store {E} (common : RefreshConfig) : Eff E (ResolverWorld W) unit :=
  let defillama :=
    if (rfc_defillama_url common =? "")%string then None else Some (rfc_defillama_url common) in
  let overlay_path :=
    if path_exists (rfc_overlay_path common) then Some (rfc_overlay_path common) else None in
  ignore (refresh_resolver_with overlay_path defillama).

(** The pass of [run] before its loops; each loop repeats one of the three on a timer. *)
Definition initial_pass {E} (common : RefreshConfig) : Eff E (ResolverWorld W) unit :=
  _ ← refresh_resolver_into_store common;
  _ ← on_store (refresh_eth_price (rfc_price_url common));
  on_store (ignore refresh_rollups).
End refresher.
