(* ===== verification/RefresherSpec.v ===== *)
(** * Properties of the price backfill

    The backfill keeps every price there is, writes only missing days of its window, and, when it
    succeeds, leaves each of them the first sample of the day; what it reports of them is true. *)

From Stdlib Require Import SpecFloat.
From S2P Require Import Prelude.
From S2P Require Import Types.
From S2P Require Import Encoding.
From S2P Require Import Effects.
From S2P Require Import Resolver.
From S2P Require Import Labeler.
From S2P Require Import Refresher.

(** The price table behind the statements: an upsert that succeeds sets a day, one that fails nothing;
    nothing else writes to it. *)
Class PriceLaws (W : Type) `{PriceApi W, PriceStore W} := {
  eth_prices : W → gmap Z BigDecimal;
  upsert_eth_price_law day price w r w' :
    upsert_eth_price day (price_decimal price) w = (r, w') →
    eth_prices w' = match r with Ok _ => <[day := price_decimal price]> (eth_prices w) | _ => eth_prices w end;
  list_eth_price_days_law w r w' :
    list_eth_price_days w = (r, w') →
    eth_prices w' = eth_prices w ∧
    res_sat (λ days, ∀ d, d ∈ days ↔ is_Some (eth_prices w !! d)) (λ _, True) r;
  build_client_law secs agent w r w' : build_client secs agent w = (r, w') → eth_prices w' = eth_prices w;
  get_ok_law client url w r w' : get_ok client url w = (r, w') → eth_prices w' = eth_prices w;
  json_prices_law resp w r w' : json_prices resp w = (r, w') → eth_prices w' = eth_prices w
}.

(** ** Specification *)

(** The first sample of a day. *)
Definition first_of_day (d : Z) (prices : list (spec_float * spec_float)) : option spec_float :=
  snd <$> head (List.filter (λ p, bool_decide (sample_day p.1 = Some d)) prices).

(** The days of a window a table lacks. *)
Definition missing (from_day to_day : Z) (existing : gset Z) (p : Z * spec_float) : bool :=
  (from_day <=? p.1) && (p.1 <=? to_day) && negb (bool_decide (p.1 ∈ existing)).
Definition present (from_day to_day : Z) (existing : gset Z) (p : Z * spec_float) : bool :=
  (from_day <=? p.1) && (p.1 <=? to_day) && bool_decide (p.1 ∈ existing).

(** ** Lemmas *)

Lemma bucket_by_day_lookup prices d : bucket_by_day prices !! d = first_of_day d prices.
Proof.
  unfold bucket_by_day, first_of_day.
  assert (Hgen : ∀ m : gmap Z spec_float,
    fold_left (λ by_day p, match sample_day p.1 with
      | Some day => or_insert day p.2 by_day | None => by_day end) prices m !! d =
    match m !! d with
    | Some v => Some v
    | None => snd <$> head (List.filter (λ p, bool_decide (sample_day p.1 = Some d)) prices)
    end).
  { induction prices as [|p prices IH]; intros m; [cbn; by destruct (m !! d)|].
    cbn [fold_left List.filter]. rewrite IH. destruct (sample_day p.1) as [day|] eqn:Hday.
    - unfold or_insert. destruct (decide (day = d)) as [->|Hne].
      + rewrite (bool_decide_eq_true_2 (Some d = Some d)) by done.
        destruct (m !! d) as [v|] eqn:Hm; [by rewrite Hm|by rewrite lookup_insert_eq].
      + rewrite (bool_decide_eq_false_2 (Some day = Some d)) by congruence.
        destruct (m !! day); [done|by rewrite lookup_insert_ne].
    - by rewrite (bool_decide_eq_false_2 (None = Some d)). }
  by rewrite Hgen, lookup_empty.
Qed.

(** The days reported: the least and the greatest of those inserted. *)
Definition least (m : option Z) (d : Z) : option Z := Some (match m with Some e => Z.min e d | None => d end).
Definition greatest (m : option Z) (d : Z) : option Z := Some (match m with Some e => Z.max e d | None => d end).

Lemma fold_least_sorted l : StronglySorted Z.lt l → fold_left least l None = head l.
Proof.
  destruct l as [|x l]; [done|]. intros Hs. apply StronglySorted_inv in Hs as [Hs Hall]. cbn.
  assert (Hgen : ∀ l, Forall (Z.lt x) l → fold_left least l (Some x) = Some x).
  { clear. intros l Hl. induction Hl as [|y l Hy Hl IH]; [done|]. cbn.
    change (least (Some x) y) with (Some (Z.min x y)). by rewrite Z.min_l by lia. }
  by apply Hgen.
Qed.

Lemma fold_greatest_sorted l : StronglySorted Z.lt l → fold_left greatest l None = last l.
Proof.
  intros Hs. induction l as [|y l _] using rev_ind; [done|]. rewrite fold_left_app, last_snoc. cbn.
  assert (Hgen : ∀ k m, StronglySorted Z.lt (k ++ [y]) →
    match m with Some e => e < y | None => True end →
    match fold_left greatest k m with Some e => e < y | None => True end).
  { clear. intros k. induction k as [|x k IH]; intros m Hs Hm; [exact Hm|]. cbn.
    apply StronglySorted_inv in Hs as [Hs Hall]. apply IH; [exact Hs|].
    apply Forall_app in Hall as [_ Hy%Forall_inv]. unfold greatest. destruct m; lia. }
  specialize (Hgen l None Hs I). destruct (fold_left greatest l None) as [e|]; [|done].
  unfold greatest. f_equal. lia.
Qed.

Section backfill.
Context {W : Type} `{PriceLaws W}.
Variables (from_day to_day : Z) (existing : gset Z).

Abbreviation todo := (List.filter (missing from_day to_day existing)).
Abbreviation skipped := (List.filter (present from_day to_day existing)).

Definition store_days (days : list (Z * spec_float)) (m : gmap Z BigDecimal) : gmap Z BigDecimal :=
  fold_left (λ m p, <[p.1 := price_decimal p.2]> m) days m.

(** One day, whatever becomes of it. *)
Lemma backfill_day_run acc p w r w' :
  backfill_day from_day to_day existing acc p w = (r, w') →
  (fails r ∧ eth_prices w' = eth_prices w) ∨
  ∃ out, r = Ok out ∧ eth_prices w' = store_days (todo [p]) (eth_prices w) ∧
    days_inserted out = days_inserted acc + zlen (todo [p]) ∧
    days_skipped out = days_skipped acc + zlen (skipped [p]) ∧
    min_day out = fold_left least (todo [p]).*1 (min_day acc) ∧
    max_day out = fold_left greatest (todo [p]).*1 (max_day acc).
Proof.
  destruct p as [day price]. unfold backfill_day. cbn [List.filter]. unfold missing, present. cbn [fst snd].
  destruct (Z.ltb_spec day from_day) as [Hlt|Hge]; cbn [orb].
  { rewrite (proj2 (Z.leb_gt from_day day)) by lia. cbn [andb]. intros [= <- <-]. right. exists acc.
    cbn. rewrite !Z.add_0_r. done. }
  rewrite (proj2 (Z.leb_le from_day day)) by lia. cbn [andb].
  destruct (Z.ltb_spec to_day day) as [Hgt|Hle]; cbn [orb].
  { rewrite (proj2 (Z.leb_gt day to_day)) by lia. cbn [andb]. intros [= <- <-]. right. exists acc.
    cbn. rewrite !Z.add_0_r. done. }
  rewrite (proj2 (Z.leb_le day to_day)) by lia. cbn [andb].
  destruct (bool_decide (day ∈ existing)) eqn:Hin; cbn [negb].
  { intros [= <- <-]. right. eexists. split; [done|]. cbn. by rewrite Z.add_0_r. }
  intros Hrun. apply eff_bind_run in Hrun as [([] & w1 & Hu & Hrun)|(r0 & Hu & Hf & Hr)].
  - apply eff_map_err_Ok, upsert_eth_price_law in Hu. injection Hrun as <- <-. right. eexists.
    split; [done|]. cbn. by rewrite Z.add_0_r.
  - apply eff_map_err_run in Hu as (r1 & Hu & ->). apply upsert_eth_price_law in Hu.
    apply map_err_fails in Hf. left. split; [done|]. by destruct r1.
Qed.

Lemma filter_cons_app {A} (f : A → bool) p l : List.filter f (p :: l) = List.filter f [p] ++ List.filter f l.
Proof. cbn. by destruct (f p). Qed.

(** The loop: where it ends it has stored the missing days, where it fails some first ones of them. *)
Lemma backfill_days_run days acc w r w' :
  backfill_days from_day to_day existing days acc w = (r, w') →
  (fails r ∧ ∃ n, eth_prices w' = store_days (take n (todo days)) (eth_prices w)) ∨
  ∃ out, r = Ok out ∧ eth_prices w' = store_days (todo days) (eth_prices w) ∧
    days_inserted out = days_inserted acc + zlen (todo days) ∧
    days_skipped out = days_skipped acc + zlen (skipped days) ∧
    min_day out = fold_left least (todo days).*1 (min_day acc) ∧
    max_day out = fold_left greatest (todo days).*1 (max_day acc).
Proof.
  revert acc w. induction days as [|p days IH]; intros acc w; cbn [backfill_days].
  { intros [= <- <-]. right. exists acc. cbn. by rewrite !Z.add_0_r. }
  rewrite (filter_cons_app (missing _ _ _) p days), (filter_cons_app (present _ _ _) p days). intros Hrun.
  apply eff_bind_run in Hrun as [(acc1 & w1 & Hp & Hrun)|(r0 & Hp & Hf & Hr)].
  - apply backfill_day_run in Hp as [[[] _]|(out & [= <-] & He & Hi & Hsk & Hmin & Hmax)].
    apply IH in Hrun as [[Hf [n Hn]]|(out & -> & He' & Hi' & Hsk' & Hmin' & Hmax')].
    + left. split; [done|]. exists (length (todo [p]) + n)%nat.
      rewrite take_app_add', Hn, He by done. unfold store_days. by rewrite fold_left_app.
    + right. exists out. rewrite !fmap_app, !fold_left_app, !zlen_app, <-Hmin, <-Hmax.
      split; [done|]. split; [unfold store_days in *; by rewrite fold_left_app, He', He|].
      split; [lia|]. split; [lia|]. done.
  - apply backfill_day_run in Hp as [[_ He]|(out & -> & _)]; [|done]. left. split; [done|].
    exists 0%nat. exact He.
Qed.

Lemma store_days_lookup days m d :
  NoDup days.*1 →
  store_days days m !! d =
  match (list_to_map days : gmap Z spec_float) !! d with
  | Some p => Some (price_decimal p)
  | None => m !! d
  end.
Proof.
  unfold store_days. revert m. induction days as [|[k p] days IH]; intros m Hnd; cbn [fold_left].
  { cbn. by rewrite lookup_empty. }
  cbn in Hnd. apply NoDup_cons in Hnd as [Hk Hnd]. rewrite IH by done. cbn [list_to_map foldr fst snd].
  destruct (decide (k = d)) as [->|Hne].
  - rewrite lookup_insert_eq. apply not_elem_of_list_to_map_1 in Hk.
    cbn. rewrite Hk. by rewrite lookup_insert_eq.
  - by rewrite !lookup_insert_ne.
Qed.

Lemma filter_keys_sorted f (days : list (Z * spec_float)) :
  StronglySorted Z.lt days.*1 → StronglySorted Z.lt (List.filter f days).*1.
Proof.
  induction days as [|p days IH]; cbn; [done|]. intros [Hs Hall]%StronglySorted_inv.
  destruct (f p); cbn; [|by apply IH]. constructor; [by apply IH|].
  apply Forall_forall. intros x (q & -> & Hq)%list_elem_of_fmap. rewrite Forall_forall in Hall.
  apply Hall. apply list_elem_of_fmap. exists q. split; [done|].
  rewrite list_elem_of_In, filter_In in Hq. by apply list_elem_of_In, Hq.
Qed.

(** The missing days of a bucketed chart. *)
Lemma todo_elem by_day d p :
  (d, p) ∈ todo (map_items by_day) ↔
  by_day !! d = Some p ∧ from_day <= d <= to_day ∧ d ∉ existing.
Proof.
  rewrite list_elem_of_In, filter_In, <-list_elem_of_In, elem_of_map_items. unfold missing; cbn [fst].
  rewrite !andb_true_iff, negb_true_iff, bool_decide_eq_false, !Z.leb_le. tauto.
Qed.

Lemma todo_sorted by_day : StronglySorted Z.lt (todo (map_items by_day)).*1.
Proof. apply filter_keys_sorted, map_items_sorted. Qed.

Lemma stored_lookup by_day n m d :
  store_days (take n (todo (map_items by_day))) m !! d ≠ m !! d → from_day <= d <= to_day ∧ d ∉ existing.
Proof.
  assert (NoDup (take n (todo (map_items by_day))).*1) as Hnd.
  { rewrite fmap_take. eapply sublist_NoDup; [exact (sorted_NoDup _ _ Z.lt_irrefl (todo_sorted by_day))|apply sublist_take]. }
  rewrite store_days_lookup by done.
  destruct (list_to_map (take n _) !! d) as [p|] eqn:Hd; [|done]. intros _.
  apply elem_of_list_to_map in Hd; [|done].
  assert ((d, p) ∈ todo (map_items by_day)) as Hin by (rewrite <-(take_drop n (todo (map_items by_day))); apply elem_of_app; by left).
  apply todo_elem in Hin. tauto.
Qed.
End backfill.

(** the backfill never changes a price there is, and adds none outside its window, whether it succeeds
    or fails halfway; when it succeeds, every day of the window that had no price has that of the chart's
    first sample of the day, if any, and what it reports is the number of the days added and the first
    and the last of them. *)
Theorem backfill_eth_prices_spec {W} `{PriceLaws W} base from_day to_day w r w' :
  backfill_eth_prices_now base from_day to_day w = (r, w') →
  (∀ d, eth_prices w' !! d ≠ eth_prices w !! d →
    eth_prices w !! d = None ∧ from_day <= d <= to_day) ∧
  ∀ out, r = Ok out →
    ∃ resp w1 prices w2 added,
      json_prices resp w1 = (Ok prices, w2) ∧
      (∀ d, from_day <= d <= to_day →
        eth_prices w' !! d = match eth_prices w !! d with
          | Some p => Some p
          | None => price_decimal <$> first_of_day d prices
          end) ∧
      StronglySorted Z.lt added ∧
      (∀ d, d ∈ added ↔ eth_prices w !! d = None ∧ is_Some (eth_prices w' !! d)) ∧
      days_inserted out = zlen added ∧ min_day out = head added ∧ max_day out = last added.
Proof.
  unfold backfill_eth_prices_now. intros Hrun.
  (* an early failure leaves the prices *)
  assert (Hquiet : ∀ w1, eth_prices w1 = eth_prices w → fails r →
    (∀ d, eth_prices w1 !! d ≠ eth_prices w !! d → eth_prices w !! d = None ∧ from_day <= d <= to_day) ∧
    ∀ out, r = Ok out → False).
  { intros w1 -> Hf. split; [done|]. by intros out ->. }
  apply eff_bind_run in Hrun as [(u1 & w1 & Hb1 & Hrun)|(r0 & Hb1 & _ & Hf)].
  2: { injection Hb1 as _ ->. destruct (Hquiet w' eq_refl Hf) as [? Hno]. split; [done|]. intros out Ho. by destruct (Hno out Ho). }
  apply eff_res_Ok in Hb1 as [_ ->].
  apply eff_bind_run in Hrun as [(u2 & w2 & Hb2 & Hrun)|(r0 & Hb2 & _ & Hf)].
  2: { injection Hb2 as _ ->. destruct (Hquiet w' eq_refl Hf) as [? Hno]. split; [done|]. intros out Ho. by destruct (Hno out Ho). }
  apply eff_res_Ok in Hb2 as [_ ->].
  apply eff_bind_run in Hrun as [(client & w3 & Hc & Hrun)|(r0 & Hc & _ & Hf)];
    apply eff_map_err_run in Hc as (rc & Hc & _); apply build_client_law in Hc.
  2: { destruct (Hquiet w' Hc Hf) as [? Hno]. split; [done|]. intros out Ho. by destruct (Hno out Ho). }
  apply eff_bind_run in Hrun as [(resp & w4 & Hg & Hrun)|(r0 & Hg & _ & Hf)];
    apply eff_map_err_run in Hg as (rg & Hg & _); apply get_ok_law in Hg; rewrite Hc in Hg.
  2: { destruct (Hquiet w' Hg Hf) as [? Hno]. split; [done|]. intros out Ho. by destruct (Hno out Ho). }
  apply eff_bind_run in Hrun as [(prices & w5 & Hj & Hrun)|(r0 & Hj & _ & Hf)].
  2: { apply eff_map_err_run in Hj as (rj & Hj & _). apply json_prices_law in Hj. rewrite Hg in Hj.
       destruct (Hquiet w' Hj Hf) as [? Hno]. split; [done|]. intros out Ho. by destruct (Hno out Ho). }
  apply eff_map_err_Ok in Hj. pose proof (json_prices_law _ _ _ _ Hj) as Hj'. rewrite Hg in Hj'.
  apply eff_bind_run in Hrun as [(days & w6 & Hl & Hrun)|(r0 & Hl & _ & Hf)].
  2: { apply eff_map_err_run in Hl as (rl & Hl & _). apply list_eth_price_days_law in Hl as [Hl _].
       rewrite Hj' in Hl. destruct (Hquiet w' Hl Hf) as [? Hno]. split; [done|]. intros out Ho. by destruct (Hno out Ho). }
  apply eff_map_err_Ok, list_eth_price_days_law in Hl as [Hl Hdays]. cbn in Hdays. rewrite Hj' in Hl, Hdays.
  assert (Hex : ∀ d, d ∈ (list_to_set days : gset Z) ↔ is_Some (eth_prices w !! d)).
  { intros d. by rewrite elem_of_list_to_set. }
  assert (Hnone : ∀ d, d ∉ (list_to_set days : gset Z) ↔ eth_prices w !! d = None).
  { intros d. by rewrite Hex, eq_None_not_Some. }
  apply backfill_days_run in Hrun as [[Hf [n Hn]]|(out' & -> & He & Hi & _ & Hmin & Hmax)].
  - split; [|by intros out ->]. intros d. rewrite Hn, Hl. intros Hd%stored_lookup.
    rewrite Hnone in Hd. tauto.
  - rewrite Hl in He. set (todo := List.filter _ _) in *. split.
    + intros d. rewrite He. intros Hd. rewrite <-(firstn_all todo) in Hd.
      apply stored_lookup in Hd. rewrite Hnone in Hd. tauto.
    + intros out [= <-]. exists resp, w4, prices, w5, todo.*1.
      assert (Hs : StronglySorted Z.lt todo.*1) by apply todo_sorted.
      assert (Hnd : NoDup todo.*1) by by eapply sorted_NoDup; [exact Z.lt_irrefl|].
      split; [done|]. split; [|split; [done|split]].
      * intros d Hd. rewrite He, store_days_lookup by done.
        destruct (eth_prices w !! d) as [p|] eqn:Hp.
        -- destruct (list_to_map todo !! d) as [q|] eqn:Hq; [|done].
           apply elem_of_list_to_map, todo_elem in Hq as (_ & _ & Hq%Hnone); [congruence|done].
        -- rewrite <-bucket_by_day_lookup. destruct (bucket_by_day prices !! d) as [q|] eqn:Hq.
           ++ assert ((d, q) ∈ todo) as Hin by (apply todo_elem; rewrite Hnone; done).
              apply elem_of_list_to_map in Hin; [|done]. by rewrite Hin.
           ++ destruct (list_to_map todo !! d) as [q|] eqn:Hq'; [|done].
              apply elem_of_list_to_map, todo_elem in Hq' as (Hq' & _); [congruence|done].
      * intros d. rewrite He, store_days_lookup by done. split.
        -- intros ([k q] & -> & Hin)%list_elem_of_fmap. cbn.
           pose proof (proj1 (elem_of_list_to_map _ _ _ Hnd) Hin) as Hq. rewrite Hq.
           apply todo_elem in Hin as (_ & _ & Hin%Hnone). eauto.
        -- intros [Hp Hsome]. rewrite Hp in Hsome.
           destruct (list_to_map todo !! d) as [q|] eqn:Hq; [|by destruct Hsome].
           apply elem_of_list_to_map in Hq; [|done]. apply list_elem_of_fmap. by exists (d, q).
      * cbn in Hi, Hmin, Hmax. rewrite Hi, Hmin, Hmax, fold_least_sorted, fold_greatest_sorted by done.
        split_and!; try done. unfold zlen. by rewrite length_fmap.
Qed.

(** ** Witness *)

(** A table in memory, and a chart of three samples on two days. *)
#[local] Instance sample_decimals : Decimals :=
  {| BigDecimal := Z; decimal_zero := 0; decimal_of_price f := Some (f64_as_i64 f) |}.

#[local] Instance sample_price_api : PriceApi (gmap Z Z) := {|
  HttpClient := unit;
  HttpResponse := unit;
  build_client _ _ w := (Ok tt, w);
  get_ok _ _ w := (Ok tt, w);
  json_usd _ w := (Ok (f64_of_u64 2000), w);
  json_prices _ w :=
    (Ok [(f64_of_u64 86400000, f64_of_u64 10); (f64_of_u64 86400500, f64_of_u64 11);
         (f64_of_u64 172800000, f64_of_u64 20)], w);
  utc_today w := (3, w)
|}.

#[local] Instance sample_price_store : PriceStore (gmap Z Z) := {|
  upsert_eth_price day p w := (Ok tt, <[day := p]> w);
  list_eth_price_days w := (Ok (set_items (dom w)), w);
  refresh_rollups w := (Ok tt, w)
|}.

#[local] Instance sample_price_laws : PriceLaws (gmap Z Z).
Proof.
  refine (@Build_PriceLaws (gmap Z Z) _ _ _ (λ w, w) _ _ _ _ _).
  - by intros day p w r w' [= <- <-].
  - intros w r w' [= <- <-]. split; [done|]. intros d. cbn. by rewrite set_items_elem, elem_of_dom.
  - by intros secs agent w r w' [= <- <-].
  - by intros client url w r w' [= <- <-].
  - by intros resp w r w' [= <- <-].
Defined.

Lemma backfill_eth_prices_spec_witness :
  ∃ w', backfill_eth_prices_now "https://x/" 0 5 ({[2 := 7]} : gmap Z Z)
      = (Ok (mkBackfill 1 1 (Some 1) (Some 1)), w') ∧
    eth_prices w' !! 1 = Some 10 ∧ eth_prices w' !! 2 = Some 7 ∧
    ∀ d, eth_prices w' !! d ≠ ({[2 := 7]} : gmap Z Z) !! d → ({[2 := 7]} : gmap Z Z) !! d = None ∧ 0 <= d <= 5.
Proof.
  destruct (backfill_eth_prices_now "https://x/" 0 5 ({[2 := 7]} : gmap Z Z)) as [r w'] eqn:Hrun.
  exists w'. pose proof (proj1 (backfill_eth_prices_spec "https://x/" 0 5 _ r w' Hrun)) as Hkeep.
  vm_compute in Hrun. injection Hrun as <- <-. split_and!; try reflexivity. exact Hkeep.
Defined.
