(* ===== verification/Service.v ===== *)
(** * The service

    [crates/indexer-service/src/main.rs] and [config.rs], and the start and the loops of its three commands
    ([head_tracker.rs], [worker.rs], [refresher.rs], [labeler.rs], [fourbyte_resolver.rs]): a process, the
    rounds of its loops ([Jobs], [Labeler], [Refresher]), and how a round ends the process. The loops of a
    refresher run at once; here whole rounds follow each other in any order. When a round comes is not
    modelled but for the pauses that are computed, and neither are the limiter's waits. *)

From Stdlib Require Import SpecFloat.
From S2P Require Import Prelude.
From S2P Require Import Types.
From S2P Require Import Trace.
From S2P Require Import RateLimit.
From S2P Require Import Analyze.
From S2P Require Import Jobs.
From S2P Require Import Resolver.
From S2P Require Import Labeler.
From S2P Require Import Refresher.

(** ** Configuration ([config.rs]) *)

Record CommonConfig := mkCommon {
  cc_rpc_url : string;
  cc_chain_id : Z;
  cc_database_url : string;
  cc_redis_url : string;
  cc_rpc_rps_budget : Z;
  cc_rpc_burst : Z;
  cc_rpc_max_concurrency : Z;
  cc_min_gas_used : Z;
  cc_heuristic_only : bool;
  cc_overlay_path : string;
  cc_defillama_url : string;
  cc_price_url : string
}.
(** Without [RPC_URL] and [DATABASE_URL] the arguments are refused. *)
Definition common_default (rpc_url database_url : string) : CommonConfig :=
  mkCommon rpc_url 1 database_url "redis://127.0.0.1:6379" 100 25 8 50000 false "/etc/indexer/overlay.yaml"
    "https://api.llama.fi/protocols"
    "https://api.coingecko.com/api/v3/simple/price?ids=ethereum&vs_currencies=usd".

(** The polling interval only delays. *)
Definition head_tracker_default : HeadTrackerConfig := mkHeadTrackerConfig 1000 0.
Definition worker_default : WorkerConfig := mkWorkerConfig 3 60 3600.

Record RefresherConfig := mkRefresher {
  rc_resolver_refresh_secs : Z;
  rc_price_refresh_secs : Z;
  rc_rollup_refresh_secs : Z;
  rc_etherscan_api_key : string;
  rc_labeler_producer_interval_secs : Z;
  rc_labeler_batch_size : Z;
  rc_labeler_retry_days : Z;
  rc_labeler_min_delay_ms : Z;
  rc_known_names_path : string;
  rc_blockscout_url : string;
  rc_fourbyte_tick_secs : Z;
  rc_fourbyte_batch_size : Z;
  rc_fourbyte_per_req_delay_ms : Z
}.
Definition refresher_default : RefresherConfig :=
  mkRefresher 86400 3600 3600 "" 3600 200 7 600 "/etc/indexer/known_names.yaml" "" 3600 100 200.

Definition limiter_config (common : CommonConfig) : RateLimiterConfig :=
  mkRateLimiterConfig (cc_rpc_rps_budget common) (cc_rpc_burst common) (cc_rpc_max_concurrency common).
Definition analyzer_config (common : CommonConfig) : AnalyzerConfig :=
  mkAnalyzerConfig (cc_chain_id common) (cc_min_gas_used common) (cc_heuristic_only common).
Definition analyze_weight (common : CommonConfig) : Z :=
  if cc_heuristic_only common then HEURISTIC_ANALYZE_TX else ANALYZE_TX.
Definition refresh_config (common : CommonConfig) : RefreshConfig :=
  mkRefreshConfig (cc_defillama_url common) (cc_overlay_path common) (cc_price_url common).

(** ** What a start asks for *)

(** The connections of a process, by their addresses; Postgres by the size of its pool too. *)
Class Connections (W : Type) := {
  store_connect : string → Z → Eff string W unit;
  store_migrate : Eff string W unit;
  redis_connect : string → Eff string W unit
}.

(** The clients of the explorers and of 4byte, which may not be made, and the file of names, decoded, if
    there is one. *)
Class Clients (W : Type) := {
  etherscan_new : Eff ResolverError W unit;
  blockscout_new : string → Eff ResolverError W unit;
  fourbyte_new : Eff ResolverError W unit;
  read_names : string → Eff ResolverError W (option (list (string * string)))
}.

Inductive ServiceError :=
  | SEStore (why : string)
  | SEQueue (why : string)      (* "connect redis" *)
  | SETracker (e : TrackerError).

(** ** Processes *)

Inductive Command :=
  | HeadTracker (common : CommonConfig) (head : HeadTrackerConfig)
  | Worker (common : CommonConfig) (worker : WorkerConfig)
  | Refresher (common : CommonConfig) (refresher : RefresherConfig).

(** An enabled labeler: whether it has a client of Blockscout, and its dictionary. *)
Record Labeling := mkLabeling { lb_blockscout : bool; lb_names : gmap (list Z) string }.

(** What a process keeps between the rounds of its loops. *)
Inductive Process :=
  | PTracker (common : CommonConfig) (head : HeadTrackerConfig) (t : Tracker)
  | PWorker (common : CommonConfig) (worker : WorkerConfig) (names : ResolverSnapshot)
  | PRefresher (common : CommonConfig) (refresher : RefresherConfig) (names : ResolverSnapshot)
      (labeling : option Labeling) (fourbyte : bool).

(** The loops of a refresher. *)
Inductive Task := TResolver | TPrice | TRollups | TProducer | TConsumer | TFourByte.

Section service.
Context {W : Type} `{Externals, Strings, Unicode, Node W, Sketch W, QueueServer W, Sources W, Store W,
  SortedSet W, Explorers W, FourByte W, PriceApi W, PriceStore W, Connections W, Clients W}.
(** [Path::exists], and the store of a worker whose resolver has the given names. *)
Variables (path_exists : string → bool) (backend : ResolverSnapshot → Backend W).

Abbreviation Run A := (Eff ServiceError (ResolverWorld W) A).

Definition connected {A} (why : string → ServiceError) (m : Eff string W A) : Run A :=
  on_store (eff_map_err why m).

(** [head_tracker::run], up to its loop. *)
Definition start_tracker (common : CommonConfig) (head : HeadTrackerConfig) : Run Process :=
  _ ← connected SEQueue (redis_connect (cc_redis_url common));
  t ← on_store (eff_map_err SETracker tracker_start);
  mret (PTracker common head t).

(** The resolver's names, as they are. *)
Definition names : Run ResolverSnapshot := λ s, (Ok (rw_snapshot s), s).

(** [worker::run], up to its loop: the overlay is read once. *)
Definition start_worker (common : CommonConfig) (worker : WorkerConfig) : Run Process :=
  _ ← ignore (refresh (Some (cc_overlay_path common)) None);
  _ ← connected SEStore (store_connect (cc_database_url common) 8);
  _ ← connected SEStore store_migrate;
  _ ← connected SEQueue (redis_connect (cc_redis_url common));
  snapshot ← names;
  mret (PWorker common worker snapshot).

(** [NameDict::load]. *)
Definition load_dict (path : string) : Eff ResolverError W (gmap (list Z) string) :=
  entries ← read_names path; mret (load_names (default [] entries)).

(** [labeler::run], up to its loops: without a key, a client or Redis there is no labeler. *)
Definition start_labeler {E} (common : CommonConfig) (cfg : RefresherConfig) : Eff E W (option Labeling) :=
  if (rc_etherscan_api_key cfg =? "")%string then mret None
  else
    client ← eff_ok etherscan_new;
    match client with
    | None => mret None
    | Some _ =>
        blockscout ← (if (rc_blockscout_url cfg =? "")%string then mret None
                      else eff_ok (blockscout_new (rc_blockscout_url cfg)));
        dict ← eff_ok (load_dict (rc_known_names_path cfg));
        redis ← eff_ok (redis_connect (cc_redis_url common));
        mret match redis with
             | Some _ => Some (mkLabeling (bool_decide (is_Some blockscout)) (default ∅ dict))
             | None => None
             end
    end.

(** [fourbyte_resolver::run], up to its loop. *)
Definition start_fourbyte {E} : Eff E W bool := client ← eff_ok fourbyte_new; mret (bool_decide (is_Some client)).

(** [refresher::run], up to its loops. *)
Definition start_refresher (common : CommonConfig) (cfg : RefresherConfig) : Run Process :=
  _ ← connected SEStore (store_connect (cc_database_url common) 4);
  _ ← connected SEStore store_migrate;
  _ ← initial_pass path_exists (refresh_config common);
  labeling ← on_store (start_labeler common cfg);
  fourbyte ← on_store start_fourbyte;
  snapshot ← names;
  mret (PRefresher common cfg snapshot labeling fourbyte).

(** [main]: a command's process; a new resolver has no names. *)
Definition start (cmd : Command) : Run Process :=
  match cmd with
  | HeadTracker common head => start_tracker common head
  | Worker common worker => start_worker common worker
  | Refresher common cfg => start_refresher common cfg
  end.
Definition start_command (cmd : Command) (w : W) : Res ServiceError Process * W :=
  let '(r, s) := start cmd (mkResolverWorld w empty_snapshot) in (r, rw_world s).

(** ** Rounds *)

(** The producer's loop: its pause in milliseconds, at least a minute, and a round of it. *)
Definition producer_pause_ms (cfg : RefresherConfig) : Z := 1000 * Z.max (rc_labeler_producer_interval_secs cfg) 60.
Definition producer_round {E} (common : CommonConfig) (cfg : RefresherConfig) (labeling : option Labeling)
  : Eff E W unit :=
  match labeling with
  | Some _ =>
      ignore (producer_tick_once (cc_chain_id common) (rc_labeler_batch_size cfg) (rc_labeler_retry_days cfg))
  | None => mret tt
  end.

(** The consumer's: it pauses where Redis fails or has nothing, goes on at once after a malformed entry, and
    after a contract when its pace allows, which counts from the round's start. *)
Definition consumer_pause_ms (cfg : RefresherConfig) (round : ConsumerRound) : Z :=
  match round with
  | PopFailed => 5000
  | QueueEmpty => 30000
  | MalformedMember _ => 0
  | Processed _ => Z.max (rc_labeler_min_delay_ms cfg) 50
  end.
Definition labeler_round {E} (common : CommonConfig) (labeling : option Labeling) : Eff E W unit :=
  match labeling with
  | Some l => ignore (consumer_round (cc_chain_id common) (lb_blockscout l) (lb_names l))
  | None => mret tt
  end.

(** 4byte's: a batch and a tick of their least sizes. *)
Definition fourbyte_tick_ms (cfg : RefresherConfig) : Z := 1000 * Z.max (rc_fourbyte_tick_secs cfg) 60.
Definition fourbyte_round {E} (common : CommonConfig) (cfg : RefresherConfig) (fourbyte : bool) : Eff E W unit :=
  if fourbyte then ignore (run_once (cc_chain_id common) (Z.max (rc_fourbyte_batch_size cfg) 1)) else mret tt.

(** The refresher's own loops have their periods as they are configured, and [tokio::time::interval] panics at
    zero. *)
Definition interval_panics (cfg : RefresherConfig) (task : Task) : bool :=
  match task with
  | TResolver => rc_resolver_refresh_secs cfg =? 0
  | TPrice => rc_price_refresh_secs cfg =? 0
  | TRollups => rc_rollup_refresh_secs cfg =? 0
  | _ => false
  end.

(** One round of a loop; a failure is logged. *)
Definition task_round (common : CommonConfig) (cfg : RefresherConfig) (labeling : option Labeling)
    (fourbyte : bool) (task : Task) : Eff string (ResolverWorld W) unit :=
  match task with
  | TResolver => refresh_resolver_into_store path_exists (refresh_config common)
  | TPrice => on_store (refresh_eth_price (cc_price_url common))
  | TRollups => on_store (ignore refresh_rollups)
  | TProducer => on_store (producer_round common cfg labeling)
  | TConsumer => on_store (labeler_round common labeling)
  | TFourByte => on_store (fourbyte_round common cfg fourbyte)
  end.

(** A round of a process, of the loop [task] in a refresher, and the process after it, if it goes on: an error
    ends a tracker and a worker, and a loop that panics ends a refresher with success, since [try_join!]
    returns and what it returns is dropped. (The labeler's loops would end alone, but have no panic.) *)
Definition process_round (p : Process) (task : Task) (w : W) : option Process * W :=
  match p with
  | PTracker common head t =>
      let '(r, w) := tracker_step head (cc_chain_id common) t w in
      (match r with Ok (t, _) => Some (PTracker common head t) | _ => None end, w)
  | PWorker common worker snapshot =>
      let '(r, w) :=
        worker_step (H0 := backend snapshot) (H1 := EvmSketchAnalyzer (analyzer_config common)) worker w in
      (match r with Ok _ => Some p | _ => None end, w)
  | PRefresher common cfg snapshot labeling fourbyte =>
      if interval_panics cfg task then (None, w)
      else
        let '(r, s) := task_round common cfg labeling fourbyte task (mkResolverWorld w snapshot) in
        (match r with
         | Panic _ => None
         | _ => Some (PRefresher common cfg (rw_snapshot s) labeling fourbyte)
         end, rw_world s)
  end.
End service.
