(* ===== verification/Web.v ===== *)
(** * The dashboard's forms and queries

    [crates/indexer-web]: the data floor ([admin.rs], [queries.rs]), the forms that change labels,
    organizations and the blacklist ([admin.rs], [labels.rs]), and the paged queries with their numbered
    parameters ([queries.rs], [handlers/public.rs]). SQL is run by a class, Redis and dates are classes;
    the pages are those of [Pages]. *)

From Stdlib Require Import Strings.Ascii.
From stdpp Require Import pretty.
From S2P Require Import Prelude.
From S2P Require Import Types.
From S2P Require Import Trace.
From S2P Require Import Transport.
From S2P Require Import Resolver.
From S2P Require Import Labeler.
From S2P Require Import Auth.

(** [NaiveDate]: its [FromStr], [Display], and [parse_from_str] with [%Y-%m-%d]. *)
Class Dates := {
  Date : Type;
  parse_date : string → option Date;
  parse_ymd : string → option Date;
  date_text : Date → string
}.

(** ** The data floor *)

Definition DATA_FLOOR_KEY : string := "analyzer:config:data_floor".
Definition DEFAULT_DATA_FLOOR : string := "2026-05-25".

(** Redis strings; an error is its text. *)
Class Settings (W : Type) := {
  redis_get : string → Eff string W (option string);
  redis_set : string → string → Eff string W unit
}.

(** The world and the process-wide floor. *)
Record WebState {W : Type} `{Dates} := mkWeb { ws_world : W; ws_floor : option Date }.
Arguments WebState W {_}.
Arguments mkWeb {W _}.

Record RefreshBanner := mkBanner { b_success : bool; b_label : string; b_message : string }.

Section floor.
Context {W : Type} `{Dates, Strings, Settings W}.

Abbreviation Run A := (Eff string (WebState W) A).
Definition in_world {A} (m : Eff string W A) : Run A := zoom ws_world (λ w s, mkWeb w (ws_floor s)) m.

(** [queries::set_data_floor]. *)
Definition store_floor (floor : option Date) : Run unit := λ s, (Ok tt, mkWeb (ws_world s) floor).

(** The value read as a floor, of [load_data_floor]. *)
Definition read_floor (raw : option string) : option Date :=
  match raw with
  | None => parse_date DEFAULT_DATA_FLOOR
  | Some s =>
      let s := trim s in
      if (s =? "")%string || (to_ascii_lowercase s =? "none")%string then None
      else match parse_date s with Some d => Some d | None => parse_date DEFAULT_DATA_FLOOR end
  end.

Definition load_data_floor : Eff string W (option Date) :=
  raw ← eff_try (redis_get DATA_FLOOR_KEY);
  mret (read_floor match raw with inl raw => raw | inr _ => None end).

(** [ok] and [err]. *)
Definition banner_ok (message : string) : RefreshBanner := mkBanner true "Data floor" message.
Definition banner_err (message : string) : RefreshBanner := mkBanner false "Data floor" message.

(** The handler [set_data_floor], after the session check. *)
Definition set_data_floor (form_floor : string) : Run RefreshBanner :=
  let raw := trim form_floor in
  if (raw =? "")%string then
    saved ← eff_try (in_world (redis_set DATA_FLOOR_KEY "none"));
    match saved with
    | inr e => mret (banner_err ("could not save: " +:+ e))
    | inl _ =>
        _ ← store_floor None;
        mret (banner_ok "cleared — every analyzed date is now included")
    end
  else
    match parse_date raw with
    | None => mret (banner_err ("'" +:+ raw +:+ "' isn't a valid date — use YYYY-MM-DD"))
    | Some date =>
        saved ← eff_try (in_world (redis_set DATA_FLOOR_KEY (date_text date)));
        match saved with
        | inr e => mret (banner_err ("could not save: " +:+ e))
        | inl _ =>
            _ ← store_floor (Some date);
            mret (banner_ok ("set — figures now ignore everything before " +:+ date_text date))
        end
    end.

(** [queries::floor]. *)
Definition floor (current : option Date) (col : string) : string :=
  match current with
  | Some d => " AND " +:+ col +:+ " >= DATE '" +:+ date_text d +:+ "'"
  | None => ""
  end.
End floor.

(** ** Queries with parameters *)

Section queries.
Context `{Dates}.

(** [TxQuery] and [TxFilters]. *)
Record TxQuery := mkTxQuery {
  tq_page : option Z;
  tq_from : option string;
  tq_to : option string;
  tq_min_gas_saved : option Z
}.
Record TxFilters := mkTxFilters {
  tf_from : option Date;
  tf_to : option Date;
  tf_min_gas_saved : option Z
}.

Definition build_tx_filters (q : TxQuery) : TxFilters :=
  mkTxFilters (tq_from q ≫= parse_ymd) (tq_to q ≫= parse_ymd) (tq_min_gas_saved q).

(** What a query binds; a date is bound as its midnight in UTC. *)
Inductive Bind :=
  | BInt (z : Z)
  | BText (s : string)
  | BBytes (bytes : list Z)
  | BMidnight (d : Date).

Definition push_clause (present : bool) (clause : nat → string) (acc : string * nat) : string * nat :=
  if present then (acc.1 +:+ clause acc.2, S acc.2) else acc.

(** [TxFilters::where_clause]: the clauses, and the next parameter. *)
Definition where_clause (f : TxFilters) (next_idx : nat) : string * nat :=
  push_clause (bool_decide (is_Some (tf_min_gas_saved f)))
    (λ i, " AND gas_saved >= $" +:+ pretty i +:+ "::bigint")
    (push_clause (bool_decide (is_Some (tf_to f)))
      (λ i, " AND block_timestamp <  $" +:+ pretty i +:+ "::timestamptz")
      (push_clause (bool_decide (is_Some (tf_from f)))
        (λ i, " AND block_timestamp >= $" +:+ pretty i +:+ "::timestamptz")
        ("", next_idx))).

(** The binds of the filters, in their order. *)
Definition filter_binds (f : TxFilters) : list Bind :=
  option_list (BMidnight <$> tf_from f) ++ option_list (BMidnight <$> tf_to f) ++
  option_list (BInt <$> tf_min_gas_saved f).

(** The text and the binds of the queries of recent transactions, which differ in whose they are. *)
Definition recent_txs (current_floor : option Date) (whose : string) (first_binds : list Bind) (limit offset : Z)
    (f : TxFilters) : string * list Bind :=
  let '(extra, idx) := where_clause f (S (length first_binds)) in
  ("SELECT
             block_number, tx_hash, gas_used, gas_saved, wei_saved, block_timestamp
           FROM analysis
           " +:+ whose +:+ "
             AND gas_saved > 0
             AND cardinality(skipped_opcodes) = 0" +:+ extra +:+ floor current_floor "block_timestamp" +:+ "
           ORDER BY block_timestamp DESC
           LIMIT $" +:+ pretty idx +:+ " OFFSET $" +:+ pretty (S idx),
   first_binds ++ filter_binds f ++ [BInt limit; BInt offset]).

Definition recent_txs_for_project current_floor (chain_id : Z) (slug : string) :=
  recent_txs current_floor "WHERE chain_id = $1 AND project_slug = $2" [BInt chain_id; BText slug].
Definition recent_txs_for_contract current_floor (chain_id address : Z) :=
  recent_txs current_floor "WHERE chain_id = $1 AND to_address = $2"
    [BInt chain_id; BBytes (be_bytes 20 address)].
Definition recent_txs_for_function current_floor (chain_id address : Z) (selector : list Z) :=
  recent_txs current_floor "WHERE chain_id = $1
             AND to_address = $2
             AND function_selector = $3" [BInt chain_id; BBytes (be_bytes 20 address); BBytes selector].

(** *** Pages *)

Definition TX_PAGE_SIZE : Z := 50.

(** The page shown, from 1, and where its rows start, in [project], [contract_page] and
    [function_page]. *)
Definition current_page (q : TxQuery) : Z := Z.max 1 (default 1 (tq_page q)).
Definition page_offset (q : TxQuery) : Z := (current_page q - 1) * TX_PAGE_SIZE.

Record TxPagingView := mkPaging {
  pg_page : Z;
  pg_has_prev : bool;
  pg_has_next : bool;
  pg_from : string;
  pg_to : string;
  pg_min_gas_saved : string;
  pg_prev_qs : string;
  pg_next_qs : string
}.

Definition non_empty (s : option string) : option string :=
  s ← s; if (s =? "")%string then None else Some s.

Definition page_params (q : TxQuery) : list (string * string) :=
  option_list (pair "from"%string <$> non_empty (tq_from q)) ++
  option_list (pair "to"%string <$> non_empty (tq_to q)) ++
  option_list ((λ m, ("min_gas_saved"%string, i64_text m)) <$> tq_min_gas_saved q).

(** The link to page [p]: values go in as they are. *)
Definition page_link (q : TxQuery) (p : Z) : string :=
  String.concat "&" ((λ '(k, v), k +:+ "=" +:+ v) <$> page_params q ++ [("page"%string, i64_text p)]).

(** [paging_view]; [u32] addition wraps in a release build, and so does the cast of the count. *)
Definition u32_wrap (z : Z) : Z := z mod 2 ^ 32.
Definition paging_view (q : TxQuery) (rows_returned : nat) : TxPagingView :=
  let page := current_page q in
  mkPaging page (1 <? page) (TX_PAGE_SIZE <=? u32_wrap (Z.of_nat rows_returned))
    (default "" (tq_from q)) (default "" (tq_to q)) (default "" (i64_text <$> tq_min_gas_saved q))
    (page_link q (Z.max 1 (page - 1))) (page_link q (u32_wrap (page + 1))).
End queries.

(** ** Forms *)

(** [WebError]; the hexadecimal decoder's message is not modelled. *)
Inductive WebError :=
  | WStore (why : string)
  | WSqlx (why : string)
  | BadRequest (message : string)
  | BadHex
  | BadLength (got : nat)
  | NotFound
  | Internal (message : string).

(** More of the store's statements, and the reads of [queries.rs] that a form's answer shows. *)
Class WebStore (W : Type) := {
  org_upsert : string → string → Eff string W unit;
  project_assign_org : string → option string → Eff string W bool;
  blacklist_add_row : Z → Z → option (list Z) → string → string → Eff string W unit;
  blacklist_remove_row : Z → Z → option (list Z) → Eff string W bool;
  upsert_manual_address_project : Z → Z → string → Eff string W unit;
  rename_project : string → string → Eff string W bool;
  is_manual_override : Z → Z → Eff string W bool;
  refresh_rollups : Eff string W unit;
  resolved_label : Z → Z → Eff WebError W (option (string * option string));
  project_header : string → Eff WebError W (option (option string))
}.

Definition ascii_lowercase (c : ascii) : bool := (97 <=? byte_of c) && (byte_of c <=? 122).
Definition ascii_uppercase (c : ascii) : bool := (65 <=? byte_of c) && (byte_of c <=? 90).
Definition ascii_digit (c : ascii) : bool := (48 <=? byte_of c) && (byte_of c <=? 57).
Definition alphanumeric (c : ascii) : bool := ascii_lowercase c || ascii_uppercase c || ascii_digit c.

(** [slugify]: the loop, after what was written and whether a dash is pending. A character outside ASCII is
    several bytes that are not alphanumeric. *)
Fixpoint slugify_from (started pending_dash : bool) (name : string) : string :=
  match name with
  | EmptyString => EmptyString
  | String ch name =>
      if alphanumeric ch then
        (if pending_dash && started then "-" else "") +:+
        String (ascii_lower ch) (slugify_from true false name)
      else slugify_from started true name
  end.
Definition slugify (name : string) : string := slugify_from false false name.

Fixpoint all_chars (P : ascii → bool) (s : string) : bool :=
  match s with EmptyString => true | String c s => P c && all_chars P s end.

Section forms.
Context `{Externals, Strings}.

(** [str::trim().strip_prefix("0x")] or the trimmed text. *)
Definition parse_hex (n : nat) (s : string) : option (list Z) :=
  bytes ← hex_decode (strip_0x (trim s));
  if (length bytes =? n)%nat then Some bytes else None.
Definition parse_hex_address (s : string) : option Z := be_to_Z <$> parse_hex 20 s.
Definition parse_hex_selector (s : string) : option (list Z) := parse_hex 4 s.

(** [labels.rs]'s [parse_addr]. *)
Definition parse_addr (s : string) : Res WebError Z :=
  bytes ← ok_or (hex_decode (strip_0x (trim s))) BadHex;
  if (length bytes =? 20)%nat then Ok (be_to_Z bytes) else Err (BadLength (length bytes)).

Definition validate_slug (s : string) : Res WebError string :=
  let s := trim s in
  if (String.length s =? 0)%nat || (64 <? String.length s)%nat then
    Err (BadRequest "slug must be 1..=64 chars")
  else if String.prefix "unknown:" s then Err (BadRequest "override cannot start with `unknown:`")
  else if negb (all_chars (λ c, ascii_lowercase c || ascii_digit c || Ascii.eqb c "-") s) then
    Err (BadRequest "slug must match [a-z0-9-]+")
  else Ok s.

(** The optional selector of the blacklist's forms. *)
Definition form_selector (selector : option string) : Res WebError (option (list Z)) :=
  match non_empty (trim <$> selector) with
  | Some s => sel ← ok_or (parse_hex_selector s) (BadRequest "invalid selector"); Ok (Some sel)
  | None => Ok None
  end.

Section handlers.
Context {W : Type} `{Store W, WebStore W}.
(** The chain, an [i64], goes to the store as a [u64]. *)
Abbreviation Run A := (Eff WebError W A).

(** Where a form leads. *)
Definition redirect (path : string) : Run string := mret path.

Definition orgs_create (org_slug org_name : string) : Run string :=
  let name := trim org_name in
  if (name =? "")%string then eff_res (Err (BadRequest "organization name required"))
  else
    let slug := if (trim org_slug =? "")%string then slugify name else trim org_slug in
    if (slug =? "")%string then
      eff_res (Err (BadRequest "couldn't build an id from that name — include some letters or numbers"))
    else
      _ ← eff_map_err (λ e, Internal ("org upsert: " +:+ e)) (org_upsert slug name);
      redirect "/admin/orgs".

Definition orgs_assign (project_slug org_slug : string) : Run string :=
  let org := trim org_slug in
  let project := trim project_slug in
  if (project =? "")%string then eff_res (Err (BadRequest "project_slug required"))
  else
    _ ← eff_map_err (λ e, Internal ("project assign org: " +:+ e))
      (project_assign_org project (if (org =? "")%string then None else Some org));
    redirect "/admin/orgs".

Definition blacklist_add (user : string) (chain_id : Z) (address : string) (selector : option string)
    (reason : string) : Run string :=
  address ← eff_res (ok_or (parse_hex_address address) (BadRequest "invalid address"));
  selector ← eff_res (form_selector selector);
  if (trim reason =? "")%string then eff_res (Err (BadRequest "reason is required"))
  else
    _ ← eff_map_err (λ e, Internal ("blacklist add: " +:+ e))
      (blacklist_add_row (wrap64 chain_id) address selector (trim reason) user);
    redirect "/admin/blacklist".

Definition blacklist_remove (chain_id : Z) (address : string) (selector : option string) : Run string :=
  address ← eff_res (ok_or (parse_hex_address address) (BadRequest "invalid address"));
  selector ← eff_res (form_selector selector);
  _ ← eff_map_err (λ e, Internal ("blacklist remove: " +:+ e))
    (blacklist_remove_row (wrap64 chain_id) address selector);
  redirect "/admin/blacklist".

Record LabelCell := mkCell {
  lc_chain_id : Z;
  lc_address_hex : string;
  lc_display_name : string;
  lc_project_slug : string;
  lc_is_unknown : bool;
  lc_is_manual : bool
}.

Definition build_cell (chain_id addr : Z) : Run LabelCell :=
  resolved ← resolved_label chain_id addr;
  is_manual ← eff_ok (is_manual_override (wrap64 chain_id) addr);
  let '(slug, display) :=
    match resolved with
    | Some (s, name) => (s, default s name)
    | None => ("unknown:0x" +:+ address_hex addr, "Unknown (0x" +:+ address_hex addr +:+ ")")%string
    end in
  mret (mkCell chain_id ("0x" +:+ address_hex addr) display slug (String.prefix "unknown:" slug)
          (default false is_manual)).

Definition label_cell (chain_id : Z) (address : string) : Run LabelCell :=
  addr ← eff_res (parse_addr address);
  build_cell chain_id addr.

(** The address and the slug a label's form starts from. *)
Definition current_slug (chain_id addr : Z) : Run string :=
  resolved ← resolved_label chain_id addr;
  mret match resolved with
       | Some (s, _) => if String.prefix "unknown:" s then ""%string else s
       | None => ""%string
       end.
Definition label_edit (chain_id : Z) (address : string) : Run (string * string) :=
  addr ← eff_res (parse_addr address);
  current ← current_slug chain_id addr;
  mret (("0x" +:+ address_hex addr)%string, current).

Definition label_override (chain_id : Z) (address slug project_name : string) : Run LabelCell :=
  addr ← eff_res (parse_addr address);
  slug ← eff_res (validate_slug slug);
  let display_name := if (trim project_name =? "")%string then slug else trim project_name in
  _ ← eff_map_err WStore (upsert_project (mkProject slug display_name None None None));
  _ ← eff_map_err WStore (upsert_manual_address_project (wrap64 chain_id) addr slug);
  _ ← eff_map_err WStore relabel_unknowns;
  _ ← ignore refresh_rollups;
  build_cell chain_id addr.

(** The slug and the display name of a project's cell. *)
Definition build_project_cell (slug : string) : Run (string * string) :=
  header ← project_header slug;
  mret (slug, default slug (header ≫= id)).

Definition project_rename (slug project_name : string) : Run (string * string) :=
  let new_name := trim project_name in
  if (String.length new_name =? 0)%nat || (128 <? String.length new_name)%nat then
    eff_res (Err (BadRequest "display name must be 1..=128 chars"))
  else if (slug =? "")%string then eff_res (Err (BadRequest "slug is required"))
  else
    renamed ← eff_map_err WStore (rename_project slug new_name);
    if renamed : bool then build_project_cell slug else eff_res (Err NotFound).
End handlers.
End forms.
