(* ===== verification/WebSpec.v ===== *)
(** * What the dashboard's forms and queries do

    The floor a form sets is the floor a restart reads back, and a query's numbered parameters are given
    the values its clauses are about. *)

From Stdlib Require Import Strings.Ascii.
From stdpp Require Import pretty.
From S2P Require Import Prelude.
From S2P Require Import Effects.
From S2P Require Import Types.
From S2P Require Import Instances.
From S2P Require Import Trace.
From S2P Require Import Transport.
From S2P Require Import Resolver.
From S2P Require Import ResolverSpec.
From S2P Require Import Auth.
From S2P Require Import AuthSpec.
From S2P Require Import Web.

(** ** The data floor *)

Definition date_char (c : ascii) : bool := digit_or_minus c || Ascii.eqb c "+".

(** A date's text is made of digits and signs and is read back as the date; [trim] leaves such texts and
    words alone. *)
Class DateLaws `{Dates, Strings} : Prop := {
  parse_date_text d : parse_date (date_text d) = Some d;
  date_text_chars d : every date_char (date_text d) = true;
  date_text_nonempty d : date_text d ≠ ""%string;
  trim_date d : trim (date_text d) = date_text d;
  trim_none : trim "none" = "none"%string
}.

(** Redis keeps what was set. *)
Class SettingsLaws (W : Type) `{Settings W} := {
  setting : W → string → option string;
  setting_written w w' r k v :
    redis_set k v w = (r, w') →
    match r with
    | Ok _ => setting w' k = Some v
    | _ => ∀ k, setting w' k = setting w k
    end;
  setting_read w w' k v : redis_get k w = (Ok v, w') → v = setting w k
}.

Section floor.
Context {W : Type} `{DateLaws, SettingsLaws W}.

Lemma read_floor_none : read_floor (Some "none"%string) = None.
Proof. unfold read_floor. by rewrite trim_none. Qed.

Lemma read_floor_date d : read_floor (Some (date_text d)) = Some d.
Proof.
  unfold read_floor. rewrite trim_date, parse_date_text.
  pose proof (date_text_nonempty d) as Hne. pose proof (date_text_chars d) as Hchars.
  destruct (String.eqb_spec (date_text d) "") as [|_]; [done|]. cbn [orb].
  destruct (String.eqb_spec (to_ascii_lowercase (date_text d)) "none") as [Hnone|]; [|done]. exfalso.
  destruct (date_text d) as [|c s]; [done|]. cbn in Hnone, Hchars. injection Hnone as Hc _.
  apply andb_true_iff in Hchars as [Hdate _].
  destruct c as [[] [] [] [] [] [] [] []]; vm_compute in Hdate, Hc; discriminate.
Qed.

Lemma in_world_run {A} (m : Eff string W A) r s s' :
  in_world m s = (r, s') → m (ws_world s) = (r, ws_world s') ∧ ws_floor s' = ws_floor s.
Proof.
  unfold in_world, zoom. destruct (m (ws_world s)) as [r0 w0]. by intros [= <- <-].
Qed.

(** Saving a value and then putting a floor in force. *)
Lemma save_floor value floor (good : RefreshBanner) (bad : string → RefreshBanner) (s s' : WebState W) b :
  b_success good = true → (∀ e, b_success (bad e) = false) → read_floor (Some value) = floor →
  (saved ← eff_try (in_world (redis_set DATA_FLOOR_KEY value));
   match saved with
   | inr e => mret (bad e)
   | inl _ => _ ← store_floor floor; mret good
   end) s = (Ok b, s') →
  if b_success b then read_floor (setting (ws_world s') DATA_FLOOR_KEY) = ws_floor s'
  else ws_floor s' = ws_floor s ∧ ∀ k, setting (ws_world s') k = setting (ws_world s) k.
Proof.
  intros Hgood Hbad Hread Hrun.
  apply eff_bind_run in Hrun as [(saved & s1 & Hsave & Hrun)|(r0 & _ & _ & Hf)]; [|done].
  apply eff_try_run in Hsave as (r1 & Hset & Hr1). apply in_world_run in Hset as [Hset Hfloor].
  apply setting_written in Hset. destruct saved as [[]|e].
  - assert (r1 = Ok tt) as -> by (destruct r1 as [[]| |]; congruence).
    unfold store_floor, mbind, eff_bind in Hrun. injection Hrun as <- <-. rewrite Hgood. cbn. by rewrite Hset.
  - assert (r1 = Err e) as -> by (destruct r1; congruence). injection Hrun as <- <-. by rewrite Hbad.
Qed.
End floor.

(** When the form answers with success, a restart that can read Redis loads the floor now in force, a date
    or none; when it answers with an error, neither the floor nor what is stored has changed. *)
Theorem set_data_floor_survives {W} `{DateLaws, SettingsLaws W} form_floor (s s' : WebState W) b :
  set_data_floor form_floor s = (Ok b, s') →
  if b_success b then
    ∀ raw w, redis_get DATA_FLOOR_KEY (ws_world s') = (Ok raw, w) →
      load_data_floor (ws_world s') = (Ok (ws_floor s'), w)
  else ws_floor s' = ws_floor s ∧ ∀ k, setting (ws_world s') k = setting (ws_world s) k.
Proof.
  intros Hrun.
  assert (if b_success b then read_floor (setting (ws_world s') DATA_FLOOR_KEY) = ws_floor s'
          else ws_floor s' = ws_floor s ∧ ∀ k, setting (ws_world s') k = setting (ws_world s) k) as Hsave.
  { unfold set_data_floor in Hrun. destruct (trim form_floor =? "")%string.
    - by eapply save_floor in Hrun; [|done|done|apply read_floor_none].
    - destruct (parse_date (trim form_floor)) as [date|]; [|by injection Hrun as <- <-].
      by eapply save_floor in Hrun; [|done|done|apply read_floor_date]. }
  destruct (b_success b); [|done]. intros raw w Hget.
  unfold load_data_floor, mbind, eff_bind, eff_try. rewrite Hget. unfold mret, eff_ret.
  by rewrite (setting_read _ _ _ _ Hget), Hsave.
Qed.

(** ** Numbered parameters *)

Section inlining.
Context {B : Type} (show : B → string) (binds : list B).

(** A query with its parameters replaced by what they are bound to: [cur] is the number being read. *)
Definition shown (cur : option nat) : string :=
  match cur with
  | Some (S n) => match binds !! n with Some b => show b | None => "?" end
  | Some O => "?"
  | None => ""
  end.
Definition digit (c : ascii) : bool := (48 <=? byte_of c) && (byte_of c <=? 57).
Fixpoint inline (cur : option nat) (s : string) : string :=
  match s with
  | EmptyString => shown cur
  | String c s =>
      if bool_decide (is_Some cur) && digit c
      then inline (Some (10 * default O cur + Z.to_nat (byte_of c - 48))%nat) s
      else shown cur +:+
        (if Ascii.eqb c "$" then inline (Some O) s else String c (inline None s))
  end.

Lemma inline_plain a s : lacks "$" a = true → inline None (a +:+ s) = a +:+ inline None s.
Proof.
  unfold lacks. induction a as [|c a IH]; [done|]. cbn [every]. intros [Hc Ha]%andb_true_iff.
  rewrite append_cons. cbn [inline]. rewrite bool_decide_eq_false_2 by (by intros [? ?]). cbn [andb shown].
  destruct (Ascii.eqb c "$"); [done|]. by rewrite (IH Ha).
Qed.

(** A text that does not go on with a digit ends a parameter. *)
Definition ends_number (s : string) : bool :=
  match s with EmptyString => true | String c _ => negb (digit c) end.

Lemma inline_end cur s : ends_number s = true → inline cur s = shown cur +:+ inline None s.
Proof.
  destruct s as [|c s]; cbn [ends_number inline shown].
  - intros _. by rewrite append_nil_r.
  - intros Hc%negb_true_iff. by rewrite Hc, !andb_false_r.
Qed.

(** What a piece of text becomes, wherever it stands. *)
Definition renders (t t' : string) : Prop :=
  ∀ s, ends_number s = true → inline None (t +:+ s) = t' +:+ inline None s.

Lemma ends_number_app t s : ends_number t = true → ends_number s = true → ends_number (t +:+ s) = true.
Proof. by destruct t. Qed.

Lemma renders_plain a : lacks "$" a = true → renders a a.
Proof. intros Ha s _. by apply inline_plain. Qed.

Lemma renders_app t t' u u' : ends_number u = true → renders t t' → renders u u' → renders (t +:+ u) (t' +:+ u').
Proof.
  intros Hu Ht Hu' s Hs. rewrite !append_assoc, Ht by by apply ends_number_app. by rewrite Hu'.
Qed.

(** The parameters of the queries have one digit. *)
Lemma renders_param i b : (1 <= i <= 9)%nat → binds !! (i - 1)%nat = Some b → renders ("$" +:+ pretty i) (show b).
Proof.
  intros Hi Hb s Hs.
  assert (∃ c, pretty i = String c "" ∧ digit c = true ∧ Z.to_nat (byte_of c - 48) = i) as (c & -> & Hc & Hn).
  { do 10 (destruct i as [|i]; [first [lia|eexists; split; [reflexivity|by vm_compute]]|]). lia. }
  change (inline (Some O) (String c s) = show b +:+ inline None s).
  cbn [inline]. rewrite Hc, bool_decide_eq_true_2 by done. cbn [andb].
  rewrite (inline_end _ s Hs). f_equal.
  change (shown (Some (Z.to_nat (byte_of c - 48))) = show b). rewrite Hn.
  destruct i as [|i]; [lia|]. cbn [shown]. replace (S i - 1)%nat with i in Hb by lia. by rewrite Hb.
Qed.

(** A whole query. *)
Lemma renders_inline t t' : renders t t' → inline None t = t'.
Proof.
  intros Ht. specialize (Ht ""%string eq_refl). rewrite append_nil_r in Ht. rewrite Ht. apply append_nil_r.
Qed.
End inlining.

(** A text does not go on with a digit: by computation where its start is known. *)
Ltac no_digit := first [reflexivity|assumption|apply ends_number_app; no_digit].

(** The query of recent transactions with the values in place of the parameters. *)
Definition clause_shown `{Dates} (show : Bind → string) (before after : string) (value : option Bind) : string :=
  match value with Some b => before +:+ show b +:+ after | None => "" end.

Definition recent_txs_shown `{Dates} (show : Bind → string) (current_floor : option Date) (whose : string)
    (limit offset : Z) (f : TxFilters) : string :=
  "SELECT
             block_number, tx_hash, gas_used, gas_saved, wei_saved, block_timestamp
           FROM analysis
           " +:+ whose +:+ "
             AND gas_saved > 0
             AND cardinality(skipped_opcodes) = 0" +:+
  clause_shown show " AND block_timestamp >= " "::timestamptz" (BMidnight <$> tf_from f) +:+
  clause_shown show " AND block_timestamp <  " "::timestamptz" (BMidnight <$> tf_to f) +:+
  clause_shown show " AND gas_saved >= " "::bigint" (BInt <$> tf_min_gas_saved f) +:+
  floor current_floor "block_timestamp" +:+ "
           ORDER BY block_timestamp DESC
           LIMIT " +:+ show (BInt limit) +:+ " OFFSET " +:+ show (BInt offset).

Section numbered.
Context `{DateLaws} (show : Bind → string).

Lemma floor_lacks current_floor : lacks "$" (floor current_floor "block_timestamp") = true.
Proof.
  destruct current_floor as [d|]; [|done]. unfold floor, lacks. rewrite !every_app.
  assert (every (λ a, negb (Ascii.eqb a "$")) (date_text d) = true) as ->; [|done].
  eapply every_impl, date_text_chars. intros [[] [] [] [] [] [] [] []]; vm_compute; done.
Qed.

(** One clause of the filters: the text so far and the next parameter. *)
Lemma renders_push binds value before after acc t' :
  (1 <= acc.2 <= 9)%nat → lacks "$" before = true → lacks "$" after = true → ends_number before = true →
  ends_number after = true → (∀ b, value = Some b → binds !! (acc.2 - 1)%nat = Some b) →
  renders show binds acc.1 t' →
  renders show binds
    (push_clause (bool_decide (is_Some value)) (λ i, (before +:+ "$") +:+ pretty i +:+ after) acc).1
    (t' +:+ clause_shown show before after value).
Proof.
  intros Hi Hbefore Hafter Hb Ha Hvalue Ht. unfold push_clause, clause_shown. destruct value as [b|].
  - rewrite bool_decide_eq_true_2 by done. cbn [fst snd].
    assert ((before +:+ "$") +:+ pretty acc.2 +:+ after = before +:+ ("$" +:+ pretty acc.2) +:+ after)%string as ->
      by by rewrite !append_assoc.
    apply renders_app; [by apply ends_number_app|done|].
    apply renders_app; [done|by apply renders_plain|].
    apply renders_app; [done|by apply renders_param; auto|by apply renders_plain].
  - rewrite bool_decide_eq_false_2 by (by intros [? ?]). by rewrite append_nil_r.
Qed.

Lemma push_clause_idx present clause acc : (push_clause present clause acc).2 = (acc.2 + Nat.b2n present)%nat.
Proof. destruct present; cbn; lia. Qed.

Lemma renders_where (first rest : list Bind) f :
  (length first <= 5)%nat →
  renders show (first ++ filter_binds f ++ rest) (where_clause f (S (length first))).1
    (((("" +:+ clause_shown show " AND block_timestamp >= " "::timestamptz" (BMidnight <$> tf_from f)) +:+
    clause_shown show " AND block_timestamp <  " "::timestamptz" (BMidnight <$> tf_to f)) +:+
    clause_shown show " AND gas_saved >= " "::bigint" (BInt <$> tf_min_gas_saved f))) ∧
  (where_clause f (S (length first))).2 = S (length first + length (filter_binds f))%nat.
Proof.
  intros Hlen. unfold where_clause.
  assert (∀ {A} (g : A → Bind) o, bool_decide (is_Some o) = bool_decide (is_Some (g <$> o))) as Hfmap
    by (intros A g []; reflexivity).
  rewrite (Hfmap _ BInt), !(Hfmap _ BMidnight).
  assert (∀ k, ((first ++ filter_binds f ++ rest) !! (length first + k)%nat = (filter_binds f ++ rest) !! k)) as Hlook.
  { intros k. rewrite lookup_app_r by lia. f_equal. lia. }
  split.
  - apply (renders_push _ (BInt <$> tf_min_gas_saved f) " AND gas_saved >= " "::bigint"); [|done..| |].
    3: apply (renders_push _ (BMidnight <$> tf_to f) " AND block_timestamp <  " "::timestamptz"); [|done..| |].
    5: apply (renders_push _ (BMidnight <$> tf_from f) " AND block_timestamp >= " "::timestamptz"); [|done..| |].
    7: by intros s _.
    all: rewrite ?push_clause_idx; cbn [fst snd].
    1, 3, 5: destruct f as [[|] [|] [|]]; cbn; lia.
    all: intros b Hb; destruct f as [[|] [|] [|]]; cbn in Hb; try done; injection Hb as <-; cbn [Nat.b2n fmap].
    all: rewrite lookup_app_r by (cbn; lia).
    all: match goal with |- _ !! ?n = _ =>
      first [replace n with 0%nat by (cbn; lia)|replace n with 1%nat by (cbn; lia)|replace n with 2%nat by (cbn; lia)]
    end; reflexivity.
  - rewrite !push_clause_idx. destruct f as [[|] [|] [|]]; cbn; lia.
Qed.

Lemma recent_txs_inline current_floor whose whose' first limit offset f :
  (length first <= 3)%nat → ends_number whose = true →
  (∀ binds, renders show (first ++ binds) whose whose') →
  let '(text, binds) := recent_txs current_floor whose first limit offset f in
  inline show binds None text = recent_txs_shown show current_floor whose' limit offset f.
Proof.
  intros Hlen Hends Hwhose. unfold recent_txs.
  destruct (renders_where first [BInt limit; BInt offset] f) as [Hextra Hidx]; [lia|].
  assert (ends_number (where_clause f (S (length first))).1 = true) as Hextra_ends
    by (destruct f as [[] [] []]; reflexivity).
  destruct (where_clause f (S (length first))) as [extra idx]. cbn [fst snd] in Hextra, Hextra_ends, Hidx. subst idx.
  assert (length (filter_binds f) <= 3)%nat as Hfilters by (destruct f as [[] [] []]; cbn; lia).
  set (binds := first ++ filter_binds f ++ [BInt limit; BInt offset]) in *.
  apply renders_inline. unfold recent_txs_shown.
  set (n := S (length first + length (filter_binds f))) in *.
  assert (binds !! (n - 1)%nat = Some (BInt limit)) as Hlimit.
  { unfold binds, n. rewrite !lookup_app_r by lia. by replace (_ - _ - _)%nat with 0%nat by lia. }
  assert (binds !! (S n - 1)%nat = Some (BInt offset)) as Hoffset.
  { unfold binds, n. rewrite !lookup_app_r by lia. by replace (_ - _ - _)%nat with 1%nat by lia. }
  assert (renders show binds ("$" +:+ pretty n) (show (BInt limit))) as Hn by (apply renders_param; [lia|done]).
  assert (renders show binds ("$" +:+ pretty (S n)) (show (BInt offset))) as Hn' by (apply renders_param; [lia|done]).
  clearbody n. clear Hlimit Hoffset.
  pose proof (floor_lacks current_floor) as Hfloor%(renders_plain show binds).
  assert (ends_number (floor current_floor "block_timestamp") = true) as Hfloor_ends by (by destruct current_floor).
  change "
           ORDER BY block_timestamp DESC
           LIMIT $"%string with ("
           ORDER BY block_timestamp DESC
           LIMIT " +:+ "$")%string.
  change " OFFSET $"%string with (" OFFSET " +:+ "$")%string.
  assert (∀ a p r, (a +:+ "$") +:+ p +:+ r = a +:+ ("$" +:+ p) +:+ r) as -> by (intros; by rewrite !append_assoc).
  rewrite (append_assoc _ "$" (pretty (S n))).
  assert (∀ a b c r, a +:+ b +:+ c +:+ r = ((("" +:+ a) +:+ b) +:+ c) +:+ r) as Hgroup
    by (intros; by rewrite !append_assoc).
  rewrite (Hgroup (clause_shown show _ _ (BMidnight <$> tf_from f))).
  repeat (apply renders_app;
    [no_digit|first [apply renders_plain; reflexivity|assumption|apply Hwhose]|]); assumption.
Qed.
End numbered.

(** Literals and parameters in turn, down to the last parameter. *)
Ltac render :=
  repeat (apply renders_app;
    [no_digit|first [apply renders_plain; reflexivity|apply renders_param; [lia|reflexivity]]|]);
  apply renders_param; [lia|reflexivity].

(** In the queries of recent transactions every numbered parameter is bound, and to the value that its
    clause is about: with the bound values in place of the parameters, the text is the query meant, whatever
    filters are set and whatever the floor, which is the only text that is put in unbound. *)
Theorem recent_txs_bound `{DateLaws} (show : Bind → string) current_floor chain_id slug address selector limit
    offset f :
  (let '(text, binds) := recent_txs_for_project current_floor chain_id slug limit offset f in
   inline show binds None text =
     recent_txs_shown show current_floor
       ("WHERE chain_id = " +:+ show (BInt chain_id) +:+ " AND project_slug = " +:+ show (BText slug))
       limit offset f) ∧
  (let '(text, binds) := recent_txs_for_contract current_floor chain_id address limit offset f in
   inline show binds None text =
     recent_txs_shown show current_floor
       ("WHERE chain_id = " +:+ show (BInt chain_id) +:+ " AND to_address = " +:+
        show (BBytes (be_bytes 20 address))) limit offset f) ∧
  (let '(text, binds) := recent_txs_for_function current_floor chain_id address selector limit offset f in
   inline show binds None text =
     recent_txs_shown show current_floor
       ("WHERE chain_id = " +:+ show (BInt chain_id) +:+ "
             AND to_address = " +:+ show (BBytes (be_bytes 20 address)) +:+ "
             AND function_selector = " +:+ show (BBytes selector)) limit offset f).
Proof.
  split_and!; apply recent_txs_inline; [cbn; lia|done| |cbn; lia|done| |cbn; lia|done|]; intros binds.
  - change "WHERE chain_id = $1 AND project_slug = $2"%string with
      ("WHERE chain_id = " +:+ ("$" +:+ pretty 1%nat) +:+ " AND project_slug = " +:+ ("$" +:+ pretty 2%nat))%string.
    render.
  - change "WHERE chain_id = $1 AND to_address = $2"%string with
      ("WHERE chain_id = " +:+ ("$" +:+ pretty 1%nat) +:+ " AND to_address = " +:+ ("$" +:+ pretty 2%nat))%string.
    render.
  - change "WHERE chain_id = $1
             AND to_address = $2
             AND function_selector = $3"%string with
      ("WHERE chain_id = " +:+ ("$" +:+ pretty 1%nat) +:+ "
             AND to_address = " +:+ ("$" +:+ pretty 2%nat) +:+ "
             AND function_selector = " +:+ ("$" +:+ pretty 3%nat))%string.
    render.
Qed.

(** A filter's value goes into the links between pages as it is: a value with an ampersand adds
    parameters. *)
Example link_not_encoded `{Dates} :
  pg_next_qs (paging_view (mkTxQuery None (Some "2026-01-01&page=9"%string) None None) 50) =
    "from=2026-01-01&page=9&page=2"%string.
Proof. reflexivity. Qed.

(** ** Slugs *)

(** Lowercase letters, digits and single dashes between them, after a letter or not. *)
Fixpoint slug_shape (after_letter : bool) (s : string) : bool :=
  match s with
  | EmptyString => after_letter
  | String c s =>
      if Ascii.eqb c "-" then after_letter && slug_shape false s
      else (ascii_lowercase c || ascii_digit c) && slug_shape true s
  end.

Lemma lower_alphanumeric c :
  alphanumeric c = true →
  Ascii.eqb (ascii_lower c) "-" = false ∧ ascii_lowercase (ascii_lower c) || ascii_digit (ascii_lower c) = true.
Proof. destruct c as [[] [] [] [] [] [] [] []]; vm_compute; done. Qed.

Lemma shape_alphanumeric c :
  Ascii.eqb c "-" = false → ascii_lowercase c || ascii_digit c = true → alphanumeric c = true ∧ ascii_lower c = c.
Proof. destruct c as [[] [] [] [] [] [] [] []]; vm_compute; done. Qed.

Lemma slugify_from_shape name pending : slug_shape true (slugify_from true pending name) = true.
Proof.
  revert pending. induction name as [|c name IH]; intros pending; [done|]. cbn [slugify_from].
  destruct (alphanumeric c) eqn:Hc; [|apply IH]. apply lower_alphanumeric in Hc as [Hdash Hlow].
  assert (∀ a, slug_shape a (String (ascii_lower c) (slugify_from true false name)) = true) as Hrest.
  { intros a. cbn [slug_shape]. by rewrite Hdash, Hlow, IH. }
  destruct pending; [|apply Hrest].
  change (true && slug_shape false (String (ascii_lower c) (slugify_from true false name)) = true). by rewrite Hrest.
Qed.

Lemma slugify_shaped s :
  (slug_shape true s = true → slugify_from true false s = s) ∧
  (slug_shape false s = true → slugify_from true true s = String "-" s ∧ ∀ pending, slugify_from false pending s = s).
Proof.
  induction s as [|c s [IHt IHf]]; [done|]. cbn [slug_shape slugify_from].
  destruct (Ascii.eqb_spec c "-") as [->|Hc%Ascii.eqb_neq].
  - split; [|done]. intros Hs. by apply IHf.
  - destruct (ascii_lowercase c || ascii_digit c) eqn:Hlow; [|done].
    destruct (shape_alphanumeric c Hc Hlow) as [-> ->].
    split; intros Hs; [by rewrite IHt|]. rewrite IHt by done. split; [done|]. by intros [].
Qed.

(** The id of an organization is empty or made of lowercase letters, digits and single dashes inside; such
    a text is its own id. *)
Theorem slugify_spec name :
  (slugify name = ""%string ∨ slug_shape false (slugify name) = true) ∧ slugify (slugify name) = slugify name.
Proof.
  assert (∀ pending, slugify_from false pending name = ""%string ∨
    slug_shape false (slugify_from false pending name) = true) as Hshape.
  { induction name as [|c name IH]; intros pending; [by left|]. cbn [slugify_from].
    destruct (alphanumeric c) eqn:Hc; [|apply IH]. right. rewrite andb_false_r.
    apply lower_alphanumeric in Hc as [Hdash Hlow].
    change (slug_shape false (String (ascii_lower c) (slugify_from true false name)) = true).
    cbn [slug_shape]. rewrite Hdash, Hlow. apply slugify_from_shape. }
  split; [apply Hshape|]. unfold slugify. destruct (Hshape false) as [->|Hs]; [done|]. by apply slugify_shaped.
Qed.

(** ** Witnesses *)

(** Two dates, and Redis as a map. *)
#[export] Instance sample_dates : Dates := {|
  Date := bool;
  parse_date s :=
    if (s =? "2026-05-25")%string then Some true else if (s =? "2025-01-01")%string then Some false else None;
  parse_ymd s := None;
  date_text d := if d then "2026-05-25" else "2025-01-01"
|}.
#[export] Instance sample_date_laws : DateLaws.
Proof. by split; intros; destruct_or?; repeat match goal with d : Date |- _ => destruct d end. Qed.

#[export] Instance sample_settings : Settings (gmap string string) := {|
  redis_get k w := (Ok (w !! k), w);
  redis_set k v w := (Ok tt, <[k := v]> w)
|}.
#[export] Instance sample_settings_laws : SettingsLaws (gmap string string).
Proof.
  refine {| setting w k := w !! k |}.
  - intros w w' r k v [= <- <-]. apply lookup_insert_eq.
  - by intros w w' k v [= <- <-].
Defined.

Lemma set_data_floor_survives_witness :
  ∃ b s', set_data_floor "2025-01-01" (mkWeb (∅ : gmap string string) (Some (true : @Date sample_dates))) = (Ok b, s') ∧
    b_success b = true ∧ load_data_floor (ws_world s') = (Ok (ws_floor s'), ws_world s') ∧ ws_floor s' = Some (false : @Date sample_dates).
Proof.
  destruct (set_data_floor "2025-01-01" (mkWeb (∅ : gmap string string) (Some (true : @Date sample_dates)))) as [r s'] eqn:Hrun.
  destruct r as [b|e|p]; [|vm_compute in Hrun; discriminate Hrun..]. exists b, s'.
  pose proof (set_data_floor_survives _ _ _ _ Hrun) as Hspec.
  assert (b_success b = true) as Hb by (vm_compute in Hrun; by injection Hrun as <- _).
  rewrite Hb in Hspec. split_and!; [done|done|by apply (Hspec (ws_world s' !! DATA_FLOOR_KEY))|].
  vm_compute in Hrun. by injection Hrun as _ <-.
Defined.

(** All three filters, and a floor. *)
Lemma recent_txs_bound_witness :
  let show (b : Bind) := match b with BMidnight d => date_text d | BInt z => i64_text z | _ => "?"%string end in
  let f := mkTxFilters (Some (false : @Date sample_dates)) (Some (true : @Date sample_dates)) (Some 7) in
  let '(text, binds) := recent_txs_for_project (Some (true : @Date sample_dates)) 1 "x" 50 100 f in
  inline show binds None text = "SELECT
             block_number, tx_hash, gas_used, gas_saved, wei_saved, block_timestamp
           FROM analysis
           WHERE chain_id = 1 AND project_slug = ?
             AND gas_saved > 0
             AND cardinality(skipped_opcodes) = 0 AND block_timestamp >= 2025-01-01::timestamptz AND block_timestamp <  2026-05-25::timestamptz AND gas_saved >= 7::bigint AND block_timestamp >= DATE '2026-05-25'
           ORDER BY block_timestamp DESC
           LIMIT 50 OFFSET 100"%string.
Proof.
  intros show f.
  destruct (recent_txs_bound show (Some (true : @Date sample_dates)) 1 "x" 0 [] 50 100 f) as [Hproject _].
  destruct (recent_txs_for_project (Some (true : @Date sample_dates)) 1 "x" 50 100 f) as [text binds].
  rewrite Hproject. vm_compute. reflexivity.
Defined.
