(* ===== verification/Diagnose.v ===== *)
(** * The diagnosis button

    [crates/indexer-web]: the snapshot of the indexer that is sent to a language model
    ([diagnostics.rs]), the client of the model ([llm.rs]), and the handler with its cache and its rate
    limit, the markdown it renders and the links it lets through ([admin.rs]). Postgres, Redis, HTTP, the
    clock, JSON and the markdown parser are classes. The queries that the code runs at once run one after
    the other; durations and logs are left out. *)

From Stdlib Require Import SpecFloat Strings.Ascii.
From S2P Require Import Prelude.
From S2P Require Import Types.
From S2P Require Import Trace.
From S2P Require Import Transport.
From S2P Require Import Jobs.
From S2P Require Import Labeler.
From S2P Require Import Auth.
From S2P Require Import Refresher.
From S2P Require Import Web.

(** ** The snapshot *)

(** The row of [queries::analysis_health]. *)
Record AnalysisHealthRow := mkHealthRow {
  ah_total_rows : option Z;
  ah_latest_block : option Z;
  ah_last_insert_age_secs : option spec_float
}.

(** What the snapshot and the health view read of Postgres and Redis. The rows of the unknown contracts
    hold an address, a count and the text of the wei saved. *)
Class Monitor (W : Type) := {
  analysis_health : Z → Eff WebError W AnalysisHealthRow;
  rows_since : Z → string → Eff string W Z;
  unknown_rows : Z → Z → Eff string W (list (list Z * Z * string));
  labeler_rows : Z → Z → Eff string W (list (list Z * string * option string * option string));
  redis_get_i64 : string → Eff string W (option Z);
  xrevrange : string → nat → Eff string W (list (string * list (string * string)));
  now_rfc3339 : W → string * W
}.

Record ServiceHealth := mkServiceHealth {
  sh_head_block : option Z;
  sh_latest_analyzed_block : option Z;
  sh_blocks_behind : option Z;
  sh_pending_queue_depth : Z;
  sh_dead_letter_depth : Z;
  sh_labeler_queue_depth : Z;
  sh_blocks_skipped : Z;
  sh_jobs_dropped_stale : Z;
  sh_last_insert_age_secs : option Z;
  sh_total_rows : Z
}.
Record Throughput := mkThroughput { rows_last_1h : Z; rows_last_24h : Z; rows_last_7d : Z }.
Record UnknownEntry := mkUnknownEntry { ue_address : string; ue_tx_count : Z; ue_wei_saved : string }.
Record LabelerOutcome := mkLabelerOutcome {
  lo_address : string;
  lo_last_result : string;
  lo_contract_name : option string;
  lo_matched_slug : option string
}.
Record RecentEvent := mkRecentEvent {
  re_ts : string;
  re_level : string;
  re_target : string;
  re_message : string
}.
Record DiagnosticsBundle := mkBundle {
  db_now : string;
  db_service_health : ServiceHealth;
  db_throughput : Throughput;
  db_top_unknowns : list UnknownEntry;
  db_recent_labeler_outcomes : list LabelerOutcome;
  db_recent_events : list RecentEvent;
  db_chain_id : Z;              (* [ConfigSummary] *)
  db_etherscan_enabled : bool
}.

(** Subtraction on [i64] in a release build. *)
Definition i64_wrap (z : Z) : Z := (z + 2 ^ 63) mod 2 ^ 64 - 2 ^ 63.
Definition i64_sub (a b : Z) : Z := i64_wrap (a - b).

Section snapshot.
Context {W : Type} `{Monitor W, QueueServer W, SortedSet W}.

(** [.await.unwrap_or(default)]. *)
Definition unwrap_or {E F A} (d : A) (m : Eff E W A) : Eff F W A := r ← eff_ok m; mret (default d r).
(** A counter in Redis: an absent key, like an error, reads as zero. *)
Definition counter {F} (key : string) : Eff F W Z :=
  n ← unwrap_or None (redis_get_i64 key); mret (default 0 n).

Definition collect_throughput {F} (chain_id : Z) : Eff F W Throughput :=
  one ← unwrap_or 0 (rows_since chain_id "1 hour");
  day ← unwrap_or 0 (rows_since chain_id "24 hours");
  week ← unwrap_or 0 (rows_since chain_id "7 days");
  mret (mkThroughput one day week).

Definition collect_top_unknowns {F} (chain_id limit : Z) : Eff F W (list UnknownEntry) :=
  rows ← unwrap_or [] (unknown_rows chain_id limit);
  mret ((λ '(addr, n, wei), mkUnknownEntry ("0x" +:+ hex_string addr) n wei) <$> rows).

Definition collect_labeler_outcomes {F} (chain_id limit : Z) : Eff F W (list LabelerOutcome) :=
  rows ← unwrap_or [] (labeler_rows chain_id limit);
  mret ((λ '(addr, result, name, slug),
           mkLabelerOutcome ("0x" +:+ hex_string addr) result name slug) <$> rows).

(** An entry of the stream: of a repeated field, the last. *)
Definition recent_event (entry : string * list (string * string)) : RecentEvent :=
  let map : gmap string string := list_to_map (reverse entry.2) in
  mkRecentEvent entry.1 (default ""%string (map !! "level"%string))
    (default ""%string (map !! "target"%string)) (default ""%string (map !! "message"%string)).

Definition collect_recent_events {F} (limit : nat) : Eff F W (list RecentEvent) :=
  entries ← unwrap_or [] (xrevrange "indexer:events" limit);
  mret (recent_event <$> entries).

(** [collect], of the chain and the hint of the application's state. *)
Definition collect {F} (chain_id : Z) (etherscan_enabled_hint : string) : Eff F W DiagnosticsBundle :=
  analysis ← eff_ok (analysis_health chain_id);
  throughput ← collect_throughput chain_id;
  top_unknowns ← collect_top_unknowns chain_id 10;
  recent_outcomes ← collect_labeler_outcomes chain_id 10;
  pending ← unwrap_or 0 (llen Jobs.QUEUE_KEY);
  dead ← unwrap_or 0 (llen DEAD_KEY);
  labeler_depth ← unwrap_or 0 (zcard "labeler:queue");
  head_block ← unwrap_or None (redis_get_i64 LAST_HEAD_KEY);
  blocks_skipped ← counter SKIPPED_BLOCKS_KEY;
  jobs_dropped_stale ← counter EXPIRED_JOBS_KEY;
  recent_events ← collect_recent_events 25;
  let latest_analyzed_block := analysis ≫= ah_latest_block in
  let blocks_behind := a ← latest_analyzed_block; h ← head_block; Some (i64_sub h a) in
  let last_insert_age_secs := f64_as_i64 <$> (analysis ≫= ah_last_insert_age_secs) in
  let total_rows := default 0 (analysis ≫= ah_total_rows) in
  now ← eff_total now_rfc3339;
  mret (mkBundle now
    (mkServiceHealth head_block latest_analyzed_block blocks_behind pending dead labeler_depth
       blocks_skipped jobs_dropped_stale last_insert_age_secs total_rows)
    throughput top_unknowns recent_outcomes recent_events chain_id
    (negb (etherscan_enabled_hint =? "")%string)).
End snapshot.

(** ** The model's client *)

Record LlmClient := mkLlmClient { lc_api_key : string; lc_base_url : string; lc_model : string }.
Record ChatRequest := mkChatRequest {
  cr_model : string;
  cr_messages : list (string * string);       (* role and content *)
  cr_temperature : spec_float;
  cr_max_tokens : Z
}.
(** [ChatResponse]: the contents of its choices, and the tokens of its usage if there is one. *)
Record ChatResponse := mkChatResponse { cp_choices : list string; cp_usage : option (Z * Z) }.
Record LlmResponse := mkLlmResponse { lr_content : string; lr_tokens_in : Z; lr_tokens_out : Z }.
Inductive LlmError :=
  | LHttp (why : string)
  | LNoContent
  | LApi (status : Z) (message : string).

(** A POST with its bearer key, the status of its response, and the response's text or JSON. *)
Class LlmApi (W : Type) := {
  LlmHttpResponse : Type;
  post_chat : string → string → ChatRequest → Eff string W LlmHttpResponse;
  response_status : LlmHttpResponse → Z;
  response_text : LlmHttpResponse → Eff string W string;
  response_json : LlmHttpResponse → Eff string W ChatResponse
}.

(** [s.chars().take(n)] on UTF-8: a continuation byte belongs to the character before it. *)
Definition is_continuation (c : ascii) : bool := (0x80 <=? byte_of c) && (byte_of c <=? 0xBF).
Fixpoint take_chars (n : nat) (s : string) : string :=
  match s with
  | EmptyString => EmptyString
  | String c s =>
      if is_continuation c then String c (take_chars n s)
      else match n with O => EmptyString | S n => String c (take_chars n s) end
  end.

(** [StatusCode::is_success]. *)
Definition is_success (status : Z) : bool := (200 <=? status) && (status <? 300).

(** The temperature, 0.2 as an [f32]. *)
Definition TEMPERATURE : spec_float := S754_finite false 13421773 (-26).

Section llm.
Context {W : Type} `{LlmApi W}.

Definition complete (client : LlmClient) (system user : string) : Eff LlmError W LlmResponse :=
  let body := mkChatRequest (lc_model client) [("system"%string, system); ("user"%string, user)]
                TEMPERATURE 600 in
  let url := trim_end_slashes (lc_base_url client) +:+ "/chat/completions" in
  resp ← eff_map_err LHttp (post_chat url (lc_api_key client) body);
  let status := response_status resp in
  if negb (is_success status) then
    message ← unwrap_or ""%string (response_text resp);
    eff_res (Err (LApi status (take_chars 500 message)))
  else
    parsed ← eff_map_err LHttp (response_json resp);
    content ← eff_res (ok_or (head (cp_choices parsed)) LNoContent);
    mret (mkLlmResponse content (default 0 (fst <$> cp_usage parsed)) (default 0 (snd <$> cp_usage parsed))).
End llm.

(** ** Markdown *)

(** [char::is_whitespace] at the head of a UTF-8 text: the bytes of the character, if it is one. *)
Definition bytes_of (s : string) : list Z := byte_of <$> String.list_ascii_of_string s.
Definition whitespace_len (s : string) : nat :=
  match bytes_of s with
  | b :: rest =>
      if (0x09 <=? b) && (b <=? 0x0D) || (b =? 0x20) then 1%nat
      else
        match rest with
        | b2 :: rest =>
            if (b =? 0xC2) && ((b2 =? 0x85) || (b2 =? 0xA0)) then 2%nat
            else
              match rest with
              | b3 :: _ =>
                  if (b =? 0xE1) && (b2 =? 0x9A) && (b3 =? 0x80) then 3%nat
                  else if (b =? 0xE2) && (b2 =? 0x80) &&
                    ((0x80 <=? b3) && (b3 <=? 0x8A) || (b3 =? 0xA8) || (b3 =? 0xA9) || (b3 =? 0xAF))
                  then 3%nat
                  else if (b =? 0xE2) && (b2 =? 0x81) && (b3 =? 0x9F) then 3%nat
                  else if (b =? 0xE3) && (b2 =? 0x80) && (b3 =? 0x80) then 3%nat
                  else 0%nat
              | [] => 0%nat
              end
        | [] => 0%nat
        end
  | [] => 0%nat
  end.

(** [str::trim_start]: [fuel] is the length of the text, of which every round takes a part. *)
Fixpoint drop_bytes (n : nat) (s : string) : string :=
  match n, s with S n, String _ s => drop_bytes n s | _, _ => s end.
Fixpoint trim_start_from (fuel : nat) (s : string) : string :=
  match fuel with
  | O => s
  | S fuel =>
      match whitespace_len s with
      | O => s
      | n => trim_start_from fuel (drop_bytes n s)
      end
  end.
Definition trim_start (s : string) : string := trim_start_from (String.length s) s.

Definition is_tab_or_newline (c : ascii) : bool :=
  (byte_of c =? 0x09) || (byte_of c =? 0x0A) || (byte_of c =? 0x0D).
Fixpoint strip_chars (P : ascii → bool) (s : string) : string :=
  match s with
  | EmptyString => EmptyString
  | String c s => if P c then strip_chars P s else String c (strip_chars P s)
  end.

(** What precedes the first colon. *)
Fixpoint before_colon (s : string) : option string :=
  match s with
  | EmptyString => None
  | String c s => if Ascii.eqb c ":"%char then Some EmptyString else String c <$> before_colon s
  end.

Definition scheme_char (c : ascii) : bool :=
  alphanumeric c || Ascii.eqb c "+" || Ascii.eqb c "-" || Ascii.eqb c ".".
Definition looks_like_scheme (scheme : string) : bool :=
  match scheme with
  | String c _ => (ascii_lowercase c || ascii_uppercase c) && all_chars scheme_char scheme
  | EmptyString => false
  end.
Definition allowed_scheme (scheme : string) : bool :=
  let scheme := to_ascii_lowercase scheme in
  ((scheme =? "http") || (scheme =? "https") || (scheme =? "mailto"))%string.

Definition is_safe_url (url : string) : bool :=
  match before_colon (trim_start (strip_chars is_tab_or_newline url)) with
  | None => true
  | Some scheme => if negb (looks_like_scheme scheme) then true else allowed_scheme scheme
  end.

(** The parser's events, of which the others pass as they are. *)
Inductive MdEvent (L O : Type) :=
  | MdHtml (raw : string)
  | MdInlineHtml (raw : string)
  | MdText (text : string)
  | MdLink (link_type : L) (dest_url title id : string)
  | MdImage (link_type : L) (dest_url title id : string)
  | MdOther (o : O).
Arguments MdHtml {L O}. Arguments MdInlineHtml {L O}. Arguments MdText {L O}.
Arguments MdLink {L O}. Arguments MdImage {L O}. Arguments MdOther {L O}.

Class Markdown := {
  LinkType : Type;
  OtherEvent : Type;
  parse_markdown : string → list (MdEvent LinkType OtherEvent);
  push_html : list (MdEvent LinkType OtherEvent) → string
}.

(** The closure of [render_markdown]. *)
Definition guard_event {L O} (ev : MdEvent L O) : MdEvent L O :=
  match ev with
  | MdHtml raw | MdInlineHtml raw => MdText raw
  | MdLink link_type dest_url title id =>
      if negb (is_safe_url dest_url) then MdLink link_type "" title id else ev
  | MdImage link_type dest_url title id =>
      if negb (is_safe_url dest_url) then MdImage link_type "" title id else ev
  | _ => ev
  end.

Definition render_markdown `{Markdown} (src : string) : string :=
  push_html (guard_event <$> parse_markdown src).

(** ** The handler *)

(** Instants, in nanoseconds since the clock's start. *)
Class Clock (W : Type) := { instant_now : W → Z * W }.

(** [Instant::elapsed] and [as_secs]. *)
Definition NANOS : Z := 1000000000.
Definition as_secs (nanos : Z) : Z := nanos / NANOS.
Definition elapsed (now at_ : Z) : Z := Z.max 0 (now - at_).

Record DiagnoseCache := mkDiagnoseCache {
  last_response : option (Z * string);
  last_call_at : option Z
}.
Definition DiagnoseCache_default : DiagnoseCache := mkDiagnoseCache None None.

(** The world, and the cache behind its lock. *)
Record DiagState (W : Type) := mkDiag { dg_world : W; dg_cache : DiagnoseCache }.
Arguments mkDiag {W}. Arguments dg_world {W}. Arguments dg_cache {W}.

(** The fields of [AppState] the handler reads. *)
Record DiagnoseConfig := mkDiagnoseConfig {
  dc_chain_id : Z;
  dc_etherscan_enabled_hint : string;
  dc_llm : option LlmClient;
  dc_rate_limit_secs : Z;
  dc_cache_ttl_secs : Z
}.

Record DiagnoseFragment := mkFragment {
  df_html : string;
  df_model : string;
  df_tokens_in : Z;
  df_tokens_out : Z;
  df_cached : bool
}.
Inductive DiagnoseError :=
  | DNoKey                              (* "OPENROUTER_KEY is not set ..." *)
  | DRateLimited (secs : Z)             (* "rate-limited; try again in {}s" *)
  | DBundle (why : string)              (* "bundle serialization failed: {e}" *)
  | DLlm (e : LlmError).

(** What the gate says, with the lock held. *)
Inductive GateAnswer := GCached (body : string) | GRateLimited (secs : Z) | GCall.

Definition nl : string := String (ascii_of_nat 10) EmptyString.

Section handler.
Context {W : Type} `{Markdown, Clock W, Monitor W, QueueServer W, SortedSet W, LlmApi W}.
(** [serde_json::to_string] of a bundle, and the constant [SYSTEM_PROMPT]. *)
Variables (bundle_json : DiagnosticsBundle → string + string) (SYSTEM_PROMPT : string).

Abbreviation Run A := (Eff DiagnoseError (DiagState W) A).
Definition in_diag {A} (m : Eff DiagnoseError W A) : Run A :=
  zoom dg_world (λ w s, mkDiag w (dg_cache s)) m.
Definition read_cache : Run DiagnoseCache := λ s, (Ok (dg_cache s), s).
Definition write_cache (cache : DiagnoseCache) : Run unit := λ s, (Ok tt, mkDiag (dg_world s) cache).
Definition read_clock : Run Z := in_diag (eff_total instant_now).

(** The body of the last response, if it is younger than the cache's lifetime. *)
Definition fresh_response (ttl_secs : Z) (cache : DiagnoseCache) : Run (option string) :=
  match last_response cache with
  | Some (at_, body) =>
      now ← read_clock;
      mret (if as_secs (elapsed now at_) <? ttl_secs then Some body else None)
  | None => mret None
  end.

(** How long the next call has to wait, if it has to. *)
Definition call_wait (limit_secs : Z) (cache : DiagnoseCache) : Run (option Z) :=
  match last_call_at cache with
  | Some last =>
      now ← read_clock;
      let elapsed := as_secs (elapsed now last) in
      mret (if elapsed <? limit_secs then Some (limit_secs - elapsed) else None)
  | None => mret None
  end.

(** The block that holds the lock. *)
Definition gate (cfg : DiagnoseConfig) : Run GateAnswer :=
  cache ← read_cache;
  fresh ← fresh_response (dc_cache_ttl_secs cfg) cache;
  match fresh with
  | Some body => mret (GCached body)
  | None =>
      wait ← call_wait (dc_rate_limit_secs cfg) cache;
      match wait with
      | Some secs => mret (GRateLimited secs)
      | None =>
          now ← read_clock;
          _ ← write_cache (mkDiagnoseCache (last_response cache) (Some now));
          mret GCall
      end
  end.

(** The bundle and the call, without the lock. *)
Definition ask (cfg : DiagnoseConfig) (client : LlmClient) : Eff DiagnoseError W LlmResponse :=
  bundle ← collect (dc_chain_id cfg) (dc_etherscan_enabled_hint cfg);
  match bundle_json bundle with
  | inr e => eff_res (Err (DBundle e))
  | inl s =>
      let user_prompt :=
        "Diagnose the current state of this indexer." +:+ nl +:+ nl +:+ "Bundle:" +:+ nl +:+ s in
      eff_map_err DLlm (complete client SYSTEM_PROMPT user_prompt)
  end.

(** The second block that holds the lock. *)
Definition store_response (content : string) : Run unit :=
  cache ← read_cache;
  now ← read_clock;
  write_cache (mkDiagnoseCache (Some (now, content)) (last_call_at cache)).

Definition diagnose (cfg : DiagnoseConfig) : Run DiagnoseFragment :=
  client ← eff_res (ok_or (dc_llm cfg) DNoKey);
  answer ← gate cfg;
  match answer with
  | GCached body => mret (mkFragment (render_markdown body) (lc_model client) 0 0 true)
  | GRateLimited secs => eff_res (Err (DRateLimited secs))
  | GCall =>
      resp ← in_diag (ask cfg client);
      _ ← store_response (lr_content resp);
      mret (mkFragment (render_markdown (lr_content resp)) (lc_model client) (lr_tokens_in resp)
              (lr_tokens_out resp) false)
  end.
End handler.
