(* ===== verification/DiagnoseSpec.v ===== *)
(** * What the diagnosis button guarantees

    The handler gives up its lock while the model is asked, so requests interleave: the lock's two blocks
    are the steps of a system whose world may change between them. In every run of it the calls of the
    model keep their distance, a cached answer is young and was the model's, and a refusal tells for how
    long. The markdown that is rendered holds no raw HTML and no link with a scheme that is not allowed,
    as a browser reads it. *)

From Stdlib Require Import Strings.Ascii Sorting.Sorted.
From S2P Require Import Prelude.
From S2P Require Import Types.
From S2P Require Import Trace.
From S2P Require Import Transport.
From S2P Require Import Jobs.
From S2P Require Import Labeler.
From S2P Require Import Auth.
From S2P Require Import Web.
From S2P Require Import Effects.
From S2P Require Import Diagnose.

(** ** Time *)

(** The clock does not go back: [clock] bounds the readings so far. *)
Class ClockLaws (W : Type) `{Clock W} := {
  clock : W → Z;
  instant_now_law w : clock w <= (instant_now w).1 <= clock (instant_now w).2
}.

Lemma as_secs_lt d n : as_secs d < n ↔ d < n * NANOS.
Proof.
  unfold as_secs, NANOS. split; intros H.
  - pose proof (Z.mul_succ_div_gt d 1000000000). lia.
  - apply Z.div_lt_upper_bound; lia.
Qed.

Lemma elapsed_lt now at_ n : as_secs (elapsed now at_) < n ↔ 0 < n ∧ now < at_ + n * NANOS.
Proof. rewrite as_secs_lt. unfold elapsed, NANOS. lia. Qed.

(** ** Interleaved requests *)

(** What a step of a request leaves in the log: a call of the model at an instant; its answer stored; a
    cached answer, with the time of the request; a refusal, with the times before and after. *)
Inductive Entry :=
  | ECall (at_ : Z)
  | EStore (at_ : Z) (body : string)
  | ECached (asked : Z) (body : string)
  | EWait (asked told secs : Z).

Definition call_time (e : Entry) : option Z := match e with ECall t => Some t | _ => None end.
Definition stored (e : Entry) : option (Z * string) :=
  match e with EStore t body => Some (t, body) | _ => None end.
Definition calls (log : list Entry) : list Z := omap call_time log.
Definition stores (log : list Entry) : list (Z * string) := omap stored log.
#[global] Arguments calls : simpl never.
#[global] Arguments stores : simpl never.

Section system.
Context {W : Type} `{Clock W, !ClockLaws W}.

(** The state, how many requests are waiting for the model, and the log. *)
Record System := mkSystem { sy_state : DiagState W; sy_flying : nat; sy_log : list Entry }.

Definition fresh_system (w : W) : System := mkSystem (mkDiag w DiagnoseCache_default) 0 [].

Definition gate_entry (before after : DiagState W) (answer : GateAnswer) : Entry :=
  match answer with
  | GCall => ECall (default 0 (last_call_at (dg_cache after)))
  | GCached body => ECached (clock (dg_world before)) body
  | GRateLimited secs => EWait (clock (dg_world before)) (clock (dg_world after)) secs
  end.

Inductive step (cfg : DiagnoseConfig) : System → System → Prop :=
  | step_gate s n log answer s' :
      gate cfg s = (Ok answer, s') →
      step cfg (mkSystem s n log)
        (mkSystem s' (match answer with GCall => S n | _ => n end) (log ++ [gate_entry s s' answer]))
  | step_store s n log content s' at_ body :
      store_response content s = (Ok tt, s') → last_response (dg_cache s') = Some (at_, body) →
      step cfg (mkSystem s (S n) log) (mkSystem s' n (log ++ [EStore at_ body]))
  | step_fail s n log : step cfg (mkSystem s (S n) log) (mkSystem s n log)
  | step_world s n log w :
      clock (dg_world s) <= clock w →
      step cfg (mkSystem s n log) (mkSystem (mkDiag w (dg_cache s)) n log).

(** What an entry says of those before it. *)
Definition entry_ok (cfg : DiagnoseConfig) (before : list Entry) (e : Entry) : Prop :=
  match e with
  | ECall t => ∀ t0, last (calls before) = Some t0 → t0 + dc_rate_limit_secs cfg * NANOS <= t
  | EStore _ _ => True
  | ECached asked body =>
      ∃ t, last (stores before) = Some (t, body) ∧ asked < t + dc_cache_ttl_secs cfg * NANOS
  | EWait asked told secs =>
      0 < secs <= dc_rate_limit_secs cfg ∧
      ∃ t, last (calls before) = Some t ∧ asked < t + dc_rate_limit_secs cfg * NANOS ∧
        t + dc_rate_limit_secs cfg * NANOS <= told + secs * NANOS
  end.
Definition log_ok (cfg : DiagnoseConfig) (log : list Entry) : Prop :=
  ∀ before e after, log = before ++ e :: after → entry_ok cfg before e.

Lemma log_ok_snoc cfg log e : log_ok cfg log → entry_ok cfg log e → log_ok cfg (log ++ [e]).
Proof.
  intros Hlog He before e' after Heq.
  destruct after as [|a after] using rev_ind; [by apply app_inj_tail in Heq as [<- <-]|].
  rewrite app_comm_cons, app_assoc in Heq. apply app_inj_tail in Heq as [-> _]. by eapply Hlog.
Qed.

Lemma calls_snoc log e :
  last (calls (log ++ [e])) = match e with ECall t => Some t | _ => last (calls log) end.
Proof. unfold calls. rewrite omap_app. destruct e; cbn; by rewrite ?last_snoc, ?app_nil_r. Qed.
Lemma stores_snoc log e :
  last (stores (log ++ [e])) = match e with EStore t body => Some (t, body) | _ => last (stores log) end.
Proof. unfold stores. rewrite omap_app. destruct e; cbn; by rewrite ?last_snoc, ?app_nil_r. Qed.

(** The cache is what the log ends with, and the log is as it should be. *)
Definition system_ok (cfg : DiagnoseConfig) (s : System) : Prop :=
  last_call_at (dg_cache (sy_state s)) = last (calls (sy_log s)) ∧
  last_response (dg_cache (sy_state s)) = last (stores (sy_log s)) ∧
  (∀ t, last_call_at (dg_cache (sy_state s)) = Some t → t <= clock (dg_world (sy_state s))) ∧
  log_ok cfg (sy_log s).

(** A reading of the clock. *)
Lemma read_clock_run (s : DiagState W) r s' :
  read_clock s = (r, s') → ∃ now, r = Ok now ∧ dg_cache s' = dg_cache s ∧
    clock (dg_world s) <= now <= clock (dg_world s').
Proof.
  unfold read_clock, in_diag, zoom, eff_total.
  pose proof (instant_now_law (dg_world s)) as Hlaw. destruct (instant_now (dg_world s)) as [now w].
  intros [= <- <-]. cbn in *. eauto.
Qed.

Lemma fresh_response_run ttl_secs (s : DiagState W) r s' :
  fresh_response ttl_secs (dg_cache s) s = (r, s') →
  dg_cache s' = dg_cache s ∧ clock (dg_world s) <= clock (dg_world s') ∧ ∃ fresh, r = Ok fresh ∧
    ∀ body, fresh = Some body → ∃ t, last_response (dg_cache s) = Some (t, body) ∧
      clock (dg_world s) < t + ttl_secs * NANOS.
Proof.
  unfold fresh_response. destruct (last_response (dg_cache s)) as [[t body]|].
  - intros Hrun. apply eff_bind_run in Hrun as [(now & s1 & Hclock & [= <- <-])|(r0 & Hclock & Hr & _)];
      apply read_clock_run in Hclock as (now' & [= ] & Hcache & Ht); subst; [|done].
    split; [done|]. split; [lia|]. eexists. split; [done|]. intros b.
    destruct (as_secs _ <? _) eqn:Hlt; [|done]. intros [= <-].
    apply Z.ltb_lt, elapsed_lt in Hlt. exists t. split; [done|]. lia.
  - intros [= <- <-]. split; [done|]. split; [lia|]. eexists. split; [done|]. by intros body.
Qed.

Lemma call_wait_run limit_secs (s : DiagState W) r s' :
  call_wait limit_secs (dg_cache s) s = (r, s') →
  (∀ t, last_call_at (dg_cache s) = Some t → t <= clock (dg_world s)) →
  dg_cache s' = dg_cache s ∧ clock (dg_world s) <= clock (dg_world s') ∧ ∃ wait, r = Ok wait ∧
    match wait with
    | Some secs => 0 < secs <= limit_secs ∧ ∃ t, last_call_at (dg_cache s) = Some t ∧
        clock (dg_world s) < t + limit_secs * NANOS ∧
        t + limit_secs * NANOS <= clock (dg_world s') + secs * NANOS
    | None => ∀ t, last_call_at (dg_cache s) = Some t →
        limit_secs <= 0 ∨ t + limit_secs * NANOS <= clock (dg_world s')
    end.
Proof.
  unfold call_wait. destruct (last_call_at (dg_cache s)) as [t|].
  - intros Hrun Hlast. specialize (Hlast t eq_refl). apply eff_bind_run in Hrun as [(now & s1 & Hclock & [= <- <-])|(r0 & Hclock & Hr & _)];
      apply read_clock_run in Hclock as (now' & [= ] & Hcache & Ht); subst; [|done].
    split; [done|]. split; [lia|]. eexists. split; [done|].
    destruct (as_secs _ <? _) eqn:Hlt.
    + apply Z.ltb_lt in Hlt. pose proof (proj1 (elapsed_lt _ _ _) Hlt).
      assert (0 <= as_secs (elapsed now' t)) by (unfold as_secs, elapsed, NANOS; apply Z.div_pos; lia).
      split; [lia|]. exists t. split; [done|]. split; [lia|].
      pose proof (Z.mul_div_le (elapsed now' t) NANOS ltac:(reflexivity)) as Hdiv.
      unfold elapsed, as_secs, NANOS in *. lia.
    + apply Z.ltb_ge in Hlt. intros t' [= <-].
      destruct (Z.le_gt_cases limit_secs 0); [by left|right].
      apply Z.le_ngt in Hlt. rewrite elapsed_lt in Hlt. lia.
  - intros [= <- <-] _. split; [done|]. split; [lia|]. eexists. split; [done|]. by intros t.
Qed.

(** What the gate answers, and does. *)
Lemma gate_run cfg (s : DiagState W) r s' :
  gate cfg s = (r, s') → 0 <= dc_rate_limit_secs cfg →
  (∀ t, last_call_at (dg_cache s) = Some t → t <= clock (dg_world s)) →
  clock (dg_world s) <= clock (dg_world s') ∧ ∃ answer, r = Ok answer ∧
  match answer with
  | GCached body => dg_cache s' = dg_cache s ∧ ∃ t, last_response (dg_cache s) = Some (t, body) ∧
      clock (dg_world s) < t + dc_cache_ttl_secs cfg * NANOS
  | GRateLimited secs => dg_cache s' = dg_cache s ∧ 0 < secs <= dc_rate_limit_secs cfg ∧
      ∃ t, last_call_at (dg_cache s) = Some t ∧
        clock (dg_world s) < t + dc_rate_limit_secs cfg * NANOS ∧
        t + dc_rate_limit_secs cfg * NANOS <= clock (dg_world s') + secs * NANOS
  | GCall => ∃ t, dg_cache s' = mkDiagnoseCache (last_response (dg_cache s)) (Some t) ∧
      t <= clock (dg_world s') ∧
      ∀ t0, last_call_at (dg_cache s) = Some t0 → t0 + dc_rate_limit_secs cfg * NANOS <= t
  end.
Proof.
  intros Hrun Hlimit Hlast. unfold gate in Hrun. unfold mbind at 1, eff_bind at 1, read_cache at 1 in Hrun.
  apply eff_bind_run in Hrun as [(fresh & s1 & Hfresh & Hrun)|(r0 & Hfresh & Hr & _)];
    apply fresh_response_run in Hfresh as (Hc1 & Ht1 & fresh' & [= ] & Hf); subst; [|done].
  destruct fresh' as [body|].
  { injection Hrun as <- <-. split; [lia|]. eexists. split; [done|]. split; [done|by apply Hf]. }
  rewrite <-Hc1 in Hrun at 1.
  apply eff_bind_run in Hrun as [(wait & s2 & Hwait & Hrun)|(r0 & Hwait & Hr & _)];
    (apply call_wait_run in Hwait as (Hc2 & Ht2 & wait' & [= ] & Hw);
       [|rewrite Hc1; intros t0 Ht0; specialize (Hlast t0 Ht0); lia]); subst; [|done].
  rewrite Hc1 in Hw. destruct wait' as [secs|].
  { injection Hrun as <- <-. split; [lia|]. eexists. split; [done|].
    destruct Hw as (Hsecs & t & Ht & Hlo & Hhi). split; [congruence|]. split; [done|]. exists t. split_and!; [done|lia|done]. }
  apply eff_bind_run in Hrun as [(now & s3 & Hclock & Hrun)|(r0 & Hclock & Hr & _)];
    apply read_clock_run in Hclock as (now' & [= ] & Hc3 & Ht3); subst; [|done].
  injection Hrun as <- <-. cbn. split; [lia|]. eexists. split; [done|]. exists now'.
  split; [done|]. split; [lia|]. intros t0 Ht0. specialize (Hlast t0 Ht0).
  destruct (Hw t0 Ht0) as [?|?]; [assert (dc_rate_limit_secs cfg = 0) as -> by lia|]; lia.
Qed.

Lemma step_ok cfg s s' :
  0 <= dc_rate_limit_secs cfg → system_ok cfg s → step cfg s s' → system_ok cfg s'.
Proof.
  intros Hlimit (Hcall & Hresp & Hlast & Hlog) Hstep.
  destruct Hstep as [s n log answer s' Hgate|s n log content s' t body Hrun Hat|s n log|s n log w Hw]; cbn in *.
  - apply gate_run in Hgate as (Hclock & answer' & [= <-] & Hanswer); [|done|done].
    unfold system_ok; cbn. rewrite calls_snoc, stores_snoc.
    destruct answer as [body|secs|]; cbn.
    + destruct Hanswer as (-> & t & Ht & Hyoung). split_and!; [done|done| |].
      * intros t0 Ht0. specialize (Hlast t0 Ht0). lia.
      * apply log_ok_snoc; [done|]. cbn. exists t. by rewrite <-Hresp.
    + destruct Hanswer as (-> & Hsecs & t & Ht & Hlo & Hhi). split_and!; [done|done| |].
      * intros t0 Ht0. specialize (Hlast t0 Ht0). lia.
      * apply log_ok_snoc; [done|]. cbn. split; [done|]. exists t. by rewrite <-Hcall.
    + destruct Hanswer as (t & -> & Ht & Hgap). cbn. split_and!; [done|done|by intros ? [= <-]|].
      apply log_ok_snoc; [done|]. cbn. intros t0 Ht0. apply Hgap. by rewrite Hcall.
  - unfold store_response in Hrun. unfold mbind at 1, eff_bind at 1, read_cache at 1 in Hrun.
    apply eff_bind_run in Hrun as [(now & s1 & Hclock & Hrun)|(r0 & Hclock & Hr & _)];
      apply read_clock_run in Hclock as (now' & [= ] & Hc1 & Ht1); subst; [|done].
    injection Hrun as <-. cbn in *. injection Hat as <- <-. unfold system_ok; cbn.
    rewrite calls_snoc, stores_snoc. split_and!; [done|done| |by apply log_ok_snoc].
    intros t0 Ht0. specialize (Hlast t0 Ht0). lia.
  - done.
  - split_and!; try done; cbn. intros t0 Ht0. specialize (Hlast t0 Ht0). lia.
Qed.

Lemma system_ok_run cfg w s :
  0 <= dc_rate_limit_secs cfg → rtc (step cfg) (fresh_system w) s → system_ok cfg s.
Proof.
  intros Hlimit. apply (rtc_ind_r (system_ok cfg) (fresh_system w)); [|intros; by eapply step_ok].
  split_and!; [done|done|by intros t|]. by intros [|] e' after.
Qed.

Lemma gaps_snoc d l t :
  0 <= d → StronglySorted (λ t1 t2, t1 + d <= t2) l → (∀ t0, last l = Some t0 → t0 + d <= t) →
  StronglySorted (λ t1 t2, t1 + d <= t2) (l ++ [t]).
Proof.
  intros Hd. induction 1 as [|x l Hl IH Hx]; intros Hlast; [repeat constructor|]. cbn.
  destruct l as [|y l].
  { constructor; [repeat constructor|]. constructor; [by apply Hlast|done]. }
  rewrite last_cons in Hlast. destruct (last (y :: l)) as [z|] eqn:Hz; [|by apply last_None in Hz].
  specialize (Hlast z eq_refl). constructor; [by apply IH; intros t0 [= <-]|].
  apply Forall_app. split; [done|]. constructor; [|done].
  rewrite Forall_forall in Hx. apply last_Some_elem_of, Hx in Hz. lia.
Qed.

Lemma calls_sorted cfg log :
  0 <= dc_rate_limit_secs cfg → log_ok cfg log →
  StronglySorted (λ t1 t2, t1 + dc_rate_limit_secs cfg * NANOS <= t2) (calls log).
Proof.
  intros Hlimit. induction log as [|e log IH] using rev_ind; intros Hlog; [constructor|].
  assert (log_ok cfg log) as Hlog'.
  { intros before e' after ->. apply (Hlog before e' (after ++ [e])). by rewrite <-app_assoc. }
  specialize (Hlog log e [] eq_refl). specialize (IH Hlog').
  assert (calls (log ++ [e]) = calls log ++ option_list (call_time e)) as ->.
  { unfold calls. rewrite omap_app. by destruct e. }
  destruct e as [t| | |]; cbn; rewrite ?app_nil_r; try done.
  apply gaps_snoc; [unfold NANOS; lia|done|exact Hlog].
Qed.

(** C40: however requests to diagnose interleave, from the start of the process: successive calls of the
    model are at least the rate limit apart; a cached answer is the last one the model gave, stored less
    than the cache's lifetime before the request; and a request is refused only if the last call is
    younger than the limit, with a wait that is at most the limit and after which it is not. *)
Theorem diagnose_rate_limited cfg w s :
  0 <= dc_rate_limit_secs cfg → rtc (step cfg) (fresh_system w) s →
  StronglySorted (λ t1 t2, t1 + dc_rate_limit_secs cfg * NANOS <= t2) (calls (sy_log s)) ∧
  ∀ before e after, sy_log s = before ++ e :: after → entry_ok cfg before e.
Proof.
  intros Hlimit Hrun. destruct (system_ok_run cfg w s Hlimit Hrun) as (_ & _ & _ & Hlog).
  split; [by apply calls_sorted|exact Hlog].
Qed.
End system.

(** ** The handler is such a request *)

Section handler.
Context {W : Type} `{Clock W, !ClockLaws W}.

(** Time does not go back while an operation runs. *)
Definition timely {E A} (m : Eff E W A) : Prop := ∀ w r w', m w = (r, w') → clock w <= clock w'.

Lemma timely_ret {E A} (a : A) : timely (mret a : Eff E W A).
Proof. intros w r w' [= <- <-]. lia. Qed.
Lemma timely_res {E A} (r : Res E A) : timely (eff_res r).
Proof. intros w r' w' [= <- <-]. lia. Qed.
Lemma timely_bind {E A B} (m : Eff E W A) (f : A → Eff E W B) :
  timely m → (∀ a, timely (f a)) → timely (m ≫= f).
Proof.
  intros Hm Hf w r w' Hrun. apply eff_bind_run in Hrun as [(a & w1 & Hm1 & Hrun)|(r0 & Hrun & _)].
  - pose proof (Hm _ _ _ Hm1). pose proof (Hf _ _ _ _ Hrun). lia.
  - by eapply Hm.
Qed.
Lemma timely_map_err {E F A} (g : E → F) (m : Eff E W A) : timely m → timely (eff_map_err g m).
Proof. intros Hm w r w' Hrun. apply eff_map_err_run in Hrun as (r0 & Hrun & _). by eapply Hm. Qed.
Lemma timely_try {E F A} (m : Eff E W A) : timely m → timely (eff_try (F := F) m).
Proof. intros Hm w r w' Hrun. apply eff_try_run in Hrun as (r0 & Hrun & _). by eapply Hm. Qed.
Lemma timely_unwrap_or {E F A} (d : A) (m : Eff E W A) : timely m → timely (unwrap_or (F := F) d m).
Proof.
  intros Hm. unfold unwrap_or, eff_ok.
  apply timely_bind; [apply timely_bind; [by apply timely_try|intros; apply timely_ret]|intros; apply timely_ret].
Qed.

Context `{Markdown, Monitor W, QueueServer W, SortedSet W, LlmApi W}.
Variables (bundle_json : DiagnosticsBundle → string + string) (prompt : string).

Class TimelyServices : Prop := {
  timely_analysis_health c : timely (analysis_health c);
  timely_rows_since c i : timely (rows_since c i);
  timely_unknown_rows c n : timely (unknown_rows c n);
  timely_labeler_rows c n : timely (labeler_rows c n);
  timely_redis_get_i64 k : timely (redis_get_i64 k);
  timely_xrevrange k n : timely (xrevrange k n);
  timely_now_rfc3339 w : clock w <= clock (now_rfc3339 w).2;
  timely_llen k : timely (llen k);
  timely_zcard k : timely (zcard k);
  timely_post_chat u k b : timely (post_chat u k b);
  timely_response_text x : timely (response_text x);
  timely_response_json x : timely (response_json x)
}.

Lemma ask_timely `{!TimelyServices} cfg client : timely (ask bundle_json prompt cfg client).
Proof.
  unfold ask, collect, collect_throughput, collect_top_unknowns, collect_labeler_outcomes, counter,
    collect_recent_events, complete, eff_ok.
  repeat first
    [ apply timely_bind; [|intros ?] | apply timely_map_err | apply timely_unwrap_or | apply timely_try
    | apply timely_ret | apply timely_res | apply timely_analysis_health | apply timely_rows_since
    | apply timely_unknown_rows | apply timely_labeler_rows | apply timely_redis_get_i64
    | apply timely_xrevrange | apply timely_llen | apply timely_zcard | apply timely_post_chat
    | apply timely_response_text | apply timely_response_json | case_match ].
  intros w r w' Hrun. unfold eff_total in Hrun. pose proof (timely_now_rfc3339 w).
  destruct (now_rfc3339 w) as [t w1]. by injection Hrun as <- <-.
Qed.

(** A request that runs undisturbed is a run of the system. *)
Lemma diagnose_steps `{!TimelyServices} cfg s r s' n log :
  0 <= dc_rate_limit_secs cfg →
  (∀ t, last_call_at (dg_cache s) = Some t → t <= clock (dg_world s)) →
  diagnose bundle_json prompt cfg s = (r, s') →
  ∃ log', rtc (step cfg) (mkSystem s n log) (mkSystem s' n log').
Proof.
  intros Hlimit Hlast Hrun. unfold diagnose in Hrun.
  destruct (dc_llm cfg) as [client|]; [|injection Hrun as <- <-; by eexists].
  unfold mbind at 1, eff_bind at 1, eff_res at 1 in Hrun. cbn [ok_or] in Hrun.
  apply eff_bind_run in Hrun as [(answer & s1 & Hgate & Hrun)|(r0 & Hgate & Hfail & _)].
  2:{ apply gate_run in Hgate as (_ & answer & -> & _); done. }
  pose proof (step_gate cfg s n log answer s1 Hgate) as Hstep.
  destruct answer as [body|secs|];
    [injection Hrun as <- <-; by eexists; apply rtc_once..|].
  eassert (rtc (step cfg) (mkSystem s n log) (mkSystem s1 (S n) _)) as Hsteps by by apply rtc_once.
  clear Hstep Hgate.
  assert (Hworld : ∀ resp s2, in_diag (ask bundle_json prompt cfg client) s1 = (resp, s2) →
    dg_cache s2 = dg_cache s1 ∧ clock (dg_world s1) <= clock (dg_world s2)).
  { unfold in_diag, zoom. intros resp s2.
    destruct (ask bundle_json prompt cfg client (dg_world s1)) as [resp' w] eqn:Hask.
    intros [= <- <-]. split; [done|]. by apply ask_timely in Hask. }
  apply eff_bind_run in Hrun as [(resp & s2 & Hask & Hrun)|(r0 & Hask & _)];
    apply Hworld in Hask as [Hcache Hclock].
  - pose proof (rtc_r _ _ _ Hsteps (step_world cfg _ _ _ (dg_world s2) Hclock)) as Hmoved. clear Hsteps; rename Hmoved into Hsteps.
    rewrite <-Hcache in Hsteps. destruct s2 as [w2 cache2]; cbn in Hsteps.
    apply eff_bind_run in Hrun as [([] & s3 & Hstore & [= <- <-])|(r0 & Hstore & Hfail & _)].
    + pose proof Hstore as Hrun. unfold store_response in Hrun.
      unfold mbind at 1, eff_bind at 1, read_cache at 1 in Hrun.
      apply eff_bind_run in Hrun as [(now & s4 & _ & Hw)|(r0 & _ & _ & [])].
      injection Hw as Hw. eexists. eapply rtc_r; [exact Hsteps|].
      eapply step_store; [exact Hstore|]. by rewrite <-Hw.
    + unfold store_response in Hstore. unfold mbind at 1, eff_bind at 1, read_cache at 1 in Hstore.
      apply eff_bind_run in Hstore as [(now & s4 & _ & [= <- <-])|(r1 & Hclk & Hf & _)]; [done|].
      apply read_clock_run in Hclk as (now & -> & _). done.
  - pose proof (rtc_r _ _ _ Hsteps (step_world cfg _ _ _ (dg_world s') Hclock)) as Hmoved. clear Hsteps; rename Hmoved into Hsteps.
    rewrite <-Hcache in Hsteps. destruct s' as [w2 cache2]. eexists.
    eapply rtc_r; [exact Hsteps|apply step_fail].
Qed.
End handler.

(** ** What a browser makes of a link *)

(** The URL standard: leading C0 controls and spaces go, then tabs and newlines; a scheme is a letter and
    letters, digits, [+], [-] and [.] up to a colon. Schemes have no case. *)
Definition c0_or_space (c : ascii) : bool := byte_of c <=? 0x20.
Fixpoint strip_leading (P : ascii → bool) (s : string) : string :=
  match s with
  | String c s' => if P c then strip_leading P s' else s
  | EmptyString => EmptyString
  end.
Definition browser_scheme (url : string) : option string :=
  scheme ← before_colon (strip_chars is_tab_or_newline (strip_leading c0_or_space url));
  if looks_like_scheme scheme then Some (to_ascii_lowercase scheme) else None.

(** The controls a text starts with are white space. *)
Definition is_space (c : ascii) : bool := (9 <=? byte_of c) && (byte_of c <=? 13) || (byte_of c =? 0x20).
Fixpoint starts_spaced (url : string) : bool :=
  match url with
  | String c s => if c0_or_space c then is_space c && starts_spaced s else true
  | EmptyString => true
  end.

Definition scheme_allowed (url : string) : Prop :=
  match browser_scheme url with
  | Some scheme => scheme ∈ ["http"; "https"; "mailto"]%string
  | None => True
  end.

Lemma whitespace_space c s : is_space c = true → whitespace_len (String c s) = 1%nat.
Proof.
  intros Hc. unfold whitespace_len, bytes_of. cbn. change 0x09 with 9. change 0x0D with 13.
  unfold is_space in Hc. by rewrite Hc.
Qed.

Lemma trim_start_space c s : is_space c = true → trim_start (String c s) = trim_start s.
Proof.
  intros Hc. unfold trim_start. cbn [String.length trim_start_from].
  by rewrite whitespace_space.
Qed.

Lemma trim_start_none s : whitespace_len s = 0%nat → trim_start s = s.
Proof. intros Hs. unfold trim_start. destruct s as [|c s]; [done|]. cbn [String.length trim_start_from]. by rewrite Hs. Qed.

(** A text that starts with a character of white space above the space starts with no letter. *)
Lemma whitespace_no_scheme c s :
  c0_or_space c = false → whitespace_len (String c s) ≠ 0%nat →
  (ascii_lowercase c || ascii_uppercase c) = false.
Proof.
  unfold c0_or_space, ascii_lowercase, ascii_uppercase, whitespace_len, bytes_of. cbn.
  generalize (byte_of c). intros b Hb Hlen.
  destruct (_ || (b =? 0x20)) eqn:Hsp; [lia|].
  assert (b = 0xC2 ∨ b = 0xE1 ∨ b = 0xE2 ∨ b = 0xE3) by (repeat case_match; lia). lia.
Qed.

Lemma browser_scheme_seen url scheme :
  starts_spaced url = true → browser_scheme url = Some scheme →
  ∃ text, before_colon (trim_start (strip_chars is_tab_or_newline url)) = Some text ∧
    looks_like_scheme text = true ∧ scheme = to_ascii_lowercase text.
Proof.
  unfold browser_scheme. induction url as [|c url IH]; [by cbn|].
  cbn [starts_spaced strip_leading]. destruct (c0_or_space c) eqn:Hc.
  - intros [Hspace Hrest]%andb_true_iff. specialize (IH Hrest). cbn [strip_chars].
    destruct (is_tab_or_newline c); [exact IH|]. by rewrite trim_start_space.
  - intros _. cbn [strip_chars].
    assert (is_tab_or_newline c = false) as -> by (unfold is_tab_or_newline, c0_or_space in *; lia).
    set (rest := strip_chars is_tab_or_newline url).
    destruct (before_colon (String c rest)) as [text|] eqn:Hcolon; [|done].
    cbn [mbind option_bind]. destruct (looks_like_scheme text) eqn:Hl; [|done]. intros [= <-].
    destruct (decide (whitespace_len (String c rest) = 0%nat)) as [Hw|Hw].
    + rewrite trim_start_none by done. eauto.
    + cbn in Hcolon. apply whitespace_no_scheme in Hw; [|done].
      destruct (Ascii.eqb c ":"%char); [by injection Hcolon as <-|].
      destruct (before_colon rest) as [more|]; [|done]. injection Hcolon as <-.
      cbn in Hl. by rewrite Hw in Hl.
Qed.

Lemma is_safe_url_allowed url :
  starts_spaced url = true → is_safe_url url = true → scheme_allowed url.
Proof.
  intros Hstart Hsafe. unfold scheme_allowed. destruct (browser_scheme url) as [scheme|] eqn:Hb; [|done].
  apply browser_scheme_seen in Hb as (text & Htext & Hlooks & ->); [|done].
  unfold is_safe_url in Hsafe. rewrite Htext, Hlooks in Hsafe. cbn in Hsafe.
  unfold allowed_scheme in Hsafe. rewrite !orb_true_iff, !String.eqb_eq in Hsafe. rewrite !elem_of_cons. tauto.
Qed.

(** A link that the handler lets through to the page. *)
Definition event_safe {L O} (ev : MdEvent L O) : Prop :=
  match ev with
  | MdHtml _ | MdInlineHtml _ => False
  | MdLink _ url _ _ | MdImage _ url _ _ => starts_spaced url = true → scheme_allowed url
  | _ => True
  end.

(** What becomes of an event: raw HTML is a text, a link keeps its destination or has none. *)
Definition guarded {L O} (ev ev' : MdEvent L O) : Prop :=
  match ev with
  | MdHtml raw | MdInlineHtml raw => ev' = MdText raw
  | MdLink ty url title id =>
      ∃ url', ev' = MdLink ty url' title id ∧ url' = (if is_safe_url url then url else "")%string
  | MdImage ty url title id =>
      ∃ url', ev' = MdImage ty url' title id ∧ url' = (if is_safe_url url then url else "")%string
  | _ => ev' = ev
  end.

Lemma guard_event_safe {L O} (ev : MdEvent L O) : event_safe (guard_event ev) ∧ guarded ev (guard_event ev).
Proof.
  destruct ev as [raw|raw|text|ty url title id|ty url title id|o]; cbn; try done;
    destruct (is_safe_url url) eqn:Hsafe; cbn; (split; [|by eexists]); try done;
    intros Hstart; by apply is_safe_url_allowed.
Qed.

(** the page shows the parser's events in their order, but no raw HTML, which is shown as text, and no
    link or image with a scheme, as a browser reads it, other than [http], [https] and [mailto]: in any
    case of letters, and with tabs, newlines and white space around it. A destination that starts with
    another control character is out of the guarantee (see [control_passes]). *)
Theorem render_markdown_guarded `{Markdown} src :
  ∃ events, render_markdown src = push_html events ∧ Forall event_safe events ∧
    Forall2 guarded (parse_markdown src) events.
Proof.
  exists (guard_event <$> parse_markdown src). split; [done|]. split.
  - apply Forall_fmap, Forall_true. intros ev. apply guard_event_safe.
  - apply Forall2_fmap_r, Forall_Forall2_diag, Forall_true. intros ev. apply guard_event_safe.
Qed.

(** A browser drops a leading control character; the check takes what follows for a relative path. *)
Example control_passes :
  let url := String (ascii_of_nat 1) "javascript:alert(1)" in
  is_safe_url url = true ∧ browser_scheme url = Some "javascript"%string.
Proof. split; vm_compute; reflexivity. Qed.

Example split_scheme_refused :
  is_safe_url ("  jAv" +:+ String (ascii_of_nat 9) "ascript:alert(1)") = false.
Proof. vm_compute. reflexivity. Qed.

(** ** A sample run *)

#[local] Instance sample_clock : Clock Z := {| instant_now w := (w, w + 1) |}.
Lemma sample_clock_law (w : Z) : w <= (instant_now w).1 <= (instant_now w).2.
Proof. cbn. lia. Qed.
#[local] Instance sample_clock_laws : ClockLaws Z :=
  {| clock w := w; instant_now_law := sample_clock_law |}.

Definition sample_config : DiagnoseConfig := mkDiagnoseConfig 1 "" None 10 3.

(** A call answered at once, its answer again, and a refusal five seconds later. *)
Lemma diagnose_rate_limited_witness :
  ∃ s, rtc (step sample_config) (fresh_system 0) s ∧
    sy_log s = [ECall 0; EStore 1 "healthy"; ECached 2 "healthy"; EWait (5 * NANOS) (5 * NANOS + 2) 5] ∧
    StronglySorted (λ t1 t2, t1 + 10 * NANOS <= t2) (calls (sy_log s)).
Proof.
  eexists. split; [|split].
  - eapply rtc_l; [apply step_gate; reflexivity|].
    eapply rtc_l; [eapply (step_store _ _ _ _ "healthy"); reflexivity|].
    eapply rtc_l; [apply step_gate; reflexivity|].
    eapply rtc_l; [apply (step_world _ _ _ _ (5 * NANOS)); done|].
    eapply rtc_l; [apply step_gate; reflexivity|]. apply rtc_refl.
  - reflexivity.
  - eapply (diagnose_rate_limited sample_config 0); [done|].
    eapply rtc_l; [apply step_gate; reflexivity|].
    eapply rtc_l; [eapply (step_store _ _ _ _ "healthy"); reflexivity|].
    eapply rtc_l; [apply step_gate; reflexivity|].
    eapply rtc_l; [apply (step_world _ _ _ _ (5 * NANOS)); done|].
    eapply rtc_l; [apply step_gate; reflexivity|]. apply rtc_refl.
Defined.
