(* ===== verification/Format.v ===== *)
(** * Numbers as the dashboard prints them

    Rust's [{:.n}] and [{:.ne}] of an [f64], digit by digit: the decimal nearest to the value, ties to the
    even digit; and the formats of amounts and shares of [crates/indexer-web/src/handlers/public.rs]. *)

From Stdlib Require Import SpecFloat Strings.Ascii.
From S2P Require Import Prelude.
From S2P Require Import Encoding.
From S2P Require Import Auth.
From S2P Require Import Refresher.

(** ** Printing floats *)

(** [num / den] to the nearest integer, ties to even. *)
Definition round_half_even (num den : Z) : Z :=
  let q := num / den in
  match 2 * (num mod den) ?= den with
  | Lt => q
  | Gt => q + 1
  | Eq => if Z.even q then q else q + 1
  end.

(** The magnitude [m * 2 ^ e] as a fraction. *)
Definition numerator (m : positive) (e : Z) : Z := Z.pos m * 2 ^ Z.max 0 e.
Definition denominator (e : Z) : Z := 2 ^ Z.max 0 (- e).

Definition digit_char (d : Z) : ascii := ascii_of_nat (Z.to_nat (48 + d)).
(** [n] digits of [z], zeros first. *)
Fixpoint dec_digits (n : nat) (z : Z) : string :=
  match n with
  | O => EmptyString
  | S n => dec_digits n (z / 10) +:+ String (digit_char (z mod 10)) EmptyString
  end.

(** [q / 10 ^ n] with [n] digits after the point. *)
Definition point_text (n : nat) (q : Z) : string :=
  match n with
  | O => i64_text q
  | S _ => i64_text (q / 10 ^ Z.of_nat n) +:+ "." +:+ dec_digits n (q mod 10 ^ Z.of_nat n)
  end.
Definition sign_text (negative : bool) : string := if negative then "-" else "".

(** [format!("{:.n}", f)]. *)
Definition f64_fixed (n : nat) (f : spec_float) : string :=
  match f with
  | S754_nan => "NaN"
  | S754_infinity negative => sign_text negative +:+ "inf"
  | S754_zero negative => sign_text negative +:+ point_text n 0
  | S754_finite negative m e =>
      sign_text negative +:+
      point_text n (round_half_even (numerator m e * 10 ^ Z.of_nat n) (denominator e))
  end.

(** The exponent of the first digit of [num / den]; the fuel covers the range of [f64]. *)
Fixpoint exponent_down (fuel : nat) (num den : Z) : Z :=
  match fuel with
  | O => 0
  | S fuel => if num <? 10 * den then 0 else 1 + exponent_down fuel num (10 * den)
  end.
Fixpoint exponent_up (fuel : nat) (num den : Z) : Z :=
  match fuel with
  | O => 0
  | S fuel => if den <=? num then 0 else exponent_up fuel (10 * num) den - 1
  end.
Definition decimal_exponent (num den : Z) : Z :=
  if den <=? num then exponent_down 400 num den else exponent_up 400 num den.

(** [format!("{:.ne}", f)]. *)
Definition f64_exp (n : nat) (f : spec_float) : string :=
  match f with
  | S754_nan => "NaN"
  | S754_infinity negative => sign_text negative +:+ "inf"
  | S754_zero negative => sign_text negative +:+ point_text n 0 +:+ "e0"
  | S754_finite negative m e =>
      let num := numerator m e in
      let den := denominator e in
      let k := decimal_exponent num den in
      let q := round_half_even (num * 10 ^ Z.of_nat n * 10 ^ Z.max 0 (- k)) (den * 10 ^ Z.max 0 k) in
      let '(q, k) := if 10 ^ (Z.of_nat n + 1) <=? q then (q / 10, k + 1) else (q, k) in
      sign_text negative +:+ point_text n q +:+ "e" +:+ i64_text k
  end.

(** ** The dashboard's formats *)

Definition f64_of_Z (z : Z) : spec_float := f64_of_u64 z.
Definition f64_ge (a b : spec_float) : bool := SFleb b a.
Definition f64_lt (a b : spec_float) : bool := SFltb a b.
Definition f64_eq (a b : spec_float) : bool := SFeqb a b.

Definition format_usd_value (v : spec_float) : string :=
  if f64_ge v (f64_of_Z 1000000) then "$" +:+ f64_fixed 2 (f64_div v (f64_of_Z 1000000)) +:+ "M"
  else if f64_ge v (f64_of_Z 1000) then "$" +:+ f64_fixed 2 (f64_div v (f64_of_Z 1000)) +:+ "K"
  else "$" +:+ f64_fixed 2 v.

(** The literal [0.0001], the float nearest to the fraction. *)
Definition f64_0001 : spec_float := f64_div (f64_of_Z 1) (f64_of_Z 10000).

Definition format_eth_value (v : spec_float) : string :=
  if f64_eq v (S754_zero false) then "0 ETH"
  else if f64_lt v f64_0001 then f64_exp 6 v +:+ " ETH"
  else if f64_lt v (f64_of_Z 1) then f64_fixed 6 v +:+ " ETH"
  else f64_fixed 4 v +:+ " ETH".

(** A dash in UTF-8. *)
Definition em_dash : string :=
  String (ascii_of_nat 226) (String (ascii_of_nat 128) (String (ascii_of_nat 148) EmptyString)).

Definition format_pct (v : option spec_float) : string :=
  match v with
  | Some x => f64_fixed 1 (f64_mul x (f64_of_Z 100)) +:+ "%"
  | None => em_dash
  end.

Section decimals.
Context `{Decimals}.
(** [f64::from_str] of a [BigDecimal]'s text. *)
Variable decimal_f64 : BigDecimal → option spec_float.

Definition bd_to_f64 (b : option BigDecimal) : spec_float :=
  match b with
  | Some x => default (S754_zero false) (decimal_f64 x)
  | None => S754_zero false
  end.

Definition format_usd (b : option BigDecimal) : string := format_usd_value (bd_to_f64 b).
(** [1e18] is a float. *)
Definition format_eth (b : option BigDecimal) : string :=
  format_eth_value (f64_div (bd_to_f64 b) (f64_of_Z (10 ^ 18))).

Definition ratio_bd (num denom : option BigDecimal) : option spec_float :=
  let n := bd_to_f64 num in
  let d := bd_to_f64 denom in
  if f64_eq d (S754_zero false) then None else Some (f64_div n d).
End decimals.

(** [format_when], of the seconds that passed and of the text of the time itself. Division is towards
    zero. *)
Definition format_when (secs : Z) (date_text : string) : string :=
  if secs <? 60 then i64_text secs +:+ "s ago"
  else if secs <? 3600 then i64_text (Z.quot secs 60) +:+ "m ago"
  else if secs <? 86400 then i64_text (Z.quot secs 3600) +:+ "h ago"
  else date_text.

Example usd_small : format_usd_value (f64_div (f64_of_Z 12345) (f64_of_Z 1000)) = "$12.35"%string.
Proof. vm_compute. reflexivity. Qed.
Example usd_large : format_usd_value (f64_of_Z 1234567) = "$1.23M"%string.
Proof. vm_compute. reflexivity. Qed.
Example usd_edge : format_usd_value (f64_div (f64_of_Z 999999) (f64_of_Z 1000)) = "$1000.00"%string.
Proof. vm_compute. reflexivity. Qed.
Example eth_tiny : format_eth_value (f64_div (f64_of_Z 1) (f64_of_Z 30000)) = "3.333333e-5 ETH"%string.
Proof. vm_compute. reflexivity. Qed.
Example tie_even : f64_fixed 1 (f64_div (f64_of_Z 1) (f64_of_Z 4)) = "0.2"%string.
Proof. vm_compute. reflexivity. Qed.
