(* ===== verification/FormatSpec.v ===== *)
(** * What a printed number says

    A printed amount, read back digit by digit, is the decimal nearest to the float it stands for. *)

From Stdlib Require Import SpecFloat Strings.Ascii.
From Stdlib Require Import DecimalString DecimalZ DecimalPos.
From S2P Require Import Prelude.
From S2P Require Import Encoding.
From S2P Require Import Auth.
From S2P Require Import Web.
From S2P Require Import Format.

(** ** Rounding *)

(** [q] is an integer nearest to [num / den]; of two, the even one. *)
Definition nearest (q num den : Z) : Prop :=
  2 * Z.abs (q * den - num) <= den ∧ (2 * Z.abs (q * den - num) = den → Z.even q = true).

Lemma round_half_even_nearest num den : 0 < den → nearest (round_half_even num den) num den.
Proof.
  intros Hden. unfold nearest, round_half_even.
  pose proof (Z.div_mod num den ltac:(lia)) as Hdiv. pose proof (Z.mod_pos_bound num den Hden) as Hmod.
  set (q := num / den) in *. set (r := num mod den) in *. clearbody q r.
  assert (q * den - num = - r) as Hdown by lia. assert ((q + 1) * den - num = den - r) as Hup by lia.
  destruct (Z.compare_spec (2 * r) den) as [Heq|Hlt|Hgt].
  - destruct (Z.even q) eqn:He; [rewrite Hdown; split; [lia|done]|rewrite Hup].
    split; [lia|]. intros _. by rewrite Z.even_add, He.
  - rewrite Hdown. split; lia.
  - rewrite Hup. split; lia.
Qed.

Lemma round_half_even_nonneg num den : 0 <= num → 0 < den → 0 <= round_half_even num den.
Proof.
  intros Hnum Hden. unfold round_half_even. pose proof (Z.div_pos num den Hnum Hden).
  repeat case_match; lia.
Qed.

(** ** Reading *)

Definition digit_of (c : ascii) : option Z := if ascii_digit c then Some (byte_of c - 48) else None.
Fixpoint digits_value (acc : Z) (s : string) : option Z :=
  match s with
  | EmptyString => Some acc
  | String c s => d ← digit_of c; digits_value (10 * acc + d) s
  end.
Fixpoint split_point (s : string) : option (string * string) :=
  match s with
  | EmptyString => None
  | String c s =>
      if Ascii.eqb c "." then Some (EmptyString, s)
      else '(a, b) ← split_point s; Some (String c a, b)
  end.

(** A sign and a number of units of [10 ^ -n], from a text with a point and [n] digits after it. *)
Definition read_unsigned (n : nat) (s : string) : option Z :=
  '(a, b) ← split_point s;
  d ← NilZero.uint_of_string a;
  f ← digits_value 0 b;
  if (String.length b =? n)%nat then Some (Z.of_uint d * 10 ^ Z.of_nat n + f) else None.
Definition read_fixed (n : nat) (s : string) : option (bool * Z) :=
  match s with
  | String c s' =>
      if Ascii.eqb c "-" then pair true <$> read_unsigned n s' else pair false <$> read_unsigned n s
  | EmptyString => None
  end.

Lemma digits_value_app acc s t : digits_value acc (s +:+ t) = digits_value acc s ≫= λ a, digits_value a t.
Proof.
  revert acc. induction s as [|c s IH]; intros acc; [done|]. rewrite append_cons. cbn.
  destruct (digit_of c); cbn; [apply IH|done].
Qed.

Lemma digit_of_char d : 0 <= d < 10 → digit_of (digit_char d) = Some d.
Proof.
  intros Hd. assert (d = 0 ∨ d = 1 ∨ d = 2 ∨ d = 3 ∨ d = 4 ∨ d = 5 ∨ d = 6 ∨ d = 7 ∨ d = 8 ∨ d = 9) as Hcases by lia.
  repeat destruct Hcases as [->|Hcases]; try reflexivity. by rewrite Hcases.
Qed.

Lemma dec_digits_value n z : 0 <= z → digits_value 0 (dec_digits n z) = Some (z mod 10 ^ Z.of_nat n).
Proof.
  revert z. induction n as [|n IH]; intros z Hz; [cbn; by rewrite Z.mod_1_r|].
  cbn [dec_digits]. rewrite digits_value_app, IH by (apply Z.div_pos; lia). cbn.
  rewrite digit_of_char by (apply Z.mod_pos_bound; lia). cbn. f_equal.
  rewrite Nat2Z.inj_succ, Z.pow_succ_r by lia.
  pose proof (Z.pow_pos_nonneg 10 (Z.of_nat n) ltac:(lia) ltac:(lia)).
  rewrite Z.rem_mul_r by lia. lia.
Qed.

Lemma length_append s t : String.length (s +:+ t) = (String.length s + String.length t)%nat.
Proof. induction s as [|c s IH]; [done|]. rewrite append_cons. cbn. by rewrite IH. Qed.

Lemma dec_digits_length n z : String.length (dec_digits n z) = n.
Proof. revert z. induction n as [|n IH]; intros z; [done|]. cbn [dec_digits]. rewrite length_append, IH. cbn. lia. Qed.

Lemma split_point_lacks a b : lacks "." a = true → split_point (a +:+ String "." b) = Some (a, b).
Proof.
  unfold lacks. induction a as [|c a IH]; [done|]. rewrite append_cons. cbn.
  intros [Hc Ha]%andb_true_iff. rewrite (IH Ha). by destruct (Ascii.eqb c ".").
Qed.

Lemma uint_text_digits d : d ≠ Decimal.Nil → every ascii_digit (NilZero.string_of_uint d) = true.
Proof.
  assert (∀ d, every ascii_digit (NilEmpty.string_of_uint d) = true) as Hd by (clear; by induction d).
  destruct d; [done|intros _; apply Hd..].
Qed.

(** A number that is not negative is a text of digits that reads as it. *)
Lemma nonneg_text z : 0 <= z → ∃ d, d ≠ Decimal.Nil ∧ i64_text z = NilZero.string_of_uint d ∧ Z.of_uint d = z.
Proof.
  intros Hz. unfold i64_text. pose proof (DecimalZ.of_to z) as Hof.
  destruct z as [|p|p]; [by exists (Decimal.D0 Decimal.Nil)| |done]. cbn in *.
  exists (Pos.to_uint p). split; [apply DecimalPos.Unsigned.to_uint_nonnil|]. done.
Qed.

Lemma point_text_read n q : (0 < n)%nat → 0 <= q → read_unsigned n (point_text n q) = Some q.
Proof.
  intros Hn Hq. destruct n as [|n]; [lia|]. cbn [point_text].
  set (k := Z.of_nat (S n)). pose proof (Z.pow_pos_nonneg 10 k ltac:(lia) ltac:(lia)) as Hpow.
  destruct (nonneg_text (q / 10 ^ k)) as (d & Hnil & -> & Hd); [by apply Z.div_pos|].
  unfold read_unsigned. change ("." +:+ dec_digits (S n) (q mod 10 ^ k)) with
    (String "." (dec_digits (S n) (q mod 10 ^ k))).
  rewrite split_point_lacks.
  2:{ eapply every_impl, uint_text_digits; [|done]. intros c Hc. by destruct (Ascii.eqb_spec c ".") as [->|]. }
  cbn [mbind option_bind]. rewrite NilZero.usu by done. cbn [mbind option_bind].
  rewrite dec_digits_value by (apply Z.mod_pos_bound; lia). cbn [mbind option_bind].
  rewrite dec_digits_length, Nat.eqb_refl, Hd, Z.mod_mod by lia.
  fold k. f_equal. pose proof (Z.div_mod q (10 ^ k)). lia.
Qed.

Lemma point_text_head n q : 0 <= q → ∃ c s, point_text n q = String c s ∧ Ascii.eqb c "-" = false.
Proof.
  intros Hq. assert (∀ z, 0 <= z → ∃ c s, i64_text z = String c s ∧ Ascii.eqb c "-" = false) as Htext.
  { intros z Hz. destruct (nonneg_text z Hz) as (d & Hnil & -> & _).
    pose proof (uint_text_digits d Hnil) as Hdig. destruct (NilZero.string_of_uint d) as [|c s] eqn:Hs.
    - by destruct d.
    - exists c, s. split; [done|]. cbn in Hdig. by destruct (Ascii.eqb_spec c "-") as [->|]. }
  destruct n as [|n]; [by apply Htext|]. cbn [point_text].
  destruct (Htext (q / 10 ^ Z.of_nat (S n))) as (c & s & -> & Hc); [apply Z.div_pos; lia|].
  rewrite append_cons. eauto.
Qed.

Lemma sign_read negative n q :
  (0 < n)%nat → 0 <= q → read_fixed n (sign_text negative +:+ point_text n q) = Some (negative, q).
Proof.
  intros Hn Hq. destruct negative; cbn [sign_text].
  - change (pair true <$> read_unsigned n (point_text n q) = Some (true, q)). by rewrite point_text_read.
  - change (read_fixed n (point_text n q) = Some (false, q)).
    destruct (point_text_head n q Hq) as (c & s & Htext & Hc).
    rewrite Htext. cbn [read_fixed]. rewrite Hc, <-Htext. by rewrite point_text_read.
Qed.

(** What [f] is worth in units of [10 ^ -n], with its sign, as a fraction. *)
Definition units (n : nat) (f : spec_float) : option (bool * Z * Z) :=
  match f with
  | S754_zero negative => Some (negative, 0, 1)
  | S754_finite negative m e => Some (negative, numerator m e * 10 ^ Z.of_nat n, denominator e)
  | _ => None
  end.

Lemma f64_fixed_nearest n f negative num den :
  (0 < n)%nat → units n f = Some (negative, num, den) →
  ∃ q, read_fixed n (f64_fixed n f) = Some (negative, q) ∧ nearest q num den.
Proof.
  intros Hn. destruct f as [s|s| |s m e]; cbn [units]; try done; intros [= <- <- <-]; cbn [f64_fixed].
  - exists 0. by rewrite sign_read.
  - assert (0 < denominator e) by (unfold denominator; apply Z.pow_pos_nonneg; lia).
    exists (round_half_even (numerator m e * 10 ^ Z.of_nat n) (denominator e)).
    assert (0 <= numerator m e * 10 ^ Z.of_nat n).
    { unfold numerator. apply Z.mul_nonneg_nonneg; [apply Z.mul_nonneg_nonneg|]; try lia;
        apply Z.pow_nonneg; lia. }
    rewrite sign_read; [|done|by apply round_half_even_nonneg].
    split; [done|by apply round_half_even_nearest].
Qed.

(** a sum of dollars is printed in millions from a million on, in thousands from a thousand on, and else
    as it is; the text between the dollar sign and the letter, read back digit by digit, has the sign of
    the sum and the number of cents nearest to it (or to the float of the sum in that unit), and of two
    numbers as near the even one. *)
Theorem format_usd_value_nearest v negative num den :
  let '(unit, letter) :=
    if f64_ge v (f64_of_Z 1000000) then (f64_div v (f64_of_Z 1000000), "M"%string)
    else if f64_ge v (f64_of_Z 1000) then (f64_div v (f64_of_Z 1000), "K"%string)
    else (v, ""%string) in
  units 2 unit = Some (negative, num, den) →
  ∃ text q, format_usd_value v = "$" +:+ text +:+ letter ∧
    read_fixed 2 text = Some (negative, q) ∧ nearest q num den.
Proof.
  unfold format_usd_value.
  destruct (f64_ge v (f64_of_Z 1000000)); [|destruct (f64_ge v (f64_of_Z 1000))];
    intros Hunits; apply (f64_fixed_nearest 2) in Hunits as (q & Hread & Hnear); try lia;
    eexists _, q; (split; [|done]); [done..|by rewrite append_nil_r].
Qed.

Lemma format_usd_value_nearest_witness :
  format_usd_value (f64_of_Z 1234567) = "$1.23M"%string ∧
  ∃ text q, format_usd_value (f64_of_Z 1234567) = "$" +:+ text +:+ "M" ∧
    read_fixed 2 text = Some (false, q) ∧
    nearest q (numerator 5559995481163911 (-52) * 100) (denominator (-52)).
Proof.
  split; [vm_compute; reflexivity|].
  exact (format_usd_value_nearest (f64_of_Z 1234567) false
    (numerator 5559995481163911 (-52) * 100) (denominator (-52)) eq_refl).
Defined.
