(* ===== verification/Pages.v ===== *)
(** * The dashboard's pages

    [crates/indexer-web/src/handlers/public.rs]: what the overview, the drill-downs of a project, a
    contract and a function, and the list of unknowns show, from the rows of their queries. The queries of
    recent transactions are texts with their parameters ([Web.v]) run by the class [Reports]; the others
    are its operations. Templates, the session check and the clock's text formats are left out or
    parameters. *)

From Stdlib Require Import SpecFloat Strings.Ascii.
From S2P Require Import Prelude.
From S2P Require Import Types.
From S2P Require Import Encoding.
From S2P Require Import Trace.
From S2P Require Import Resolver.
From S2P Require Import Cli.
From S2P Require Import Auth.
From S2P Require Import Refresher.
From S2P Require Import Web.
From S2P Require Import Format.

(** ** Rows ([queries.rs]) *)

Inductive Window := Lifetime | Days (n : Z).
Definition interval_clause (w : Window) : option string :=
  match w with Lifetime => None | Days d => Some (i64_text d +:+ " days") end.

Section rows.
Context `{Decimals, Dates}.

Record OverviewTotals := mkOverviewTotals {
  ot_usd_saved : option BigDecimal;
  ot_wei_saved : option BigDecimal;
  ot_tx_count : option Z;
  ot_project_count : option Z
}.
(** [ProjectTotals] and [ContractTotals]; a project's have no count of functions. *)
Record EntityTotals := mkEntityTotals {
  et_usd_saved : option BigDecimal;
  et_wei_saved : option BigDecimal;
  et_tx_count : option Z;
  et_function_count : option Z;
  et_avg_savings_pct : option spec_float
}.
Record LeaderboardRow := mkLeaderboardRow {
  lr_project_slug : string;
  lr_project_name : option string;
  lr_tx_count : option Z;
  lr_wei_saved_total : option BigDecimal;
  lr_wei_spent_total : option BigDecimal;
  lr_avg_savings_pct : option spec_float;
  lr_median_savings_pct_covered : option spec_float
}.
Record FunctionLeaderRow := mkFunctionLeaderRow {
  fl_to_address : list Z;
  fl_function_selector : list Z;
  fl_project_slug : string;
  fl_project_name : option string;
  fl_function_name : option string;
  fl_function_sig : option string;
  fl_tx_count : option Z;
  fl_wei_saved_total : option BigDecimal;
  fl_wei_spent_total : option BigDecimal;
  fl_usd_saved : option BigDecimal;
  fl_avg_savings_pct : option spec_float;
  fl_median_savings_pct : option spec_float
}.
Record ContractLeaderRow := mkContractLeaderRow {
  cl_to_address : list Z;
  cl_project_slug : string;
  cl_project_name : option string;
  cl_tx_count : option Z;
  cl_function_count : option Z;
  cl_wei_saved_total : option BigDecimal;
  cl_wei_spent_total : option BigDecimal;
  cl_usd_saved : option BigDecimal;
  cl_avg_savings_pct : option spec_float;
  cl_median_savings_pct : option spec_float
}.
Record OrgLeaderRow := mkOrgLeaderRow {
  ol_org_name : string;
  ol_project_count : option Z;
  ol_contract_count : option Z;
  ol_tx_count : option Z;
  ol_usd_saved : option BigDecimal;
  ol_wei_saved_total : option BigDecimal;
  ol_wei_spent_total : option BigDecimal;
  ol_avg_savings_pct : option spec_float
}.
Record DailyPoint := mkDailyPoint {
  dp_day : Date;
  dp_usd_saved : option BigDecimal;
  dp_tx_count : option Z
}.
Record ProjectHeader := mkProjectHeader {
  ph_project_slug : string;
  ph_project_name : option string;
  ph_category : option string;
  ph_contact_email : option string;
  ph_contact_url : option string
}.
(** [TopAddressRow] and [TopSelectorRow]: the bytes of either. *)
Record TopRow := mkTopRow {
  tr_key : list Z;
  tr_tx_count : option Z;
  tr_gas_saved_total : option Z;
  tr_wei_saved_total : option BigDecimal
}.
(** The timestamp is its nanoseconds since 1970-01-01. *)
Record RecentTxRow := mkRecentTxRow {
  rt_block_number : Z;
  rt_tx_hash : list Z;
  rt_gas_used : Z;
  rt_gas_saved : Z;
  rt_wei_saved : BigDecimal;
  rt_block_timestamp : Z
}.
(** [ContractHeader] and [FunctionHeader]. *)
Record EntityHeader := mkEntityHeader {
  eh_project_slug : string;
  eh_project_name : option string;
  eh_function_name : option string;
  eh_function_sig : option string
}.
Record ContractFunctionRow := mkContractFunctionRow {
  cf_function_selector : list Z;
  cf_function_name : option string;
  cf_tx_count : option Z;
  cf_usd_saved : option BigDecimal;
  cf_avg_savings_pct : option spec_float
}.
Record UnresolvedSelectorRow := mkUnresolvedSelectorRow {
  us_selector : list Z;
  us_example_address : list Z;
  us_tx_count : option Z;
  us_wei_saved_total : option BigDecimal;
  us_usd_saved_total : option BigDecimal
}.
Record UnknownRow := mkUnknownRow {
  ur_address : list Z;
  ur_tx_count : option Z;
  ur_wei_saved_total : option BigDecimal;
  ur_last_seen : option Z
}.
End rows.

(** The queries, under the floor in force. An address is its 20 bytes, a selector its 4. The current time
    is in nanoseconds. *)
Class Reports (W : Type) `{Decimals, Dates} := {
  overview_totals : option Date → Z → Window → Eff WebError W OverviewTotals;
  leaderboard_30d : option Date → Z → Z → Z → Eff WebError W (list LeaderboardRow);
  leaderboard_functions_30d : option Date → Z → Z → Z → Eff WebError W (list FunctionLeaderRow);
  leaderboard_contracts_30d : option Date → Z → Z → Z → Eff WebError W (list ContractLeaderRow);
  leaderboard_orgs_30d : option Date → Z → Z → Z → Eff WebError W (list OrgLeaderRow);
  daily_overview : option Date → Z → Z → Eff WebError W (list DailyPoint);
  project_header_row : string → Eff WebError W (option ProjectHeader);
  project_totals : option Date → Z → string → Window → Eff WebError W EntityTotals;
  daily_for_project : option Date → Z → string → Z → Eff WebError W (list DailyPoint);
  top_contracts_for_project : option Date → Z → string → Eff WebError W (list TopRow);
  top_selectors_for_project : option Date → Z → string → Eff WebError W (list TopRow);
  contract_header_row : Z → list Z → Eff WebError W (option EntityHeader);
  contract_totals : option Date → Z → list Z → Window → Eff WebError W EntityTotals;
  functions_for_contract : option Date → Z → list Z → Eff WebError W (list ContractFunctionRow);
  daily_for_contract : option Date → Z → list Z → Z → Eff WebError W (list DailyPoint);
  function_header_row : Z → list Z → list Z → Eff WebError W (option EntityHeader);
  function_totals : option Date → Z → list Z → list Z → Window → Eff WebError W EntityTotals;
  daily_for_function : option Date → Z → list Z → list Z → Z → Eff WebError W (list DailyPoint);
  top_unresolved_selectors : option Date → Z → Z → Eff WebError W (list UnresolvedSelectorRow);
  top_unknowns : option Date → Z → Eff WebError W (list UnknownRow);
  fetch_recent_txs : string * list Bind → Eff WebError W (list RecentTxRow);
  now_nanos : W → Z * W
}.

(** Texts of times and numbers outside the program: a time as [%Y-%m-%d %H:%M UTC], a day as [%Y-%m-%d],
    a number as a float. *)
Class PageTexts `{Decimals, Dates} := {
  timestamp_text : Z → string;
  day_text : Date → string;
  decimal_f64 : BigDecimal → option spec_float
}.

(** ** Views *)

Record TotalsView := mkTotalsView {
  tv_usd_saved : string;
  tv_eth_saved : string;
  tv_tx_count : Z;
  tv_project_count : Z
}.
Record ProjectionView := mkProjectionView {
  pv_monthly_usd : string;
  pv_monthly_eth : string;
  pv_yearly_usd : string;
  pv_yearly_eth : string
}.
Record LeaderRow := mkLeaderRow {
  lv_project_slug : string;
  lv_display_name : string;
  lv_tx_count : Z;
  lv_avg_savings_pct_pct : string;
  lv_savings_of_spend_pct : string;
  lv_median_savings_pct_pct : string;
  lv_unknown_address_hex : option string
}.
Record FunctionLeaderView := mkFunctionLeaderView {
  fv_address_hex : string;
  fv_selector_hex : string;
  fv_function_name : string;
  fv_function_sig : string;
  fv_project_slug : string;
  fv_project_display : string;
  fv_tx_count : Z;
  fv_usd_saved : string;
  fv_avg_savings_pct_pct : string;
  fv_median_savings_pct_pct : string;
  fv_savings_of_spend_pct : string
}.
Record ContractLeaderView := mkContractLeaderView {
  cv_address_hex : string;
  cv_project_slug : string;
  cv_project_display : string;
  cv_tx_count : Z;
  cv_function_count : Z;
  cv_usd_saved : string;
  cv_avg_savings_pct_pct : string;
  cv_median_savings_pct_pct : string;
  cv_savings_of_spend_pct : string;
  cv_unknown_address_hex : option string
}.
Record OrgLeaderView := mkOrgLeaderView {
  ov_org_name : string;
  ov_project_count : Z;
  ov_contract_count : Z;
  ov_tx_count : Z;
  ov_usd_saved : string;
  ov_avg_savings_pct_pct : string;
  ov_savings_of_spend_pct : string
}.
Record DailyView := mkDailyView { dv_day : string; dv_usd_saved : spec_float; dv_tx_count : Z }.
(** [ContractRowView] and [SelectorRowView]. *)
Record TopRowView := mkTopRowView {
  tw_hex : string;
  tw_tx_count : Z;
  tw_gas_saved_total : Z;
  tw_wei_saved_total : string
}.
Record RecentTxView := mkRecentTxView {
  rv_block_number : Z;
  rv_tx_hash_hex : string;
  rv_gas_used : Z;
  rv_gas_saved : Z;
  rv_wei_saved : string;
  rv_when : string
}.
Record ContractFunctionView := mkContractFunctionView {
  fw_selector_hex : string;
  fw_function_name : string;
  fw_tx_count : Z;
  fw_usd_saved : string;
  fw_avg_savings_pct_pct : string
}.
Record UnresolvedSelectorView := mkUnresolvedSelectorView {
  uv_selector_hex : string;
  uv_example_address_hex : string;
  uv_tx_count : Z;
  uv_wei_saved : string;
  uv_usd_saved : string
}.
Record UnknownContractView := mkUnknownContractView {
  kv_address_hex : string;
  kv_tx_count : Z;
  kv_wei_saved : string;
  kv_last_seen : string
}.

(** ** From rows to views *)

(** [format!("0x{}", hex::encode(..))]. *)
Definition hex0x (bytes : list Z) : string := "0x" +:+ hex_string bytes.

(** The address in a slug that stands for an unknown contract. *)
Definition unknown_address (slug : string) : option string :=
  (λ hex, "0x" +:+ hex) <$> strip_prefix "unknown:0x" slug.

Section views.
Context `{Decimals, Dates, !PageTexts}.

Definition totals_view (t : OverviewTotals) : TotalsView :=
  mkTotalsView (format_usd decimal_f64 (ot_usd_saved t)) (format_eth decimal_f64 (ot_wei_saved t))
    (default 0 (ot_tx_count t)) (default 0 (ot_project_count t)).

(** The totals of a drill-down count no projects. *)
Definition entity_totals_view (t : EntityTotals) : TotalsView :=
  mkTotalsView (format_usd decimal_f64 (et_usd_saved t)) (format_eth decimal_f64 (et_wei_saved t))
    (default 0 (et_tx_count t)) 0.

(** The 30 days' total is a month's; a year is 365 / 30 of them, a constant of the code. *)
Definition year_factor : spec_float := f64_div (f64_of_Z 365) (f64_of_Z 30).
Definition projection_view (t : OverviewTotals) : ProjectionView :=
  let usd_30d := bd_to_f64 decimal_f64 (ot_usd_saved t) in
  let eth_30d := f64_div (bd_to_f64 decimal_f64 (ot_wei_saved t)) (f64_of_Z (10 ^ 18)) in
  mkProjectionView (format_usd_value usd_30d) (format_eth_value eth_30d)
    (format_usd_value (f64_mul usd_30d year_factor)) (format_eth_value (f64_mul eth_30d year_factor)).

Definition function_leader_view (r : FunctionLeaderRow) : FunctionLeaderView :=
  let savings_of_spend := ratio_bd decimal_f64 (fl_wei_saved_total r) (fl_wei_spent_total r) in
  mkFunctionLeaderView (hex0x (fl_to_address r)) (hex0x (fl_function_selector r))
    (default "" (fl_function_name r)) (default "" (fl_function_sig r)) (fl_project_slug r)
    (default (fl_project_slug r) (fl_project_name r)) (default 0 (fl_tx_count r))
    (format_usd decimal_f64 (fl_usd_saved r)) (format_pct (fl_avg_savings_pct r))
    (format_pct (fl_median_savings_pct r)) (format_pct savings_of_spend).

Definition org_leader_view (r : OrgLeaderRow) : OrgLeaderView :=
  let savings_of_spend := ratio_bd decimal_f64 (ol_wei_saved_total r) (ol_wei_spent_total r) in
  mkOrgLeaderView (ol_org_name r) (default 0 (ol_project_count r)) (default 0 (ol_contract_count r))
    (default 0 (ol_tx_count r)) (format_usd decimal_f64 (ol_usd_saved r))
    (format_pct (ol_avg_savings_pct r)) (format_pct savings_of_spend).

Definition contract_leader_view (r : ContractLeaderRow) : ContractLeaderView :=
  let savings_of_spend := ratio_bd decimal_f64 (cl_wei_saved_total r) (cl_wei_spent_total r) in
  mkContractLeaderView (hex0x (cl_to_address r)) (cl_project_slug r)
    (default (cl_project_slug r) (cl_project_name r)) (default 0 (cl_tx_count r))
    (default 0 (cl_function_count r)) (format_usd decimal_f64 (cl_usd_saved r))
    (format_pct (cl_avg_savings_pct r)) (format_pct (cl_median_savings_pct r))
    (format_pct savings_of_spend) (unknown_address (cl_project_slug r)).

Definition leader_row (r : LeaderboardRow) : LeaderRow :=
  let savings_of_spend := ratio_bd decimal_f64 (lr_wei_saved_total r) (lr_wei_spent_total r) in
  mkLeaderRow (lr_project_slug r) (default (lr_project_slug r) (lr_project_name r))
    (default 0 (lr_tx_count r)) (format_pct (lr_avg_savings_pct r)) (format_pct savings_of_spend)
    (format_pct (lr_median_savings_pct_covered r)) (unknown_address (lr_project_slug r)).

Definition daily_view (p : DailyPoint) : DailyView :=
  mkDailyView (day_text (dp_day p)) (bd_to_f64 decimal_f64 (dp_usd_saved p)) (default 0 (dp_tx_count p)).

Definition top_row_view (r : TopRow) : TopRowView :=
  mkTopRowView (hex0x (tr_key r)) (default 0 (tr_tx_count r)) (default 0 (tr_gas_saved_total r))
    (format_eth decimal_f64 (tr_wei_saved_total r)).

(** A time as it is shown at [now]; [num_seconds] is towards zero. *)
Definition when_text (now ts : Z) : string :=
  format_when (Z.quot (now - ts) 1000000000) (timestamp_text ts).

Definition recent_tx_view (now : Z) (r : RecentTxRow) : RecentTxView :=
  mkRecentTxView (rt_block_number r) (hex0x (rt_tx_hash r)) (rt_gas_used r) (rt_gas_saved r)
    (format_eth decimal_f64 (Some (rt_wei_saved r))) (when_text now (rt_block_timestamp r)).

Definition contract_function_view (r : ContractFunctionRow) : ContractFunctionView :=
  mkContractFunctionView (hex0x (cf_function_selector r)) (default "" (cf_function_name r))
    (default 0 (cf_tx_count r)) (format_usd decimal_f64 (cf_usd_saved r))
    (format_pct (cf_avg_savings_pct r)).

Definition unresolved_selector_view (r : UnresolvedSelectorRow) : UnresolvedSelectorView :=
  mkUnresolvedSelectorView (hex0x (us_selector r)) (hex0x (us_example_address r))
    (default 0 (us_tx_count r)) (format_eth decimal_f64 (us_wei_saved_total r))
    (format_usd decimal_f64 (us_usd_saved_total r)).

Definition unknown_contract_view (now : Z) (r : UnknownRow) : UnknownContractView :=
  mkUnknownContractView (hex0x (ur_address r)) (default 0 (ur_tx_count r))
    (format_eth decimal_f64 (ur_wei_saved_total r))
    (match ur_last_seen r with Some ts => when_text now ts | None => em_dash end).
End views.

(** ** Pages *)

(** The leaderboard of the pivot asked for. *)
Inductive Leaderboard :=
  | LFunctions (rows : list FunctionLeaderView)
  | LContracts (rows : list ContractLeaderView)
  | LProjects (rows : list LeaderRow)
  | LOrgs (rows : list OrgLeaderView).

Record OverviewPage := mkOverviewPage {
  op_chain_id : Z;
  op_totals_lifetime : TotalsView;
  op_totals_30d : TotalsView;
  op_totals_7d : TotalsView;
  op_totals_24h : TotalsView;
  op_projection : ProjectionView;
  op_leaderboard : Leaderboard;
  op_daily_30d : list DailyView
}.
Record ProjectPage := mkProjectPage {
  pp_project_slug : string;
  pp_project_name : string;
  pp_category : string;
  pp_contact_email : string;
  pp_contact_url : string;
  pp_totals_lifetime : TotalsView;
  pp_totals_30d : TotalsView;
  pp_avg_savings_pct_30d : string;
  pp_daily_90d : list DailyView;
  pp_top_contracts : list TopRowView;
  pp_top_selectors : list TopRowView;
  pp_recent_txs : list RecentTxView;
  pp_paging : TxPagingView
}.
Record ContractPage := mkContractPage {
  cg_address_hex : string;
  cg_project_slug : string;
  cg_project_display : string;
  cg_totals_lifetime : TotalsView;
  cg_totals_30d : TotalsView;
  cg_function_count : Z;
  cg_avg_savings_pct_30d : string;
  cg_daily_90d : list DailyView;
  cg_functions : list ContractFunctionView;
  cg_recent_txs : list RecentTxView;
  cg_paging : TxPagingView
}.
Record FunctionPage := mkFunctionPage {
  fg_address_hex : string;
  fg_selector_hex : string;
  fg_function_name : string;
  fg_function_sig : string;
  fg_project_slug : string;
  fg_project_display : string;
  fg_totals_lifetime : TotalsView;
  fg_totals_30d : TotalsView;
  fg_avg_savings_pct_30d : string;
  fg_daily_90d : list DailyView;
  fg_recent_txs : list RecentTxView;
  fg_paging : TxPagingView
}.
Inductive UnknownsPage :=
  | UContracts (contracts : list UnknownContractView)
  | USelectors (selectors : list UnresolvedSelectorView).

Section parsing.
Context `{Externals}.
(** [parse_address] and [parse_selector]. *)
Definition parse_bytes (n : nat) (s : string) : option (list Z) :=
  bytes ← hex_decode (strip_0x s);
  if (length bytes =? n)%nat then Some bytes else None.
Definition parse_address (s : string) : option (list Z) := parse_bytes 20 s.
Definition parse_selector (s : string) : option (list Z) := parse_bytes 4 s.
End parsing.

Section pages.
Context {W : Type} `{Externals, Decimals, Dates, !PageTexts, !Reports W}.
Abbreviation Run A := (Eff WebError (WebState W) A).

Definition on_db {A} (m : Eff WebError W A) : Run A := zoom ws_world (λ w s, mkWeb w (ws_floor s)) m.
(** A query under the floor in force. *)
Definition floored {A} (q : option Date → Eff WebError W A) : Run A := λ s, on_db (q (ws_floor s)) s.
Definition now : Run Z := on_db (eff_total now_nanos).

(** Rows whose views read the clock. *)
Definition each_now {A B} (view : Z → A → B) (rows : list A) : Run (list B) :=
  mapM (λ r, n ← now; mret (view n r)) rows.

(** [queries::contract_header] and [function_header]: a contract without a project is unknown. *)
Definition unknown_header (address : list Z) : EntityHeader :=
  mkEntityHeader ("unknown:0x" +:+ hex_string address) None None None.
Definition contract_header (chain_id : Z) (address : list Z) : Run EntityHeader :=
  row ← on_db (contract_header_row chain_id address); mret (default (unknown_header address) row).
Definition function_header (chain_id : Z) (address selector : list Z) : Run EntityHeader :=
  row ← on_db (function_header_row chain_id address selector);
  mret (default (unknown_header address) row).

(** The pivot of the overview: functions unless another is asked for. *)
Definition overview_leaderboard (chain_id : Z) (group : option string) : Run Leaderboard :=
  let asked name := bool_decide (group = Some name) in
  if asked "contracts"%string then
    rows ← floored (λ f, leaderboard_contracts_30d f chain_id 50 0);
    mret (LContracts (contract_leader_view <$> rows))
  else if asked "projects"%string then
    rows ← floored (λ f, leaderboard_30d f chain_id 50 0); mret (LProjects (leader_row <$> rows))
  else if asked "orgs"%string then
    rows ← floored (λ f, leaderboard_orgs_30d f chain_id 50 0); mret (LOrgs (org_leader_view <$> rows))
  else
    rows ← floored (λ f, leaderboard_functions_30d f chain_id 50 0);
    mret (LFunctions (function_leader_view <$> rows)).

Definition overview (chain_id : Z) (group : option string) : Run OverviewPage :=
  lifetime ← floored (λ f, overview_totals f chain_id Lifetime);
  month ← floored (λ f, overview_totals f chain_id (Days 30));
  week ← floored (λ f, overview_totals f chain_id (Days 7));
  day ← floored (λ f, overview_totals f chain_id (Days 1));
  leaderboard ← overview_leaderboard chain_id group;
  daily ← floored (λ f, daily_overview f chain_id 30);
  mret (mkOverviewPage chain_id (totals_view lifetime) (totals_view month) (totals_view week)
          (totals_view day) (projection_view month) leaderboard (daily_view <$> daily)).

(** The table of recent transactions with its paging: of the page asked for, from 1. *)
Definition recent_table (query : option Date → Z → Z → TxFilters → string * list Bind) (tx_q : TxQuery)
  : Run (list RecentTxView * TxPagingView) :=
  rows ← floored (λ f, fetch_recent_txs (query f TX_PAGE_SIZE (page_offset tx_q) (build_tx_filters tx_q)));
  views ← each_now recent_tx_view rows;
  mret (views, paging_view tx_q (length rows)).

Definition project_page (chain_id : Z) (slug : string) (tx_q : TxQuery) : Run ProjectPage :=
  header ← on_db (project_header_row slug);
  lifetime ← floored (λ f, project_totals f chain_id slug Lifetime);
  month ← floored (λ f, project_totals f chain_id slug (Days 30));
  daily ← floored (λ f, daily_for_project f chain_id slug 90);
  contracts ← floored (λ f, top_contracts_for_project f chain_id slug);
  selectors ← floored (λ f, top_selectors_for_project f chain_id slug);
  '(recent, paging) ← recent_table (λ f, recent_txs_for_project f chain_id slug) tx_q;
  let header := default (mkProjectHeader slug None None None None) header in
  mret (mkProjectPage (ph_project_slug header)
          (default (ph_project_slug header) (ph_project_name header)) (default em_dash (ph_category header))
          (default ""%string (ph_contact_email header)) (default ""%string (ph_contact_url header))
          (entity_totals_view lifetime) (entity_totals_view month) (format_pct (et_avg_savings_pct month))
          (daily_view <$> daily) (top_row_view <$> contracts) (top_row_view <$> selectors) recent paging).

Definition contract_page (chain_id : Z) (address_hex : string) (tx_q : TxQuery) : Run ContractPage :=
  address ← eff_res (ok_or (parse_address address_hex) (BadRequest "invalid address"));
  header ← contract_header chain_id address;
  lifetime ← floored (λ f, contract_totals f chain_id address Lifetime);
  month ← floored (λ f, contract_totals f chain_id address (Days 30));
  daily ← floored (λ f, daily_for_contract f chain_id address 90);
  functions ← floored (λ f, functions_for_contract f chain_id address);
  '(recent, paging) ←
    recent_table (λ f, recent_txs_for_contract f chain_id (be_to_Z address)) tx_q;
  mret (mkContractPage (hex0x address) (eh_project_slug header)
          (default (eh_project_slug header) (eh_project_name header)) (entity_totals_view lifetime)
          (entity_totals_view month) (default 0 (et_function_count month))
          (format_pct (et_avg_savings_pct month)) (daily_view <$> daily)
          (contract_function_view <$> functions) recent paging).

Definition function_page (chain_id : Z) (address_hex selector_hex : string) (tx_q : TxQuery)
  : Run FunctionPage :=
  address ← eff_res (ok_or (parse_address address_hex) (BadRequest "invalid address"));
  selector ← eff_res (ok_or (parse_selector selector_hex) (BadRequest "invalid selector"));
  header ← function_header chain_id address selector;
  lifetime ← floored (λ f, function_totals f chain_id address selector Lifetime);
  month ← floored (λ f, function_totals f chain_id address selector (Days 30));
  daily ← floored (λ f, daily_for_function f chain_id address selector 90);
  '(recent, paging) ←
    recent_table (λ f, recent_txs_for_function f chain_id (be_to_Z address) selector) tx_q;
  mret (mkFunctionPage (hex0x address) (hex0x selector) (default ""%string (eh_function_name header))
          (default ""%string (eh_function_sig header)) (eh_project_slug header)
          (default (eh_project_slug header) (eh_project_name header)) (entity_totals_view lifetime)
          (entity_totals_view month) (format_pct (et_avg_savings_pct month)) (daily_view <$> daily)
          recent paging).

Definition unknowns (chain_id : Z) (tab : option string) : Run UnknownsPage :=
  if bool_decide (tab = Some "selectors"%string) then
    rows ← floored (λ f, top_unresolved_selectors f chain_id 50);
    mret (USelectors (unresolved_selector_view <$> rows))
  else
    rows ← floored (λ f, top_unknowns f chain_id);
    contracts ← each_now unknown_contract_view rows;
    mret (UContracts contracts).
End pages.
