(* ===== verification/Admin.v ===== *)
(** * The admin pages

    [crates/indexer-web/src/admin.rs] and [queries.rs]: the health view, the panel of candidates, the pages
    of organizations and of the blacklist, and the buttons that run a refresh at once. The queries are
    operations of classes; durations and templates are left out. *)

From Stdlib Require Import SpecFloat Strings.Ascii.
From S2P Require Import Prelude.
From S2P Require Import Types.
From S2P Require Import Encoding.
From S2P Require Import Trace.
From S2P Require Import Jobs.
From S2P Require Import Resolver.
From S2P Require Import Labeler.
From S2P Require Import Auth.
From S2P Require Import Refresher.
From S2P Require Import Web.
From S2P Require Import Diagnose.
From S2P Require Import Format.
From S2P Require Import Pages.

(** ** Health *)

(** More of what the health view reads: how many of the last day's analyses were heuristic, and of how
    many, and the kinds of error with their counts. *)
Class HealthQueries (W : Type) := {
  heuristic_counts_24h : Z → Eff WebError W (option Z * option Z);
  error_categories_24h : Z → Eff WebError W (list (string * option Z))
}.

Record HealthView := mkHealthView {
  hv_last_seen_block : option Z;
  hv_latest_analyzed_block : option Z;
  hv_blocks_behind : option Z;
  hv_falls_behind : bool;
  hv_blocks_behind_threshold : Z;
  hv_pending_queue : Z;
  hv_dead_letter : Z;
  hv_blocks_skipped : Z;
  hv_jobs_dropped_stale : Z;
  hv_last_insert_age_secs : option Z;
  hv_total_rows : Z;
  hv_heuristic_rate_24h : option spec_float;
  hv_error_categories : list (string * Z)
}.

Section health.
Context {W : Type} `{Monitor W, QueueServer W, HealthQueries W}.

(** The share of heuristic analyses, if there are any analyses. *)
Definition heuristic_rate_24h (chain_id : Z) : Eff WebError W (option spec_float) :=
  row ← heuristic_counts_24h chain_id;
  let total := default 0 row.2 in
  mret (if total =? 0 then None
        else Some (f64_div (f64_of_Z (default 0 row.1)) (f64_of_Z total))).

Definition collect_health (chain_id threshold : Z) : Eff WebError W HealthView :=
  analysis ← analysis_health chain_id;
  heuristic_rate ← heuristic_rate_24h chain_id;
  categories ← error_categories_24h chain_id;
  pending ← unwrap_or 0 (llen Jobs.QUEUE_KEY);
  dead ← unwrap_or 0 (llen DEAD_KEY);
  last_head_raw ← unwrap_or None (redis_get_i64 LAST_HEAD_KEY);
  blocks_skipped ← counter SKIPPED_BLOCKS_KEY;
  jobs_dropped_stale ← counter EXPIRED_JOBS_KEY;
  let blocks_behind :=
    match last_head_raw, ah_latest_block analysis with
    | Some h, Some a => Some (i64_sub h a)
    | _, _ => None
    end in
  let falls_behind := match blocks_behind with Some b => threshold <? b | None => false end in
  mret (mkHealthView last_head_raw (ah_latest_block analysis) blocks_behind falls_behind threshold
          pending dead blocks_skipped jobs_dropped_stale
          (f64_as_i64 <$> ah_last_insert_age_secs analysis) (default 0 (ah_total_rows analysis))
          heuristic_rate ((λ '(category, count), (category, default 0 count)) <$> categories)).
End health.

(** ** Candidates, organizations, blacklist *)

Section lists.
Context `{Decimals, Dates}.

Record CandidateRow := mkCandidateRow {
  cd_address : list Z;
  cd_first_seen : option Z;
  cd_last_seen : option Z;
  cd_tx_count : option Z;
  cd_wei_saved_total : option BigDecimal;
  cd_usd_saved_total : option BigDecimal
}.
(** A row of [analysis_exclusion]; the time is in nanoseconds. *)
Record BlacklistRow := mkBlacklistRow {
  bl_address : list Z;
  bl_selector : option (list Z);
  bl_reason : string;
  bl_created_by : string;
  bl_created_at : Z
}.
End lists.

Record CandidateView := mkCandidateView {
  dv_address_hex : string;
  dv_first_seen : string;
  dv_last_seen : string;
  dv_count : Z;
  dv_eth_saved : string;
  dv_usd : string
}.
Record CandidatesFragment := mkCandidatesFragment {
  cdf_candidates : list CandidateView;
  cdf_days : Z;
  cdf_min_eth : spec_float
}.
Record ProjectAssignView := mkProjectAssignView {
  pa_project_slug : string;
  pa_project_name : string;
  pa_org_slug : string
}.
Record BlacklistRowView := mkBlacklistRowView {
  bv_address_hex : string;
  bv_selector_hex : string;
  bv_reason : string;
  bv_created_by : string;
  bv_when : string
}.

(** The other queries of the admin pages; the days of [analysis_day_range] count from 1970-01-01. *)
Class AdminQueries (W : Type) `{Decimals, Dates} := {
  new_high_savings_candidates :
    option Date → Z → Z → BigDecimal → Z → Eff WebError W (list CandidateRow);
  list_orgs : Eff WebError W (list (string * string));
  list_projects : Eff WebError W (list (string * option string * option string));
  blacklist_list : Z → Eff WebError W (list BlacklistRow);
  analysis_day_range : Eff string W (option (Z * Z))
}.

(** [f64::max] with zero: of NaN and a number, the number. *)
Definition f64_max_zero (x : spec_float) : spec_float :=
  match x with S754_nan => S754_zero false | _ => if f64_lt x (S754_zero false) then S754_zero false else x end.

Section lists_pages.
Context {W : Type} `{Decimals, Dates, !PageTexts, !Reports W, !AdminQueries W}.
(** [BigDecimal::from_str]. *)
Variable decimal_of_text : string → option BigDecimal.

Definition seen_text (now : Z) (ts : option Z) : string :=
  match ts with Some ts => when_text now ts | None => em_dash end.

(** Each of the two times reads the clock. *)
Definition candidate_view (r : CandidateRow) : Eff WebError (WebState W) CandidateView :=
  first ← now;
  last ← now;
  mret (mkCandidateView (hex0x (cd_address r)) (seen_text first (cd_first_seen r))
          (seen_text last (cd_last_seen r)) (default 0 (cd_tx_count r))
          (format_eth decimal_f64 (cd_wei_saved_total r)) (format_usd decimal_f64 (cd_usd_saved_total r))).

Definition candidates_partial (chain_id : Z) (days : option Z) (min_eth : option spec_float)
  : Eff WebError (WebState W) CandidatesFragment :=
  let days := Z.max 1 (Z.min 365 (default 14 days)) in
  let min_eth := f64_max_zero (default (S754_zero false) min_eth) in
  let min_wei :=
    default decimal_zero (decimal_of_text (f64_fixed 0 (f64_mul min_eth (f64_of_Z (10 ^ 18))))) in
  rows ← floored (λ f, new_high_savings_candidates f chain_id days min_wei 25);
  candidates ← mapM candidate_view rows;
  mret (mkCandidatesFragment candidates days min_eth).

Definition orgs_page : Eff WebError (WebState W) (list (string * string) * list ProjectAssignView) :=
  orgs ← on_db list_orgs;
  projects ← on_db list_projects;
  mret (orgs, (λ '(slug, name, org), mkProjectAssignView slug (default slug name) (default ""%string org)) <$> projects).

Definition blacklist_row_view (r : BlacklistRow) : BlacklistRowView :=
  mkBlacklistRowView (hex0x (bl_address r))
    (match bl_selector r with Some s => hex0x s | None => "(whole contract)"%string end)
    (bl_reason r) (bl_created_by r) (timestamp_text (bl_created_at r)).

Definition blacklist_page (chain_id : Z) : Eff WebError (WebState W) (list BlacklistRowView) :=
  rows ← on_db (blacklist_list chain_id); mret (blacklist_row_view <$> rows).
End lists_pages.

Definition project_edit {W} `{WebStore W} (slug : string) : Eff WebError W (string * string) :=
  row ← project_header slug; mret (slug, default slug (row ≫= id)).

(** ** Buttons *)

(** The fields of [AppState] the buttons read. *)
Record ButtonConfig := mkButtonConfig {
  bc_chain_id : Z;
  bc_price_url : string;
  bc_coingecko_base_url : string;
  bc_overlay_path : string;
  bc_defillama_url : string;
  bc_labeler_batch_size : Z;
  bc_labeler_retry_days : Z
}.

Definition button_ok (label message : string) : RefreshBanner := mkBanner true label message.
Definition button_err (label message : string) : RefreshBanner := mkBanner false label message.

Section buttons.
Context {W : Type} `{Externals, Strings, Sources W, Store W, SortedSet W, PriceApi W, PriceStore W,
  Dates, !AdminQueries W}.
(** [Display] of the errors and values shown, and [Path::exists]. *)
Variables (price_error_text : PriceError → string) (decimal_text : BigDecimal → string)
  (date_of_day : Z → string) (path_exists : string → bool).

Abbreviation Run A := (Eff string (ResolverWorld W) A).

(** [match m { Ok(a) => ok(..), Err(e) => err(..) }]. *)
Definition banner_of {A} (label : string) (m : Run A) (message : A → string) : Run RefreshBanner :=
  r ← eff_try m;
  mret match r with
       | inl a => button_ok label (message a)
       | inr e => button_err label e
       end.

Definition refresh_rollups_now : Run RefreshBanner :=
  banner_of "Rollup" (on_store Refresher.refresh_rollups) (λ _, "project_daily refreshed"%string).

Definition refresh_relabel : Run RefreshBanner :=
  banner_of "Relabel" (on_store relabel_unknowns) (λ n, i64_text n +:+ " historical rows updated").

Definition refresh_eth_price_button (cfg : ButtonConfig) : Run RefreshBanner :=
  banner_of "ETH price" (on_store (eff_map_err price_error_text (refresh_eth_price_now (bc_price_url cfg))))
    (λ price, "stored $" +:+ decimal_text price).

(** From the first day analysed to the last one or today. *)
Definition backfill_eth_prices (cfg : ButtonConfig) : Run RefreshBanner :=
  let label := "ETH price backfill"%string in
  range ← eff_try (on_store analysis_day_range);
  match range with
  | inr e => mret (button_err label e)
  | inl None => mret (button_err label "analysis table is empty")
  | inl (Some (first_day, last_day)) =>
      today ← on_store (eff_total utc_today);
      banner_of label
        (on_store (eff_map_err price_error_text
          (backfill_eth_prices_now (bc_coingecko_base_url cfg) first_day (Z.max last_day today))))
        (λ outcome,
          i64_text (days_inserted outcome) +:+ " days inserted, " +:+ i64_text (days_skipped outcome) +:+
          " already present (range " +:+ default ""%string (date_of_day <$> min_day outcome) +:+ " → " +:+
          default ""%string (date_of_day <$> max_day outcome) +:+ ")")
  end.

Definition refresh_resolver (cfg : ButtonConfig) : Run RefreshBanner :=
  let overlay := if path_exists (bc_overlay_path cfg) then Some (bc_overlay_path cfg) else None in
  let defillama :=
    if (bc_defillama_url cfg =? "")%string then None else Some (bc_defillama_url cfg) in
  outcome ← refresh_resolver_with overlay defillama;
  mret (button_ok "Resolver"
    (i64_text (ro_projects outcome) +:+ " projects, " +:+ i64_text (ro_addresses outcome) +:+
     " addresses, " +:+ i64_text (ro_relabeled outcome) +:+ " relabeled")).

(** The chain, an [i64], is cast to [u64]. *)
Definition refresh_labeler (cfg : ButtonConfig) : Run RefreshBanner :=
  banner_of "Labeler queue"
    (on_store (producer_tick_once (wrap64 (bc_chain_id cfg)) (bc_labeler_batch_size cfg)
       (bc_labeler_retry_days cfg)))
    (λ '(pushed, depth), i64_text pushed +:+ " new, " +:+ i64_text depth +:+ " total in queue").
End buttons.
