(* ===== verification/AdminSpec.v ===== *)
(** * What the health views say

    The admin page and the diagnosis read the same counters in different orders and with different care
    for errors. Where nothing changes while they read, they agree. *)

From Stdlib Require Import SpecFloat.
From S2P Require Import Prelude.
From S2P Require Import Types.
From S2P Require Import Jobs.
From S2P Require Import Labeler.
From S2P Require Import Refresher.
From S2P Require Import Web.
From S2P Require Import Effects.
From S2P Require Import Diagnose.
From S2P Require Import Admin.

(** What the database and Redis hold, as far as the counters go: reading gives it and leaves it. *)
Class Counters (W : Type) `{Monitor W, QueueServer W, SortedSet W, HealthQueries W} := {
  Held : Type;
  held : W → Held;
  held_analysis : Z → Held → Res WebError AnalysisHealthRow;
  held_len : string → Held → Res string Z;
  held_i64 : string → Held → Res string (option Z)
}.

Section reads.
Context {W : Type} `{Counters W}.

Definition reads {E A} (m : Eff E W A) (f : Held → Res E A) : Prop :=
  ∀ w, ∃ w', m w = (f (held w), w') ∧ held w' = held w.
Definition leaves {E A} (m : Eff E W A) : Prop := ∀ w r w', m w = (r, w') → held w' = held w.

Class CounterLaws : Prop := {
  analysis_reads c : reads (analysis_health c) (held_analysis c);
  llen_reads k : reads (llen k) (held_len k);
  get_i64_reads k : reads (redis_get_i64 k) (held_i64 k);
  rows_since_leaves c i : leaves (rows_since c i);
  unknown_rows_leaves c n : leaves (unknown_rows c n);
  labeler_rows_leaves c n : leaves (labeler_rows c n);
  xrevrange_leaves k n : leaves (xrevrange k n);
  zcard_leaves k : leaves (zcard k);
  heuristic_counts_leaves c : leaves (heuristic_counts_24h c);
  error_categories_leaves c : leaves (error_categories_24h c)
}.
Context `{!CounterLaws}.

Definition value_or {E A} (d : A) (r : Res E A) : A := match r with Ok a => a | _ => d end.

Lemma reads_leaves {E A} (m : Eff E W A) f : reads m f → leaves m.
Proof. intros Hm w r w' Hrun. destruct (Hm w) as (w1 & Heq & Hw). congruence. Qed.

Lemma unwrap_or_reads {E F A} (d : A) (m : Eff E W A) f v w w' :
  reads m f → unwrap_or (F := F) d m w = (Ok v, w') → v = value_or d (f (held w)) ∧ held w' = held w.
Proof.
  intros Hm. destruct (Hm w) as (w1 & Hrun & Hw).
  unfold unwrap_or, eff_ok, eff_try, mbind, eff_bind. rewrite Hrun.
  destruct (f (held w)); cbn; [by intros [= <- <-]..|done].
Qed.

Lemma unwrap_or_leaves {E F A} (d : A) (m : Eff E W A) v w w' :
  leaves m → unwrap_or (F := F) d m w = (Ok v, w') → held w' = held w.
Proof.
  intros Hm. unfold unwrap_or, eff_ok, eff_try, mbind, eff_bind.
  destruct (m w) as [[a|e|p] w1] eqn:Hrun; apply Hm in Hrun; cbn; [by intros [= <- <-]..|done].
Qed.

Lemma counter_reads {F} k v w w' :
  counter (F := F) k w = (Ok v, w') → v = default 0 (value_or None (held_i64 k (held w))) ∧ held w' = held w.
Proof.
  unfold counter. intros Hrun. apply eff_bind_Ok in Hrun as (n & w1 & Hn & [= <- <-]).
  apply (unwrap_or_reads None _ _ _ _ _ (get_i64_reads k)) in Hn as [-> Hw]. done.
Qed.

(** The counters of a state, where the analysis could be read. *)
Definition blocks_behind_of (h a : option Z) : option Z :=
  match h, a with Some h, Some a => Some (i64_sub h a) | _, _ => None end.

Definition health_of (c : Z) (analysis : option AnalysisHealthRow) (s : Held)
  : option Z * option Z * option Z * Z * Z * Z * Z * option Z * Z :=
  let head := value_or None (held_i64 LAST_HEAD_KEY s) in
  let latest := analysis ≫= ah_latest_block in
  (head, latest, blocks_behind_of head latest, value_or 0 (held_len Jobs.QUEUE_KEY s),
   value_or 0 (held_len DEAD_KEY s), default 0 (value_or None (held_i64 SKIPPED_BLOCKS_KEY s)),
   default 0 (value_or None (held_i64 EXPIRED_JOBS_KEY s)),
   f64_as_i64 <$> (analysis ≫= ah_last_insert_age_secs), default 0 (analysis ≫= ah_total_rows)).

Definition view_counters (v : HealthView) :=
  (hv_last_seen_block v, hv_latest_analyzed_block v, hv_blocks_behind v, hv_pending_queue v,
   hv_dead_letter v, hv_blocks_skipped v, hv_jobs_dropped_stale v, hv_last_insert_age_secs v,
   hv_total_rows v).
Definition bundle_counters (b : DiagnosticsBundle) :=
  let h := db_service_health b in
  (sh_head_block h, sh_latest_analyzed_block h, sh_blocks_behind h, sh_pending_queue_depth h,
   sh_dead_letter_depth h, sh_blocks_skipped h, sh_jobs_dropped_stale h, sh_last_insert_age_secs h,
   sh_total_rows h).

Lemma collect_health_counters c threshold v w w' :
  collect_health c threshold w = (Ok v, w') →
  ∃ analysis, held_analysis c (held w) = Ok analysis ∧
    view_counters v = health_of c (Some analysis) (held w) ∧
    hv_falls_behind v = match hv_blocks_behind v with Some b => threshold <? b | None => false end.
Proof.
  unfold collect_health. intros Hrun.
  apply eff_bind_Ok in Hrun as (analysis & w1 & Ha & Hrun).
  destruct (analysis_reads c w) as (w1' & Ha' & Hw1). rewrite Ha in Ha'. injection Ha' as Hread <-.
  apply eff_bind_Ok in Hrun as (rate & w2 & Hrate & Hrun).
  apply eff_bind_Ok in Hrate as (row & w2' & Hrow & [= _ <-]). apply heuristic_counts_leaves in Hrow.
  apply eff_bind_Ok in Hrun as (cats & w3 & Hcats & Hrun). apply error_categories_leaves in Hcats.
  apply eff_bind_Ok in Hrun as (pending & w4 & Hp & Hrun).
  apply (unwrap_or_reads 0 _ _ _ _ _ (llen_reads _)) in Hp as [-> Hw4].
  apply eff_bind_Ok in Hrun as (dead & w5 & Hd & Hrun).
  apply (unwrap_or_reads 0 _ _ _ _ _ (llen_reads _)) in Hd as [-> Hw5].
  apply eff_bind_Ok in Hrun as (head & w6 & Hh & Hrun).
  apply (unwrap_or_reads None _ _ _ _ _ (get_i64_reads _)) in Hh as [-> Hw6].
  apply eff_bind_Ok in Hrun as (skipped & w7 & Hs & Hrun). apply counter_reads in Hs as [-> Hw7].
  apply eff_bind_Ok in Hrun as (dropped & w8 & Hx & [= <- _]). apply counter_reads in Hx as [-> Hw8].
  exists analysis. split; [done|]. unfold view_counters, health_of; cbn.
  rewrite Hw7, Hw6, Hw5, Hw4, Hcats, Hrow, Hw1. by split.
Qed.

Definition res_ok {E A} (r : Res E A) : option A := match r with Ok a => Some a | _ => None end.

Lemma collect_counters {F} c hint b w w' :
  collect (F := F) c hint w = (Ok b, w') →
  bundle_counters b = health_of c (res_ok (held_analysis c (held w))) (held w).
Proof.
  unfold collect. intros Hrun.
  apply eff_bind_Ok in Hrun as (analysis & w1 & Ha & Hrun).
  assert (analysis = res_ok (held_analysis c (held w)) ∧ held w1 = held w) as [-> Hw1].
  { destruct (analysis_reads c w) as (w1' & Ha' & Hw1').
    unfold eff_ok, eff_try, mbind, eff_bind in Ha. rewrite Ha' in Ha.
    destruct (held_analysis c (held w)); cbn in *; [by injection Ha as <- <-..|done]. }
  apply eff_bind_Ok in Hrun as (throughput & w2 & Ht & Hrun).
  assert (held w2 = held w1) as Hw2.
  { unfold collect_throughput in Ht. apply eff_bind_Ok in Ht as (n1 & v1 & H1' & Ht).
    apply eff_bind_Ok in Ht as (n2 & v2 & H2' & Ht). apply eff_bind_Ok in Ht as (n3 & v3 & H3' & [= _ <-]).
    apply unwrap_or_leaves in H1', H2', H3'; [congruence|apply rows_since_leaves..]. }
  apply eff_bind_Ok in Hrun as (unknowns & w3 & Hu & Hrun).
  apply eff_bind_Ok in Hu as (rows & w3' & Hu & [= _ <-]).
  apply unwrap_or_leaves in Hu; [|apply unknown_rows_leaves].
  apply eff_bind_Ok in Hrun as (outcomes & w4 & Ho & Hrun).
  apply eff_bind_Ok in Ho as (rows' & w4' & Ho & [= _ <-]).
  apply unwrap_or_leaves in Ho; [|apply labeler_rows_leaves].
  apply eff_bind_Ok in Hrun as (pending & w5 & Hp & Hrun).
  apply (unwrap_or_reads 0 _ _ _ _ _ (llen_reads _)) in Hp as [-> Hw5].
  apply eff_bind_Ok in Hrun as (dead & w6 & Hd & Hrun).
  apply (unwrap_or_reads 0 _ _ _ _ _ (llen_reads _)) in Hd as [-> Hw6].
  apply eff_bind_Ok in Hrun as (labeler & w7 & Hl & Hrun).
  apply unwrap_or_leaves in Hl; [|apply zcard_leaves].
  apply eff_bind_Ok in Hrun as (head & w8 & Hh & Hrun).
  apply (unwrap_or_reads None _ _ _ _ _ (get_i64_reads _)) in Hh as [-> Hw8].
  apply eff_bind_Ok in Hrun as (skipped & w9 & Hs & Hrun). apply counter_reads in Hs as [-> Hw9].
  apply eff_bind_Ok in Hrun as (dropped & w10 & Hx & Hrun). apply counter_reads in Hx as [-> Hw10].
  apply eff_bind_Ok in Hrun as (events & w11 & _ & Hrun).
  apply eff_bind_Ok in Hrun as (now & w12 & _ & [= <- _]).
  unfold bundle_counters, health_of; cbn.
  rewrite Hw9, Hw8, Hl, Hw6, Hw5, Ho, Hu, Hw2, Hw1.
  destruct (res_ok _ ≫= ah_latest_block), (value_or None (held_i64 LAST_HEAD_KEY (held w))); done.
Qed.

(** where nothing changes in between, the health view and the diagnosis report the same counters: the
    head, the latest block analysed and how far it is behind, the queues, what was dropped, the age of
    the last row and the number of rows. The view fails if the analysis cannot be read; the diagnosis
    goes on without what the database says, and still reports what Redis holds. The red banner is shown
    exactly when the blocks behind are known and more than the threshold. *)
Theorem health_views_agree {F} c threshold hint b w w2 :
  collect (F := F) c hint w = (Ok b, w2) →
  (∀ v w1, collect_health c threshold w = (Ok v, w1) →
    bundle_counters b = view_counters v ∧
    (hv_falls_behind v = true ↔ ∃ n, hv_blocks_behind v = Some n ∧ threshold < n)) ∧
  (∀ e, held_analysis c (held w) = Err e →
    bundle_counters b = health_of c None (held w) ∧ ∀ v w1, collect_health c threshold w ≠ (Ok v, w1)).
Proof.
  intros Hb%collect_counters. split.
  - intros v w1 Hv. apply collect_health_counters in Hv as (analysis & Ha & Hv & ->).
    rewrite Hb, Ha, Hv. split; [done|].
    destruct (hv_blocks_behind v) as [n|]; [|split; [done|by intros (n & [=] & _)]].
    rewrite Z.ltb_lt. split; [by exists n|by intros (m & [= <-] & Hm)].
  - intros e He. rewrite Hb, He. split; [done|]. intros v w1 Hv.
    apply collect_health_counters in Hv as (analysis & Ha & _). congruence.
Qed.
End reads.

(** ** A sample service *)

(** Nothing changes, and only the queues and the head are known. *)
#[local] Instance sample_monitor : Monitor unit := {|
  analysis_health c w := (Ok (mkHealthRow (Some 893) (Some 100) None), w);
  rows_since c i w := (Err "down"%string, w);
  unknown_rows c n w := (Err "down"%string, w);
  labeler_rows c n w := (Err "down"%string, w);
  redis_get_i64 k w := (Ok (if (k =? LAST_HEAD_KEY)%string then Some 160 else None), w);
  xrevrange k n w := (Ok [], w);
  now_rfc3339 w := (""%string, w)
|}.
#[local] Instance sample_queue : QueueServer unit := {|
  rpush k v w := (Ok tt, w);
  llen k w := (Ok (if (k =? Jobs.QUEUE_KEY)%string then 1121 else 5568), w);
  blpop k t w := (Ok None, w);
  incr_by k n w := (Ok n, w);
  set_ex k v t w := (Ok tt, w);
  job_to_vec j := [];
  job_from_slice bs := None;
  dead_to_vec j t m := [];
  timestamp w := (0, w)
|}.
#[local] Instance sample_sorted_set : SortedSet unit := {|
  Score := Z;
  bd_to_f64 z := z;
  zadd k m s w := (Ok 1, w);
  zcard k w := (Err "down"%string, w);
  zpopmax k n w := (Ok [], w)
|}.
#[local] Instance sample_health : HealthQueries unit := {|
  heuristic_counts_24h c w := (Ok (Some 1, Some 2), w);
  error_categories_24h c w := (Ok [], w)
|}.
#[local] Instance sample_counters : Counters unit := {|
  Held := unit;
  held w := w;
  held_analysis c _ := Ok (mkHealthRow (Some 893) (Some 100) None);
  held_len k _ := Ok (if (k =? Jobs.QUEUE_KEY)%string then 1121 else 5568);
  held_i64 k _ := Ok (if (k =? LAST_HEAD_KEY)%string then Some 160 else None)
|}.
#[local] Instance sample_counter_laws : CounterLaws.
Proof.
  split; try (intros; intros []; by eexists); intros; by intros [] ? [].
Qed.

Lemma health_views_agree_witness :
  ∃ b v w1 w2, collect (F := string) 1 "" tt = (Ok b, w2) ∧ collect_health 1 50 tt = (Ok v, w1) ∧
    bundle_counters b = view_counters v ∧ hv_blocks_behind v = Some 60 ∧ hv_falls_behind v = true.
Proof.
  destruct (collect (F := string) 1 "" tt) as [r w2] eqn:Hb.
  destruct (collect_health 1 50 tt) as [r' w1] eqn:Hv.
  destruct r as [b| |]; [|vm_compute in Hb; discriminate Hb..].
  destruct r' as [v| |]; [|vm_compute in Hv; discriminate Hv..].
  exists b, v, w1, w2. split; [done|]. split; [done|].
  destruct (proj1 (health_views_agree 1 50 "" b tt w2 Hb) v w1 Hv) as [Hagree _].
  split; [exact Hagree|]. vm_compute in Hv. injection Hv as <- _. by split.
Defined.
