(* ===== verification/Database.v ===== *)
(** * The database

    [crates/indexer-store]: the tables and views of the migrations, and the statements of
    [Store] as functions on them. A statement reads the server's clock once, and either runs whole or fails
    with the tables as they were: the connection may fail at any time, and a text with a NUL byte, a
    reference to a row that is not there, a time or a limit out of range are refused. A connection that is
    lost after the server committed is not modelled, nor are the queries' plans: where an order leaves rows
    tied, they come as the map has them. Times of blocks are in seconds, the server's in microseconds. *)

From Stdlib Require Import SpecFloat Strings.Ascii DecimalString.
From S2P Require Import Prelude.
From S2P Require Import Encoding.
From S2P Require Import Types.
From S2P Require Import Trace.
From S2P Require Import Analyze.
From S2P Require Import Resolver.
From S2P Require Import Labeler.
From S2P Require Import Auth.
From S2P Require Import Refresher.
From S2P Require Import Diagnose.

Inductive StoreError :=
  | SSqlx (why : string)
  | SDecimal (why : string).
Definition store_error_text (e : StoreError) : string :=
  match e with
  | SSqlx why => "sqlx error: " +:+ why
  | SDecimal why => "decimal conversion error: " +:+ why
  end.

(** ** Rows *)

(** [as i32]; [as i64] is [i64_wrap]. *)
Definition i32_wrap (z : Z) : Z := (z + 2 ^ 31) mod 2 ^ 32 - 2 ^ 31.

(** A row of [analysis], without its key of chain, block and index. *)
Record Analysis := mkAnalysis {
  an_block_timestamp : Z;
  an_tx_hash : Z;
  an_from : Z;
  an_to : Z;
  an_selector : list Z;
  an_slug : string;
  an_gas_used : Z;
  an_gas_price : Z;
  an_estimate : Z;
  an_gas_saved : Z;
  an_wei_saved : Z;
  an_is_heuristic : bool;
  an_failure_reason : option string;
  an_state_update_count : Z;
  an_skipped_opcodes : gset string;
  an_reentered : bool;
  an_inserted_at : Z
}.
#[export] Instance analysis_eq_dec : EqDecision Analysis.
Proof. solve_decision. Defined.
Definition set_slug (slug : string) (a : Analysis) : Analysis :=
  mkAnalysis (an_block_timestamp a) (an_tx_hash a) (an_from a) (an_to a) (an_selector a) slug
    (an_gas_used a) (an_gas_price a) (an_estimate a) (an_gas_saved a) (an_wei_saved a)
    (an_is_heuristic a) (an_failure_reason a) (an_state_update_count a) (an_skipped_opcodes a)
    (an_reentered a) (an_inserted_at a).

Record ProjectRow := mkProjectRow {
  pj_name : string;
  pj_category : option string;
  pj_contact_email : option string;
  pj_contact_url : option string;
  pj_last_seen_at : Z;
  pj_org : option string
}.
Record Mapping := mkMapping { mp_slug : string; mp_manual : bool }.
Record Attempt := mkAttempt {
  at_last_attempted_at : Z;
  at_last_result : string;
  at_contract_name : option string;
  at_matched_slug : option string
}.
Record SelectorRow := mkSelectorRow {
  sl_primary_name : option string;
  sl_primary_sig : option string;
  sl_all_signatures : list string;
  sl_source : string;
  sl_fetched_at : Z
}.
Record Exclusion := mkExclusion {
  ex_selector : option (list Z);
  ex_reason : string;
  ex_created_by : string;
  ex_created_at : Z
}.
Record OrgTable := mkOrg { og_name : string; og_created_at : Z }.

(** Decimal arithmetic of the server: a product and a quotient with a price, [COALESCE]d to zero; the
    mean of shares [num / den], of which those with a zero [den] are left out; and what [NUMERIC(20,8)]
    stores of a number, if it can. *)
Class Numeric `{Decimals} := {
  usd_of_wei : Z → option BigDecimal → BigDecimal;
  mean_share : list (Z * Z) → option BigDecimal;
  numeric_20_8 : BigDecimal → option BigDecimal
}.

Section tables.
Context `{Numeric}.

(** A row of [project_daily] or [function_daily], without its key. *)
Record DailyRow := mkDailyRow {
  dy_tx_count : Z;
  dy_covered_tx_count : Z;
  dy_gas_used_total : Z;
  dy_gas_saved_total : Z;
  dy_wei_saved_total : Z;
  dy_wei_spent_total : Z;
  dy_usd_saved_total : BigDecimal;
  dy_avg_savings_pct : option BigDecimal;
  dy_heuristic_rate : spec_float
}.

(** The tables by their primary keys; an exclusion's is its chain, address and selector, with no bytes
    for the whole contract. *)
Record Tables := mkTables {
  tb_analysis : gmap (Z * Z * Z) Analysis;
  tb_projects : gmap string ProjectRow;
  tb_address_project : gmap (Z * Z) Mapping;
  tb_eth_prices : gmap Z BigDecimal;
  tb_label_attempt : gmap (Z * Z) Attempt;
  tb_selectors : gmap (list Z) SelectorRow;
  tb_exclusion : gmap (Z * Z * list Z) Exclusion;
  tb_orgs : gmap string OrgTable;
  tb_project_daily : gmap (Z * string * Z) DailyRow;
  tb_function_daily : gmap (Z * Z * list Z * string * Z) DailyRow
}.
Definition empty_tables : Tables := mkTables ∅ ∅ ∅ ∅ ∅ ∅ ∅ ∅ ∅ ∅.

Definition set_analysis (m : gmap (Z * Z * Z) Analysis) (t : Tables) : Tables :=
  mkTables m (tb_projects t) (tb_address_project t) (tb_eth_prices t) (tb_label_attempt t)
    (tb_selectors t) (tb_exclusion t) (tb_orgs t) (tb_project_daily t) (tb_function_daily t).
Definition set_projects (m : gmap string ProjectRow) (t : Tables) : Tables :=
  mkTables (tb_analysis t) m (tb_address_project t) (tb_eth_prices t) (tb_label_attempt t)
    (tb_selectors t) (tb_exclusion t) (tb_orgs t) (tb_project_daily t) (tb_function_daily t).
Definition set_address_project (m : gmap (Z * Z) Mapping) (t : Tables) : Tables :=
  mkTables (tb_analysis t) (tb_projects t) m (tb_eth_prices t) (tb_label_attempt t)
    (tb_selectors t) (tb_exclusion t) (tb_orgs t) (tb_project_daily t) (tb_function_daily t).
Definition set_eth_prices (m : gmap Z BigDecimal) (t : Tables) : Tables :=
  mkTables (tb_analysis t) (tb_projects t) (tb_address_project t) m (tb_label_attempt t)
    (tb_selectors t) (tb_exclusion t) (tb_orgs t) (tb_project_daily t) (tb_function_daily t).
Definition set_label_attempt (m : gmap (Z * Z) Attempt) (t : Tables) : Tables :=
  mkTables (tb_analysis t) (tb_projects t) (tb_address_project t) (tb_eth_prices t) m
    (tb_selectors t) (tb_exclusion t) (tb_orgs t) (tb_project_daily t) (tb_function_daily t).
Definition set_selectors (m : gmap (list Z) SelectorRow) (t : Tables) : Tables :=
  mkTables (tb_analysis t) (tb_projects t) (tb_address_project t) (tb_eth_prices t) (tb_label_attempt t)
    m (tb_exclusion t) (tb_orgs t) (tb_project_daily t) (tb_function_daily t).
Definition set_exclusion (m : gmap (Z * Z * list Z) Exclusion) (t : Tables) : Tables :=
  mkTables (tb_analysis t) (tb_projects t) (tb_address_project t) (tb_eth_prices t) (tb_label_attempt t)
    (tb_selectors t) m (tb_orgs t) (tb_project_daily t) (tb_function_daily t).
Definition set_orgs (m : gmap string OrgTable) (t : Tables) : Tables :=
  mkTables (tb_analysis t) (tb_projects t) (tb_address_project t) (tb_eth_prices t) (tb_label_attempt t)
    (tb_selectors t) (tb_exclusion t) m (tb_project_daily t) (tb_function_daily t).
Definition set_project_daily (m : gmap (Z * string * Z) DailyRow) (t : Tables) : Tables :=
  mkTables (tb_analysis t) (tb_projects t) (tb_address_project t) (tb_eth_prices t) (tb_label_attempt t)
    (tb_selectors t) (tb_exclusion t) (tb_orgs t) m (tb_function_daily t).
Definition set_function_daily (m : gmap (Z * Z * list Z * string * Z) DailyRow) (t : Tables) : Tables :=
  mkTables (tb_analysis t) (tb_projects t) (tb_address_project t) (tb_eth_prices t) (tb_label_attempt t)
    (tb_selectors t) (tb_exclusion t) (tb_orgs t) (tb_project_daily t) m.
End tables.

(** ** Statements *)

(** The connection: the time at the server when a statement reaches it, or why it does not. *)
Class Connection (W : Type) := { reach : W → (Z + string) * W }.

Record DbState (W : Type) `{Numeric} := mkDb { db_conn : W; db_tables : Tables }.
Arguments mkDb {W _ _}. Arguments db_conn {W _ _}. Arguments db_tables {W _ _}.

(** A NUL byte in a text is refused. *)
Fixpoint has_nul (s : string) : bool :=
  match s with EmptyString => false | String c s => (byte_of c =? 0) || has_nul s end.
Definition check_texts (texts : list string) : Res string unit :=
  bail_if (existsb has_nul texts) "invalid byte sequence for encoding UTF8: 0x00".
Definition opt_text (s : option string) : list string := match s with Some s => [s] | None => [] end.
Definition foreign_key (ok : bool) : Res string unit :=
  bail_if (negb ok) "insert or update violates foreign key constraint".

Definition int_range (z : Z) : Res string unit :=
  bail_if (negb ((- 2 ^ 31 <=? z) && (z <? 2 ^ 31))) "integer out of range".
(** Whether an integer fits [NUMERIC(40,0)]. *)
Definition numeric_40_0 (z : Z) : bool := Z.abs z <? 10 ^ 40.
Definition limit_ok (limit : Z) : Res string unit := bail_if (limit <? 0) "LIMIT must not be negative".
Definition limit_rows {A} (limit : Z) (rows : list A) : list A := take (Z.to_nat limit) rows.

Definition MICROS : Z := 1000000.
Definition MICROS_PER_DAY : Z := 86400 * MICROS.
(** The first second of the server's [timestamptz]. *)
Definition timestamp_min : Z := -210866803200.

(** Rows by a key, in the order they had. *)
Definition group_by `{Countable K} {V} (key : V → K) (rows : list V) : gmap K (list V) :=
  foldr (λ r m, <[key r := r :: default [] (m !! key r)]> m) ∅ rows.
Definition zsum {A} (f : A → Z) (rows : list A) : Z := foldr (λ r n, f r + n) 0 rows.

(** [LIKE 'unknown:%']. *)
Definition unknown_slug (slug : string) : bool := String.prefix "unknown:" slug.

(** What the views and the rankings count: an analysis that saves gas and left no opcode out. *)
Definition counted (a : Analysis) : bool := (0 <? an_gas_saved a) && bool_decide (an_skipped_opcodes a = ∅).
Definition day_of (secs : Z) : Z := secs / 86400.

(** Descending by a number. *)
Definition desc {A} (f : A → Z) (x y : A) : Prop := f y <= f x.
#[export] Instance desc_dec {A} (f : A → Z) (x y : A) : Decision (desc f x y).
Proof. unfold desc. apply _. Defined.

Section store.
Context {W : Type} `{Numeric, Connection W}.
Abbreviation Run A := (Eff StoreError (DbState W) A).

(** A statement: the time, the tables, and what it returns with the tables it leaves. *)
Definition Statement (A : Type) : Type := Z → Tables → Res string (A * Tables).
Definition execute {A} (q : Statement A) : Run A := λ s,
  match reach (db_conn s) with
  | (inr why, w) => (Err (SSqlx why), mkDb w (db_tables s))
  | (inl now, w) =>
      match q now (db_tables s) with
      | Ok (a, t) => (Ok a, mkDb w t)
      | Err why => (Err (SSqlx why), mkDb w (db_tables s))
      | Panic why => (Panic why, mkDb w (db_tables s))
      end
  end.
(** The errors of the store as their texts. *)
Definition shown {A} (m : Run A) : Eff string (DbState W) A := eff_map_err store_error_text m.

Definition query {A} (q : Z → Tables → Res string A) : Run A :=
  execute (λ now t, a ← q now t; Ok (a, t)).

(** [timestamp_opt(secs, 0).single()]. *)
Definition timestamp_opt (secs : Z) : option Z :=
  if (chrono_min <=? secs) && (secs <=? chrono_max) then Some secs else None.

(** The number is printed and read again. *)
Definition bigdecimal_from_u128 (v : Z) : Res StoreError Z :=
  match NilZero.uint_of_string (i64_text v) with
  | Some d => Ok (Z.of_uint d)
  | None => Err (SDecimal "invalid digit")
  end.

Definition analysis_key (report : AnalysisReport) : Z * Z * Z :=
  (i64_wrap (ar_chain_id report), i64_wrap (ar_block_number report), i32_wrap (ar_tx_index report)).
Definition analysis_row (report : AnalysisReport) (slug : string) (timestamp price wei now : Z) : Analysis :=
  mkAnalysis timestamp (ar_tx_hash report) (ar_from report) (ar_to report) (ar_function_selector report)
    slug (i64_wrap (ar_gas_used report)) price (i64_wrap (ar_gaskiller_gas_estimate report))
    (i64_wrap (ar_gas_saved report)) wei (ar_is_heuristic report) (ar_failure_reason report)
    (i32_wrap (ar_state_update_count report)) (ar_skipped_opcodes report) (ar_reentered report) now.

Definition insert_analysis (report : AnalysisReport) (project_slug : string) : Run unit :=
  block_timestamp ← eff_res (ok_or (timestamp_opt (i64_wrap (ar_block_timestamp report)))
    (SDecimal ("invalid block_timestamp: " +:+ i64_text (ar_block_timestamp report))));
  effective_gas_price ← eff_res (bigdecimal_from_u128 (ar_effective_gas_price_wei report));
  wei_saved ← eff_res (bigdecimal_from_u128 (ar_wei_saved report));
  execute (λ now t,
    _ ← check_texts (project_slug :: opt_text (ar_failure_reason report) ++
                     elements (ar_skipped_opcodes report));
    _ ← bail_if (block_timestamp <? timestamp_min) "timestamp out of range"%string;
    _ ← bail_if (negb (numeric_40_0 effective_gas_price && numeric_40_0 wei_saved)) "numeric field overflow"%string;
    let key := analysis_key report in
    let row := analysis_row report project_slug block_timestamp effective_gas_price wei_saved now in
    Ok (tt, match tb_analysis t !! key with
            | Some _ => t
            | None => set_analysis (<[key := row]> (tb_analysis t)) t
            end)).

Definition upsert_project (project : ProjectInfo) : Run unit :=
  execute (λ now t,
    _ ← check_texts ([pi_slug project; pi_name project] ++ opt_text (pi_category project) ++
                     opt_text (pi_contact_email project) ++ opt_text (pi_contact_url project));
    let org := tb_projects t !! pi_slug project ≫= pj_org in
    let row := mkProjectRow (pi_name project) (pi_category project) (pi_contact_email project)
                 (pi_contact_url project) now org in
    Ok (tt, set_projects (<[pi_slug project := row]> (tb_projects t)) t)).

Definition project_exists (t : Tables) (slug : string) : bool := bool_decide (is_Some (tb_projects t !! slug)).

Definition upsert_address_project (chain_id address : Z) (slug : string) : Run unit :=
  execute (λ now t,
    _ ← check_texts [slug];
    let key := (i64_wrap chain_id, address) in
    if match tb_address_project t !! key with Some row => mp_manual row | None => false end then Ok (tt, t)
    else
      _ ← foreign_key (project_exists t slug);
      Ok (tt, set_address_project (<[key := mkMapping slug false]> (tb_address_project t)) t)).

Definition upsert_manual_address_project (chain_id address : Z) (slug : string) : Run unit :=
  execute (λ now t,
    _ ← check_texts [slug];
    _ ← foreign_key (project_exists t slug);
    Ok (tt, set_address_project (<[(i64_wrap chain_id, address) := mkMapping slug true]> (tb_address_project t)) t)).

Definition rename_project (slug new_name : string) : Run bool :=
  execute (λ now t,
    _ ← check_texts [slug; new_name];
    Ok match tb_projects t !! slug with
       | Some row =>
           let row := mkProjectRow new_name (pj_category row) (pj_contact_email row) (pj_contact_url row)
                        now (pj_org row) in
           (true, set_projects (<[slug := row]> (tb_projects t)) t)
       | None => (false, t)
       end).

Definition is_manual_override (chain_id address : Z) : Run bool :=
  query (λ now t,
    Ok match tb_address_project t !! (i64_wrap chain_id, address) with
       | Some row => mp_manual row
       | None => false
       end).

Definition list_eth_price_days : Run (list Z) := query (λ now t, Ok (map_items (tb_eth_prices t)).*1).

(** [min] and [max] of the days; of no rows, NULL. *)
Definition least (l : list Z) : option Z :=
  match l with [] => None | x :: l => Some (fold_left Z.min l x) end.
Definition greatest (l : list Z) : option Z :=
  match l with [] => None | x :: l => Some (fold_left Z.max l x) end.
Definition analysis_day_range : Run (option (Z * Z)) :=
  query (λ now t,
    let days := (λ p, day_of (an_block_timestamp p.2)) <$> map_to_list (tb_analysis t) in
    Ok match least days, greatest days with Some l, Some h => Some (l, h) | _, _ => None end).

Definition upsert_eth_price (day : Z) (usd_per_eth : BigDecimal) : Run unit :=
  execute (λ now t,
    price ← ok_or (numeric_20_8 usd_per_eth) "numeric field overflow"%string;
    Ok (tt, set_eth_prices (<[day := price]> (tb_eth_prices t)) t)).

(** The slug a row gets where it is relabelled. *)
Definition new_slug (t : Tables) (key : Z * Z * Z) (a : Analysis) : option string :=
  mapping ← tb_address_project t !! (key.1.1, an_to a);
  if unknown_slug (an_slug a) && negb (unknown_slug (mp_slug mapping)) then Some (mp_slug mapping)
  else None.
Definition relabel_row (t : Tables) (key : Z * Z * Z) (a : Analysis) : Analysis :=
  match new_slug t key a with Some slug => set_slug slug a | None => a end.
Definition relabel_unknowns : Run Z :=
  execute (λ now t,
    let updated := filter (λ p, is_Some (new_slug t p.1 p.2)) (map_to_list (tb_analysis t)) in
    Ok (zlen updated, set_analysis (map_imap (λ k a, Some (relabel_row t k a)) (tb_analysis t)) t)).

(** Whether a contract may be looked up, by its last attempt: an error or a match does not delay it. *)
Definition due (now retry_after_days : Z) (attempt : option Attempt) : bool :=
  match attempt with
  | None => true
  | Some a =>
      bool_decide (at_last_result a ∈ ["matched"; "error"]%string) ||
      (at_last_attempted_at a <? now - retry_after_days * MICROS_PER_DAY)
  end.
(** The analyses of unknown contracts that are due. *)
Definition rankable (t : Tables) (chain_id now retry_after_days : Z) (p : Z * Z * Z * Analysis) : bool :=
  bool_decide (p.1.1.1 = chain_id) && unknown_slug (an_slug p.2) && counted p.2 &&
  due now retry_after_days (tb_label_attempt t !! (chain_id, an_to p.2)).
Definition top_unknown_addresses (chain_id limit retry_after_days : Z) : Run (list (list Z * Z)) :=
  query (λ now t,
    _ ← int_range retry_after_days;
    _ ← limit_ok limit;
    let rows := snd <$> filter (rankable t (i64_wrap chain_id) now retry_after_days)
                          (map_to_list (tb_analysis t)) in
    let totals := (λ '(addr, rows), (be_bytes 20 addr, zsum an_wei_saved rows)) <$>
                    map_to_list (group_by an_to rows) in
    Ok (limit_rows limit (merge_sort (desc snd) totals))).

(** The slug of a match stays where a later attempt has none. *)
Definition upsert_label_attempt (chain_id address : Z) (result : string)
    (contract_name matched_slug : option string) : Run unit :=
  execute (λ now t,
    _ ← check_texts (result :: opt_text contract_name ++ opt_text matched_slug);
    let key := (i64_wrap chain_id, address) in
    let slug := match matched_slug with
                | Some slug => Some slug
                | None => tb_label_attempt t !! key ≫= at_matched_slug
                end in
    Ok (tt, set_label_attempt (<[key := mkAttempt now result contract_name slug]> (tb_label_attempt t)) t)).

Definition unresolved_selectors (chain_id limit : Z) : Run (list (list Z)) :=
  query (λ now t,
    _ ← limit_ok limit;
    let missing (p : Z * Z * Z * Analysis) :=
      bool_decide (p.1.1.1 = i64_wrap chain_id) &&
      bool_decide (tb_selectors t !! an_selector p.2 = None) && counted p.2 in
    let rows := snd <$> filter missing (map_to_list (tb_analysis t)) in
    let counts := (λ '(selector, rows), (selector, zlen rows)) <$> map_to_list (group_by an_selector rows) in
    let rows := limit_rows limit (merge_sort (desc snd) counts) in
    Ok (filter (λ b, length b = 4%nat) rows.*1)).

Definition upsert_function_selector (selector : list Z) (primary_name primary_sig : option string)
    (all_signatures : list string) (source : string) : Run unit :=
  execute (λ now t,
    _ ← check_texts (source :: opt_text primary_name ++ opt_text primary_sig ++ all_signatures);
    let row := mkSelectorRow primary_name primary_sig all_signatures source now in
    Ok (tt, set_selectors (<[selector := row]> (tb_selectors t)) t)).

Definition org_upsert (org_slug org_name : string) : Run unit :=
  execute (λ now t,
    _ ← check_texts [org_slug; org_name];
    let created := match tb_orgs t !! org_slug with Some row => og_created_at row | None => now end in
    Ok (tt, set_orgs (<[org_slug := mkOrg org_name created]> (tb_orgs t)) t)).

Definition org_exists (t : Tables) (slug : string) : bool := bool_decide (is_Some (tb_orgs t !! slug)).
Definition set_org (org : option string) (row : ProjectRow) : ProjectRow :=
  mkProjectRow (pj_name row) (pj_category row) (pj_contact_email row) (pj_contact_url row)
    (pj_last_seen_at row) org.
Definition project_assign_org (slug : string) (org_slug : option string) : Run bool :=
  execute (λ now t,
    _ ← check_texts (slug :: opt_text org_slug);
    match tb_projects t !! slug with
    | Some row =>
        _ ← foreign_key (forallb (org_exists t) (opt_text org_slug));
        Ok (true, set_projects (<[slug := set_org org_slug row]> (tb_projects t)) t)
    | None => Ok (false, t)
    end).

Definition exclusion_key (chain_id address : Z) (selector : option (list Z)) : Z * Z * list Z :=
  (i64_wrap chain_id, address, default [] selector).
Definition blacklist_add (chain_id address : Z) (selector : option (list Z)) (reason created_by : string)
  : Run unit :=
  execute (λ now t,
    _ ← check_texts [reason; created_by];
    let key := exclusion_key chain_id address selector in
    let kept := match tb_exclusion t !! key with Some row => ex_selector row | None => selector end in
    Ok (tt, set_exclusion (<[key := mkExclusion kept reason created_by now]> (tb_exclusion t)) t)).
Definition blacklist_remove (chain_id address : Z) (selector : option (list Z)) : Run bool :=
  execute (λ now t,
    let key := exclusion_key chain_id address selector in
    Ok (bool_decide (is_Some (tb_exclusion t !! key)), set_exclusion (delete key (tb_exclusion t)) t)).

(** ** The views *)

(** The aggregates of the analyses of a group; [price] is that of their day. *)
Definition daily_row (price : option BigDecimal) (rows : list Analysis) : DailyRow :=
  mkDailyRow (zlen rows) (zlen (List.filter (λ a, 0 <? an_gas_saved a) rows)) (zsum an_gas_used rows)
    (zsum an_gas_saved rows) (zsum an_wei_saved rows)
    (zsum (λ a, an_gas_used a * an_gas_price a) rows) (usd_of_wei (zsum an_wei_saved rows) price)
    (mean_share ((λ a, (an_gas_saved a, an_gas_used a)) <$> rows))
    (f64_div (f64_of_u64 (zsum (λ a, if an_is_heuristic a then 1 else 0) rows)) (f64_of_u64 (zlen rows))).

(** The analyses a view counts, with their chains. *)
Definition counted_rows (t : Tables) : list (Z * Analysis) :=
  (λ '(key, a), (key.1.1, a)) <$> filter (λ p, counted p.2) (map_to_list (tb_analysis t)).
Definition project_day (p : Z * Analysis) : Z * string * Z :=
  (p.1, an_slug p.2, day_of (an_block_timestamp p.2)).
Definition function_day (p : Z * Analysis) : Z * Z * list Z * string * Z :=
  (p.1, an_to p.2, an_selector p.2, an_slug p.2, day_of (an_block_timestamp p.2)).

Definition project_daily (t : Tables) : gmap (Z * string * Z) DailyRow :=
  map_imap (λ key rows, Some (daily_row (tb_eth_prices t !! key.2) rows.*2))
    (group_by project_day (counted_rows t)).
Definition function_daily (t : Tables) : gmap (Z * Z * list Z * string * Z) DailyRow :=
  map_imap (λ key rows, Some (daily_row (tb_eth_prices t !! key.2) rows.*2))
    (group_by function_day (counted_rows t)).

Definition refresh_rollups : Run unit :=
  _ ← execute (λ now t, Ok (tt, set_project_daily (project_daily t) t));
  execute (λ now t, Ok (tt, set_function_daily (function_daily t) t)).
End store.
