(* ===== verification/DatabaseSpec.v ===== *)
(** * What the database keeps

    Runs of statements keep the references between tables whole and the numbers in their columns, keep what
    was measured, and keep what a
    person mapped; the views add up to the analyses they count; relabelling and the ranking of unknown
    contracts do what their texts say. *)

From Stdlib Require Import SpecFloat Strings.Ascii DecimalString Sorting.Sorted.
From S2P Require Import Prelude.
From S2P Require Import Effects.
From S2P Require Import Encoding.
From S2P Require Import Types.
From S2P Require Import Analyze.
From S2P Require Import Resolver.
From S2P Require Import Auth.
From S2P Require Import Refresher.
From S2P Require Import Diagnose.
From S2P Require Import FormatSpec.
From S2P Require Import Database.

(** ** Groups and sums *)

Lemma zsum_app {A} (f : A → Z) l k : zsum f (l ++ k) = zsum f l + zsum f k.
Proof. unfold zsum. induction l as [|x l IH]; cbn; [done|]. rewrite IH. lia. Qed.

#[export] Instance zsum_perm {A} (f : A → Z) : Proper ((≡ₚ) ==> (=)) (zsum f).
Proof. unfold zsum. induction 1; cbn; lia. Qed.

Lemma zsum_fmap {A B} (f : B → Z) (g : A → B) l : zsum f (g <$> l) = zsum (λ x, f (g x)) l.
Proof. unfold zsum. induction l as [|x l IH]; cbn; [done|]. by rewrite IH. Qed.

Lemma zsum_ext {A} (f g : A → Z) l : (∀ x, x ∈ l → f x = g x) → zsum f l = zsum g l.
Proof.
  unfold zsum. induction l as [|x l IH]; intros Hfg; cbn; [done|].
  rewrite Hfg, IH; [done| |by left]. intros y Hy. apply Hfg. by right.
Qed.

Lemma zsum_concat {A} (f : A → Z) ls : zsum f (concat ls) = zsum (zsum f) ls.
Proof. induction ls as [|l ls IH]; [done|]. cbn [concat]. rewrite zsum_app, IH. done. Qed.

Lemma zlen_zsum {A} (l : list A) : zlen l = zsum (λ _, 1) l.
Proof. induction l as [|x l IH]; [done|]. rewrite zlen_cons, IH. done. Qed.

Lemma filter_all {A} (l : list A) : filter (λ _, True) l = l.
Proof. induction l as [|x l IH]; [done|]. by rewrite filter_cons_True, IH. Qed.

Lemma filter_iff_in {A} (P Q : A → Prop) `{!∀ x, Decision (P x), !∀ x, Decision (Q x)} (l : list A) :
  (∀ x, x ∈ l → P x ↔ Q x) → filter P l = filter Q l.
Proof.
  induction l as [|x l IH]; intros HPQ; [done|]. rewrite !filter_cons.
  rewrite IH by (intros y Hy; apply HPQ; by right). pose proof (HPQ x ltac:(by left)).
  destruct (decide (P x)), (decide (Q x)); tauto || done.
Qed.
Lemma filter_none {A} (P : A → Prop) `{!∀ x, Decision (P x)} (l : list A) : (∀ x, x ∈ l → ¬ P x) → filter P l = [].
Proof.
  induction l as [|x l IH]; intros HP; [done|]. rewrite filter_cons_False by (apply HP; by left).
  apply IH. intros y Hy. apply HP. by right.
Qed.

Section groups.
Context `{Countable K} {V : Type} (key : V → K).

Lemma group_by_lookup rows k :
  group_by key rows !! k =
    match filter (λ r, key r = k) rows with [] => None | l => Some l end.
Proof.
  induction rows as [|r rows IH]; [done|]. cbn [group_by foldr].
  change (foldr _ ∅ rows) with (group_by key rows).
  destruct (decide (key r = k)) as [<-|Hne].
  - rewrite lookup_insert_eq, filter_cons_True by done. rewrite IH.
    by destruct (filter (λ r0, key r0 = key r) rows).
  - by rewrite lookup_insert_ne, filter_cons_False, IH by done.
Qed.

(** The groups whose key is wanted hold the rows whose key is, once each. *)
Lemma group_by_filter (P : K → Prop) `{!∀ k, Decision (P k)} rows :
  concat (filter (λ p, P p.1) (map_to_list (group_by key rows))).*2 ≡ₚ filter (λ r, P (key r)) rows.
Proof.
  induction rows as [|r rows IH]; [by cbn; rewrite map_to_list_empty|]. cbn [group_by foldr].
  change (foldr _ ∅ rows) with (group_by key rows). set (m := group_by key rows) in *.
  set (k := key r). rewrite <-insert_delete_eq, map_to_list_insert by apply lookup_delete_eq.
  destruct (m !! k) as [l|] eqn:Hl; cbn [default].
  - rewrite <-(insert_delete_id _ _ _ Hl), map_to_list_insert in IH by apply lookup_delete_eq.
    destruct (decide (P k)) as [HP|HP].
    + rewrite filter_cons_True in IH by done. rewrite !filter_cons_True by done. cbn in *.
      by rewrite IH.
    + rewrite filter_cons_False in IH by done. by rewrite !filter_cons_False by done.
  - rewrite delete_id by done. destruct (decide (P k)) as [HP|HP].
    + rewrite !filter_cons_True by done. cbn. by rewrite IH.
    + by rewrite !filter_cons_False by done.
Qed.

Lemma group_by_concat rows : concat (map_to_list (group_by key rows)).*2 ≡ₚ rows.
Proof.
  pose proof (group_by_filter (λ _, True) rows) as Hperm.
  by rewrite !filter_all in Hperm.
Qed.
End groups.

Lemma map_to_list_imap `{Countable K} {A B} (f : K → A → B) (m : gmap K A) :
  map_to_list (map_imap (λ k a, Some (f k a)) m) ≡ₚ (λ p, (p.1, f p.1 p.2)) <$> map_to_list m.
Proof.
  apply NoDup_Permutation.
  - apply NoDup_map_to_list.
  - apply (NoDup_fmap_1 fst). rewrite <-list_fmap_compose. apply NoDup_fst_map_to_list.
  - intros [k b]. rewrite elem_of_map_to_list, map_lookup_imap, list_elem_of_fmap. split.
    + destruct (m !! k) as [a|] eqn:Hk; [|done]. intros [= <-]. exists (k, a).
      by rewrite elem_of_map_to_list.
    + intros ([k' a] & [= -> ->] & Hk%elem_of_map_to_list). cbn in *. by rewrite Hk.
Qed.

(** ** Statements

    What a statement does to the tables, if its checks pass. *)
Lemma checked_Ok {B} (c : Res string unit) (k : Res string B) b :
  (_ ← c; k) = Ok b → c = Ok tt ∧ k = Ok b.
Proof. destruct c as [[]| |]; [done|done|done]. Qed.

Lemma pair_Ok `{Numeric} {A} (a b : A) (t u : Tables) : (Ok (a, t) : Res string _) = Ok (b, u) → a = b ∧ t = u.
Proof. by intros [= -> ->]. Qed.
Lemma foreign_key_Ok b : foreign_key b = Ok tt → b = true.
Proof. unfold foreign_key. by destruct b. Qed.
Ltac inv_stmt :=
  cbv zeta in *;
  repeat match goal with
  | H : mbind _ _ = Ok _ |- _ => apply checked_Ok in H as [? H]
  | H : Ok _ = Ok _ |- _ => apply pair_Ok in H as [? ?]; subst
  | H : foreign_key _ = Ok tt |- _ => apply foreign_key_Ok in H
  end.

(** ** Runs of statements *)

Inductive Request `{Numeric} :=
  | RInsertAnalysis (report : AnalysisReport) (slug : string)
  | RUpsertProject (project : ProjectInfo)
  | RUpsertAddressProject (chain_id address : Z) (slug : string)
  | RUpsertManual (chain_id address : Z) (slug : string)
  | RRenameProject (slug name : string)
  | RUpsertEthPrice (day : Z) (price : BigDecimal)
  | RRelabel
  | RUpsertLabelAttempt (chain_id address : Z) (result : string) (name slug : option string)
  | RUpsertSelector (selector : list Z) (name sig : option string) (all : list string) (source : string)
  | ROrgUpsert (slug name : string)
  | RAssignOrg (slug : string) (org : option string)
  | RBlacklistAdd (chain_id address : Z) (selector : option (list Z)) (reason by_ : string)
  | RBlacklistRemove (chain_id address : Z) (selector : option (list Z))
  | RRefreshRollups.

Section runs.
Context {W : Type} `{Numeric, Connection W}.

Definition perform (req : Request) (s : DbState W) : DbState W :=
  match req with
  | RInsertAnalysis report slug => (insert_analysis report slug s).2
  | RUpsertProject project => (upsert_project project s).2
  | RUpsertAddressProject chain a slug => (upsert_address_project chain a slug s).2
  | RUpsertManual chain a slug => (upsert_manual_address_project chain a slug s).2
  | RRenameProject slug name => (rename_project slug name s).2
  | RUpsertEthPrice day price => (upsert_eth_price day price s).2
  | RRelabel => (relabel_unknowns s).2
  | RUpsertLabelAttempt chain a result name slug => (upsert_label_attempt chain a result name slug s).2
  | RUpsertSelector sel name sig all source => (upsert_function_selector sel name sig all source s).2
  | ROrgUpsert slug name => (org_upsert slug name s).2
  | RAssignOrg slug org => (project_assign_org slug org s).2
  | RBlacklistAdd chain a sel reason by_ => (blacklist_add chain a sel reason by_ s).2
  | RBlacklistRemove chain a sel => (blacklist_remove chain a sel s).2
  | RRefreshRollups => (refresh_rollups s).2
  end.
Definition serve (reqs : list Request) (s : DbState W) : DbState W := fold_left (λ s req, perform req s) reqs s.

(** A statement that fails leaves the tables; one that succeeds leaves what its text says. *)
Lemma execute_run {A} (q : Statement A) (s s' : DbState W) r :
  execute q s = (r, s') →
  (∃ now a, q now (db_tables s) = Ok (a, db_tables s') ∧ r = Ok a ∧ (reach (db_conn s)).1 = inl now) ∨
  (db_tables s' = db_tables s ∧ fails r).
Proof.
  unfold execute. destruct (reach (db_conn s)) as [[now|why] w]; [|intros [= <- <-]; by right].
  destruct (q now (db_tables s)) as [[a t]|e|p] eqn:Hq; intros [= <- <-];
    [left|by right|by right]. exists now, a. done.
Qed.

Lemma execute_relates {A} (R : Tables → Tables → Prop) (q : Statement A) (s : DbState W) :
  (∀ t, R t t) → (∀ now t a t', q now t = Ok (a, t') → R t t') →
  R (db_tables s) (db_tables (execute q s).2).
Proof.
  intros Hrefl Hq. destruct (execute q s) as [r s'] eqn:Hrun. cbn.
  apply execute_run in Hrun as [(now & a & Hrun & _)|[-> _]]; [by eapply Hq|done].
Qed.

Lemma eff_res_bind_relates {A B} (R : Tables → Tables → Prop) (r : Res StoreError A)
    (f : A → Eff StoreError (DbState W) B) (s : DbState W) :
  (∀ t, R t t) → (∀ a, r = Ok a → R (db_tables s) (db_tables (f a s).2)) →
  R (db_tables s) (db_tables ((eff_res r ≫= f) s).2).
Proof. intros Hrefl Hf. unfold mbind, eff_bind, eff_res. destruct r; cbn; auto. Qed.

Lemma bind_relates {A B} (R : Tables → Tables → Prop) (m : Eff StoreError (DbState W) A)
    (f : A → Eff StoreError (DbState W) B) (s : DbState W) :
  (∀ t u v, R t u → R u v → R t v) → R (db_tables s) (db_tables (m s).2) →
  (∀ a s', R (db_tables s') (db_tables (f a s').2)) → R (db_tables s) (db_tables ((m ≫= f) s).2).
Proof.
  intros Htrans Hm Hf. unfold mbind, eff_bind. destruct (m s) as [[a|e|p] s1]; [|done..]. cbn in Hm.
  eapply Htrans, Hf. exact Hm.
Qed.

(** ** References *)

Definition is_i64 (z : Z) : Prop := - 2 ^ 63 <= z < 2 ^ 63.
Definition is_i32 (z : Z) : Prop := - 2 ^ 31 <= z < 2 ^ 31.
(** A number of wei, as [NUMERIC(40,0)] keeps it. *)
Definition is_wei (z : Z) : Prop := 0 <= z < 10 ^ 40.

(** The numbers of the row of [analysis] at [key] are those of their columns: [BIGINT] for the chain, the block
    and the gas, [INTEGER] for the index and the count, [NUMERIC(40,0)] for the wei, [TIMESTAMPTZ] for the
    block's time. *)
Record row_fits (key : Z * Z * Z) (a : Analysis) : Prop := {
  fits_chain_id : is_i64 key.1.1;
  fits_block_number : is_i64 key.1.2;
  fits_tx_index : is_i32 key.2;
  fits_block_timestamp : timestamp_min <= an_block_timestamp a <= chrono_max;
  fits_gas_used : is_i64 (an_gas_used a);
  fits_gas_price : is_wei (an_gas_price a);
  fits_estimate : is_i64 (an_estimate a);
  fits_gas_saved : is_i64 (an_gas_saved a);
  fits_wei_saved : is_wei (an_wei_saved a);
  fits_state_update_count : is_i32 (an_state_update_count a)
}.

(** Every reference is to a row, an exclusion is at its key, and the numbers fit their columns: those of an
    analysis, the chains that key the other tables, and a price, which is what its column stores of some number. *)
Record integrity (t : Tables) : Prop := {
  mapping_has_project k m : tb_address_project t !! k = Some m → is_Some (tb_projects t !! mp_slug m);
  project_has_org s p o : tb_projects t !! s = Some p → pj_org p = Some o → is_Some (tb_orgs t !! o);
  exclusion_at_key c a sel x : tb_exclusion t !! (c, a, sel) = Some x → default [] (ex_selector x) = sel;
  analysis_fits k a : tb_analysis t !! k = Some a → row_fits k a;
  mapping_fits k m : tb_address_project t !! k = Some m → is_i64 k.1;
  attempt_fits k a : tb_label_attempt t !! k = Some a → is_i64 k.1;
  exclusion_fits k x : tb_exclusion t !! k = Some x → is_i64 k.1.1;
  price_fits day p : tb_eth_prices t !! day = Some p → ∃ price, numeric_20_8 price = Some p
}.

Lemma i64_wrap_range z : is_i64 (i64_wrap z).
Proof. unfold is_i64, i64_wrap. pose proof (Z.mod_pos_bound (z + 2 ^ 63) (2 ^ 64)). lia. Qed.

Lemma is_Some_insert `{Countable K} {A} (m : gmap K A) i j (x : A) : is_Some (m !! i) → is_Some (<[j:=x]> m !! i).
Proof. intros Hi. destruct (decide (i = j)) as [->|]; [by rewrite lookup_insert_eq|by rewrite lookup_insert_ne]. Qed.

Lemma i32_wrap_range z : is_i32 (i32_wrap z).
Proof. unfold is_i32, i32_wrap. pose proof (Z.mod_pos_bound (z + 2 ^ 31) (2 ^ 32)). lia. Qed.

Lemma numeric_40_0_wei z : numeric_40_0 z = true → 0 <= z → is_wei z.
Proof. unfold numeric_40_0, is_wei. intros Hz%Z.ltb_lt ?. rewrite Z.abs_eq in Hz; done. Qed.

Lemma bigdecimal_nonneg v x : bigdecimal_from_u128 v = Ok x → 0 <= x.
Proof. unfold bigdecimal_from_u128. destruct (NilZero.uint_of_string _) as [d|]; [|done]. intros [= <-]. apply N2Z.is_nonneg. Qed.

Lemma timestamp_opt_max secs x : timestamp_opt secs = Some x → x <= chrono_max.
Proof. unfold timestamp_opt. destruct (chrono_min <=? secs), (Z.leb_spec secs chrono_max); try done. by intros [= <-]. Qed.

Ltac integral := split; cbn; eauto using is_Some_insert.

Lemma integrity_projects t k row :
  integrity t → (∀ o, pj_org row = Some o → is_Some (tb_orgs t !! o)) →
  integrity (set_projects (<[k:=row]> (tb_projects t)) t).
Proof. intros [] Horg. integral. intros s p o [[<- <-]|[_ Hp]]%lookup_insert_Some; eauto. Qed.

Lemma integrity_mapping t chain a slug manual :
  integrity t → project_exists t slug = true →
  integrity (set_address_project (<[(i64_wrap chain, a):=mkMapping slug manual]> (tb_address_project t)) t).
Proof.
  intros [] Hslug%bool_decide_eq_true. integral; intros key m [[<- <-]|[_ Hk]]%lookup_insert_Some; eauto.
  apply i64_wrap_range.
Qed.

Lemma integrity_analysis t m :
  integrity t → (∀ k a, m !! k = Some a → row_fits k a) → integrity (set_analysis m t).
Proof. intros [] Hfit. integral. Qed.

Lemma integrity_exclusion t m :
  integrity t →
  (∀ c a sel x, m !! (c, a, sel) = Some x → default [] (ex_selector x) = sel ∧ is_i64 c) →
  integrity (set_exclusion m t).
Proof. intros [] Hkey. integral; [by intros c a sel x [? _]%Hkey|by intros [[c a] sel] x [_ ?]%Hkey]. Qed.

Lemma integrity_orgs t k row : integrity t → integrity (set_orgs (<[k:=row]> (tb_orgs t)) t).
Proof. intros []. integral. Qed.

Lemma integrity_attempt t chain a row :
  integrity t →
  integrity (set_label_attempt (<[(i64_wrap chain, a):=row]> (tb_label_attempt t)) t).
Proof. intros []. integral. intros key x [[<- <-]|[_ Hk]]%lookup_insert_Some; [apply i64_wrap_range|eauto]. Qed.

Lemma integrity_price t day price p :
  integrity t → numeric_20_8 price = Some p → integrity (set_eth_prices (<[day:=p]> (tb_eth_prices t)) t).
Proof. intros [] Hp. integral. intros d x [[<- <-]|[_ Hk]]%lookup_insert_Some; eauto. Qed.

Lemma integrity_same t t' :
  tb_analysis t' = tb_analysis t → tb_projects t' = tb_projects t →
  tb_address_project t' = tb_address_project t → tb_exclusion t' = tb_exclusion t →
  tb_orgs t' = tb_orgs t → tb_label_attempt t' = tb_label_attempt t → tb_eth_prices t' = tb_eth_prices t →
  integrity t → integrity t'.
Proof. intros H1' H2' H3' H4' H5' H6' H7' []. split; rewrite ?H1', ?H2', ?H3', ?H4', ?H5', ?H6', ?H7'; done. Qed.

(** The row of a report, as the server takes it. *)
Lemma analysis_row_fits report slug timestamp price wei now :
  timestamp_opt (i64_wrap (ar_block_timestamp report)) = Some timestamp → (timestamp <? timestamp_min) = false →
  bigdecimal_from_u128 (ar_effective_gas_price_wei report) = Ok price →
  bigdecimal_from_u128 (ar_wei_saved report) = Ok wei →
  numeric_40_0 price && numeric_40_0 wei = true →
  row_fits (analysis_key report) (analysis_row report slug timestamp price wei now).
Proof.
  intros Hmax%timestamp_opt_max Hmin Hprice%bigdecimal_nonneg Hwei%bigdecimal_nonneg [Hp Hw]%andb_true_iff.
  split; cbn; auto using i64_wrap_range, i32_wrap_range, numeric_40_0_wei. lia.
Qed.

Lemma orgs_exist t org o :
  forallb (org_exists t) (opt_text org) = true → org = Some o → is_Some (tb_orgs t !! o).
Proof. intros Horg ->. cbn in Horg. rewrite andb_true_r in Horg. by apply bool_decide_eq_true in Horg. Qed.

Lemma relabel_row_fits t k k' a : row_fits k' a → row_fits k' (relabel_row t k a).
Proof. intros []. unfold relabel_row. by destruct (new_slug t k a). Qed.

Lemma perform_integrity req (s : DbState W) :
  integrity (db_tables s) → integrity (db_tables (perform req s)).
Proof.
  pose (R := λ t t', integrity t → integrity t').
  assert (∀ t, R t t) as Hrefl by (intros t Ht; exact Ht). change (R (db_tables s) (db_tables (perform req s))).
  destruct req; cbn [perform].
  - unfold insert_analysis. do 3 (apply (eff_res_bind_relates R); [done|intros ? ?]). apply (execute_relates R); [done|].
    intros now t [] t' Hq. inv_stmt. intros Ht. case_match; [done|]. apply integrity_analysis; [done|].
    intros k x [[<- <-]|[_ Hx]]%lookup_insert_Some; [|by eapply analysis_fits].
    repeat match goal with H : bail_if _ _ = Ok tt |- _ => apply bail_if_Ok in H end.
    eapply analysis_row_fits; [by eapply ok_or_Ok|done|done|done|by apply negb_false_iff].
  - apply (execute_relates R); [done|]. intros now t [] t' Hq. inv_stmt. intros Ht.
    apply integrity_projects; [done|]. cbn. intros o. destruct (tb_projects t !! _) as [p|] eqn:Hp; [|done].
    by eapply project_has_org.
  - apply (execute_relates R); [done|]. intros now t [] t' Hq. inv_stmt. intros Ht.
    case_match; inv_stmt; [done|]. by apply integrity_mapping.
  - apply (execute_relates R); [done|]. intros now t [] t' Hq. inv_stmt. intros Ht. by apply integrity_mapping.
  - apply (execute_relates R); [done|]. intros now t b t' Hq. inv_stmt. intros Ht.
    destruct (tb_projects t !! slug) as [p|] eqn:Hp; inv_stmt; [|done].
    apply integrity_projects; [done|]. cbn. intros o. by eapply project_has_org.
  - apply (execute_relates R); [done|]. intros now t [] t' Hq Ht.
    destruct (numeric_20_8 price) eqn:Hprice; [|done]. cbn in Hq. inv_stmt. by eapply integrity_price.
  - apply (execute_relates R); [done|]. intros now t n t' Hq Ht. inv_stmt. apply integrity_analysis; [done|].
    intros k x. rewrite map_lookup_imap. destruct (tb_analysis t !! k) as [a|] eqn:Ha; [|done].
    intros [= <-]. by eapply relabel_row_fits, analysis_fits.
  - apply (execute_relates R); [done|]. intros now t [] t' Hq Ht. inv_stmt. by apply integrity_attempt.
  - apply (execute_relates R); [done|]. intros now t [] t' Hq Ht. inv_stmt. by apply (integrity_same t).
  - apply (execute_relates R); [done|]. intros now t [] t' Hq Ht. inv_stmt. by apply integrity_orgs.
  - apply (execute_relates R); [done|]. intros now t b t' Hq. inv_stmt. intros Ht.
    destruct (tb_projects t !! slug) as [p|] eqn:Hp; inv_stmt; [|done].
    apply integrity_projects; [done|]. cbn. intros o. by apply orgs_exist.
  - apply (execute_relates R); [done|]. intros now t [] t' Hq. inv_stmt. intros Ht.
    apply integrity_exclusion; [done|]. intros c a' sel x.
    intros [[[= <- <- <-] <-]|[_ Hx]]%lookup_insert_Some; [|by split; [eapply exclusion_at_key|eapply (exclusion_fits t Ht (_, _, _))]].
    split; [|apply i64_wrap_range]. cbn. case_match eqn:Hrow; [by eapply exclusion_at_key|done].
  - apply (execute_relates R); [done|]. intros now t b t' Hq. inv_stmt. intros Ht.
    apply integrity_exclusion; [done|]. intros c a' sel x [_ Hx]%lookup_delete_Some.
    by split; [eapply exclusion_at_key|eapply (exclusion_fits t Ht (_, _, _))].
  - unfold refresh_rollups. apply (bind_relates R); [by intros t u v Htu Huv Ht; apply Huv, Htu|..];
      [|intros [] s']; (apply (execute_relates R); [done|]); intros now t [] t' Hq Ht; inv_stmt; by apply (integrity_same t).
Qed.

(** ** What is never lost *)

(** An analysis stays as it was measured, and its project is at most named once; a mapping made by a
    person stays so, and changes only where [touched]; no project, organization or price goes, and no
    slug an address was matched to. *)
Record kept (touched : Z * Z → Prop) (t t' : Tables) : Prop := {
  analysis_kept k a : tb_analysis t !! k = Some a →
    ∃ slug, tb_analysis t' !! k = Some (set_slug slug a) ∧
      (slug = an_slug a ∨ unknown_slug (an_slug a) = true ∧ unknown_slug slug = false);
  mapping_kept k m : tb_address_project t !! k = Some m →
    ∃ m', tb_address_project t' !! k = Some m' ∧
      (mp_manual m = true → mp_manual m' = true ∧ (touched k ∨ mp_slug m' = mp_slug m));
  attempt_kept k a : tb_label_attempt t !! k = Some a →
    ∃ a', tb_label_attempt t' !! k = Some a' ∧ (is_Some (at_matched_slug a) → is_Some (at_matched_slug a'));
  project_kept s : is_Some (tb_projects t !! s) → is_Some (tb_projects t' !! s);
  org_kept o : is_Some (tb_orgs t !! o) → is_Some (tb_orgs t' !! o);
  price_kept day : is_Some (tb_eth_prices t !! day) → is_Some (tb_eth_prices t' !! day)
}.

Lemma set_slug_same a : set_slug (an_slug a) a = a.
Proof. by destruct a. Qed.

Lemma analysis_same (m : gmap (Z * Z * Z) Analysis) k a : m !! k = Some a →
  ∃ slug, m !! k = Some (set_slug slug a) ∧
    (slug = an_slug a ∨ unknown_slug (an_slug a) = true ∧ unknown_slug slug = false).
Proof. intros Ha. exists (an_slug a). rewrite set_slug_same. eauto. Qed.
Lemma mapping_same (touched : Z * Z → Prop) (ms : gmap (Z * Z) Mapping) k m : ms !! k = Some m →
  ∃ m', ms !! k = Some m' ∧
    (mp_manual m = true → mp_manual m' = true ∧ (touched k ∨ mp_slug m' = mp_slug m)).
Proof. intros Hm. exists m. eauto. Qed.
Lemma attempt_same (ms : gmap (Z * Z) Attempt) k a : ms !! k = Some a →
  ∃ a', ms !! k = Some a' ∧ (is_Some (at_matched_slug a) → is_Some (at_matched_slug a')).
Proof. eauto. Qed.

Ltac keep := split; cbn; eauto using analysis_same, mapping_same, attempt_same, is_Some_insert.

Lemma kept_refl touched t : kept touched t t.
Proof. keep. Qed.

Lemma kept_trans touched t u v : kept touched t u → kept touched u v → kept touched t v.
Proof.
  intros [Ha1 Hm1 Ht1 Hp1 Ho1 Hd1] [Ha2 Hm2 Ht2 Hp2 Ho2 Hd2]. split; eauto.
  - intros k a (slug & Hu & Hs)%Ha1. apply Ha2 in Hu as (slug' & Hv & Hs').
    change (an_slug (set_slug slug a)) with slug in Hs'.
    exists slug'. split; [exact Hv|]. destruct Hs as [->|[Hun Hkn]]; [exact Hs'|].
    destruct Hs' as [->|[Hun' _]]; [by right|congruence].
  - intros k m (m1 & Hu & Hs)%Hm1. apply Hm2 in Hu as (m2 & Hv & Hs'). exists m2. split; [done|].
    intros [Hman Hslug]%Hs. apply Hs' in Hman as [Hman Hslug']. split; [done|].
    destruct Hslug as [|Hslug]; [by left|]. destruct Hslug' as [|Hslug']; [by left|right; congruence].
  - intros k a (a1 & Hu & Hs)%Ht1. apply Ht2 in Hu as (a2 & Hv & Hs'). eauto.
Qed.

Lemma kept_weaken (P Q : Z * Z → Prop) t t' : (∀ k, P k → Q k) → kept P t t' → kept Q t t'.
Proof.
  intros HPQ [Ha Hm Ht Hp Ho Hd]. split; eauto. intros k m (m' & Hk & Hs)%Hm. exists m'.
  split; [done|]. intros [Hman Hslug]%Hs. split; [done|]. destruct Hslug; auto.
Qed.

(** The mapping a request sets by hand. *)
Definition touches (req : Request) (k : Z * Z) : Prop :=
  match req with RUpsertManual chain a _ => k = (i64_wrap chain, a) | _ => False end.
#[local] Arguments touches : simpl never.

Lemma perform_kept req (s : DbState W) :
  kept (touches req) (db_tables s) (db_tables (perform req s)).
Proof.
  pose (R := kept (touches req)). change (R (db_tables s) (db_tables (perform req s))).
  pose proof (kept_refl (touches req)) as Hrefl. change (∀ t, R t t) in Hrefl.
  destruct req; cbn [perform].
  - unfold insert_analysis. do 3 (apply (eff_res_bind_relates R); [done|intros ? _]).
    apply (execute_relates R); [done|]. intros now t [] t' Hq. inv_stmt.
    case_match eqn:Hnew; [done|]. keep. intros k x Hx. apply analysis_same.
    rewrite lookup_insert_ne; [done|]. congruence.
  - apply (execute_relates R); [done|]. intros now t [] t' Hq. inv_stmt. keep.
  - apply (execute_relates R); [done|]. intros now t [] t' Hq. inv_stmt.
    destruct (tb_address_project t !! (i64_wrap chain_id, address)) as [row|] eqn:Hrow;
      [destruct (mp_manual row) eqn:Hman|]; inv_stmt; [done|..]; keep;
      intros k m Hm; (destruct (decide (k = (i64_wrap chain_id, address))) as [->|Hk];
        [rewrite lookup_insert_eq|rewrite lookup_insert_ne by done; by apply mapping_same]);
      [|congruence]. eexists. split; [done|]. congruence.
  - apply (execute_relates R); [done|]. intros now t [] t' Hq. inv_stmt. keep. intros k m Hm.
    destruct (decide (k = (i64_wrap chain_id, address))) as [->|Hk];
      [rewrite lookup_insert_eq|rewrite lookup_insert_ne by done; by apply mapping_same].
    eexists. split; [done|]. intros _. split; [done|by left].
  - apply (execute_relates R); [done|]. intros now t b t' Hq. inv_stmt.
    destruct (tb_projects t !! slug) as [p|] eqn:Hp; inv_stmt; [keep|done].
  - apply (execute_relates R); [done|]. intros now t [] t' Hq.
    destruct (numeric_20_8 price); [|done]. cbn in Hq. inv_stmt. keep.
  - apply (execute_relates R); [done|]. intros now t n t' Hq. inv_stmt. keep. intros k a Ha.
    rewrite map_lookup_imap, Ha. cbn. unfold relabel_row.
    destruct (new_slug t k a) as [slug|] eqn:Hslug.
    + exists slug. split; [done|right]. unfold new_slug in Hslug.
      destruct (tb_address_project t !! _) as [m|]; [|done]. cbn in Hslug.
      destruct (unknown_slug (an_slug a)), (unknown_slug (mp_slug m)) eqn:Hm; cbn in Hslug; try done.
      by injection Hslug as <-.
    + exists (an_slug a). rewrite set_slug_same. auto.
  - apply (execute_relates R); [done|]. intros now t [] t' Hq. inv_stmt. keep. intros k a Ha.
    destruct (decide (k = (i64_wrap chain_id, address))) as [->|Hk];
      [rewrite lookup_insert_eq|rewrite lookup_insert_ne by done; by apply attempt_same].
    eexists. split; [done|]. cbn. rewrite Ha. destruct slug; [by intros _|done].
  - apply (execute_relates R); [done|]. intros now t [] t' Hq. inv_stmt. keep.
  - apply (execute_relates R); [done|]. intros now t [] t' Hq. inv_stmt. keep.
  - apply (execute_relates R); [done|]. intros now t b t' Hq. inv_stmt.
    destruct (tb_projects t !! slug) as [p|] eqn:Hp; inv_stmt; [keep|done].
  - apply (execute_relates R); [done|]. intros now t [] t' Hq. inv_stmt. keep.
  - apply (execute_relates R); [done|]. intros now t b t' Hq. inv_stmt. keep.
  - unfold refresh_rollups. apply (bind_relates R); [apply kept_trans|..];
      [|intros [] s']; (apply (execute_relates R); [done|]); intros now t [] t' Hq; inv_stmt; keep.
Qed.

Lemma serve_integrity reqs (s : DbState W) : integrity (db_tables s) → integrity (db_tables (serve reqs s)).
Proof.
  unfold serve. induction reqs as [|req reqs IH] using rev_ind; [done|].
  intros Hs. rewrite fold_left_app. by apply perform_integrity, IH.
Qed.

(** C33: in every state a run of the store's statements reaches from an empty database, each mapping is to a
    project that exists and each project's organization exists, an exclusion is stored at its key, and the
    numbers of every row fit the columns they are in: of an analysis its chain, block, index, gas, wei, count
    and time of the block, of a mapping, an attempt and an exclusion the chain, and a price is what its column
    stores of a number; whatever the connection does. *)
Theorem store_integrity reqs w : integrity (db_tables (serve reqs (mkDb w empty_tables))).
Proof. apply serve_integrity. by split. Qed.

(** a run of the store's statements never changes a measured analysis but to name its unknown project, and
    that once; a mapping set by a person stays so, with its project unless a person set that mapping again
    in the run; and no project, organization, price or matched slug is lost. *)
Theorem store_history reqs (s : DbState W) :
  kept (λ k, ∃ req, req ∈ reqs ∧ touches req k) (db_tables s) (db_tables (serve reqs s)).
Proof.
  unfold serve. induction reqs as [|req reqs IH] using rev_ind; [apply kept_refl|].
  rewrite fold_left_app. eapply kept_trans; [eapply kept_weaken, IH|eapply kept_weaken, perform_kept].
  - intros k (req' & Hin & Hk). exists req'. split; [|done]. apply elem_of_app. by left.
  - intros k Hk. exists req. split; [|done]. apply elem_of_app. right. by left.
Qed.

(** ** The views *)

(** What a view sums, and of what. *)
Definition measures : list ((DailyRow → Z) * (Analysis → Z)) :=
  [(dy_tx_count, λ _, 1); (dy_gas_used_total, an_gas_used); (dy_gas_saved_total, an_gas_saved);
   (dy_wei_saved_total, an_wei_saved); (dy_wei_spent_total, λ a, an_gas_used a * an_gas_price a)].

Lemma measure_daily_row f g price rows :
  (f, g) ∈ measures → f (daily_row price rows) = zsum g rows.
Proof.
  unfold measures. rewrite !elem_of_cons. intros [[= -> ->]|[[= -> ->]|[[= -> ->]|[[= -> ->]|[[= -> ->]|[]%elem_of_nil]]]]];
    cbn; [apply zlen_zsum|done..].
Qed.

Lemma filter_fmap_keys {K A B} (P : K → Prop) `{!∀ k, Decision (P k)} (F : K * A → B) (l : list (K * A)) :
  filter (λ p : K * B, P p.1) ((λ p, (p.1, F p)) <$> l) = (λ p, (p.1, F p)) <$> filter (λ p, P p.1) l.
Proof.
  induction l as [|p l IH]; [done|]. rewrite fmap_cons, !filter_cons. cbn [fst].
  destruct (decide (P p.1)) as [HP|HP]; [by rewrite fmap_cons, IH|done].
Qed.

(** The rows of a view whose keys are wanted sum up the analyses whose keys are. *)
Lemma view_sum `{Countable K} (key : Z * Analysis → K) (price : K → option BigDecimal)
    (P : K → Prop) `{!∀ k, Decision (P k)} rows f g :
  (f, g) ∈ measures →
  zsum (λ p, f p.2) (filter (λ p, P p.1) (map_to_list
    (map_imap (λ k group, Some (daily_row (price k) group.*2)) (group_by key rows)))) =
  zsum (λ r, g r.2) (filter (λ r, P (key r)) rows).
Proof.
  intros Hfg. rewrite map_to_list_imap.
  rewrite (filter_fmap_keys P (λ p, daily_row (price p.1) p.2.*2)), zsum_fmap. cbn.
  rewrite <-(group_by_filter key P rows), zsum_concat, zsum_fmap. apply zsum_ext.
  intros p _. by rewrite (measure_daily_row f g), zsum_fmap by done.
Qed.

Lemma refresh_rollups_run (s s' : DbState W) :
  refresh_rollups s = (Ok tt, s') →
  db_tables s' = set_function_daily (function_daily (db_tables s))
    (set_project_daily (project_daily (db_tables s)) (db_tables s)).
Proof.
  intros Hrun. apply eff_bind_Ok in Hrun as ([] & s1 & H1' & H2').
  apply execute_run in H1' as [(now & [] & H1' & _)|[_ []]].
  apply execute_run in H2' as [(now' & [] & H2' & _)|[_ []]].
  apply pair_Ok in H1' as [_ H1']. apply pair_Ok in H2' as [_ H2']. by rewrite <-H2', <-H1'.
Qed.

(** The project's day a function's day is part of. *)
Definition project_of (key : Z * Z * list Z * string * Z) : Z * string * Z :=
  let '(chain, _, _, slug, day) := key in (chain, slug, day).

Lemma project_of_function p : project_of (function_day p) = project_day p.
Proof. done. Qed.

(** C34: a refresh of the views leaves the analyses as they are, and for each of the transactions, gas used,
    gas saved, wei saved and wei spent: a project's day is the sum of its functions' days, and the days of a
    chain's projects add up to the chain's analyses that save gas and left no opcode out, each counted once.
    A project has a day exactly if it has such an analysis on it. *)
Theorem refresh_rollups_totals (s s' : DbState W) f g :
  refresh_rollups s = (Ok tt, s') → (f, g) ∈ measures →
  let t := db_tables s' in
  tb_analysis t = tb_analysis (db_tables s) ∧
  (∀ key row, tb_project_daily t !! key = Some row →
    f row = zsum (λ p, f p.2) (filter (λ p, project_of p.1 = key) (map_to_list (tb_function_daily t)))) ∧
  (∀ chain,
    zsum (λ p, f p.2) (filter (λ p, p.1.1.1 = chain) (map_to_list (tb_project_daily t))) =
    zsum (λ p, if counted p.2 && bool_decide (p.1.1.1 = chain) then g p.2 else 0)
      (map_to_list (tb_analysis t))) ∧
  (∀ key, is_Some (tb_project_daily t !! key) ↔
    ∃ k a, tb_analysis t !! k = Some a ∧ counted a = true ∧ key = project_day (k.1.1, a)).
Proof.
  intros Hrun%refresh_rollups_run Hfg t. subst t. rewrite Hrun. cbn [tb_analysis tb_project_daily
    tb_function_daily set_function_daily set_project_daily].
  set (t := db_tables s). clearbody t. clear Hrun s s'. split; [done|]. split; [|split].
  - intros key row Hrow. etrans; [|symmetry; exact (view_sum function_day _ (λ k, project_of k = key) (counted_rows t) f g Hfg)].
    unfold project_daily in Hrow. rewrite map_lookup_imap, group_by_lookup in Hrow.
    assert (row = daily_row (tb_eth_prices t !! key.2) (filter (λ r, project_day r = key) (counted_rows t)).*2) as ->.
    { destruct (filter _ (counted_rows t)); cbn in *; congruence. }
    by rewrite (measure_daily_row f g), zsum_fmap by done.
  - intros chain. etrans; [exact (view_sum project_day _ (λ k, k.1.1 = chain) (counted_rows t) f g Hfg)|].
    unfold counted_rows.
    induction (map_to_list (tb_analysis t)) as [|[k a] l IH]; [done|]. cbn [zsum foldr].
    change (foldr _ 0 l) with (zsum (λ p : Z * Z * Z * Analysis, if counted p.2 && bool_decide (p.1.1.1 = chain) then g p.2 else 0) l).
    rewrite <-IH. clear IH. cbn [fst snd]. destruct (counted a) eqn:Hc; cbn [andb].
    + rewrite filter_cons_True by (change (Is_true (counted a)); by rewrite Hc). cbn [fmap list_fmap]. case_bool_decide as Hk.
      * by rewrite filter_cons_True.
      * by rewrite filter_cons_False, Z.add_0_l.
    + rewrite filter_cons_False by (change (¬ Is_true (counted a)); rewrite Hc; intros []). by rewrite Z.add_0_l.
  - intros key. unfold project_daily. rewrite map_lookup_imap, group_by_lookup.
    assert ((∃ k a, tb_analysis t !! k = Some a ∧ counted a = true ∧ key = project_day (k.1.1, a)) ↔
      ∃ r, r ∈ filter (λ r, project_day r = key) (counted_rows t)) as ->.
    { unfold counted_rows. split.
      - intros (k & a & Ha & Hc & ->). exists (k.1.1, a). rewrite list_elem_of_filter, list_elem_of_fmap.
        split; [done|]. exists (k, a). rewrite list_elem_of_filter, elem_of_map_to_list. cbn. by rewrite Hc.
      - intros (r & [Hr Hin]%list_elem_of_filter). apply list_elem_of_fmap in Hin as ([k a] & -> & Hin).
        apply list_elem_of_filter in Hin as [Hc Hin%elem_of_map_to_list]. cbn in Hc.
        exists k, a. split; [done|]. split; [by destruct (counted a)|done]. }
    destruct (filter _ (counted_rows t)) as [|r rows].
    + cbn. split; [by intros []|by intros (r & []%elem_of_nil)].
    + split; [|by eexists]. intros _. exists r. by left.
Qed.

(** ** Relabelling *)

Lemma new_slug_Some t k a slug : new_slug t k a = Some slug →
  unknown_slug (an_slug a) = true ∧ unknown_slug slug = false ∧
  ∃ m, tb_address_project t !! (k.1.1, an_to a) = Some m ∧ mp_slug m = slug.
Proof.
  unfold new_slug. destruct (tb_address_project t !! _) as [m|]; [|done]. cbn [mbind option_bind].
  destruct (unknown_slug (an_slug a)), (unknown_slug (mp_slug m)) eqn:Hm; cbn; try done.
  intros [= <-]. eauto.
Qed.

Lemma relabel_row_changed t k a : relabel_row t k a ≠ a ↔ is_Some (new_slug t k a).
Proof.
  unfold relabel_row. destruct (new_slug t k a) as [slug|] eqn:Hslug; [|by split; [|intros []]].
  apply new_slug_Some in Hslug as (Hun & Hkn & _). split; [by eexists|]. intros _ Heq.
  assert (an_slug (set_slug slug a) = an_slug a) as Hs by congruence. change (slug = an_slug a) in Hs.
  congruence.
Qed.

Lemma relabel_row_done t k a : new_slug t k (relabel_row t k a) = None.
Proof.
  unfold relabel_row. destruct (new_slug t k a) as [slug|] eqn:Hslug; [|done].
  destruct (new_slug t k (set_slug slug a)) as [slug'|] eqn:Hagain; [|done].
  apply new_slug_Some in Hslug as (_ & Hkn & _). apply new_slug_Some in Hagain as (Hun & _).
  change (unknown_slug slug = true) in Hun. congruence.
Qed.

Lemma relabel_run (s s' : DbState W) n :
  relabel_unknowns s = (Ok n, s') →
  let t := db_tables s in
  db_tables s' = set_analysis (map_imap (λ k a, Some (relabel_row t k a)) (tb_analysis t)) t ∧
  n = zlen (filter (λ p, is_Some (new_slug t p.1 p.2)) (map_to_list (tb_analysis t))).
Proof.
  intros Hrun. apply execute_run in Hrun as [(now & a & Hrun & [= <-] & _)|[_ []]].
  cbv zeta in Hrun. apply pair_Ok in Hrun as [Hn <-]. split; [done|]. symmetry. exact Hn.
Qed.

(** C36: relabelling gives each analysis of an unknown project, whose contract is mapped to a known one, that
    project, and changes nothing else; it answers how many analyses changed; none is left to relabel, so
    that relabelling again changes nothing. *)
Theorem relabel_unknowns_spec (s s' : DbState W) n :
  relabel_unknowns s = (Ok n, s') →
  let t := db_tables s in
  let t' := db_tables s' in
  t' = set_analysis (tb_analysis t') t ∧
  (∀ key a, tb_analysis t' !! key = Some a ↔
    ∃ a0, tb_analysis t !! key = Some a0 ∧
      match tb_address_project t !! (key.1.1, an_to a0) with
      | Some m =>
          if unknown_slug (an_slug a0) && negb (unknown_slug (mp_slug m)) then a = set_slug (mp_slug m) a0
          else a = a0
      | None => a = a0
      end) ∧
  n = zlen (filter (λ p, tb_analysis t' !! p.1 ≠ Some p.2) (map_to_list (tb_analysis t))) ∧
  (∀ n2 s2, relabel_unknowns s' = (Ok n2, s2) → n2 = 0 ∧ db_tables s2 = t').
Proof.
  intros Hrun%relabel_run t t'. fold t in Hrun. fold t' in Hrun. destruct Hrun as [Ht' Hn].
  assert (∀ k, tb_analysis t' !! k = relabel_row t k <$> tb_analysis t !! k) as Hlook.
  { intros k. rewrite Ht'. cbn. rewrite map_lookup_imap. by destruct (tb_analysis t !! k). }
  split; [by rewrite Ht'|]. split; [|split].
  - intros key a. rewrite Hlook, fmap_Some.
    enough (∀ a0, a = relabel_row t key a0 ↔ match tb_address_project t !! (key.1.1, an_to a0) with
      | Some m => if unknown_slug (an_slug a0) && negb (unknown_slug (mp_slug m))
                  then a = set_slug (mp_slug m) a0 else a = a0
      | None => a = a0 end) as Heq by (split; intros (a0 & Ha & H'); exists a0; (split; [done|]); by apply Heq).
    intros a0. unfold relabel_row, new_slug. destruct (tb_address_project t !! _) as [m|]; [|done].
    cbn [mbind option_bind]. by destruct (_ && _).
  - rewrite Hn. f_equal. apply filter_iff_in. intros [k a] Ha%elem_of_map_to_list. cbn.
    rewrite Hlook, Ha. cbn. rewrite <-relabel_row_changed. split; congruence.
  - intros n2 s2 [Ht2 Hn2]%relabel_run. fold t' in Ht2, Hn2.
    assert (∀ k a, tb_analysis t' !! k = Some a → new_slug t' k a = None) as Hdone.
    { intros k a. rewrite Hlook, fmap_Some. intros (a0 & _ & ->). rewrite Ht'. exact (relabel_row_done t k a0). }
    split.
    + rewrite Hn2. rewrite filter_none; [done|]. intros [k a] Ha%elem_of_map_to_list.
      cbn. rewrite (Hdone _ _ Ha). by intros [].
    + rewrite Ht2. assert (map_imap (λ k a, Some (relabel_row t' k a)) (tb_analysis t') = tb_analysis t') as ->.
      { apply map_eq. intros k. rewrite map_lookup_imap. destruct (tb_analysis t' !! k) as [a|] eqn:Ha; [|done].
        cbn. unfold relabel_row. by rewrite (Hdone _ _ Ha). }
      by destruct t'.
Qed.

(** ** Reports *)

Lemma i64_wrap_id z : 0 <= z < 2 ^ 63 → i64_wrap z = z.
Proof. intros Hz. unfold i64_wrap. rewrite Z.mod_small; lia. Qed.
Lemma i32_wrap_id z : 0 <= z < 2 ^ 31 → i32_wrap z = z.
Proof. intros Hz. unfold i32_wrap. rewrite Z.mod_small; lia. Qed.

Lemma bigdecimal_from_u128_id v : 0 <= v → bigdecimal_from_u128 v = Ok v.
Proof.
  intros Hv. unfold bigdecimal_from_u128. destruct (nonneg_text v Hv) as (d & Hnil & -> & Hd).
  rewrite NilZero.usu by done. by rewrite Hd.
Qed.

(** A report whose numbers are within their signed columns. *)
Definition report_fits (r : AnalysisReport) : Prop :=
  Forall (λ z, 0 <= z < 2 ^ 63) [ar_chain_id r; ar_block_number r; ar_gas_used r;
    ar_gaskiller_gas_estimate r; ar_gas_saved r] ∧
  Forall (λ z, 0 <= z < 2 ^ 31) [ar_tx_index r; ar_state_update_count r] ∧
  0 <= ar_block_timestamp r <= chrono_max ∧ 0 <= ar_effective_gas_price_wei r ∧ 0 <= ar_wei_saved r.

(** What a row says. *)
Definition report_of (key : Z * Z * Z) (a : Analysis) : AnalysisReport :=
  mkAnalysisReport key.1.1 key.1.2 (an_block_timestamp a) (an_tx_hash a) key.2 (an_from a) (an_to a)
    (an_selector a) (an_gas_used a) (an_gas_price a) (an_estimate a) (an_gas_saved a) (an_wei_saved a)
    (an_is_heuristic a) (an_failure_reason a) (an_state_update_count a) (an_skipped_opcodes a)
    (an_reentered a).

Lemma analysis_row_report r slug now :
  report_fits r →
  report_of (analysis_key r)
    (analysis_row r slug (ar_block_timestamp r) (ar_effective_gas_price_wei r) (ar_wei_saved r) now) = r.
Proof.
  intros (H64 & H32 & _). decompose_Forall_hyps.
  unfold report_of, analysis_key, analysis_row. cbn. rewrite !i64_wrap_id, !i32_wrap_id by done. by destruct r.
Qed.

Lemma insert_analysis_run (s s' : DbState W) r slug report :
  report_fits report → insert_analysis report slug s = (r, s') →
  (r = Ok tt ∧ ∃ now, db_tables s' =
    match tb_analysis (db_tables s) !! analysis_key report with
    | Some _ => db_tables s
    | None => set_analysis (<[analysis_key report := analysis_row report slug (ar_block_timestamp report)
                (ar_effective_gas_price_wei report) (ar_wei_saved report) now]> (tb_analysis (db_tables s)))
                (db_tables s)
    end) ∨ (fails r ∧ db_tables s' = db_tables s).
Proof.
  intros (H64 & _ & Hts & Hprice & Hwei) Hrun. unfold insert_analysis in Hrun.
  rewrite (i64_wrap_id (ar_block_timestamp report)) in Hrun by (unfold chrono_max in Hts; lia).
  assert (timestamp_opt (ar_block_timestamp report) = Some (ar_block_timestamp report)) as Hopt.
  { unfold timestamp_opt, chrono_min. destruct (_ && _) eqn:Hb; [done|lia]. }
  rewrite Hopt, !bigdecimal_from_u128_id in Hrun by done.
  unfold mbind at 1 2 3, eff_bind, eff_res in Hrun. cbn [ok_or] in Hrun.
  apply execute_run in Hrun as [(now & [] & Hq & -> & _)|[-> Hf]]; [|by right].
  inv_stmt. left. split; [done|]. exists now. by case_match.
Qed.

(** C35: storing a report succeeds or changes nothing. Once it succeeded, the row at the report's chain, block
    and index is, if there was none, the report itself, number by number, under the project given; if
    there was one, what it was: the first report of a transaction stays. No other row changes, and storing
    the report again changes nothing. *)
Theorem insert_analysis_roundtrip (s s' : DbState W) report slug r :
  report_fits report → insert_analysis report slug s = (r, s') →
  (fails r ∧ db_tables s' = db_tables s) ∨
  (∃ a, tb_analysis (db_tables s') !! analysis_key report = Some a ∧
    match tb_analysis (db_tables s) !! analysis_key report with
    | Some old => a = old
    | None => report_of (analysis_key report) a = report ∧ an_slug a = slug
    end ∧
    db_tables s' = set_analysis (<[analysis_key report := a]> (tb_analysis (db_tables s))) (db_tables s) ∧
    ∀ report2 slug2 r2 s2, report_fits report2 → analysis_key report2 = analysis_key report →
      insert_analysis report2 slug2 s' = (r2, s2) → db_tables s2 = db_tables s').
Proof.
  intros Hfits Hrun. apply insert_analysis_run in Hrun as [[-> (now & Ht)]|Hrun]; [right|by left|done].
  assert (∀ a, tb_analysis (db_tables s') !! analysis_key report = Some a →
    ∀ report2 slug2 r2 s2, report_fits report2 → analysis_key report2 = analysis_key report →
      insert_analysis report2 slug2 s' = (r2, s2) → db_tables s2 = db_tables s') as Hagain.
  { intros a Ha report2 slug2 r2 s2 Hfits2 Hkey Hrun2.
    apply insert_analysis_run in Hrun2 as [[_ (now2 & ->)]|[_ ->]]; [|done..]. by rewrite Hkey, Ha. }
  destruct (tb_analysis (db_tables s) !! analysis_key report) as [old|] eqn:Hold.
  - assert (tb_analysis (db_tables s') !! analysis_key report = Some old) as Ha by by rewrite Ht.
    exists old. split; [done|]. split; [done|]. split; [|by eapply Hagain].
    rewrite Ht, insert_id by done. by destruct (db_tables s).
  - eexists. assert (∀ a m (t : Tables), tb_analysis (set_analysis (<[analysis_key report := a]> m) t) !! analysis_key report = Some a) as Hlook
      by (intros; cbn; apply lookup_insert_eq).
    split; [rewrite Ht; apply Hlook|]. split; [by split; [apply analysis_row_report|]|]. split; [done|].
    eapply Hagain. rewrite Ht. apply Hlook.
Qed.

(** ** The ranking of unknown contracts *)

#[local] Instance desc_total {A} (f : A → Z) : Total (desc f).
Proof. intros x y. unfold desc. lia. Qed.
#[local] Instance desc_trans {A} (f : A → Z) : Transitive (desc f).
Proof. intros x y z. unfold desc. lia. Qed.

(** The first [n] of a list sorted by a relation: what is left out is no greater than any of them. *)
Lemma take_sorted {A} (R : A → A → Prop) n l x :
  StronglySorted R l → x ∈ l → x ∈ take n l ∨ (length (take n l) = n ∧ Forall (λ y, R y x) (take n l)).
Proof.
  intros Hs Hx. rewrite <-(take_drop n l) in Hs, Hx. apply elem_of_app in Hx as [Hx|Hx]; [by left|right].
  split.
  - destruct (Nat.le_gt_cases n (length l)); [by rewrite length_take_le|].
    rewrite drop_ge in Hx by lia. by apply elem_of_nil in Hx.
  - induction (take n l) as [|y k IH]; [done|]. cbn in Hs. apply StronglySorted_inv in Hs as [Hs Hall].
    constructor; [|by apply IH]. rewrite Forall_forall in Hall. apply Hall, elem_of_app. by right.
Qed.

Lemma StronglySorted_take {A} (R : A → A → Prop) n l : StronglySorted R l → StronglySorted R (take n l).
Proof.
  intros Hs. revert n. induction Hs as [|x l Hs IH Hall]; intros [|n]; cbn; constructor; [done|].
  by apply Forall_take.
Qed.

(** The analyses that rank [a] at [now]. *)
Definition waiting (t : Tables) (chain now retry a : Z) : list Analysis :=
  filter (λ r, an_to r = a) (snd <$> filter (rankable t chain now retry) (map_to_list (tb_analysis t))).

Lemma waiting_due t chain now retry a :
  waiting t chain now retry a ≠ [] → due now retry (tb_label_attempt t !! (chain, a)) = true.
Proof.
  intros Hw. destruct (waiting t chain now retry a) as [|r l] eqn:Hl; [done|].
  assert (r ∈ waiting t chain now retry a) as Hr by (rewrite Hl; by left).
  unfold waiting in Hr. apply list_elem_of_filter in Hr as [<- Hr].
  apply list_elem_of_fmap in Hr as (p & -> & Hp). apply list_elem_of_filter in Hp as [Hp _].
  unfold rankable in Hp. by rewrite !andb_True in Hp; destruct Hp as [_ Hp%Is_true_true].
Qed.

Lemma totals_elem rows (x : list Z * Z) :
  x ∈ (λ '(addr, rows), (be_bytes 20 addr, zsum an_wei_saved rows)) <$> map_to_list (group_by an_to rows) ↔
  ∃ a, filter (λ r, an_to r = a) rows ≠ [] ∧
    x = (be_bytes 20 a, zsum an_wei_saved (filter (λ r, an_to r = a) rows)).
Proof.
  rewrite list_elem_of_fmap. split.
  - intros ([a l] & -> & Hal%elem_of_map_to_list). rewrite group_by_lookup in Hal. exists a.
    destruct (filter _ rows); [done|]. injection Hal as <-. done.
  - intros (a & Hne & ->). exists (a, filter (λ r, an_to r = a) rows). split; [done|].
    apply elem_of_map_to_list. rewrite group_by_lookup. by destruct (filter _ rows).
Qed.

(** C37: the producer's ranking has at most as many contracts as it asks for, the highest wei saved first, each
    with the sum over its analyses that save gas, are complete and still of an unknown project; a contract
    with such analyses that is left out saves no more than any of those given. A contract whose last
    attempt found it unverified or without a match is left out until the days of its retry are over, and
    the database does not change. *)
Theorem top_unknown_addresses_ranks (s s' : DbState W) chain_id limit retry rows :
  top_unknown_addresses chain_id limit retry s = (Ok rows, s') →
  let t := db_tables s in
  let chain := i64_wrap chain_id in
  ∃ now, (reach (db_conn s)).1 = inl now ∧ db_tables s' = t ∧
    let waits := waiting t chain now retry in
    zlen rows <= limit ∧ StronglySorted (desc snd) rows ∧
    Forall (λ row, ∃ a, waits a ≠ [] ∧ row = (be_bytes 20 a, zsum an_wei_saved (waits a))) rows ∧
    (∀ a, waits a ≠ [] → (be_bytes 20 a, zsum an_wei_saved (waits a)) ∈ rows ∨
      (zlen rows = limit ∧ Forall (λ row, zsum an_wei_saved (waits a) <= row.2) rows)) ∧
    (∀ a attempt, tb_label_attempt t !! (chain, a) = Some attempt →
      at_last_result attempt ∉ ["matched"; "error"]%string →
      now <= at_last_attempted_at attempt + retry * MICROS_PER_DAY → waits a = []).
Proof.
  intros Hrun t chain. apply execute_run in Hrun as [(now & a & Hrun & [= <-] & Hnow)|[_ []]].
  apply bind_Ok_iff in Hrun as (rows' & Hrun & [<- Ht]%pair_Ok).
  apply checked_Ok in Hrun as [_ Hrun]. apply checked_Ok in Hrun as [Hlimit Hrun].
  unfold limit_ok in Hlimit. apply bail_if_Ok in Hlimit. injection Hrun as <-.
  exists now. split; [done|]. split; [done|]. intros waits.
  set (totals := fmap _ (map_to_list _)).
  assert (∀ x, x ∈ merge_sort (desc snd) totals ↔
    ∃ a, waits a ≠ [] ∧ x = (be_bytes 20 a, zsum an_wei_saved (waits a))) as Helem.
  { intros x. rewrite merge_sort_Permutation. apply totals_elem. }
  assert (StronglySorted (desc snd) (merge_sort (desc snd) totals)) as Hsorted.
  { apply Sorted_StronglySorted; [apply _|]. apply Sorted_merge_sort, _. }
  split_and!.
  - unfold limit_rows, zlen. rewrite length_take. lia.
  - by apply StronglySorted_take.
  - apply Forall_forall. intros x Hx. apply Helem. apply elem_of_take in Hx as (i & Hi & _). by eapply list_elem_of_lookup_2.
  - intros a Ha. assert ((be_bytes 20 a, zsum an_wei_saved (waits a)) ∈ merge_sort (desc snd) totals) as Hx
      by (apply Helem; eauto).
    apply (take_sorted (desc snd) (Z.to_nat limit)) in Hx as [Hx|[Hlen Hx]]; [by left|right|done].
    split; [unfold limit_rows, zlen; rewrite Hlen; lia|exact Hx].
  - intros a attempt Hatt Hres Hwait. destruct (waits a) eqn:Hw; [done|].
    assert (waits a ≠ []) as Hdue%waiting_due by by rewrite Hw. fold t in Hdue. rewrite Hatt in Hdue.
    cbn in Hdue. rewrite bool_decide_eq_false_2 in Hdue by done. cbn in Hdue. lia.
Qed.
End runs.

(** ** A sample database *)

#[local] Instance sample_decimals : Decimals :=
  {| BigDecimal := Z; decimal_zero := 0; decimal_of_price _ := None |}.
#[local] Instance sample_numeric : Numeric := {|
  usd_of_wei wei price := wei * default 0 price / 10 ^ 18;
  mean_share shares := None;
  numeric_20_8 p := Some p
|}.
(** A server that always answers, a microsecond later each time. *)
#[local] Instance sample_connection : Connection Z := {| reach w := (inl w, w + 1) |}.

Definition sample_report (index to saved : Z) : AnalysisReport :=
  mkAnalysisReport 1 100 1700000000 7 index 1 to [1; 2; 3; 4] 90000 3 60000 saved (saved * 3) false None 2 ∅
    false.

(** Three analyses of two contracts, of which one is labelled later and one is not verified. *)
Definition sample_db : DbState Z := serve
  [RInsertAnalysis (sample_report 0 5 30000) "unknown:0x05"; RInsertAnalysis (sample_report 1 5 30000) "unknown:0x05";
   RInsertAnalysis (sample_report 2 6 30000) "unknown:0x06"; RUpsertProject (mkProject "lido" "Lido" None None None);
   RUpsertAddressProject 1 5 "lido"; RUpsertLabelAttempt 1 6 "unverified" None None]
  (mkDb 0 empty_tables).

Lemma run_answer {A B} (run : A * B) a : run.1 = a → run = (a, run.2).
Proof. destruct run. by intros <-. Qed.

Lemma refresh_rollups_totals_witness :
  ∃ s', refresh_rollups sample_db = (Ok tt, s') ∧
    zsum (λ p, dy_wei_saved_total p.2)
      (filter (λ p, p.1.1.1 = 1) (map_to_list (tb_project_daily (db_tables s')))) =
    zsum (λ p, if counted p.2 && bool_decide (p.1.1.1 = 1) then an_wei_saved p.2 else 0)
      (map_to_list (tb_analysis (db_tables s'))).
Proof.
  assert (Hrun : (refresh_rollups sample_db).1 = Ok tt) by (vm_compute; reflexivity).
  apply run_answer in Hrun. eexists. split; [exact Hrun|].
  apply (refresh_rollups_totals sample_db _ dy_wei_saved_total an_wei_saved Hrun).
  unfold measures. rewrite !elem_of_cons. do 3 right. left. reflexivity.
Defined.

Lemma relabel_unknowns_spec_witness :
  ∃ s', relabel_unknowns sample_db = (Ok 2, s') ∧
    ∀ n2 s2, relabel_unknowns s' = (Ok n2, s2) → n2 = 0 ∧ db_tables s2 = db_tables s'.
Proof.
  assert (Hrun : (relabel_unknowns sample_db).1 = Ok 2) by (vm_compute; reflexivity).
  apply run_answer in Hrun. eexists. split; [exact Hrun|].
  apply (relabel_unknowns_spec sample_db _ 2 Hrun).
Defined.

Lemma insert_analysis_roundtrip_witness :
  ∃ s', insert_analysis (sample_report 3 5 100) "lido" sample_db = (Ok tt, s') ∧
    ∃ a, tb_analysis (db_tables s') !! (1, 100, 3) = Some a ∧
      report_of (1, 100, 3) a = sample_report 3 5 100.
Proof.
  assert (Hrun : (insert_analysis (sample_report 3 5 100) "lido" sample_db).1 = Ok tt) by (vm_compute; reflexivity).
  apply run_answer in Hrun. eexists. split; [exact Hrun|].
  assert (Hfits : report_fits (sample_report 3 5 100)).
  { unfold report_fits, chrono_max. rewrite !Forall_cons. cbn. repeat split; lia || constructor. }
  destruct (insert_analysis_roundtrip _ _ _ _ _ Hfits Hrun) as [[[] _]|(a & Ha & Hrow & _)].
  - exists a. split; [exact Ha|].
    assert (Hnone : tb_analysis (db_tables sample_db) !! analysis_key (sample_report 3 5 100) = None)
      by (vm_compute; reflexivity).
    rewrite Hnone in Hrow. exact (proj1 Hrow).
Defined.

Lemma top_unknown_addresses_ranks_witness :
  ∃ s', top_unknown_addresses 1 10 7 sample_db = (Ok [(be_bytes 20 5, 180000)], s') ∧
    db_tables s' = db_tables sample_db.
Proof.
  assert (Hrun : (top_unknown_addresses 1 10 7 sample_db).1 = Ok [(be_bytes 20 5, 180000)])
    by (vm_compute; reflexivity).
  apply run_answer in Hrun. eexists. split; [exact Hrun|].
  destruct (top_unknown_addresses_ranks sample_db _ 1 10 7 _ Hrun) as (now & _ & Ht & _). exact Ht.
Defined.
