(* ===== verification/Queries.v ===== *)
(** * The dashboard's queries

    [crates/indexer-web/src/queries.rs]: what the aggregate queries of the pages read from the tables and
    views of [Database]. A join is a lookup where its key is unique, and a product of rows where it is not;
    ties of an order come as the map has them. The lists of transactions are texts ([Web.v]), run by a
    parameter. Sums beyond a [bigint], which the server refuses, are not modelled. *)

From Stdlib Require Import SpecFloat.
From S2P Require Import Prelude.
From S2P Require Import Transport.
From S2P Require Import Encoding.
From S2P Require Import Types.
From S2P Require Import Trace.
From S2P Require Import Auth.
From S2P Require Import Refresher.
From S2P Require Import Web.
From S2P Require Import Diagnose.
From S2P Require Import Format.
From S2P Require Import Pages.
From S2P Require Import Admin.
From S2P Require Import Database.

(** More of the server's decimal arithmetic, and of its dates. *)
Class Aggregates `{Decimals, Dates} := {
  decimal_of_Z : Z → BigDecimal;
  decimal_sum : list BigDecimal → BigDecimal;
  decimal_mean_f64 : list BigDecimal → option spec_float;
  decimal_le : BigDecimal → BigDecimal → bool;
  date_of_day : Z → Date;
  day_of_date : Date → Z
}.

(** ** Windows *)

(** [(now() - interval 'n days')::date] and later, and [now() - interval 'n days'] and later, of seconds. *)
Definition since_day (now days day : Z) : bool := (now - days * MICROS_PER_DAY) / MICROS_PER_DAY <=? day.
Definition since_time (now days secs : Z) : bool := now - days * MICROS_PER_DAY <=? secs * MICROS.
Definition in_window (now : Z) (w : Window) (day : Z) : bool :=
  match w with Lifetime => true | Days n => since_day now n day end.

(** [LIMIT] and [OFFSET]. *)
Definition page_rows {A} (limit offset : Z) (rows : list A) : list A :=
  limit_rows limit (drop (Z.to_nat offset) rows).

(** The number of distinct values. *)
Definition count_distinct {A} `{EqDecision A} (l : list A) : Z := zlen (remove_dups l).

(** Floats in ascending order, and [percentile_cont(0.5)]. *)
Definition f64_le (a b : spec_float) : Prop := SFleb a b = true.
#[export] Instance f64_le_dec a b : Decision (f64_le a b).
Proof. unfold f64_le. apply _. Defined.
Definition f64_add : spec_float → spec_float → spec_float := SFadd 53 1024.
Definition f64_sub : spec_float → spec_float → spec_float := SFsub 53 1024.
Definition f64_half : spec_float := f64_div (f64_of_Z 1) (f64_of_Z 2).
Definition median (values : list spec_float) : option spec_float :=
  let sorted := merge_sort f64_le values in
  let n := length sorted in
  lo ← sorted !! ((n - 1) / 2)%nat;
  hi ← sorted !! (n / 2)%nat;
  Some (if Nat.odd n then lo else f64_add lo (f64_mul f64_half (f64_sub hi lo))).

(** [gas_saved::float8 / NULLIF(gas_used, 0)::float8]. *)
Definition share (a : Analysis) : option spec_float :=
  if an_gas_used a =? 0 then None
  else Some (f64_div (f64_of_Z (an_gas_saved a)) (f64_of_Z (an_gas_used a))).
Definition median_share (rows : list Analysis) : option spec_float := median (omap share rows).

Definition web_error (e : StoreError) : WebError :=
  match e with SSqlx why => WSqlx why | SDecimal _ => WStore (store_error_text e) end.

Section queries.
Context {W : Type} `{Numeric, Dates, !Aggregates, Connection W}.
Abbreviation Run A := (Eff WebError (DbState W) A).

Definition ask {A} (q : Z → Tables → Res string A) : Run A := eff_map_err web_error (query q).

(** The clauses of the data floor. *)
Definition floor_day (floor : option Date) (day : Z) : bool :=
  match floor with Some d => day_of_date d <=? day | None => true end.
Definition floor_time (floor : option Date) (secs : Z) : bool :=
  match floor with Some d => day_of_date d * 86400 <=? secs | None => true end.

(** ** Rows of the views *)

Record ProjectDay := mkProjectDay { pd_chain : Z; pd_slug : string; pd_day : Z; pd_row : DailyRow }.
Record FunctionDay := mkFunctionDay {
  fd_chain : Z;
  fd_to : Z;
  fd_selector : list Z;
  fd_slug : string;
  fd_day : Z;
  fd_row : DailyRow
}.
Definition project_days (t : Tables) : list ProjectDay :=
  (λ '(chain, slug, day, row), mkProjectDay chain slug day row) <$> map_to_list (tb_project_daily t).
Definition function_days (t : Tables) : list FunctionDay :=
  (λ '(chain, to, selector, slug, day, row), mkFunctionDay chain to selector slug day row) <$>
    map_to_list (tb_function_daily t).

Definition sum_usd (rows : list DailyRow) : BigDecimal := decimal_sum (dy_usd_saved_total <$> rows).
Definition mean_avg (rows : list DailyRow) : option spec_float := decimal_mean_f64 (omap dy_avg_savings_pct rows).
Definition sum_wei (rows : list DailyRow) : BigDecimal := decimal_of_Z (zsum dy_wei_saved_total rows).
Definition sum_spent (rows : list DailyRow) : BigDecimal := decimal_of_Z (zsum dy_wei_spent_total rows).

(** The counted analyses of a chain since a time, under the floor. *)
Definition recent_analyses (t : Tables) (floor : option Date) (chain now days : Z) : list Analysis :=
  snd <$> filter (λ p, bool_decide (p.1.1.1 = chain) && since_time now days (an_block_timestamp p.2) &&
                       counted p.2 && floor_time floor (an_block_timestamp p.2))
            (map_to_list (tb_analysis t)).

(** ** Totals *)

Definition overview_totals (floor : option Date) (chain : Z) (window : Window) : Run OverviewTotals :=
  ask (λ now t,
    let days := List.filter (λ p, (pd_chain p =? chain) && in_window now window (pd_day p) &&
                                  floor_day floor (pd_day p)) (project_days t) in
    let rows := pd_row <$> days in
    Ok (mkOverviewTotals (Some (sum_usd rows)) (Some (sum_wei rows)) (Some (zsum dy_tx_count rows))
          (Some (count_distinct (pd_slug <$> days))))).

Definition project_totals (floor : option Date) (chain : Z) (slug : string) (window : Window)
  : Run EntityTotals :=
  ask (λ now t,
    _ ← check_texts [slug];
    let rows := pd_row <$> List.filter (λ p, (pd_chain p =? chain) && bool_decide (pd_slug p = slug) &&
                  in_window now window (pd_day p) && floor_day floor (pd_day p)) (project_days t) in
    Ok (mkEntityTotals (Some (sum_usd rows)) (Some (sum_wei rows)) (Some (zsum dy_tx_count rows)) None
          (mean_avg rows))).

Definition contract_totals (floor : option Date) (chain : Z) (address : list Z) (window : Window)
  : Run EntityTotals :=
  ask (λ now t,
    let days := List.filter (λ p, (fd_chain p =? chain) && (fd_to p =? be_to_Z address) &&
                  in_window now window (fd_day p) && floor_day floor (fd_day p)) (function_days t) in
    let rows := fd_row <$> days in
    Ok (mkEntityTotals (Some (sum_usd rows)) (Some (sum_wei rows)) (Some (zsum dy_tx_count rows))
          (Some (count_distinct (fd_selector <$> days))) (mean_avg rows))).

Definition function_totals (floor : option Date) (chain : Z) (address selector : list Z) (window : Window)
  : Run EntityTotals :=
  ask (λ now t,
    let rows := fd_row <$> List.filter (λ p, (fd_chain p =? chain) && (fd_to p =? be_to_Z address) &&
                  bool_decide (fd_selector p = selector) && in_window now window (fd_day p) &&
                  floor_day floor (fd_day p)) (function_days t) in
    Ok (mkEntityTotals (Some (sum_usd rows)) (Some (sum_wei rows)) (Some (zsum dy_tx_count rows)) (Some 1)
          (mean_avg rows))).

(** ** Leaderboards *)

(** A project's name, and whether there is an exclusion of a function or of its contract. *)
Definition project_name (t : Tables) (slug : string) : option string := pj_name <$> tb_projects t !! slug.
Definition excludes (selector : list Z) (x : option Exclusion) : bool :=
  match x with
  | Some x => bool_decide (ex_selector x = None) || bool_decide (ex_selector x = Some selector)
  | None => false
  end.
Definition excluded (t : Tables) (chain address : Z) (selector : list Z) : bool :=
  excludes selector (tb_exclusion t !! (chain, address, [])) ||
  excludes selector (tb_exclusion t !! (chain, address, selector)).

Definition leaderboard_30d (floor : option Date) (chain limit offset : Z) : Run (list LeaderboardRow) :=
  ask (λ now t,
    _ ← limit_ok limit;
    _ ← limit_ok offset;
    let days := List.filter (λ p, (pd_chain p =? chain) && since_day now 30 (pd_day p) &&
                                  floor_day floor (pd_day p)) (project_days t) in
    let recent := group_by an_slug (recent_analyses t floor chain now 30) in
    let view slug (days : list ProjectDay) :=
      let rows := pd_row <$> days in
      (zsum dy_tx_count rows,
       mkLeaderboardRow slug (project_name t slug) (Some (zsum dy_tx_count rows)) (Some (sum_wei rows))
         (Some (sum_spent rows)) (mean_avg rows) (recent !! slug ≫= median_share)) in
    let groups := (λ '(slug, days), view slug days) <$> map_to_list (group_by pd_slug days) in
    Ok (page_rows limit offset (merge_sort (desc fst) groups)).*2).

(** The functions of a window that no exclusion hides. *)
Definition shown_functions (t : Tables) (floor : option Date) (chain now : Z) : list FunctionDay :=
  List.filter (λ p, (fd_chain p =? chain) && since_day now 30 (fd_day p) && floor_day floor (fd_day p) &&
                    negb (excluded t chain (fd_to p) (fd_selector p))) (function_days t).

Definition leaderboard_functions_30d (floor : option Date) (chain limit offset : Z)
  : Run (list FunctionLeaderRow) :=
  ask (λ now t,
    _ ← limit_ok limit;
    _ ← limit_ok offset;
    let recent := group_by (λ a, (an_to a, an_selector a)) (recent_analyses t floor chain now 30) in
    let view (key : Z * list Z * string) (days : list FunctionDay) :=
      let '(to, selector, slug) := key in
      let rows := fd_row <$> days in
      let names := tb_selectors t !! selector in
      (zsum dy_wei_saved_total rows,
       mkFunctionLeaderRow (be_bytes 20 to) selector slug (project_name t slug) (names ≫= sl_primary_name)
         (names ≫= sl_primary_sig) (Some (zsum dy_tx_count rows)) (Some (sum_wei rows))
         (Some (sum_spent rows)) (Some (sum_usd rows)) (mean_avg rows)
         (recent !! (to, selector) ≫= median_share)) in
    let groups := (λ '(key, days), view key days) <$>
      map_to_list (group_by (λ p, (fd_to p, fd_selector p, fd_slug p)) (shown_functions t floor chain now)) in
    Ok (page_rows limit offset (merge_sort (desc fst) groups)).*2).

Definition leaderboard_contracts_30d (floor : option Date) (chain limit offset : Z)
  : Run (list ContractLeaderRow) :=
  ask (λ now t,
    _ ← limit_ok limit;
    _ ← limit_ok offset;
    let recent := group_by an_to (recent_analyses t floor chain now 30) in
    let view (key : Z * string) (days : list FunctionDay) :=
      let '(to, slug) := key in
      let rows := fd_row <$> days in
      (zsum dy_wei_saved_total rows,
       mkContractLeaderRow (be_bytes 20 to) slug (project_name t slug) (Some (zsum dy_tx_count rows))
         (Some (count_distinct (fd_selector <$> days))) (Some (sum_wei rows)) (Some (sum_spent rows))
         (Some (sum_usd rows)) (mean_avg rows) (recent !! to ≫= median_share)) in
    let groups := (λ '(key, days), view key days) <$>
      map_to_list (group_by (λ p, (fd_to p, fd_slug p)) (shown_functions t floor chain now)) in
    Ok (page_rows limit offset (merge_sort (desc fst) groups)).*2).

(** The join of an organization's project days with the functions of the same project and day: a row for
    each function, or one without. *)
Definition org_rows (t : Tables) (floor : option Date) (chain now : Z) (org : string)
  : list (ProjectDay * option FunctionDay) :=
  p ← List.filter (λ p, (pd_chain p =? chain) && since_day now 30 (pd_day p) && floor_day floor (pd_day p) &&
        bool_decide (tb_projects t !! pd_slug p ≫= pj_org = Some org)) (project_days t);
  match List.filter (λ f, bool_decide (fd_slug f = pd_slug p) && (fd_day f =? pd_day p) &&
          (fd_chain f =? pd_chain p)) (function_days t) with
  | [] => [(p, None)]
  | functions => (λ f, (p, Some f)) <$> functions
  end.
Definition leaderboard_orgs_30d (floor : option Date) (chain limit offset : Z) : Run (list OrgLeaderRow) :=
  ask (λ now t,
    _ ← limit_ok limit;
    _ ← limit_ok offset;
    let view '(slug, org) :=
      match org_rows t floor chain now slug with
      | [] => None
      | joined =>
          let rows := (λ r, pd_row r.1) <$> joined in
          Some (zsum dy_wei_saved_total rows,
            mkOrgLeaderRow (og_name org) (Some (count_distinct ((λ r, pd_slug r.1) <$> joined)))
              (Some (count_distinct (fd_to <$> omap snd joined))) (Some (zsum dy_tx_count rows))
              (Some (sum_usd rows)) (Some (sum_wei rows)) (Some (sum_spent rows)) (mean_avg rows))
      end in
    let groups := omap view (map_to_list (tb_orgs t)) in
    Ok (page_rows limit offset (merge_sort (desc fst) groups)).*2).

(** ** Days *)

(** Rows of days in their order. *)
Definition day_le {A} (x y : Z * A) : Prop := x.1 <= y.1.
#[local] Instance day_le_dec {A} (x y : Z * A) : Decision (day_le x y).
Proof. unfold day_le. apply _. Defined.
Definition point (day : Z) (rows : list DailyRow) : DailyPoint :=
  mkDailyPoint (date_of_day day) (Some (sum_usd rows)) (Some (zsum dy_tx_count rows)).
Definition single_point (day : Z) (row : DailyRow) : DailyPoint :=
  mkDailyPoint (date_of_day day) (Some (dy_usd_saved_total row)) (Some (dy_tx_count row)).
(** Grouped by their day, or as they are. *)
Definition daily_points (rows : list (Z * DailyRow)) : list DailyPoint :=
  (λ '(day, rows), point day rows.*2) <$> map_items (group_by fst rows).
Definition daily_rows (rows : list (Z * DailyRow)) : list DailyPoint :=
  (λ '(day, row), single_point day row) <$> merge_sort day_le rows.

Definition daily_overview (floor : option Date) (chain days : Z) : Run (list DailyPoint) :=
  ask (λ now t,
    Ok (daily_points ((λ p, (pd_day p, pd_row p)) <$>
      List.filter (λ p, (pd_chain p =? chain) && since_day now days (pd_day p) && floor_day floor (pd_day p))
        (project_days t)))).
Definition daily_for_project (floor : option Date) (chain : Z) (slug : string) (days : Z)
  : Run (list DailyPoint) :=
  ask (λ now t,
    _ ← check_texts [slug];
    Ok (daily_rows ((λ p, (pd_day p, pd_row p)) <$>
      List.filter (λ p, (pd_chain p =? chain) && bool_decide (pd_slug p = slug) &&
                        since_day now days (pd_day p) && floor_day floor (pd_day p)) (project_days t)))).
Definition daily_for_contract (floor : option Date) (chain : Z) (address : list Z) (days : Z)
  : Run (list DailyPoint) :=
  ask (λ now t,
    Ok (daily_points ((λ p, (fd_day p, fd_row p)) <$>
      List.filter (λ p, (fd_chain p =? chain) && (fd_to p =? be_to_Z address) &&
                        since_day now days (fd_day p) && floor_day floor (fd_day p)) (function_days t)))).
Definition daily_for_function (floor : option Date) (chain : Z) (address selector : list Z) (days : Z)
  : Run (list DailyPoint) :=
  ask (λ now t,
    Ok (daily_rows ((λ p, (fd_day p, fd_row p)) <$>
      List.filter (λ p, (fd_chain p =? chain) && (fd_to p =? be_to_Z address) &&
                        bool_decide (fd_selector p = selector) && since_day now days (fd_day p) &&
                        floor_day floor (fd_day p)) (function_days t)))).

(** ** Drill-downs *)

Definition header_of (slug : string) (row : ProjectRow) : ProjectHeader :=
  mkProjectHeader slug (Some (pj_name row)) (pj_category row) (pj_contact_email row) (pj_contact_url row).
Definition project_header_row (slug : string) : Run (option ProjectHeader) :=
  ask (λ now t, _ ← check_texts [slug]; Ok (header_of slug <$> tb_projects t !! slug)).

Definition contract_header_row (chain : Z) (address : list Z) : Run (option EntityHeader) :=
  ask (λ now t,
    Ok ((λ m, mkEntityHeader (mp_slug m) (project_name t (mp_slug m)) None None) <$>
          tb_address_project t !! (chain, be_to_Z address))).
(** There is always a row, whose columns may be absent. *)
Definition function_header_row (chain : Z) (address selector : list Z) : Run (option EntityHeader) :=
  ask (λ now t,
    let mapping := tb_address_project t !! (chain, be_to_Z address) in
    let names := tb_selectors t !! selector in
    Ok (Some (mkEntityHeader (match mapping with
                              | Some m => mp_slug m
                              | None => "unknown:0x" +:+ hex_string address
                              end)
      (m ← mapping; project_name t (mp_slug m)) (names ≫= sl_primary_name) (names ≫= sl_primary_sig)))).
Definition resolved_label (chain address : Z) : Run (option (string * option string)) :=
  ask (λ now t,
    Ok ((λ m, (mp_slug m, project_name t (mp_slug m))) <$> tb_address_project t !! (chain, address))).

(** The best ten of a project, by a column of its analyses. *)
Definition top_for_project `{Countable K} (column : Analysis → K) (bytes : K → list Z)
    (floor : option Date) (chain : Z) (slug : string) : Run (list TopRow) :=
  ask (λ now t,
    _ ← check_texts [slug];
    let rows := List.filter (λ a, bool_decide (an_slug a = slug)) (recent_analyses t floor chain now 30) in
    let view '(key, rows) :=
      (zsum an_wei_saved rows,
       mkTopRow (bytes key) (Some (zlen rows)) (Some (zsum an_gas_saved rows))
         (Some (decimal_of_Z (zsum an_wei_saved rows)))) in
    Ok (limit_rows 10 (merge_sort (desc fst) (view <$> map_to_list (group_by column rows)))).*2).
Definition top_contracts_for_project : option Date → Z → string → Run (list TopRow) :=
  top_for_project an_to (be_bytes 20).
Definition top_selectors_for_project : option Date → Z → string → Run (list TopRow) :=
  top_for_project an_selector id.

(** Descending by a decimal. *)
Definition usd_desc {A} (x y : BigDecimal * A) : Prop := decimal_le y.1 x.1 = true.
#[local] Instance usd_desc_dec {A} (x y : BigDecimal * A) : Decision (usd_desc x y).
Proof. unfold usd_desc. apply _. Defined.
Definition functions_for_contract (floor : option Date) (chain : Z) (address : list Z)
  : Run (list ContractFunctionRow) :=
  ask (λ now t,
    let days := List.filter (λ p, (fd_chain p =? chain) && (fd_to p =? be_to_Z address) &&
                  since_day now 30 (fd_day p) && floor_day floor (fd_day p)) (function_days t) in
    let view '(selector, days) :=
      let rows := fd_row <$> days in
      (sum_usd rows,
       mkContractFunctionRow selector (tb_selectors t !! selector ≫= sl_primary_name)
         (Some (zsum dy_tx_count rows)) (Some (sum_usd rows)) (mean_avg rows)) in
    Ok (limit_rows 50 (merge_sort usd_desc (view <$> map_to_list (group_by fd_selector days)))).*2).

(** ** Unknowns and candidates *)

(** The first of the rows with the highest wei saved. *)
Definition example_address (days : list FunctionDay) : list Z :=
  match merge_sort (desc (λ p, dy_wei_saved_total (fd_row p))) days with
  | p :: _ => be_bytes 20 (fd_to p)
  | [] => []
  end.
Definition unresolved (t : Tables) (selector : list Z) : bool :=
  match tb_selectors t !! selector with
  | Some row => bool_decide (sl_primary_name row = None) || (sl_source row =? "unresolved")%string
  | None => true
  end.
Definition top_unresolved_selectors (floor : option Date) (chain limit : Z)
  : Run (list UnresolvedSelectorRow) :=
  ask (λ now t,
    _ ← limit_ok limit;
    let days := List.filter (λ p, (fd_chain p =? chain) && since_day now 30 (fd_day p) &&
                  floor_day floor (fd_day p) && unresolved t (fd_selector p)) (function_days t) in
    let view '(selector, days) :=
      let rows := fd_row <$> days in
      (zsum dy_wei_saved_total rows,
       mkUnresolvedSelectorRow selector (example_address days) (Some (zsum dy_tx_count rows))
         (Some (sum_wei rows)) (Some (sum_usd rows))) in
    Ok (limit_rows limit (merge_sort (desc fst) (view <$> map_to_list (group_by fd_selector days)))).*2).

(** Times of pages are in nanoseconds. *)
Definition nanos (secs : Z) : Z := secs * NANOS.
Definition top_unknowns (floor : option Date) (chain : Z) : Run (list UnknownRow) :=
  ask (λ now t,
    let rows := List.filter (λ a, unknown_slug (an_slug a)) (recent_analyses t floor chain now 30) in
    let view '(to, rows) :=
      (zsum an_wei_saved rows,
       mkUnknownRow (be_bytes 20 to) (Some (zlen rows)) (Some (decimal_of_Z (zsum an_wei_saved rows)))
         (nanos <$> greatest (an_block_timestamp <$> rows))) in
    Ok (limit_rows 20 (merge_sort (desc fst) (view <$> map_to_list (group_by an_to rows)))).*2).

(** Whether the whole contract is excluded. *)
Definition contract_excluded (t : Tables) (chain address : Z) : bool :=
  match tb_exclusion t !! (chain, address, []) with
  | Some x => bool_decide (ex_selector x = None)
  | None => false
  end.
Definition candidate_row (t : Tables) (group : Z * list Analysis) : Z * CandidateRow :=
  let '(to, rows) := group in
  let usd a := usd_of_wei (an_wei_saved a) (tb_eth_prices t !! day_of (an_block_timestamp a)) in
  (zsum an_wei_saved rows,
   mkCandidateRow (be_bytes 20 to) (nanos <$> least (an_block_timestamp <$> rows))
     (nanos <$> greatest (an_block_timestamp <$> rows)) (Some (zlen rows))
     (Some (decimal_of_Z (zsum an_wei_saved rows))) (Some (decimal_sum (usd <$> rows)))).
Definition fresh_enough (now days : Z) (min_wei : BigDecimal) (group : Z * list Analysis) : bool :=
  match least (an_block_timestamp <$> group.2) with
  | Some first => since_time now days first
  | None => false
  end && decimal_le min_wei (decimal_of_Z (zsum an_wei_saved group.2)).
Definition new_high_savings_candidates (floor : option Date) (chain days : Z) (min_wei : BigDecimal)
    (limit : Z) : Run (list CandidateRow) :=
  ask (λ now t,
    _ ← int_range days;
    _ ← limit_ok limit;
    let rows := snd <$> filter (λ p, bool_decide (p.1.1.1 = chain) && unknown_slug (an_slug p.2) &&
                  counted p.2 && floor_time floor (an_block_timestamp p.2) &&
                  negb (contract_excluded t chain (an_to p.2))) (map_to_list (tb_analysis t)) in
    let groups := List.filter (fresh_enough now days min_wei) (map_to_list (group_by an_to rows)) in
    Ok (limit_rows limit (merge_sort (desc fst) (candidate_row t <$> groups))).*2).

(** ** Lists of the admin pages *)

Definition text_le (x y : string) : Prop :=
  match String.compare x y with Gt => False | _ => True end.
#[local] Instance text_le_dec x y : Decision (text_le x y).
Proof. unfold text_le. destruct (String.compare x y); apply _. Defined.
Definition by_name {A} (x y : string * A) : Prop := text_le x.1 y.1.
#[local] Instance by_name_dec {A} (x y : string * A) : Decision (by_name x y).
Proof. unfold by_name. apply _. Defined.

Definition list_orgs : Run (list (string * string)) :=
  ask (λ now t,
    Ok (merge_sort by_name ((λ '(slug, org), (og_name org, (slug, og_name org))) <$> map_to_list (tb_orgs t))).*2).
(** By name, and by slug where names are equal; a name is never absent. *)
Definition list_projects : Run (list (string * option string * option string)) :=
  ask (λ now t,
    let by_slug := merge_sort by_name (map_to_list (tb_projects t)) in
    Ok (merge_sort by_name ((λ '(slug, row), (pj_name row, (slug, Some (pj_name row), pj_org row))) <$> by_slug)).*2).
Definition blacklist_list (chain : Z) : Run (list BlacklistRow) :=
  ask (λ now t,
    let rows := omap (λ '(key, x), let '(c, address, _) := key in
      if c =? chain then
        Some (mkBlacklistRow (be_bytes 20 address) (ex_selector x) (ex_reason x) (ex_created_by x)
                (ex_created_at x * 1000))
      else None) (map_to_list (tb_exclusion t)) in
    Ok (merge_sort (desc bl_created_at) rows)).

(** ** Health *)

(** Microseconds as a float of seconds. *)
Definition epoch (micros : Z) : spec_float := f64_div (f64_of_Z micros) (f64_of_Z MICROS).
Definition chain_rows (t : Tables) (chain : Z) : list (Z * Z * Z * Analysis) :=
  List.filter (λ p, p.1.1.1 =? chain) (map_to_list (tb_analysis t)).
Definition analysis_health (chain : Z) : Run AnalysisHealthRow :=
  ask (λ now t,
    let rows := chain_rows t chain in
    Ok (mkHealthRow (Some (zlen rows)) (greatest ((λ p, p.1.1.2) <$> rows))
          ((λ last, epoch (now - last)) <$> greatest ((λ p, an_inserted_at p.2) <$> rows)))).
(** The rows stored in the last day. *)
Definition last_day (t : Tables) (chain now : Z) : list Analysis :=
  List.filter (λ a, now - MICROS_PER_DAY <=? an_inserted_at a) (chain_rows t chain).*2.
Definition heuristic_counts_24h (chain : Z) : Run (option Z * option Z) :=
  ask (λ now t,
    let rows := last_day t chain now in
    Ok (Some (zlen (List.filter an_is_heuristic rows)), Some (zlen rows))).

(** [ILIKE '%pattern%'] of a lower-case pattern, on ASCII letters. *)
Fixpoint contains (pattern s : string) : bool :=
  String.prefix pattern s || match s with EmptyString => false | String _ s => contains pattern s end.
Definition error_category (reason : string) : string :=
  let reason := to_ascii_lowercase reason in
  if contains "rate limit" reason then "rate_limit"
  else if contains "timeout" reason then "timeout"
  else if contains "response size" reason then "response_too_large"
  else if contains "429" reason then "rate_limit"
  else "other".
Definition error_categories_24h (chain : Z) : Run (list (string * option Z)) :=
  ask (λ now t,
    let reasons := omap an_failure_reason (last_day t chain now) in
    let counts := (λ '(category, reasons), (zlen (reasons : list string), category)) <$>
                    map_to_list (group_by error_category reasons) in
    Ok ((λ p, (p.2, Some p.1)) <$> merge_sort (desc fst) counts)).

(** ** The diagnosis ([diagnostics.rs]) *)

(** The three intervals asked for. *)
Definition interval_micros (interval : string) : Z :=
  if (interval =? "1 hour")%string then 3600 * MICROS
  else if (interval =? "24 hours")%string then MICROS_PER_DAY
  else 7 * MICROS_PER_DAY.
Definition count_since (chain : Z) (interval : string) : Eff StoreError (DbState W) Z :=
  query (λ now t,
    Ok (zlen (List.filter (λ a, now - interval_micros interval <=? an_inserted_at a) (chain_rows t chain).*2))).
(** Not only the analyses that count. *)
Definition unknown_entries (chain limit : Z) : Eff StoreError (DbState W) (list (list Z * Z * string)) :=
  query (λ now t,
    _ ← limit_ok limit;
    let rows := List.filter (λ a, unknown_slug (an_slug a) && since_time now 30 (an_block_timestamp a))
                  (chain_rows t chain).*2 in
    let view '(to, rows) :=
      (zsum an_wei_saved rows, (be_bytes 20 to, zlen rows, i64_text (zsum an_wei_saved rows))) in
    Ok (limit_rows limit (merge_sort (desc fst) (view <$> map_to_list (group_by an_to rows)))).*2).
Definition labeler_entries (chain limit : Z)
  : Eff StoreError (DbState W) (list (list Z * string * option string * option string)) :=
  query (λ now t,
    _ ← limit_ok limit;
    let rows := omap (λ '(key, a), let '(c, address) := key in
      if c =? chain then
        Some (at_last_attempted_at a,
              (be_bytes 20 address, at_last_result a, at_contract_name a, at_matched_slug a))
      else None) (map_to_list (tb_label_attempt t)) in
    Ok (limit_rows limit (merge_sort (desc fst) rows)).*2).
End queries.

(** ** The interfaces of the pages *)

Section interfaces.
Context {W : Type} `{Numeric, Dates, !Aggregates, Connection W}.
(** The texts of [Web.v], run; the clock; and Redis. *)
Variables (run_text : string * list Bind → Eff WebError (DbState W) (list RecentTxRow))
  (clock : DbState W → Z * DbState W)
  (get_i64 : string → Eff string (DbState W) (option Z))
  (stream : string → nat → Eff string (DbState W) (list (string * list (string * string))))
  (rfc3339 : DbState W → string * DbState W).

Definition database_reports : Reports (DbState W) := {|
  Pages.overview_totals := overview_totals;
  Pages.leaderboard_30d := leaderboard_30d;
  Pages.leaderboard_functions_30d := leaderboard_functions_30d;
  Pages.leaderboard_contracts_30d := leaderboard_contracts_30d;
  Pages.leaderboard_orgs_30d := leaderboard_orgs_30d;
  Pages.daily_overview := daily_overview;
  Pages.project_header_row := project_header_row;
  Pages.project_totals := project_totals;
  Pages.daily_for_project := daily_for_project;
  Pages.top_contracts_for_project := top_contracts_for_project;
  Pages.top_selectors_for_project := top_selectors_for_project;
  Pages.contract_header_row := contract_header_row;
  Pages.contract_totals := contract_totals;
  Pages.functions_for_contract := functions_for_contract;
  Pages.daily_for_contract := daily_for_contract;
  Pages.function_header_row := function_header_row;
  Pages.function_totals := function_totals;
  Pages.daily_for_function := daily_for_function;
  Pages.top_unresolved_selectors := top_unresolved_selectors;
  Pages.top_unknowns := top_unknowns;
  Pages.fetch_recent_txs := run_text;
  Pages.now_nanos := clock
|}.

Definition database_admin : AdminQueries (DbState W) := {|
  Admin.new_high_savings_candidates := new_high_savings_candidates;
  Admin.list_orgs := list_orgs;
  Admin.list_projects := list_projects;
  Admin.blacklist_list := blacklist_list;
  Admin.analysis_day_range := shown analysis_day_range
|}.

Definition database_health : HealthQueries (DbState W) := {|
  Admin.heuristic_counts_24h := heuristic_counts_24h;
  Admin.error_categories_24h := error_categories_24h
|}.

Definition database_monitor : Monitor (DbState W) := {|
  Diagnose.analysis_health := analysis_health;
  Diagnose.rows_since chain interval := shown (count_since chain interval);
  Diagnose.unknown_rows chain limit := shown (unknown_entries chain limit);
  Diagnose.labeler_rows chain limit := shown (labeler_entries chain limit);
  Diagnose.redis_get_i64 := get_i64;
  Diagnose.xrevrange := stream;
  Diagnose.now_rfc3339 := rfc3339
|}.

Definition database_web : WebStore (DbState W) := {|
  Web.org_upsert slug name := shown (org_upsert slug name);
  Web.project_assign_org slug org := shown (project_assign_org slug org);
  Web.blacklist_add_row chain a selector reason by_ := shown (blacklist_add chain a selector reason by_);
  Web.blacklist_remove_row chain a selector := shown (blacklist_remove chain a selector);
  Web.upsert_manual_address_project chain a slug := shown (upsert_manual_address_project chain a slug);
  Web.rename_project slug name := shown (rename_project slug name);
  Web.is_manual_override chain a := shown (is_manual_override chain a);
  Web.refresh_rollups := shown refresh_rollups;
  Web.resolved_label := resolved_label;
  Web.project_header slug := h ← project_header_row slug; mret (ph_project_name <$> h)
|}.
End interfaces.
