(* ===== verification/QueriesSpec.v ===== *)
(** * What the dashboard's numbers count

    After a refresh of the views, the totals of every page are those of the analyses they are about, whatever
    the window and the data floor; what is on the blacklist is in no ranking of contracts or functions until
    it is taken off; and the ranking of organizations counts a day as often as it has functions. *)

From Stdlib Require Import SpecFloat Strings.Ascii.
From S2P Require Import Prelude.
From S2P Require Import Effects.
From S2P Require Import Encoding.
From S2P Require Import Types.
From S2P Require Import Typing.
From S2P Require Import Analyze.
From S2P Require Import Resolver.
From S2P Require Import Refresher.
From S2P Require Import Web.
From S2P Require Import Diagnose.
From S2P Require Import Format.
From S2P Require Import Pages.
From S2P Require Import Admin.
From S2P Require Import Database.
From S2P Require Import DatabaseSpec.
From S2P Require Import Queries.

Lemma filter_bool {A} (f : A → bool) (l : list A) : List.filter f l = filter (λ x, f x) l.
Proof.
  induction l as [|x l IH]; [done|]. cbn [List.filter]. rewrite filter_cons, IH.
  destruct (f x); [by rewrite decide_True|by rewrite decide_False by (intros [])].
Qed.

Section totals.
Context {W : Type} `{Numeric, Dates, !Aggregates, Connection W}.

(** A query leaves the tables. *)
Lemma asked_run {A} (q : Z → Tables → Res string A) (s s' : DbState W) a :
  ask q s = (Ok a, s') →
  ∃ now, (reach (db_conn s)).1 = inl now ∧ q now (db_tables s) = Ok a ∧ db_tables s' = db_tables s.
Proof.
  intros Hrun. apply eff_map_err_Ok in Hrun.
  apply execute_run in Hrun as [(now & b & Hrun & [= <-] & Hnow)|[_ []]].
  exists now. split; [done|]. by apply bind_Ok_iff in Hrun as (b & Hq & [<- <-]%pair_Ok).
Qed.

(** The counted analyses of a chain with a property. *)
Definition total (g : Analysis → Z) (P : Analysis → bool) (chain : Z) (t : Tables) : Z :=
  zsum (λ r, g r.2) (filter (λ r, (r.1 =? chain) && P r.2) (counted_rows t)).

Lemma project_days_sum (t : Tables) (P : Z * string * Z → bool) f g :
  (f, g) ∈ measures →
  zsum f (pd_row <$> List.filter (λ p, P (pd_chain p, pd_slug p, pd_day p))
    (project_days (set_project_daily (project_daily t) t))) =
  zsum (λ r, g r.2) (filter (λ r, P (project_day r)) (counted_rows t)).
Proof.
  intros Hfg. etrans; [|exact (view_sum project_day (λ k, tb_eth_prices t !! k.2) (λ k, P k) (counted_rows t) f g Hfg)].
  unfold project_days, project_daily. cbn [tb_project_daily set_project_daily].
  induction (map_to_list _) as [|[[[chain slug] day] row] l IH]; [done|].
  rewrite fmap_cons. cbn [List.filter]. cbn [pd_chain pd_slug pd_day].
  destruct (P (chain, slug, day)) eqn:HP.
  - rewrite filter_cons_True by (cbn [fst]; by rewrite HP). cbn. unfold zsum in IH. by rewrite IH.
  - rewrite filter_cons_False by (cbn [fst]; rewrite HP; intros []). exact IH.
Qed.

Lemma function_days_sum (t : Tables) (P : Z * Z * list Z * string * Z → bool) f g :
  (f, g) ∈ measures →
  zsum f (fd_row <$> List.filter (λ p, P (fd_chain p, fd_to p, fd_selector p, fd_slug p, fd_day p))
    (function_days (set_function_daily (function_daily t) t))) =
  zsum (λ r, g r.2) (filter (λ r, P (function_day r)) (counted_rows t)).
Proof.
  intros Hfg. etrans; [|exact (view_sum function_day (λ k, tb_eth_prices t !! k.2) (λ k, P k) (counted_rows t) f g Hfg)].
  unfold function_days, function_daily. cbn [tb_function_daily set_function_daily].
  induction (map_to_list _) as [|[[[[[chain to] sel] slug] day] row] l IH]; [done|].
  rewrite fmap_cons. cbn [List.filter]. cbn [fd_chain fd_to fd_selector fd_slug fd_day].
  destruct (P (chain, to, sel, slug, day)) eqn:HP.
  - rewrite filter_cons_True by (cbn [fst]; by rewrite HP). cbn. unfold zsum in IH. by rewrite IH.
  - rewrite filter_cons_False by (cbn [fst]; rewrite HP; intros []). exact IH.
Qed.

Definition an_day (a : Analysis) : Z := day_of (an_block_timestamp a).

(** The state after a refresh: the views are those of the tables. *)
Definition refreshed (t : Tables) : Tables :=
  set_function_daily (function_daily t) (set_project_daily (project_daily t) t).

Lemma project_total t (F : ProjectDay → bool) (P : Analysis → bool) (Q : string → Z → bool) chain f g :
  (f, g) ∈ measures → (∀ p, F p = (pd_chain p =? chain) && Q (pd_slug p) (pd_day p)) →
  (∀ a, P a = Q (an_slug a) (an_day a)) →
  zsum f (pd_row <$> List.filter F (project_days (refreshed t))) = total g P chain (refreshed t).
Proof.
  intros Hfg HF HP. rewrite (List.filter_ext _ _ HF). unfold total. change (counted_rows (refreshed t)) with (counted_rows t).
  etrans; [exact (project_days_sum t (λ k, (k.1.1 =? chain) && Q k.1.2 k.2) f g Hfg)|].
  f_equal. apply filter_iff_in. intros r _. by rewrite HP.
Qed.

Lemma function_total t (F : FunctionDay → bool) (P : Analysis → bool) (Q : Z → list Z → Z → bool) chain f g :
  (f, g) ∈ measures → (∀ p, F p = (fd_chain p =? chain) && Q (fd_to p) (fd_selector p) (fd_day p)) →
  (∀ a, P a = Q (an_to a) (an_selector a) (an_day a)) →
  zsum f (fd_row <$> List.filter F (function_days (refreshed t))) = total g P chain (refreshed t).
Proof.
  intros Hfg HF HP. rewrite (List.filter_ext _ _ HF). unfold total. change (counted_rows (refreshed t)) with (counted_rows t).
  etrans; [exact (function_days_sum t (λ k, (k.1.1.1.1 =? chain) && Q k.1.1.1.2 k.1.1.2 k.2) f g Hfg)|].
  f_equal. apply filter_iff_in. intros r _. by rewrite HP.
Qed.

(** The transactions and the wei saved shown are those of the chain's analyses with a property. *)
Definition counts (tx_count : option Z) (wei_saved : option BigDecimal) (P : Analysis → bool) (chain : Z)
    (t : Tables) : Prop :=
  tx_count = Some (total (λ _, 1) P chain t) ∧ wei_saved = Some (decimal_of_Z (total an_wei_saved P chain t)).

Lemma tx_measure : (dy_tx_count, λ _, 1) ∈ measures.
Proof. unfold measures. rewrite elem_of_cons. by left. Qed.
Lemma wei_measure : (dy_wei_saved_total, an_wei_saved) ∈ measures.
Proof. unfold measures. rewrite !elem_of_cons. do 3 right. by left. Qed.

(** C38: once the views are refreshed, the totals of the overview and of the pages of a project, a contract and
    a function count each analysis of theirs once, in the window and from the data floor on: those that
    save gas and left no opcode out, and no others. *)
Theorem totals_count_analyses (s s1 : DbState W) floor chain window :
  refresh_rollups s = (Ok tt, s1) →
  let t := db_tables s1 in
  let within now a := in_window now window (an_day a) && floor_day floor (an_day a) in
  (∀ v s2, overview_totals floor chain window s1 = (Ok v, s2) →
    ∃ now, (reach (db_conn s1)).1 = inl now ∧
      counts (ot_tx_count v) (ot_wei_saved v) (within now) chain t) ∧
  (∀ slug v s2, project_totals floor chain slug window s1 = (Ok v, s2) →
    ∃ now, (reach (db_conn s1)).1 = inl now ∧
      counts (et_tx_count v) (et_wei_saved v) (λ a, bool_decide (an_slug a = slug) && within now a) chain t) ∧
  (∀ address v s2, contract_totals floor chain address window s1 = (Ok v, s2) →
    ∃ now, (reach (db_conn s1)).1 = inl now ∧
      counts (et_tx_count v) (et_wei_saved v) (λ a, (an_to a =? be_to_Z address) && within now a) chain t) ∧
  (∀ address selector v s2, function_totals floor chain address selector window s1 = (Ok v, s2) →
    ∃ now, (reach (db_conn s1)).1 = inl now ∧
      counts (et_tx_count v) (et_wei_saved v) (λ a, (an_to a =? be_to_Z address) &&
        bool_decide (an_selector a = selector) && within now a) chain t).
Proof.
  intros Hrun%refresh_rollups_run t within. fold (refreshed (db_tables s)) in Hrun. fold t in Hrun.
  split; [|split; [|split]].
  - intros v s2 (now & Hnow & Hv & _)%asked_run. exists now. split; [exact Hnow|]. fold t in Hv.
    injection Hv as <-. unfold counts; cbn [ot_tx_count ot_wei_saved]. unfold sum_wei. rewrite Hrun.
    split; f_equal; [|f_equal]; apply (project_total _ _ _ (λ _ day, in_window now window day && floor_day floor day));
      first [apply tx_measure|apply wei_measure|intros p; by rewrite andb_assoc|done].
  - intros slug v s2 (now & Hnow & Hv & _)%asked_run. exists now. split; [exact Hnow|]. fold t in Hv.
    apply checked_Ok in Hv as [_ Hv]. injection Hv as <-. unfold counts; cbn [et_tx_count et_wei_saved].
    unfold sum_wei. rewrite Hrun.
    split; f_equal; [|f_equal]; apply (project_total _ _ _ (λ s day, bool_decide (s = slug) && (in_window now window day && floor_day floor day)));
      first [apply tx_measure|apply wei_measure|intros p; by rewrite !andb_assoc|done].
  - intros address v s2 (now & Hnow & Hv & _)%asked_run. exists now. split; [exact Hnow|]. fold t in Hv.
    injection Hv as <-. unfold counts; cbn [et_tx_count et_wei_saved]. unfold sum_wei. rewrite Hrun.
    split; f_equal; [|f_equal]; apply (function_total _ _ _ (λ to _ day, (to =? be_to_Z address) && (in_window now window day && floor_day floor day)));
      first [apply tx_measure|apply wei_measure|intros p; by rewrite !andb_assoc|done].
  - intros address selector v s2 (now & Hnow & Hv & _)%asked_run. exists now. split; [exact Hnow|]. fold t in Hv.
    injection Hv as <-. unfold counts; cbn [et_tx_count et_wei_saved]. unfold sum_wei. rewrite Hrun.
    split; f_equal; [|f_equal]; apply (function_total _ _ _ (λ to sel day, (to =? be_to_Z address) && bool_decide (sel = selector) && (in_window now window day && floor_day floor day)));
      first [apply tx_measure|apply wei_measure|intros p; by rewrite !andb_assoc|done].
Qed.
End totals.

(** ** The blacklist *)

Section blacklist.
Context {W : Type} `{Numeric, Dates, !Aggregates, Connection W}.

Definition removes (req : Request) (key : Z * Z * list Z) : Prop :=
  match req with RBlacklistRemove chain a selector => exclusion_key chain a selector = key | _ => False end.

(** A key stays excluded, as far as it was. *)
Definition stays_excluded (key : Z * Z * list Z) (t t' : Tables) : Prop :=
  ∀ x, tb_exclusion t !! key = Some x →
    ∃ x', tb_exclusion t' !! key = Some x' ∧ ex_selector x' = ex_selector x.

Lemma stays_same key t t' : tb_exclusion t' = tb_exclusion t → stays_excluded key t t'.
Proof. intros Heq x Hx. rewrite Heq. eauto. Qed.
Lemma stays_trans key t u v : stays_excluded key t u → stays_excluded key u v → stays_excluded key t v.
Proof. intros H1' H2' x (y & Hy & Hxy)%H1'. apply H2' in Hy as (z & Hz & Hyz). exists z. split; congruence. Qed.

Ltac inv_checks Hq :=
  cbv zeta in Hq; repeat (apply checked_Ok in Hq as [_ Hq]); try apply pair_Ok in Hq as [_ <-].

Lemma perform_excluded req key (s : DbState W) :
  ¬ removes req key → stays_excluded key (db_tables s) (db_tables (perform req s)).
Proof.
  intros Hno. pose (R := stays_excluded key). change (R (db_tables s) (db_tables (perform req s))).
  assert (∀ t, R t t) as Hrefl by (intros t; by apply stays_same).
  destruct req; cbn [perform].
  - unfold insert_analysis. do 3 (apply (eff_res_bind_relates R); [done|intros ? _]).
    apply (execute_relates R); [done|]. intros now t [] t' Hq. inv_checks Hq. apply stays_same. by case_match.
  - apply (execute_relates R); [done|]. intros now t [] t' Hq. inv_checks Hq. by apply stays_same.
  - apply (execute_relates R); [done|]. intros now t [] t' Hq. cbv zeta in Hq.
    apply checked_Ok in Hq as [_ Hq]. case_match; inv_checks Hq; by apply stays_same.
  - apply (execute_relates R); [done|]. intros now t [] t' Hq. inv_checks Hq. by apply stays_same.
  - apply (execute_relates R); [done|]. intros now t b t' Hq. cbv zeta in Hq.
    apply checked_Ok in Hq as [_ Hq]. case_match; inv_checks Hq; by apply stays_same.
  - apply (execute_relates R); [done|]. intros now t [] t' Hq. destruct (numeric_20_8 price); [|done].
    inv_checks Hq. by apply stays_same.
  - apply (execute_relates R); [done|]. intros now t n t' Hq. inv_checks Hq. by apply stays_same.
  - apply (execute_relates R); [done|]. intros now t [] t' Hq. inv_checks Hq. by apply stays_same.
  - apply (execute_relates R); [done|]. intros now t [] t' Hq. inv_checks Hq. by apply stays_same.
  - apply (execute_relates R); [done|]. intros now t [] t' Hq. inv_checks Hq. by apply stays_same.
  - apply (execute_relates R); [done|]. intros now t b t' Hq. cbv zeta in Hq.
    apply checked_Ok in Hq as [_ Hq]. case_match; inv_checks Hq; by apply stays_same.
  - apply (execute_relates R); [done|]. intros now t [] t' Hq. inv_checks Hq. intros x Hx. cbn.
    destruct (decide (exclusion_key chain_id address selector = key)) as [Heq|Hne].
    + rewrite Heq, lookup_insert_eq. eexists. split; [done|]. cbn. by rewrite Hx.
    + rewrite lookup_insert_ne by done. eauto.
  - apply (execute_relates R); [done|]. intros now t b t' Hq. inv_checks Hq. intros x Hx. cbn.
    rewrite lookup_delete_ne; [by eauto|exact Hno].
  - unfold refresh_rollups. apply (bind_relates R); [apply stays_trans|..];
      [|intros [] s']; (apply (execute_relates R); [done|]); intros now t [] t' Hq; inv_checks Hq; by apply stays_same.
Qed.

Lemma serve_excluded reqs key (s : DbState W) :
  (∀ req, req ∈ reqs → ¬ removes req key) → stays_excluded key (db_tables s) (db_tables (serve reqs s)).
Proof.
  unfold serve. induction reqs as [|req reqs IH] using rev_ind; intros Hno; [by apply stays_same|].
  rewrite fold_left_app. eapply stays_trans.
  - apply IH. intros r Hr. apply Hno, elem_of_app. by left.
  - apply perform_excluded, Hno, elem_of_app. right. by left.
Qed.

(** ** Addresses

    A column of addresses holds 20 bytes: of a report the receiver has its type's width, and so have all that
    are stored. *)

Definition request_typed (req : Request) : Prop :=
  match req with RInsertAnalysis report _ => is_address (ar_to report) | _ => True end.

Record addressed (t : Tables) : Prop := {
  analysis_addressed k a : tb_analysis t !! k = Some a → is_address (an_to a);
  view_addressed k r : tb_function_daily t !! k = Some r → is_address k.1.1.1.2
}.

Lemma addressed_same t t' :
  tb_analysis t' = tb_analysis t → tb_function_daily t' = tb_function_daily t → addressed t → addressed t'.
Proof. intros Ha Hf []. split; by rewrite ?Ha, ?Hf. Qed.

Lemma addressed_analysis t m :
  addressed t → (∀ k a, m !! k = Some a → is_address (an_to a)) → addressed (set_analysis m t).
Proof. intros [] Hm. by split. Qed.

Lemma relabel_row_to t k a : an_to (relabel_row t k a) = an_to a.
Proof. unfold relabel_row. by destruct (new_slug t k a). Qed.

(** A day of a function is one of an analysis of its contract. *)
Lemma function_daily_addressed t k r :
  addressed t → function_daily t !! k = Some r → is_address k.1.1.1.2.
Proof.
  intros [Ha _]. unfold function_daily. rewrite map_lookup_imap, group_by_lookup.
  destruct (filter (λ p, function_day p = k) (counted_rows t)) as [|p l] eqn:Hf; [done|]. intros _.
  assert (p ∈ filter (λ p, function_day p = k) (counted_rows t)) as Hp by (rewrite Hf; by left).
  apply list_elem_of_filter in Hp as [<- Hp]. unfold counted_rows in Hp.
  apply list_elem_of_fmap in Hp as ([key a] & -> & Hp).
  apply list_elem_of_filter in Hp as [_ Hp%elem_of_map_to_list]. cbn. by eapply Ha.
Qed.

Lemma perform_addressed req (s : DbState W) :
  request_typed req → addressed (db_tables s) → addressed (db_tables (perform req s)).
Proof.
  intros Hreq. pose (R := λ t t', addressed t → addressed t').
  assert (∀ t, R t t) as Hrefl by (intros t Ht; exact Ht). change (R (db_tables s) (db_tables (perform req s))).
  destruct req; cbn [perform].
  - unfold insert_analysis. do 3 (apply (eff_res_bind_relates R); [done|intros ? _]).
    apply (execute_relates R); [done|]. intros now t [] t' Hq. inv_checks Hq. intros Ht. case_match; [done|].
    apply addressed_analysis; [done|].
    intros k x [[<- <-]|[_ Hx]]%lookup_insert_Some; [exact Hreq|by eapply analysis_addressed].
  - apply (execute_relates R); [done|]. intros now t [] t' Hq. inv_checks Hq. by intros ?; apply (addressed_same t).
  - apply (execute_relates R); [done|]. intros now t [] t' Hq. cbv zeta in Hq.
    apply checked_Ok in Hq as [_ Hq]. case_match; inv_checks Hq; by intros ?; apply (addressed_same t).
  - apply (execute_relates R); [done|]. intros now t [] t' Hq. inv_checks Hq. by intros ?; apply (addressed_same t).
  - apply (execute_relates R); [done|]. intros now t b t' Hq. cbv zeta in Hq.
    apply checked_Ok in Hq as [_ Hq]. case_match; inv_checks Hq; by intros ?; apply (addressed_same t).
  - apply (execute_relates R); [done|]. intros now t [] t' Hq. destruct (numeric_20_8 price); [|done].
    inv_checks Hq. by intros ?; apply (addressed_same t).
  - apply (execute_relates R); [done|]. intros now t n t' Hq. inv_checks Hq. intros Ht.
    apply addressed_analysis; [done|]. intros k x. rewrite map_lookup_imap.
    destruct (tb_analysis t !! k) as [a|] eqn:Ha; [|done]. intros [= <-]. rewrite relabel_row_to.
    by eapply analysis_addressed.
  - apply (execute_relates R); [done|]. intros now t [] t' Hq. inv_checks Hq. by intros ?; apply (addressed_same t).
  - apply (execute_relates R); [done|]. intros now t [] t' Hq. inv_checks Hq. by intros ?; apply (addressed_same t).
  - apply (execute_relates R); [done|]. intros now t [] t' Hq. inv_checks Hq. by intros ?; apply (addressed_same t).
  - apply (execute_relates R); [done|]. intros now t b t' Hq. cbv zeta in Hq.
    apply checked_Ok in Hq as [_ Hq]. case_match; inv_checks Hq; by intros ?; apply (addressed_same t).
  - apply (execute_relates R); [done|]. intros now t [] t' Hq. inv_checks Hq. by intros ?; apply (addressed_same t).
  - apply (execute_relates R); [done|]. intros now t b t' Hq. inv_checks Hq. by intros ?; apply (addressed_same t).
  - unfold refresh_rollups. apply (bind_relates R); [by intros t u v Htu Huv Ht; apply Huv, Htu|..];
      [|intros [] s']; (apply (execute_relates R); [done|]); intros now t [] t' Hq; inv_checks Hq;
      [by intros ?; apply (addressed_same t)|].
    intros Ht. split; cbn; [by apply analysis_addressed|]. intros k r. by apply function_daily_addressed.
Qed.

Lemma serve_addressed reqs (s : DbState W) :
  Forall request_typed reqs → addressed (db_tables s) → addressed (db_tables (serve reqs s)).
Proof.
  unfold serve. induction reqs as [|req reqs IH] using rev_ind; [done|].
  rewrite Forall_app, Forall_singleton, fold_left_app. intros [Hreqs Hreq] Hs.
  exact (perform_addressed req _ Hreq (IH Hreqs Hs)).
Qed.

Lemma empty_addressed : addressed empty_tables.
Proof. by split; intros ??. Qed.

(** An address is read off its bytes. *)
Lemma be_bytes_address a b : is_address a → is_address b → be_bytes 20 a = be_bytes 20 b → a = b.
Proof.
  intros Ha Hb Heq. rewrite <-(be_to_Z_be_bytes_small 20 a), <-(be_to_Z_be_bytes_small 20 b), Heq; [done|..];
    unfold is_address in *; change (256 ^ Z.of_nat 20) with (2 ^ 160); lia.
Qed.

(** Where a row of a ranking comes from. *)
Lemma page_elem {A} limit offset (rows : list A) x : x ∈ page_rows limit offset rows → x ∈ rows.
Proof.
  unfold page_rows, limit_rows. intros (i & Hi & _)%elem_of_take. rewrite lookup_drop in Hi.
  by eapply list_elem_of_lookup_2.
Qed.

Lemma group_by_member `{Countable K} {V} (key : V → K) rows k l :
  (k, l) ∈ map_to_list (group_by key rows) → ∃ r, r ∈ rows ∧ key r = k.
Proof.
  intros Hkl%elem_of_map_to_list. rewrite group_by_lookup in Hkl.
  destruct (filter (λ r, key r = k) rows) as [|r l'] eqn:Hf; [done|].
  assert (r ∈ filter (λ r, key r = k) rows) as Hr by (rewrite Hf; by left).
  apply list_elem_of_filter in Hr as [Hk Hr]. eauto.
Qed.

Lemma ranked_member {K A} `{Countable K} {V} (key : V → K) (view : K * list V → Z * A) limit offset rows x :
  x ∈ (page_rows limit offset (merge_sort (desc fst) (view <$> map_to_list (group_by key rows)))).*2 →
  ∃ k l r, x = (view (k, l)).2 ∧ r ∈ rows ∧ key r = k.
Proof.
  rewrite list_elem_of_fmap. intros (y & -> & Hy%page_elem). rewrite merge_sort_Permutation in Hy.
  apply list_elem_of_fmap in Hy as ([k l] & -> & Hkl). destruct (group_by_member _ _ _ _ Hkl) as (r & Hr & Hk).
  eauto 6.
Qed.

Lemma shown_function_addressed t floor chain now p :
  addressed t → p ∈ shown_functions t floor chain now → is_address (fd_to p).
Proof.
  intros [_ Hv]. unfold shown_functions. rewrite filter_bool. intros [_ Hp]%list_elem_of_filter.
  unfold function_days in Hp. apply list_elem_of_fmap in Hp as ([k r] & -> & Hk%elem_of_map_to_list).
  apply Hv in Hk. by destruct k as [[[[chain' to] sel] slug] day].
Qed.

Lemma shown_function_allowed t floor chain now p :
  p ∈ shown_functions t floor chain now → excluded t chain (fd_to p) (fd_selector p) = false.
Proof.
  unfold shown_functions. rewrite filter_bool. intros [Hp _]%list_elem_of_filter.
  rewrite !andb_True in Hp. destruct Hp as [_ Hp]. by destruct (excluded _ _ _ _).
Qed.

(** A function that an exclusion is about. *)
Lemma excluded_hit t chain a selector x sel :
  tb_exclusion t !! (chain, a, default [] selector) = Some x → ex_selector x = selector →
  (selector = None ∨ selector = Some sel) → excluded t chain a sel = true.
Proof.
  intros Hx Hsel Hhit. unfold excluded. destruct Hhit as [->| ->]; cbn in Hx; rewrite Hx; cbn; rewrite Hsel.
  - by rewrite bool_decide_eq_true_2.
  - rewrite (bool_decide_eq_true_2 (Some sel = Some sel)) by done. by rewrite !orb_true_r.
Qed.

(** C39: a contract that was put on the blacklist, or one function of it, is in no later ranking of functions:
    no row has its address and a function it is about; and a whole contract is in none of contracts: no row has
    its address; under any floor, limit and offset, whatever the store did in between but taking it off the
    blacklist. Addresses are of 20 bytes, those stored before and those of the reports stored since. *)
Theorem blacklist_hides (s s1 : DbState W) chain_id a selector reason by_ reqs :
  is_address a → addressed (db_tables s) → Forall request_typed reqs →
  (∀ x, tb_exclusion (db_tables s) !! exclusion_key chain_id a selector = Some x → ex_selector x = selector) →
  blacklist_add chain_id a selector reason by_ s = (Ok tt, s1) →
  (∀ req, req ∈ reqs → ¬ removes req (exclusion_key chain_id a selector)) →
  (∀ floor limit offset rows s2,
    leaderboard_functions_30d floor (i64_wrap chain_id) limit offset (serve reqs s1) = (Ok rows, s2) →
    Forall (λ r, ¬ (fl_to_address r = be_bytes 20 a ∧
      (selector = None ∨ selector = Some (fl_function_selector r)))) rows) ∧
  (∀ floor limit offset rows s2, selector = None →
    leaderboard_contracts_30d floor (i64_wrap chain_id) limit offset (serve reqs s1) = (Ok rows, s2) →
    Forall (λ r, cl_to_address r ≠ be_bytes 20 a) rows).
Proof.
  intros Haddr Hs Htyped Hold Hadd Hreqs.
  pose proof (perform_addressed (RBlacklistAdd chain_id a selector reason by_) s I Hs) as Hs1.
  cbn [perform] in Hs1. rewrite Hadd in Hs1. cbn [snd] in Hs1.
  pose proof (serve_addressed reqs s1 Htyped Hs1) as Ht. clear Hs Hs1.
  assert (∃ x, tb_exclusion (db_tables (serve reqs s1)) !! (i64_wrap chain_id, a, default [] selector) = Some x ∧
    ex_selector x = selector) as (x & Hx & Hsel).
  { apply execute_run in Hadd as [(now & [] & Hq & _)|[_ []]]. cbv zeta in Hq.
    apply checked_Ok in Hq as [_ Hq]. apply pair_Ok in Hq as [_ Hq].
    set (key := exclusion_key chain_id a selector) in *.
    destruct (serve_excluded reqs key s1 Hreqs (mkExclusion
      (match tb_exclusion (db_tables s) !! key with Some row => ex_selector row | None => selector end)
      reason by_ now)) as (x & Hx & Hsel).
    { rewrite <-Hq. cbn. apply lookup_insert_eq. }
    exists x. split; [exact Hx|]. rewrite Hsel. cbn. case_match eqn:Hrow; [by apply Hold|done]. }
  set (t := db_tables (serve reqs s1)) in *.
  assert (∀ floor now p, p ∈ shown_functions t floor (i64_wrap chain_id) now →
    ¬ (be_bytes 20 (fd_to p) = be_bytes 20 a ∧ (selector = None ∨ selector = Some (fd_selector p)))) as Hshown.
  { intros floor now p Hp [Heq Hhit]. pose proof (shown_function_addressed _ _ _ _ _ Ht Hp) as Hto.
    apply be_bytes_address in Heq as <-; [|done..]. apply shown_function_allowed in Hp.
    by rewrite (excluded_hit _ _ _ _ _ _ Hx Hsel Hhit) in Hp. }
  split; intros floor limit offset rows s2;
    [intros (now & _ & Hq & _)%asked_run|intros Hnone (now & _ & Hq & _)%asked_run]; fold t in Hq;
    cbv zeta in Hq; do 2 apply checked_Ok in Hq as [_ Hq]; injection Hq as <-;
    apply Forall_forall; intros r Hr; apply ranked_member in Hr as (k & l & p & -> & Hp & <-);
    cbn; specialize (Hshown floor now p Hp); [exact Hshown|tauto].
Qed.
End blacklist.

(** ** The sample database, shown *)

#[local] Existing Instances sample_decimals sample_numeric sample_connection.
#[local] Instance sample_dates : Dates :=
  {| Date := Z; parse_date _ := None; parse_ymd _ := None; date_text _ := ""%string |}.
#[local] Instance sample_aggregates : Aggregates := {|
  decimal_of_Z z := z;
  decimal_sum l := fold_right Z.add 0 l;
  decimal_mean_f64 _ := None;
  decimal_le := Z.leb;
  date_of_day d := d;
  day_of_date d := d
|}.

Lemma totals_count_analyses_witness :
  ∃ s1 v s2, refresh_rollups sample_db = (Ok tt, s1) ∧ overview_totals None 1 Lifetime s1 = (Ok v, s2) ∧
    ot_tx_count v = Some 3 ∧
    ∃ now, ot_wei_saved v = Some (total an_wei_saved
      (λ a, in_window now Lifetime (an_day a) && floor_day None (an_day a)) 1 (db_tables s1)).
Proof.
  assert (Hrun : (refresh_rollups sample_db).1 = Ok tt) by (vm_compute; reflexivity).
  apply run_answer in Hrun. set (s1 := (refresh_rollups sample_db).2) in *.
  assert (Hv : ∃ v, (overview_totals None 1 Lifetime s1).1 = Ok v ∧ ot_tx_count v = Some 3)
    by (eexists; split; [vm_compute; reflexivity|reflexivity]).
  destruct Hv as (v & Hv & Htx). apply run_answer in Hv.
  exists s1, v, (overview_totals None 1 Lifetime s1).2.
  split; [exact Hrun|]. split; [exact Hv|]. split; [exact Htx|].
  destruct (proj1 (totals_count_analyses _ _ None 1 Lifetime Hrun) _ _ Hv) as (now & _ & _ & Hwei).
  exists now. exact Hwei.
Defined.

Lemma sample_db_addressed : addressed (db_tables sample_db).
Proof.
  apply serve_addressed; [|apply empty_addressed]. repeat constructor; unfold is_address; cbn; lia.
Qed.

(** Contract 6 is excluded, and only contract 5 is ranked. *)
Lemma blacklist_hides_witness :
  ∃ s1 rows s2, blacklist_add 1 6 None "spam" "root" sample_db = (Ok tt, s1) ∧
    leaderboard_contracts_30d None 1 50 0 (serve [RRefreshRollups] s1) = (Ok rows, s2) ∧
    length rows = 1%nat ∧ Forall (λ r, cl_to_address r ≠ be_bytes 20 6) rows.
Proof.
  assert (Hadd : (blacklist_add 1 6 None "spam" "root" sample_db).1 = Ok tt) by (vm_compute; reflexivity).
  apply run_answer in Hadd. set (s1 := (blacklist_add 1 6 None "spam" "root" sample_db).2) in *.
  assert (Hrows : ∃ rows, (leaderboard_contracts_30d None 1 50 0 (serve [RRefreshRollups] s1)).1 = Ok rows ∧
    length rows = 1%nat) by (eexists; split; [vm_compute; reflexivity|reflexivity]).
  destruct Hrows as (rows & Hrows & Hlen). apply run_answer in Hrows.
  exists s1, rows, (leaderboard_contracts_30d None 1 50 0 (serve [RRefreshRollups] s1)).2.
  split; [exact Hadd|]. split; [exact Hrows|]. split; [exact Hlen|].
  refine (proj2 (blacklist_hides sample_db s1 1 6 None "spam" "root" [RRefreshRollups] _ sample_db_addressed _ _
    Hadd _) None 50 0 rows _ eq_refl Hrows).
  - unfold is_address. lia.
  - repeat constructor.
  - intros x Hx. vm_compute in Hx. discriminate Hx.
  - intros req Hreq. apply list_elem_of_singleton in Hreq as ->. exact (λ f, f).
Defined.

(** Two analyses of two functions on one day: the organization's ranking counts four. *)
Definition sample_org_db : DbState Z := serve
  [ROrgUpsert "lido-dao" "Lido DAO"; RUpsertProject (mkProject "lido" "Lido" None None None);
   RAssignOrg "lido" (Some "lido-dao"%string); RInsertAnalysis (sample_report 0 5 30000) "lido";
   RInsertAnalysis (sample_report 1 6 30000) "lido"; RRefreshRollups] (mkDb 0 empty_tables).

Example org_counts_twice :
  (match (leaderboard_orgs_30d None 1 50 0 sample_org_db).1 with
   | Ok [r] => ol_tx_count r
   | _ => None
   end) = Some 4 ∧ total (λ _, 1) (λ a, an_slug a =? "lido")%string 1 (db_tables sample_org_db) = 2.
Proof. split; vm_compute; reflexivity. Qed.
