(* ===== verification/DbWorld.v ===== *)
(** * The world with the database in it

    What the service and the dashboard are written against ([Labeler], [Refresher], [Jobs], [Resolver], [Service],
    [Web], [Pages], [Admin], [Diagnose]), on a world that has the tables of [Database] beside the rest: the
    statements of the store and the queries are those of [Database] and [Queries], everything else happens
    outside the database. A computation [respects] a relation if it leaves the tables related to what they were.
    The relation [runs P], the tables before and after any run of the store's statements that satisfy [P], is
    respected by what is composed of such statements, of queries, and of what happens outside the database; what
    holds of every statement ([DatabaseSpec]) then holds of the whole. *)

From Stdlib Require Import SpecFloat.
From S2P Require Import Prelude.
From S2P Require Import Types.
From S2P Require Import Trace.
From S2P Require Import Effects.
From S2P Require Import Analyze.
From S2P Require Import Jobs.
From S2P Require Import Resolver.
From S2P Require Import Labeler.
From S2P Require Import Refresher.
From S2P Require Import Service.
From S2P Require Import Web.
From S2P Require Import Diagnose.
From S2P Require Import Pages.
From S2P Require Import Admin.
From S2P Require Import Database.
From S2P Require Import DatabaseSpec.
From S2P Require Import Queries.

(** ** Outside the database *)

(** What else the dashboard asks of Redis and the clock. *)
Class DashboardWorld (W : Type) := {
  counter_text : string → Eff string W (option Z);
  event_stream : string → nat → Eff string W (list (string * list (string * string)));
  now_text : W → string * W;
  now_nanoseconds : W → Z * W
}.

(** The deadline of an analysis, and the texts of its errors. *)
Class WorkerWorld (W : Type) := {
  timeout : Z → Eff AnalyzerError W AnalysisReport → Eff AnalyzerError W (option AnalysisReport);
  analyzer_error_text : AnalyzerError → string
}.

Section world.
Context {W : Type} `{Numeric, Connection W}.

Definition outside {E A} (m : Eff E W A) : Eff E (DbState W) A :=
  zoom db_conn (λ w s, mkDb w (db_tables s)) m.
Definition outside_total {A} (m : W → A * W) (s : DbState W) : A * DbState W :=
  let '(a, w) := m (db_conn s) in (a, mkDb w (db_tables s)).

#[export] Instance database_explorers `{Explorers W} : Explorers (DbState W) := {|
  Value := Value;
  value_as_str := value_as_str;
  value_rows := value_rows;
  get_sourcecode chain a := outside (get_sourcecode chain a);
  get_address_page a := outside (get_address_page a)
|}.
#[export] Instance database_fourbyte `{FourByte W} : FourByte (DbState W) := {|
  get_signatures selector := outside (get_signatures selector)
|}.
#[export] Instance database_sources `{Sources W} : Sources (DbState W) := {|
  read_overlay path := outside (read_overlay path);
  fetch_protocols url := outside (fetch_protocols url)
|}.
#[export] Instance database_sorted_set `{SortedSet W} : SortedSet (DbState W) := {|
  Score := Score;
  bd_to_f64 := bd_to_f64;
  zadd key member score := outside (zadd key member score);
  zcard key := outside (zcard key);
  zpopmax key n := outside (zpopmax key n)
|}.
#[export] Instance database_queue `{QueueServer W} : QueueServer (DbState W) := {|
  rpush key payload := outside (rpush key payload);
  llen key := outside (llen key);
  blpop key secs := outside (blpop key secs);
  incr_by key n := outside (incr_by key n);
  set_ex key v secs := outside (set_ex key v secs);
  job_to_vec := job_to_vec;
  job_from_slice := job_from_slice;
  dead_to_vec := dead_to_vec;
  timestamp := outside_total timestamp
|}.
#[export] Instance database_price_api `{PriceApi W} : PriceApi (DbState W) := {|
  HttpClient := HttpClient;
  HttpResponse := HttpResponse;
  build_client secs agent := outside (build_client secs agent);
  get_ok client url := outside (get_ok client url);
  json_usd resp := outside (json_usd resp);
  json_prices resp := outside (json_prices resp);
  utc_today := outside_total utc_today
|}.
#[export] Instance database_node `{Node W} : Node (DbState W) := {|
  get_block_number := outside get_block_number;
  get_transaction_receipt tx := outside (get_transaction_receipt tx);
  get_transaction_by_hash tx := outside (get_transaction_by_hash tx);
  get_block_by_number n := outside (get_block_by_number n);
  debug_trace_transaction tx := outside (debug_trace_transaction tx);
  lower := lower;
  failure_text := failure_text
|}.
#[export] Instance database_sketch `{Sketch W} : Sketch (DbState W) := {|
  sketch := sketch;
  build_sketch n := outside (build_sketch n);
  estimate_state_changes_gas_with_preceding k to from updates preceding tx :=
    outside (estimate_state_changes_gas_with_preceding k to from updates preceding tx)
|}.
#[export] Instance database_analyzer `{Analyzer W} : Analyzer (DbState W) := {|
  analyze tx := outside (analyze tx)
|}.
#[export] Instance database_settings `{Settings W} : Settings (DbState W) := {|
  redis_get key := outside (redis_get key);
  redis_set key v := outside (redis_set key v)
|}.
#[export] Instance database_llm `{LlmApi W} : LlmApi (DbState W) := {|
  LlmHttpResponse := LlmHttpResponse;
  post_chat url key req := outside (post_chat url key req);
  response_status := response_status;
  response_text resp := outside (response_text resp);
  response_json resp := outside (response_json resp)
|}.
#[export] Instance database_connections `{Connections W} : Connections (DbState W) := {|
  store_connect url size := outside (store_connect url size);
  store_migrate := outside store_migrate;
  redis_connect url := outside (redis_connect url)
|}.
#[export] Instance database_clients `{Clients W} : Clients (DbState W) := {|
  etherscan_new := outside etherscan_new;
  blockscout_new url := outside (blockscout_new url);
  fourbyte_new := outside fourbyte_new;
  read_names path := outside (read_names path)
|}.
#[export] Instance database_clock `{Clock W} : Clock (DbState W) := {| instant_now := outside_total instant_now |}.

(** ** The store *)

#[export] Instance database_store : Store (DbState W) := {|
  Labeler.top_unknown_addresses chain limit days := shown (top_unknown_addresses chain limit days);
  Labeler.upsert_label_attempt chain a result name slug := shown (upsert_label_attempt chain a result name slug);
  Labeler.upsert_project p := shown (upsert_project p);
  Labeler.upsert_address_project chain a slug := shown (upsert_address_project chain a slug);
  Labeler.relabel_unknowns := shown relabel_unknowns;
  Labeler.unresolved_selectors chain limit := shown (unresolved_selectors chain limit);
  Labeler.upsert_function_selector selector name sig all source :=
    shown (upsert_function_selector selector name sig all source)
|}.
#[export] Instance database_prices : PriceStore (DbState W) := {|
  Refresher.upsert_eth_price day price := shown (upsert_eth_price day price);
  Refresher.list_eth_price_days := shown list_eth_price_days;
  Refresher.refresh_rollups := shown refresh_rollups
|}.

(** The worker's: its resolver's names are those it started with. An analysis runs outside the database, and
    so does what is left of it when its time is up. *)
Definition database_backend `{WorkerWorld W} (names : ResolverSnapshot) : Backend (DbState W) := {|
  Jobs.project := ProjectInfo;
  project_slug := pi_slug;
  Jobs.resolve chain a s := (Resolver.resolve (mkResolverWorld tt names) chain a, s);
  Jobs.insert_analysis report slug := shown (insert_analysis report slug);
  Jobs.upsert_project p := shown (upsert_project p);
  Jobs.upsert_address_project chain a slug := shown (upsert_address_project chain a slug);
  with_timeout secs m := λ s,
    let analysis w := let '(r, s') := m (mkDb w (db_tables s)) in (r, db_conn s') in
    let '(r, w) := timeout secs analysis (db_conn s) in (r, mkDb w (db_tables s));
  error_text := analyzer_error_text
|}.
End world.

(** ** The dashboard's queries *)

(** What the lists of transactions, which are texts, read of the tables. *)
Class ListTexts `{Numeric, Dates} := {
  list_text : Z → Tables → string * list Bind → Res string (list RecentTxRow)
}.

Section dashboard.
Context {W : Type} `{Numeric, Dates, !Aggregates, !ListTexts, Connection W, DashboardWorld W}.

#[export] Instance dashboard_reports : Reports (DbState W) :=
  database_reports (λ text, Queries.ask (λ now t, list_text now t text)) (outside_total now_nanoseconds).
#[export] Instance dashboard_admin : AdminQueries (DbState W) := database_admin.
#[export] Instance dashboard_health : HealthQueries (DbState W) := database_health.
#[export] Instance dashboard_monitor : Monitor (DbState W) :=
  database_monitor (λ key, outside (counter_text key)) (λ key n, outside (event_stream key n))
    (outside_total now_text).
#[export] Instance dashboard_web : WebStore (DbState W) := database_web.
End dashboard.

(** ** Computations that respect a relation *)

Section respects.
Context {S V : Type} (view : S → V) (R : relation V) `{!PreOrder R}.

Definition respects {E A} (m : Eff E S A) : Prop := ∀ s, R (view s) (view (m s).2).

Lemma respects_same {E A} (m : Eff E S A) : (∀ s, view (m s).2 = view s) → respects m.
Proof. intros Hm s. by rewrite Hm. Qed.
Lemma respects_ret {E A} (a : A) : respects (mret a : Eff E S A).
Proof. by apply respects_same. Qed.
Lemma respects_res {E A} (r : Res E A) : respects (eff_res r).
Proof. by apply respects_same. Qed.
Lemma respects_total {E A} (f : S → A * S) : (∀ s, view (f s).2 = view s) → respects (eff_total (E := E) f).
Proof. intros Hf. apply respects_same. intros s. unfold eff_total. specialize (Hf s). by destruct (f s). Qed.
Lemma respects_bind {E A B} (m : Eff E S A) (f : A → Eff E S B) :
  respects m → (∀ a, respects (f a)) → respects (m ≫= f).
Proof.
  intros Hm Hf s. specialize (Hm s). unfold mbind, eff_bind. destruct (m s) as [[a|e|p] s1]; [|exact Hm..].
  etransitivity; [exact Hm|apply Hf].
Qed.
Lemma respects_bind_res {E A B} (r : Res E A) (f : A → Eff E S B) :
  (∀ a, r = Ok a → respects (f a)) → respects (eff_res r ≫= f).
Proof. intros Hf s. destruct r as [a|e|p]; [by apply Hf|done..]. Qed.
Lemma respects_map_err {E F A} (g : E → F) (m : Eff E S A) : respects m → respects (eff_map_err g m).
Proof. intros Hm s. specialize (Hm s). unfold eff_map_err. by destruct (m s). Qed.
Lemma respects_try {E F A} (m : Eff E S A) : respects m → respects (eff_try (F := F) m).
Proof. intros Hm s. specialize (Hm s). unfold eff_try. by destruct (m s) as [[] s1]. Qed.
Lemma respects_mapM {E A B} (f : A → Eff E S B) l : (∀ a, respects (f a)) → respects (mapM f l).
Proof.
  intros Hf. induction l as [|a l IH]; [apply respects_ret|]. cbn.
  apply respects_bind; [apply Hf|]. intros b. apply respects_bind; [exact IH|]. intros bs. apply respects_ret.
Qed.
End respects.

(** A part of a larger state, of which more is seen. *)
Lemma respects_zoom {S T V X E A} (view : S → V) (whole : T → X) R Q (part : T → S) update (m : Eff E S A) :
  (∀ s t, R (view (part t)) (view s) → Q (whole t) (whole (update s t))) →
  respects view R m → respects whole Q (zoom part update m).
Proof.
  intros Hlift Hm t. unfold zoom. specialize (Hm (part t)). destruct (m (part t)) as [r s]. by apply Hlift.
Qed.
Lemma respects_weaken {S V E A} (view : S → V) (R Q : V → V → Prop) (m : Eff E S A) :
  (∀ u v, R u v → Q u v) → respects view R m → respects view Q m.
Proof. intros HRQ Hm s. apply HRQ, Hm. Qed.

(** ** Runs of statements *)

Section runs.
Context {W : Type} `{Numeric, Connection W}.

Definition statement (P : Request → Prop) (t t' : Tables) : Prop :=
  ∃ (s : DbState W) req, P req ∧ t = db_tables s ∧ t' = db_tables (perform req s).
Definition runs (P : Request → Prop) : Tables → Tables → Prop := rtc (statement P).

#[export] Instance runs_preorder P : PreOrder (runs P).
Proof. apply rtc_po. Qed.
Lemma runs_weaken (P Q : Request → Prop) t t' : (∀ req, P req → Q req) → runs P t t' → runs Q t t'.
Proof. intros HPQ. apply rtc_subrel. intros u v (s & req & Hreq & Hu & Hv). exists s, req. auto. Qed.

(** A property of statements, of runs. *)
Lemma runs_inv (P : Request → Prop) (R : Tables → Tables → Prop) t t' :
  (∀ t, R t t) → (∀ t u v, R t u → R u v → R t v) →
  (∀ req (s : DbState W), P req → R (db_tables s) (db_tables (perform req s))) → runs P t t' → R t t'.
Proof.
  intros Hrefl Htrans Hstep. induction 1 as [|t u v (s & req & Hreq & -> & ->) _ IH]; [apply Hrefl|].
  eapply Htrans; [by apply Hstep|exact IH].
Qed.
Lemma runs_integrity P t t' : runs P t t' → integrity t → integrity t'.
Proof.
  apply (runs_inv P (λ t t', integrity t → integrity t')); [auto..|]. intros req s _. apply perform_integrity.
Qed.
Lemma runs_kept P t t' : runs P t t' → kept (λ k, ∃ req, P req ∧ touches req k) t t'.
Proof.
  apply runs_inv; [apply kept_refl|apply kept_trans|]. intros req s Hreq.
  eapply kept_weaken, perform_kept. eauto.
Qed.
Lemma runs_none t t' : runs (λ _, False) t t' → t' = t.
Proof. apply (runs_inv _ (λ t t', t' = t)); [done|congruence|]. by intros req s []. Qed.

(** A statement, as the store's user sees it. *)
Lemma shown_state {A} (m : Eff StoreError (DbState W) A) s : (shown m s).2 = (m s).2.
Proof. unfold shown, eff_map_err. by destruct (m s). Qed.

Lemma shown_run {A} (q : Statement A) (s s' : DbState W) r :
  shown (execute q) s = (r, s') →
  (∃ now a, q now (db_tables s) = Ok (a, db_tables s') ∧ r = Ok a) ∨
  (db_tables s' = db_tables s ∧ fails r).
Proof.
  intros Hrun. apply eff_map_err_run in Hrun as (r0 & Hrun & ->).
  apply execute_run in Hrun as [(now & a & Hq & -> & _)|[Ht Hf]]; [left; by eauto|right].
  split; [done|]. by apply map_err_fails.
Qed.

Lemma respects_statement {A} P req (m : Eff StoreError (DbState W) A) :
  P req → (∀ s, (m s).2 = perform req s) → respects db_tables (runs P) (shown m).
Proof.
  intros Hreq Hm s. rewrite shown_state, Hm. apply rtc_once. exists s, req. auto.
Qed.

(** The statements one by one. *)
Lemma insert_analysis_runs (P : Request → Prop) report slug :
  P (RInsertAnalysis report slug) → respects db_tables (runs P) (shown (insert_analysis report slug)).
Proof. intros HP. by apply (respects_statement P (RInsertAnalysis report slug)). Qed.
Lemma upsert_project_runs (P : Request → Prop) project :
  P (RUpsertProject project) → respects db_tables (runs P) (shown (upsert_project project)).
Proof. intros HP. by apply (respects_statement P (RUpsertProject project)). Qed.
Lemma upsert_address_project_runs (P : Request → Prop) chain a slug :
  P (RUpsertAddressProject chain a slug) → respects db_tables (runs P) (shown (upsert_address_project chain a slug)).
Proof. intros HP. by apply (respects_statement P (RUpsertAddressProject chain a slug)). Qed.
Lemma upsert_manual_address_project_runs (P : Request → Prop) chain a slug :
  P (RUpsertManual chain a slug) → respects db_tables (runs P) (shown (upsert_manual_address_project chain a slug)).
Proof. intros HP. by apply (respects_statement P (RUpsertManual chain a slug)). Qed.
Lemma rename_project_runs (P : Request → Prop) slug name :
  P (RRenameProject slug name) → respects db_tables (runs P) (shown (rename_project slug name)).
Proof. intros HP. by apply (respects_statement P (RRenameProject slug name)). Qed.
Lemma upsert_eth_price_runs (P : Request → Prop) day price :
  P (RUpsertEthPrice day price) → respects db_tables (runs P) (shown (upsert_eth_price day price)).
Proof. intros HP. by apply (respects_statement P (RUpsertEthPrice day price)). Qed.
Lemma relabel_unknowns_runs (P : Request → Prop) :
  P RRelabel → respects db_tables (runs P) (shown relabel_unknowns).
Proof. intros HP. by apply (respects_statement P RRelabel). Qed.
Lemma upsert_label_attempt_runs (P : Request → Prop) chain a result name slug :
  P (RUpsertLabelAttempt chain a result name slug) → respects db_tables (runs P) (shown (upsert_label_attempt chain a result name slug)).
Proof. intros HP. by apply (respects_statement P (RUpsertLabelAttempt chain a result name slug)). Qed.
Lemma upsert_function_selector_runs (P : Request → Prop) selector name sig all source :
  P (RUpsertSelector selector name sig all source) → respects db_tables (runs P) (shown (upsert_function_selector selector name sig all source)).
Proof. intros HP. by apply (respects_statement P (RUpsertSelector selector name sig all source)). Qed.
Lemma org_upsert_runs (P : Request → Prop) slug name :
  P (ROrgUpsert slug name) → respects db_tables (runs P) (shown (org_upsert slug name)).
Proof. intros HP. by apply (respects_statement P (ROrgUpsert slug name)). Qed.
Lemma project_assign_org_runs (P : Request → Prop) slug org :
  P (RAssignOrg slug org) → respects db_tables (runs P) (shown (project_assign_org slug org)).
Proof. intros HP. by apply (respects_statement P (RAssignOrg slug org)). Qed.
Lemma blacklist_add_runs (P : Request → Prop) chain a selector reason by_ :
  P (RBlacklistAdd chain a selector reason by_) → respects db_tables (runs P) (shown (blacklist_add chain a selector reason by_)).
Proof. intros HP. by apply (respects_statement P (RBlacklistAdd chain a selector reason by_)). Qed.
Lemma blacklist_remove_runs (P : Request → Prop) chain a selector :
  P (RBlacklistRemove chain a selector) → respects db_tables (runs P) (shown (blacklist_remove chain a selector)).
Proof. intros HP. by apply (respects_statement P (RBlacklistRemove chain a selector)). Qed.
Lemma refresh_rollups_runs (P : Request → Prop) :
  P RRefreshRollups → respects db_tables (runs P) (shown refresh_rollups).
Proof. intros HP. by apply (respects_statement P RRefreshRollups). Qed.

(** Queries, and what is outside the database. *)
Lemma query_tables {A} (q : Z → Tables → Res string A) (s : DbState W) : db_tables (query q s).2 = db_tables s.
Proof.
  unfold query, execute. destruct (reach (db_conn s)) as [[now|why] w]; [|done].
  unfold mbind, res_bind. by destruct (q now (db_tables s)).
Qed.
Lemma respects_query {A} P (q : Z → Tables → Res string A) : respects db_tables (runs P) (shown (query q)).
Proof. intros s. by rewrite shown_state, query_tables. Qed.
Lemma respects_ask {A} P (q : Z → Tables → Res string A) : respects db_tables (runs P) (Queries.ask q).
Proof.
  apply respects_map_err. intros s. by rewrite query_tables.
Qed.
Lemma respects_outside {E A} P (m : Eff E W A) : respects db_tables (runs P) (outside m).
Proof. apply respects_same; [apply _|]. intros s. unfold outside, zoom. by destruct (m (db_conn s)). Qed.
Lemma respects_outside_total {E A} P (f : W → A * W) :
  respects db_tables (runs P) (eff_total (E := E) (outside_total f)).
Proof.
  apply respects_total; [apply _|]. intros s. unfold outside_total. by destruct (f (db_conn s)).
Qed.
End runs.

Create HintDb statements.
#[export] Hint Resolve insert_analysis_runs upsert_project_runs upsert_address_project_runs
  upsert_manual_address_project_runs rename_project_runs upsert_eth_price_runs
  relabel_unknowns_runs upsert_label_attempt_runs upsert_function_selector_runs
  org_upsert_runs project_assign_org_runs blacklist_add_runs
  blacklist_remove_runs refresh_rollups_runs : statements.

(** Follow a computation down to its statements and queries. *)
Ltac follow_step :=
  match goal with
  | |- respects _ _ (shown _) => first [solve [eauto with statements]|apply respects_query]
  | |- respects _ _ (Queries.ask _) => apply respects_ask
  | |- respects _ _ (outside _) => apply respects_outside
  | |- respects _ _ (eff_total (outside_total _)) => apply respects_outside_total
  | |- respects _ _ (mbind _ (eff_res _)) => apply (respects_bind_res _ _); intros ? ?
  | |- respects _ _ (mbind _ _) => apply (respects_bind _ _); [|intros ?]
  | |- respects _ _ (eff_map_err _ _) => apply respects_map_err
  | |- respects _ _ (eff_try _) => apply respects_try
  | |- respects _ _ (eff_res _) => apply (respects_res _ _)
  | |- respects _ _ (mret _) => apply (respects_ret _ _)
  | |- respects _ _ (mapM _ _) => apply (respects_mapM _ _); intros ?
  | |- respects _ _ (match ?x with _ => _ end) => destruct x
  end.
Ltac follow := repeat follow_step.
