(* ===== verification/ServiceDb.v ===== *)
(** * The service on the database

    The statements of [Database], as the store that [Labeler] and [Refresher] are written against ([DbWorld]),
    satisfy the laws their theorems assume, whatever the explorers answer, given that the price column stores a
    price printed with eight decimals as it is. A label attempt, a backfill, every round of a process of the service
    and its start are runs of the store's statements of their own kind, with all that these keep. *)

From Stdlib Require Import SpecFloat.
From S2P Require Import Prelude.
From S2P Require Import Types.
From S2P Require Import Instances.
From S2P Require Import Trace.
From S2P Require Import Effects.
From S2P Require Import Analyze.
From S2P Require Import Jobs.
From S2P Require Import Resolver.
From S2P Require Import ResolverSpec.
From S2P Require Import Labeler.
From S2P Require Import LabelerSpec.
From S2P Require Import Refresher.
From S2P Require Import RefresherSpec.
From S2P Require Import Service.
From S2P Require Import Diagnose.
From S2P Require Import Database.
From S2P Require Import DatabaseSpec.
From S2P Require Import DbWorld.

(** ** A label attempt is a run of statements *)

(** The statements of an attempt on a contract. *)
Definition labels `{Numeric} (chain addr : Z) (req : Request) : Prop :=
  match req with
  | RUpsertLabelAttempt c a _ _ _ | RUpsertAddressProject c a _ => c = chain ∧ a = addr
  | RUpsertProject _ | RRelabel => True
  | _ => False
  end.

Section labeler.
Context {W : Type} `{Externals, Strings, Unicode, Numeric, Connection W, Explorers W}.

Lemma process_address_runs (P : Request → Prop) chain blockscout names addr :
  (∀ req, labels chain addr req → P req) →
  respects db_tables (runs (W := W) P) (process_address (W := DbState W) chain blockscout names addr).
Proof.
  intros HP. unfold process_address, fetch_name, fetch_meta, persist_match, record_attempt, ignore, eff_ok,
    etherscan_get_contract_name, blockscout_get_contract_name.
  cbn [Labeler.upsert_label_attempt Labeler.upsert_project Labeler.upsert_address_project
    Labeler.relabel_unknowns database_store get_sourcecode get_address_page database_explorers].
  assert (∀ result name slug, P (RUpsertLabelAttempt chain addr result name slug)) by (intros; by apply HP).
  assert (∀ slug, P (RUpsertAddressProject chain addr slug)) by (intros; by apply HP).
  assert (∀ p, P (RUpsertProject p)) by (intros; by apply HP). assert (P RRelabel) by by apply HP.
  follow.
Qed.
End labeler.

(** ** The laws hold *)

Section laws.
Context {W : Type} `{Numeric, Connection W, Explorers W}.

Definition db_key (chain addr : Z) : Z * Z := (i64_wrap chain, addr).
Definition db_row (s : DbState W) (key : Z * Z) : LabelRow :=
  let t := db_tables s in
  mkRow ((λ a, (at_last_result a, at_contract_name a)) <$> tb_label_attempt t !! key)
    (mp_slug <$> tb_address_project t !! key)
    (match tb_address_project t !! key with Some m => mp_manual m | None => false end).

(** A statement that leaves the tables of attempts and mappings leaves the rows. *)
Lemma quiet_rows {A} (q : Statement A) :
  (∀ now t a t', q now t = Ok (a, t') →
    tb_label_attempt t' = tb_label_attempt t ∧ tb_address_project t' = tb_address_project t) →
  quiet db_row (shown (execute q)).
Proof.
  intros Hq s r s' Hrun k. unfold db_row. apply shown_run in Hrun as [(now & a & Hrun & _)|[-> _]]; [|done].
  by destruct (Hq _ _ _ _ Hrun) as [-> ->].
Qed.

Lemma outside_quiet {E A} (m : Eff E W A) : quiet db_row (outside m).
Proof. intros s r s' Hrun k. unfold outside, zoom in Hrun. destruct (m (db_conn s)). by injection Hrun as _ <-. Qed.

Lemma upsert_label_attempt_row chain a result name slug (s s' : DbState W) r :
  shown (upsert_label_attempt chain a result name slug) s = (r, s') →
  ∀ key, db_row s' key =
    match r with
    | Ok _ => if decide (key = db_key chain a) then attempted (result, name) (db_row s key) else db_row s key
    | _ => db_row s key
    end.
Proof.
  intros Hrun key. apply shown_run in Hrun as [(now & [] & Hq & ->)|[Ht Hf]];
    [|unfold db_row; rewrite Ht; by destruct r].
  cbv zeta in Hq. apply checked_Ok in Hq as [_ Hq]. apply pair_Ok in Hq as [_ Hq].
  unfold db_row, attempted. rewrite <-Hq. cbn. fold (db_key chain a). case_decide as Hkey.
  - by rewrite Hkey, lookup_insert_eq.
  - by rewrite lookup_insert_ne.
Qed.

Lemma upsert_address_project_row chain a slug (s s' : DbState W) r :
  shown (upsert_address_project chain a slug) s = (r, s') →
  ∀ key, db_row s' key =
    match r with
    | Ok _ => if decide (key = db_key chain a) then mapped slug (db_row s key) else db_row s key
    | _ => db_row s key
    end.
Proof.
  intros Hrun key. apply shown_run in Hrun as [(now & [] & Hq & ->)|[Ht Hf]];
    [|unfold db_row; rewrite Ht; by destruct r].
  cbv zeta in Hq. apply checked_Ok in Hq as [_ Hq]. fold (db_key chain a) in Hq.
  unfold db_row, mapped. cbn [row_by_hand row_attempt]. case_decide as Hkey; [subst key|].
  - destruct (tb_address_project (db_tables s) !! db_key chain a) as [m|] eqn:Hm; [destruct (mp_manual m) eqn:Hman|].
    + apply pair_Ok in Hq as [_ <-]. by rewrite Hm, Hman.
    + apply checked_Ok in Hq as [_ Hq]. apply pair_Ok in Hq as [_ <-]. cbn. by rewrite lookup_insert_eq.
    + apply checked_Ok in Hq as [_ Hq]. apply pair_Ok in Hq as [_ <-]. cbn. by rewrite lookup_insert_eq.
  - case_match; [by apply pair_Ok in Hq as [_ <-]|].
    apply checked_Ok in Hq as [_ Hq]. apply pair_Ok in Hq as [_ <-]. cbn. by rewrite lookup_insert_ne.
Qed.

#[export] Instance database_labels : LabelLaws (DbState W).
Proof.
  refine {| Key := Z * Z; key_of := db_key; row_of := db_row |}.
  - intros s s' r chain a result name slug. apply upsert_label_attempt_row.
  - intros s s' r chain a slug. apply upsert_address_project_row.
  - intros p. apply quiet_rows. intros now t [] t' Hq. cbv zeta in Hq.
    apply checked_Ok in Hq as [_ Hq]. by apply pair_Ok in Hq as [_ <-].
  - apply quiet_rows. intros now t n t' Hq. cbv zeta in Hq. by apply pair_Ok in Hq as [_ <-].
  - intros chain a. apply outside_quiet.
  - intros a. apply outside_quiet.
Qed.
End laws.

(** ** What an attempt keeps *)

(** a label attempt on the database, whatever the explorers answer and whenever the connection fails, keeps
    every reference whole; it loses no analysis and no project, changes no measured number, names the
    project of an analysis only where it was unknown, and leaves every mapping set by a person as it is. *)
Theorem process_address_keeps {W} `{Externals, Strings, Unicode, Numeric, Connection W, Explorers W}
    chain_id blockscout names addr (s s' : DbState W) r :
  integrity (db_tables s) → process_address chain_id blockscout names addr s = (r, s') →
  integrity (db_tables s') ∧ kept (λ _, False) (db_tables s) (db_tables s').
Proof.
  intros Hint Hrun.
  pose proof (process_address_runs (W := W) (labels chain_id addr) chain_id blockscout names addr (λ _ Hreq, Hreq) s)
    as Hruns. rewrite Hrun in Hruns. split; [by eapply runs_integrity|].
  eapply kept_weaken, runs_kept, Hruns. by intros key ([] & Hreq & Htouch).
Qed.

(** [NUMERIC(20,8)] holds a number of eight decimals exactly, or not at all. *)
Class ExactPrices `{Numeric} : Prop := {
  exact_price price stored : numeric_20_8 (price_decimal price) = Some stored → stored = price_decimal price
}.

Section prices.
Context {W : Type} `{Numeric, !ExactPrices, Connection W, PriceApi W}.

Lemma outside_prices {E A} (m : Eff E W A) (s s' : DbState W) r :
  outside m s = (r, s') → tb_eth_prices (db_tables s') = tb_eth_prices (db_tables s).
Proof. unfold outside, zoom. destruct (m (db_conn s)). by intros [= _ <-]. Qed.

#[export] Instance database_price_laws : PriceLaws (DbState W).
Proof.
  refine {| eth_prices := λ s : DbState W, tb_eth_prices (db_tables s) |}.
  - intros day price s r s' Hrun. apply shown_run in Hrun as [(now & [] & Hq & ->)|[-> Hf]]; [|by destruct r].
    destruct (numeric_20_8 (price_decimal price)) as [p|] eqn:Hp; [|done]. cbn in Hq. apply exact_price in Hp as ->.
    by injection Hq as <-.
  - intros s r s' Hrun. apply shown_run in Hrun as [(now & days & Hq & ->)|[-> Hf]].
    + injection Hq as <- <-. split; [done|]. cbn. intros d. split.
      * intros ([d' p] & -> & Hd)%list_elem_of_fmap. apply elem_of_map_items in Hd. by eexists.
      * intros [p Hd]. apply list_elem_of_fmap. exists (d, p). split; [done|]. by apply elem_of_map_items.
    + split; [done|]. by destruct r.
  - intros secs agent s r s'. apply outside_prices.
  - intros client url s r s'. apply outside_prices.
  - intros resp s r s'. apply outside_prices.
Defined.

(** The statements of the price's refresh and of a backfill. *)
Definition prices_only (req : Request) : Prop :=
  match req with RUpsertEthPrice _ _ => True | _ => False end.

Ltac follow_prices :=
  cbn [Refresher.upsert_eth_price Refresher.list_eth_price_days database_prices build_client get_ok json_usd
    json_prices utc_today database_price_api]; follow.

Lemma backfill_days_runs (P : Request → Prop) from_day to_day existing days acc :
  (∀ day price, P (RUpsertEthPrice day price)) →
  respects db_tables (runs (W := W) P) (backfill_days (W := DbState W) from_day to_day existing days acc).
Proof.
  intros HP. revert acc. induction days as [|[day price] days IH]; intros acc; cbn [backfill_days backfill_day];
    follow_prices; apply IH.
Qed.
Lemma backfill_runs (P : Request → Prop) base from_day to_day :
  (∀ day price, P (RUpsertEthPrice day price)) →
  respects db_tables (runs (W := W) P) (backfill_eth_prices_now (W := DbState W) base from_day to_day).
Proof. intros HP. unfold backfill_eth_prices_now. follow_prices. by apply backfill_days_runs. Qed.
Lemma refresh_price_runs (P : Request → Prop) url :
  (∀ day price, P (RUpsertEthPrice day price)) →
  respects db_tables (runs (W := W) P) (refresh_eth_price_now (W := DbState W) url).
Proof. intros HP. unfold refresh_eth_price_now. follow_prices. Qed.
End prices.

(** a backfill on the database, whatever the price service answers and whenever the connection fails, is a
    run of upserts of prices: it leaves every other table as it was, changes no price there was, and adds none
    outside its window. *)
Theorem backfill_keeps {W} `{Numeric, !ExactPrices, Connection W, PriceApi W} base from_day to_day
    (s s' : DbState W) r :
  backfill_eth_prices_now base from_day to_day s = (r, s') →
  db_tables s' = set_eth_prices (tb_eth_prices (db_tables s')) (db_tables s) ∧
  ∀ d, tb_eth_prices (db_tables s') !! d ≠ tb_eth_prices (db_tables s) !! d →
    tb_eth_prices (db_tables s) !! d = None ∧ from_day <= d <= to_day.
Proof.
  intros Hrun. split.
  - pose proof (backfill_runs (W := W) prices_only base from_day to_day (λ _ _, I) s) as Hruns.
    rewrite Hrun in Hruns. revert Hruns.
    apply (runs_inv prices_only (λ t t', t' = set_eth_prices (tb_eth_prices t') t)); [by intros []|..].
    + intros t u v -> ->. by destruct t.
    + intros [] s1; try done. intros _. cbn [perform].
      apply (execute_relates (λ t t', t' = set_eth_prices (tb_eth_prices t') t)); [by intros []|].
      intros now t [] t' Hq. destruct (numeric_20_8 price); [|done]. cbn in Hq. by injection Hq as <-.
  - exact (proj1 (backfill_eth_prices_spec base from_day to_day s r s' Hrun)).
Qed.

(** ** The statements of a process *)

Section statements.
Context `{Numeric}.

(** Of a job that is persisted; and of a round of each loop of a refresher. *)
Definition persists (st : Request) : Prop :=
  match st with RInsertAnalysis _ _ | RUpsertProject _ | RUpsertAddressProject _ _ _ => True | _ => False end.
Definition task_statement (task : Task) (st : Request) : Prop :=
  match task, st with
  | TResolver, (RUpsertProject _ | RUpsertAddressProject _ _ _ | RRelabel) => True
  | TPrice, RUpsertEthPrice _ _ => True
  | TRollups, RRefreshRollups => True
  | TConsumer, (RUpsertLabelAttempt _ _ _ _ _ | RUpsertAddressProject _ _ _ | RUpsertProject _ | RRelabel) => True
  | TFourByte, RUpsertSelector _ _ _ _ _ => True
  | _, _ => False
  end.

Definition process_statement (p : Process) (task : Task) (st : Request) : Prop :=
  match p with
  | PTracker _ _ _ => False
  | PWorker _ _ _ => persists st
  | PRefresher _ _ _ _ _ => task_statement task st
  end.
(** A refresher passes over its names, the price and the views before its loops. *)
Definition start_statement (cmd : Command) (st : Request) : Prop :=
  match cmd with
  | Refresher _ _ => ∃ task, task ∈ [TResolver; TPrice; TRollups] ∧ task_statement task st
  | _ => False
  end.
End statements.

(** ** The loops *)

Section loops.
Context {W : Type} `{Externals, Strings, Unicode, Numeric, Connection W, Node W, Sketch W, QueueServer W,
  Sources W, SortedSet W, Explorers W, FourByte W, PriceApi W, Connections W, Clients W, WorkerWorld W}.

(** The tables behind a resolver. *)
Definition resolver_tables (s : ResolverWorld (DbState W)) : Tables := db_tables (rw_world s).

Lemma respects_on_store {E A} P (m : Eff E (DbState W) A) :
  respects db_tables (runs (W := W) P) m → respects resolver_tables (runs (W := W) P) (on_store m).
Proof. by apply respects_zoom. Qed.
(** The world's operations, and a round followed through them. *)
Ltac follow_round :=
  cbn [Labeler.top_unknown_addresses Labeler.upsert_label_attempt Labeler.upsert_project
    Labeler.upsert_address_project Labeler.relabel_unknowns Labeler.unresolved_selectors
    Labeler.upsert_function_selector database_store Refresher.upsert_eth_price Refresher.list_eth_price_days
    Refresher.refresh_rollups database_prices build_client get_ok json_usd json_prices utc_today database_price_api
    zadd zcard zpopmax bd_to_f64 database_sorted_set rpush llen blpop incr_by set_ex timestamp database_queue
    get_block_number get_block_by_number database_node get_signatures database_fourbyte
    read_overlay fetch_protocols database_sources store_connect store_migrate redis_connect database_connections
    etherscan_new blockscout_new fourbyte_new read_names database_clients] in *;
  follow.

Lemma upsert_all_runs {A} P (upsert : A → Eff string (DbState W) unit) items count :
  (∀ item, respects db_tables (runs (W := W) P) (upsert item)) →
  respects db_tables (runs (W := W) P) (upsert_all upsert items count).
Proof.
  intros Hupsert. revert count. induction items as [|item items IH]; intros count; cbn [upsert_all]; follow; auto.
Qed.
Lemma push_rows_runs P rows pushed :
  respects db_tables (runs (W := W) P) (push_rows (W := DbState W) rows pushed).
Proof.
  revert pushed. induction rows as [|[a wei] rows IH]; intros pushed; cbn [push_rows]; follow_round; apply IH.
Qed.
Lemma producer_runs P chain batch days :
  respects db_tables (runs (W := W) P) (producer_tick_once (W := DbState W) chain batch days).
Proof. unfold producer_tick_once, eff_ok. follow_round. apply push_rows_runs. Qed.
Lemma consumer_runs P chain blockscout dict :
  (∀ st, task_statement TConsumer st → P st) →
  respects db_tables (runs (W := W) P) (consumer_round (W := DbState W) chain blockscout dict).
Proof.
  intros HP. unfold consumer_round. follow_round. apply process_address_runs. intros [] Hst; try done; by apply HP.
Qed.
Lemma resolve_all_runs P selectors counts :
  (∀ st, task_statement TFourByte st → P st) →
  respects db_tables (runs (W := W) P) (resolve_all (W := DbState W) selectors counts).
Proof.
  intros HP. assert (∀ sel name sig all source, P (RUpsertSelector sel name sig all source)) by (intros; by apply HP).
  revert counts. induction selectors as [|sel selectors IH]; intros counts; cbn [resolve_all];
    unfold resolve_one, fourbyte_lookup, ignore; follow_round; apply IH.
Qed.
Lemma fourbyte_runs P chain batch :
  (∀ st, task_statement TFourByte st → P st) →
  respects db_tables (runs (W := W) P) (run_once (W := DbState W) chain batch).
Proof. intros HP. unfold run_once. follow_round. by apply resolve_all_runs. Qed.
Lemma refresh_names_runs P overlay defillama :
  respects resolver_tables (runs (W := W) P) (Resolver.refresh (W := DbState W) overlay defillama).
Proof.
  unfold Resolver.refresh, from_overlay, with_defillama, load_overlay, load_defillama. follow_round.
  - eapply respects_zoom; [done|]. follow_round.
  - eapply respects_zoom; [done|]. follow_round.
  - intros s. unfold swap. reflexivity.
Qed.

Lemma refresh_resolver_runs P overlay defillama :
  (∀ st, task_statement TResolver st → P st) →
  respects resolver_tables (runs (W := W) P) (refresh_resolver_with (W := DbState W) overlay defillama).
Proof.
  intros HP. assert (∀ p, P (RUpsertProject p)) by (intros; by apply HP).
  assert (∀ c a slug, P (RUpsertAddressProject c a slug)) by (intros; by apply HP).
  assert (P RRelabel) by by apply HP.
  unfold refresh_resolver_with, eff_ok. follow.
  - apply refresh_names_runs.
  - intros s. reflexivity.
  - apply respects_on_store, upsert_all_runs. intros p. follow_round.
  - apply respects_on_store, upsert_all_runs. intros [[c addr] info]. follow_round.
  - apply respects_on_store. follow_round.
Qed.
Lemma refresh_price_ignored {E} P url :
  (∀ st, task_statement TPrice st → P st) →
  respects db_tables (runs (W := W) P) (refresh_eth_price (W := DbState W) (E := E) url).
Proof.
  intros HP. unfold refresh_eth_price, ignore. follow. apply refresh_price_runs. intros. by apply HP.
Qed.

(** ** Rounds *)

Section rounds.
Variable path_exists : string → bool.

Lemma task_runs P common cfg labeling fourbyte task :
  (∀ st, task_statement task st → P st) →
  respects resolver_tables (runs (W := W) P)
    (task_round (W := DbState W) path_exists common cfg labeling fourbyte task).
Proof.
  intros HP. destruct task; cbn [task_round];
    unfold refresh_resolver_into_store, producer_round, labeler_round, fourbyte_round, ignore; follow;
    try apply respects_on_store; follow.
  - by apply refresh_resolver_runs.
  - by apply refresh_price_ignored.
  - assert (P RRefreshRollups) by by apply HP. follow_round.
  - apply producer_runs.
  - by apply consumer_runs.
  - by apply fourbyte_runs.
Qed.

Lemma enqueue_txs_runs P chain n idx txs :
  respects db_tables (runs (W := W) P) (enqueue_txs (W := DbState W) chain n idx txs).
Proof.
  revert idx. induction txs as [|tx txs IH]; intros idx; cbn [enqueue_txs]; unfold enqueue; follow_round; apply IH.
Qed.
Lemma tracker_runs P head chain t :
  respects db_tables (runs (W := W) P) (tracker_step (W := DbState W) head chain t).
Proof.
  unfold tracker_step, publish_last_head, depth, bound_lag, incr_dropped, enqueue_block. follow_round.
  apply enqueue_txs_runs.
Qed.

Section worker.
Context (names : ResolverSnapshot) (analyzer : Analyzer (DbState W)).

Lemma timed_runs P worker j :
  respects db_tables (runs (W := W) P)
    (timed_analysis (W := DbState W) (H0 := database_backend names) worker j).
Proof.
  unfold timed_analysis. follow. intros s. cbn [with_timeout database_backend]. by destruct (timeout _ _ _).
Qed.
Lemma persist_runs P report :
  (∀ st, persists st → P st) →
  respects db_tables (runs (W := W) P) (persist (W := DbState W) (H0 := database_backend names) report).
Proof.
  intros HP. assert (∀ r slug, P (RInsertAnalysis r slug)) by (intros; by apply HP).
  assert (∀ p, P (RUpsertProject p)) by (intros; by apply HP).
  assert (∀ c a slug, P (RUpsertAddressProject c a slug)) by (intros; by apply HP).
  unfold persist. cbn [Jobs.resolve Jobs.insert_analysis Jobs.upsert_project Jobs.upsert_address_project
    project_slug Jobs.project database_backend]. follow. by intros s.
Qed.
Lemma worker_runs P worker :
  (∀ st, persists st → P st) →
  respects db_tables (runs (W := W) P) (worker_step (W := DbState W) (H0 := database_backend names) worker).
Proof.
  intros HP. unfold worker_step, claim, check_expired, incr_dropped, Jobs.handle, requeue, enqueue, dead_letter.
  follow_round; [apply timed_runs|by apply persist_runs].
Qed.
End worker.

(** What a round does to the tables. *)
Lemma process_runs p task (s : DbState W) :
  runs (W := W) (process_statement p task) (db_tables s)
    (db_tables (process_round path_exists database_backend p task s).2).
Proof.
  destruct p as [common head t|common worker snapshot|common cfg snapshot labeling fourbyte]; cbn [process_round].
  - pose proof (tracker_runs (process_statement (PTracker common head t) task) head (cc_chain_id common) t s) as Hs.
    by destruct (tracker_step head (cc_chain_id common) t s) as [r s'].
  - pose proof (worker_runs snapshot (EvmSketchAnalyzer (analyzer_config common)) persists worker (λ _ Hst, Hst) s)
      as Hs. by destruct (worker_step worker s) as [r s'].
  - destruct (interval_panics cfg task); [done|].
    pose proof (task_runs (task_statement task) common cfg labeling fourbyte task (λ _ Hst, Hst)
      (mkResolverWorld s snapshot)) as Hs.
    by destruct (task_round path_exists common cfg labeling fourbyte task _) as [r s'].
Qed.

Lemma refresher_start_runs P common cfg :
  (∀ st, start_statement (Refresher common cfg) st → P st) →
  respects resolver_tables (runs (W := W) P) (start_refresher (W := DbState W) path_exists common cfg).
Proof.
  intros HP. assert (∀ task st, task ∈ [TResolver; TPrice; TRollups] → task_statement task st → P st) as Htask.
  { intros task st Hin Hst. apply HP. by exists task. }
  assert (P RRefreshRollups) by (apply (Htask TRollups); [set_solver|done]).
  unfold start_refresher, connected, initial_pass, refresh_resolver_into_store, start_labeler, start_fourbyte,
    load_dict, eff_ok, ignore, names. follow; try apply respects_on_store; follow_round.
  - apply refresh_resolver_runs. intros st. apply Htask. set_solver.
  - apply refresh_price_ignored. intros st. apply Htask. set_solver.
  - by intros s.
Qed.

Lemma start_runs cmd (s : DbState W) :
  runs (W := W) (start_statement cmd) (db_tables s) (db_tables (start_command path_exists cmd s).2).
Proof.
  assert (respects resolver_tables (runs (W := W) (start_statement cmd)) (start (W := DbState W) path_exists cmd))
    as Hstart.
  { destruct cmd; [..|by apply refresher_start_runs]; cbn [start]; unfold start_tracker, start_worker, connected,
      tracker_start, names, ignore; follow; try apply respects_on_store; follow_round.
    - apply refresh_names_runs.
    - by intros s'. }
  specialize (Hstart (mkResolverWorld s empty_snapshot)). unfold start_command.
  by destruct (start path_exists cmd (mkResolverWorld s empty_snapshot)) as [r s'].
Qed.
End rounds.
End loops.

(** ** The sample database, labelled *)

#[local] Existing Instances sample_decimals sample_numeric sample_connection.

(** Etherscan is down; Blockscout knows a router. *)
#[local] Instance sample_explorers : Explorers Z := {|
  Value := unit;
  value_as_str _ := None;
  value_rows _ := None;
  get_sourcecode _ _ w := (Err (RHttp "timeout"), w);
  get_address_page _ w := (Ok (mkAddressResp (Some "UniswapV2Router02"%string) None None), w)
|}.

Lemma process_address_keeps_witness :
  ∃ s', process_address (H := sample_externals) 1 true (load_names [("uniswap-v2", "uniswap")]%string) 6
      sample_db = (Ok tt, s') ∧ integrity (db_tables s') ∧ kept (λ _, False) (db_tables sample_db) (db_tables s').
Proof.
  assert (Hrun : (process_address (W := DbState Z) (H := sample_externals) 1 true
    (load_names [("uniswap-v2", "uniswap")]%string) 6 sample_db).1 = Ok tt) by (vm_compute; reflexivity).
  apply run_answer in Hrun. eexists. split; [exact Hrun|].
  refine (process_address_keeps (H := sample_externals) _ _ _ _ _ _ _ _ Hrun).
  unfold sample_db. apply serve_integrity. by split.
Defined.
