(* ===== verification/Server.v ===== *)
(** * The dashboard as a server

    [crates/indexer-web/src/main.rs]: its arguments, its router, the queries and forms of the handlers in
    [handlers/public.rs], [admin.rs] and [labels.rs] as they are read from a request, its state, what it starts
    from, and the answer to a request, from the route through the session and the form to the handler ([Auth],
    [Web], [Pages], [Admin], [Diagnose]). A route is matched on the raw path; a [HEAD] request is answered like a
    [GET]. The session is checked before the path's parameters and the form are read, in the order of the
    handlers' arguments. Requests are answered one at a time; a page is the record its template is given,
    without the explorer's URLs and durations. The URL decoders are a class; compression and the limit on a
    body's size are left out. *)

From Stdlib Require Import Strings.Ascii DecimalString SpecFloat.
From Stdlib Require Import SpecFloat.
From S2P Require Import Prelude.
From S2P Require Import Types.
From S2P Require Import Trace.
From S2P Require Import Jobs.
From S2P Require Import Resolver.
From S2P Require Import Labeler.
From S2P Require Import Auth.
From S2P Require Import Refresher.
From S2P Require Import Service.
From S2P Require Import Web.
From S2P Require Import Diagnose.
From S2P Require Import Format.
From S2P Require Import Pages.
From S2P Require Import Admin.

(** ** Requests *)

Inductive Method := GET | HEAD | POST | OtherMethod.
#[export] Instance method_eq_dec : EqDecision Method.
Proof. solve_decision. Defined.

(** The session cookie's value, and the body where its type is that of a form. *)
Record HttpRequest := mkHttpRequest {
  rq_method : Method;
  rq_path : string;
  rq_query : option string;
  rq_cookie : option string;
  rq_form : option string
}.

(** [percent_encoding] of a path's segment, if it is UTF-8; the pairs of a query or a form; and
    [f64::from_str]. *)
Class UrlDecoding := {
  percent_decode : string → option string;
  urlencoded : string → list (string * string);
  parse_f64 : string → option spec_float
}.

(** [str::split] at a slash. *)
Fixpoint segments (path : string) : list string :=
  match path with
  | EmptyString => [EmptyString]
  | String c rest =>
      if Ascii.eqb c "/" then EmptyString :: segments rest
      else match segments rest with
           | s :: ss => String c s :: ss
           | [] => [String c EmptyString]
           end
  end.

(** ** Forms *)

(** Serde's reading of a struct from pairs: an unknown key is passed over, a repeated one is refused, and a
    value present is read even where it may be absent. *)
Definition field (key : string) (fields : list (string * string)) : option (option string) :=
  match snd <$> List.filter (λ p, p.1 =? key)%string fields with
  | [] => Some None
  | [v] => Some (Some v)
  | _ => None
  end.
Definition required (key : string) (fields : list (string * string)) : option string :=
  v ← field key fields; v.
Definition defaulted (key : string) (fields : list (string * string)) : option string :=
  default EmptyString <$> field key fields.
Definition optional {A} (parse : string → option A) (key : string) (fields : list (string * string))
  : option (option A) :=
  v ← field key fields;
  match v with Some s => Some <$> parse s | None => Some None end.

(** [u32::from_str]. *)
Definition parse_u32 (s : string) : option Z :=
  d ← match s with
      | String c digits => NilZero.uint_of_string (if Ascii.eqb c "+" then digits else s)
      | EmptyString => None
      end;
  let z := Z.of_uint d in
  if z <? 2 ^ 32 then Some z else None.

Definition login_query (fields : list (string * string)) : option (option string) := optional Some "next" fields.
Definition overview_query (fields : list (string * string)) : option (option string) := optional Some "group" fields.
Definition unknowns_query (fields : list (string * string)) : option (option string) := optional Some "tab" fields.
Definition project_query (fields : list (string * string)) : option string := required "slug" fields.

Definition tx_query (fields : list (string * string)) : option TxQuery :=
  page ← optional parse_u32 "page" fields;
  from ← optional Some "from" fields;
  to ← optional Some "to" fields;
  min_gas_saved ← optional parse_i64 "min_gas_saved" fields;
  Some (mkTxQuery page from to min_gas_saved).

Record CellQuery := mkCellQuery { cq_address : string; cq_chain_id : option Z }.
Definition cell_query (fields : list (string * string)) : option CellQuery :=
  address ← required "address" fields;
  chain_id ← optional parse_i64 "chain_id" fields;
  Some (mkCellQuery address chain_id).

Record LoginForm := mkLoginForm { lf_username : string; lf_password : string; lf_next : option string }.
Definition login_form (fields : list (string * string)) : option LoginForm :=
  name ← required "username" fields;
  password ← required "password" fields;
  next ← optional Some "next" fields;
  Some (mkLoginForm name password next).

Definition data_floor_form (fields : list (string * string)) : option string := defaulted "floor" fields.

Record OrgCreateForm := mkOrgCreateForm { oc_org_slug : string; oc_org_name : string }.
Definition org_create_form (fields : list (string * string)) : option OrgCreateForm :=
  slug ← defaulted "org_slug" fields;
  name ← required "org_name" fields;
  Some (mkOrgCreateForm slug name).

Record OrgAssignForm := mkOrgAssignForm { oa_project_slug : string; oa_org_slug : string }.
Definition org_assign_form (fields : list (string * string)) : option OrgAssignForm :=
  project ← required "project_slug" fields;
  org ← required "org_slug" fields;
  Some (mkOrgAssignForm project org).

Record BlacklistAddForm := mkBlacklistAddForm {
  ba_address : string;
  ba_selector : option string;
  ba_reason : string
}.
Definition blacklist_add_form (fields : list (string * string)) : option BlacklistAddForm :=
  address ← required "address" fields;
  selector ← optional Some "selector" fields;
  reason ← required "reason" fields;
  Some (mkBlacklistAddForm address selector reason).

Record BlacklistRemoveForm := mkBlacklistRemoveForm { br_address : string; br_selector : option string }.
Definition blacklist_remove_form (fields : list (string * string)) : option BlacklistRemoveForm :=
  address ← required "address" fields;
  selector ← optional Some "selector" fields;
  Some (mkBlacklistRemoveForm address selector).

Record OverrideForm := mkOverrideForm {
  ov_address : string;
  ov_chain_id : Z;
  ov_slug : string;
  ov_project_name : string
}.
Definition override_form (fields : list (string * string)) : option OverrideForm :=
  address ← required "address" fields;
  chain_id ← required "chain_id" fields ≫= parse_i64;
  slug ← required "slug" fields;
  name ← defaulted "project_name" fields;
  Some (mkOverrideForm address chain_id slug name).

Record RenameForm := mkRenameForm { rn_slug : string; rn_project_name : string }.
Definition rename_form (fields : list (string * string)) : option RenameForm :=
  slug ← required "slug" fields;
  name ← required "project_name" fields;
  Some (mkRenameForm slug name).

Section with_decoding.
Context `{UrlDecoding}.

Record CandidatesQuery := mkCandidatesQuery { cn_days : option Z; cn_min_eth : option spec_float }.
Definition candidates_query (fields : list (string * string)) : option CandidatesQuery :=
  days ← optional parse_i64 "days" fields;
  min_eth ← optional parse_f64 "min_eth" fields;
  Some (mkCandidatesQuery days min_eth).
End with_decoding.

(** ** Routes *)

(** The handlers, with their parameters of the path, as it is encoded. *)
Inductive Handler :=
  | HOverview
  | HProject (slug : string)
  | HContract (address : string)
  | HFunction (address selector : string)
  | HUnknowns
  | HAdmin
  | HHealth
  | HCandidates
  | HDataFloor
  | HRollups
  | HEthPrice
  | HBackfill
  | HResolver
  | HLabeler
  | HRelabel
  | HDiagnose
  | HBlacklist
  | HBlacklistAdd
  | HBlacklistRemove
  | HOrgs
  | HOrgsCreate
  | HOrgsAssign
  | HLabelCell
  | HLabelEdit
  | HLabelOverride
  | HProjectCell
  | HProjectEdit
  | HProjectRename
  | HLogin
  | HLoginPost
  | HLogout
  | HHealthz
  | HStatic (rest : list string)
  | HFallback.

(** A parameter is a segment that is not empty. *)
Definition param (segment : string) : bool := negb (segment =? "")%string.

(** The handlers of [get]. *)
Definition get_route (path : list string) : option Handler :=
  match path with
  | [""] => Some HOverview
  | ["projects"; slug] => if param slug then Some (HProject slug) else None
  | ["contracts"; address] => if param address then Some (HContract address) else None
  | ["functions"; address; selector] =>
      if param address && param selector then Some (HFunction address selector) else None
  | ["unknowns"] => Some HUnknowns
  | ["admin"] => Some HAdmin
  | ["admin"; "health"] => Some HHealth
  | ["admin"; "candidates"] => Some HCandidates
  | ["admin"; "blacklist"] => Some HBlacklist
  | ["admin"; "orgs"] => Some HOrgs
  | ["api"; "labels"; "cell"] => Some HLabelCell
  | ["api"; "labels"; "edit"] => Some HLabelEdit
  | ["api"; "projects"; "cell"] => Some HProjectCell
  | ["api"; "projects"; "edit"] => Some HProjectEdit
  | ["login"] => Some HLogin
  | ["logout"] => Some HLogout
  | ["healthz"] => Some HHealthz
  | _ => None
  end%string.

(** The handlers of [post]. *)
Definition post_route (path : list string) : option Handler :=
  match path with
  | ["admin"; "data-floor"] => Some HDataFloor
  | ["admin"; "refresh"; "rollups"] => Some HRollups
  | ["admin"; "refresh"; "eth-price"] => Some HEthPrice
  | ["admin"; "refresh"; "eth-price-backfill"] => Some HBackfill
  | ["admin"; "refresh"; "resolver"] => Some HResolver
  | ["admin"; "refresh"; "labeler"] => Some HLabeler
  | ["admin"; "refresh"; "relabel"] => Some HRelabel
  | ["admin"; "diagnose"] => Some HDiagnose
  | ["admin"; "blacklist"; "add"] => Some HBlacklistAdd
  | ["admin"; "blacklist"; "remove"] => Some HBlacklistRemove
  | ["admin"; "orgs"; "create"] => Some HOrgsCreate
  | ["admin"; "orgs"; "assign"] => Some HOrgsAssign
  | ["api"; "labels"; "override"] => Some HLabelOverride
  | ["api"; "projects"; "rename"] => Some HProjectRename
  | ["login"] => Some HLoginPost
  | _ => None
  end%string.

Definition is_get (m : Method) : bool := match m with GET | HEAD => true | _ => false end.

(** The handler of a request; none where its path is known under another method, or the fallback's is not
    [get]. The files under [/static] are a service of their own. *)
Definition route (m : Method) (path : string) : option Handler :=
  match segments path with
  | "" :: "static" :: rest => if is_get m then Some (HStatic rest) else None
  | "" :: path =>
      let known := bool_decide (is_Some (get_route path)) || bool_decide (is_Some (post_route path)) in
      if known then if is_get m then get_route path
                    else if bool_decide (m = POST) then post_route path else None
      else if is_get m then Some HFallback else None
  | _ => if is_get m then Some HFallback else None
  end%string.

(** ** Arguments *)

(** [Cli], and its defaults. *)
Record WebCli := mkWebCli {
  wc_database_url : string;
  wc_redis_url : string;
  wc_session_secret : string;
  wc_auth_allowlist_path : string;
  wc_bind_addr : string;
  wc_chain_id : Z;
  wc_explorer_tx_url : string;
  wc_explorer_address_url : string;
  wc_static_dir : string;
  wc_overlay_path : string;
  wc_defillama_url : string;
  wc_price_url : string;
  wc_coingecko_base_url : string;
  wc_labeler_batch_size : Z;
  wc_labeler_retry_days : Z;
  wc_blocks_behind_warn_threshold : Z;
  wc_openrouter_key : string;
  wc_openrouter_model : string;
  wc_openrouter_base_url : string;
  wc_diagnose_cache_ttl_secs : Z;
  wc_diagnose_rate_limit_secs : Z
}.
Definition web_cli_default (database_url session_secret : string) : WebCli := {|
  wc_database_url := database_url;
  wc_redis_url := "redis://127.0.0.1:6379";
  wc_session_secret := session_secret;
  wc_auth_allowlist_path := "/etc/indexer/users.yaml";
  wc_bind_addr := "0.0.0.0:3000";
  wc_chain_id := 1;
  wc_explorer_tx_url := "https://etherscan.io/tx/";
  wc_explorer_address_url := "https://etherscan.io/address/";
  wc_static_dir := "crates/indexer-web/static";
  wc_overlay_path := "/etc/indexer/overlay.yaml";
  wc_defillama_url := "https://api.llama.fi/protocols";
  wc_price_url := "https://api.coingecko.com/api/v3/simple/price?ids=ethereum&vs_currencies=usd";
  wc_coingecko_base_url := "https://api.coingecko.com/api/v3";
  wc_labeler_batch_size := 200;
  wc_labeler_retry_days := 7;
  wc_blocks_behind_warn_threshold := 50;
  wc_openrouter_key := "";
  wc_openrouter_model := "anthropic/claude-sonnet-4-6";
  wc_openrouter_base_url := "https://openrouter.ai/api/v1";
  wc_diagnose_cache_ttl_secs := 30;
  wc_diagnose_rate_limit_secs := 10
|}.

(** ** State *)

(** The fields of [AppState] that do not change. *)
Record AppConfig := mkAppConfig {
  ac_auth : AuthState;
  ac_chain_id : Z;
  ac_buttons : ButtonConfig;
  ac_warn_threshold : Z;
  ac_diagnose : DiagnoseConfig
}.

(** What does: the world, the data floor, the cache of the diagnosis and the resolver's snapshot. *)
Record AppState (W : Type) `{Dates} := mkApp {
  ap_world : W;
  ap_floor : option Date;
  ap_cache : DiagnoseCache;
  ap_snapshot : ResolverSnapshot
}.
Arguments mkApp {W _}. Arguments ap_world {W _}. Arguments ap_floor {W _}.
Arguments ap_cache {W _}. Arguments ap_snapshot {W _}.

(** ** Answers *)

Section answers.
Context `{Decimals, Dates}.

(** The templates; the user where a template is given one. *)
Inductive Page :=
  | PLogin (error : option string) (next : string)
  | POverview (user : string) (page : OverviewPage)
  | PProject (user : string) (page : ProjectPage)
  | PContract (user : string) (page : ContractPage)
  | PFunction (user : string) (page : FunctionPage)
  | PUnknowns (user : string) (page : UnknownsPage)
  | PAdmin (user : string) (health : HealthView) (chain_id : Z) (data_floor : string)
  | PHealth (health : HealthView)
  | PCandidates (fragment : CandidatesFragment)
  | PBanner (banner : RefreshBanner)
  | PDiagnose (fragment : DiagnoseFragment)
  | PDiagnoseError (error : DiagnoseError)
  | PBlacklist (user : string) (chain_id : Z) (rows : list BlacklistRowView)
  | POrgs (user : string) (chain_id : Z) (page : list (string * string) * list ProjectAssignView)
  | PLabelCell (cell : LabelCell)
  | PLabelEdit (chain_id : Z) (edit : string * string)
  | PProjectCell (cell : string * string)
  | PProjectEdit (edit : string * string).

(** A page or a redirection, each with the cookie it sets; a file; a text with its status; or no answer,
    where the handler panics. *)
Inductive Response :=
  | RPage (status : Z) (page : Page)
  | RRedirect (target : string) (cookie : option Cookie)
  | RStatic (file : list string)
  | RText (status : Z) (body : string)
  | RRefused (status : Z)
  | RAborted.

(** [WebError::into_response]; the hexadecimal decoder's message is not modelled. *)
Definition into_response (e : WebError) : Response :=
  match e with
  | BadRequest message => RText 400 message
  | BadHex => RRefused 400
  | BadLength got => RText 400 ("address must be 20 bytes, got " +:+ i64_text (Z.of_nat got))
  | NotFound => RText 404 "not found"
  | _ => RText 500 "internal server error"
  end.

(** What ends a handler early: an extractor's rejection, or an error of its own. *)
Inductive Failure :=
  | FRejected (r : Response)
  | FWeb (e : WebError).
End answers.

(** ** Handlers *)

Section handlers.
Context {W : Type} `{Externals, Strings, Crypto, Markdown, UrlDecoding, Decimals, Dates, !PageTexts,
  Store W, WebStore W, !Reports W, !AdminQueries W, HealthQueries W, Monitor W, QueueServer W,
  SortedSet W, Sources W, PriceApi W, !PriceStore W, LlmApi W, Clock W, Settings W}.
(** Texts of errors and values shown, [BigDecimal::from_str], [Path::exists], [serde_json::to_string] of a
    bundle, and the prompt. *)
Variables (price_error_text : PriceError → string) (decimal_text : BigDecimal → string)
  (day_date_text : Z → string) (decimal_of_text : string → option BigDecimal)
  (path_exists : string → bool) (bundle_json : DiagnosticsBundle → string + string)
  (SYSTEM_PROMPT : string).
(** The configuration, and the time. *)
Variables (cfg : AppConfig) (now : Z).

Abbreviation Run A := (Eff Failure (AppState W) A).

(** The parts of the state a handler works on. *)
Definition in_web {E A} (m : Eff E (WebState W) A) : Eff E (AppState W) A :=
  zoom (λ s, mkWeb (ap_world s) (ap_floor s))
    (λ w s, mkApp (ws_world w) (ws_floor w) (ap_cache s) (ap_snapshot s)) m.
Definition in_store {E A} (m : Eff E W A) : Eff E (AppState W) A :=
  zoom ap_world (λ w s, mkApp w (ap_floor s) (ap_cache s) (ap_snapshot s)) m.
Definition resolving {E A} (m : Eff E (ResolverWorld W) A) : Eff E (AppState W) A :=
  zoom (λ s, mkResolverWorld (ap_world s) (ap_snapshot s))
    (λ w s, mkApp (rw_world w) (ap_floor s) (ap_cache s) (rw_snapshot w)) m.
Definition diagnosing {E A} (m : Eff E (DiagState W) A) : Eff E (AppState W) A :=
  zoom (λ s, mkDiag (ap_world s) (ap_cache s))
    (λ w s, mkApp (dg_world w) (ap_floor s) (dg_cache w) (ap_snapshot s)) m.

(** ** Extractors *)

Definition rejected {A} (r : Response) : Run A := eff_res (Err (FRejected r)).

Definition auth_user (req : HttpRequest) : Run string :=
  match from_request_parts (ac_auth cfg) now (rq_cookie req) (rq_path req) (rq_query req) with
  | inl user => mret user
  | inr target => rejected (RRedirect target None)
  end.
Definition path_param (segment : string) : Run string :=
  match percent_decode segment with Some s => mret s | None => rejected (RRefused 400) end.
Definition read_query {A} (read : list (string * string) → option A) (req : HttpRequest) : Run A :=
  match read (urlencoded (default ""%string (rq_query req))) with
  | Some a => mret a
  | None => rejected (RRefused 400)
  end.
Definition read_form {A} (read : list (string * string) → option A) (req : HttpRequest) : Run A :=
  match rq_form req with
  | None => rejected (RRefused 415)
  | Some body => match read (urlencoded body) with Some a => mret a | None => rejected (RRefused 422) end
  end.

(** ** Answers of handlers *)

Definition page_of {A} (m : Eff WebError (AppState W) A) (view : A → Page) : Run Response :=
  a ← eff_map_err FWeb m; mret (RPage 200 (view a)).
Definition redirected (m : Eff WebError (AppState W) string) : Run Response :=
  target ← eff_map_err FWeb m; mret (RRedirect target None).
(** A banner reports the handler's errors itself. *)
Definition banner_answer (m : Eff string (AppState W) RefreshBanner) : Run Response :=
  b ← eff_map_err (λ e, FWeb (Internal e)) m; mret (RPage 200 (PBanner b)).

Definition login_get (next : option string) : Response := RPage 200 (PLogin None (default "/"%string next)).
Definition login_answer (r : LoginResponse) : Response :=
  match r with
  | RedirectTo target cookie => RRedirect target (Some cookie)
  | LoginAgain error next => RPage 401 (PLogin (Some error) next)
  end.

(** [current_data_floor]. *)
Definition current_data_floor : Run (option Date) := λ s, (Ok (ap_floor s), s).
Definition admin_page (user : string) : Run Response :=
  health ← eff_map_err FWeb (in_store (collect_health (ac_chain_id cfg) (ac_warn_threshold cfg)));
  floor ← current_data_floor;
  mret (RPage 200 (PAdmin user health (ac_chain_id cfg) (default ""%string (date_text <$> floor)))).

Definition diagnose_answer : Run Response :=
  r ← eff_try (diagnosing (diagnose bundle_json SYSTEM_PROMPT (ac_diagnose cfg)));
  mret (RPage 200 match r with inl fragment => PDiagnose fragment | inr e => PDiagnoseError e end).

Abbreviation chain := (ac_chain_id cfg).

Definition handle (req : HttpRequest) (h : Handler) : Run Response :=
  match h with
  | HOverview =>
      user ← auth_user req; group ← read_query overview_query req;
      page_of (in_web (overview chain group)) (POverview user)
  | HProject slug =>
      user ← auth_user req; slug ← path_param slug; tx_q ← read_query tx_query req;
      page_of (in_web (project_page chain slug tx_q)) (PProject user)
  | HContract address =>
      user ← auth_user req; address ← path_param address; tx_q ← read_query tx_query req;
      page_of (in_web (contract_page chain address tx_q)) (PContract user)
  | HFunction address selector =>
      user ← auth_user req; address ← path_param address; selector ← path_param selector;
      tx_q ← read_query tx_query req;
      page_of (in_web (function_page chain address selector tx_q)) (PFunction user)
  | HUnknowns =>
      user ← auth_user req; tab ← read_query unknowns_query req;
      page_of (in_web (unknowns chain tab)) (PUnknowns user)
  | HAdmin => user ← auth_user req; admin_page user
  | HHealth =>
      _ ← auth_user req; page_of (in_store (collect_health chain (ac_warn_threshold cfg))) PHealth
  | HCandidates =>
      _ ← auth_user req; q ← read_query candidates_query req;
      page_of (in_web (candidates_partial decimal_of_text chain (cn_days q) (cn_min_eth q))) PCandidates
  | HDataFloor => _ ← auth_user req; floor ← read_form data_floor_form req; banner_answer (in_web (set_data_floor floor))
  | HRollups => _ ← auth_user req; banner_answer (resolving refresh_rollups_now)
  | HEthPrice =>
      _ ← auth_user req;
      banner_answer (resolving (refresh_eth_price_button price_error_text decimal_text (ac_buttons cfg)))
  | HBackfill =>
      _ ← auth_user req;
      banner_answer (resolving (backfill_eth_prices price_error_text day_date_text (ac_buttons cfg)))
  | HResolver => _ ← auth_user req; banner_answer (resolving (refresh_resolver path_exists (ac_buttons cfg)))
  | HLabeler => _ ← auth_user req; banner_answer (resolving (refresh_labeler (ac_buttons cfg)))
  | HRelabel => _ ← auth_user req; banner_answer (resolving refresh_relabel)
  | HDiagnose => _ ← auth_user req; diagnose_answer
  | HBlacklist => user ← auth_user req; page_of (in_web (blacklist_page chain)) (PBlacklist user chain)
  | HBlacklistAdd =>
      user ← auth_user req; f ← read_form blacklist_add_form req;
      redirected (in_store (blacklist_add user chain (ba_address f) (ba_selector f) (ba_reason f)))
  | HBlacklistRemove =>
      _ ← auth_user req; f ← read_form blacklist_remove_form req;
      redirected (in_store (blacklist_remove chain (br_address f) (br_selector f)))
  | HOrgs => user ← auth_user req; page_of (in_web orgs_page) (POrgs user chain)
  | HOrgsCreate =>
      _ ← auth_user req; f ← read_form org_create_form req;
      redirected (in_store (orgs_create (oc_org_slug f) (oc_org_name f)))
  | HOrgsAssign =>
      _ ← auth_user req; f ← read_form org_assign_form req;
      redirected (in_store (orgs_assign (oa_project_slug f) (oa_org_slug f)))
  | HLabelCell =>
      _ ← auth_user req; q ← read_query cell_query req;
      page_of (in_store (label_cell (default chain (cq_chain_id q)) (cq_address q))) PLabelCell
  | HLabelEdit =>
      _ ← auth_user req; q ← read_query cell_query req;
      let chain_id := default chain (cq_chain_id q) in
      page_of (in_store (label_edit chain_id (cq_address q))) (PLabelEdit chain_id)
  | HLabelOverride =>
      _ ← auth_user req; f ← read_form override_form req;
      page_of (in_store (label_override (ov_chain_id f) (ov_address f) (ov_slug f) (ov_project_name f))) PLabelCell
  | HProjectCell =>
      _ ← auth_user req; slug ← read_query project_query req; page_of (in_store (build_project_cell slug)) PProjectCell
  | HProjectEdit =>
      _ ← auth_user req; slug ← read_query project_query req; page_of (in_store (project_edit slug)) PProjectEdit
  | HProjectRename =>
      _ ← auth_user req; f ← read_form rename_form req;
      page_of (in_store (project_rename (rn_slug f) (rn_project_name f))) PProjectCell
  | HLogin => next ← read_query login_query req; mret (login_get next)
  | HLoginPost =>
      f ← read_form login_form req;
      mret (login_answer (login_post (ac_auth cfg) now (lf_username f) (lf_password f) (lf_next f)))
  | HLogout => mret (login_answer logout)
  | HHealthz => mret (RText 200 "ok")
  | HStatic rest => mret (RStatic rest)
  | HFallback => mret (RRedirect "/" None)
  end.

(** The answer to a request. *)
Definition serve_request (req : HttpRequest) (s : AppState W) : Response * AppState W :=
  match route (rq_method req) (rq_path req) with
  | None => (RRefused 405, s)
  | Some h =>
      let '(r, s) := handle req h s in
      (match r with
       | Ok answer => answer
       | Err (FRejected answer) => answer
       | Err (FWeb e) => into_response e
       | Panic _ => RAborted
       end, s)
  end.
End handlers.

(** ** Starting *)

(** The client of the language model, and the server's socket. *)
Class WebConnections (W : Type) := {
  llm_client_new : Eff string W unit;
  tcp_bind : string → Eff string W unit
}.

Inductive StartError :=
  | SAuth (e : AuthError)      (* "load auth allowlist" *)
  | SPostgres (why : string)   (* "connect postgres" *)
  | SRedis (why : string)      (* "redis client", "redis connection" *)
  | SBind (why : string).      (* "bind {}" *)

Section startup.
Context {W : Type} `{Strings, Dates, Allowlist W, Connections W, WebConnections W, Settings W}.
Abbreviation Run A := (Eff StartError W A).

(** Without a key there is no client, and one that cannot be made is only logged. *)
Definition start_llm (cli : WebCli) : Run (option LlmClient) :=
  let key := trim (wc_openrouter_key cli) in
  if (key =? "")%string then mret None
  else
    made ← eff_try llm_client_new;
    mret match made with
         | inl _ => Some (mkLlmClient key (wc_openrouter_base_url cli) (wc_openrouter_model cli))
         | inr _ => None
         end.

Definition button_config (cli : WebCli) : ButtonConfig :=
  mkButtonConfig (wc_chain_id cli) (wc_price_url cli) (wc_coingecko_base_url cli) (wc_overlay_path cli)
    (wc_defillama_url cli) (wc_labeler_batch_size cli) (wc_labeler_retry_days cli).

(** [main], up to the server's loop. The explorer's key is only looked at for being there. *)
Definition start_web (cli : WebCli) (etherscan_api_key : option string) : Run (AppConfig * option Date) :=
  auth ← eff_map_err SAuth (auth_new (wc_auth_allowlist_path cli) (wc_session_secret cli));
  _ ← eff_map_err SPostgres (store_connect (wc_database_url cli) 6);
  _ ← eff_map_err SRedis (redis_connect (wc_redis_url cli));
  data_floor ← eff_map_err SRedis load_data_floor;
  llm ← start_llm cli;
  let hint := if (default ""%string etherscan_api_key =? "")%string then ""%string else "etherscan"%string in
  let diagnose_config := mkDiagnoseConfig (wc_chain_id cli) hint llm (wc_diagnose_rate_limit_secs cli)
                           (wc_diagnose_cache_ttl_secs cli) in
  _ ← eff_map_err SBind (tcp_bind (wc_bind_addr cli));
  mret (mkAppConfig auth (wc_chain_id cli) (button_config cli) (wc_blocks_behind_warn_threshold cli)
          diagnose_config, data_floor).

Definition start_state (data_floor : option Date) (w : W) : AppState W :=
  mkApp w data_floor DiagnoseCache_default empty_snapshot.
End startup.
