(* ===== verification/ServerSpec.v ===== *)
(** * Who the dashboard answers

    Without a session the server shows the way to the login and nothing else, and changes nothing; with one,
    it shows its user's pages. A cookie is set by a login with the right password, or cleared. *)

From Stdlib Require Import SpecFloat.
From S2P Require Import Prelude.
From S2P Require Import Effects.
From S2P Require Import Types.
From S2P Require Import Trace.
From S2P Require Import Resolver.
From S2P Require Import Labeler.
From S2P Require Import Jobs.
From S2P Require Import Auth.
From S2P Require Import Refresher.
From S2P Require Import Web.
From S2P Require Import Diagnose.
From S2P Require Import Format.
From S2P Require Import Pages.
From S2P Require Import Admin.
From S2P Require Import Server.

(** ** Queries *)

(** A key given at most once, with a value that reads. *)
Definition readable {A} (parse : string → option A) (key : string) (fields : list (string * string)) : Prop :=
  match snd <$> List.filter (λ p, p.1 =? key)%string fields with
  | [] => True
  | [v] => is_Some (parse v)
  | _ => False
  end.

Lemma optional_reads {A} (parse : string → option A) key fields :
  is_Some (optional parse key fields) ↔ readable parse key fields.
Proof.
  unfold optional, field, readable. destruct (snd <$> _) as [|v [|]]; cbn.
  - split; [done|]. intros _. by eexists.
  - destruct (parse v); cbn; split; intros [? [=]]; by eexists.
  - split; [by intros [? [=]]|done].
Qed.

(** the query of a page with transactions is accepted exactly if each of its four fields is given at most
    once and the page and the least gas saved, where given, are numbers of their widths: the empty text a
    browser sends for an empty field of the filter is not, and the page is refused. *)
Theorem tx_query_accepts fields :
  is_Some (tx_query fields) ↔
  readable parse_u32 "page" fields ∧ readable Some "from" fields ∧ readable Some "to" fields ∧
  readable parse_i64 "min_gas_saved" fields.
Proof.
  rewrite <-!optional_reads. unfold tx_query. split.
  - intros [q Hq]. destruct (optional parse_u32 _ _); [|done]. destruct (optional Some "from" _); [|done].
    destruct (optional Some "to" _); [|done]. destruct (optional parse_i64 _ _); [|done]. split_and!; by eexists.
  - intros ([? ->] & [? ->] & [? ->] & [? ->]). by eexists.
Qed.

(** The filter's form, left empty. *)
Example empty_filter_refused : tx_query [("from", ""); ("to", ""); ("min_gas_saved", "")]%string = None.
Proof. reflexivity. Qed.

(** ** The guard *)

(** The user of the session a request shows. *)
Definition session `{Crypto} (cfg : AppConfig) (now : Z) (req : HttpRequest) : option string :=
  rq_cookie req ≫= verify_token (ac_auth cfg) now.

Section answers.
Context `{Decimals, Dates}.

(** The user a page is made for. *)
Definition page_user (p : Page) : option string :=
  match p with
  | POverview user _ | PProject user _ | PContract user _ | PFunction user _ | PUnknowns user _
  | PAdmin user _ _ _ | PBlacklist user _ _ | POrgs user _ _ => Some user
  | _ => None
  end.

(** What anyone may see: the login, files, that the server is up, and refusals. *)
Definition public (r : Response) : Prop :=
  match r with
  | RPage _ (PLogin _ _) | RStatic _ | RRefused _ => True
  | RRedirect target None => target = "/"%string ∨ String.prefix "/login?next=" target = true
  | RRedirect target (Some _) => String.prefix "/" target = true
  | RText status body => status = 200 ∧ body = "ok"%string
  | _ => False
  end.
Definition shown_to (user : string) (r : Response) : Prop :=
  match r with
  | RPage _ p => match page_user p with Some u => u = user | None => True end
  | _ => True
  end.

(** A cookie that is set is that of a login with the right password, or none. *)
Definition cookie_earned `{Crypto, UrlDecoding} (cfg : AppConfig) (now : Z) (req : HttpRequest) (r : Response)
  : Prop :=
  match r with
  | RRedirect _ (Some c) =>
      c = clear_cookie ∨ ∃ body f user, rq_form req = Some body ∧ login_form (urlencoded body) = Some f ∧
        verify_password (ac_auth cfg) (lf_username f) (lf_password f) = Some user ∧
        c = session_cookie (issue_token (ac_auth cfg) now user)
  | _ => True
  end.

(** What a request may be answered. *)
Definition proper `{Crypto, UrlDecoding} (cfg : AppConfig) (now : Z) (req : HttpRequest) (r : Response) : Prop :=
  match session cfg now req with Some user => shown_to user r | None => public r end ∧
  cookie_earned cfg now req r.
Definition proper_failure `{Crypto, UrlDecoding} (cfg : AppConfig) (now : Z) (req : HttpRequest) (e : Failure)
  : Prop :=
  match e with FRejected r => proper cfg now req r | FWeb _ => is_Some (session cfg now req) end.
End answers.

Section guard.
Context {W : Type} `{Externals, Strings, Crypto, Markdown, UrlDecoding, Decimals, Dates, !PageTexts,
  Store W, WebStore W, !Reports W, !AdminQueries W, HealthQueries W, Monitor W, QueueServer W,
  SortedSet W, Sources W, PriceApi W, !PriceStore W, LlmApi W, Clock W, Settings W}.
Variables (price_error_text : PriceError → string) (decimal_text : BigDecimal → string)
  (day_date_text : Z → string) (decimal_of_text : string → option BigDecimal)
  (path_exists : string → bool) (bundle_json : DiagnosticsBundle → string + string)
  (SYSTEM_PROMPT : string) (cfg : AppConfig) (now : Z) (req : HttpRequest).

Abbreviation answers I m := (ensures I m (proper cfg now req) (proper_failure cfg now req)).

(** A refusal, and a page that is nobody's or the user's. *)
Lemma proper_refused status : proper cfg now req (RRefused status).
Proof. unfold proper. by destruct (session cfg now req). Qed.
Lemma proper_page user status p :
  session cfg now req = Some user → match page_user p with Some u => u = user | None => True end →
  proper cfg now req (RPage status p).
Proof. unfold proper. by intros ->. Qed.
Lemma proper_redirect user target : session cfg now req = Some user → proper cfg now req (RRedirect target None).
Proof. unfold proper. by intros ->. Qed.

(** Where a request without a session is sent. *)
Definition login_target : string :=
  "/login?next=" +:+ urlencode (rq_path req) +:+ urlencode (default "" (String.append "?" <$> rq_query req))%string.

Lemma auth_user_session :
  auth_user (W := W) cfg now req =
  match session cfg now req with
  | Some user => mret user
  | None => rejected (RRedirect login_target None)
  end.
Proof.
  unfold auth_user, from_request_parts, session. by destruct (rq_cookie req ≫= verify_token (ac_auth cfg) now).
Qed.

(** Without a session a guarded handler ends at its guard. *)
Lemma guard_closed {A} (I : AppState W → Prop) (k : string → Eff Failure (AppState W) A) Q :
  session cfg now req = None →
  ensures I (auth_user cfg now req ≫= k) Q (proper_failure cfg now req).
Proof.
  intros Hno. rewrite auth_user_session, Hno. apply (ensures_bind _ _ _ (λ _, False)); [|done].
  apply ensures_res. unfold res_sat, proper_failure, proper. rewrite Hno. split; [|done].
  right. apply prefix_append.
Qed.
Lemma guard_open {A} (k : string → Eff Failure (AppState W) A) user :
  session cfg now req = Some user → auth_user cfg now req ≫= k = k user.
Proof. intros Huser. by rewrite auth_user_session, Huser. Qed.

Lemma rejects {A B} I status (k : A → Eff Failure (AppState W) B) Q :
  ensures I (rejected (RRefused status) ≫= k) Q (proper_failure cfg now req).
Proof.
  apply (ensures_bind _ _ _ (λ _, False)); [|by intros ? []]. apply ensures_res. cbn. apply proper_refused.
Qed.
Lemma reads_query {A B} I (read : list (string * string) → option A) (k : A → Eff Failure (AppState W) B) Q :
  (∀ a, ensures I (k a) Q (proper_failure cfg now req)) →
  ensures I (read_query read req ≫= k) Q (proper_failure cfg now req).
Proof. intros Hk. unfold read_query. case_match; [apply Hk|apply rejects]. Qed.
Lemma reads_form {A B} I (read : list (string * string) → option A) (k : A → Eff Failure (AppState W) B) Q :
  (∀ body a, rq_form req = Some body → read (urlencoded body) = Some a →
    ensures I (k a) Q (proper_failure cfg now req)) →
  ensures I (read_form read req ≫= k) Q (proper_failure cfg now req).
Proof.
  intros Hk. unfold read_form. destruct (rq_form req) as [body|]; [|apply rejects].
  destruct (read (urlencoded body)) eqn:Hread; [by eapply Hk|apply rejects].
Qed.
Lemma reads_param {B} I segment (k : string → Eff Failure (AppState W) B) Q :
  (∀ a, ensures I (k a) Q (proper_failure cfg now req)) →
  ensures I (path_param segment ≫= k) Q (proper_failure cfg now req).
Proof. intros Hk. unfold path_param. case_match; [apply Hk|apply rejects]. Qed.

(** Whatever a computation does, with a session. *)
Lemma ensures_anything {E A} (m : Eff E (AppState W) A) : ensures anywhere m (λ _, True) (λ _, True).
Proof. intros s r s' _ _. split; [done|]. by destruct r. Qed.
Lemma own_error {A} user (m : Eff WebError (AppState W) A) Q :
  session cfg now req = Some user → (∀ a, Q a) →
  ensures anywhere (eff_map_err FWeb m) Q (proper_failure cfg now req).
Proof.
  intros Huser HQ. apply ensures_map_err. eapply ensures_weaken; [apply ensures_anything|auto|].
  intros e _. cbn. rewrite Huser. by eexists.
Qed.

Section user.
Variable user : string.
Hypothesis Huser : session cfg now req = Some user.

Lemma answers_page {A} (m : Eff WebError (AppState W) A) view :
  (∀ a, match page_user (view a) with Some u => u = user | None => True end) →
  answers anywhere (page_of m view).
Proof.
  intros Hview. unfold page_of. apply (ensures_bind _ _ _ (λ _, True)); [by eapply own_error|].
  intros a _. apply ensures_ret, (proper_page user); [done|apply Hview].
Qed.
Lemma answers_redirect (m : Eff WebError (AppState W) string) : answers anywhere (redirected m).
Proof.
  unfold redirected. apply (ensures_bind _ _ _ (λ _, True)); [by eapply own_error|].
  intros a _. apply ensures_ret. by apply (proper_redirect user).
Qed.
Lemma answers_banner (m : Eff string (AppState W) RefreshBanner) : answers anywhere (banner_answer m).
Proof.
  unfold banner_answer. apply (ensures_bind _ _ _ (λ _, True)).
  - apply ensures_map_err. eapply ensures_weaken; [apply ensures_anything|auto|]. intros e _. cbn.
    rewrite Huser. by eexists.
  - intros a _. apply ensures_ret. by apply (proper_page user).
Qed.
End user.

Ltac read_step :=
  first [apply reads_query; intros ?|apply reads_param; intros ?|apply reads_form; intros ? ? _ _].

Lemma login_proper body f :
  rq_form req = Some body → login_form (urlencoded body) = Some f →
  proper cfg now req (login_answer (login_post (ac_auth cfg) now (lf_username f) (lf_password f) (lf_next f))).
Proof.
  intros Hbody Hf. unfold login_post. destruct (verify_password _ _ _) as [name|] eqn:Hv; cbn.
  - split; [|by right; exists body, f, name]. destruct (session cfg now req); [done|]. cbn.
    unfold sanitize_next. destruct (lf_next f) as [n|]; [|done]. destruct (String.prefix "/" n) eqn:Hn; [|done].
    by destruct (String.prefix "//" n).
  - split; [|done]. by destruct (session cfg now req).
Qed.

(** Nothing changes without a session. *)
Definition held (s0 s : AppState W) : Prop :=
  match session cfg now req with Some _ => True | None => s = s0 end.

Abbreviation answer_of := (handle price_error_text decimal_text day_date_text decimal_of_text path_exists
  bundle_json SYSTEM_PROMPT cfg now req).

Lemma open_answers user s0 (m : Eff Failure (AppState W) Response) :
  session cfg now req = Some user → answers anywhere m → answers (held s0) m.
Proof.
  intros Huser Hm s r s' _ Hrun. unfold held. rewrite Huser. split; [done|]. by eapply (Hm s r s').
Qed.

Lemma proper_anyone r : (∀ user, shown_to user r) → public r → cookie_earned cfg now req r → proper cfg now req r.
Proof. unfold proper. destruct (session cfg now req); auto. Qed.

(** The handlers without a guard. *)
Lemma unguarded_answers s0 :
  answers (held s0) (answer_of HLogin) ∧ answers (held s0) (answer_of HLoginPost) ∧ answers (held s0) (answer_of HLogout) ∧
  answers (held s0) (answer_of HHealthz) ∧ (∀ rest, answers (held s0) (answer_of (HStatic rest))) ∧
  answers (held s0) (answer_of HFallback).
Proof.
  split_and!; cbn [handle].
  - apply reads_query. intros next. by apply ensures_ret, proper_anyone.
  - apply reads_form. intros body f Hbody Hf. apply ensures_ret. by eapply login_proper.
  - apply ensures_ret, proper_anyone; [done|done|by left].
  - by apply ensures_ret, proper_anyone.
  - intros rest. by apply ensures_ret, proper_anyone.
  - apply ensures_ret, proper_anyone; [done| |done]. by left.
Qed.

(** The others, each with its guard first. *)
Lemma handle_answers s0 h : answers (held s0) (answer_of h).
Proof.
  destruct (unguarded_answers s0) as (Hl & Hlp & Hlo & Hh & Hs & Hf).
  destruct (session cfg now req) as [user|] eqn:Huser.
  - destruct h; try solve [done|apply Hs]; apply (open_answers user); try done; cbn [handle];
      rewrite (guard_open _ user Huser); repeat read_step;
      first [by apply (answers_page user)|by apply (answers_redirect user)|by apply (answers_banner user)|idtac].
    + unfold admin_page. apply (ensures_bind _ _ _ (λ _, True)); [by eapply own_error|]. intros health _.
      apply (ensures_bind _ _ _ (λ _, True)); [by intros s r s' _ [= <- <-]|]. intros floor _.
      by apply ensures_ret, (proper_page user).
    + unfold diagnose_answer. apply (ensures_bind _ _ _ (λ _, True)).
      * by apply (ensures_try _ _ (λ _, True) (λ _, True)); [apply ensures_anything|..].
      * intros r _. apply ensures_ret, (proper_page user); [done|]. by destruct r.
  - destruct h; try solve [done|apply Hs]; cbn [handle]; by apply guard_closed.
Qed.

(** Without a session nothing runs that could panic. *)
Lemma closed_no_panic h s why s' : session cfg now req = None → answer_of h s ≠ (Panic why, s').
Proof.
  intros Hno. destruct h; cbn [handle]; unfold read_query, read_form, mbind, eff_bind;
    rewrite ?auth_user_session, ?Hno; try done; repeat case_match; try done; congruence.
Qed.
End guard.

(** C11: without a valid session in its cookie, a request changes nothing of the server and is answered the login
    page, the way to it, a file, that the server is up, or a refusal; with one, every page made for a user
    is made for the session's. A cookie is set only by a login whose password is right for a listed user,
    and is then a session of that user; any other one is cleared. *)
Theorem sessions_guard {W : Type} `{Externals, Strings, Crypto, Markdown, UrlDecoding, Decimals, Dates, !PageTexts,
    Store W, WebStore W, !Reports W, !AdminQueries W, HealthQueries W, Monitor W, QueueServer W,
    SortedSet W, Sources W, PriceApi W, !PriceStore W, LlmApi W, Clock W, Settings W}
    price_error_text decimal_text day_date_text decimal_of_text path_exists bundle_json SYSTEM_PROMPT
    cfg now req (s : AppState W) :
  let '(r, s') := serve_request price_error_text decimal_text day_date_text decimal_of_text path_exists
                    bundle_json SYSTEM_PROMPT cfg now req s in
  match session cfg now req with
  | Some user => shown_to user r
  | None => s' = s ∧ public r
  end ∧ cookie_earned cfg now req r.
Proof.
  unfold serve_request. destruct (route (rq_method req) (rq_path req)) as [h|].
  2: { pose proof (proper_refused cfg now req 405) as [Hp Hc]. split; [|done]. by destruct (session cfg now req). }
  destruct (handle _ _ _ _ _ _ _ cfg now req h s) as [r s'] eqn:Hrun. pose proof Hrun as Hrun'.
  apply (handle_answers _ _ _ _ _ _ _ cfg now req s h) in Hrun' as [Hheld Hr].
  2: { unfold held. by destruct (session cfg now req). }
  unfold held in Hheld. destruct r as [a|[a|e]|p]; cbn in Hr.
  - destruct Hr as [Hp Hc]. split; [|done]. by destruct (session cfg now req).
  - destruct Hr as [Hp Hc]. split; [|done]. by destruct (session cfg now req).
  - destruct Hr as [user ->]. destruct e; by split.
  - destruct (session cfg now req) eqn:Hno; [by split|]. exfalso. by eapply closed_no_panic.
Qed.
