(* ===== verification/ServerDb.v ===== *)
(** * The dashboard on the database

    The answer to a request is a run of the statements its form is for, whoever else holds the connection; and
    of the rest of the server's state each part is changed by one form only. *)

From Stdlib Require Import SpecFloat.
From S2P Require Import Prelude.
From S2P Require Import Effects.
From S2P Require Import Types.
From S2P Require Import Trace.
From S2P Require Import Jobs.
From S2P Require Import Resolver.
From S2P Require Import Labeler.
From S2P Require Import Auth.
From S2P Require Import Refresher.
From S2P Require Import Web.
From S2P Require Import Diagnose.
From S2P Require Import Format.
From S2P Require Import Pages.
From S2P Require Import Admin.
From S2P Require Import Service.
From S2P Require Import Database.
From S2P Require Import DatabaseSpec.
From S2P Require Import Queries.
From S2P Require Import DbWorld.
From S2P Require Import ServiceDb.
From S2P Require Import Server.
From S2P Require Import ServerSpec.

(** ** What a handler may run *)

(** The mapping that a form of an override sets. *)
Definition override_of `{Externals, Strings, UrlDecoding} (req : HttpRequest) (chain address : Z) : Prop :=
  ∃ body f, rq_form req = Some body ∧ override_form (urlencoded body) = Some f ∧
    chain = wrap64 (ov_chain_id f) ∧ parse_addr (ov_address f) = Ok address.

(** What the forms of the blacklist are about: a contract or a function of it, and why it is put there. *)
Definition added_of `{Externals, Strings, UrlDecoding} (req : HttpRequest) (address : Z)
    (selector : option (list Z)) (reason : string) : Prop :=
  ∃ body f, rq_form req = Some body ∧ blacklist_add_form (urlencoded body) = Some f ∧
    parse_hex_address (ba_address f) = Some address ∧ form_selector (ba_selector f) = Ok selector ∧
    reason = trim (ba_reason f) ∧ reason ≠ ""%string.
Definition removed_of `{Externals, Strings, UrlDecoding} (req : HttpRequest) (address : Z)
    (selector : option (list Z)) : Prop :=
  ∃ body f, rq_form req = Some body ∧ blacklist_remove_form (urlencoded body) = Some f ∧
    parse_hex_address (br_address f) = Some address ∧ form_selector (br_selector f) = Ok selector.

(** The statements of a handler, for a user. *)
Definition may `{Externals, Strings, UrlDecoding, Numeric} (cfg : AppConfig) (req : HttpRequest) (user : string)
    (h : Handler) (st : Request) : Prop :=
  match h, st with
  | HRollups, RRefreshRollups | HRelabel, RRelabel => True
  | (HEthPrice | HBackfill), RUpsertEthPrice _ _ => True
  | HResolver, (RUpsertProject _ | RUpsertAddressProject _ _ _ | RRelabel) => True
  | HBlacklistAdd, RBlacklistAdd chain address selector reason by_ =>
      chain = wrap64 (ac_chain_id cfg) ∧ by_ = user ∧ added_of req address selector reason
  | HBlacklistRemove, RBlacklistRemove chain address selector =>
      chain = wrap64 (ac_chain_id cfg) ∧ removed_of req address selector
  | HOrgsCreate, ROrgUpsert _ _ | HOrgsAssign, RAssignOrg _ _ | HProjectRename, RRenameProject _ _ => True
  | HLabelOverride, (RUpsertProject _ | RRelabel | RRefreshRollups) => True
  | HLabelOverride, RUpsertManual chain address _ => override_of req chain address
  | _, _ => False
  end.

(** The handlers that only show something. *)
Definition reads (h : Handler) : bool :=
  match h with
  | HDataFloor | HRollups | HEthPrice | HBackfill | HResolver | HLabeler | HRelabel | HDiagnose | HBlacklistAdd
  | HBlacklistRemove | HOrgsCreate | HOrgsAssign | HLabelOverride | HProjectRename => false
  | _ => true
  end.

Lemma get_reads path : match get_route path with Some h => reads h = true | None => True end.
Proof.
  unfold get_route.
  repeat (match goal with |- context [match ?x with _ => _ end] => is_var x; destruct x end;
    try exact I; try reflexivity).
  all: first [by destruct (param _)|by destruct (param _ && param _)].
Qed.
Lemma known_reads m path h :
  (if bool_decide (is_Some (get_route path)) || bool_decide (is_Some (post_route path))
   then if is_get m then get_route path else if bool_decide (m = POST) then post_route path else None
   else if is_get m then Some HFallback else None) = Some h → m ≠ POST → reads h = true.
Proof.
  intros Hh Hm. rewrite (bool_decide_false (m = POST)) in Hh by done. destruct (_ || _), (is_get m); simplify_eq; [|done].
  pose proof (get_reads path) as Hr. by rewrite Hh in Hr.
Qed.
Lemma route_reads m path h : route m path = Some h → m ≠ POST → reads h = true.
Proof.
  unfold route. generalize (segments path). intros segs Hh Hm.
  repeat match type of Hh with context [match ?x with _ => _ end] => is_var x; destruct x end;
    first [by eapply known_reads|by destruct (is_get m); simplify_eq].
Qed.
Lemma reads_runs_nothing `{Externals, Strings, UrlDecoding, Numeric} cfg req user h st :
  reads h = true → ¬ may cfg req user h st.
Proof. destruct h; try done; intros _ Hst; by destruct st. Qed.

Section handlers.
Context {W : Type} `{Externals, Strings, Crypto, Markdown, UrlDecoding, Numeric, Dates, !PageTexts, !Aggregates,
  !ListTexts, Connection W, DashboardWorld W, QueueServer W, SortedSet W, Sources W, PriceApi W, LlmApi W,
  Clock W, Settings W}.

(** What a handler may change of the server's state. *)
Record changes (P : Request → Prop) (h : Handler) (s s' : AppState (DbState W)) : Prop := {
  changes_tables : runs (W := W) P (db_tables (ap_world s)) (db_tables (ap_world s'));
  changes_floor : h ≠ HDataFloor → ap_floor s' = ap_floor s;
  changes_cache : h ≠ HDiagnose → ap_cache s' = ap_cache s;
  changes_snapshot : h ≠ HResolver → ap_snapshot s' = ap_snapshot s
}.
#[export] Instance changes_preorder P h : PreOrder (changes P h).
Proof.
  split.
  - intros s. by split.
  - intros s t u [Ht Hf Hc Hn] [Ht' Hf' Hc' Hn']. split; [by etransitivity|..]; intros Hh;
      [rewrite Hf', Hf|rewrite Hc', Hc|rewrite Hn', Hn]; done.
Qed.

(** The state of a page: it keeps the floor. *)
Definition web_changes (P : Request → Prop) (s s' : WebState (DbState W)) : Prop :=
  runs (W := W) P (db_tables (ws_world s)) (db_tables (ws_world s')) ∧ ws_floor s' = ws_floor s.
#[export] Instance web_changes_preorder P : PreOrder (web_changes P).
Proof.
  split.
  - intros s. by split.
  - intros s t u [] []. split; [by etransitivity|congruence].
Qed.

(** ** Parts of the state *)

Lemma respects_in_store {E A} P h (m : Eff E (DbState W) A) :
  respects db_tables (runs (W := W) P) m → respects id (changes P h) (in_store m).
Proof. apply respects_zoom. by split. Qed.
Lemma respects_in_web {E A} P h (m : Eff E (WebState (DbState W)) A) :
  respects id (web_changes P) m → respects id (changes P h) (in_web m).
Proof. apply respects_zoom. intros s t [Ht Hf]. by split. Qed.
Lemma respects_resolving {E A} P h (m : Eff E (ResolverWorld (DbState W)) A) :
  h = HResolver → respects resolver_tables (runs (W := W) P) m → respects id (changes P h) (resolving m).
Proof. intros ->. apply respects_zoom. by split. Qed.
Lemma respects_on_db {A} P (m : Eff WebError (DbState W) A) :
  respects db_tables (runs (W := W) P) m → respects id (web_changes P) (on_db m).
Proof. apply respects_zoom. by split. Qed.
Lemma respects_floored {A} P (q : option Date → Eff WebError (DbState W) A) :
  (∀ f, respects db_tables (runs (W := W) P) (q f)) → respects id (web_changes P) (floored q).
Proof. intros Hq s. by apply respects_on_db. Qed.

(** The other buttons keep the resolver's names. *)
Definition resolver_kept P (s s' : ResolverWorld (DbState W)) : Prop :=
  runs (W := W) P (resolver_tables s) (resolver_tables s') ∧ rw_snapshot s' = rw_snapshot s.
#[export] Instance resolver_kept_preorder P : PreOrder (resolver_kept P).
Proof.
  split.
  - intros s. by split.
  - intros s t u [] []. split; [by etransitivity|congruence].
Qed.
Lemma respects_button {E A} P h (m : Eff E (ResolverWorld (DbState W)) A) :
  respects id (resolver_kept P) m → respects id (changes P h) (resolving m).
Proof. apply respects_zoom. intros s t [Ht Hf]. by split. Qed.
Lemma kept_on_store {E A} P (m : Eff E (DbState W) A) :
  respects db_tables (runs (W := W) P) m → respects id (resolver_kept P) (on_store m).
Proof. apply respects_zoom. by split. Qed.
Lemma respects_diagnosing {E A} P (m : Eff E (DiagState (DbState W)) A) :
  respects (λ s, db_tables (dg_world s)) (runs (W := W) P) m → respects id (changes P HDiagnose) (diagnosing m).
Proof. apply respects_zoom. by split. Qed.

(** ** Pages *)

Ltac follow_page :=
  repeat first
    [ follow_step
    | apply respects_in_web | apply respects_on_db | apply respects_floored; intros ?
    | progress cbn [Pages.overview_totals Pages.leaderboard_30d Pages.leaderboard_functions_30d
        Pages.leaderboard_contracts_30d Pages.leaderboard_orgs_30d Pages.daily_overview
        Pages.project_header_row Pages.project_totals Pages.daily_for_project
        Pages.top_contracts_for_project Pages.top_selectors_for_project Pages.contract_header_row
        Pages.contract_totals Pages.functions_for_contract Pages.daily_for_contract
        Pages.function_header_row Pages.function_totals Pages.daily_for_function
        Pages.top_unresolved_selectors Pages.top_unknowns Pages.fetch_recent_txs
        Pages.now_nanos
        dashboard_reports database_reports
        Admin.new_high_savings_candidates Admin.list_orgs Admin.list_projects Admin.blacklist_list
        Admin.analysis_day_range dashboard_admin database_admin]
    | solve [apply respects_ask] ].

Lemma overview_runs P chain group : respects id (web_changes P) (overview (W := DbState W) chain group).
Proof. unfold overview, overview_leaderboard. follow_page. Qed.
Lemma each_now_runs {A B} P (view : Z → A → B) rows :
  respects id (web_changes P) (each_now (W := DbState W) view rows).
Proof. unfold each_now. follow_page. Qed.
Lemma recent_runs P query tx_q : respects id (web_changes P) (recent_table (W := DbState W) query tx_q).
Proof. unfold recent_table. follow_page. apply each_now_runs. Qed.
Lemma project_runs P chain slug tx_q : respects id (web_changes P) (project_page (W := DbState W) chain slug tx_q).
Proof. unfold project_page. follow_page. apply recent_runs. Qed.
Lemma contract_runs P chain address tx_q :
  respects id (web_changes P) (contract_page (W := DbState W) chain address tx_q).
Proof. unfold contract_page, contract_header. follow_page. apply recent_runs. Qed.
Lemma function_runs P chain address selector tx_q :
  respects id (web_changes P) (function_page (W := DbState W) chain address selector tx_q).
Proof. unfold function_page, function_header. follow_page. apply recent_runs. Qed.
Lemma unknowns_runs P chain tab : respects id (web_changes P) (unknowns (W := DbState W) chain tab).
Proof. unfold unknowns. follow_page. apply each_now_runs. Qed.
Lemma candidates_runs P decimal_of_text chain days min_eth :
  respects id (web_changes P) (candidates_partial (W := DbState W) decimal_of_text chain days min_eth).
Proof. unfold candidates_partial, candidate_view. follow_page. Qed.
Lemma orgs_runs P : respects id (web_changes P) (orgs_page (W := DbState W)).
Proof. unfold orgs_page. follow_page. Qed.
Lemma blacklist_runs P chain : respects id (web_changes P) (blacklist_page (W := DbState W) chain).
Proof. unfold blacklist_page. follow_page. Qed.

(** The data floor: the form changes nothing in the tables. *)
Lemma floor_runs P form :
  respects id (changes P HDataFloor) (in_web (set_data_floor (W := DbState W) form)).
Proof.
  apply (respects_zoom (λ s, db_tables (ws_world s)) _ (runs (W := W) P)); [by split|].
  unfold set_data_floor, store_floor. follow; try (by intros s);
    (eapply respects_zoom; [done|]; apply respects_outside).
Qed.

(** ** Forms, cells and the health view *)

Ltac follow_form :=
  repeat first
    [ follow_step
    | progress cbn [Web.org_upsert Web.project_assign_org Web.blacklist_add_row Web.blacklist_remove_row
        Web.upsert_manual_address_project Web.rename_project Web.is_manual_override Web.refresh_rollups
        Web.resolved_label Web.project_header dashboard_web database_web Labeler.upsert_project
        Labeler.relabel_unknowns database_store llen database_queue zcard database_sorted_set
        Diagnose.analysis_health Diagnose.rows_since Diagnose.unknown_rows Diagnose.labeler_rows
        Diagnose.redis_get_i64 Diagnose.xrevrange Diagnose.now_rfc3339 dashboard_monitor database_monitor
        Admin.heuristic_counts_24h Admin.error_categories_24h dashboard_health database_health]
    | solve [apply respects_ask] ].

Lemma health_runs P chain threshold :
  respects db_tables (runs (W := W) P) (collect_health (W := DbState W) chain threshold).
Proof. unfold collect_health, heuristic_rate_24h, counter, unwrap_or, eff_ok. follow_form. Qed.
Lemma cell_runs P chain addr : respects db_tables (runs (W := W) P) (build_cell (W := DbState W) chain addr).
Proof. unfold build_cell, eff_ok. follow_form. Qed.
Lemma project_cell_runs P slug :
  respects db_tables (runs (W := W) P) (build_project_cell (W := DbState W) slug).
Proof. unfold build_project_cell. follow_form. Qed.

Section forms.
Variables (cfg : AppConfig) (req : HttpRequest) (user : string).
#[local] Hint Extern 1 (may _ _ _ _ _) => (by cbn) : statements.
Abbreviation form_runs h m := (respects db_tables (runs (W := W) (may cfg req user h)) m).

Lemma orgs_create_runs org_slug org_name : form_runs HOrgsCreate (orgs_create (W := DbState W) org_slug org_name).
Proof. unfold orgs_create, redirect. follow_form. Qed.
Lemma orgs_assign_runs project org : form_runs HOrgsAssign (orgs_assign (W := DbState W) project org).
Proof. unfold orgs_assign, redirect. follow_form. Qed.
Lemma blacklist_add_form_runs body f :
  rq_form req = Some body → blacklist_add_form (urlencoded body) = Some f →
  form_runs HBlacklistAdd
    (Web.blacklist_add (W := DbState W) user (ac_chain_id cfg) (ba_address f) (ba_selector f) (ba_reason f)).
Proof.
  intros Hbody Hf. unfold Web.blacklist_add, redirect.
  destruct (String.eqb_spec (trim (ba_reason f)) "") as [_|Hreason]; [by follow_form|].
  assert (∀ addr sel, ok_or (parse_hex_address (ba_address f)) (BadRequest "invalid address") = Ok addr →
    form_selector (ba_selector f) = Ok sel → may cfg req user HBlacklistAdd
      (RBlacklistAdd (wrap64 (ac_chain_id cfg)) addr sel (trim (ba_reason f)) user)).
  { intros addr sel Haddr%ok_or_Ok Hsel. split_and!; [done..|]. by exists body, f. }
  follow_form.
Qed.
Lemma blacklist_remove_form_runs body f :
  rq_form req = Some body → blacklist_remove_form (urlencoded body) = Some f →
  form_runs HBlacklistRemove
    (Web.blacklist_remove (W := DbState W) (ac_chain_id cfg) (br_address f) (br_selector f)).
Proof.
  intros Hbody Hf. unfold Web.blacklist_remove, redirect.
  assert (∀ addr sel, ok_or (parse_hex_address (br_address f)) (BadRequest "invalid address") = Ok addr →
    form_selector (br_selector f) = Ok sel →
    may cfg req user HBlacklistRemove (RBlacklistRemove (wrap64 (ac_chain_id cfg)) addr sel)).
  { intros addr sel Haddr%ok_or_Ok Hsel. split; [done|]. by exists body, f. }
  follow_form.
Qed.
Lemma rename_form_runs slug name : form_runs HProjectRename (project_rename (W := DbState W) slug name).
Proof. unfold project_rename. follow_form; apply project_cell_runs. Qed.
Lemma override_form_runs body f :
  rq_form req = Some body → override_form (urlencoded body) = Some f →
  form_runs HLabelOverride
    (label_override (W := DbState W) (ov_chain_id f) (ov_address f) (ov_slug f) (ov_project_name f)).
Proof.
  intros Hbody Hf. unfold label_override, ignore.
  assert (∀ addr slug, parse_addr (ov_address f) = Ok addr →
    may cfg req user HLabelOverride (RUpsertManual (wrap64 (ov_chain_id f)) addr slug)).
  { intros addr slug Haddr. by exists body, f. }
  follow_form. apply cell_runs.
Qed.

(** ** Buttons *)

Variables (price_error_text : PriceError → string) (decimal_text : BigDecimal → string)
  (day_date_text : Z → string) (decimal_of_text : string → option BigDecimal)
  (path_exists : string → bool) (bundle_json : DiagnosticsBundle → string + string)
  (SYSTEM_PROMPT : string) (now : Z).

Lemma banner_kept {A} P label (m : Eff string (ResolverWorld (DbState W)) A) message :
  respects id (resolver_kept P) m → respects id (resolver_kept P) (banner_of label m message).
Proof. intros Hm. unfold banner_of. by follow. Qed.

Abbreviation button_runs h m := (respects id (resolver_kept (may cfg req user h)) m).

Lemma rollups_button : button_runs HRollups (refresh_rollups_now (W := DbState W)).
Proof.
  apply banner_kept, kept_on_store. cbn [Refresher.refresh_rollups database_prices]. follow_form.
Qed.
Lemma relabel_button : button_runs HRelabel (refresh_relabel (W := DbState W)).
Proof. apply banner_kept, kept_on_store. follow_form. Qed.
Lemma price_button buttons :
  button_runs HEthPrice
    (refresh_eth_price_button (W := DbState W) price_error_text decimal_text buttons).
Proof. apply banner_kept, kept_on_store, respects_map_err, refresh_price_runs. by intros. Qed.
Lemma labeler_button buttons : button_runs HLabeler (refresh_labeler (W := DbState W) buttons).
Proof. apply banner_kept, kept_on_store, producer_runs. Qed.
Lemma backfill_button buttons :
  button_runs HBackfill
    (backfill_eth_prices (W := DbState W) price_error_text day_date_text buttons).
Proof.
  unfold backfill_eth_prices. follow; try apply banner_kept; apply kept_on_store.
  - cbn [Admin.analysis_day_range dashboard_admin database_admin]. follow.
  - cbn [utc_today database_price_api]. follow.
  - apply respects_map_err, backfill_runs. by intros.
Qed.
Lemma resolver_button buttons :
  respects resolver_tables (runs (W := W) (may cfg req user HResolver))
    (refresh_resolver (W := DbState W) path_exists buttons).
Proof. unfold refresh_resolver. follow. apply refresh_resolver_runs. by intros []. Qed.

(** The diagnosis only reads the tables. *)
Lemma diagnose_runs P diagnose_cfg :
  respects id (changes P HDiagnose) (diagnosing (diagnose (W := DbState W) bundle_json SYSTEM_PROMPT diagnose_cfg)).
Proof.
  apply respects_diagnosing. unfold diagnose, gate, fresh_response, call_wait, store_response, read_clock.
  follow; try (by intros s); (eapply respects_zoom; [done|]).
  all: cbn [instant_now database_clock]; follow.
  unfold Diagnose.ask, collect, collect_throughput, collect_top_unknowns, collect_labeler_outcomes,
    collect_recent_events, complete, counter, unwrap_or, eff_ok.
  follow_form; cbn [post_chat response_text response_json database_llm]; follow.
Qed.

(** ** Requests *)

Abbreviation handled := (handle (W := DbState W) price_error_text decimal_text day_date_text decimal_of_text path_exists
  bundle_json SYSTEM_PROMPT cfg now req).
Lemma respects_form {A B} R `{!PreOrder R} (read : list (string * string) → option A)
    (k : A → Eff Failure (AppState (DbState W)) B) :
  (∀ body a, rq_form req = Some body → read (urlencoded body) = Some a → respects id R (k a)) →
  respects id R (read_form read req ≫= k).
Proof.
  intros Hk. unfold read_form, rejected. destruct (rq_form req) as [body|]; [|by follow].
  destruct (read (urlencoded body)) eqn:Hread; [by eapply Hk|by follow].
Qed.
Lemma respects_page {A} P h (m : Eff WebError (AppState (DbState W)) A) view :
  respects id (changes P h) m → respects id (changes P h) (page_of m view).
Proof. intros Hm. unfold page_of. by follow. Qed.
Lemma respects_redirected P h (m : Eff WebError (AppState (DbState W)) string) :
  respects id (changes P h) m → respects id (changes P h) (redirected m).
Proof. intros Hm. unfold redirected. by follow. Qed.
Lemma respects_banner P h (m : Eff string (AppState (DbState W)) RefreshBanner) :
  respects id (changes P h) m → respects id (changes P h) (banner_answer m).
Proof. intros Hm. unfold banner_answer. by follow. Qed.

Create HintDb handlers.
#[local] Hint Resolve respects_in_web respects_in_store respects_button overview_runs project_runs contract_runs
  function_runs unknowns_runs candidates_runs orgs_runs blacklist_runs floor_runs health_runs cell_runs
  project_cell_runs orgs_create_runs orgs_assign_runs blacklist_add_form_runs blacklist_remove_form_runs
  rename_form_runs override_form_runs rollups_button relabel_button price_button labeler_button backfill_button
  diagnose_runs : handlers.

Lemma label_cell_runs P chain address :
  respects db_tables (runs (W := W) P) (label_cell (W := DbState W) chain address).
Proof. unfold label_cell. follow. apply cell_runs. Qed.
Lemma label_edit_runs P chain address :
  respects db_tables (runs (W := W) P) (label_edit (W := DbState W) chain address).
Proof. unfold label_edit, current_slug. follow_form. Qed.
Lemma project_edit_runs P slug : respects db_tables (runs (W := W) P) (project_edit (W := DbState W) slug).
Proof. unfold project_edit. follow_form. Qed.
Lemma resolver_button_runs buttons :
  respects id (changes (may cfg req user HResolver) HResolver)
    (resolving (refresh_resolver (W := DbState W) path_exists buttons)).
Proof. apply respects_resolving; [done|apply resolver_button]. Qed.
#[local] Hint Resolve label_cell_runs label_edit_runs project_edit_runs resolver_button_runs : handlers.

Ltac follow_handler :=
  repeat first
    [ solve [eauto 4 with handlers]
    | apply (respects_form _ _ _); intros | apply respects_page | apply respects_redirected | apply respects_banner
    | follow_step ].

(** A handler behind its guard. *)
Lemma handle_changes h :
  session cfg now req = Some user → respects id (changes (may cfg req user h) h) (handled h).
Proof.
  intros Huser. destruct h; cbn [handle]; rewrite ?(guard_open _ _ _ _ user Huser);
    unfold read_query, path_param, rejected, admin_page, diagnose_answer, current_data_floor; follow_handler; done.
Qed.
End forms.

(** ** The answer to a request *)

(** The server but for its connections. *)
Record untouched (s s' : AppState (DbState W)) : Prop := {
  untouched_tables : db_tables (ap_world s') = db_tables (ap_world s);
  untouched_floor : ap_floor s' = ap_floor s;
  untouched_cache : ap_cache s' = ap_cache s;
  untouched_snapshot : ap_snapshot s' = ap_snapshot s
}.
Lemma untouched_refl s : untouched s s.
Proof. by split. Qed.

Lemma changes_untouched P h s s' : reads h = true → (∀ st, ¬ P st) → changes P h s s' → untouched s s'.
Proof.
  intros Hr HP [Ht Hf Hc Hn]. split; [|by apply Hf; destruct h|by apply Hc; destruct h|by apply Hn; destruct h].
  apply (runs_none (W := W)). eapply runs_weaken, Ht. apply HP.
Qed.

Section answered.
Variables (price_error_text : PriceError → string) (decimal_text : BigDecimal → string)
  (day_date_text : Z → string) (decimal_of_text : string → option BigDecimal)
  (path_exists : string → bool) (bundle_json : DiagnosticsBundle → string + string)
  (SYSTEM_PROMPT : string) (cfg : AppConfig) (now : Z) (req : HttpRequest).
Abbreviation answered := (serve_request (W := DbState W) price_error_text decimal_text day_date_text decimal_of_text
  path_exists bundle_json SYSTEM_PROMPT cfg now req).

(** The state after a request is the one its handler leaves. *)
Lemma serve_state s :
  (answered s).2 = match route (rq_method req) (rq_path req) with
                | Some h => (handle (W := DbState W) price_error_text decimal_text day_date_text decimal_of_text
                    path_exists bundle_json SYSTEM_PROMPT cfg now req h s).2
                | None => s
                end.
Proof. unfold serve_request. destruct (route _ _) as [h|]; [|done]. by destruct (handle _ _ _ _ _ _ _ _ _ _ h s). Qed.

Lemma serve_changes user h s :
  session cfg now req = Some user → route (rq_method req) (rq_path req) = Some h →
  changes (may cfg req user h) h s (answered s).2.
Proof. intros Huser Hroute. rewrite serve_state, Hroute. by apply (handle_changes cfg req user). Qed.
Lemma serve_closed s : session cfg now req = None → (answered s).2 = s.
Proof.
  intros Hno. rewrite serve_state. destruct (route _ _) as [h|]; [|done].
  pose proof (handle_answers (W := DbState W) price_error_text decimal_text day_date_text decimal_of_text path_exists
    bundle_json SYSTEM_PROMPT cfg now req s h s) as Hheld. unfold held in Hheld. rewrite Hno in Hheld.
  destruct (handle _ _ _ _ _ _ _ _ _ _ h s) as [r s'] eqn:Hrun. exact (proj1 (Hheld _ _ eq_refl eq_refl)).
Qed.
Lemma serve_unrouted s : route (rq_method req) (rq_path req) = None → (answered s).2 = s.
Proof. intros Hroute. by rewrite serve_state, Hroute. Qed.

(** The statements of the request, whoever asks. *)
Definition request_statement (st : Request) : Prop :=
  rq_method req = POST ∧ ∃ user h, session cfg now req = Some user ∧
    route (rq_method req) (rq_path req) = Some h ∧ may cfg req user h st.

Lemma serve_reads s : rq_method req ≠ POST → untouched s (answered s).2.
Proof.
  intros Hm. destruct (session cfg now req) as [user|] eqn:Huser; [|by rewrite serve_closed].
  destruct (route (rq_method req) (rq_path req)) as [h|] eqn:Hroute; [|by rewrite serve_unrouted].
  pose proof (route_reads _ _ _ Hroute Hm) as Hr.
  eapply changes_untouched, (serve_changes user); [done| |done|done]. intros st. by apply reads_runs_nothing.
Qed.
Lemma serve_runs s :
  runs (W := W) request_statement (db_tables (ap_world s)) (db_tables (ap_world (answered s).2)).
Proof.
  destruct (decide (rq_method req = POST)) as [Hm|Hm]; [|by rewrite (untouched_tables _ _ (serve_reads s Hm))].
  destruct (session cfg now req) as [user|] eqn:Huser; [|by rewrite serve_closed].
  destruct (route (rq_method req) (rq_path req)) as [h|] eqn:Hroute; [|by rewrite serve_unrouted].
  eapply runs_weaken, changes_tables, (serve_changes user h); [|done..].
  intros st Hst. split; [done|]. by exists user, h.
Qed.
End answered.
End handlers.

(** C10: a request changes nothing but the server's connections unless it is a form sent by a user with a session; a
    form changes the tables only by the statements it is for, an entry of the blacklist only for the contract
    and the function it names, under its sender's name, and a mapping only for the contract it names, and the data floor, the cache of the diagnosis and the
    resolver's names each by their own form alone. *)
Theorem request_changes {W : Type} `{Externals, Strings, Crypto, Markdown, UrlDecoding, Numeric, Dates, !PageTexts,
    !Aggregates, !ListTexts, Connection W, DashboardWorld W, QueueServer W, SortedSet W, Sources W, PriceApi W,
    LlmApi W, Clock W, Settings W}
    price_error_text decimal_text day_date_text decimal_of_text path_exists bundle_json SYSTEM_PROMPT
    cfg now req (s : AppState (DbState W)) :
  let '(_, s') := serve_request price_error_text decimal_text day_date_text decimal_of_text path_exists
                    bundle_json SYSTEM_PROMPT cfg now req s in
  match session cfg now req, route (rq_method req) (rq_path req) with
  | Some user, Some h => if bool_decide (rq_method req = POST) then changes (may cfg req user h) h s s'
                         else untouched s s'
  | _, _ => untouched s s'
  end.
Proof.
  destruct (serve_request _ _ _ _ _ _ _ _ _ _ s) as [r s'] eqn:Hrun.
  assert (s' = (serve_request price_error_text decimal_text day_date_text decimal_of_text path_exists
    bundle_json SYSTEM_PROMPT cfg now req s).2) as -> by by rewrite Hrun.
  clear Hrun. destruct (session cfg now req) as [user|] eqn:Huser; [|rewrite serve_closed by done; apply untouched_refl].
  destruct (route (rq_method req) (rq_path req)) as [h|] eqn:Hroute; [|rewrite serve_unrouted by done; apply untouched_refl].
  case_bool_decide; [by apply serve_changes|by apply serve_reads].
Qed.
