(* ===== verification/System.v ===== *)
(** * The deployment

    The dashboard and any number of the service's processes around one database: the dashboard answers requests,
    a command starts a process, and a running process makes a round of one of its loops. Each of these runs to
    its end before the next. Whatever requests come and whatever rounds the service makes, in any order and
    with any failures, the database keeps its references and its history, and the blacklist changes only as its
    users' forms say; that rests on what each single statement keeps ([DbWorld]). *)

From Stdlib Require Import SpecFloat.
From S2P Require Import Prelude.
From S2P Require Import Types.
From S2P Require Import Instances.
From S2P Require Import Trace.
From S2P Require Import Analyze.
From S2P Require Import Jobs.
From S2P Require Import Resolver.
From S2P Require Import ResolverSpec.
From S2P Require Import Labeler.
From S2P Require Import Auth.
From S2P Require Import AuthSpec.
From S2P Require Import Refresher.
From S2P Require Import Service.
From S2P Require Import Web.
From S2P Require Import Diagnose.
From S2P Require Import Format.
From S2P Require Import Pages.
From S2P Require Import Admin.
From S2P Require Import Database.
From S2P Require Import DatabaseSpec.
From S2P Require Import Queries.
From S2P Require Import QueriesSpec.
From S2P Require Import DbWorld.
From S2P Require Import ServiceDb.
From S2P Require Import Server.
From S2P Require Import ServerSpec.
From S2P Require Import ServerDb.

(** The dashboard's state, of which the database and what is outside are everyone's; and the processes, by the
    order in which they started. *)
Record Deployment (W : Type) `{Numeric, Dates} := mkDeployment {
  dp_app : AppState (DbState W);
  dp_processes : list (option Process)
}.
Arguments mkDeployment {W _ _ _}.
Arguments dp_app {W _ _ _}.
Arguments dp_processes {W _ _ _}.

Inductive Event :=
  | ERequest (now : Z) (req : HttpRequest)
  | EStart (cmd : Command)
  | ERound (process : nat) (task : Task).

Section deployment.
Context {W : Type} `{Externals, Strings, Unicode, Crypto, Markdown, UrlDecoding, Numeric, Dates, !PageTexts,
  !Aggregates, !ListTexts, Connection W, DashboardWorld W, WorkerWorld W, Node W, Sketch W, QueueServer W,
  Sources W, SortedSet W, Explorers W, FourByte W, PriceApi W, LlmApi W, Clock W, Settings W, Connections W,
  Clients W}.
(** What the dashboard is given ([Server]). *)
Variables (price_error_text : PriceError → string) (decimal_text : BigDecimal → string)
  (day_date_text : Z → string) (decimal_of_text : string → option BigDecimal)
  (path_exists : string → bool) (bundle_json : DiagnosticsBundle → string + string)
  (SYSTEM_PROMPT : string) (cfg : AppConfig).

Definition with_world (w : DbState W) (s : AppState (DbState W)) : AppState (DbState W) :=
  mkApp w (ap_floor s) (ap_cache s) (ap_snapshot s).

(** A process that does not start, or has ended, makes no rounds. *)
Definition deployment_step (d : Deployment W) (event : Event) : Deployment W :=
  match event with
  | ERequest now req =>
      let '(_, app) :=
        serve_request price_error_text decimal_text day_date_text decimal_of_text path_exists bundle_json
          SYSTEM_PROMPT cfg now req (dp_app d) in
      mkDeployment app (dp_processes d)
  | EStart cmd =>
      let '(r, w) := start_command path_exists cmd (ap_world (dp_app d)) in
      mkDeployment (with_world w (dp_app d))
        (dp_processes d ++ [match r with Ok p => Some p | _ => None end])
  | ERound i task =>
      match dp_processes d !! i with
      | Some (Some p) =>
          let '(p, w) := process_round path_exists database_backend p task (ap_world (dp_app d)) in
          mkDeployment (with_world w (dp_app d)) (<[i := p]> (dp_processes d))
      | _ => d
      end
  end.

Definition deployment_run (events : list Event) (d : Deployment W) : Deployment W :=
  fold_left deployment_step events d.
End deployment.

(** ** The blacklist *)

Section listed.
Context {W : Type} `{Numeric, Connection W}.

(** An entry that differs was written by an addition at its key, with the reason and the name it carries, or
    taken away by a removal at its key. *)
Definition listed (P : Request → Prop) (t t' : Tables) : Prop :=
  ∀ key, tb_exclusion t' !! key = tb_exclusion t !! key ∨
    match tb_exclusion t' !! key with
    | Some x => ∃ c a sel, P (RBlacklistAdd c a sel (ex_reason x) (ex_created_by x)) ∧ key = exclusion_key c a sel
    | None => ∃ c a sel, P (RBlacklistRemove c a sel) ∧ key = exclusion_key c a sel
    end.

Lemma listed_refl P t : listed P t t.
Proof. by left. Qed.
Lemma listed_trans P t u v : listed P t u → listed P u v → listed P t v.
Proof.
  intros Htu Huv key. destruct (Huv key) as [Hv|Hv]; [|by right]. rewrite Hv. apply Htu.
Qed.
Lemma listed_same P t t' : tb_exclusion t' = tb_exclusion t → listed P t t'.
Proof. intros Ht key. left. by rewrite Ht. Qed.

Lemma perform_listed (P : Request → Prop) req (s : DbState W) :
  P req → listed P (db_tables s) (db_tables (perform req s)).
Proof.
  intros Hreq. set (R := listed P). assert (∀ t, R t t) as Hrefl by apply listed_refl.
  assert (∀ t t', tb_exclusion t' = tb_exclusion t → R t t') as Hsame by apply listed_same.
  destruct req; cbn [perform].
  1: unfold insert_analysis; do 3 (apply (eff_res_bind_relates R); [done|intros ? _]).
  all: try (apply (execute_relates R); [done|]; intros now t x t' Hq; apply Hsame; inv_stmt;
    repeat case_match; inv_stmt; done).
  - apply (execute_relates R); [done|]. intros now t x t' Hq. apply Hsame.
    destruct (numeric_20_8 price); [|done]. cbn in Hq. by inv_stmt.
  - apply (execute_relates R); [done|]. intros now t [] t' Hq. inv_stmt. intros key. cbn.
    destruct (decide (key = exclusion_key chain_id address selector)) as [->|Hk];
      [|left; by rewrite lookup_insert_ne].
    right. rewrite lookup_insert_eq. cbn. by exists chain_id, address, selector.
  - apply (execute_relates R); [done|]. intros now t x t' Hq. inv_stmt. intros key. cbn.
    destruct (decide (key = exclusion_key chain_id address selector)) as [->|Hk]; [|left; by rewrite lookup_delete_ne].
    right. rewrite lookup_delete_eq. by exists chain_id, address, selector.
  - unfold refresh_rollups. apply (bind_relates R); [apply listed_trans|..]; [|intros [] s'];
      (apply (execute_relates R); [done|]); intros now t x t' Hq; apply Hsame; by inv_stmt.
Qed.
Lemma runs_listed (P : Request → Prop) t t' : runs (W := W) P t t' → listed P t t'.
Proof. apply runs_inv; [apply listed_refl|apply listed_trans|]. intros req s. apply perform_listed. Qed.
End listed.

(** ** Runs of the deployment *)

(** The statements of the service, and those of the events of a run. *)
Definition service_statement `{Numeric} (st : Request) : Prop :=
  persists st ∨ ∃ task, task_statement task st.
Definition event_statement `{Externals, Strings, Crypto, UrlDecoding, Numeric} (cfg : AppConfig)
    (events : list Event) (st : Request) : Prop :=
  service_statement st ∨ ∃ now req, ERequest now req ∈ events ∧ request_statement cfg now req st.

Section deployment.
Context {W : Type} `{Externals, Strings, Unicode, Crypto, Markdown, UrlDecoding, Numeric, Dates, !PageTexts,
  !Aggregates, !ListTexts, Connection W, DashboardWorld W, WorkerWorld W, Node W, Sketch W, QueueServer W,
  Sources W, SortedSet W, Explorers W, FourByte W, PriceApi W, LlmApi W, Clock W, Settings W, Connections W,
  Clients W}.
Variables (price_error_text : PriceError → string) (decimal_text : BigDecimal → string)
  (day_date_text : Z → string) (decimal_of_text : string → option BigDecimal)
  (path_exists : string → bool) (bundle_json : DiagnosticsBundle → string + string)
  (SYSTEM_PROMPT : string) (cfg : AppConfig).
Abbreviation after := (deployment_step (W := W) price_error_text decimal_text day_date_text decimal_of_text path_exists
  bundle_json SYSTEM_PROMPT cfg).
Abbreviation after_all := (deployment_run (W := W) price_error_text decimal_text day_date_text decimal_of_text path_exists
  bundle_json SYSTEM_PROMPT cfg).

(** The tables of a deployment. *)
Definition tables (d : Deployment W) : Tables := db_tables (ap_world (dp_app d)).

Lemma process_service p task st : process_statement p task st → service_statement st.
Proof. destruct p; cbn; [done|by left|by right; exists task]. Qed.
Lemma start_service cmd st : start_statement cmd st → service_statement st.
Proof. destruct cmd; cbn; [done..|]. intros (task & _ & Hst). right. by exists task. Qed.

Lemma step_runs d event : runs (W := W) (event_statement cfg [event]) (tables d) (tables (after d event)).
Proof.
  destruct event as [now req|cmd|i task]; cbn [deployment_step].
  - pose proof (serve_runs price_error_text decimal_text day_date_text decimal_of_text path_exists bundle_json
      SYSTEM_PROMPT cfg now req (dp_app d)) as Hruns. destruct (serve_request _ _ _ _ _ _ _ _ _ _ _) as [r app].
    eapply runs_weaken, Hruns. intros st Hst. right. exists now, req. split; [set_solver|done].
  - pose proof (start_runs path_exists cmd (ap_world (dp_app d))) as Hruns. destruct (start_command _ _ _) as [r w].
    eapply runs_weaken, Hruns. intros st Hst. left. by eapply start_service.
  - destruct (dp_processes d !! i) as [[p|]|]; [|done..].
    pose proof (process_runs path_exists p task (ap_world (dp_app d))) as Hruns.
    destruct (process_round _ _ _ _ _) as [p' w]. eapply runs_weaken, Hruns. intros st Hst. left.
    by eapply process_service.
Qed.
Lemma deployment_runs events d : runs (W := W) (event_statement cfg events) (tables d) (tables (after_all events d)).
Proof.
  unfold deployment_run. induction events as [|event events IH] using rev_ind; [done|].
  rewrite fold_left_app. cbn [fold_left]. etransitivity.
  - eapply runs_weaken, IH. intros st [Hst|(now & req & Hin & Hst)]; [by left|right]. exists now, req. set_solver.
  - eapply runs_weaken, step_runs. intros st [Hst|(now & req & Hin & Hst)]; [by left|right]. exists now, req.
    split; [apply elem_of_app; by right|done].
Qed.
End deployment.

(** ** What the events keep *)

(** A form for a mapping that a signed-in user sent in a run. *)
Definition overridden `{Externals, Strings, Crypto, UrlDecoding} (cfg : AppConfig) (events : list Event)
    (key : Z * Z) : Prop :=
  ∃ now req user chain address, ERequest now req ∈ events ∧ session cfg now req = Some user ∧
    route POST (rq_path req) = Some HLabelOverride ∧ override_of req chain address ∧ key = (i64_wrap chain, address).

Lemma event_overridden `{Externals, Strings, Crypto, UrlDecoding, Numeric} cfg events st key :
  event_statement cfg events st → touches st key → overridden cfg events key.
Proof.
  destruct st as [| | |chain a slug| | | | | | | | | |]; try done. cbn [touches].
  intros [[Hst|[task Hst]]|(now & req & Hin & Hpost & user & h & Huser & Hroute & Hmay)] ->;
    [done|by destruct task|].
  rewrite Hpost in Hroute. destruct h; try done. by exists now, req, user, chain, a.
Qed.

(** C9: whatever requests come and whatever rounds the service's processes make, in any order, whatever the node,
    the explorers and the price service answer and whenever a connection fails: a database whose references are
    whole stays so; no analysis is lost or measured again, and only an unknown project in it is replaced; and a
    mapping set by a person stays so, with its project unless a signed-in user sent the form for that contract. *)
Theorem deployment_keeps {W : Type} `{Externals, Strings, Unicode, Crypto, Markdown, UrlDecoding, Numeric, Dates,
    !PageTexts, !Aggregates, !ListTexts, Connection W, DashboardWorld W, WorkerWorld W, Node W, Sketch W,
    QueueServer W, Sources W, SortedSet W, Explorers W, FourByte W, PriceApi W, LlmApi W, Clock W, Settings W,
    Connections W, Clients W}
    price_error_text decimal_text day_date_text decimal_of_text path_exists bundle_json SYSTEM_PROMPT
    cfg events (d : Deployment W) :
  let d' := deployment_run price_error_text decimal_text day_date_text decimal_of_text path_exists bundle_json
              SYSTEM_PROMPT cfg events d in
  (integrity (tables d) → integrity (tables d')) ∧ kept (overridden cfg events) (tables d) (tables d').
Proof.
  cbv zeta. pose proof (deployment_runs price_error_text decimal_text day_date_text decimal_of_text path_exists
    bundle_json SYSTEM_PROMPT cfg events d) as Hruns. split; [by apply (runs_integrity (W := W) _ _ _ Hruns)|].
  eapply kept_weaken, runs_kept, Hruns. intros key (st & Hst & Htouch). by eapply event_overridden.
Qed.

(** A form of the blacklist that a signed-in user sent in a run. *)
Definition posted `{Externals, Strings, Crypto, UrlDecoding} (cfg : AppConfig) (events : list Event) (h : Handler)
    (req : HttpRequest) (user : string) : Prop :=
  ∃ now, ERequest now req ∈ events ∧ session cfg now req = Some user ∧ rq_method req = POST ∧
    route POST (rq_path req) = Some h.

Lemma event_adds `{Externals, Strings, Crypto, UrlDecoding, Numeric} cfg events c a sel reason by_ :
  event_statement cfg events (RBlacklistAdd c a sel reason by_) →
  ∃ req, posted cfg events HBlacklistAdd req by_ ∧ c = wrap64 (ac_chain_id cfg) ∧ added_of req a sel reason.
Proof.
  intros [[Hst|[task Hst]]|(now & req & Hin & Hpost & user & h & Huser & Hroute & Hmay)]; [done|by destruct task|].
  rewrite Hpost in Hroute. destruct h; try done. destruct Hmay as (-> & -> & Hof). exists req.
  split; [by exists now|done].
Qed.
Lemma event_removes `{Externals, Strings, Crypto, UrlDecoding, Numeric} cfg events c a sel :
  event_statement cfg events (RBlacklistRemove c a sel) →
  ∃ req user, posted cfg events HBlacklistRemove req user ∧ c = wrap64 (ac_chain_id cfg) ∧ removed_of req a sel.
Proof.
  intros [[Hst|[task Hst]]|(now & req & Hin & Hpost & user & h & Huser & Hroute & Hmay)]; [done|by destruct task|].
  rewrite Hpost in Hroute. destruct h; try done. destruct Hmay as [-> Hof]. exists req, user.
  split; [by exists now|done].
Qed.

(** C12: in a run of requests and rounds in any order, an entry of the blacklist that is not what it was is one that a
    signed-in user posted the form for: it is on the dashboard's chain at the contract and the function of that
    form, with the form's reason and in the user's name. One that is gone is at the contract and the function of
    a removal that a signed-in user posted. Every other entry is as it was. *)
Theorem blacklist_signed {W : Type} `{Externals, Strings, Unicode, Crypto, Markdown, UrlDecoding, Numeric, Dates,
    !PageTexts, !Aggregates, !ListTexts, Connection W, DashboardWorld W, WorkerWorld W, Node W, Sketch W,
    QueueServer W, Sources W, SortedSet W, Explorers W, FourByte W, PriceApi W, LlmApi W, Clock W, Settings W,
    Connections W, Clients W}
    price_error_text decimal_text day_date_text decimal_of_text path_exists bundle_json SYSTEM_PROMPT
    cfg events (d : Deployment W) :
  let d' := deployment_run price_error_text decimal_text day_date_text decimal_of_text path_exists bundle_json
              SYSTEM_PROMPT cfg events d in
  ∀ key, tb_exclusion (tables d') !! key = tb_exclusion (tables d) !! key ∨
    ∃ req user address selector, key = exclusion_key (wrap64 (ac_chain_id cfg)) address selector ∧
      match tb_exclusion (tables d') !! key with
      | Some x => posted cfg events HBlacklistAdd req user ∧ added_of req address selector (ex_reason x) ∧
          ex_created_by x = user ∧
          (integrity (tables d) → default [] (ex_selector x) = default [] selector)
      | None => posted cfg events HBlacklistRemove req user ∧ removed_of req address selector
      end.
Proof.
  cbv zeta. intros key. pose proof (deployment_runs price_error_text decimal_text day_date_text decimal_of_text
    path_exists bundle_json SYSTEM_PROMPT cfg events d) as Hruns.
  pose proof (runs_integrity (W := W) _ _ _ Hruns) as Hwhole.
  destruct (runs_listed _ _ _ Hruns key) as [Hsame|Hnew]; [by left|right].
  destruct (tb_exclusion (tables (deployment_run _ _ _ _ _ _ _ _ _ _)) !! key) as [x|] eqn:Hx.
  - destruct Hnew as (c & a & sel & (req & Hposted & -> & Hof)%event_adds & ->).
    exists req, (ex_created_by x), a, sel. split_and!; try done. intros Hd.
    by eapply exclusion_at_key; [apply Hwhole, Hd|].
  - destruct Hnew as (c & a & sel & (req & user & Hposted & -> & Hof)%event_removes & ->).
    by exists req, user, a, sel.
Qed.

(** ** A loop with a period of zero *)

(** It panics when it starts, which ends the refresher. *)
Example zero_period_ends {W} `{Externals, Strings, Unicode, Node W, Sketch W, QueueServer W, Sources W, Store W,
    SortedSet W, Explorers W, FourByte W, PriceApi W, PriceStore W} path_exists backend common names labeling
    fourbyte (w : W) :
  process_round path_exists backend
    (PRefresher common (mkRefresher 0 3600 3600 "" 3600 200 7 600 "" "" 3600 100 200) names labeling fourbyte)
    TResolver w = (None, w).
Proof. reflexivity. Qed.

(** ** A sample deployment

    The database and Redis are up, Redis is empty, and nothing else answers. *)

#[local] Existing Instances DatabaseSpec.sample_decimals DatabaseSpec.sample_numeric DatabaseSpec.sample_connection
  QueriesSpec.sample_dates QueriesSpec.sample_aggregates ServiceDb.sample_explorers.
Definition down {A} : Eff string Z A := eff_res (Err "down"%string).
Definition down_resolver {A} : Eff ResolverError Z A := eff_res (Err (RHttp "down")).

#[local] Instance sample_markdown : Markdown :=
  {| LinkType := unit; OtherEvent := unit; parse_markdown s := [MdText s]; push_html _ := ""%string |}.
#[local] Instance sample_page_texts : PageTexts :=
  {| timestamp_text _ := ""%string; day_text _ := ""%string; decimal_f64 _ := None |}.
#[local] Instance sample_list_texts : ListTexts := {| list_text _ _ _ := Ok [] |}.
#[local] Instance sample_dashboard_world : DashboardWorld Z := {|
  counter_text _ := mret None; event_stream _ _ := mret []; now_text w := (""%string, w); now_nanoseconds w := (w, w)
|}.
#[local] Instance sample_worker_world : WorkerWorld Z :=
  {| timeout _ m := r ← m; mret (Some r); analyzer_error_text _ := ""%string |}.
#[local] Instance sample_node : Node Z := {|
  get_block_number := down; get_transaction_receipt _ := down; get_block_by_number _ := down;
  get_transaction_by_hash _ := down; debug_trace_transaction _ := down; lower s := s; failure_text _ := ""%string
|}.
#[local] Instance sample_sketch : Sketch Z := {|
  sketch := unit; build_sketch _ := down; estimate_state_changes_gas_with_preceding _ _ _ _ _ _ := down
|}.
#[local] Instance sample_queue : QueueServer Z := {|
  rpush _ _ := mret tt; llen _ := mret 0; blpop _ _ := mret None; incr_by _ _ := mret 0; set_ex _ _ _ := mret tt;
  job_to_vec _ := []; job_from_slice _ := None; dead_to_vec _ _ _ := []; timestamp w := (w, w)
|}.
#[local] Instance sample_sources : Sources Z :=
  {| read_overlay _ := down_resolver; fetch_protocols _ := down_resolver |}.
#[local] Instance sample_sorted_set : SortedSet Z := {|
  Score := Z; Labeler.bd_to_f64 z := z; zadd _ _ _ := mret 1; zcard _ := mret 0; zpopmax _ _ := mret []
|}.
#[local] Instance sample_fourbyte : FourByte Z := {| get_signatures _ := down_resolver |}.
#[local] Instance sample_price_api : PriceApi Z := {|
  HttpClient := unit; HttpResponse := unit; build_client _ _ := mret tt; get_ok _ _ := down; json_usd _ := down;
  json_prices _ := down; utc_today w := (0, w)
|}.
#[local] Instance sample_llm : LlmApi Z := {|
  LlmHttpResponse := unit; post_chat _ _ _ := down; response_status _ := 500; response_text _ := down;
  response_json _ := down
|}.
#[local] Instance sample_clock : Clock Z := {| instant_now w := (w, w) |}.
#[local] Instance sample_settings : Settings Z := {| redis_get _ := mret None; redis_set _ _ := mret tt |}.
#[local] Instance sample_connections : Connections Z :=
  {| store_connect _ _ := mret tt; store_migrate := mret tt; redis_connect _ := mret tt |}.
#[local] Instance sample_clients : Clients Z := {|
  etherscan_new := down_resolver; blockscout_new _ := down_resolver; fourbyte_new := down_resolver;
  read_names _ := down_resolver
|}.
(** Bodies stand for the forms they are of. *)
#[local] Instance sample_urls : UrlDecoding := {|
  percent_decode s := Some s;
  urlencoded body :=
    if (body =? "spam")%string
    then [("address", "0x0000000000000000000000000000000000000005"); ("reason", "spam")]%string else [];
  parse_f64 _ := None
|}.

Definition sample_config : AppConfig :=
  mkAppConfig sample_auth 1 (mkButtonConfig 1 "" "" "" "" 200 7) 50 (mkDiagnoseConfig 1 "" None 10 30).
Definition sample_deployment : Deployment Z := mkDeployment (start_state None sample_db) [].
Definition sample_cookie : string := issue_token sample_auth 1000 "a|b".
Definition sample_events : list Event :=
  [EStart (Worker (common_default "" "") worker_default); ERound 0 TConsumer;
   ERequest 2000 (mkHttpRequest POST "/admin/blacklist/add" None None (Some "spam"));
   ERequest 2000 (mkHttpRequest POST "/admin/blacklist/add" None (Some sample_cookie) (Some "spam"));
   ERequest 2000 (mkHttpRequest GET "/admin/blacklist/remove" None (Some sample_cookie) (Some "spam"));
   EStart (HeadTracker (common_default "" "") head_tracker_default)]%string.

(** A worker starts and finds nothing to do; a tracker does not start, for want of a node. The form without a
    cookie does nothing, the one with a session adds an entry in its user's name, and a link takes none away. *)
Example sample_run :
  let d := deployment_run (λ _, ""%string) (λ _, ""%string) (λ _, ""%string) (λ _, None) (λ _, false)
             (λ _, inr ""%string) "" sample_config sample_events sample_deployment in
  (λ x, (ex_reason x, ex_created_by x)) <$> tb_exclusion (tables d) !! exclusion_key 1 5 None =
    Some ("spam", "a|b")%string ∧
  dp_processes d = [Some (PWorker (common_default "" "") worker_default empty_snapshot); None].
Proof. vm_compute. split; reflexivity. Qed.
